(* ===== verification/_CoqProject ===== *)
-Q . S2P
Prelude.v
Defs.v
Bytes.v
Ports.v
X86.v
Spinlock.v
CString.v
Kernel.v
Cprintf.v
Apic.v
Uart.v
Mp.v
Sched.v
Kalloc.v
Mutex.v
Tree.v
Tournament.v
Vm.v
Space.v
Sleeplock.v
Bio.v
Ide.v
Boot.v
Log.v
Crash.v
Fs.v
Blocks.v
Contents.v
Mkfs.v
Paths.v
Pipe.v
File.v
Fileio.v
Proc.v
Kthread.v
Asm.v
Entry.v
Console.v
Kbd.v
Exec.v
Syscall.v
Trap.v
Main.v
Grep.v
Umalloc.v
Sh.v
Shrun.v
Uprog.v
Ucmd.v
