(* ===== verification/Prelude.v ===== *)
(** * A verification development for the xv6 kernel with kernel threads

    The program is xv6, a small Unix for the x86, extended with kernel threads
    ([kthread.c]), mutexes for them ([mutex.c]) and a user library of tournament trees
    ([tree.c]).  The development translates it into definitions that can be run, from
    the first instruction after power on to the user programs, and proves of them what
    makes the parts correct.  File names in brackets are under [src/]; names without an
    extension are files of the development.

    ** How code is written down

    C integers are [Z] values with the wrap-around written out ([u32], [i32], ...).
    Kernel code is a computation [KM A] of the monad defined below, on one record
    [kernel] ([Kernel]) that holds the global variables: the process, thread, mutex,
    file, inode and buffer tables, the page contents by kernel virtual address, the
    spinlocks and the per-CPU state ([Spinlock]), the disk, and the device registers
    ([Ports]).  A pointer into a table is a position, and a pointer to a page an address.
    What other threads and CPUs do while the code waits is an oracle, a list of functions
    on the state; a run ends in [Ok], [Panic], [Wait] (still waiting when the oracle is
    used up), [Gone] (the thread has left the CPU for good, or the power failed) or
    [Undef] (an access outside its object).  Where the interleaving of several CPUs is
    the point (spinlocks, mutexes, the tournament), the code between two visible accesses
    is a step of a step relation, and the theorems are invariants of all reachable states.
    Assembly is run by two small processor models ([Asm], [Entry]).  User programs are
    interaction trees whose events are system calls ([Ucmd]), or computations on their
    own memory ([Umalloc], [Sh], [Tree]).

    ** Parts

    - Start: [Boot] ([bootmain.c]), [Entry] ([bootasm.S], [entry.S], [entryother.S],
      [asm.h], entrypgdir), [Main] ([main.c]), [Mp] ([mp.c]), [Apic] ([ioapic.c], [lapic.c], [picirq.c]),
      [X86] (segment and gate descriptors of [mmu.h], [vm.c], [trap.c]).
    - Locks and CPUs: [Spinlock] ([spinlock.c]), [Sched] (the scheduler, sleep and wakeup
      of [proc.c]), [Sleeplock] ([sleeplock.c]), [Asm] ([swtch.S], [trapasm.S],
      [vectors.pl], [usys.S], [initcode.S]).
    - Memory: [CString] ([string.c]), [Kalloc] ([kalloc.c]), [Vm] and [Space] ([vm.c]).
    - Threads: [Proc] ([proc.c]), [Kthread] ([kthread.c]), [Mutex] ([mutex.c]), [Tree]
      ([tree.c], over the mutex calls as an interface that [Mutex] discharges),
      [Tournament] (many threads in one tree).
    - Storage: [Bio] ([bio.c], [memide.c]), [Ide] ([ide.c]), [Log] and [Crash]
      ([log.c]), [Fs], [Blocks], [Contents] and [Paths] ([fs.c]), [Mkfs] ([mkfs.c]).
    - Files and calls: [Pipe] ([pipe.c]), [File] and [Fileio] ([file.c]), [Exec]
      ([exec.c]), [Syscall] ([syscall.c], [sysproc.c], [sysfile.c]), [Trap] ([trap.c]).
    - Console: [Cprintf] and [Console] ([console.c]), [Uart] ([uart.c] and the screen),
      [Kbd] ([kbd.c]).
    - User: [Umalloc] ([umalloc.c]), [Grep] ([grep.c]), [Sh] and [Shrun] ([sh.c]),
      [Uprog] and [Ucmd] (printf, [ulib.c] and the programs cat, wc, grep, echo, kill, ln,
      mkdir, rm, ls, zombie, init and the shell's main loop).
    - Shared: this file (integers, the monad and its tactics, lists), [Defs] (constants),
      [Bytes] (bytes of blocks and structures), [Ports], [Kernel].

    ** What is shown

    - Storage: however the power fails, a transaction is on the disk completely or not at
      all ([Crash.commit_atomic]), and so is each piece of a write to a file
      ([Fileio.filewrite_crash_safe]); writei changes exactly the bytes it is given and no
      other file, readi returns them, and a write is read back ([Contents], [Fileio]); the
      image of mkfs is a consistent file system with the files in it ([Mkfs]); the driver
      for a real disk does what the in-memory disk does ([Ide]).
    - Concurrency: mutual exclusion of spinlocks under any interleaving of the machine
      steps ([Spinlock]).  Any thread may call the lock and unlock of a mutex at any time:
      there is mutual exclusion as long as no lock call returns by the shortcut for the
      previous owner and no thread unlocks a mutex it held before but does not hold now,
      and there are schedules in which either breaks it; no wakeup is lost ([Mutex]).  The
      trees lock and unlock exactly their path ([Tree]); with any number of threads on the
      mutexes of the kernel, and again without the shortcut, one thread at a time is at
      the top of a tree, two at most contend for a node, and there is no deadlock
      ([Tournament]).  sleep gives up its lock only once it has ptable.lock, which may be
      busy, so that a waker that takes the lock of the condition finds it asleep; the
      scheduler, join and exit ([Sched], [Kthread]).
    - Memory: every page is handed out at most once and none is lost ([Kalloc]); the
      kernel part of an address space is exactly the intended map, and the copy for a child
      is exact and private ([Space]); copyout writes exactly its bytes ([Vm]); blocks of
      malloc never overlap ([Umalloc]).
    - Machine: a trap saves and restores every register, a context switch returns where it
      left, a new thread starts where it should ([Asm]); descriptors mean what they should
      ([X86]); the boot code reaches C in protected mode and with paging on ([Entry]),
      every other processor gets from its start-up interrupt to mpenter on a stack of its
      own ([Main]), and the loader, with its 32-bit pointers, leaves the kernel in memory ([Boot]);
      characters reach the screen, and the serial line after at most 128 looks at its
      status ([Uart]).
    - Programs: the shell parses what is printed back to the same command, and running a
      command makes the processes that its meaning says, with their pipes and files, the
      ends the parent closes, what it waits for and what happens when a fork fails ([Sh],
      [Shrun]); the prompt loop, cat, wc and grep do what they say on any files ([Ucmd]); the matcher of grep
      agrees with its regular expressions ([Grep]); pipes are queues ([Pipe]).

    ** Bounds and fuel

    A loop that is not structural has fuel that is proved, or seen from the code, to be
    enough: page loops have one unit per page of the address space ([Vm.NPAGES]), loops
    over strings the distance to the end of the object, loops over tables their length.
    A loop of the kernel that ran out of fuel would end in [Undef] or [None], and the
    theorems that give its result say that it does not.  Where the
    fuel is a count of the code itself (the looks of uartputc, the entries of a table, the
    characters of a buffer) the loop ends as in the code; the digits of printint have 32
    units, one for each bit.  [Shrun.runcmd] would let the process exit:
    [Shrun.shell_runs] shows that its fuel, which exceeds the position of the root among
    the nodes of the command, is enough.  The counters of process and thread ids
    are unbounded, where an [int] of C would overflow after 2^31 of them.  Polling a device is bounded by
    [io_patience], and a spin or a sleep by the oracle.  [Mp.mp_walk] is the one loop of
    the kernel that need not end, on a table with an entry of unknown type
    ([Mp.mpinit_unknown_loops]).

    ** Not modelled

    - The registers that lgdt and lidt load on the way through [main.c]: the tables behind
      them are in memory, and [X86] shows what the processor finds there.
    - The test programs [usertests.c], [sanity.c], [stressfs.c], [forktest.c] and
      [myprog.c]: they only exercise system calls that are modelled, most of them with
      several processes at once.
    - Declarations ([defs.h]), the linker script [kernel.ld], which is reflected in the
      parameters [k_end] and [k_data], and the multiboot header of [entry.S].
    - The Makefile, the scripts that sign the boot block and print the sources, and
      configuration files of emulators and debuggers: tools around the program.
    - Timing, caches and memory ordering of the hardware: CPUs are sequentially
      consistent, and devices answer as functions of the accesses made to them. *)

From Stdlib Require Export ZArith Lia.
From stdpp Require Export base tactics gmap strings numbers list.

#[global] Open Scope Z_scope.

(** ** Machine integers

    C's [uint], [int], [ushort], [uchar] and [char] are [Z] values reduced to
    their width; every arithmetic operation of the source that can leave the
    range is wrapped explicitly. *)

Definition u8 (z : Z) : Z := z `mod` 256.
Definition u16 (z : Z) : Z := z `mod` 65536.
Definition u32 (z : Z) : Z := z `mod` 4294967296.
Definition i32 (z : Z) : Z := (z + 2147483648) `mod` 4294967296 - 2147483648.
Definition i16 (z : Z) : Z := (z + 32768) `mod` 65536 - 32768.
Definition i8 (z : Z) : Z := (z + 128) `mod` 256 - 128.

(** Byte-addressed memory: address to byte. *)
Definition memory : Type := Z → Z.

Definition ld8 (m : memory) (a : Z) : Z := m a.
Definition st8 (m : memory) (a v : Z) : memory := λ x, if x =? a then u8 v else m x.

(** Little-endian 32-bit words, as the x86 loads and stores them. *)
Definition ld32 (m : memory) (a : Z) : Z :=
  m a + 256 * m (a + 1) + 65536 * m (a + 2) + 16777216 * m (a + 3).
Definition st32 (m : memory) (a v : Z) : memory :=
  λ x, if x =? a then u8 v
       else if x =? a + 1 then u8 (v / 256)
       else if x =? a + 2 then u8 (v / 65536)
       else if x =? a + 3 then u8 (v / 16777216)
       else m x.

(** ** The kernel monad

    A computation runs on a state [S] shared with other threads.  What the
    other threads do at the points where this one waits (a spin on a held
    lock, or off the CPU in the scheduler) is an oracle: the list of the
    state transformations they perform.  A run ends in one of five ways:
    [Ok] with a result, the remaining oracle and the final state; [Panic],
    the kernel's panic; [Wait], the oracle is used up and the thread is still
    waiting; [Gone], the thread left the CPU for good; [Undef], the C code
    performs an access outside its object. *)

Inductive res (S A : Type) : Type :=
| Ok (a : A) (s : S) (o : list (S → S))
| Panic (msg : string) (s : S)
| Wait (s : S)
| Gone (s : S)
| Undef (why : string) (s : S).
Arguments Ok {S A}.
Arguments Panic {S A}.
Arguments Wait {S A}.
Arguments Gone {S A}.
Arguments Undef {S A}.

Definition M (S A : Type) : Type := list (S → S) → S → res S A.

Definition ret {S A} (a : A) : M S A := λ o s, Ok a s o.
Definition bind {S A B} (m : M S A) (f : A → M S B) : M S B := λ o s,
  match m o s with
  | Ok a s' o' => f a o' s'
  | Panic e s' => Panic e s'
  | Wait s' => Wait s'
  | Gone s' => Gone s'
  | Undef e s' => Undef e s'
  end.
Definition get {S} : M S S := λ o s, Ok s s o.
Definition gets {S A} (f : S → A) : M S A := λ o s, Ok (f s) s o.
Definition modify {S} (f : S → S) : M S unit := λ o s, Ok tt (f s) o.
Definition panic {S A} (msg : string) : M S A := λ _ s, Panic msg s.
Definition undef {S A} (why : string) : M S A := λ _ s, Undef why s.
Definition gone {S A} : M S A := λ _ s, Gone s.

(** The final state of a run, however it ended. *)
Definition final {S A} (r : res S A) : S :=
  match r with
  | Ok _ s _ | Panic _ s | Wait s | Gone s | Undef _ s => s
  end.

Declare Scope kernel_scope.
Delimit Scope kernel_scope with K.
Notation "'let!' x := c 'in' k" := (bind c (λ x, k))
  (at level 10, x binder, c at level 100, k at level 200) : kernel_scope.
Notation "c ;;; k" := (bind c (λ _, k))
  (at level 100, k at level 200, right associativity) : kernel_scope.

(** Guarded statement [if (b) c;]. *)
Definition when {S} (b : bool) (c : M S unit) : M S unit := if b then c else ret tt.

(** A sequential loop over a list of positions: [for (x in l) body]. *)
Fixpoint for_each {S A} (l : list A) (body : A → M S unit) : M S unit :=
  match l with
  | [] => ret tt
  | x :: l' => bind (body x) (λ _, for_each l' body)
  end.

(** [while (cond) body] where [body] waits: every iteration uses up a part of
    the oracle, so its length bounds the number of iterations. *)
Fixpoint while_fuel {S} (n : nat) (cond : M S bool) (body : M S unit) : M S unit :=
  match n with
  | O => λ _ s, Wait s
  | Datatypes.S n' =>
      bind cond (λ b, if b then bind body (λ _, while_fuel n' cond body) else ret tt)
  end.
Definition while_wait {S} (cond : M S bool) (body : M S unit) : M S unit :=
  λ o s, while_fuel (Datatypes.S (length o)) cond body o s.

(** [for(;;) body] where [body] waits unless it returns from the loop. *)
Fixpoint loop_fuel {S A} (n : nat) (body : M S (option A)) : M S A :=
  match n with
  | O => λ _ s, Wait s
  | Datatypes.S n' =>
      bind body (λ r, match r with Some a => ret a | None => loop_fuel n' body end)
  end.
Definition loop_wait {S A} (body : M S (option A)) : M S A :=
  λ o s, loop_fuel (Datatypes.S (length o)) body o s.

(** ** Partial correctness over every oracle

    [triple R P m Q]: from a state satisfying [P], when every transformation
    of the oracle maps [R]-states to [R]-states, [m] neither panics nor
    leaves its objects, and when it returns, it does so in [Q]. *)

Definition rely {S} (R : S → Prop) (o : list (S → S)) : Prop :=
  Forall (λ e, ∀ s, R s → R (e s)) o.

Definition safe_res {S A} (R : S → Prop) (Q : A → S → Prop) (r : res S A) : Prop :=
  match r with
  | Ok a s o => Q a s ∧ rely R o
  | Panic _ _ | Undef _ _ => False
  | Wait _ | Gone _ => True
  end.

Definition triple {S A} (R : S → Prop) (P : S → Prop) (m : M S A)
    (Q : A → S → Prop) : Prop :=
  ∀ o s, rely R o → P s → safe_res R Q (m o s).

(** ** Tactics and hints *)

Create HintDb xv6.

(** Case analysis on the innermost test of the goal or of a hypothesis. *)
Ltac case_test :=
  match goal with
  | |- context [if ?b then _ else _] =>
      match b with
      | context [if _ then _ else _] => fail 1
      | _ => destruct b eqn:?
      end
  end.

(** [lia] with the equations of [/] and [mod]. *)
Ltac dlia := Z.div_mod_to_equations; lia.

(** Boolean comparisons to propositions. *)
Ltac to_prop :=
  repeat match goal with
  | H : (_ =? _) = true |- _ => apply Z.eqb_eq in H
  | H : (_ =? _) = false |- _ => apply Z.eqb_neq in H
  | H : (_ <? _) = true |- _ => apply Z.ltb_lt in H
  | H : (_ <? _) = false |- _ => apply Z.ltb_ge in H
  | H : (_ <=? _) = true |- _ => apply Z.leb_le in H
  | H : (_ <=? _) = false |- _ => apply Z.leb_gt in H
  | H : (_ && _)%bool = true |- _ => apply andb_true_iff in H as [? ?]
  | H : (_ || _)%bool = false |- _ => apply orb_false_iff in H as [? ?]
  | H : (_ && _)%bool = false |- _ => apply andb_false_iff in H as [?|?]
  | H : (_ || _)%bool = true |- _ => apply orb_true_iff in H as [?|?]
  | H : negb _ = true |- _ => apply negb_true_iff in H
  | H : negb _ = false |- _ => apply negb_false_iff in H
  | H : bool_decide _ = true |- _ => apply bool_decide_eq_true in H
  | H : bool_decide _ = false |- _ => apply bool_decide_eq_false in H
  end.

Ltac case_tests := repeat (case_test; to_prop; subst; try lia; try congruence; try done).

(** ** Integer lemmas *)

Lemma u8_range z : 0 ≤ u8 z < 256.
Proof. unfold u8. apply Z.mod_pos_bound. lia. Qed.

Lemma u32_range z : 0 ≤ u32 z < 4294967296.
Proof. unfold u32. apply Z.mod_pos_bound. lia. Qed.

Lemma u32_small z : 0 ≤ z < 4294967296 → u32 z = z.
Proof. apply Z.mod_small. Qed.

Lemma u8_small z : 0 ≤ z < 256 → u8 z = z.
Proof. apply Z.mod_small. Qed.

Lemma u16_small z : 0 ≤ z < 65536 → u16 z = z.
Proof. apply Z.mod_small. Qed.

Lemma i32_small z : -2147483648 ≤ z < 2147483648 → i32 z = z.
Proof. intros. unfold i32. rewrite Z.mod_small; lia. Qed.

Lemma i32_range z : -2147483648 ≤ i32 z < 2147483648.
Proof. unfold i32. pose proof (Z.mod_pos_bound (z + 2147483648) 4294967296). lia. Qed.

Lemma i8_small z : -128 ≤ z < 128 → i8 z = z.
Proof. intros. unfold i8. rewrite Z.mod_small; lia. Qed.

Lemma u32_idemp z : u32 (u32 z) = u32 z.
Proof. apply u32_small, u32_range. Qed.

Lemma u8_idemp z : u8 (u8 z) = u8 z.
Proof. apply u8_small, u8_range. Qed.

#[export] Hint Resolve u8_range u32_range i32_range : xv6.

(** The four bytes of a word determine it. *)
Lemma bytes_of_word v :
  u8 v + 256 * u8 (v / 256) + 65536 * u8 (v / 65536) + 16777216 * u8 (v / 16777216)
  = u32 v.
Proof.
  unfold u8, u32.
  assert (v / 65536 = v / 256 / 256) as -> by (by rewrite Z.div_div).
  assert (v / 16777216 = v / 256 / 256 / 256) as -> by (by rewrite !Z.div_div).
  pose proof (Z.div_mod v 256). pose proof (Z.div_mod (v / 256) 256).
  pose proof (Z.div_mod (v / 256 / 256) 256).
  set (q := v / 256 / 256 / 256) in *.
  pose proof (Z.div_mod q 256).
  pose proof (Z.mod_pos_bound v 256). pose proof (Z.mod_pos_bound (v / 256) 256).
  pose proof (Z.mod_pos_bound (v / 256 / 256) 256). pose proof (Z.mod_pos_bound q 256).
  apply (Z.mod_unique _ _ (q / 256)); [left|]; lia.
Qed.

(** Low bits joined to a multiple of a power of two. *)
Lemma lor_add n x f : 0 ≤ n → x `mod` 2 ^ n = 0 → 0 ≤ f < 2 ^ n → Z.lor x f = x + f.
Proof.
  intros Hn Hx Hf. assert (0 < 2 ^ n) by (apply Z.pow_pos_nonneg; lia). symmetry. apply Z.add_nocarry_lor. apply Z.bits_inj'. intros i Hi.
  rewrite Z.land_spec, Z.bits_0. destruct (decide (i < n)).
  - assert (x = x / 2 ^ n * 2 ^ n) as -> by (rewrite (Z.div_mod x (2 ^ n)) at 1 by lia; lia).
    by rewrite Z.mul_pow2_bits_low by lia.
  - destruct (decide (f = 0)) as [->|]; [by rewrite Z.bits_0, andb_false_r|].
    rewrite (Z.bits_above_log2 f i), andb_false_r; [done|lia|].
    apply Z.log2_lt_pow2; [lia|]. apply Z.lt_le_trans with (2 ^ n); [lia|].
    apply Z.pow_le_mono_r; lia.
Qed.

(** ** Memory lemmas *)

Lemma ld32_st32 m a v : ld32 (st32 m a v) a = u32 v.
Proof.
  unfold ld32, st32. rewrite <- bytes_of_word.
  repeat (case_test; to_prop; try lia).
Qed.

Lemma st32_other m a v x : x < a ∨ a + 4 ≤ x → st32 m a v x = m x.
Proof. intros. unfold st32. case_tests. Qed.

Lemma ld32_st32_other m a b v : b + 4 ≤ a ∨ a + 4 ≤ b → ld32 (st32 m a v) b = ld32 m b.
Proof. intros. unfold ld32. by rewrite !st32_other by lia. Qed.

Lemma st8_other m a v x : x ≠ a → st8 m a v x = m x.
Proof. intros. unfold st8. case_tests. Qed.

Lemma st8_same m a v : st8 m a v a = u8 v.
Proof. unfold st8. by rewrite Z.eqb_refl. Qed.

Lemma ld32_ext m m' a : (∀ x, a ≤ x < a + 4 → m x = m' x) → ld32 m a = ld32 m' a.
Proof. intros H. unfold ld32. by rewrite !H by lia. Qed.

(** ** Monad laws and the rules of [triple] *)

Lemma bind_ret {S A B} (a : A) (f : A → M S B) o s : bind (ret a) f o s = f a o s.
Proof. done. Qed.

Lemma bind_gets {S A B} (g : S → A) (f : A → M S B) o s : bind (gets g) f o s = f (g s) o s.
Proof. done. Qed.
Lemma bind_get {S B} (f : S → M S B) o s : bind get f o s = f s o s.
Proof. done. Qed.
Lemma bind_modify {S B} (g : S → S) (f : unit → M S B) o s :
  bind (modify g) f o s = f tt o (g s).
Proof. done. Qed.
Lemma bind_panic {S A B} msg (f : A → M S B) o s : bind (panic msg) f o s = Panic msg s.
Proof. done. Qed.
Lemma when_true {S} (c : M S unit) o s : when true c o s = c o s.
Proof. done. Qed.
Lemma when_false {S} (c : M S unit) o s : when false c o s = Ok tt s o.
Proof. done. Qed.
Lemma bind_when_true {S B} (c : M S unit) (f : unit → M S B) o s :
  bind (when true c) f o s = bind c f o s.
Proof. done. Qed.
Lemma bind_when_false {S B} (c : M S unit) (f : unit → M S B) o s :
  bind (when false c) f o s = f tt o s.
Proof. done. Qed.

Lemma bind_assoc {S A B C} (m : M S A) (f : A → M S B) (g : B → M S C) o s :
  bind (bind m f) g o s = bind m (λ a, bind (f a) g) o s.
Proof. unfold bind. by destruct (m o s). Qed.

Lemma bind_ok {S A B} (m : M S A) (f : A → M S B) o s a o' s' :
  m o s = Ok a s' o' → bind m f o s = f a o' s'.
Proof. intros H. unfold bind. by rewrite H. Qed.

Lemma bind_ext {S A B} (m : M S A) (f g : A → M S B) o s :
  (∀ a s' o', m o s = Ok a s' o' → f a o' s' = g a o' s') → bind m f o s = bind m g o s.
Proof. intros H. unfold bind. destruct (m o s) eqn:E; auto. Qed.

(** [returns m o s Q]: run from [s], [m] returns without waiting for the other
    threads, in a state and with a result that satisfy [Q]. *)
Definition returns {S A} (m : M S A) (o : list (S → S)) (s : S) (Q : A → S → Prop) : Prop :=
  ∃ a s', m o s = Ok a s' o ∧ Q a s'.

Lemma returns_ret {S A} (a : A) o (s : S) Q : Q a s → returns (ret a) o s Q.
Proof. intros. by exists a, s. Qed.
Lemma returns_bind {S A B} (m : M S A) (f : A → M S B) o s Q :
  returns m o s (λ a s', returns (f a) o s' Q) → returns (bind m f) o s Q.
Proof.
  intros (a & s1 & H & b & s2 & H2 & HQ). exists b, s2. by rewrite (bind_ok _ _ _ _ _ _ _ H).
Qed.
Lemma returns_mono {S A} (m : M S A) o s (Q Q' : A → S → Prop) :
  returns m o s Q → (∀ a s', Q a s' → Q' a s') → returns m o s Q'.
Proof. intros (a & s1 & H & HQ) Hi. exists a, s1. auto. Qed.
Lemma returns_eq {S A} (m m' : M S A) o s s' Q :
  m o s = m' o s' → returns m' o s' Q → returns m o s Q.
Proof. unfold returns. by intros ->. Qed.

(** Run the leading steps of a computation that only read or write the state. *)
Ltac mrun :=
  repeat first
    [ rewrite bind_ret | rewrite bind_gets | rewrite bind_get | rewrite bind_modify
    | rewrite bind_panic | rewrite bind_when_true | rewrite bind_when_false
    | rewrite when_true | rewrite when_false | rewrite bind_assoc
    | progress (cbn beta iota delta [negb andb orb]) ].

Lemma for_each_app {S A} (l l' : list A) (body : A → M S unit) o s :
  for_each (l ++ l') body o s = bind (for_each l body) (λ _, for_each l' body) o s.
Proof.
  revert o s. induction l as [|x l IH]; intros; [done|]. simpl.
  rewrite bind_assoc. unfold bind. destruct (body x o s); [|done..]. apply IH.
Qed.

(** A loop whose body always returns is a fold. *)
Lemma for_each_pure {S A} (Inv : S → Prop) (f : A → S → S) (l : list A)
    (body : A → M S unit) o s :
  (∀ x o s, x ∈ l → Inv s → body x o s = Ok tt (f x s) o ∧ Inv (f x s)) → Inv s →
  for_each l body o s = Ok tt (foldl (λ s x, f x s) s l) o ∧
  Inv (foldl (λ s x, f x s) s l).
Proof.
  revert s. induction l as [|x l IH]; intros s Hb Hs; simpl; [done|].
  destruct (Hb x o s ltac:(set_solver) Hs) as [Hx Hi].
  rewrite (bind_ok _ _ _ _ _ _ _ Hx). apply IH; [|done].
  intros y o' s' Hy Hs'. apply Hb; [set_solver|done].
Qed.

(** Computations use up the oracle, they never extend it. *)
Definition shrinks {S A} (m : M S A) : Prop :=
  ∀ o s a s' o', m o s = Ok a s' o' → (length o' ≤ length o)%nat.

Lemma shrinks_ret {S A} (a : A) : shrinks (@ret S A a).
Proof. intros o s b s' o' H. unfold ret in H. by simplify_eq. Qed.
Lemma shrinks_get {S} : shrinks (@get S).
Proof. intros o s b s' o' H. unfold get in H. by simplify_eq. Qed.
Lemma shrinks_gets {S A} (f : S → A) : shrinks (gets f).
Proof. intros o s b s' o' H. unfold gets in H. by simplify_eq. Qed.
Lemma shrinks_modify {S} (f : S → S) : shrinks (modify f).
Proof. intros o s b s' o' H. unfold modify in H. by simplify_eq. Qed.
Lemma shrinks_panic {S A} msg : shrinks (@panic S A msg).
Proof. intros o s b s' o' H. done. Qed.
Lemma shrinks_undef {S A} msg : shrinks (@undef S A msg).
Proof. intros o s b s' o' H. done. Qed.
Lemma shrinks_gone {S A} : shrinks (@gone S A).
Proof. intros o s b s' o' H. done. Qed.
Lemma shrinks_bind {S A B} (m : M S A) (f : A → M S B) :
  shrinks m → (∀ a, shrinks (f a)) → shrinks (bind m f).
Proof.
  intros Hm Hf o s b s' o' H. unfold bind in H. destruct (m o s) eqn:E; try done.
  apply Hm in E. apply Hf in H. lia.
Qed.
Lemma shrinks_when {S} b (c : M S unit) : shrinks c → shrinks (when b c).
Proof. intros H. destruct b; [done|apply shrinks_ret]. Qed.
Lemma shrinks_for_each {S A} (l : list A) (body : A → M S unit) :
  (∀ x, shrinks (body x)) → shrinks (for_each l body).
Proof.
  intros H. induction l; simpl; [apply shrinks_ret|]. by apply shrinks_bind.
Qed.

#[export] Hint Resolve shrinks_ret shrinks_get shrinks_gets shrinks_modify shrinks_panic
  shrinks_undef shrinks_gone shrinks_bind shrinks_when shrinks_for_each : xv6.
Ltac shrink :=
  repeat match goal with
  | |- shrinks (bind _ _) => apply shrinks_bind; [|intros ?]
  | |- shrinks (when _ _) => apply shrinks_when
  | |- shrinks (for_each _ _) => apply shrinks_for_each; intros ?
  | |- shrinks (match ?x with _ => _ end) => destruct x
  end; auto with xv6.

(** A waiting loop unfolds: one test, and one iteration if it succeeds. *)
Lemma while_fuel_mono {S} n m (cond : M S bool) (body : M S unit) o s :
  shrinks cond → (∀ o s s' o', body o s = Ok tt s' o' → (length o' < length o)%nat) →
  (length o < n)%nat → (length o < m)%nat →
  while_fuel n cond body o s = while_fuel m cond body o s.
Proof.
  unfold shrinks. intros Hc Hb. revert m o s. induction n as [|n IH]; intros [|m] o s Hn Hm; try lia.
  simpl. unfold bind. destruct (cond o s) as [b s1 o1| | | |] eqn:E1; [|done..].
  destruct b; [|done]. destruct (body o1 s1) as [[] s2 o2| | | |] eqn:E2; [|done..].
  apply Hc in E1. apply Hb in E2. apply IH; lia.
Qed.

Lemma while_wait_unfold {S} (cond : M S bool) (body : M S unit) o s :
  shrinks cond → (∀ o s s' o', body o s = Ok tt s' o' → (length o' < length o)%nat) →
  while_wait cond body o s =
    bind cond (λ b, if b then bind body (λ _, while_wait cond body) else ret tt) o s.
Proof.
  intros Hc Hb. unfold while_wait at 1. simpl. unfold bind.
  destruct (cond o s) as [b s1 o1| | | |] eqn:E1; [|done..]. destruct b; [|done].
  destruct (body o1 s1) as [[] s2 o2| | | |] eqn:E2; [|done..].
  apply Hc in E1. apply Hb in E2. apply while_fuel_mono; auto; lia.
Qed.

Lemma loop_fuel_mono {S A} n m (body : M S (option A)) o s :
  (∀ o s s' o', body o s = Ok None s' o' → (length o' < length o)%nat) →
  (length o < n)%nat → (length o < m)%nat → loop_fuel n body o s = loop_fuel m body o s.
Proof.
  intros Hb. revert m o s. induction n as [|n IH]; intros [|m] o s Hn Hm; try lia.
  simpl. unfold bind. destruct (body o s) as [[a|] s1 o1| | | |] eqn:E; try done.
  apply Hb in E. apply IH; lia.
Qed.

Lemma loop_wait_unfold {S A} (body : M S (option A)) o s :
  (∀ o s s' o', body o s = Ok None s' o' → (length o' < length o)%nat) →
  loop_wait body o s =
    bind body (λ r, match r with Some a => ret a | None => loop_wait body end) o s.
Proof.
  intros Hb. unfold loop_wait at 1. simpl. unfold bind.
  destruct (body o s) as [[a|] s1 o1| | | |] eqn:E; try done.
  apply Hb in E. apply loop_fuel_mono; auto; lia.
Qed.

Section TripleRules.
Context {S : Type} (R : S → Prop).

Lemma triple_ret {A} (P : S → Prop) (a : A) (Q : A → S → Prop) :
  (∀ s, P s → Q a s) → triple R P (ret a) Q.
Proof. intros H o s Ho Hs. split; auto. Qed.

Lemma triple_bind {A B} P (m : M S A) (f : A → M S B) (Q : A → S → Prop) T :
  triple R P m Q → (∀ a, triple R (Q a) (f a) T) → triple R P (bind m f) T.
Proof.
  intros Hm Hf o s Ho Hs. specialize (Hm o s Ho Hs). unfold bind.
  destruct (m o s); simpl in *; [|done..]. destruct Hm. by apply Hf.
Qed.

Lemma triple_modify P (f : S → S) (Q : unit → S → Prop) :
  (∀ s, P s → Q tt (f s)) → triple R P (modify f) Q.
Proof. intros H o s Ho Hs. split; auto. Qed.

Lemma triple_gets {A} P (f : S → A) (Q : A → S → Prop) :
  (∀ s, P s → Q (f s) s) → triple R P (gets f) Q.
Proof. intros H o s Ho Hs. split; auto. Qed.

Lemma triple_conseq {A} (P P' : S → Prop) (m : M S A) (Q Q' : A → S → Prop) :
  triple R P' m Q' → (∀ s, P s → P' s) → (∀ a s, Q' a s → Q a s) → triple R P m Q.
Proof.
  intros Hm HP HQ o s Ho Hs. specialize (Hm o s Ho (HP _ Hs)).
  destruct (m o s); simpl in *; [|done..]. destruct Hm. auto.
Qed.

Lemma triple_for_each {A} (P : S → Prop) (l : list A) (body : A → M S unit) :
  (∀ x, x ∈ l → triple R P (body x) (λ _, P)) →
  triple R P (for_each l body) (λ _, P).
Proof.
  induction l as [|x l IH]; intros H; simpl.
  - by apply triple_ret.
  - eapply triple_bind; [apply H; set_solver|]. intros ?. apply IH. set_solver.
Qed.
End TripleRules.

#[export] Hint Resolve triple_ret triple_modify triple_gets triple_for_each : xv6.

(** ** List lemmas *)

Lemma list_find_lookup {A} (P : A → Prop) `{∀ x, Decision (P x)} (l : list A) i x :
  list_find P l = Some (i, x) → l !! i = Some x ∧ P x ∧ (i < length l)%nat.
Proof.
  intros Hf. apply list_find_Some in Hf as (Hl & HP & _).
  eauto using lookup_lt_Some.
Qed.

Lemma list_alter_absorb {A} (f g h : A → A) i (l : list A) :
  (∀ x, f (g x) = h x) → alter f i (alter g i l) = alter h i l.
Proof.
  intros H. apply list_eq. intros j. rewrite !list_lookup_alter. case_decide; [|done].
  subst. rewrite ?decide_True by done. destruct (l !! j); simpl; [by rewrite H|done].
Qed.

Lemma list_alter_at {A} (f : A → A) i (l : list A) x :
  l !! i = Some x → alter f i l = <[i := f x]> l.
Proof.
  intros H. apply list_eq. intros j. rewrite list_lookup_alter. destruct (decide (i = j)) as [<-|].
  - rewrite list_lookup_insert_eq by (by eapply lookup_lt_Some). by rewrite H.
  - by rewrite list_lookup_insert_ne.
Qed.
