(* ===== verification/Defs.v ===== *)
(** * Constants and identifiers of the kernel

    The numeric parameters of [param.h], [memlayout.h], [mmu.h], [proc.h],
    [kthread.h], [fs.h], [buf.h] and [traps.h], the enumerations of [proc.h], and the
    names of the objects whose addresses the C code uses as identities: the
    spinlocks and the sleep channels. *)

From S2P Require Import Prelude.

(** ** param.h, proc.h, kthread.h *)
Definition NPROC : nat := 64.
Definition NTHREAD : nat := 16.
Definition KSTACKSIZE : Z := 4096.
Definition NCPU : nat := 8.
Definition NOFILE : nat := 16.
Definition NFILE : nat := 100.
Definition NINODE : nat := 50.
Definition NDEV : Z := 10.
Definition ROOTDEV : Z := 1.
Definition MAXARG : Z := 32.
Definition MAXOPBLOCKS : Z := 10.
Definition LOGSIZE : Z := MAXOPBLOCKS * 3.
Definition NBUF : nat := 30.
Definition FSSIZE : Z := 1000.
Definition MAX_MUTEXES : nat := 64.

(** Table sizes are not unfolded by simplification; their values are rewrite
    lemmas. *)
Lemma NPROC_eq : NPROC = 64%nat.
Proof. done. Qed.
Lemma NTHREAD_eq : NTHREAD = 16%nat.
Proof. done. Qed.
Lemma NOFILE_eq : NOFILE = 16%nat.
Proof. done. Qed.
Lemma NFILE_eq : NFILE = 100%nat.
Proof. done. Qed.
Lemma NINODE_eq : NINODE = 50%nat.
Proof. done. Qed.
Lemma NBUF_eq : NBUF = 30%nat.
Proof. done. Qed.
Lemma MAX_MUTEXES_eq : MAX_MUTEXES = 64%nat.
Proof. done. Qed.
#[global] Opaque NPROC NTHREAD NOFILE NFILE NINODE NBUF MAX_MUTEXES.

(** ** memlayout.h *)
Definition EXTMEM : Z := 0x100000.
Definition PHYSTOP : Z := 0xE000000.
Definition DEVSPACE : Z := 0xFE000000.
Definition KERNBASE : Z := 0x80000000.
Definition KERNLINK : Z := KERNBASE + EXTMEM.
Definition V2P (a : Z) : Z := u32 (a - KERNBASE).
Definition P2V (a : Z) : Z := u32 (a + KERNBASE).

(** ** traps.h *)
Definition T_SYSCALL : Z := 64.
Definition T_IRQ0 : Z := 32.
Definition IRQ_TIMER : Z := 0.
Definition IRQ_KBD : Z := 1.
Definition IRQ_COM1 : Z := 4.
Definition IRQ_IDE : Z := 14.
Definition IRQ_ERROR : Z := 19.
Definition IRQ_SPURIOUS : Z := 31.

(** ** mmu.h: paging *)
Definition PGSIZE : Z := 4096.
Definition NPDENTRIES : Z := 1024.
Definition PTXSHIFT : Z := 12.
Definition PDXSHIFT : Z := 22.
Definition PTE_P : Z := 0x001.
Definition PTE_W : Z := 0x002.
Definition PTE_U : Z := 0x004.
Definition PDX (va : Z) : Z := Z.land (Z.shiftr (u32 va) PDXSHIFT) 0x3FF.
Definition PTX (va : Z) : Z := Z.land (Z.shiftr (u32 va) PTXSHIFT) 0x3FF.
Definition PGADDR (d t o : Z) : Z :=
  u32 (Z.lor (Z.lor (Z.shiftl d PDXSHIFT) (Z.shiftl t PTXSHIFT)) o).
Definition PGROUNDUP (sz : Z) : Z := Z.land (u32 (sz + PGSIZE - 1)) (u32 (Z.lnot (PGSIZE - 1))).
Definition PGROUNDDOWN (a : Z) : Z := Z.land (u32 a) (u32 (Z.lnot (PGSIZE - 1))).
Definition PTE_ADDR (pte : Z) : Z := Z.land (u32 pte) (u32 (Z.lnot 0xFFF)).
Definition PTE_FLAGS (pte : Z) : Z := Z.land (u32 pte) 0xFFF.

(** eflags bits *)
Definition FL_IF : Z := 0x200.

(** ** proc.h: enumerations *)
Inductive procstate := UNUSED | EMBRYO | USED | ZOMBIE.
Inductive threadstate := UNINIT | SLEEPING | RUNNABLE | RUNNING | BLOCKED | TERMINATED.

#[export] Instance procstate_eq_dec : EqDecision procstate.
Proof. solve_decision. Defined.
#[export] Instance threadstate_eq_dec : EqDecision threadstate.
Proof. solve_decision. Defined.

(** A thread slot: position of its process in [ptable.ttable], position of
    the thread in that table. *)
Definition tslot : Type := nat * nat.

(** ** Spinlocks, by the object that contains them *)
Inductive lockid :=
| Lptable | LmutexTable | Lmutex (m : nat) | Lkmem | Lftable | Licache | Lbcache
| Llog | Lide | Lcons | Ltickslock
| Lpipe (p : Z)
| Lbufsleep (b : nat)       (* the spinlock inside a buffer's sleeplock *)
| Linodesleep (i : nat).    (* the spinlock inside an inode's sleeplock *)

#[export] Instance lockid_eq_dec : EqDecision lockid.
Proof. solve_decision. Defined.

Definition lockid_encode (l : lockid) : nat * Z :=
  match l with
  | Lptable => (0%nat, 0) | LmutexTable => (1%nat, 0) | Lmutex m => (2%nat, Z.of_nat m)
  | Lkmem => (3%nat, 0) | Lftable => (4%nat, 0) | Licache => (5%nat, 0)
  | Lbcache => (6%nat, 0) | Llog => (7%nat, 0) | Lide => (8%nat, 0)
  | Lcons => (9%nat, 0) | Ltickslock => (10%nat, 0) | Lpipe p => (11%nat, p)
  | Lbufsleep b => (12%nat, Z.of_nat b) | Linodesleep i => (13%nat, Z.of_nat i)
  end.

Definition lockid_decode (c : nat * Z) : lockid :=
  match c with
  | (0%nat, _) => Lptable | (1%nat, _) => LmutexTable | (2%nat, m) => Lmutex (Z.to_nat m)
  | (3%nat, _) => Lkmem | (4%nat, _) => Lftable | (5%nat, _) => Licache
  | (6%nat, _) => Lbcache | (7%nat, _) => Llog | (8%nat, _) => Lide
  | (9%nat, _) => Lcons | (10%nat, _) => Ltickslock | (11%nat, p) => Lpipe p
  | (12%nat, b) => Lbufsleep (Z.to_nat b) | (_, i) => Linodesleep (Z.to_nat i)
  end.

#[export] Instance lockid_countable : Countable lockid.
Proof.
  apply (inj_countable' lockid_encode lockid_decode).
  intros []; simpl; by rewrite ?Nat2Z.id.
Defined.

(** ** Sleep channels: the addresses the code sleeps on *)
Inductive chan :=
| ChProc (p : nat)          (* &ptable.proc[p] *)
| ChThread (t : tslot)      (* &ptable.ttable[p].threads[t] *)
| ChMutexTid (m : nat)      (* &mutexTable.mutexes[m].tid *)
| ChTicks                   (* &ticks *)
| ChLog                     (* &log *)
| ChPipeRead (p : Z)        (* &p->nread *)
| ChPipeWrite (p : Z)       (* &p->nwrite *)
| ChBuf (b : nat)           (* a struct buf, in iderw *)
| ChSleeplock (l : lockid)  (* a struct sleeplock *)
| ChInput.                  (* &input.r *)

#[export] Instance chan_eq_dec : EqDecision chan.
Proof. solve_decision. Defined.

(** ** Paging arithmetic *)

Lemma land_low_mask x n : 0 ≤ n → Z.land x (Z.ones n) = x `mod` 2 ^ n.
Proof. intros. by apply Z.land_ones. Qed.

Lemma land_high_mask x : 0 ≤ x < 4294967296 →
  Z.land x (u32 (Z.lnot 4095)) = x - x `mod` 4096.
Proof.
  intros Hx.
  assert (Z.land x (u32 (Z.lnot 4095)) = Z.ldiff x (Z.ones 12)) as ->.
  { apply Z.bits_inj'. intros i Hi. rewrite Z.land_spec, Z.ldiff_spec.
    change (u32 (Z.lnot 4095)) with (Z.ldiff (Z.ones 32) (Z.ones 12)).
    rewrite Z.ldiff_spec. destruct (decide (i < 32)) as [Hlt|Hge].
    - by rewrite (Z.ones_spec_low 32) by lia.
    - destruct (decide (x = 0)) as [->|Hne]; [by rewrite Z.bits_0|].
      rewrite (Z.bits_above_log2 x i); [done|lia|].
      apply Z.log2_lt_pow2; [lia|]. apply Z.lt_le_trans with (2 ^ 32); [lia|].
      apply Z.pow_le_mono_r; lia. }
  rewrite Z.ldiff_ones_r by lia. rewrite Z.shiftl_mul_pow2, Z.shiftr_div_pow2 by lia.
  change (2 ^ 12) with 4096. pose proof (Z.div_mod x 4096). lia.
Qed.

Lemma PGROUNDDOWN_spec a : 0 ≤ a < 4294967296 → PGROUNDDOWN a = a - a `mod` 4096.
Proof.
  intros. unfold PGROUNDDOWN. rewrite (u32_small a) by lia. by apply land_high_mask.
Qed.

Lemma PGROUNDUP_spec a : 0 ≤ a < 4294963200 →
  PGROUNDUP a = (a + 4095) - (a + 4095) `mod` 4096.
Proof.
  intros. unfold PGROUNDUP, PGSIZE.
  replace (a + 4096 - 1) with (a + 4095) by lia. rewrite (u32_small (a + 4095)) by lia.
  apply land_high_mask. lia.
Qed.

Lemma PTE_ADDR_spec p : 0 ≤ p < 4294967296 → PTE_ADDR p = p - p `mod` 4096.
Proof. intros. unfold PTE_ADDR. rewrite (u32_small p) by lia. by apply land_high_mask. Qed.

Lemma PDX_spec va : 0 ≤ va < 4294967296 → PDX va = va / 4194304.
Proof.
  intros. unfold PDX. rewrite u32_small by lia.
  change 0x3FF with (Z.ones 10). rewrite land_low_mask by lia.
  unfold PDXSHIFT. rewrite Z.shiftr_div_pow2 by lia. change (2 ^ 22) with 4194304.
  apply Z.mod_small. change (2 ^ 10) with 1024. dlia.
Qed.

Lemma PTX_spec va : 0 ≤ va < 4294967296 → PTX va = (va / 4096) `mod` 1024.
Proof.
  intros. unfold PTX. rewrite u32_small by lia.
  change 0x3FF with (Z.ones 10). rewrite land_low_mask by lia.
  unfold PTXSHIFT. by rewrite Z.shiftr_div_pow2 by lia.
Qed.

Lemma V2P_P2V pa : 0 ≤ pa < 2147483648 → V2P (P2V pa) = pa.
Proof.
  intros. unfold V2P, P2V, KERNBASE. rewrite (u32_small (pa + _)) by lia.
  rewrite u32_small; lia.
Qed.

Lemma P2V_V2P va : KERNBASE ≤ va < 4294967296 → P2V (V2P va) = va.
Proof.
  unfold V2P, P2V, KERNBASE. intros. rewrite (u32_small (va - _)) by lia.
  rewrite u32_small; lia.
Qed.
