(* ===== verification/Bytes.v ===== *)
(** * Bytes of blocks and structures

    Blocks and C structures as lists of bytes: reading and overwriting parts of
    them, and little-endian words and half words inside them. *)

From S2P Require Import Prelude.

(** [n] bytes at offset [off]. *)
Definition sub_bytes (l : list Z) (off n : Z) : list Z := take (Z.to_nat n) (drop (Z.to_nat off) l).
(** Overwrite with [bs] at offset [off]. *)
Definition splice (l : list Z) (off : Z) (bs : list Z) : list Z :=
  take (Z.to_nat off) l ++ bs ++ drop (Z.to_nat off + length bs) l.

Definition byte_at (l : list Z) (off : Z) : Z := nth (Z.to_nat off) l 0.
Definition get16 (l : list Z) (off : Z) : Z := byte_at l off + 256 * byte_at l (off + 1).
Definition get32 (l : list Z) (off : Z) : Z :=
  byte_at l off + 256 * byte_at l (off + 1) + 65536 * byte_at l (off + 2)
  + 16777216 * byte_at l (off + 3).
Definition bytes16 (v : Z) : list Z := [u8 v; u8 (v / 256)].
Definition bytes32 (v : Z) : list Z := [u8 v; u8 (v / 256); u8 (v / 65536); u8 (v / 16777216)].
Definition put32 (l : list Z) (off v : Z) : list Z := splice l off (bytes32 v).

Lemma byte_at_splice l off bs j :
  0 ≤ off → off + Z.of_nat (length bs) ≤ Z.of_nat (length l) → 0 ≤ j →
  byte_at (splice l off bs) j =
    if (off <=? j) && (j <? off + Z.of_nat (length bs)) then nth (Z.to_nat (j - off)) bs 0 else byte_at l j.
Proof.
  intros H0 H1 Hj. unfold byte_at, splice. rewrite !nth_lookup.
  assert (length (take (Z.to_nat off) l) = Z.to_nat off) as Hl by (rewrite length_take; lia).
  destruct (Z.leb_spec off j); simpl.
  - rewrite lookup_app_r, Hl by lia. destruct (Z.ltb_spec j (off + Z.of_nat (length bs))).
    + rewrite lookup_app_l by lia. do 2 f_equal. lia.
    + rewrite lookup_app_r, lookup_drop by lia. do 2 f_equal. lia.
  - rewrite lookup_app_l, lookup_take_lt by lia. done.
Qed.
Lemma length_splice l off bs :
  0 ≤ off → off + Z.of_nat (length bs) ≤ Z.of_nat (length l) → length (splice l off bs) = length l.
Proof. intros. unfold splice. rewrite !length_app, length_take, length_drop. lia. Qed.

Lemma get32_put32 l off v :
  0 ≤ off → off + 4 ≤ Z.of_nat (length l) → get32 (put32 l off v) off = u32 v.
Proof.
  intros. unfold get32, put32. rewrite !byte_at_splice by (simpl; lia).
  rewrite <- bytes_of_word. simpl length. repeat (case_test; to_prop; try lia).
  replace (off - off) with 0 by lia. replace (off + 1 - off) with 1 by lia.
  replace (off + 2 - off) with 2 by lia. by replace (off + 3 - off) with 3 by lia.
Qed.
Lemma get32_put32_other l off off' v :
  0 ≤ off → off + 4 ≤ Z.of_nat (length l) → 0 ≤ off' → off' + 4 ≤ off ∨ off + 4 ≤ off' →
  get32 (put32 l off v) off' = get32 l off'.
Proof.
  intros. unfold get32, put32. rewrite !byte_at_splice by (simpl; lia). simpl length.
  repeat (case_test; to_prop; try lia).
Qed.
Lemma length_put32 l off v :
  0 ≤ off → off + 4 ≤ Z.of_nat (length l) → length (put32 l off v) = length l.
Proof. intros. apply length_splice; simpl; lia. Qed.

(** Tests of a half-open range. *)
Lemma range_out a b x : x < a ∨ b ≤ x → (a <=? x) && (x <? b) = false.
Proof. intros. destruct (Z.leb_spec a x), (Z.ltb_spec x b); done || lia. Qed.
Lemma range_in a b x : a ≤ x < b → (a <=? x) && (x <? b) = true.
Proof. intros. destruct (Z.leb_spec a x), (Z.ltb_spec x b); done || lia. Qed.

Lemma length_sub_bytes l d m : 0 ≤ d → 0 ≤ m → d + m ≤ Z.of_nat (length l) → Z.of_nat (length (sub_bytes l d m)) = m.
Proof. intros. unfold sub_bytes. rewrite length_take, length_drop. lia. Qed.
Lemma sub_bytes_app l d m n : 0 ≤ d → 0 ≤ m ≤ n → sub_bytes l d n = sub_bytes l d m ++ sub_bytes l (d + m) (n - m).
Proof.
  intros. unfold sub_bytes. replace (Z.to_nat n) with (Z.to_nat m + Z.to_nat (n - m))%nat by lia.
  replace (Z.to_nat (d + m)) with (Z.to_nat d + Z.to_nat m)%nat by lia. by rewrite <- drop_drop, take_take_drop.
Qed.
