(* ===== verification/Ports.v ===== *)
(** * Device registers

    The processor's way to the devices: the I/O instructions of [x86.h] and the
    loads and stores of device registers in memory.  Every access is recorded;
    what a device answers to a read is a function of the accesses so far, which
    is the parameter that stands for the hardware.  [io_patience] bounds the
    loops that poll a register until the device is ready: a run in which the
    device takes longer is [Undef]. *)

From S2P Require Import Prelude Bytes.
Local Open Scope kernel_scope.

(** A register: an I/O port of a width, or an address. *)
Inductive ioreg := Port8 (p : Z) | Port32 (p : Z) | Mmio (a : Z).
#[export] Instance ioreg_eq_dec : EqDecision ioreg.
Proof. solve_decision. Defined.

Inductive ioev := Rd (r : ioreg) (v : Z) | Wr (r : ioreg) (v : Z).

Record ports := Ports {
  io_log : list ioev;  (* the accesses, latest first *)
  io_dev : list ioev → ioreg → Z;  (* what a read returns after the accesses *)
  io_patience : nat
}.

Class PortState (S : Type) := {
  ports_of : S → ports;
  set_ports : ports → S → S;
  ports_of_set : ∀ p s, ports_of (set_ports p s) = p;
  set_ports_set : ∀ p q s, set_ports p (set_ports q s) = set_ports p s;
  set_ports_id : ∀ s, set_ports (ports_of s) s = s
}.

Definition logged (e : ioev) (p : ports) : ports := Ports (e :: io_log p) (io_dev p) (io_patience p).
Definition answer (p : ports) (r : ioreg) : Z := io_dev p (io_log p) r.

Section Ops.
Context {S : Type} `{!PortState S}.

Definition io_read (r : ioreg) : M S Z := λ o s,
  let v := answer (ports_of s) r in Ok v (set_ports (logged (Rd r v) (ports_of s)) s) o.
Definition io_write (r : ioreg) (v : Z) : M S unit := λ o s,
  Ok tt (set_ports (logged (Wr r v) (ports_of s)) s) o.

(** ** x86.h *)

Definition inb (port : Z) : M S Z := let! v := io_read (Port8 port) in ret (u8 v).
Definition outb (port data : Z) : M S unit := io_write (Port8 port) (u8 data).

(** [cnt] words, as bytes. *)
Fixpoint insl (port : Z) (cnt : nat) : M S (list Z) :=
  match cnt with
  | O => ret []
  | Datatypes.S n =>
      let! v := io_read (Port32 port) in
      let! l := insl port n in
      ret (bytes32 v ++ l)
  end.
(** The first [cnt] words of the bytes [l]. *)
Fixpoint outsl (port : Z) (l : list Z) (cnt : nat) : M S unit :=
  match cnt with
  | O => ret tt
  | Datatypes.S n => io_write (Port32 port) (get32 l 0) ;;; outsl port (drop 4 l) n
  end.

(** Read a register until the value satisfies [p]. *)
Fixpoint poll (n : nat) (read : M S Z) (p : Z → bool) : M S Z :=
  match n with
  | O => undef "device never ready"
  | Datatypes.S n' => let! v := read in if p v then ret v else poll n' read p
  end.
Definition poll_until (read : M S Z) (p : Z → bool) : M S Z := λ o s,
  poll (Datatypes.S (io_patience (ports_of s))) read p o s.
End Ops.

(** ** Runs of port accesses

    What the operations do to the log. *)

Definition with_log (l : list ioev) (p : ports) : ports := Ports (l ++ io_log p) (io_dev p) (io_patience p).

Lemma with_log_nil p : with_log [] p = p.
Proof. by destruct p. Qed.
Lemma with_log_app l l' p : with_log l (with_log l' p) = with_log (l ++ l') p.
Proof. unfold with_log. cbn. by rewrite app_assoc. Qed.

Section Runs.
Context {S : Type} `{!PortState S}.

Lemma inb_eq port o (s : S) :
  inb port o s = Ok (u8 (answer (ports_of s) (Port8 port)))
    (set_ports (with_log [Rd (Port8 port) (answer (ports_of s) (Port8 port))] (ports_of s)) s) o.
Proof. done. Qed.
Lemma outb_eq port v o (s : S) :
  outb port v o s = Ok tt (set_ports (with_log [Wr (Port8 port) (u8 v)] (ports_of s)) s) o.
Proof. done. Qed.

(** The words of [l]. *)
Fixpoint words (l : list Z) (cnt : nat) : list Z :=
  match cnt with O => [] | Datatypes.S n => get32 l 0 :: words (drop 4 l) n end.

Lemma outsl_eq port l cnt o (s : S) :
  outsl port l cnt o s = Ok tt (set_ports (with_log (rev (Wr (Port32 port) <$> words l cnt)) (ports_of s)) s) o.
Proof.
  revert l s. induction cnt as [|n IH]; intros l s.
  - cbn [words fmap list_fmap rev]. by rewrite with_log_nil, set_ports_id.
  - cbn [outsl words]. change (Wr (Port32 port) <$> get32 l 0 :: words (drop 4 l) n)
      with (Wr (Port32 port) (get32 l 0) :: (Wr (Port32 port) <$> words (drop 4 l) n)). cbn [rev].
    unfold bind, io_write. rewrite IH, ports_of_set, set_ports_set. do 2 f_equal.
    change (logged (Wr (Port32 port) (get32 l 0)) (ports_of s)) with (with_log [Wr (Port32 port) (get32 l 0)] (ports_of s)).
    by rewrite with_log_app.
Qed.

(** A poll of a device that is ready ends with the first read. *)
Lemma poll_until_ready (p : Z → bool) port o (s : S) :
  p (u8 (answer (ports_of s) (Port8 port))) = true →
  poll_until (inb port) p o s = Ok (u8 (answer (ports_of s) (Port8 port)))
    (set_ports (with_log [Rd (Port8 port) (answer (ports_of s) (Port8 port))] (ports_of s)) s) o.
Proof. intros H. unfold poll_until. cbn [poll]. rewrite (bind_ok _ _ _ _ _ _ _ (inb_eq port o s)). by rewrite H. Qed.
End Runs.
