(* ===== verification/X86.v ===== *)
(** * Segments, gates and the trap vectors of the x86

    The descriptors of [mmu.h] ([struct segdesc], [SEG], [SEG16],
    [struct gatedesc], [SETGATE]), the tables that [seginit] of [vm.c] and
    [tvinit] of [trap.c] fill with them, and the pseudo-descriptors of [lgdt] and
    [lidt] of [x86.h].  The bit fields of a descriptor are laid out from the low
    bit up, as the compiler does.  [seg_at] and [gate_at] read a descriptor the way
    the processor does, so the theorems say what the tables mean to it. *)

From S2P Require Import Prelude Defs.

(** ** mmu.h *)
Definition SEG_KCODE : Z := 1.
Definition SEG_KDATA : Z := 2.
Definition SEG_UCODE : Z := 3.
Definition SEG_UDATA : Z := 4.
Definition SEG_TSS : Z := 5.
Definition NSEGS : Z := 6.
Definition DPL_USER : Z := 3.
Definition STA_X : Z := 0x8.
Definition STA_W : Z := 0x2.
Definition STA_R : Z := 0x2.
Definition STS_T32A : Z := 0x9.
Definition STS_IG32 : Z := 0xE.
Definition STS_TG32 : Z := 0xF.

Record segdesc := Segdesc {
  lim_15_0 : Z; base_15_0 : Z; base_23_16 : Z; sd_type : Z; sd_s : Z; sd_dpl : Z; sd_p : Z;
  lim_19_16 : Z; sd_avl : Z; sd_rsv1 : Z; sd_db : Z; sd_g : Z; base_31_24 : Z
}.

Definition SEG (type base lim dpl : Z) : segdesc :=
  Segdesc (Z.land (Z.shiftr lim 12) 0xffff) (Z.land (u32 base) 0xffff) (Z.land (Z.shiftr (u32 base) 16) 0xff)
    type 1 dpl 1 (Z.shiftr (u32 lim) 28) 0 0 1 1 (Z.shiftr (u32 base) 24).
Definition SEG16 (type base lim dpl : Z) : segdesc :=
  Segdesc (Z.land lim 0xffff) (Z.land (u32 base) 0xffff) (Z.land (Z.shiftr (u32 base) 16) 0xff)
    type 1 dpl 1 (Z.shiftr (u32 lim) 16) 0 0 1 0 (Z.shiftr (u32 base) 24).
Definition set_sd_s (s : Z) (d : segdesc) : segdesc :=
  Segdesc (lim_15_0 d) (base_15_0 d) (base_23_16 d) (sd_type d) s (sd_dpl d) (sd_p d)
    (lim_19_16 d) (sd_avl d) (sd_rsv1 d) (sd_db d) (sd_g d) (base_31_24 d).

(** A field of [w] bits at bit [b] of a word. *)
Definition bits (w b v : Z) : Z := (v `mod` 2 ^ w) * 2 ^ b.
Definition seg_lo (d : segdesc) : Z := bits 16 0 (lim_15_0 d) + bits 16 16 (base_15_0 d).
Definition seg_hi (d : segdesc) : Z :=
  bits 8 0 (base_23_16 d) + bits 4 8 (sd_type d) + bits 1 12 (sd_s d) + bits 2 13 (sd_dpl d) + bits 1 15 (sd_p d)
  + bits 4 16 (lim_19_16 d) + bits 1 20 (sd_avl d) + bits 1 21 (sd_rsv1 d) + bits 1 22 (sd_db d) + bits 1 23 (sd_g d)
  + bits 8 24 (base_31_24 d).
Definition put_seg (m : memory) (a : Z) (d : segdesc) : memory := st32 (st32 m a (seg_lo d)) (a + 4) (seg_hi d).

Record gatedesc := Gatedesc {
  off_15_0 : Z; gd_cs : Z; gd_args : Z; gd_rsv1 : Z; gd_type : Z; gd_s : Z; gd_dpl : Z; gd_p : Z; off_31_16 : Z
}.
Definition SETGATE (istrap : bool) (sel off d : Z) : gatedesc :=
  Gatedesc (Z.land (u32 off) 0xffff) sel 0 0 (if istrap then STS_TG32 else STS_IG32) 0 d 1 (Z.shiftr (u32 off) 16).
Definition gate_lo (g : gatedesc) : Z := bits 16 0 (off_15_0 g) + bits 16 16 (gd_cs g).
Definition gate_hi (g : gatedesc) : Z :=
  bits 5 0 (gd_args g) + bits 3 5 (gd_rsv1 g) + bits 4 8 (gd_type g) + bits 1 12 (gd_s g) + bits 2 13 (gd_dpl g)
  + bits 1 15 (gd_p g) + bits 16 16 (off_31_16 g).
Definition put_gate (m : memory) (a : Z) (g : gatedesc) : memory := st32 (st32 m a (gate_lo g)) (a + 4) (gate_hi g).

(** ** vm.c: seginit; the TSS descriptor of switchuvm *)

(** The four segments of the table at [gdt], the [gdt] field of the CPU. *)
Definition seginit (gdt : Z) (m : memory) : memory :=
  let m := put_seg m (gdt + 8 * SEG_KCODE) (SEG (Z.lor STA_X STA_R) 0 0xffffffff 0) in
  let m := put_seg m (gdt + 8 * SEG_KDATA) (SEG STA_W 0 0xffffffff 0) in
  let m := put_seg m (gdt + 8 * SEG_UCODE) (SEG (Z.lor STA_X STA_R) 0 0xffffffff DPL_USER) in
  put_seg m (gdt + 8 * SEG_UDATA) (SEG STA_W 0 0xffffffff DPL_USER).

(** [sizeof(struct taskstate)] *)
Definition TSS_SIZE : Z := 104.
Definition tss_segment (ts : Z) : segdesc := set_sd_s 0 (SEG16 STS_T32A ts (TSS_SIZE - 1) 0).

(** ** trap.c: tvinit *)

(** The gates of the table at [idt], for the handlers of the array [vectors]. *)
Definition tvinit_gates (vectors : Z → Z) (idt : Z) (m : memory) : memory :=
  let m := foldl (λ m i, put_gate m (idt + 8 * Z.of_nat i) (SETGATE false (Z.shiftl SEG_KCODE 3) (vectors (Z.of_nat i)) 0))
             m (seq 0 256) in
  put_gate m (idt + 8 * T_SYSCALL) (SETGATE true (Z.shiftl SEG_KCODE 3) (vectors T_SYSCALL) DPL_USER).

(** ** x86.h: lgdt, lidt *)

(** The six bytes the two instructions read: [size-1] and the address. *)
Definition pseudo_desc (p size : Z) : list Z := [Z.land (size - 1) 0xffff; Z.land p 0xffff; Z.land (Z.shiftr p 16) 0xffff].
(** What the processor takes them for: the limit and the base. *)
Definition load_pseudo (pd : list Z) : Z * Z :=
  match pd with [a; b; c] => (a, b + 65536 * c) | _ => (0, 0) end.

(** The table registers that seginit and idtinit load. *)
Definition load_gdt (gdt : Z) : Z * Z := load_pseudo (pseudo_desc gdt (8 * NSEGS)).
Definition idtinit (idt : Z) : Z * Z := load_pseudo (pseudo_desc idt (8 * 256)).

(** ** What the processor reads *)

Record segment := Segment { sg_base : Z; sg_limit : Z; sg_type : Z; sg_app : bool; sg_dpl : Z }.
(** A present segment; the limit is the offset of its last byte. *)
Definition seg_of (lo hi : Z) : option segment :=
  if (hi / 2 ^ 15) `mod` 2 =? 1 then
    let lim := lo `mod` 2 ^ 16 + 2 ^ 16 * ((hi / 2 ^ 16) `mod` 2 ^ 4) in
    Some (Segment (lo / 2 ^ 16 + 2 ^ 16 * (hi `mod` 2 ^ 8) + 2 ^ 24 * (hi / 2 ^ 24))
      (if (hi / 2 ^ 23) `mod` 2 =? 1 then lim * 2 ^ 12 + 0xfff else lim)
      ((hi / 2 ^ 8) `mod` 2 ^ 4) ((hi / 2 ^ 12) `mod` 2 =? 1) ((hi / 2 ^ 13) `mod` 2 ^ 2))
  else None.
(** Segment [i] of the table at [gdt]. *)
Definition seg_at (m : memory) (gdt i : Z) : option segment := seg_of (ld32 m (gdt + 8 * i)) (ld32 m (gdt + 8 * i + 4)).

Record gate := Gate { g_off : Z; g_sel : Z; g_trap : bool; g_dpl : Z }.
(** A present 32-bit interrupt or trap gate of the table at [idt]. *)
Definition gate_at (m : memory) (idt i : Z) : option gate :=
  let lo := ld32 m (idt + 8 * i) in
  let hi := ld32 m (idt + 8 * i + 4) in
  let type := (hi / 2 ^ 8) `mod` 2 ^ 5 in
  if ((hi / 2 ^ 15) `mod` 2 =? 1) && ((type =? 14) || (type =? 15)) then
    Some (Gate (lo `mod` 2 ^ 16 + 2 ^ 16 * (hi / 2 ^ 16)) (lo / 2 ^ 16) (type =? 15) ((hi / 2 ^ 13) `mod` 2 ^ 2))
  else None.

(** ** Lemmas *)

Lemma pd_load p size : 0 ≤ p < 2 ^ 32 → 0 < size ≤ 2 ^ 16 → load_pseudo (pseudo_desc p size) = (size - 1, p).
Proof.
  intros Hp Hs. unfold load_pseudo, pseudo_desc. change 0xffff with (Z.ones 16). rewrite !Z.land_ones, Z.shiftr_div_pow2 by lia.
  change (2 ^ 16) with 65536 in *. f_equal; dlia.
Qed.

Lemma table_registers gdt idt :
  0 ≤ gdt < 2 ^ 32 → 0 ≤ idt < 2 ^ 32 → load_gdt gdt = (47, gdt) ∧ idtinit idt = (2047, idt).
Proof. intros Hg Hi. unfold load_gdt, idtinit. by rewrite !pd_load. Qed.

Lemma ld_seg m a d : ld32 (put_seg m a d) a = u32 (seg_lo d) ∧ ld32 (put_seg m a d) (a + 4) = u32 (seg_hi d).
Proof. unfold put_seg. split; [rewrite ld32_st32_other by lia|]; by rewrite ld32_st32. Qed.
Lemma seg_at_put m gdt i j d :
  seg_at (put_seg m (gdt + 8 * j) d) gdt i = if i =? j then seg_of (u32 (seg_lo d)) (u32 (seg_hi d)) else seg_at m gdt i.
Proof.
  unfold seg_at. destruct (Z.eqb_spec i j) as [->|H]; [by destruct (ld_seg m (gdt + 8 * j) d) as [-> ->]|].
  unfold put_seg. by rewrite !ld32_st32_other by lia.
Qed.
Lemma ld_gate m a g : ld32 (put_gate m a g) a = u32 (gate_lo g) ∧ ld32 (put_gate m a g) (a + 4) = u32 (gate_hi g).
Proof. unfold put_gate. split; [rewrite ld32_st32_other by lia|]; by rewrite ld32_st32. Qed.
Lemma put_gate_other m a g b : b + 4 ≤ a ∨ a + 8 ≤ b → ld32 (put_gate m a g) b = ld32 m b.
Proof. intros H. unfold put_gate. by rewrite !ld32_st32_other by lia. Qed.

Lemma gate_at_ext m m' idt i :
  ld32 m (idt + 8 * i) = ld32 m' (idt + 8 * i) → ld32 m (idt + 8 * i + 4) = ld32 m' (idt + 8 * i + 4) →
  gate_at m idt i = gate_at m' idt i.
Proof. intros H1 H2. unfold gate_at. by rewrite H1, H2. Qed.

(** A gate means what SETGATE was given. *)
Lemma gate_at_put m idt i istrap sel off d :
  0 ≤ off < 2 ^ 32 → 0 ≤ sel < 2 ^ 16 → 0 ≤ d < 4 →
  gate_at (put_gate m (idt + 8 * i) (SETGATE istrap sel off d)) idt i = Some (Gate off sel istrap d).
Proof.
  intros Ho Hs Hd. unfold gate_at. destruct (ld_gate m (idt + 8 * i) (SETGATE istrap sel off d)) as [-> ->].
  unfold gate_lo, gate_hi, bits, SETGATE. cbn [off_15_0 gd_cs gd_args gd_rsv1 gd_type gd_s gd_dpl gd_p off_31_16].
  change 0xffff with (Z.ones 16). rewrite (u32_small off), Z.land_ones, Z.shiftr_div_pow2 by lia.
  change (2 ^ 32) with 4294967296 in *. change (2 ^ 16) with 65536 in *. change (2 ^ 15) with 32768. change (2 ^ 13) with 8192.
  change (2 ^ 12) with 4096. change (2 ^ 8) with 256. change (2 ^ 5) with 32. change (2 ^ 4) with 16. change (2 ^ 3) with 8.
  change (2 ^ 2) with 4. change (2 ^ 1) with 2. change (2 ^ 0) with 1. unfold STS_TG32, STS_IG32.
  rewrite (Z.mod_small (off `mod` 65536)), (Z.mod_small sel), (Z.mod_small (off / 65536)), (Z.mod_small d) by dlia.
  change (0 `mod` 32) with 0. change (0 `mod` 8) with 0. change (0 `mod` 2) with 0. change (1 `mod` 2) with 1.
  set (lo := off `mod` 65536) in *. set (hi := off / 65536) in *. assert (0 ≤ lo < 65536) by (unfold lo; dlia). assert (0 ≤ hi < 65536) by (unfold hi; dlia).
  assert (off = lo + 65536 * hi) as Eo by (unfold lo, hi; dlia).
  rewrite !u32_small by (destruct istrap; dlia).
  set (t := (if istrap then 15 else 14) `mod` 16). assert (t = if istrap then 15 else 14) as Et by (by destruct istrap).
  clearbody lo hi t. set (w := _ + hi * 65536).
  assert ((w / 32768) `mod` 2 = 1) as -> by (unfold w; destruct istrap; dlia).
  assert ((w / 256) `mod` 32 = t) as -> by (unfold w; destruct istrap; dlia).
  assert ((w / 8192) `mod` 4 = d) as -> by (unfold w; destruct istrap; dlia).
  assert (w / 65536 = hi) as -> by (unfold w; destruct istrap; dlia).
  assert ((lo * 1 + sel * 65536) `mod` 65536 = lo) as -> by dlia. assert ((lo * 1 + sel * 65536) / 65536 = sel) as -> by dlia.
  rewrite Et. destruct istrap; by rewrite Eo.
Qed.

Lemma tvinit_loop vectors idt n : (∀ i, 0 ≤ i < 256 → 0 ≤ vectors i < 2 ^ 32) → (n ≤ 256)%nat → ∀ m i,
  let m' := foldl (λ m i, put_gate m (idt + 8 * Z.of_nat i) (SETGATE false (Z.shiftl SEG_KCODE 3) (vectors (Z.of_nat i)) 0)) m (seq 0 n) in
  0 ≤ i < Z.of_nat n → gate_at m' idt i = Some (Gate (vectors i) 8 false 0).
Proof.
  intros Hv. induction n as [|n IH]; intros Hn m i m' Hi; [lia|]. unfold m'. rewrite seq_S, foldl_app. cbn [foldl Nat.add].
  set (m0 := foldl _ m (seq 0 n)). destruct (decide (i = Z.of_nat n)) as [->|Hne].
  - apply gate_at_put; [apply Hv; lia|done|done].
  - rewrite (gate_at_ext _ m0) by (rewrite put_gate_other by lia; done). apply (IH ltac:(lia) m); lia.
Qed.

Lemma tvinit_gates_at vectors idt m i :
  (∀ i, 0 ≤ i < 256 → 0 ≤ vectors i < 2 ^ 32) → 0 ≤ i < 256 →
  gate_at (tvinit_gates vectors idt m) idt i =
    Some (Gate (vectors i) (8 * SEG_KCODE) (i =? T_SYSCALL) (if i =? T_SYSCALL then DPL_USER else 0)).
Proof.
  intros Hv Hi. unfold tvinit_gates. set (m0 := foldl _ m _). destruct (Z.eqb_spec i T_SYSCALL) as [->|Hne].
  - apply gate_at_put; [by apply Hv|done|done].
  - unfold T_SYSCALL in *. rewrite (gate_at_ext _ m0) by (rewrite put_gate_other by lia; done). by apply (tvinit_loop vectors idt 256 Hv ltac:(lia) m).
Qed.

Lemma seginit_segs gdt m :
  seg_at (seginit gdt m) gdt SEG_KCODE = Some (Segment 0 0xffffffff (STA_X + STA_R) true 0) ∧
  seg_at (seginit gdt m) gdt SEG_KDATA = Some (Segment 0 0xffffffff STA_W true 0) ∧
  seg_at (seginit gdt m) gdt SEG_UCODE = Some (Segment 0 0xffffffff (STA_X + STA_R) true DPL_USER) ∧
  seg_at (seginit gdt m) gdt SEG_UDATA = Some (Segment 0 0xffffffff STA_W true DPL_USER).
Proof. unfold seginit. rewrite !seg_at_put. done. Qed.
Lemma seginit_other gdt m a : a + 4 ≤ gdt + 8 ∨ gdt + 40 ≤ a → ld32 (seginit gdt m) a = ld32 m a.
Proof.
  intros Ha. unfold seginit, put_seg, SEG_KCODE, SEG_KDATA, SEG_UCODE, SEG_UDATA. cbv zeta. by rewrite !ld32_st32_other by lia.
Qed.

(** [C33] The descriptor tables mean what the kernel needs.  After tvinit the
    processor finds for each of the 256 vectors a gate to the handler of the array
    vectors in the kernel code segment: an interrupt gate for the kernel only, but
    for T_SYSCALL a trap gate that user code may call.  After seginit it finds four
    flat segments of 4 GB, code and data for the kernel at level 0 and for user
    programs at level 3. *)
Theorem descriptor_tables vectors idt gdt m :
  (∀ i, 0 ≤ i < 256 → 0 ≤ vectors i < 2 ^ 32) →
  (∀ i, 0 ≤ i < 256 → gate_at (tvinit_gates vectors idt m) idt i =
     Some (Gate (vectors i) (8 * SEG_KCODE) (i =? T_SYSCALL) (if i =? T_SYSCALL then DPL_USER else 0))) ∧
  seg_at (seginit gdt m) gdt SEG_KCODE = Some (Segment 0 0xffffffff (STA_X + STA_R) true 0) ∧
  seg_at (seginit gdt m) gdt SEG_KDATA = Some (Segment 0 0xffffffff STA_W true 0) ∧
  seg_at (seginit gdt m) gdt SEG_UCODE = Some (Segment 0 0xffffffff (STA_X + STA_R) true DPL_USER) ∧
  seg_at (seginit gdt m) gdt SEG_UDATA = Some (Segment 0 0xffffffff STA_W true DPL_USER).
Proof.
  intros Hv. split; [intros i; by apply tvinit_gates_at|apply seginit_segs].
Qed.

(** The task state segment spans the structure at [ts], for level 0. *)
Lemma tss_segment_at m gdt ts :
  0 ≤ ts < 2 ^ 32 → seg_at (put_seg m (gdt + 8 * SEG_TSS) (tss_segment ts)) gdt SEG_TSS = Some (Segment ts (TSS_SIZE - 1) STS_T32A false 0).
Proof.
  intros H. rewrite seg_at_put, Z.eqb_refl. unfold seg_of.
  unfold seg_lo, seg_hi, bits, tss_segment, set_sd_s, SEG16. cbn [lim_15_0 base_15_0 base_23_16 sd_type sd_s sd_dpl sd_p lim_19_16 sd_avl sd_rsv1 sd_db sd_g base_31_24].
  change 0xffff with (Z.ones 16). change 0xff with (Z.ones 8). rewrite (u32_small ts), !Z.land_ones, !Z.shiftr_div_pow2 by lia.
  change (u32 (TSS_SIZE - 1)) with 103. change (TSS_SIZE - 1) with 103. change STS_T32A with 9.
  change (2 ^ 32) with 4294967296 in *. change (2 ^ 16) with 65536 in *. change (2 ^ 15) with 32768. change (2 ^ 13) with 8192. change (2 ^ 24) with 16777216.
  change (2 ^ 20) with 1048576. change (2 ^ 21) with 2097152. change (2 ^ 22) with 4194304. change (2 ^ 23) with 8388608.
  change (2 ^ 12) with 4096. change (2 ^ 8) with 256. change (2 ^ 5) with 32. change (2 ^ 4) with 16. change (2 ^ 2) with 4. change (2 ^ 1) with 2. change (2 ^ 0) with 1.
  set (a := (ts `mod` 65536)). set (b := ((ts / 65536) `mod` 256)). set (c := ts / 16777216).
  assert (0 ≤ a < 65536) by (unfold a; dlia). assert (0 ≤ b < 256) by (unfold b; dlia). assert (0 ≤ c < 256) by (unfold c; dlia).
  assert (ts = a + 65536 * b + 16777216 * c) as E by (unfold a, b, c; dlia). clearbody a b c.
  do 2 change (103 `mod` 65536) with 103. change (9 `mod` 16) with 9. change (0 `mod` 2) with 0. change (0 `mod` 4) with 0. change (1 `mod` 2) with 1. change ((103 / 65536) `mod` 16) with 0.
  rewrite (Z.mod_small a), (Z.mod_small b), (Z.mod_small c) by lia. rewrite !u32_small by lia.
  set (hi := b * 1 + _ + _ + _ + _ + _ + _ + _ + _ + _ + _). assert (hi = b + 35072 + 4194304 + c * 16777216) as -> by (unfold hi; lia).
  repeat (case_test; to_prop; try dlia). f_equal. f_equal; [dlia..| |dlia]. apply Z.eqb_neq. dlia.
Qed.

Lemma descriptor_tables_witness :
  gate_at (tvinit_gates (λ i, 0x80106000 + 8 * i) 0x80115000 (λ _, 0)) 0x80115000 64 = Some (Gate 0x80106200 8 true 3).
Proof.
  destruct (descriptor_tables (λ i, 0x80106000 + 8 * i) 0x80115000 0x80112780 (λ _, 0) ltac:(intros; lia)) as [H _].
  exact (H 64 ltac:(lia)).
Defined.
