(* ===== verification/Spinlock.v ===== *)
(** * Spinlocks and interrupt masking

    [spinlock.c] with [mycpu] and [cpuid] of [proc.c].  The state is the lock
    words, the [cpus] table and the hardware of each CPU (its local APIC id
    and its interrupt flag); the code runs on hardware CPU [lk_self].  The
    operations are written for any state that contains such a lock state
    (class [LockState]); the last part of the file is the interleaved
    execution of [acquire] and [release] on all CPUs and the mutual exclusion
    the lock provides. *)

From S2P Require Import Prelude Defs.
Local Open Scope kernel_scope.

(** struct spinlock; [name] and [pcs] only serve debugging output and [pcs]
    is left out. *)
Record spinlock := Spinlock { l_locked : Z; l_cpu : option nat; l_name : string }.

(** The fields of struct cpu that masking uses. *)
Record cpu := Cpu { c_apicid : Z; c_ncli : Z; c_intena : Z }.

(** The hardware of a CPU: APIC id register, interrupt flag. *)
Record hwcpu := HwCpu { h_apicid : Z; h_if : bool }.

Record lkstate := LkState {
  lk_locks : gmap lockid spinlock;
  lk_cpus : list cpu;
  lk_hw : list hwcpu;
  lk_self : nat
}.

(** A static lock starts zeroed. *)
Definition zero_lock : spinlock := Spinlock 0 None "".

Definition getlock (l : lockid) (k : lkstate) : spinlock :=
  default zero_lock (lk_locks k !! l).
Definition setlock (l : lockid) (x : spinlock) (k : lkstate) : lkstate :=
  LkState (<[l := x]> (lk_locks k)) (lk_cpus k) (lk_hw k) (lk_self k).
Definition setcpus (cs : list cpu) (k : lkstate) : lkstate :=
  LkState (lk_locks k) cs (lk_hw k) (lk_self k).
Definition sethw (hs : list hwcpu) (k : lkstate) : lkstate :=
  LkState (lk_locks k) (lk_cpus k) hs (lk_self k).

(** A state that contains a lock state. *)
Class LockState (S : Type) := {
  lks : S → lkstate;
  set_lks : lkstate → S → S;
  lks_set_lks x s : lks (set_lks x s) = x;
  set_lks_lks s : set_lks (lks s) s = s;
  set_lks_set_lks x y s : set_lks x (set_lks y s) = set_lks x s
}.

Section Operations.
Context {S : Type} `{!LockState S}.

Definition on_lks (f : lkstate → lkstate) : M S unit :=
  modify (λ s, set_lks (f (lks s)) s).

(** ** x86.h *)
Definition hw_self (k : lkstate) : hwcpu :=
  default (HwCpu 0 false) (lk_hw k !! lk_self k).
Definition readeflags : M S Z :=
  gets (λ s, if h_if (hw_self (lks s)) then FL_IF else 0).
Definition set_if (b : bool) (k : lkstate) : lkstate :=
  sethw (alter (λ h, HwCpu (h_apicid h) b) (lk_self k) (lk_hw k)) k.
Definition cli : M S unit := on_lks (set_if false).
Definition sti : M S unit := on_lks (set_if true).
Definition lapicid : M S Z := gets (λ s, h_apicid (hw_self (lks s))).

(** ** proc.c: mycpu, cpuid *)
Definition mycpu : M S nat :=
  let! eflags := readeflags in
  if negb (Z.land eflags FL_IF =? 0) then panic "mycpu called with interrupts enabled"
  else
    let! apicid := lapicid in
    let! s := get in
    match list_find (λ c, c_apicid c = apicid) (lk_cpus (lks s)) with
    | Some (i, _) => ret i
    | None => panic "unknown apicid"
    end.

Definition cpuid : M S Z := let! i := mycpu in ret (Z.of_nat i).

Definition cpu_at (i : nat) (k : lkstate) : cpu := default (Cpu 0 0 0) (lk_cpus k !! i).
Definition cpu_alter (i : nat) (f : cpu → cpu) (k : lkstate) : lkstate :=
  setcpus (alter f i (lk_cpus k)) k.

(** ** spinlock.c *)
Definition pushcli : M S unit :=
  let! eflags := readeflags in
  cli ;;;
  let! c := mycpu in
  let! s := get in
  when (c_ncli (cpu_at c (lks s)) =? 0)
    (on_lks (cpu_alter c (λ x, Cpu (c_apicid x) (c_ncli x) (Z.land eflags FL_IF)))) ;;;
  on_lks (cpu_alter c (λ x, Cpu (c_apicid x) (i32 (c_ncli x + 1)) (c_intena x))).

Definition popcli : M S unit :=
  let! eflags := readeflags in
  if negb (Z.land eflags FL_IF =? 0) then panic "popcli - interruptible"
  else
    let! c := mycpu in
    on_lks (cpu_alter c (λ x, Cpu (c_apicid x) (i32 (c_ncli x - 1)) (c_intena x))) ;;;
    let! s := get in
    if c_ncli (cpu_at c (lks s)) <? 0 then panic "popcli"
    else when ((c_ncli (cpu_at c (lks s)) =? 0) && negb (c_intena (cpu_at c (lks s)) =? 0))
           sti.

Definition initlock (l : lockid) (name : string) : M S unit :=
  on_lks (setlock l (Spinlock 0 None name)).

Definition holding_now (l : lockid) (c : nat) (k : lkstate) : bool :=
  negb (l_locked (getlock l k) =? 0) && bool_decide (l_cpu (getlock l k) = Some c).

Definition holding (l : lockid) : M S bool :=
  pushcli ;;;
  let! c := mycpu in
  let! r := gets (λ s, holding_now l c (lks s)) in
  popcli ;;;
  ret r.

(** [xchg(&lk->locked, 1)]: the old value. *)
Definition xchg1 (l : lockid) (k : lkstate) : Z * lkstate :=
  let x := getlock l k in (l_locked x, setlock l (Spinlock 1 (l_cpu x) (l_name x)) k).

(** [lk->cpu = mycpu()], [lk->cpu = 0] and the store of 0 to [lk->locked]. *)
Definition set_lockcpu (l : lockid) (c : option nat) (k : lkstate) : lkstate :=
  let x := getlock l k in setlock l (Spinlock (l_locked x) c (l_name x)) k.
Definition unlock_word (l : lockid) (k : lkstate) : lkstate :=
  let x := getlock l k in setlock l (Spinlock 0 (l_cpu x) (l_name x)) k.

(** [while(xchg(&lk->locked, 1) != 0) ;]: between two failed exchanges the
    other CPUs run. *)
Fixpoint spin (l : lockid) (o : list (S → S)) (s : S) {struct o} : res S unit :=
  let '(old, k) := xchg1 l (lks s) in
  if old =? 0 then Ok tt (set_lks k s) o
  else match o with
       | [] => Wait (set_lks k s)
       | e :: o' => spin l o' (e (set_lks k s))
       end.

Definition acquire (l : lockid) : M S unit :=
  pushcli ;;;
  let! h := holding l in
  if h then panic "acquire"
  else
    spin l ;;;
    let! c := mycpu in
    on_lks (set_lockcpu l (Some c)).

Definition release (l : lockid) : M S unit :=
  let! h := holding l in
  if negb h then panic "release"
  else
    on_lks (set_lockcpu l None) ;;;
    on_lks (unlock_word l) ;;;
    popcli.

(** [n] times the same statement. *)
Fixpoint repeat_m (n : nat) (m : M S unit) : M S unit :=
  match n with
  | O => ret tt
  | Datatypes.S n' => m ;;; repeat_m n' m
  end.
End Operations.

(** ** All CPUs: the interleaved execution of acquire and release

    Between two steps of a CPU any other CPU may run.  The steps are the
    memory accesses of [acquire] (the check, each exchange, recording the
    owner) and of [release] (clearing the owner, the final store). *)

Inductive phase :=
| PIdle                (* outside acquire and release *)
| PTry (l : lockid)    (* in the exchange loop *)
| PGot (l : lockid)    (* the exchange returned 0, owner not recorded yet *)
| PRel (l : lockid).   (* owner cleared, word not yet stored *)

Record mstate := MState { ms_k : lkstate; ms_ph : list phase }.

Inductive mstep : mstate → mstate → Prop :=
| mstep_check i l k ph :
    ph !! i = Some PIdle → holding_now l i k = false →
    mstep (MState k ph) (MState k (<[i := PTry l]> ph))
| mstep_xchg i l k ph :
    ph !! i = Some (PTry l) →
    mstep (MState k ph)
      (MState (snd (xchg1 l k))
         (if fst (xchg1 l k) =? 0 then <[i := PGot l]> ph else ph))
| mstep_record i l k ph :
    ph !! i = Some (PGot l) →
    mstep (MState k ph) (MState (set_lockcpu l (Some i) k) (<[i := PIdle]> ph))
| mstep_clear i l k ph :
    ph !! i = Some PIdle → holding_now l i k = true →
    mstep (MState k ph) (MState (set_lockcpu l None k) (<[i := PRel l]> ph))
| mstep_store i l k ph :
    ph !! i = Some (PRel l) →
    mstep (MState k ph) (MState (unlock_word l k) (<[i := PIdle]> ph)).

(** All locks initialised, all CPUs outside. *)
Definition minit (st : mstate) : Prop :=
  (∀ l, l_locked (getlock l (ms_k st)) = 0 ∧ l_cpu (getlock l (ms_k st)) = None) ∧
  (∀ i p, ms_ph st !! i = Some p → p = PIdle).

Definition mreach (st : mstate) : Prop := ∃ st0, minit st0 ∧ rtc mstep st0 st.

(** CPU [i] is inside the critical section of [l], or on its way in or out. *)
Definition owns (st : mstate) (i : nat) (l : lockid) : Prop :=
  holding_now l i (ms_k st) = true ∨
  ms_ph st !! i = Some (PGot l) ∨ ms_ph st !! i = Some (PRel l).

(** The invariant of the lock words. *)
Definition transit (st : mstate) (i : nat) (l : lockid) : Prop :=
  ms_ph st !! i = Some (PGot l) ∨ ms_ph st !! i = Some (PRel l).

Record lock_inv (st : mstate) (l : lockid) : Prop := {
  li_free : l_locked (getlock l (ms_k st)) = 0 →
    l_cpu (getlock l (ms_k st)) = None ∧ ∀ i, ¬ transit st i l;
  li_owned i : l_cpu (getlock l (ms_k st)) = Some i → ∀ j, ¬ transit st j l;
  li_transit i j : transit st i l → transit st j l → i = j;
  li_held : l_locked (getlock l (ms_k st)) ≠ 0 → l_cpu (getlock l (ms_k st)) = None →
    ∃ i, transit st i l;
  li_try i : ms_ph st !! i = Some (PTry l) → l_cpu (getlock l (ms_k st)) ≠ Some i
}.

(** ** The effect of the operations on the lock state *)

Definition if_bit (b : bool) : Z := if b then FL_IF else 0.

(** The code runs on CPU [i] of [cpus], whose entry is [c]; the interrupt
    flag is [b]. *)
Definition lk_at (k : lkstate) (i : nat) (c : cpu) (b : bool) : Prop :=
  lk_hw k !! lk_self k = Some (HwCpu (c_apicid c) b) ∧
  lk_cpus k !! i = Some c ∧
  (∀ j c', lk_cpus k !! j = Some c' → (j < i)%nat → c_apicid c' ≠ c_apicid c) ∧
  0 ≤ c_ncli c < 2147483640.

Definition push_k (i : nat) (b : bool) (k : lkstate) : lkstate :=
  cpu_alter i (λ x, Cpu (c_apicid x) (c_ncli x + 1)
                        (if c_ncli x =? 0 then if_bit b else c_intena x)) (set_if false k).
Definition pop_k (i : nat) (c : cpu) (k : lkstate) : lkstate :=
  let k' := cpu_alter i (λ x, Cpu (c_apicid x) (c_ncli x - 1) (c_intena x)) k in
  if (c_ncli c =? 1) && negb (c_intena c =? 0) then set_if true k' else k'.
Definition acq_k (i : nat) (b : bool) (l : lockid) (k : lkstate) : lkstate :=
  setlock l (Spinlock 1 (Some i) (l_name (getlock l k))) (push_k i b k).
Definition rel_k (i : nat) (c : cpu) (l : lockid) (k : lkstate) : lkstate :=
  pop_k i c (setlock l (Spinlock 0 None (l_name (getlock l k))) k).

(** The entry of the running CPU after [pushcli]. *)
Definition pushed (b : bool) (c : cpu) : cpu :=
  Cpu (c_apicid c) (c_ncli c + 1) (if c_ncli c =? 0 then if_bit b else c_intena c).

Lemma getlock_setlock l x k : getlock l (setlock l x k) = x.
Proof. unfold getlock, setlock. simpl. by rewrite lookup_insert_eq. Qed.

Lemma getlock_setlock_ne l l' x k : l ≠ l' → getlock l' (setlock l x k) = getlock l' k.
Proof. intros. unfold getlock, setlock. simpl. by rewrite lookup_insert_ne. Qed.

Lemma lk_at_setlock l x k i c b : lk_at k i c b → lk_at (setlock l x k) i c b.
Proof. done. Qed.

Lemma lk_at_set_if b' k i c b : lk_at k i c b → lk_at (set_if b' k) i c b'.
Proof.
  intros (Hh & Hc & Hf & Hn). split; [|done]. unfold set_if. simpl.
  rewrite list_lookup_alter, Hh. by rewrite decide_True.
Qed.

Lemma lk_at_cpu_alter f k i c b :
  lk_at k i c b → c_apicid (f c) = c_apicid c → 0 ≤ c_ncli (f c) < 2147483640 →
  lk_at (cpu_alter i f k) i (f c) b.
Proof.
  intros (Hh & Hc & Hf & Hn) Ha Hn'. unfold cpu_alter. split_and!; simpl.
  - by rewrite Ha.
  - by rewrite list_lookup_alter, decide_True, Hc.
  - intros j c' Hj Hlt. rewrite list_lookup_alter, decide_False in Hj by lia.
    rewrite Ha. eauto.
  - lia.
  - lia.
Qed.

Lemma lk_at_push k i c b :
  lk_at k i c b → c_ncli c < 2147483639 → lk_at (push_k i b k) i (pushed b c) false.
Proof.
  intros H Hn. pose proof H as (_ & _ & _ & ?).
  apply (lk_at_cpu_alter (λ x, _)); [by eapply lk_at_set_if|done|simpl; lia].
Qed.

(** *** Each operation on a state whose lock part is known *)

Section Effects.
Context {S : Type} `{!LockState S}.
Implicit Types (s : S) (o : list (S → S)).

Ltac step lem := erewrite bind_ok; [|eapply lem; eauto].

Lemma readeflags_eq o s i c b :
  lk_at (lks s) i c b → readeflags o s = Ok (if_bit b) s o.
Proof. intros (Hh & _). unfold readeflags, gets, hw_self. by rewrite Hh. Qed.

Lemma mycpu_eq o s i c : lk_at (lks s) i c false → mycpu o s = Ok i s o.
Proof.
  intros H. unfold mycpu. step readeflags_eq. simpl.
  destruct H as (Hh & Hc & Hf & _). unfold lapicid, bind, gets, get, hw_self. rewrite Hh.
  simpl. assert (list_find (λ x, c_apicid x = c_apicid c) (lk_cpus (lks s)) = Some (i, c)) as ->.
  { apply list_find_Some. eauto. }
  done.
Qed.

Lemma on_lks_eq f o s : on_lks f o s = Ok tt (set_lks (f (lks s)) s) o.
Proof. done. Qed.

Lemma pushcli_eq o s i c b :
  lk_at (lks s) i c b → c_ncli c < 2147483639 →
  pushcli o s = Ok tt (set_lks (push_k i b (lks s)) s) o.
Proof.
  intros H Hn. unfold pushcli. step readeflags_eq.
  erewrite bind_ok; [|apply on_lks_eq].
  erewrite bind_ok; [|apply (mycpu_eq _ _ i c); rewrite lks_set_lks; by eapply lk_at_set_if].
  unfold bind, get, when. rewrite lks_set_lks.
  pose proof H as (Hh & Hc & _ & Hr).
  assert (cpu_at i (set_if false (lks s)) = c) as -> by (unfold cpu_at; simpl; by rewrite Hc).
  unfold push_k. destruct (c_ncli c =? 0) eqn:E.
  - rewrite !on_lks_eq, !lks_set_lks, !set_lks_set_lks. do 2 f_equal.
    unfold cpu_alter, setcpus. simpl. f_equal. rewrite list_alter_alter_eq.
    apply list_alter_ext; [|done]. intros x Hx. rewrite Hc in Hx. simplify_eq. simpl.
    rewrite E, i32_small by lia. destruct b; done.
  - unfold ret. rewrite on_lks_eq, lks_set_lks, set_lks_set_lks. do 2 f_equal.
    unfold cpu_alter, setcpus. simpl. f_equal.
    apply list_alter_ext; [|done]. intros x Hx. rewrite Hc in Hx. simplify_eq. simpl.
    by rewrite E, i32_small by lia.
Qed.

Lemma popcli_eq o s i c :
  lk_at (lks s) i c false → 1 ≤ c_ncli c →
  popcli o s = Ok tt (set_lks (pop_k i c (lks s)) s) o.
Proof.
  intros H Hn. unfold popcli. step readeflags_eq. simpl.
  step mycpu_eq. erewrite bind_ok; [|apply on_lks_eq]. unfold bind, get.
  rewrite lks_set_lks. pose proof H as (Hh & Hc & _ & Hr).
  assert (cpu_alter i (λ x, Cpu (c_apicid x) (i32 (c_ncli x - 1)) (c_intena x)) (lks s)
          = cpu_alter i (λ x, Cpu (c_apicid x) (c_ncli x - 1) (c_intena x)) (lks s)) as ->.
  { unfold cpu_alter. f_equal. apply list_alter_ext; [|done]. intros x Hx.
    rewrite Hc in Hx. simplify_eq. by rewrite i32_small by lia. }
  assert (cpu_at i (cpu_alter i (λ x, Cpu (c_apicid x) (c_ncli x - 1) (c_intena x)) (lks s))
          = Cpu (c_apicid c) (c_ncli c - 1) (c_intena c)) as ->.
  { unfold cpu_at. simpl. by rewrite list_lookup_alter, decide_True, Hc. }
  simpl. destruct (Z.ltb_spec (c_ncli c - 1) 0); [lia|]. unfold pop_k, when.
  replace (c_ncli c - 1 =? 0) with (c_ncli c =? 1) by (destruct (Z.eqb_spec (c_ncli c) 1), (Z.eqb_spec (c_ncli c - 1) 0); lia).
  destruct (_ && _); [|done]. unfold sti.
  by rewrite on_lks_eq, lks_set_lks, set_lks_set_lks.
Qed.

(** [popcli] undoes [pushcli]; only the saved flag may differ. *)
Lemma pop_push k i c b :
  lk_at k i c b → (c_ncli c ≠ 0 → b = false) →
  pop_k i (pushed b c) (push_k i b k) =
  cpu_alter i (λ x, Cpu (c_apicid x) (c_ncli x) (c_intena (pushed b c))) k.
Proof.
  intros (Hh & Hc & _ & Hn) Hb. unfold pop_k, push_k, pushed, cpu_alter, set_if. simpl.
  replace (c_ncli c + 1 =? 1) with (c_ncli c =? 0)
    by (destruct (Z.eqb_spec (c_ncli c) 0), (Z.eqb_spec (c_ncli c + 1) 1); lia).
  assert (alter (λ x, Cpu (c_apicid x) (c_ncli x - 1) (c_intena x)) i
            (alter (λ x, Cpu (c_apicid x) (c_ncli x + 1)
               (if c_ncli x =? 0 then if_bit b else c_intena x)) i (lk_cpus k))
          = alter (λ x, Cpu (c_apicid x) (c_ncli x)
               (if c_ncli c =? 0 then if_bit b else c_intena c)) i (lk_cpus k)) as Hcs.
  { rewrite list_alter_alter_eq. apply list_alter_ext; [|done]. intros x Hx.
    rewrite Hc in Hx. simplify_eq. simpl. f_equal. lia. }
  assert (∀ b' b'', alter (λ h, HwCpu (h_apicid h) b') (lk_self k)
            (alter (λ h, HwCpu (h_apicid h) b'') (lk_self k) (lk_hw k))
          = alter (λ h, HwCpu (h_apicid h) b') (lk_self k) (lk_hw k)) as Hhw.
  { intros. by rewrite list_alter_alter_eq. }
  assert (alter (λ h, HwCpu (h_apicid h) b) (lk_self k) (lk_hw k) = lk_hw k) as Hid.
  { apply list_eq. intros j. rewrite list_lookup_alter. case_decide; [|done].
    subst. by rewrite Hh. }
  unfold setcpus, sethw; simpl. rewrite Hcs, !Hhw.
  destruct (Z.eqb_spec (c_ncli c) 0) as [E|E]; [destruct b|]; simpl.
  - by rewrite Hid.
  - by rewrite Hid.
  - rewrite Hb in Hid by done. by rewrite Hid.
Qed.

Lemma pop_push_nested k i c :
  lk_at k i c false → c_ncli c ≠ 0 → pop_k i (pushed false c) (push_k i false k) = k.
Proof.
  intros H Hn. rewrite (pop_push _ _ _ _ H) by done. destruct H as (_ & Hc & _).
  unfold cpu_alter, setcpus. destruct k as [ls cs hs me]. simpl in *. f_equal.
  apply list_eq. intros j. rewrite list_lookup_alter. case_decide; [|done]. subst.
  rewrite Hc. simpl. destruct (Z.eqb_spec (c_ncli c) 0); [done|]. by destruct c.
Qed.

Lemma holding_eq l o s i c :
  lk_at (lks s) i c false → 1 ≤ c_ncli c < 2147483639 →
  holding l o s = Ok (holding_now l i (lks s)) s o.
Proof.
  intros H Hn. unfold holding.
  erewrite bind_ok; [|eapply pushcli_eq; [done|lia]].
  pose proof (lk_at_push _ _ _ _ H ltac:(lia)) as H'.
  erewrite bind_ok; [|eapply mycpu_eq; by rewrite lks_set_lks].
  unfold bind at 1, gets. rewrite lks_set_lks.
  erewrite bind_ok; [|eapply (popcli_eq _ _ i (pushed false c)); rewrite ?lks_set_lks; simpl; [done|lia]].
  rewrite lks_set_lks, set_lks_set_lks, pop_push_nested, set_lks_lks by (done || lia). done.
Qed.

Lemma spin_free l o s :
  l_locked (getlock l (lks s)) = 0 →
  spin l o s = Ok tt (set_lks (snd (xchg1 l (lks s))) s) o.
Proof. intros H. destruct o; simpl; by rewrite H. Qed.

Lemma setlock_setlock l x y k : setlock l x (setlock l y k) = setlock l x k.
Proof. unfold setlock. simpl. by rewrite insert_insert_eq. Qed.

Lemma acquire_eq l o s i c b :
  lk_at (lks s) i c b → c_ncli c < 2147483638 → l_locked (getlock l (lks s)) = 0 →
  acquire l o s = Ok tt (set_lks (acq_k i b l (lks s)) s) o.
Proof.
  intros H Hn Hl. unfold acquire. pose proof H as (_ & _ & _ & ?).
  erewrite bind_ok; [|eapply pushcli_eq; [done|lia]].
  pose proof (lk_at_push _ _ _ _ H ltac:(lia)) as H'.
  erewrite bind_ok; [|eapply (holding_eq _ _ _ i (pushed b c)); rewrite ?lks_set_lks; simpl; [done|lia]].
  assert (getlock l (push_k i b (lks s)) = getlock l (lks s)) as Hg by done.
  rewrite lks_set_lks. unfold holding_now. rewrite Hg, Hl. simpl.
  erewrite bind_ok; [|apply spin_free; by rewrite lks_set_lks, Hg].
  rewrite lks_set_lks, set_lks_set_lks. unfold xchg1. simpl.
  erewrite bind_ok; [|eapply (mycpu_eq _ _ i); rewrite lks_set_lks; by apply lk_at_setlock].
  rewrite on_lks_eq, lks_set_lks, set_lks_set_lks. unfold set_lockcpu.
  by rewrite getlock_setlock, setlock_setlock.
Qed.

(** Acquiring a lock the CPU already holds is caught. *)
Lemma acquire_held l o s i c b :
  lk_at (lks s) i c b → c_ncli c < 2147483638 → holding_now l i (lks s) = true →
  ∃ s', acquire l o s = Panic "acquire" s'.
Proof.
  intros H Hn Hl. unfold acquire. pose proof H as (_ & _ & _ & ?).
  erewrite bind_ok; [|eapply pushcli_eq; [done|lia]].
  pose proof (lk_at_push _ _ _ _ H ltac:(lia)) as H'.
  erewrite bind_ok; [|eapply (holding_eq _ _ _ i (pushed b c)); rewrite ?lks_set_lks; simpl; [done|lia]].
  rewrite lks_set_lks. assert (holding_now l i (push_k i b (lks s)) = true) as -> by done.
  eexists. done.
Qed.

Lemma release_eq l o s i c :
  lk_at (lks s) i c false → 1 ≤ c_ncli c < 2147483639 → holding_now l i (lks s) = true →
  release l o s = Ok tt (set_lks (rel_k i c l (lks s)) s) o.
Proof.
  intros H Hn Hl. unfold release.
  erewrite bind_ok; [|eapply holding_eq; eauto]. rewrite Hl. simpl.
  erewrite bind_ok; [|apply on_lks_eq]. erewrite bind_ok; [|apply on_lks_eq].
  rewrite !lks_set_lks, set_lks_set_lks. unfold unlock_word, set_lockcpu.
  rewrite !getlock_setlock, setlock_setlock.
  erewrite popcli_eq; [|by rewrite lks_set_lks; apply lk_at_setlock|lia].
  by rewrite lks_set_lks, set_lks_set_lks.
Qed.

(** Releasing a lock the CPU does not hold is caught. *)
Lemma release_unheld l o s i c :
  lk_at (lks s) i c false → 1 ≤ c_ncli c < 2147483639 → holding_now l i (lks s) = false →
  release l o s = Panic "release" s.
Proof.
  intros H Hn Hl. unfold release. erewrite bind_ok; [|eapply holding_eq; eauto].
  by rewrite Hl.
Qed.

Lemma lk_at_acq l k i c b :
  lk_at k i c b → c_ncli c < 2147483638 → lk_at (acq_k i b l k) i (pushed b c) false.
Proof. intros H Hn. apply lk_at_setlock, lk_at_push; [done|lia]. Qed.

Lemma holding_acq l k i b : holding_now l i (acq_k i b l k) = true.
Proof.
  unfold holding_now, acq_k. rewrite getlock_setlock. simpl. by rewrite bool_decide_true.
Qed.

Lemma holding_acq_ne l l' k i b : l ≠ l' →
  holding_now l' i (acq_k i b l k) = holding_now l' i k.
Proof. intros. unfold holding_now, acq_k. by rewrite getlock_setlock_ne. Qed.

(** A critical section entered with the lock free leaves the lock state as it
    was, when the saved interrupt flag was up to date. *)
Lemma rel_acq l k i c b :
  lk_at k i c b → (c_ncli c ≠ 0 → b = false) → (c_ncli c = 0 → c_intena c = if_bit b) →
  lk_locks k !! l = Some (Spinlock 0 None (l_name (getlock l k))) →
  rel_k i (pushed b c) l (acq_k i b l k) = k.
Proof.
  intros H Hb Hi Hl. unfold rel_k, acq_k. rewrite getlock_setlock. simpl.
  rewrite setlock_setlock.
  assert (∀ x, pop_k i (pushed b c) (setlock l x (push_k i b k))
               = setlock l x (pop_k i (pushed b c) (push_k i b k))) as ->.
  { intros x. unfold pop_k. by destruct (_ && _). }
  rewrite (pop_push _ _ _ _ H Hb). destruct H as (_ & Hc & _).
  unfold setlock, cpu_alter, setcpus. simpl. rewrite insert_id by done.
  destruct k as [ls cs hs me]. simpl in *. f_equal. apply list_eq. intros j.
  rewrite list_lookup_alter. case_decide; [|done]. subst. rewrite Hc. simpl.
  destruct (Z.eqb_spec (c_ncli c) 0) as [E|E]; [rewrite <- Hi by done|]; by destruct c.
Qed.

(** Acquisition under interference: when the lock becomes free at the [n]-th
    step of the other CPUs and not earlier, the spin ends there. *)
Lemma spin_waits l o s :
  l_locked (getlock l (lks s)) ≠ 0 →
  (∀ e, e ∈ o → ∀ s', l_locked (getlock l (lks s')) ≠ 0 → l_locked (getlock l (lks (e s'))) ≠ 0) →
  ∃ s', spin l o s = Wait s'.
Proof.
  revert s. induction o as [|e o IH]; intros s Hl He; simpl.
  - destruct (Z.eqb_spec (l_locked (getlock l (lks s))) 0); [done|eauto].
  - destruct (Z.eqb_spec (l_locked (getlock l (lks s))) 0); [done|]. apply IH.
    + apply He; [set_solver|]. by rewrite lks_set_lks, getlock_setlock.
    + intros e' He'. apply He. set_solver.
Qed.

(** The state in which the exchange succeeds when the other CPUs do [es] while the
    lock is taken. *)
Fixpoint spins (l : lockid) (es : list (S → S)) (s : S) : option S :=
  match es with
  | [] => if l_locked (getlock l (lks s)) =? 0 then Some s else None
  | e :: es' =>
      if l_locked (getlock l (lks s)) =? 0 then None
      else spins l es' (e (set_lks (snd (xchg1 l (lks s))) s))
  end.

Lemma spin_spins l es o s s' :
  spins l es s = Some s' →
  l_locked (getlock l (lks s')) = 0 ∧ spin l (es ++ o) s = Ok tt (set_lks (snd (xchg1 l (lks s'))) s') o.
Proof.
  revert s. induction es as [|e es IH]; intros s; cbn [spins app].
  - destruct (Z.eqb_spec (l_locked (getlock l (lks s))) 0) as [E|]; [|done]. intros [= <-]. split; [done|by apply spin_free].
  - destruct (Z.eqb_spec (l_locked (getlock l (lks s))) 0) as [E|E]; [done|]. intros H. cbn [spin].
    unfold xchg1 at 1. by rewrite (proj2 (Z.eqb_neq _ _) E); apply IH.
Qed.

(** acquire of a lock that others hold for a while is acquire of the free lock in
    the state that they leave, [k] being the lock state then without the pushcli
    of acquire. *)
Lemma acquire_spins l es o s s' i c c' b k :
  lk_at (lks s) i c b → c_ncli c < 2147483638 → holding_now l i (lks s) = false →
  spins l es (set_lks (push_k i b (lks s)) s) = Some s' →
  lks s' = push_k i b k → lk_at k i c' b → c_ncli c' < 2147483638 →
  acquire l (es ++ o) s = acquire l o (set_lks k s').
Proof.
  intros H Hn Hl Hsp Hk H' Hn'. destruct (spin_spins l es o _ _ Hsp) as [Hfree Espin]. rewrite Hk in Hfree.
  rewrite (acquire_eq l o (set_lks k s') i c' b) by (rewrite ?lks_set_lks; done).
  unfold acquire. pose proof H as (_ & _ & _ & ?). pose proof H' as (_ & _ & _ & ?).
  erewrite bind_ok; [|eapply pushcli_eq; [done|lia]].
  pose proof (lk_at_push _ _ _ _ H ltac:(lia)) as Hp.
  erewrite bind_ok; [|eapply (holding_eq _ _ _ i (pushed b c)); rewrite ?lks_set_lks; simpl; [done|lia]].
  rewrite lks_set_lks. change (holding_now l i (push_k i b (lks s))) with (holding_now l i (lks s)). rewrite Hl.
  rewrite (bind_ok _ _ _ _ _ _ _ Espin), Hk. unfold xchg1. cbn [snd].
  erewrite bind_ok; [|eapply (mycpu_eq _ _ i (pushed b c')); rewrite lks_set_lks; apply lk_at_setlock, lk_at_push; [done|lia]].
  rewrite on_lks_eq, !lks_set_lks, !set_lks_set_lks. unfold set_lockcpu. by rewrite getlock_setlock, setlock_setlock.
Qed.
End Effects.

(** ** The interface to the rest of the kernel

    In a calm state the running CPU is registered, its nesting depth is [n],
    interrupts are off when [n > 0], and the saved flag is up to date when
    [n = 0].  In such a state acquiring a free lock succeeds at once and the
    matching release gives the lock state back; clients use only the lemmas
    of this section. *)

Definition self_ix (k : lkstate) : nat :=
  match list_find (λ c, c_apicid c = h_apicid (hw_self k)) (lk_cpus k) with
  | Some (i, _) => i
  | None => 0%nat
  end.
Definition lk_acquire (l : lockid) (k : lkstate) : lkstate :=
  acq_k (self_ix k) (h_if (hw_self k)) l k.

Definition calm (k : lkstate) (n : Z) : Prop :=
  ∃ i c b, lk_at k i c b ∧ c_ncli c = n ∧ (n ≠ 0 → b = false) ∧
           (n = 0 → c_intena c = if_bit b) ∧ n < 1000000.
Definition lock_free (l : lockid) (k : lkstate) : Prop :=
  lk_locks k !! l = Some (Spinlock 0 None (l_name (getlock l k))).
Definition held_by_self (l : lockid) (k : lkstate) : bool := holding_now l (self_ix k) k.

Lemma lk_at_self k i c b : lk_at k i c b → self_ix k = i ∧ h_if (hw_self k) = b.
Proof.
  intros (Hh & Hc & Hf & _). unfold self_ix, hw_self. rewrite Hh. simpl.
  assert (list_find (λ x, c_apicid x = c_apicid c) (lk_cpus k) = Some (i, c)) as ->; [|done].
  apply list_find_Some. eauto.
Qed.

Lemma calm_acquire l k n : calm k n → n < 999999 → calm (lk_acquire l k) (n + 1).
Proof.
  intros (i & c & b & H & <- & Hb & Hi & Hn) Hn'. destruct (lk_at_self _ _ _ _ H) as [Hs Hif].
  unfold lk_acquire. rewrite Hs, Hif. exists i, (pushed b c), false.
  pose proof H as (_ & _ & _ & ?). split_and!; [apply lk_at_acq; [done|lia]|done|done|lia|lia].
Qed.

Lemma self_ix_acquire l k n : calm k n → self_ix (lk_acquire l k) = self_ix k.
Proof.
  intros (i & c & b & H & <- & Hb & Hi & Hn). destruct (lk_at_self _ _ _ _ H) as [Hs Hif].
  pose proof H as (_ & _ & _ & ?). unfold lk_acquire. rewrite Hs, Hif.
  by destruct (lk_at_self _ _ _ _ (lk_at_acq l _ _ _ _ H ltac:(lia))).
Qed.

Lemma calm_ncli k n : calm k n → c_ncli (cpu_at (self_ix k) k) = n.
Proof.
  intros (i & c & b & H & <- & _). destruct (lk_at_self _ _ _ _ H) as [-> _].
  destruct H as (_ & Hc & _). unfold cpu_at. by rewrite Hc.
Qed.

Lemma held_acquire l k n : calm k n → held_by_self l (lk_acquire l k) = true.
Proof.
  intros H. unfold held_by_self. rewrite (self_ix_acquire _ _ _ H). apply holding_acq.
Qed.

Lemma held_acquire_ne l l' k n :
  calm k n → l ≠ l' → held_by_self l' (lk_acquire l k) = held_by_self l' k.
Proof.
  intros H Hne. unfold held_by_self. rewrite (self_ix_acquire _ _ _ H). by apply holding_acq_ne.
Qed.

Lemma lock_free_acquire_ne l l' k : l ≠ l' → lock_free l' k → lock_free l' (lk_acquire l k).
Proof.
  intros Hne Hf. unfold lock_free, lk_acquire, acq_k in *.
  rewrite getlock_setlock_ne by done. simpl. by rewrite lookup_insert_ne.
Qed.

Lemma lock_free_locked l k : lock_free l k → l_locked (getlock l k) = 0.
Proof. unfold lock_free, getlock. intros H. by rewrite H. Qed.

Lemma lock_free_not_held l k : lock_free l k → held_by_self l k = false.
Proof. intros H. unfold held_by_self, holding_now. by rewrite lock_free_locked. Qed.

(** Releasing the outer of two locks first. *)
Lemma rel_acq_swap l l' k n i c b :
  lk_at k i c b → c_ncli c = n → l ≠ l' → lock_free l k →
  rel_k i (pushed false (pushed b c)) l (acq_k i false l' (acq_k i b l k)) = acq_k i b l' k.
Proof.
  intros H Hn Hne Hf. pose proof H as (Hh & Hc & _ & Hr).
  unfold rel_k, pop_k, pushed. simpl. rewrite (proj2 (Z.eqb_neq (c_ncli c + 1 + 1) 1)) by lia.
  simpl.
  assert (l_name (getlock l (acq_k i false l' (acq_k i b l k))) = l_name (getlock l k)) as ->.
  { unfold acq_k at 1. rewrite getlock_setlock_ne by done.
    change (getlock l (push_k i false (acq_k i b l k))) with (getlock l (acq_k i b l k)).
    unfold acq_k. by rewrite getlock_setlock. }
  assert (l_name (getlock l' (acq_k i b l k)) = l_name (getlock l' k)) as Hn'.
  { unfold acq_k. by rewrite getlock_setlock_ne. }
  unfold acq_k at 1. rewrite Hn'.
  unfold acq_k, setlock, push_k, cpu_alter, setcpus, set_if, sethw. simpl. f_equal.
  - rewrite insert_insert_ne by done. rewrite insert_insert_eq.
    by rewrite (insert_id _ l).
  - rewrite !list_alter_alter_eq. apply list_alter_ext; [|done]. intros x Hx.
    rewrite Hc in Hx. simplify_eq. simpl.
    rewrite (proj2 (Z.eqb_neq (c_ncli x + 1) 0)) by lia. f_equal. lia.
  - by rewrite list_alter_alter_eq.
Qed.

Section Calm.
Context {S : Type} `{!LockState S}.
Implicit Types (s : S) (o : list (S → S)).

Lemma acquire_calm l o s n :
  calm (lks s) n → lock_free l (lks s) →
  acquire l o s = Ok tt (set_lks (lk_acquire l (lks s)) s) o.
Proof.
  intros (i & c & b & H & <- & Hb & Hi & Hn) Hf. destruct (lk_at_self _ _ _ _ H) as [Hs Hif].
  unfold lk_acquire. rewrite Hs, Hif. apply acquire_eq with c; [done|lia|by apply lock_free_locked].
Qed.

(** The end of a critical section, whatever its body did to the rest of the
    state. *)
Lemma release_calm l o s k n :
  calm k n → lock_free l k → lks s = lk_acquire l k →
  release l o s = Ok tt (set_lks k s) o.
Proof.
  intros (i & c & b & H & <- & Hb & Hi & Hn) Hf Hk. destruct (lk_at_self _ _ _ _ H) as [Hs Hif].
  pose proof H as (_ & _ & _ & ?). unfold lk_acquire in Hk. rewrite Hs, Hif in Hk.
  erewrite release_eq; [|rewrite Hk; apply lk_at_acq; [done|lia]|simpl; lia
                        |rewrite Hk; apply holding_acq].
  by rewrite Hk, rel_acq.
Qed.

Lemma release_calm_swap l l' o s k n :
  calm k n → n < 999000 → lock_free l k → lock_free l' k → l ≠ l' →
  lks s = lk_acquire l' (lk_acquire l k) →
  release l o s = Ok tt (set_lks (lk_acquire l' k) s) o.
Proof.
  intros Hcalm Hn' Hf Hf' Hne Hk.
  pose proof (self_ix_acquire l _ _ Hcalm) as Hs1.
  pose proof (calm_acquire l _ _ Hcalm ltac:(lia)) as Hc1.
  destruct Hcalm as (i & c & b & H & <- & Hb & Hi & Hn).
  destruct (lk_at_self _ _ _ _ H) as [Hs Hif]. pose proof H as (_ & _ & _ & ?).
  pose proof (lk_at_acq l _ _ _ _ H ltac:(lia)) as H1.
  destruct (lk_at_self _ _ _ _ H1) as [Hs' Hif'].
  assert (lks s = acq_k i false l' (acq_k i b l k)) as Hk'.
  { rewrite Hk. unfold lk_acquire at 1. rewrite Hs1, Hs. f_equal.
    - unfold lk_acquire. by rewrite Hs, Hif, Hif'.
    - unfold lk_acquire. by rewrite Hs, Hif. }
  erewrite release_eq; [|rewrite Hk'; apply lk_at_acq; [exact H1|simpl; lia]|simpl; lia|].
  - rewrite Hk'. rewrite (rel_acq_swap l l' k (c_ncli c) i c b) by done.
    unfold lk_acquire. by rewrite Hs, Hif.
  - rewrite Hk'. rewrite holding_acq_ne by done. apply holding_acq.
Qed.

Lemma popcli_calm o s i c b k :
  lk_at k i c b → (c_ncli c ≠ 0 → b = false) → (c_ncli c = 0 → c_intena c = if_bit b) →
  c_ncli c < 1000000 → lks s = push_k i b k →
  popcli o s = Ok tt (set_lks k s) o.
Proof.
  intros H Hb Hi Hn Hk. pose proof H as (_ & Hc & _ & ?).
  erewrite popcli_eq; [|rewrite Hk; apply lk_at_push; [done|lia]|simpl; lia].
  rewrite Hk, (pop_push _ _ _ _ H Hb). do 2 f_equal.
  unfold cpu_alter, setcpus. destruct k as [ls cs hs me]. simpl in *. f_equal.
  apply list_eq. intros j. rewrite list_lookup_alter. case_decide; [|done]. subst. rewrite Hc.
  simpl. destruct (Z.eqb_spec (c_ncli c) 0) as [E|E]; [rewrite <- Hi by done|]; by destruct c.
Qed.

(** Reading a per-CPU value between pushcli and popcli. *)
Lemma read_cpu_calm {A} (f : nat → S → A) o s n :
  calm (lks s) n → (∀ i k, f i (set_lks k s) = f i s) →
  bind pushcli (λ _, bind mycpu (λ c, bind (gets (f c)) (λ r, bind popcli (λ _, ret r)))) o s
  = Ok (f (self_ix (lks s)) s) s o.
Proof.
  intros (i & c & b & H & <- & Hb & Hi & Hn) Hf. destruct (lk_at_self _ _ _ _ H) as [Hs Hif].
  pose proof H as (_ & _ & _ & ?).
  erewrite bind_ok; [|eapply pushcli_eq; [done|lia]].
  erewrite bind_ok; [|eapply mycpu_eq; rewrite lks_set_lks; apply lk_at_push; [done|lia]].
  unfold bind at 1, gets.
  erewrite bind_ok; [|eapply popcli_calm; eauto; by rewrite lks_set_lks].
  by rewrite set_lks_set_lks, set_lks_lks, Hs, Hf.
Qed.

Lemma holding_calm l o s n :
  calm (lks s) n → holding l o s = Ok (held_by_self l (lks s)) s o.
Proof.
  intros (i & c & b & H & <- & Hb & Hi & Hn). destruct (lk_at_self _ _ _ _ H) as [Hs Hif].
  pose proof H as (_ & _ & _ & ?). unfold holding, held_by_self. rewrite Hs.
  erewrite bind_ok; [|eapply pushcli_eq; [done|lia]].
  erewrite bind_ok; [|eapply mycpu_eq; rewrite lks_set_lks; apply lk_at_push; [done|lia]].
  unfold bind at 1, gets. rewrite lks_set_lks.
  erewrite bind_ok; [|eapply popcli_calm; eauto; by rewrite lks_set_lks].
  by rewrite set_lks_set_lks, set_lks_lks.
Qed.

Lemma mycpu_calm o s n : calm (lks s) n → n ≠ 0 → mycpu o s = Ok (self_ix (lks s)) s o.
Proof.
  intros (i & c & b & H & <- & Hb & Hi & Hn) Hn0. destruct (lk_at_self _ _ _ _ H) as [-> _].
  rewrite Hb in H by done. by eapply mycpu_eq.
Qed.

Lemma readeflags_calm o s n : calm (lks s) n → n ≠ 0 → readeflags o s = Ok 0 s o.
Proof.
  intros (i & c & b & H & <- & Hb & Hi & Hn) Hn0. rewrite Hb in H by done.
  by rewrite (readeflags_eq _ _ _ _ _ H).
Qed.

Lemma acquire_calm_held l o s n :
  calm (lks s) n → held_by_self l (lks s) = true → ∃ s', acquire l o s = Panic "acquire" s'.
Proof.
  intros (i & c & b & H & <- & Hb & Hi & Hn) Hh. destruct (lk_at_self _ _ _ _ H) as [Hs _].
  eapply acquire_held; [done|lia|]. unfold held_by_self in Hh. by rewrite Hs in Hh.
Qed.
End Calm.

(** ** The lock invariant holds in every interleaving *)

Lemma lock_inv_init st l : minit st → lock_inv st l.
Proof.
  intros [Hk Hp]. destruct (Hk l) as [Hl Hc].
  assert (∀ i, ¬ transit st i l) as Ht by (intros i [Hi|Hi]; by apply Hp in Hi).
  split; intros; try congruence; eauto. by destruct (Ht i).
Qed.

Lemma lookup_phase_insert (ph : list phase) i q j p p' :
  ph !! i = Some p → (<[i := q]> ph) !! j = Some p' ↔
    (i = j ∧ q = p') ∨ (i ≠ j ∧ ph !! j = Some p').
Proof.
  intros Hi. destruct (decide (i = j)) as [->|Hne].
  - rewrite list_lookup_insert_eq by eauto using lookup_lt_Some. naive_solver.
  - rewrite list_lookup_insert_ne by done. naive_solver.
Qed.

(** What a step of CPU [i], from phase [p] to phase [q], does to the
    predicates of the invariant. *)
Lemma transit_insert k k' ph i p q j l :
  ph !! i = Some p → transit (MState k' (<[i := q]> ph)) j l ↔
    (i = j ∧ (q = PGot l ∨ q = PRel l)) ∨ (i ≠ j ∧ transit (MState k ph) j l).
Proof.
  intros Hi. unfold transit. simpl. rewrite !(lookup_phase_insert _ _ _ _ _ _ Hi). naive_solver.
Qed.

Lemma transit_at k ph i p l : ph !! i = Some p →
  transit (MState k ph) i l ↔ p = PGot l ∨ p = PRel l.
Proof. intros Hi. unfold transit. simpl. rewrite Hi. naive_solver. Qed.

Lemma lock_inv_step_other k k' ph i p q l :
  ph !! i = Some p → getlock l k' = getlock l k →
  ¬ (p = PGot l ∨ p = PRel l) → ¬ (q = PGot l ∨ q = PRel l) →
  (q = PTry l → l_cpu (getlock l k) ≠ Some i) →
  lock_inv (MState k ph) l → lock_inv (MState k' (<[i := q]> ph)) l.
Proof.
  intros Hi Hg Hp Hq Hy [H1 H2 H3 H4 H5]. simpl in *.
  pose proof (λ j, transit_insert k k' ph i p q j l Hi) as Ht.
  pose proof (transit_at k ph i p l Hi) as Hti.
  split; simpl; rewrite ?Hg.
  - intros Hl. destruct (H1 Hl) as [? Hn]. split; [done|]. intros j. rewrite Ht. naive_solver.
  - intros j Hj j'. rewrite Ht. naive_solver.
  - intros j j'. rewrite !Ht. naive_solver.
  - intros Hl Hc. destruct (H4 Hl Hc) as [j Hj]. exists j. apply Ht. right.
    split; [|done]. intros <-. by apply Hp, Hti.
  - intros j. rewrite (lookup_phase_insert _ _ _ _ _ _ Hi). naive_solver.
Qed.

Lemma lock_inv_record k ph i l :
  ph !! i = Some (PGot l) → lock_inv (MState k ph) l →
  lock_inv (MState (set_lockcpu l (Some i) k) (<[i := PIdle]> ph)) l.
Proof.
  intros Hi [H1 H2 H3 H4 H5]. simpl in *.
  pose proof (λ j, transit_insert k (set_lockcpu l (Some i) k) ph i _ PIdle j l Hi) as Ht.
  assert (transit (MState k ph) i l) as Hti by (by left).
  assert (∀ j, ¬ transit (MState (set_lockcpu l (Some i) k) (<[i := PIdle]> ph)) j l) as Hn.
  { intros j. rewrite Ht. intros [[_ [?|?]]|[Hne Hj]]; [done..|]. apply Hne. eauto. }
  split; simpl; unfold set_lockcpu; rewrite ?getlock_setlock; simpl.
  - intros Hl. by destruct (proj2 (H1 Hl) i).
  - intros. apply Hn.
  - intros j j' Hj. by destruct (Hn j).
  - done.
  - intros j. rewrite (lookup_phase_insert _ _ _ _ _ _ Hi). naive_solver.
Qed.

Lemma lock_inv_clear k ph i l :
  ph !! i = Some PIdle → holding_now l i k = true → lock_inv (MState k ph) l →
  lock_inv (MState (set_lockcpu l None k) (<[i := PRel l]> ph)) l.
Proof.
  unfold holding_now. intros Hi Hh [H1 H2 H3 H4 H5]. to_prop. simpl in *.
  pose proof (λ j, transit_insert k (set_lockcpu l None k) ph i _ (PRel l) j l Hi) as Ht.
  split; simpl; unfold set_lockcpu; rewrite ?getlock_setlock; simpl.
  - done.
  - done.
  - intros j j'. rewrite !Ht. naive_solver.
  - intros _ _. exists i. apply Ht. naive_solver.
  - done.
Qed.

Lemma lock_inv_store k ph i l :
  ph !! i = Some (PRel l) → lock_inv (MState k ph) l →
  lock_inv (MState (unlock_word l k) (<[i := PIdle]> ph)) l.
Proof.
  intros Hi [H1 H2 H3 H4 H5]. simpl in *.
  pose proof (λ j, transit_insert k (unlock_word l k) ph i _ PIdle j l Hi) as Ht.
  assert (transit (MState k ph) i l) as Hti by (by right).
  assert (∀ j, ¬ transit (MState (unlock_word l k) (<[i := PIdle]> ph)) j l) as Hn.
  { intros j. rewrite Ht. intros [[_ [?|?]]|[Hne Hj]]; [done..|]. apply Hne. eauto. }
  assert (l_cpu (getlock l k) = None) as Hc.
  { destruct (l_cpu (getlock l k)) eqn:E; [|done]. by destruct (H2 _ eq_refl i). }
  split; simpl; unfold unlock_word; rewrite ?getlock_setlock; simpl; rewrite ?Hc.
  - done.
  - done.
  - intros j j' Hj. by destruct (Hn j).
  - done.
  - done.
Qed.

Lemma lock_inv_xchg k ph i l :
  ph !! i = Some (PTry l) → lock_inv (MState k ph) l →
  lock_inv (MState (snd (xchg1 l k))
              (if fst (xchg1 l k) =? 0 then <[i := PGot l]> ph else ph)) l.
Proof.
  intros Hi [H1 H2 H3 H4 H5]. unfold xchg1 in *. simpl in *.
  destruct (Z.eqb_spec (l_locked (getlock l k)) 0) as [E|E].
  - destruct (H1 E) as [Hc Hn].
    pose proof (λ j, transit_insert k (setlock l (Spinlock 1 (l_cpu (getlock l k)) (l_name (getlock l k))) k)
                       ph i _ (PGot l) j l Hi) as Ht.
    split; simpl; rewrite ?getlock_setlock; simpl; rewrite ?Hc in *.
    + done.
    + done.
    + intros j j'. rewrite !Ht. naive_solver.
    + intros _ _. exists i. apply Ht. naive_solver.
    + done.
  - split; simpl; rewrite ?getlock_setlock; simpl; try done; eauto.
Qed.

Lemma lock_inv_step st st' l : mstep st st' → lock_inv st l → lock_inv st' l.
Proof.
  intros Hs Hl.
  destruct Hs as [i l0 k ph Hp Hh|i l0 k ph Hp|i l0 k ph Hp|i l0 k ph Hp Hh|i l0 k ph Hp];
    (destruct (decide (l0 = l)) as [->|Hne];
     [|try (eapply (lock_inv_step_other k); try eassumption;
            solve [naive_solver | by unfold set_lockcpu, unlock_word; rewrite getlock_setlock_ne])]);
    eauto using lock_inv_record, lock_inv_clear, lock_inv_store, lock_inv_xchg.
  - eapply (lock_inv_step_other k); try eassumption; [done|naive_solver..|].
    intros _ Hc. unfold holding_now in Hh. rewrite Hc, bool_decide_true in Hh by done.
    apply andb_false_iff in Hh as [Hh|Hh]; [|done]. to_prop.
    destruct Hl as [H1 _ _ _ _]. simpl in *. destruct (H1 Hh). congruence.
  - destruct (fst (xchg1 l0 k) =? 0) eqn:E.
    + eapply (lock_inv_step_other k); try eassumption; [|naive_solver..].
      simpl. by rewrite getlock_setlock_ne.
    + destruct Hl as [H1 H2 H3 H4 H5].
      split; simpl in *; rewrite ?getlock_setlock_ne by done; eauto.
Qed.

Lemma lock_inv_reach st l : mreach st → lock_inv st l.
Proof.
  intros (st0 & Hi & Hr). apply (lock_inv_init _ l) in Hi.
  induction Hr; eauto using lock_inv_step.
Qed.

(** ** Main theorems *)

(** [C5] Mutual exclusion of spinlocks: in every interleaving of [acquire] and
    [release] by the CPUs, no two CPUs are in the critical section of the
    same lock, where the section extends from the successful exchange to the
    store that frees the lock. *)
Theorem spinlock_mutual_exclusion st i j l :
  mreach st → owns st i l → owns st j l → i = j.
Proof.
  intros Hr. destruct (lock_inv_reach st l Hr) as [H1 H2 H3 H4 H5].
  unfold owns, holding_now. fold (transit st i l). fold (transit st j l).
  intros [Hi|Hi] [Hj|Hj]; to_prop.
  - congruence.
  - by destruct (H2 i ltac:(done) j).
  - by destruct (H2 j ltac:(done) i).
  - eauto.
Qed.

(** Two CPUs, all locks zero, running on CPU 0 with interrupts on. *)
Definition demo_lks : lkstate :=
  LkState ∅ [Cpu 0 0 FL_IF; Cpu 1 0 FL_IF] [HwCpu 0 true; HwCpu 1 true] 0.

Lemma demo_lks_at : lk_at demo_lks 0 (Cpu 0 0 FL_IF) true.
Proof. split_and!; try done. intros j c' _ Hj. lia. Qed.

(** CPU 0 wins the exchange on the process table lock while CPU 1 spins. *)
Definition demo_race : mstate :=
  MState (setlock Lptable (Spinlock 1 None "") (setlock Lptable (Spinlock 1 None "") demo_lks))
    [PGot Lptable; PTry Lptable].

Lemma demo_race_reach : mreach demo_race.
Proof.
  exists (MState demo_lks [PIdle; PIdle]). split.
  - split; [done|]. intros [|[|i]] p Hp; simpl in Hp; by simplify_eq.
  - eapply rtc_l; [by apply (mstep_check 0 Lptable)|].
    eapply rtc_l; [by apply (mstep_check 1 Lptable)|].
    eapply rtc_l; [by apply (mstep_xchg 0 Lptable)|].
    eapply rtc_l; [by apply (mstep_xchg 1 Lptable)|]. reflexivity.
Qed.

Lemma spinlock_mutual_exclusion_witness :
  owns demo_race 0 Lptable ∧ (owns demo_race 1 Lptable → 0%nat = 1%nat).
Proof.
  assert (owns demo_race 0 Lptable) as H by (right; left; reflexivity).
  split; [exact H|]. intros H1.
  exact (spinlock_mutual_exclusion demo_race 0 1 Lptable demo_race_reach H H1).
Defined.

(** A CPU whose exchange fails is waiting for another CPU: the checks of
    [acquire] rule out spinning on a lock the CPU itself owns. *)
Theorem spinlock_no_self_deadlock st i l :
  mreach st → ms_ph st !! i = Some (PTry l) → l_locked (getlock l (ms_k st)) ≠ 0 →
  ∃ j, j ≠ i ∧ owns st j l.
Proof.
  intros Hr Hp Hl. destruct (lock_inv_reach st l Hr) as [H1 H2 H3 H4 H5].
  destruct (l_cpu (getlock l (ms_k st))) as [j|] eqn:Hc.
  - exists j. split; [intros ->; by apply (H5 i)|]. left. unfold holding_now.
    rewrite Hc, bool_decide_true by done. by apply Z.eqb_neq in Hl as ->.
  - destruct (H4 Hl eq_refl) as [j Hj]. exists j. split; [|by right].
    intros ->. destruct Hj; congruence.
Qed.

Lemma spinlock_no_self_deadlock_witness :
  ∃ j, j ≠ 1%nat ∧ owns demo_race j Lptable.
Proof.
  apply (spinlock_no_self_deadlock demo_race 1 Lptable demo_race_reach);
    [reflexivity|vm_compute; discriminate].
Defined.

Section Nesting.
Context {S : Type} `{!LockState S}.

Lemma repeat_m_last n (m : M S unit) o s :
  repeat_m (Datatypes.S n) m o s = bind (repeat_m n m) (λ _, m) o s.
Proof.
  revert o s. induction n as [|n IH]; intros o s.
  - simpl. unfold bind, ret. by destruct (m o s) as [[] ? ?|??|?|?|??].
  - change (repeat_m (Datatypes.S (Datatypes.S n)) m) with (m ;;; repeat_m (Datatypes.S n) m).
    change (repeat_m (Datatypes.S n) m) with (m ;;; repeat_m n m) at 2.
    rewrite bind_assoc. unfold bind at 1 2. destruct (m o s); [|done..]. apply IH.
Qed.

(** The masking part of the state: interrupt flag and nesting depth. *)
Definition masked_like (k k' : lkstate) (i : nat) (b : bool) (n : Z) : Prop :=
  lk_locks k' = lk_locks k ∧ ∃ c, lk_at k' i c b ∧ c_ncli c = n.

Lemma nested_cli n o (s : S) i c b :
  lk_at (lks s) i c b → (c_ncli c ≠ 0 → b = false) → c_ncli c + Z.of_nat n < 2147483630 →
  ∃ s', bind (repeat_m n pushcli) (λ _, repeat_m n popcli) o s = Ok tt s' o ∧
    lk_locks (lks s') = lk_locks (lks s) ∧
    ∃ e, lk_at (lks s') i (Cpu (c_apicid c) (c_ncli c) e) b ∧
         (c_ncli c ≠ 0 → e = c_intena c).
Proof.
  revert o s c b. induction n as [|n IH]; intros o s c b H Hb Hn.
  - exists s. split_and!; [done..|]. exists (c_intena c). by destruct c.
  - pose proof H as (_ & _ & _ & ?). pose proof (lk_at_push _ _ _ _ H ltac:(lia)) as H'.
    destruct (IH o (set_lks (push_k i b (lks s)) s) (pushed b c) false)
      as (s1 & Hrun & Hl & e & Hat & He).
    { by rewrite lks_set_lks. }
    { done. }
    { simpl. lia. }
    simpl in He, Hat. rewrite lks_set_lks in Hl. specialize (He ltac:(lia)). subst e.
    exists (set_lks (pop_k i (pushed b c) (lks s1)) s1). split_and!.
    + unfold bind at 1. simpl repeat_m at 1.
      erewrite bind_ok; [|eapply pushcli_eq; [done|lia]].
      unfold bind at 1 in Hrun.
      destruct (repeat_m n pushcli o _) eqn:E; simplify_eq/=.
      change (bind popcli (λ _, repeat_m n popcli)) with (repeat_m (Datatypes.S n) popcli).
      rewrite repeat_m_last. erewrite bind_ok; [|done].
      eapply (popcli_eq _ _ i (pushed b c)); [done|simpl; lia].
    + rewrite lks_set_lks. unfold pop_k. destruct (_ && _); simpl; by rewrite Hl.
    + exists (if c_ncli c =? 0 then if_bit b else c_intena c).
      rewrite lks_set_lks. unfold pop_k, pushed in *. simpl in *.
      pose proof (lk_at_cpu_alter (λ x, Cpu (c_apicid x) (c_ncli x - 1) (c_intena x)) _ _ _ _ Hat
                    eq_refl ltac:(simpl; lia)) as Hat'.
      simpl in Hat'. replace (c_ncli c + 1 - 1) with (c_ncli c) in Hat' by lia.
      split; [|intros E; by apply Z.eqb_neq in E as ->].
      destruct (Z.eqb_spec (c_ncli c) 0) as [E|E].
      * rewrite E in *. simpl. destruct b; [|done]. by apply (lk_at_set_if true) in Hat'.
      * rewrite (proj2 (Z.eqb_neq _ _)) by lia. simpl. by rewrite Hb.
Qed.

(** pushcli and popcli nest: [n] pushcli followed by [n] popcli give back
    the interrupt flag and the nesting depth they started with, for every
    depth up to the range of the counter, and touch no lock. *)
Theorem cli_nesting n o (s : S) i c b :
  lk_at (lks s) i c b → (c_ncli c ≠ 0 → b = false) → c_ncli c + Z.of_nat n < 2147483630 →
  ∃ s', bind (repeat_m n pushcli) (λ _, repeat_m n popcli) o s = Ok tt s' o ∧
        masked_like (lks s) (lks s') i b (c_ncli c).
Proof.
  intros H Hb Hn. destruct (nested_cli n o s i c b H Hb Hn) as (s' & ? & ? & e & ? & _).
  exists s'. split; [done|]. split; [done|]. eauto.
Qed.

(** A critical section with an empty body: a free lock is acquired without
    waiting and released again, and the whole state is what it was before. *)
Theorem acquire_release_roundtrip l o (s : S) i c b :
  lk_at (lks s) i c b → c_ncli c < 2147483638 →
  (c_ncli c ≠ 0 → b = false) → (c_ncli c = 0 → c_intena c = if_bit b) →
  lk_locks (lks s) !! l = Some (Spinlock 0 None (l_name (getlock l (lks s)))) →
  bind (acquire l) (λ _, release l) o s = Ok tt s o.
Proof.
  intros H Hn Hb Hi Hl. pose proof H as (_ & _ & _ & ?).
  assert (l_locked (getlock l (lks s)) = 0) by (unfold getlock; by rewrite Hl).
  erewrite bind_ok; [|by eapply acquire_eq].
  erewrite release_eq; [|rewrite lks_set_lks; by apply lk_at_acq|simpl; lia
                        |rewrite lks_set_lks; apply holding_acq].
  by rewrite lks_set_lks, set_lks_set_lks, rel_acq, set_lks_lks.
Qed.
End Nesting.

#[export] Instance lkstate_LockState : LockState lkstate.
Proof. by refine {| lks := id; set_lks := λ x _, x |}. Defined.

Lemma cli_nesting_witness :
  ∃ s', bind (repeat_m 3 pushcli) (λ _, repeat_m 3 popcli) [] demo_lks = Ok tt s' [] ∧
        masked_like demo_lks s' 0 true 0.
Proof.
  exact (cli_nesting 3 [] demo_lks 0 (Cpu 0 0 FL_IF) true demo_lks_at
           (λ H, False_ind _ (H eq_refl)) ltac:(vm_compute; reflexivity)).
Defined.

Lemma acquire_release_roundtrip_witness :
  bind (acquire Lkmem) (λ _, release Lkmem) [] (setlock Lkmem (Spinlock 0 None "kmem") demo_lks)
  = Ok tt (setlock Lkmem (Spinlock 0 None "kmem") demo_lks) [].
Proof.
  apply (acquire_release_roundtrip Lkmem [] (setlock Lkmem (Spinlock 0 None "kmem") demo_lks)
           0 (Cpu 0 0 FL_IF) true);
    [apply lk_at_setlock, demo_lks_at|vm_compute; reflexivity|done|done|reflexivity].
Defined.
