(* ===== verification/CString.v ===== *)
(** * Memory and string routines

    [string.c] (kernel) and the string part of [ulib.c] (user library) on
    byte-addressed memory.  Loops bounded by a length argument recurse on it;
    loops that run to a NUL byte take fuel, and the theorems show that the
    distance to the NUL is enough.  [fill] and [copy] are the reference
    definitions the rest of the development uses for [memset] and [memmove]. *)

From S2P Require Import Prelude Defs.

(** ** Reference definitions *)

Definition fill (m : memory) (a n c : Z) : memory :=
  λ x, if (a <=? x) && (x <? a + n) then u8 c else m x.
Definition copy (m : memory) (dst src n : Z) : memory :=
  λ x, if (dst <=? x) && (x <? dst + n) then m (src + (x - dst)) else m x.

(** The C string of at most [n] bytes at [a]: up to the first NUL. *)
Fixpoint cprefix (m : memory) (a : Z) (n : nat) : list Z :=
  match n with
  | O => []
  | S n' => if m a =? 0 then [] else m a :: cprefix m (a + 1) n'
  end.

(** The string [s] (no NUL inside) followed by a NUL is stored at [a]. *)
Fixpoint cstr (m : memory) (a : Z) (s : list Z) : Prop :=
  match s with
  | [] => m a = 0
  | c :: s' => m a = c ∧ c ≠ 0 ∧ cstr m (a + 1) s'
  end.

(** ** string.c *)

(** [rep stosb] and [rep stosl]. *)
Fixpoint stosb (m : memory) (a c : Z) (cnt : nat) : memory :=
  match cnt with
  | O => m
  | S k => stosb (st8 m a c) (a + 1) c k
  end.
Fixpoint stosl (m : memory) (a w : Z) (cnt : nat) : memory :=
  match cnt with
  | O => m
  | S k => stosl (st32 m a w) (a + 4) w k
  end.

Definition memset (m : memory) (dst c n : Z) : memory :=
  if (Z.rem (i32 dst) 4 =? 0) && (n `mod` 4 =? 0) then
    let c := Z.land c 0xFF in
    stosl m dst (Z.lor (Z.lor (Z.lor (i32 (Z.shiftl c 24)) (Z.shiftl c 16)) (Z.shiftl c 8)) c)
      (Z.to_nat (n / 4))
  else stosb m dst c (Z.to_nat n).

Fixpoint memcmp (m : memory) (s1 s2 : Z) (n : nat) : Z :=
  match n with
  | O => 0
  | S n' => if negb (m s1 =? m s2) then m s1 - m s2 else memcmp m (s1 + 1) (s2 + 1) n'
  end.

(** [while(n-- > 0) *d++ = *s++;] *)
Fixpoint copy_up (m : memory) (d s : Z) (n : nat) : memory :=
  match n with
  | O => m
  | S n' => copy_up (st8 m d (m s)) (d + 1) (s + 1) n'
  end.
(** [while(n-- > 0) *--d = *--s;] *)
Fixpoint copy_down (m : memory) (d s : Z) (n : nat) : memory :=
  match n with
  | O => m
  | S n' => copy_down (st8 m (d - 1) (m (s - 1))) (d - 1) (s - 1) n'
  end.

Definition memmove (m : memory) (dst src n : Z) : memory :=
  if (src <? dst) && (dst <? src + n)
  then copy_down m (dst + n) (src + n) (Z.to_nat n)
  else copy_up m dst src (Z.to_nat n).

Definition memcpy (m : memory) (dst src n : Z) : memory := memmove m dst src n.

Fixpoint strncmp (m : memory) (p q : Z) (n : nat) : Z :=
  match n with
  | O => 0
  | S n' => if negb (m p =? 0) && (m p =? m q) then strncmp m (p + 1) (q + 1) n'
            else u8 (m p) - u8 (m q)
  end.

(** [while(n-- > 0) *s++ = 0;] *)
Fixpoint zero_tail (m : memory) (s : Z) (n : nat) : memory :=
  match n with
  | O => m
  | S n' => zero_tail (st8 m s 0) (s + 1) n'
  end.
(** The first loop leaves [n] at the count of bytes still to pad. *)
Fixpoint strncpy (m : memory) (s t : Z) (n : nat) : memory :=
  match n with
  | O => m
  | S n' => let m' := st8 m s (m t) in
            if negb (m t =? 0) then strncpy m' (s + 1) (t + 1) n'
            else zero_tail m' (s + 1) n'
  end.

(** [while(--n > 0 && ( *s++ = *t++ ) != 0) ; *s = 0;] for [n > 0]: [k] is
    [n - 1] bytes at most are copied. *)
Fixpoint safestrcpy_loop (m : memory) (s t : Z) (k : nat) : memory :=
  match k with
  | O => st8 m s 0
  | S k' => let m' := st8 m s (m t) in
            if negb (m t =? 0) then safestrcpy_loop m' (s + 1) (t + 1) k'
            else st8 m' (s + 1) 0
  end.
Definition safestrcpy (m : memory) (s t n : Z) : memory :=
  if n <=? 0 then m else safestrcpy_loop m s t (Z.to_nat (n - 1)).

Fixpoint strlen_loop (fuel : nat) (m : memory) (s n : Z) : option Z :=
  match fuel with
  | O => None
  | S f => if negb (m (s + n) =? 0) then strlen_loop f m s (n + 1) else Some n
  end.
Definition strlen (fuel : nat) (m : memory) (s : Z) : option Z := strlen_loop fuel m s 0.

(** ** ulib.c *)

Fixpoint strcpy (fuel : nat) (m : memory) (s t : Z) : option memory :=
  match fuel with
  | O => None
  | S f => let m' := st8 m s (m t) in
           if negb (m t =? 0) then strcpy f m' (s + 1) (t + 1) else Some m'
  end.

Fixpoint strcmp (fuel : nat) (m : memory) (p q : Z) : option Z :=
  match fuel with
  | O => None
  | S f => if negb (m p =? 0) && (m p =? m q) then strcmp f m (p + 1) (q + 1)
           else Some (u8 (m p) - u8 (m q))
  end.

(** Address of the first [c] in the string, or 0. *)
Fixpoint strchr (fuel : nat) (m : memory) (s c : Z) : option Z :=
  match fuel with
  | O => None
  | S f => if negb (m s =? 0) then (if m s =? c then Some s else strchr f m (s + 1) c)
           else Some 0
  end.

Fixpoint atoi_loop (fuel : nat) (m : memory) (s n : Z) : option Z :=
  match fuel with
  | O => None
  | S f => if (48 <=? i8 (m s)) && (i8 (m s) <=? 57)
           then atoi_loop f m (s + 1) (i32 (n * 10 + i8 (m s) - 48))
           else Some n
  end.
Definition atoi (fuel : nat) (m : memory) (s : Z) : option Z := atoi_loop fuel m s 0.

(** User memset and memmove: byte by byte, upwards. *)
Definition umemset (m : memory) (dst c n : Z) : memory := stosb m dst c (Z.to_nat n).
Definition umemmove (m : memory) (dst src n : Z) : memory := copy_up m dst src (Z.to_nat n).

(** ** memset *)

Lemma fill_0 m a c x : fill m a 0 c x = m x.
Proof. unfold fill. case_tests. Qed.

Lemma stosb_fill m a c cnt x : stosb m a c cnt x = fill m a (Z.of_nat cnt) c x.
Proof.
  revert m a. induction cnt as [|k IH]; intros m a; simpl; [by rewrite fill_0|].
  rewrite IH. unfold fill, st8. case_tests.
Qed.

Lemma byte_word_bytes c w : 0 ≤ c < 256 → u32 w = c * 16843009 →
  u8 w = c ∧ u8 (w / 256) = c ∧ u8 (w / 65536) = c ∧ u8 (w / 16777216) = c.
Proof. intros Hc Hw. unfold u8, u32 in *. split_and!; dlia. Qed.

Lemma stosl_fill m a w cnt c x :
  0 ≤ c < 256 → u32 w = c * 16843009 → stosl m a w cnt x = fill m a (4 * Z.of_nat cnt) c x.
Proof.
  intros Hc Hw. destruct (byte_word_bytes c w Hc Hw) as (H1 & H2 & H3 & H4).
  revert m a. induction cnt as [|k IH]; intros m a; simpl stosl; [by rewrite fill_0|].
  rewrite IH. unfold fill, st32. rewrite H1, H2, H3, H4, (u8_small c) by lia.
  case_tests.
Qed.

Lemma splat_word c : 0 ≤ c < 256 →
  u32 (Z.lor (Z.lor (Z.lor (i32 (Z.shiftl c 24)) (Z.shiftl c 16)) (Z.shiftl c 8)) c)
  = c * 16843009.
Proof.
  intros Hc.
  assert (Forall (λ n : nat, let c := Z.of_nat n in
    u32 (Z.lor (Z.lor (Z.lor (i32 (Z.shiftl c 24)) (Z.shiftl c 16)) (Z.shiftl c 8)) c)
    = c * 16843009) (seq 0 256)) as H.
  { apply Forall_forall. intros n Hn. revert n Hn. apply Forall_forall.
    apply (bool_decide_unpack _). vm_compute. exact I. }
  rewrite Forall_forall in H. specialize (H (Z.to_nat c)).
  rewrite Z2Nat.id in H by lia. apply H. apply elem_of_seq. lia.
Qed.

Lemma u8_land c : Z.land c 0xFF = u8 c.
Proof. change 0xFF with (Z.ones 8). by rewrite land_low_mask. Qed.

Lemma memset_fill m dst c n x : 0 ≤ n → memset m dst c n x = fill m dst n c x.
Proof.
  intros Hn. unfold memset. destruct (_ && _) eqn:E; to_prop.
  - rewrite (stosl_fill _ _ _ _ (u8 c)); [|apply u8_range|rewrite u8_land; apply splat_word, u8_range].
    rewrite Z2Nat.id by dlia. replace (4 * (n / 4)) with n by dlia.
    unfold fill. by rewrite u8_idemp.
  - rewrite stosb_fill, Z2Nat.id by lia. done.
  - rewrite stosb_fill, Z2Nat.id by lia. done.
Qed.

(** ** memmove *)

Definition bytes_ok (m : memory) : Prop := ∀ x, 0 ≤ m x < 256.

Lemma bytes_ok_st8 m a v : bytes_ok m → bytes_ok (st8 m a v).
Proof. intros H x. unfold st8. case_test; [apply u8_range|apply H]. Qed.

Lemma bytes_ok_st32 m a v : bytes_ok m → bytes_ok (st32 m a v).
Proof. intros H x. unfold st32. repeat case_test; solve [apply u8_range | apply H]. Qed.

Lemma bytes_ok_fill m a n c : bytes_ok m → bytes_ok (fill m a n c).
Proof. intros H x. unfold fill. case_test; [apply u8_range|apply H]. Qed.

Lemma bytes_ok_copy m d s n : bytes_ok m → bytes_ok (copy m d s n).
Proof. intros H x. unfold copy. case_test; apply H. Qed.

#[export] Hint Resolve bytes_ok_st8 bytes_ok_st32 bytes_ok_fill bytes_ok_copy : xv6.

Lemma copy_up_copy m d s n x :
  bytes_ok m → d ≤ s ∨ s + Z.of_nat n ≤ d →
  copy_up m d s n x = copy m d s (Z.of_nat n) x.
Proof.
  revert m d s. induction n as [|n IH]; intros m d s Hm Hd; simpl.
  - unfold copy. case_tests.
  - rewrite IH by (eauto with xv6 || lia).
    unfold copy, st8. rewrite (u8_small (m s)) by apply Hm.
    case_tests; f_equal; lia.
Qed.

Lemma copy_down_copy m d s n x :
  bytes_ok m → s ≤ d →
  copy_down m (d + Z.of_nat n) (s + Z.of_nat n) n x = copy m d s (Z.of_nat n) x.
Proof.
  revert m. induction n as [|n IH]; intros m Hm Hd; cbn [copy_down].
  - unfold copy. case_tests.
  - replace (d + Z.of_nat (S n) - 1) with (d + Z.of_nat n) by lia.
    replace (s + Z.of_nat (S n) - 1) with (s + Z.of_nat n) by lia.
    rewrite IH by eauto with xv6.
    unfold copy, st8. rewrite (u8_small (m (s + Z.of_nat n))) by apply Hm.
    case_tests; f_equal; lia.
Qed.

Lemma memmove_copy m dst src n x :
  bytes_ok m → 0 ≤ n → memmove m dst src n x = copy m dst src n x.
Proof.
  intros Hm Hn. unfold memmove. destruct (_ && _) eqn:E; to_prop.
  - pose proof (copy_down_copy m dst src (Z.to_nat n) x Hm ltac:(lia)) as Hd.
    by rewrite Z2Nat.id in Hd by lia.
  - rewrite copy_up_copy, Z2Nat.id by (done || lia). done.
  - rewrite copy_up_copy, Z2Nat.id by (done || lia). done.
Qed.

(** ** Bounded string routines *)

Lemma cprefix_ext m m' a b n :
  (∀ i, 0 ≤ i < Z.of_nat n → m (a + i) = m' (b + i)) → cprefix m a n = cprefix m' b n.
Proof.
  revert a b. induction n as [|n IH]; intros a b H; [done|]. simpl.
  pose proof (H 0 ltac:(lia)) as H0. rewrite !Z.add_0_r in H0. rewrite H0.
  destruct (m' b =? 0); [done|]. f_equal. apply IH. intros i Hi.
  specialize (H (i + 1) ltac:(lia)). by rewrite !(Z.add_comm i 1), !Z.add_assoc in H.
Qed.

Lemma strncmp_zero_iff m p q n :
  bytes_ok m → strncmp m p q n = 0 ↔ cprefix m p n = cprefix m q n.
Proof.
  intros Hm. revert p q. induction n as [|n IH]; intros p q; simpl; [done|].
  rewrite !u8_small by apply Hm.
  destruct (Z.eqb_spec (m p) 0) as [E|E]; simpl.
  { rewrite E. destruct (Z.eqb_spec (m q) 0); split; intros; (lia || congruence). }
  destruct (Z.eqb_spec (m p) (m q)) as [E'|E']; simpl.
  - rewrite IH, <- E', (proj2 (Z.eqb_neq _ _)) by done.
    split; [congruence|]. intros Heq. by injection Heq.
  - destruct (Z.eqb_spec (m q) 0); split; intros; (lia || congruence).
Qed.

Lemma zero_tail_fill m s n x : zero_tail m s n x = fill m s (Z.of_nat n) 0 x.
Proof.
  revert m s. induction n as [|n IH]; intros m s; simpl.
  - unfold fill. case_tests.
  - rewrite IH. unfold fill, st8. case_tests.
Qed.

(** The byte at offset [i] of the string of at most [n] bytes at [a], NUL
    after its end. *)
Definition padded (m : memory) (a : Z) (n : nat) (i : nat) : Z :=
  default 0 (cprefix m a n !! i).

Lemma strncpy_bytes m s t n i :
  bytes_ok m → t + Z.of_nat n ≤ s ∨ s + Z.of_nat n ≤ t → (i < n)%nat →
  strncpy m s t n (s + Z.of_nat i) = padded m t n i.
Proof.
  revert m s t i. induction n as [|n IH]; intros m s t i Hm Hd Hi; [lia|].
  unfold padded. simpl. destruct (Z.eqb_spec (m t) 0) as [E|E]; simpl.
  - rewrite zero_tail_fill. unfold fill, st8. rewrite E.
    case_tests; by destruct i.
  - destruct i as [|i].
    + clear IH. rewrite Z.add_0_r. simpl.
      assert (∀ k m' s' t', s < s' → strncpy m' s' t' k s = m' s) as Hout.
      { induction k as [|k IH]; intros m' s' t' Hs; simpl; [done|].
        destruct (negb _).
        - rewrite IH by lia. apply st8_other. lia.
        - rewrite zero_tail_fill. unfold fill. case_tests; apply st8_other; lia. }
      rewrite Hout by lia. rewrite st8_same. apply u8_small, Hm.
    + replace (s + Z.of_nat (S i)) with (s + 1 + Z.of_nat i) by lia.
      rewrite IH by (eauto with xv6 || lia). unfold padded. simpl. f_equal. f_equal.
      apply cprefix_ext. intros j Hj. apply st8_other. lia.
Qed.

Lemma strncpy_other m s t n x :
  x < s ∨ s + Z.of_nat n ≤ x → strncpy m s t n x = m x.
Proof.
  revert m s t. induction n as [|n IH]; intros m s t Hx; simpl; [done|].
  destruct (negb _).
  - rewrite IH by lia. apply st8_other. lia.
  - rewrite zero_tail_fill. unfold fill. case_tests; apply st8_other; lia.
Qed.

Lemma padded_cons m a n i : m a ≠ 0 → padded m a (S n) (S i) = padded m (a + 1) n i.
Proof. intros. unfold padded. simpl. by rewrite (proj2 (Z.eqb_neq _ _)). Qed.

Lemma cprefix_of_padded m a m' b n :
  bytes_ok m → (∀ i, (i < n)%nat → m' (b + Z.of_nat i) = padded m a n i) →
  cprefix m' b n = cprefix m a n.
Proof.
  revert a b. induction n as [|n IH]; intros a b Hm H; [done|]. simpl.
  pose proof (H 0%nat ltac:(lia)) as H0. rewrite Z.add_0_r in H0. rewrite H0.
  unfold padded. simpl. destruct (Z.eqb_spec (m a) 0) as [E|E]; simpl; [done|].
  rewrite (proj2 (Z.eqb_neq _ _)) by done. f_equal. apply IH; [done|]. intros i Hi.
  rewrite <- padded_cons by done. rewrite <- H by lia. f_equal. lia.
Qed.

Lemma safestrcpy_loop_other m s t k x :
  x < s ∨ s + Z.of_nat k + 1 ≤ x → safestrcpy_loop m s t k x = m x.
Proof.
  revert m s t. induction k as [|k IH]; intros m s t Hx; simpl.
  - apply st8_other. lia.
  - destruct (negb _); [rewrite IH by lia|rewrite st8_other by lia]; apply st8_other; lia.
Qed.

Lemma safestrcpy_loop_cstr m s t k :
  bytes_ok m → t + Z.of_nat k ≤ s ∨ s + Z.of_nat k < t →
  cstr (safestrcpy_loop m s t k) s (cprefix m t k).
Proof.
  revert m s t. induction k as [|k IH]; intros m s t Hm Hd; simpl.
  - by rewrite st8_same.
  - destruct (Z.eqb_spec (m t) 0) as [E|E]; simpl.
    + rewrite st8_other by lia. by rewrite st8_same, E.
    + rewrite safestrcpy_loop_other, st8_same, u8_small by (apply Hm || lia).
      split_and!; [done..|].
      rewrite (cprefix_ext m (st8 m s (m t)) (t + 1) (t + 1) k).
      * apply IH; [by apply bytes_ok_st8|lia].
      * intros i Hi. symmetry. apply st8_other. lia.
Qed.

(** ** Routines that run to the NUL *)

Lemma strlen_loop_cstr fuel m s n str :
  cstr m (s + n) str → (length str < fuel)%nat →
  strlen_loop fuel m s n = Some (n + Z.of_nat (length str)).
Proof.
  revert n str. induction fuel as [|f IH]; intros n str Hs Hl; [lia|]. simpl.
  destruct str as [|c str]; simpl in *.
  - rewrite Hs. simpl. f_equal. lia.
  - destruct Hs as (-> & Hc & Hs). rewrite (proj2 (Z.eqb_neq _ _)) by done. simpl.
    rewrite (IH (n + 1) str); [f_equal; lia|by rewrite Z.add_assoc|lia].
Qed.

Lemma strcmp_cstr fuel m p q sp sq :
  bytes_ok m → cstr m p sp → cstr m q sq → (length sp < fuel)%nat →
  ∃ r, strcmp fuel m p q = Some r ∧ (r = 0 ↔ sp = sq).
Proof.
  intros Hm. revert p q sp sq. induction fuel as [|f IH]; intros p q sp sq Hp Hq Hl; [lia|].
  simpl. rewrite !u8_small by apply Hm.
  destruct sp as [|c sp]; simpl in *.
  - rewrite Hp. simpl. eexists. split; [done|]. destruct sq as [|d sq]; simpl in *.
    + rewrite Hq. done.
    + destruct Hq as (-> & ? & _). split; [lia|done].
  - destruct Hp as (-> & Hc & Hp). rewrite (proj2 (Z.eqb_neq c 0)) by done. simpl.
    destruct sq as [|d sq]; simpl in *.
    + rewrite Hq, (proj2 (Z.eqb_neq c 0)) by done. eexists. split; [done|]. split; [lia|done].
    + destruct Hq as (-> & Hd & Hq). destruct (Z.eqb_spec c d) as [->|Hne].
      * destruct (IH (p + 1) (q + 1) sp sq) as (r & Hr & Hiff); [done..|lia|].
        exists r. split; [done|]. rewrite Hiff. split; congruence.
      * eexists. split; [done|]. split; [lia|congruence].
Qed.

Lemma strcpy_cstr fuel m s t str :
  bytes_ok m → cstr m t str → (length str < fuel)%nat →
  t + Z.of_nat (length str) < s ∨ s + Z.of_nat (length str) < t →
  ∃ m', strcpy fuel m s t = Some m' ∧ cstr m' s str ∧
        (∀ x, x < s ∨ s + Z.of_nat (length str) < x → m' x = m x).
Proof.
  intros Hm. revert m s t str Hm. induction fuel as [|f IH]; intros m s t str Hm Ht Hl Hd; [lia|].
  simpl. destruct str as [|c str]; simpl in *.
  - rewrite Ht. simpl. eexists. split_and!; [done| |].
    + by rewrite st8_same.
    + intros x Hx. apply st8_other. lia.
  - destruct Ht as (Htc & Hc & Ht). rewrite Htc, (proj2 (Z.eqb_neq c 0)) by done. simpl.
    assert (∀ str' a, a + Z.of_nat (length str') < s ∨ s < a → cstr m a str' →
              cstr (st8 m s c) a str') as Hkeep.
    { induction str' as [|d str' IHs]; intros a Ha; simpl; rewrite st8_other by (simpl in *; lia).
      - done.
      - intros (? & ? & ?). split_and!; [done..|]. apply IHs; [simpl in *; lia|done]. }
    destruct (IH (st8 m s c) (s + 1) (t + 1) str) as (m' & Hrun & Hs & Ho).
    { by apply bytes_ok_st8. }
    { apply Hkeep; [lia|done]. }
    { lia. }
    { lia. }
    exists m'. split_and!; [done| |done|done|].
    + rewrite Ho, st8_same by lia. rewrite <- Htc. apply u8_small, Hm.
    + intros x Hx. rewrite Ho by lia. apply st8_other. lia.
Qed.

Lemma strchr_cstr fuel m s c str :
  c ≠ 0 → cstr m s str → (length str < fuel)%nat →
  strchr fuel m s c =
    Some (match list_find (λ d, d = c) str with
          | Some (i, _) => s + Z.of_nat i
          | None => 0
          end).
Proof.
  intros Hc. revert s str. induction fuel as [|f IH]; intros s str Hs Hl; [lia|]. simpl.
  destruct str as [|d str]; simpl in *.
  - by rewrite Hs.
  - destruct Hs as (-> & Hd & Hs). rewrite (proj2 (Z.eqb_neq d 0)) by done. simpl.
    destruct (Z.eqb_spec d c) as [->|Hne].
    + rewrite decide_True by done. f_equal. lia.
    + rewrite decide_False, (IH (s + 1) str) by (done || lia).
      destruct (list_find _ str) as [[i d']|]; simpl; [f_equal; lia|done].
Qed.

(** Decimal value of a list of digit characters. *)
Definition digit (c : Z) : Prop := 48 ≤ c ≤ 57.
Definition dec_val (n : Z) (ds : list Z) : Z := foldl (λ a c, a * 10 + (c - 48)) n ds.

Fixpoint bytes_at (m : memory) (a : Z) (s : list Z) : Prop :=
  match s with
  | [] => True
  | c :: s' => m a = c ∧ bytes_at m (a + 1) s'
  end.

Lemma dec_val_ge n ds : 0 ≤ n → Forall digit ds → n ≤ dec_val n ds.
Proof.
  revert n. induction ds as [|c ds IH]; intros n Hn Hd; simpl; [lia|].
  apply Forall_cons_iff in Hd as [Hc Hd]. unfold digit in Hc.
  specialize (IH (n * 10 + (c - 48)) ltac:(lia) Hd). unfold dec_val in *. simpl in *. lia.
Qed.

Lemma atoi_loop_digits fuel m s n ds :
  Forall digit ds → bytes_at m s ds → ¬ digit (i8 (m (s + Z.of_nat (length ds)))) →
  (length ds < fuel)%nat → 0 ≤ n → dec_val n ds < 2147483648 →
  atoi_loop fuel m s n = Some (dec_val n ds).
Proof.
  revert s n ds. induction fuel as [|f IH]; intros s n ds Hd Hb He Hl Hn Hv; [lia|].
  destruct ds as [|c ds]; simpl in *.
  - rewrite Z.add_0_r in He. unfold digit in He. destruct (_ && _) eqn:E; [to_prop; lia|done].
  - destruct Hb as [-> Hb]. apply Forall_cons_iff in Hd as [Hc Hd]. unfold digit in Hc.
    rewrite (i8_small c) by lia.
    destruct (_ && _) eqn:E; [|to_prop; lia].
    pose proof (dec_val_ge (n * 10 + (c - 48)) ds ltac:(lia) Hd). unfold dec_val in *. simpl in *.
    rewrite i32_small by lia. replace (n * 10 + c - 48) with (n * 10 + (c - 48)) by lia.
    apply IH; try done; try lia.
    by replace (s + 1 + Z.of_nat (length ds)) with (s + Z.of_nat (S (length ds))) by lia.
Qed.

Lemma bytes_ok_strncpy m s t n : bytes_ok m → bytes_ok (strncpy m s t n).
Proof.
  revert m s t. induction n as [|n IH]; intros m s t Hm; simpl; [done|].
  destruct (negb _); [by apply IH, bytes_ok_st8|]. intros x. rewrite zero_tail_fill.
  by apply bytes_ok_fill, bytes_ok_st8.
Qed.

(** ** Main theorems *)

(** A memory holding the bytes [l] from address [a] on, 0 elsewhere. *)
Definition mem_of (a : Z) (l : list Z) : memory :=
  λ x, if x <? a then 0 else default 0 (l !! Z.to_nat (x - a)).

Lemma mem_of_ok a l : Forall (λ b, 0 ≤ b < 256) l → bytes_ok (mem_of a l).
Proof.
  intros Hl x. unfold mem_of. case_test; [lia|].
  destruct (l !! _) as [b|] eqn:E; simpl; [|lia].
  by eapply (Forall_lookup_1 _ _ _ _ Hl).
Qed.

(** memmove copies [n] bytes whatever the overlap of source and destination,
    and changes nothing else: every byte of the destination is the byte the
    source had before the call. *)
Theorem memmove_correct m dst src n x :
  bytes_ok m → 0 ≤ n →
  memmove m dst src n x =
    if decide (dst ≤ x < dst + n) then m (src + (x - dst)) else m x.
Proof.
  intros Hm Hn. rewrite memmove_copy by done. unfold copy.
  case_decide; case_tests.
Qed.

Lemma memmove_correct_witness :
  memmove (mem_of 100 [1; 2; 3; 4; 5]) 102 100 3 104 = mem_of 100 [1; 2; 3; 4; 5] 102.
Proof.
  rewrite (memmove_correct (mem_of 100 [1; 2; 3; 4; 5]) 102 100 3 104);
    [reflexivity|apply mem_of_ok; repeat (apply Forall_cons; split; [lia|]); constructor|lia].
Defined.

(** memset stores the low byte of its argument in exactly the [n] bytes from
    [dst] on, on the word path (aligned) and on the byte path alike. *)
Theorem memset_correct m dst c n x :
  0 ≤ n → memset m dst c n x = if decide (dst ≤ x < dst + n) then c `mod` 256 else m x.
Proof.
  intros Hn. rewrite memset_fill by done. unfold fill, u8. case_decide; case_tests.
Qed.

Lemma memset_correct_witness : memset (mem_of 0 []) 4096 257 8 4100 = 1.
Proof. rewrite (memset_correct (mem_of 0 []) 4096 257 8 4100); [reflexivity|lia]. Defined.

(** Directory entry names: after [strncpy] of a name into an [n]-byte field
    that does not overlap it, [strncmp] with bound [n] finds name and field
    equal, and comparing the field with any other string tests equality with
    the name's first [n] bytes. *)
Theorem strncpy_strncmp_roundtrip m field name n q :
  bytes_ok m →
  name + Z.of_nat n ≤ field ∨ field + Z.of_nat n ≤ name →
  q + Z.of_nat n ≤ field ∨ field + Z.of_nat n ≤ q →
  let m' := strncpy m field name n in
  strncmp m' name field n = 0 ∧
  (strncmp m' q field n = 0 ↔ cprefix m q n = cprefix m name n).
Proof.
  intros Hm Hd Hq m'.
  assert (cprefix m' field n = cprefix m name n) as Hf.
  { apply cprefix_of_padded; [done|]. intros i Hi. by apply strncpy_bytes. }
  assert (∀ a, a + Z.of_nat n ≤ field ∨ field + Z.of_nat n ≤ a →
            cprefix m' a n = cprefix m a n) as Ho.
  { intros a Ha. apply cprefix_ext. intros i Hi. apply strncpy_other. lia. }
  rewrite !strncmp_zero_iff by (by apply bytes_ok_strncpy). by rewrite Hf, !Ho.
Qed.

Lemma strncpy_strncmp_roundtrip_witness :
  let m := mem_of 100 [99; 97; 116; 0] in
  strncmp (strncpy m 200 100 14) 100 200 14 = 0 ∧
  (strncmp (strncpy m 200 100 14) 300 200 14 = 0 ↔ cprefix m 300 14 = cprefix m 100 14).
Proof.
  apply (strncpy_strncmp_roundtrip (mem_of 100 [99; 97; 116; 0]) 200 100 14 300);
    [apply mem_of_ok; repeat (apply Forall_cons; split; [lia|]); constructor|left; lia|right; lia].
Defined.

(** safestrcpy always leaves a NUL-terminated string: the first [n - 1] bytes
    of the source string at most, inside the [n] bytes of the destination. *)
Theorem safestrcpy_terminated m s t n :
  bytes_ok m → 0 < n → t + n ≤ s ∨ s + n ≤ t →
  cstr (safestrcpy m s t n) s (cprefix m t (Z.to_nat (n - 1))) ∧
  ∀ x, x < s ∨ s + n ≤ x → safestrcpy m s t n x = m x.
Proof.
  intros Hm Hn Hd. unfold safestrcpy. rewrite (proj2 (Z.leb_gt _ _)) by lia. split.
  - apply safestrcpy_loop_cstr; [done|lia].
  - intros x Hx. apply safestrcpy_loop_other. lia.
Qed.

Lemma safestrcpy_terminated_witness :
  cstr (safestrcpy (mem_of 100 [105; 110; 105; 116; 0]) 200 100 4) 200 [105; 110; 105].
Proof.
  refine (proj1 (safestrcpy_terminated (mem_of 100 [105; 110; 105; 116; 0]) 200 100 4 _ _ _));
    [apply mem_of_ok; repeat (apply Forall_cons; split; [lia|]); constructor|lia|left; lia].
Defined.

(** The user library's memmove is not an overlapping move: with the
    destination one byte above the source it smears the first byte over the
    whole destination. *)
Theorem umemmove_smears m src n x :
  bytes_ok m → src < x ≤ src + n → umemmove m (src + 1) src n x = m src.
Proof.
  intros Hm Hx. unfold umemmove.
  assert (∀ k m' s, bytes_ok m' → s < x ≤ s + Z.of_nat k →
            copy_up m' (s + 1) s k x = m' s) as H.
  { induction k as [|k IH]; intros m' s Hm' Hs; [lia|]. simpl.
    destruct (decide (x = s + 1)) as [->|Hne].
    - assert (∀ k' m'' d s', s + 1 < d → copy_up m'' d s' k' (s + 1) = m'' (s + 1)) as Hout.
      { induction k' as [|k' IH']; intros m'' d s' Hd; simpl; [done|].
        rewrite IH' by lia. apply st8_other. lia. }
      rewrite Hout, st8_same by lia. apply u8_small, Hm'.
    - rewrite IH; [|by apply bytes_ok_st8|lia]. rewrite st8_same. apply u8_small, Hm'. }
  apply H; [done|lia].
Qed.

Lemma umemmove_smears_witness :
  umemmove (mem_of 10 [1; 2; 3]) 11 10 2 12 = 1 ∧ memmove (mem_of 10 [1; 2; 3]) 11 10 2 12 = 2.
Proof.
  split; [|reflexivity].
  refine (umemmove_smears (mem_of 10 [1; 2; 3]) 10 2 12 _ _);
    [apply mem_of_ok; repeat (apply Forall_cons; split; [lia|]); constructor|lia].
Defined.
