(* ===== verification/Kernel.v ===== *)
(** * The kernel state

    The C structures of [proc.h], [proc.c], [mutex.c], [kalloc.c], [pipe.c],
    [file.h], [fs.h], [buf.h], [log.c], [sleeplock.h] and [console.c] as
    records, the global variables as one record [kernel], and the reads and
    writes through pointers.  A pointer into a table is the position of the
    entry; dereferencing a position outside its table is an [Undef] run.
    Page contents (kernel stacks, page tables, user pages, the free list) are
    bytes of [k_mem]. *)

From S2P Require Import Prelude Defs Bytes Ports Spinlock.
Local Open Scope kernel_scope.

(** ** proc.h *)
Record proc := Proc {
  p_sz : Z;  (* size of process memory (bytes) *)
  p_pgdir : Z;  (* page table (kernel virtual address) *)
  p_state : procstate;
  p_pid : Z;
  p_parent : option nat;  (* position in ptable.proc *)
  p_killed : Z;
  p_ofile : list (option nat);  (* open files, positions in ftable *)
  p_cwd : option nat;  (* current directory, position in icache *)
  p_name : list Z;  (* 16 bytes *)
  p_threads : option nat  (* position of its table in ptable.ttable *)
}.

Record kthread := Kthread {
  t_kstack : Z;
  t_ustack : Z;
  t_state : threadstate;
  t_tid : Z;
  t_tproc : option nat;
  t_tf : Z;  (* address of the trap frame *)
  t_context : Z;  (* address of the saved context *)
  t_chan : option chan;
  t_exitRequest : Z
}.

(** ** mutex.c: struct kthread_mutex_t, without its spinlock *)
Record kmutex := Kmutex {
  m_id : Z;
  m_locked : Z;
  m_tid : Z;
  m_used : Z;
  m_waiting : Z  (* waitingThreads *)
}.

(** ** kalloc.c: kmem, without its spinlock *)
Record kmem_t := Kmem {
  km_use_lock : Z;
  km_freelist : Z
}.

(** ** pipe.c *)
Record pipe := Pipe {
  pi_data : list Z;  (* 512 bytes *)
  pi_nread : Z;
  pi_nwrite : Z;
  pi_readopen : Z;
  pi_writeopen : Z
}.

(** ** file.h *)
Inductive filetype := FD_NONE | FD_PIPE | FD_INODE.
#[export] Instance filetype_eq_dec : EqDecision filetype.
Proof. solve_decision. Defined.
Record file := File {
  f_type : filetype;
  f_ref : Z;
  f_readable : Z;
  f_writable : Z;
  f_pipe : Z;  (* address of the pipe *)
  f_ip : option nat;  (* position in icache *)
  f_off : Z
}.

(** ** sleeplock.h, without its spinlock and its name *)
Record sleeplock := Sleeplock {
  sl_locked : Z;
  sl_pid : Z
}.

Record inode := Inode {
  i_dev : Z;
  i_inum : Z;
  i_ref : Z;
  i_lock : sleeplock;
  i_valid : Z;
  i_type : Z;
  i_major : Z;
  i_minor : Z;
  i_nlink : Z;
  i_size : Z;
  i_addrs : list Z  (* NDIRECT+1 block numbers *)
}.

(** ** buf.h *)
Record buf := Buf {
  b_flags : Z;
  b_dev : Z;
  b_blockno : Z;
  b_lock : sleeplock;
  b_refcnt : Z;
  b_data : list Z  (* BSIZE bytes *)
}.

(** ** log.c *)
Record log_t := Log {
  lg_start : Z;
  lg_size : Z;
  lg_outstanding : Z;
  lg_committing : Z;
  lg_dev : Z;
  lg_n : Z;  (* lh.n *)
  lg_block : list Z  (* lh.block *)
}.

(** ** fs.h *)
Record superblock := Superblock {
  sb_size : Z;
  sb_nblocks : Z;
  sb_ninodes : Z;
  sb_nlog : Z;
  sb_logstart : Z;
  sb_inodestart : Z;
  sb_bmapstart : Z
}.

(** ** console.c: input *)
Record input_t := Input {
  in_buf : list Z;  (* INPUT_BUF bytes *)
  in_r : Z;
  in_w : Z;
  in_e : Z
}.

(** ** All global state *)
Record kernel := Kernel {
  k_lk : lkstate;  (* spinlocks, cpus, masking *)
  k_proc : option nat;  (* mycpu()->proc *)
  k_thread : option tslot;  (* mycpu()->thread *)
  k_cr3 : Z;  (* page table register *)
  k_esp0 : Z;  (* mycpu()->ts.esp0 *)
  k_procs : list proc;  (* ptable.proc *)
  k_ttable : list (list kthread);  (* ptable.ttable *)
  k_nextpid : Z;
  k_nexttid : Z;
  k_initproc : option nat;
  k_first : Z;  (* static in forkret *)
  k_mutexes : list kmutex;  (* mutexTable.mutexes *)
  k_mutex_past : Z;  (* the word after the table *)
  k_mem : memory;  (* pages, by kernel virtual address *)
  k_kmem : kmem_t;
  k_end : Z;  (* linker symbol end *)
  k_data : Z;  (* linker symbol data *)
  k_kpgdir : Z;
  k_pipes : gmap Z pipe;  (* pipes, by page address *)
  k_ftable : list file;
  k_icache : list inode;
  k_sb : superblock;
  k_bufs : list buf;  (* bcache.buf *)
  k_lru : list nat;  (* bcache.head list, most recent first *)
  k_log : log_t;
  k_disk : list (list Z);
  k_ticks : Z;
  k_input : input_t;
  k_power : option nat;  (* disk writes until the power fails; None: never *)
  k_idequeue : list nat;  (* ide.c: idequeue, positions in bcache.buf *)
  k_havedisk1 : Z;  (* ide.c *)
  k_devsw : list bool;  (* devsw: which majors have functions *)
  k_cons_locking : Z;  (* console.c: cons.locking *)
  k_output : list Z;  (* characters sent to the console, latest first *)
  k_io : ports;  (* device registers *)
  k_uart : Z;  (* is there a uart? *)
  k_crt : list Z  (* the cells of the CGA screen *)
}.

(** ** Field updates *)
Definition set_p_sz (x : Z) (p : proc) : proc :=
  Proc x (p_pgdir p) (p_state p) (p_pid p) (p_parent p) (p_killed p) (p_ofile p) (p_cwd p)
    (p_name p) (p_threads p).
Definition set_p_pgdir (x : Z) (p : proc) : proc :=
  Proc (p_sz p) x (p_state p) (p_pid p) (p_parent p) (p_killed p) (p_ofile p) (p_cwd p)
    (p_name p) (p_threads p).
Definition set_p_state (x : procstate) (p : proc) : proc :=
  Proc (p_sz p) (p_pgdir p) x (p_pid p) (p_parent p) (p_killed p) (p_ofile p) (p_cwd p)
    (p_name p) (p_threads p).
Definition set_p_pid (x : Z) (p : proc) : proc :=
  Proc (p_sz p) (p_pgdir p) (p_state p) x (p_parent p) (p_killed p) (p_ofile p) (p_cwd p)
    (p_name p) (p_threads p).
Definition set_p_parent (x : option nat) (p : proc) : proc :=
  Proc (p_sz p) (p_pgdir p) (p_state p) (p_pid p) x (p_killed p) (p_ofile p) (p_cwd p)
    (p_name p) (p_threads p).
Definition set_p_killed (x : Z) (p : proc) : proc :=
  Proc (p_sz p) (p_pgdir p) (p_state p) (p_pid p) (p_parent p) x (p_ofile p) (p_cwd p)
    (p_name p) (p_threads p).
Definition set_p_ofile (x : list (option nat)) (p : proc) : proc :=
  Proc (p_sz p) (p_pgdir p) (p_state p) (p_pid p) (p_parent p) (p_killed p) x (p_cwd p)
    (p_name p) (p_threads p).
Definition set_p_cwd (x : option nat) (p : proc) : proc :=
  Proc (p_sz p) (p_pgdir p) (p_state p) (p_pid p) (p_parent p) (p_killed p) (p_ofile p) x
    (p_name p) (p_threads p).
Definition set_p_name (x : list Z) (p : proc) : proc :=
  Proc (p_sz p) (p_pgdir p) (p_state p) (p_pid p) (p_parent p) (p_killed p) (p_ofile p)
    (p_cwd p) x (p_threads p).
Definition set_p_threads (x : option nat) (p : proc) : proc :=
  Proc (p_sz p) (p_pgdir p) (p_state p) (p_pid p) (p_parent p) (p_killed p) (p_ofile p)
    (p_cwd p) (p_name p) x.

Definition set_t_kstack (x : Z) (t : kthread) : kthread :=
  Kthread x (t_ustack t) (t_state t) (t_tid t) (t_tproc t) (t_tf t) (t_context t)
    (t_chan t) (t_exitRequest t).
Definition set_t_ustack (x : Z) (t : kthread) : kthread :=
  Kthread (t_kstack t) x (t_state t) (t_tid t) (t_tproc t) (t_tf t) (t_context t)
    (t_chan t) (t_exitRequest t).
Definition set_t_state (x : threadstate) (t : kthread) : kthread :=
  Kthread (t_kstack t) (t_ustack t) x (t_tid t) (t_tproc t) (t_tf t) (t_context t)
    (t_chan t) (t_exitRequest t).
Definition set_t_tid (x : Z) (t : kthread) : kthread :=
  Kthread (t_kstack t) (t_ustack t) (t_state t) x (t_tproc t) (t_tf t) (t_context t)
    (t_chan t) (t_exitRequest t).
Definition set_t_tproc (x : option nat) (t : kthread) : kthread :=
  Kthread (t_kstack t) (t_ustack t) (t_state t) (t_tid t) x (t_tf t) (t_context t)
    (t_chan t) (t_exitRequest t).
Definition set_t_tf (x : Z) (t : kthread) : kthread :=
  Kthread (t_kstack t) (t_ustack t) (t_state t) (t_tid t) (t_tproc t) x (t_context t)
    (t_chan t) (t_exitRequest t).
Definition set_t_context (x : Z) (t : kthread) : kthread :=
  Kthread (t_kstack t) (t_ustack t) (t_state t) (t_tid t) (t_tproc t) (t_tf t) x
    (t_chan t) (t_exitRequest t).
Definition set_t_chan (x : option chan) (t : kthread) : kthread :=
  Kthread (t_kstack t) (t_ustack t) (t_state t) (t_tid t) (t_tproc t) (t_tf t)
    (t_context t) x (t_exitRequest t).
Definition set_t_exitRequest (x : Z) (t : kthread) : kthread :=
  Kthread (t_kstack t) (t_ustack t) (t_state t) (t_tid t) (t_tproc t) (t_tf t)
    (t_context t) (t_chan t) x.

Definition set_m_id (x : Z) (r : kmutex) : kmutex :=
  Kmutex x (m_locked r) (m_tid r) (m_used r) (m_waiting r).
Definition set_m_locked (x : Z) (r : kmutex) : kmutex :=
  Kmutex (m_id r) x (m_tid r) (m_used r) (m_waiting r).
Definition set_m_tid (x : Z) (r : kmutex) : kmutex :=
  Kmutex (m_id r) (m_locked r) x (m_used r) (m_waiting r).
Definition set_m_used (x : Z) (r : kmutex) : kmutex :=
  Kmutex (m_id r) (m_locked r) (m_tid r) x (m_waiting r).
Definition set_m_waiting (x : Z) (r : kmutex) : kmutex :=
  Kmutex (m_id r) (m_locked r) (m_tid r) (m_used r) x.

Definition set_km_use_lock (x : Z) (r : kmem_t) : kmem_t :=
  Kmem x (km_freelist r).
Definition set_km_freelist (x : Z) (r : kmem_t) : kmem_t :=
  Kmem (km_use_lock r) x.

Definition set_pi_data (x : list Z) (r : pipe) : pipe :=
  Pipe x (pi_nread r) (pi_nwrite r) (pi_readopen r) (pi_writeopen r).
Definition set_pi_nread (x : Z) (r : pipe) : pipe :=
  Pipe (pi_data r) x (pi_nwrite r) (pi_readopen r) (pi_writeopen r).
Definition set_pi_nwrite (x : Z) (r : pipe) : pipe :=
  Pipe (pi_data r) (pi_nread r) x (pi_readopen r) (pi_writeopen r).
Definition set_pi_readopen (x : Z) (r : pipe) : pipe :=
  Pipe (pi_data r) (pi_nread r) (pi_nwrite r) x (pi_writeopen r).
Definition set_pi_writeopen (x : Z) (r : pipe) : pipe :=
  Pipe (pi_data r) (pi_nread r) (pi_nwrite r) (pi_readopen r) x.

Definition set_f_type (x : filetype) (r : file) : file :=
  File x (f_ref r) (f_readable r) (f_writable r) (f_pipe r) (f_ip r) (f_off r).
Definition set_f_ref (x : Z) (r : file) : file :=
  File (f_type r) x (f_readable r) (f_writable r) (f_pipe r) (f_ip r) (f_off r).
Definition set_f_readable (x : Z) (r : file) : file :=
  File (f_type r) (f_ref r) x (f_writable r) (f_pipe r) (f_ip r) (f_off r).
Definition set_f_writable (x : Z) (r : file) : file :=
  File (f_type r) (f_ref r) (f_readable r) x (f_pipe r) (f_ip r) (f_off r).
Definition set_f_pipe (x : Z) (r : file) : file :=
  File (f_type r) (f_ref r) (f_readable r) (f_writable r) x (f_ip r) (f_off r).
Definition set_f_ip (x : option nat) (r : file) : file :=
  File (f_type r) (f_ref r) (f_readable r) (f_writable r) (f_pipe r) x (f_off r).
Definition set_f_off (x : Z) (r : file) : file :=
  File (f_type r) (f_ref r) (f_readable r) (f_writable r) (f_pipe r) (f_ip r) x.

Definition set_sl_locked (x : Z) (r : sleeplock) : sleeplock :=
  Sleeplock x (sl_pid r).
Definition set_sl_pid (x : Z) (r : sleeplock) : sleeplock :=
  Sleeplock (sl_locked r) x.

Definition set_i_dev (x : Z) (r : inode) : inode :=
  Inode x (i_inum r) (i_ref r) (i_lock r) (i_valid r) (i_type r) (i_major r) (i_minor r)
    (i_nlink r) (i_size r) (i_addrs r).
Definition set_i_inum (x : Z) (r : inode) : inode :=
  Inode (i_dev r) x (i_ref r) (i_lock r) (i_valid r) (i_type r) (i_major r) (i_minor r)
    (i_nlink r) (i_size r) (i_addrs r).
Definition set_i_ref (x : Z) (r : inode) : inode :=
  Inode (i_dev r) (i_inum r) x (i_lock r) (i_valid r) (i_type r) (i_major r) (i_minor r)
    (i_nlink r) (i_size r) (i_addrs r).
Definition set_i_lock (x : sleeplock) (r : inode) : inode :=
  Inode (i_dev r) (i_inum r) (i_ref r) x (i_valid r) (i_type r) (i_major r) (i_minor r)
    (i_nlink r) (i_size r) (i_addrs r).
Definition set_i_valid (x : Z) (r : inode) : inode :=
  Inode (i_dev r) (i_inum r) (i_ref r) (i_lock r) x (i_type r) (i_major r) (i_minor r)
    (i_nlink r) (i_size r) (i_addrs r).
Definition set_i_type (x : Z) (r : inode) : inode :=
  Inode (i_dev r) (i_inum r) (i_ref r) (i_lock r) (i_valid r) x (i_major r) (i_minor r)
    (i_nlink r) (i_size r) (i_addrs r).
Definition set_i_major (x : Z) (r : inode) : inode :=
  Inode (i_dev r) (i_inum r) (i_ref r) (i_lock r) (i_valid r) (i_type r) x (i_minor r)
    (i_nlink r) (i_size r) (i_addrs r).
Definition set_i_minor (x : Z) (r : inode) : inode :=
  Inode (i_dev r) (i_inum r) (i_ref r) (i_lock r) (i_valid r) (i_type r) (i_major r) x
    (i_nlink r) (i_size r) (i_addrs r).
Definition set_i_nlink (x : Z) (r : inode) : inode :=
  Inode (i_dev r) (i_inum r) (i_ref r) (i_lock r) (i_valid r) (i_type r) (i_major r)
    (i_minor r) x (i_size r) (i_addrs r).
Definition set_i_size (x : Z) (r : inode) : inode :=
  Inode (i_dev r) (i_inum r) (i_ref r) (i_lock r) (i_valid r) (i_type r) (i_major r)
    (i_minor r) (i_nlink r) x (i_addrs r).
Definition set_i_addrs (x : list Z) (r : inode) : inode :=
  Inode (i_dev r) (i_inum r) (i_ref r) (i_lock r) (i_valid r) (i_type r) (i_major r)
    (i_minor r) (i_nlink r) (i_size r) x.

Definition set_b_flags (x : Z) (r : buf) : buf :=
  Buf x (b_dev r) (b_blockno r) (b_lock r) (b_refcnt r) (b_data r).
Definition set_b_dev (x : Z) (r : buf) : buf :=
  Buf (b_flags r) x (b_blockno r) (b_lock r) (b_refcnt r) (b_data r).
Definition set_b_blockno (x : Z) (r : buf) : buf :=
  Buf (b_flags r) (b_dev r) x (b_lock r) (b_refcnt r) (b_data r).
Definition set_b_lock (x : sleeplock) (r : buf) : buf :=
  Buf (b_flags r) (b_dev r) (b_blockno r) x (b_refcnt r) (b_data r).
Definition set_b_refcnt (x : Z) (r : buf) : buf :=
  Buf (b_flags r) (b_dev r) (b_blockno r) (b_lock r) x (b_data r).
Definition set_b_data (x : list Z) (r : buf) : buf :=
  Buf (b_flags r) (b_dev r) (b_blockno r) (b_lock r) (b_refcnt r) x.

Definition set_lg_start (x : Z) (r : log_t) : log_t :=
  Log x (lg_size r) (lg_outstanding r) (lg_committing r) (lg_dev r) (lg_n r) (lg_block r).
Definition set_lg_size (x : Z) (r : log_t) : log_t :=
  Log (lg_start r) x (lg_outstanding r) (lg_committing r) (lg_dev r) (lg_n r)
    (lg_block r).
Definition set_lg_outstanding (x : Z) (r : log_t) : log_t :=
  Log (lg_start r) (lg_size r) x (lg_committing r) (lg_dev r) (lg_n r) (lg_block r).
Definition set_lg_committing (x : Z) (r : log_t) : log_t :=
  Log (lg_start r) (lg_size r) (lg_outstanding r) x (lg_dev r) (lg_n r) (lg_block r).
Definition set_lg_dev (x : Z) (r : log_t) : log_t :=
  Log (lg_start r) (lg_size r) (lg_outstanding r) (lg_committing r) x (lg_n r)
    (lg_block r).
Definition set_lg_n (x : Z) (r : log_t) : log_t :=
  Log (lg_start r) (lg_size r) (lg_outstanding r) (lg_committing r) (lg_dev r) x
    (lg_block r).
Definition set_lg_block (x : list Z) (r : log_t) : log_t :=
  Log (lg_start r) (lg_size r) (lg_outstanding r) (lg_committing r) (lg_dev r) (lg_n r) x.

Definition set_in_buf (x : list Z) (r : input_t) : input_t :=
  Input x (in_r r) (in_w r) (in_e r).
Definition set_in_r (x : Z) (r : input_t) : input_t :=
  Input (in_buf r) x (in_w r) (in_e r).
Definition set_in_w (x : Z) (r : input_t) : input_t :=
  Input (in_buf r) (in_r r) x (in_e r).
Definition set_in_e (x : Z) (r : input_t) : input_t :=
  Input (in_buf r) (in_r r) (in_w r) x.

Definition set_k_lk (x : lkstate) (k : kernel) : kernel :=
  Kernel x (k_proc k) (k_thread k) (k_cr3 k) (k_esp0 k) (k_procs k) (k_ttable k) (k_nextpid k)
    (k_nexttid k) (k_initproc k) (k_first k) (k_mutexes k) (k_mutex_past k) (k_mem k) (k_kmem k)
    (k_end k) (k_data k) (k_kpgdir k) (k_pipes k) (k_ftable k) (k_icache k) (k_sb k) (k_bufs k)
    (k_lru k) (k_log k) (k_disk k) (k_ticks k) (k_input k) (k_power k) (k_idequeue k)
    (k_havedisk1 k) (k_devsw k) (k_cons_locking k) (k_output k) (k_io k)
    (k_uart k) (k_crt k).
Definition set_k_proc (x : option nat) (k : kernel) : kernel :=
  Kernel (k_lk k) x (k_thread k) (k_cr3 k) (k_esp0 k) (k_procs k) (k_ttable k) (k_nextpid k)
    (k_nexttid k) (k_initproc k) (k_first k) (k_mutexes k) (k_mutex_past k) (k_mem k) (k_kmem k)
    (k_end k) (k_data k) (k_kpgdir k) (k_pipes k) (k_ftable k) (k_icache k) (k_sb k) (k_bufs k)
    (k_lru k) (k_log k) (k_disk k) (k_ticks k) (k_input k) (k_power k) (k_idequeue k)
    (k_havedisk1 k) (k_devsw k) (k_cons_locking k) (k_output k) (k_io k)
    (k_uart k) (k_crt k).
Definition set_k_thread (x : option tslot) (k : kernel) : kernel :=
  Kernel (k_lk k) (k_proc k) x (k_cr3 k) (k_esp0 k) (k_procs k) (k_ttable k) (k_nextpid k)
    (k_nexttid k) (k_initproc k) (k_first k) (k_mutexes k) (k_mutex_past k) (k_mem k) (k_kmem k)
    (k_end k) (k_data k) (k_kpgdir k) (k_pipes k) (k_ftable k) (k_icache k) (k_sb k) (k_bufs k)
    (k_lru k) (k_log k) (k_disk k) (k_ticks k) (k_input k) (k_power k) (k_idequeue k)
    (k_havedisk1 k) (k_devsw k) (k_cons_locking k) (k_output k) (k_io k)
    (k_uart k) (k_crt k).
Definition set_k_cr3 (x : Z) (k : kernel) : kernel :=
  Kernel (k_lk k) (k_proc k) (k_thread k) x (k_esp0 k) (k_procs k) (k_ttable k) (k_nextpid k)
    (k_nexttid k) (k_initproc k) (k_first k) (k_mutexes k) (k_mutex_past k) (k_mem k) (k_kmem k)
    (k_end k) (k_data k) (k_kpgdir k) (k_pipes k) (k_ftable k) (k_icache k) (k_sb k) (k_bufs k)
    (k_lru k) (k_log k) (k_disk k) (k_ticks k) (k_input k) (k_power k) (k_idequeue k)
    (k_havedisk1 k) (k_devsw k) (k_cons_locking k) (k_output k) (k_io k)
    (k_uart k) (k_crt k).
Definition set_k_esp0 (x : Z) (k : kernel) : kernel :=
  Kernel (k_lk k) (k_proc k) (k_thread k) (k_cr3 k) x (k_procs k) (k_ttable k) (k_nextpid k)
    (k_nexttid k) (k_initproc k) (k_first k) (k_mutexes k) (k_mutex_past k) (k_mem k) (k_kmem k)
    (k_end k) (k_data k) (k_kpgdir k) (k_pipes k) (k_ftable k) (k_icache k) (k_sb k) (k_bufs k)
    (k_lru k) (k_log k) (k_disk k) (k_ticks k) (k_input k) (k_power k) (k_idequeue k)
    (k_havedisk1 k) (k_devsw k) (k_cons_locking k) (k_output k) (k_io k)
    (k_uart k) (k_crt k).
Definition set_k_procs (x : list proc) (k : kernel) : kernel :=
  Kernel (k_lk k) (k_proc k) (k_thread k) (k_cr3 k) (k_esp0 k) x (k_ttable k) (k_nextpid k)
    (k_nexttid k) (k_initproc k) (k_first k) (k_mutexes k) (k_mutex_past k) (k_mem k) (k_kmem k)
    (k_end k) (k_data k) (k_kpgdir k) (k_pipes k) (k_ftable k) (k_icache k) (k_sb k) (k_bufs k)
    (k_lru k) (k_log k) (k_disk k) (k_ticks k) (k_input k) (k_power k) (k_idequeue k)
    (k_havedisk1 k) (k_devsw k) (k_cons_locking k) (k_output k) (k_io k)
    (k_uart k) (k_crt k).
Definition set_k_ttable (x : list (list kthread)) (k : kernel) : kernel :=
  Kernel (k_lk k) (k_proc k) (k_thread k) (k_cr3 k) (k_esp0 k) (k_procs k) x (k_nextpid k)
    (k_nexttid k) (k_initproc k) (k_first k) (k_mutexes k) (k_mutex_past k) (k_mem k) (k_kmem k)
    (k_end k) (k_data k) (k_kpgdir k) (k_pipes k) (k_ftable k) (k_icache k) (k_sb k) (k_bufs k)
    (k_lru k) (k_log k) (k_disk k) (k_ticks k) (k_input k) (k_power k) (k_idequeue k)
    (k_havedisk1 k) (k_devsw k) (k_cons_locking k) (k_output k) (k_io k)
    (k_uart k) (k_crt k).
Definition set_k_nextpid (x : Z) (k : kernel) : kernel :=
  Kernel (k_lk k) (k_proc k) (k_thread k) (k_cr3 k) (k_esp0 k) (k_procs k) (k_ttable k) x
    (k_nexttid k) (k_initproc k) (k_first k) (k_mutexes k) (k_mutex_past k) (k_mem k) (k_kmem k)
    (k_end k) (k_data k) (k_kpgdir k) (k_pipes k) (k_ftable k) (k_icache k) (k_sb k) (k_bufs k)
    (k_lru k) (k_log k) (k_disk k) (k_ticks k) (k_input k) (k_power k) (k_idequeue k)
    (k_havedisk1 k) (k_devsw k) (k_cons_locking k) (k_output k) (k_io k)
    (k_uart k) (k_crt k).
Definition set_k_nexttid (x : Z) (k : kernel) : kernel :=
  Kernel (k_lk k) (k_proc k) (k_thread k) (k_cr3 k) (k_esp0 k) (k_procs k) (k_ttable k)
    (k_nextpid k) x (k_initproc k) (k_first k) (k_mutexes k) (k_mutex_past k) (k_mem k) (k_kmem k)
    (k_end k) (k_data k) (k_kpgdir k) (k_pipes k) (k_ftable k) (k_icache k) (k_sb k) (k_bufs k)
    (k_lru k) (k_log k) (k_disk k) (k_ticks k) (k_input k) (k_power k) (k_idequeue k)
    (k_havedisk1 k) (k_devsw k) (k_cons_locking k) (k_output k) (k_io k)
    (k_uart k) (k_crt k).
Definition set_k_initproc (x : option nat) (k : kernel) : kernel :=
  Kernel (k_lk k) (k_proc k) (k_thread k) (k_cr3 k) (k_esp0 k) (k_procs k) (k_ttable k)
    (k_nextpid k) (k_nexttid k) x (k_first k) (k_mutexes k) (k_mutex_past k) (k_mem k) (k_kmem k)
    (k_end k) (k_data k) (k_kpgdir k) (k_pipes k) (k_ftable k) (k_icache k) (k_sb k) (k_bufs k)
    (k_lru k) (k_log k) (k_disk k) (k_ticks k) (k_input k) (k_power k) (k_idequeue k)
    (k_havedisk1 k) (k_devsw k) (k_cons_locking k) (k_output k) (k_io k)
    (k_uart k) (k_crt k).
Definition set_k_first (x : Z) (k : kernel) : kernel :=
  Kernel (k_lk k) (k_proc k) (k_thread k) (k_cr3 k) (k_esp0 k) (k_procs k) (k_ttable k)
    (k_nextpid k) (k_nexttid k) (k_initproc k) x (k_mutexes k) (k_mutex_past k) (k_mem k)
    (k_kmem k) (k_end k) (k_data k) (k_kpgdir k) (k_pipes k) (k_ftable k) (k_icache k) (k_sb k)
    (k_bufs k) (k_lru k) (k_log k) (k_disk k) (k_ticks k) (k_input k) (k_power k) (k_idequeue k)
    (k_havedisk1 k) (k_devsw k) (k_cons_locking k) (k_output k) (k_io k)
    (k_uart k) (k_crt k).
Definition set_k_mutexes (x : list kmutex) (k : kernel) : kernel :=
  Kernel (k_lk k) (k_proc k) (k_thread k) (k_cr3 k) (k_esp0 k) (k_procs k) (k_ttable k)
    (k_nextpid k) (k_nexttid k) (k_initproc k) (k_first k) x (k_mutex_past k) (k_mem k) (k_kmem k)
    (k_end k) (k_data k) (k_kpgdir k) (k_pipes k) (k_ftable k) (k_icache k) (k_sb k) (k_bufs k)
    (k_lru k) (k_log k) (k_disk k) (k_ticks k) (k_input k) (k_power k) (k_idequeue k)
    (k_havedisk1 k) (k_devsw k) (k_cons_locking k) (k_output k) (k_io k)
    (k_uart k) (k_crt k).
Definition set_k_mutex_past (x : Z) (k : kernel) : kernel :=
  Kernel (k_lk k) (k_proc k) (k_thread k) (k_cr3 k) (k_esp0 k) (k_procs k) (k_ttable k)
    (k_nextpid k) (k_nexttid k) (k_initproc k) (k_first k) (k_mutexes k) x (k_mem k) (k_kmem k)
    (k_end k) (k_data k) (k_kpgdir k) (k_pipes k) (k_ftable k) (k_icache k) (k_sb k) (k_bufs k)
    (k_lru k) (k_log k) (k_disk k) (k_ticks k) (k_input k) (k_power k) (k_idequeue k)
    (k_havedisk1 k) (k_devsw k) (k_cons_locking k) (k_output k) (k_io k)
    (k_uart k) (k_crt k).
Definition set_k_mem (x : memory) (k : kernel) : kernel :=
  Kernel (k_lk k) (k_proc k) (k_thread k) (k_cr3 k) (k_esp0 k) (k_procs k) (k_ttable k)
    (k_nextpid k) (k_nexttid k) (k_initproc k) (k_first k) (k_mutexes k) (k_mutex_past k) x
    (k_kmem k) (k_end k) (k_data k) (k_kpgdir k) (k_pipes k) (k_ftable k) (k_icache k) (k_sb k)
    (k_bufs k) (k_lru k) (k_log k) (k_disk k) (k_ticks k) (k_input k) (k_power k) (k_idequeue k)
    (k_havedisk1 k) (k_devsw k) (k_cons_locking k) (k_output k) (k_io k)
    (k_uart k) (k_crt k).
Definition set_k_kmem (x : kmem_t) (k : kernel) : kernel :=
  Kernel (k_lk k) (k_proc k) (k_thread k) (k_cr3 k) (k_esp0 k) (k_procs k) (k_ttable k)
    (k_nextpid k) (k_nexttid k) (k_initproc k) (k_first k) (k_mutexes k) (k_mutex_past k)
    (k_mem k) x (k_end k) (k_data k) (k_kpgdir k) (k_pipes k) (k_ftable k) (k_icache k) (k_sb k)
    (k_bufs k) (k_lru k) (k_log k) (k_disk k) (k_ticks k) (k_input k) (k_power k) (k_idequeue k)
    (k_havedisk1 k) (k_devsw k) (k_cons_locking k) (k_output k) (k_io k)
    (k_uart k) (k_crt k).
Definition set_k_end (x : Z) (k : kernel) : kernel :=
  Kernel (k_lk k) (k_proc k) (k_thread k) (k_cr3 k) (k_esp0 k) (k_procs k) (k_ttable k)
    (k_nextpid k) (k_nexttid k) (k_initproc k) (k_first k) (k_mutexes k) (k_mutex_past k)
    (k_mem k) (k_kmem k) x (k_data k) (k_kpgdir k) (k_pipes k) (k_ftable k) (k_icache k) (k_sb k)
    (k_bufs k) (k_lru k) (k_log k) (k_disk k) (k_ticks k) (k_input k) (k_power k) (k_idequeue k)
    (k_havedisk1 k) (k_devsw k) (k_cons_locking k) (k_output k) (k_io k)
    (k_uart k) (k_crt k).
Definition set_k_data (x : Z) (k : kernel) : kernel :=
  Kernel (k_lk k) (k_proc k) (k_thread k) (k_cr3 k) (k_esp0 k) (k_procs k) (k_ttable k)
    (k_nextpid k) (k_nexttid k) (k_initproc k) (k_first k) (k_mutexes k) (k_mutex_past k)
    (k_mem k) (k_kmem k) (k_end k) x (k_kpgdir k) (k_pipes k) (k_ftable k) (k_icache k) (k_sb k)
    (k_bufs k) (k_lru k) (k_log k) (k_disk k) (k_ticks k) (k_input k) (k_power k) (k_idequeue k)
    (k_havedisk1 k) (k_devsw k) (k_cons_locking k) (k_output k) (k_io k)
    (k_uart k) (k_crt k).
Definition set_k_kpgdir (x : Z) (k : kernel) : kernel :=
  Kernel (k_lk k) (k_proc k) (k_thread k) (k_cr3 k) (k_esp0 k) (k_procs k) (k_ttable k)
    (k_nextpid k) (k_nexttid k) (k_initproc k) (k_first k) (k_mutexes k) (k_mutex_past k)
    (k_mem k) (k_kmem k) (k_end k) (k_data k) x (k_pipes k) (k_ftable k) (k_icache k) (k_sb k)
    (k_bufs k) (k_lru k) (k_log k) (k_disk k) (k_ticks k) (k_input k) (k_power k) (k_idequeue k)
    (k_havedisk1 k) (k_devsw k) (k_cons_locking k) (k_output k) (k_io k)
    (k_uart k) (k_crt k).
Definition set_k_pipes (x : gmap Z pipe) (k : kernel) : kernel :=
  Kernel (k_lk k) (k_proc k) (k_thread k) (k_cr3 k) (k_esp0 k) (k_procs k) (k_ttable k)
    (k_nextpid k) (k_nexttid k) (k_initproc k) (k_first k) (k_mutexes k) (k_mutex_past k)
    (k_mem k) (k_kmem k) (k_end k) (k_data k) (k_kpgdir k) x (k_ftable k) (k_icache k) (k_sb k)
    (k_bufs k) (k_lru k) (k_log k) (k_disk k) (k_ticks k) (k_input k) (k_power k) (k_idequeue k)
    (k_havedisk1 k) (k_devsw k) (k_cons_locking k) (k_output k) (k_io k)
    (k_uart k) (k_crt k).
Definition set_k_ftable (x : list file) (k : kernel) : kernel :=
  Kernel (k_lk k) (k_proc k) (k_thread k) (k_cr3 k) (k_esp0 k) (k_procs k) (k_ttable k)
    (k_nextpid k) (k_nexttid k) (k_initproc k) (k_first k) (k_mutexes k) (k_mutex_past k)
    (k_mem k) (k_kmem k) (k_end k) (k_data k) (k_kpgdir k) (k_pipes k) x (k_icache k) (k_sb k)
    (k_bufs k) (k_lru k) (k_log k) (k_disk k) (k_ticks k) (k_input k) (k_power k) (k_idequeue k)
    (k_havedisk1 k) (k_devsw k) (k_cons_locking k) (k_output k) (k_io k)
    (k_uart k) (k_crt k).
Definition set_k_icache (x : list inode) (k : kernel) : kernel :=
  Kernel (k_lk k) (k_proc k) (k_thread k) (k_cr3 k) (k_esp0 k) (k_procs k) (k_ttable k)
    (k_nextpid k) (k_nexttid k) (k_initproc k) (k_first k) (k_mutexes k) (k_mutex_past k)
    (k_mem k) (k_kmem k) (k_end k) (k_data k) (k_kpgdir k) (k_pipes k) (k_ftable k) x (k_sb k)
    (k_bufs k) (k_lru k) (k_log k) (k_disk k) (k_ticks k) (k_input k) (k_power k) (k_idequeue k)
    (k_havedisk1 k) (k_devsw k) (k_cons_locking k) (k_output k) (k_io k)
    (k_uart k) (k_crt k).
Definition set_k_sb (x : superblock) (k : kernel) : kernel :=
  Kernel (k_lk k) (k_proc k) (k_thread k) (k_cr3 k) (k_esp0 k) (k_procs k) (k_ttable k)
    (k_nextpid k) (k_nexttid k) (k_initproc k) (k_first k) (k_mutexes k) (k_mutex_past k)
    (k_mem k) (k_kmem k) (k_end k) (k_data k) (k_kpgdir k) (k_pipes k) (k_ftable k) (k_icache k) x
    (k_bufs k) (k_lru k) (k_log k) (k_disk k) (k_ticks k) (k_input k) (k_power k) (k_idequeue k)
    (k_havedisk1 k) (k_devsw k) (k_cons_locking k) (k_output k) (k_io k)
    (k_uart k) (k_crt k).
Definition set_k_bufs (x : list buf) (k : kernel) : kernel :=
  Kernel (k_lk k) (k_proc k) (k_thread k) (k_cr3 k) (k_esp0 k) (k_procs k) (k_ttable k)
    (k_nextpid k) (k_nexttid k) (k_initproc k) (k_first k) (k_mutexes k) (k_mutex_past k)
    (k_mem k) (k_kmem k) (k_end k) (k_data k) (k_kpgdir k) (k_pipes k) (k_ftable k) (k_icache k)
    (k_sb k) x (k_lru k) (k_log k) (k_disk k) (k_ticks k) (k_input k) (k_power k) (k_idequeue k)
    (k_havedisk1 k) (k_devsw k) (k_cons_locking k) (k_output k) (k_io k)
    (k_uart k) (k_crt k).
Definition set_k_lru (x : list nat) (k : kernel) : kernel :=
  Kernel (k_lk k) (k_proc k) (k_thread k) (k_cr3 k) (k_esp0 k) (k_procs k) (k_ttable k)
    (k_nextpid k) (k_nexttid k) (k_initproc k) (k_first k) (k_mutexes k) (k_mutex_past k)
    (k_mem k) (k_kmem k) (k_end k) (k_data k) (k_kpgdir k) (k_pipes k) (k_ftable k) (k_icache k)
    (k_sb k) (k_bufs k) x (k_log k) (k_disk k) (k_ticks k) (k_input k) (k_power k) (k_idequeue k)
    (k_havedisk1 k) (k_devsw k) (k_cons_locking k) (k_output k) (k_io k)
    (k_uart k) (k_crt k).
Definition set_k_log (x : log_t) (k : kernel) : kernel :=
  Kernel (k_lk k) (k_proc k) (k_thread k) (k_cr3 k) (k_esp0 k) (k_procs k) (k_ttable k)
    (k_nextpid k) (k_nexttid k) (k_initproc k) (k_first k) (k_mutexes k) (k_mutex_past k)
    (k_mem k) (k_kmem k) (k_end k) (k_data k) (k_kpgdir k) (k_pipes k) (k_ftable k) (k_icache k)
    (k_sb k) (k_bufs k) (k_lru k) x (k_disk k) (k_ticks k) (k_input k) (k_power k) (k_idequeue k)
    (k_havedisk1 k) (k_devsw k) (k_cons_locking k) (k_output k) (k_io k)
    (k_uart k) (k_crt k).
Definition set_k_disk (x : list (list Z)) (k : kernel) : kernel :=
  Kernel (k_lk k) (k_proc k) (k_thread k) (k_cr3 k) (k_esp0 k) (k_procs k) (k_ttable k)
    (k_nextpid k) (k_nexttid k) (k_initproc k) (k_first k) (k_mutexes k) (k_mutex_past k)
    (k_mem k) (k_kmem k) (k_end k) (k_data k) (k_kpgdir k) (k_pipes k) (k_ftable k) (k_icache k)
    (k_sb k) (k_bufs k) (k_lru k) (k_log k) x (k_ticks k) (k_input k) (k_power k) (k_idequeue k)
    (k_havedisk1 k) (k_devsw k) (k_cons_locking k) (k_output k) (k_io k)
    (k_uart k) (k_crt k).
Definition set_k_ticks (x : Z) (k : kernel) : kernel :=
  Kernel (k_lk k) (k_proc k) (k_thread k) (k_cr3 k) (k_esp0 k) (k_procs k) (k_ttable k)
    (k_nextpid k) (k_nexttid k) (k_initproc k) (k_first k) (k_mutexes k) (k_mutex_past k)
    (k_mem k) (k_kmem k) (k_end k) (k_data k) (k_kpgdir k) (k_pipes k) (k_ftable k) (k_icache k)
    (k_sb k) (k_bufs k) (k_lru k) (k_log k) (k_disk k) x (k_input k) (k_power k) (k_idequeue k)
    (k_havedisk1 k) (k_devsw k) (k_cons_locking k) (k_output k) (k_io k)
    (k_uart k) (k_crt k).
Definition set_k_input (x : input_t) (k : kernel) : kernel :=
  Kernel (k_lk k) (k_proc k) (k_thread k) (k_cr3 k) (k_esp0 k) (k_procs k) (k_ttable k)
    (k_nextpid k) (k_nexttid k) (k_initproc k) (k_first k) (k_mutexes k) (k_mutex_past k)
    (k_mem k) (k_kmem k) (k_end k) (k_data k) (k_kpgdir k) (k_pipes k) (k_ftable k) (k_icache k)
    (k_sb k) (k_bufs k) (k_lru k) (k_log k) (k_disk k) (k_ticks k) x (k_power k) (k_idequeue k)
    (k_havedisk1 k) (k_devsw k) (k_cons_locking k) (k_output k) (k_io k)
    (k_uart k) (k_crt k).
Definition set_k_power (x : option nat) (k : kernel) : kernel :=
  Kernel (k_lk k) (k_proc k) (k_thread k) (k_cr3 k) (k_esp0 k) (k_procs k) (k_ttable k)
    (k_nextpid k) (k_nexttid k) (k_initproc k) (k_first k) (k_mutexes k) (k_mutex_past k)
    (k_mem k) (k_kmem k) (k_end k) (k_data k) (k_kpgdir k) (k_pipes k) (k_ftable k) (k_icache k)
    (k_sb k) (k_bufs k) (k_lru k) (k_log k) (k_disk k) (k_ticks k) (k_input k) x (k_idequeue k)
    (k_havedisk1 k) (k_devsw k) (k_cons_locking k) (k_output k) (k_io k)
    (k_uart k) (k_crt k).
Definition set_k_idequeue (x : list nat) (k : kernel) : kernel :=
  Kernel (k_lk k) (k_proc k) (k_thread k) (k_cr3 k) (k_esp0 k) (k_procs k) (k_ttable k)
    (k_nextpid k) (k_nexttid k) (k_initproc k) (k_first k) (k_mutexes k) (k_mutex_past k)
    (k_mem k) (k_kmem k) (k_end k) (k_data k) (k_kpgdir k) (k_pipes k) (k_ftable k) (k_icache k)
    (k_sb k) (k_bufs k) (k_lru k) (k_log k) (k_disk k) (k_ticks k) (k_input k) (k_power k) x
    (k_havedisk1 k) (k_devsw k) (k_cons_locking k) (k_output k) (k_io k)
    (k_uart k) (k_crt k).
Definition set_k_havedisk1 (x : Z) (k : kernel) : kernel :=
  Kernel (k_lk k) (k_proc k) (k_thread k) (k_cr3 k) (k_esp0 k) (k_procs k) (k_ttable k)
    (k_nextpid k) (k_nexttid k) (k_initproc k) (k_first k) (k_mutexes k) (k_mutex_past k)
    (k_mem k) (k_kmem k) (k_end k) (k_data k) (k_kpgdir k) (k_pipes k) (k_ftable k) (k_icache k)
    (k_sb k) (k_bufs k) (k_lru k) (k_log k) (k_disk k) (k_ticks k) (k_input k) (k_power k)
    (k_idequeue k) x (k_devsw k) (k_cons_locking k) (k_output k) (k_io k)
    (k_uart k) (k_crt k).
Definition set_k_devsw (x : list bool) (k : kernel) : kernel :=
  Kernel (k_lk k) (k_proc k) (k_thread k) (k_cr3 k) (k_esp0 k) (k_procs k) (k_ttable k)
    (k_nextpid k) (k_nexttid k) (k_initproc k) (k_first k) (k_mutexes k) (k_mutex_past k)
    (k_mem k) (k_kmem k) (k_end k) (k_data k) (k_kpgdir k) (k_pipes k) (k_ftable k) (k_icache k)
    (k_sb k) (k_bufs k) (k_lru k) (k_log k) (k_disk k) (k_ticks k) (k_input k) (k_power k)
    (k_idequeue k) (k_havedisk1 k) x (k_cons_locking k) (k_output k) (k_io k)
    (k_uart k) (k_crt k).
Definition set_k_cons_locking (x : Z) (k : kernel) : kernel :=
  Kernel (k_lk k) (k_proc k) (k_thread k) (k_cr3 k) (k_esp0 k) (k_procs k) (k_ttable k)
    (k_nextpid k) (k_nexttid k) (k_initproc k) (k_first k) (k_mutexes k) (k_mutex_past k)
    (k_mem k) (k_kmem k) (k_end k) (k_data k) (k_kpgdir k) (k_pipes k) (k_ftable k) (k_icache k)
    (k_sb k) (k_bufs k) (k_lru k) (k_log k) (k_disk k) (k_ticks k) (k_input k) (k_power k)
    (k_idequeue k) (k_havedisk1 k) (k_devsw k) x (k_output k) (k_io k)
    (k_uart k) (k_crt k).
Definition set_k_output (x : list Z) (k : kernel) : kernel :=
  Kernel (k_lk k) (k_proc k) (k_thread k) (k_cr3 k) (k_esp0 k) (k_procs k) (k_ttable k)
    (k_nextpid k) (k_nexttid k) (k_initproc k) (k_first k) (k_mutexes k) (k_mutex_past k)
    (k_mem k) (k_kmem k) (k_end k) (k_data k) (k_kpgdir k) (k_pipes k) (k_ftable k) (k_icache k)
    (k_sb k) (k_bufs k) (k_lru k) (k_log k) (k_disk k) (k_ticks k) (k_input k) (k_power k)
    (k_idequeue k) (k_havedisk1 k) (k_devsw k) (k_cons_locking k) x (k_io k)
    (k_uart k) (k_crt k).
Definition set_k_io (x : ports) (k : kernel) : kernel :=
  Kernel (k_lk k) (k_proc k) (k_thread k) (k_cr3 k) (k_esp0 k) (k_procs k) (k_ttable k)
    (k_nextpid k) (k_nexttid k) (k_initproc k) (k_first k) (k_mutexes k) (k_mutex_past k)
    (k_mem k) (k_kmem k) (k_end k) (k_data k) (k_kpgdir k) (k_pipes k) (k_ftable k) (k_icache k)
    (k_sb k) (k_bufs k) (k_lru k) (k_log k) (k_disk k) (k_ticks k) (k_input k) (k_power k)
    (k_idequeue k) (k_havedisk1 k) (k_devsw k) (k_cons_locking k) (k_output k) x
    (k_uart k) (k_crt k).
Definition set_k_uart (x : Z) (k : kernel) : kernel :=
  Kernel (k_lk k) (k_proc k) (k_thread k) (k_cr3 k) (k_esp0 k) (k_procs k) (k_ttable k)
    (k_nextpid k) (k_nexttid k) (k_initproc k) (k_first k) (k_mutexes k) (k_mutex_past k)
    (k_mem k) (k_kmem k) (k_end k) (k_data k) (k_kpgdir k) (k_pipes k) (k_ftable k) (k_icache k)
    (k_sb k) (k_bufs k) (k_lru k) (k_log k) (k_disk k) (k_ticks k) (k_input k) (k_power k)
    (k_idequeue k) (k_havedisk1 k) (k_devsw k) (k_cons_locking k) (k_output k) (k_io k)
    x (k_crt k).
Definition set_k_crt (x : list Z) (k : kernel) : kernel :=
  Kernel (k_lk k) (k_proc k) (k_thread k) (k_cr3 k) (k_esp0 k) (k_procs k) (k_ttable k)
    (k_nextpid k) (k_nexttid k) (k_initproc k) (k_first k) (k_mutexes k) (k_mutex_past k)
    (k_mem k) (k_kmem k) (k_end k) (k_data k) (k_kpgdir k) (k_pipes k) (k_ftable k) (k_icache k)
    (k_sb k) (k_bufs k) (k_lru k) (k_log k) (k_disk k) (k_ticks k) (k_input k) (k_power k)
    (k_idequeue k) (k_havedisk1 k) (k_devsw k) (k_cons_locking k) (k_output k) (k_io k)
    (k_uart k) x.

#[export] Instance kernel_LockState : LockState kernel.
Proof. by refine {| lks := k_lk; set_lks := set_k_lk |}; intros []. Defined.

(** Computations of the kernel. *)
Abbreviation KM := (M kernel).

(** ** Reads and writes through pointers *)

Definition rd_proc (i : nat) : KM proc :=
  let! k := get in
  match k_procs k !! i with Some p => ret p | None => undef "proc pointer" end.
Definition upd_proc (i : nat) (f : proc → proc) : KM unit :=
  modify (λ k, set_k_procs (alter f i (k_procs k)) k).

Definition thread_at (t : tslot) (k : kernel) : option kthread :=
  k_ttable k !! fst t ≫= (λ ts, ts !! snd t).
Definition alter_thread (f : kthread → kthread) (t : tslot) (k : kernel) : kernel :=
  set_k_ttable (alter (alter f (snd t)) (fst t) (k_ttable k)) k.
Definition rd_thread (t : tslot) : KM kthread :=
  let! k := get in
  match thread_at t k with Some x => ret x | None => undef "thread pointer" end.
Definition upd_thread (t : tslot) (f : kthread → kthread) : KM unit :=
  modify (alter_thread f t).

(** Null pointers. *)
Definition deref {A} (x : option A) : KM A :=
  match x with Some a => ret a | None => undef "null pointer" end.

(** Words and bytes of memory. *)
Definition rd32 (a : Z) : KM Z := gets (λ k, ld32 (k_mem k) a).
Definition wr32 (a v : Z) : KM unit := modify (λ k, set_k_mem (st32 (k_mem k) a v) k).
Definition upd_mem (f : memory → memory) : KM unit := modify (λ k, set_k_mem (f (k_mem k)) k).

(** Reduce field reads of updated records. *)
Ltac kproj :=
  cbn [k_lk k_proc k_thread k_cr3 k_esp0 k_procs k_ttable k_nextpid k_nexttid k_initproc 
       k_first k_mutexes k_mutex_past k_mem k_kmem k_end k_data k_kpgdir k_pipes k_ftable 
       k_icache k_sb k_bufs k_lru k_log k_disk k_ticks k_input k_power k_idequeue k_havedisk1 k_devsw k_cons_locking k_output k_io k_uart k_crt set_k_io set_k_uart set_k_crt
       set_k_power set_k_idequeue set_k_havedisk1 set_k_devsw set_k_cons_locking set_k_output
       set_k_lk set_k_proc 
       set_k_thread set_k_cr3 set_k_esp0 set_k_procs set_k_ttable set_k_nextpid 
       set_k_nexttid set_k_initproc set_k_first set_k_mutexes set_k_mutex_past set_k_mem 
       set_k_kmem set_k_end set_k_data set_k_kpgdir set_k_pipes set_k_ftable set_k_icache 
       set_k_sb set_k_bufs set_k_lru set_k_log set_k_disk set_k_ticks set_k_input p_sz 
       p_pgdir p_state p_pid p_parent p_killed p_ofile p_cwd p_name p_threads t_kstack 
       t_ustack t_state t_tid t_tproc t_tf t_context t_chan t_exitRequest m_id m_locked 
       m_tid m_used m_waiting km_use_lock km_freelist f_type f_ref f_readable f_writable 
       f_pipe f_ip f_off sl_locked sl_pid i_dev i_inum i_ref i_lock i_valid i_type i_major 
       i_minor i_nlink i_size i_addrs b_flags b_dev b_blockno b_lock b_refcnt b_data 
       lg_start lg_size lg_outstanding lg_committing lg_dev lg_n lg_block in_buf in_r in_w 
       in_e set_p_sz set_p_pgdir set_p_state set_p_pid set_p_parent set_p_killed set_p_ofile 
       set_p_cwd set_p_name set_p_threads set_t_kstack set_t_ustack set_t_state set_t_tid 
       set_t_tproc set_t_tf set_t_context set_t_chan set_t_exitRequest set_m_id set_m_locked 
       set_m_tid set_m_used set_m_waiting set_km_use_lock set_km_freelist set_f_type 
       set_f_ref set_f_readable set_f_writable set_f_pipe set_f_ip set_f_off set_sl_locked 
       set_sl_pid set_i_dev set_i_inum set_i_ref set_i_lock set_i_valid set_i_type 
       set_i_major set_i_minor set_i_nlink set_i_size set_i_addrs set_b_flags set_b_dev 
       set_b_blockno set_b_lock set_b_refcnt set_b_data set_lg_start set_lg_size 
       set_lg_outstanding set_lg_committing set_lg_dev set_lg_n set_lg_block set_in_buf 
       set_in_r set_in_w set_in_e].

(** ** Lemmas *)

Lemma thread_at_alter f t t' k :
  thread_at t' (alter_thread f t k) =
    if decide (t = t') then f <$> thread_at t' k else thread_at t' k.
Proof.
  destruct t as [p i], t' as [p' i']. unfold thread_at, alter_thread. simpl.
  rewrite list_lookup_alter. destruct (decide (p = p')) as [->|Hp]; simpl.
  - destruct (k_ttable k !! p') as [ts|]; simpl; [|by case_decide].
    rewrite list_lookup_alter. repeat case_decide; by simplify_eq.
  - rewrite decide_False by congruence. done.
Qed.

(** Successive updates of one thread. *)
Lemma alter_thread_twice f g t k :
  alter_thread f t (alter_thread g t k) = alter_thread (λ x, f (g x)) t k.
Proof.
  unfold alter_thread. cbn [k_ttable set_k_ttable]. unfold set_k_ttable at 1. simpl.
  rewrite (list_alter_absorb _ _ (alter (λ x, f (g x)) (snd t))); [done|].
  intros l. by apply list_alter_absorb.
Qed.

Lemma alter_thread_ext f g t k x :
  thread_at t k = Some x → f x = g x → alter_thread f t k = alter_thread g t k.
Proof.
  intros Hx Hf. unfold alter_thread. f_equal. apply list_alter_ext; [|done]. intros ts Hts.
  apply list_alter_ext; [|done]. intros y Hy. unfold thread_at in Hx. rewrite Hts in Hx.
  simpl in Hx. congruence.
Qed.

Lemma rd_thread_eq t o k x : thread_at t k = Some x → rd_thread t o k = Ok x k o.
Proof. intros H. unfold rd_thread, bind, get. by rewrite H. Qed.

Lemma rd_proc_eq i o k p : k_procs k !! i = Some p → rd_proc i o k = Ok p k o.
Proof. intros H. unfold rd_proc, bind, get. by rewrite H. Qed.

(** Fields and threads under unrelated updates. *)
Lemma k_lk_alter_thread f t k : k_lk (alter_thread f t k) = k_lk k.
Proof. done. Qed.
Lemma k_proc_alter_thread f t k : k_proc (alter_thread f t k) = k_proc k.
Proof. done. Qed.
Lemma k_thread_alter_thread f t k : k_thread (alter_thread f t k) = k_thread k.
Proof. done. Qed.
Lemma k_cr3_alter_thread f t k : k_cr3 (alter_thread f t k) = k_cr3 k.
Proof. done. Qed.
Lemma k_procs_alter_thread f t k : k_procs (alter_thread f t k) = k_procs k.
Proof. done. Qed.
Lemma k_nextpid_alter_thread f t k : k_nextpid (alter_thread f t k) = k_nextpid k.
Proof. done. Qed.
Lemma k_nexttid_alter_thread f t k : k_nexttid (alter_thread f t k) = k_nexttid k.
Proof. done. Qed.
Lemma k_initproc_alter_thread f t k : k_initproc (alter_thread f t k) = k_initproc k.
Proof. done. Qed.
Lemma k_mutexes_alter_thread f t k : k_mutexes (alter_thread f t k) = k_mutexes k.
Proof. done. Qed.
Lemma k_mem_alter_thread f t k : k_mem (alter_thread f t k) = k_mem k.
Proof. done. Qed.
Lemma k_kmem_alter_thread f t k : k_kmem (alter_thread f t k) = k_kmem k.
Proof. done. Qed.
Lemma k_end_alter_thread f t k : k_end (alter_thread f t k) = k_end k.
Proof. done. Qed.
Lemma k_ftable_alter_thread f t k : k_ftable (alter_thread f t k) = k_ftable k.
Proof. done. Qed.
Lemma k_icache_alter_thread f t k : k_icache (alter_thread f t k) = k_icache k.
Proof. done. Qed.
Lemma k_bufs_alter_thread f t k : k_bufs (alter_thread f t k) = k_bufs k.
Proof. done. Qed.
Lemma k_lru_alter_thread f t k : k_lru (alter_thread f t k) = k_lru k.
Proof. done. Qed.
Lemma k_log_alter_thread f t k : k_log (alter_thread f t k) = k_log k.
Proof. done. Qed.
Lemma k_disk_alter_thread f t k : k_disk (alter_thread f t k) = k_disk k.
Proof. done. Qed.
Lemma k_power_alter_thread f t k : k_power (alter_thread f t k) = k_power k.
Proof. done. Qed.
Lemma k_sb_alter_thread f t k : k_sb (alter_thread f t k) = k_sb k.
Proof. done. Qed.
Lemma k_pipes_alter_thread f t k : k_pipes (alter_thread f t k) = k_pipes k.
Proof. done. Qed.
Lemma thread_at_set_lk t x k : thread_at t (set_k_lk x k) = thread_at t k.
Proof. done. Qed.
Lemma thread_at_set_proc t x k : thread_at t (set_k_proc x k) = thread_at t k.
Proof. done. Qed.
Lemma thread_at_set_thread t x k : thread_at t (set_k_thread x k) = thread_at t k.
Proof. done. Qed.
Lemma thread_at_set_cr3 t x k : thread_at t (set_k_cr3 x k) = thread_at t k.
Proof. done. Qed.
Lemma thread_at_set_esp0 t x k : thread_at t (set_k_esp0 x k) = thread_at t k.
Proof. done. Qed.
Lemma thread_at_set_procs t x k : thread_at t (set_k_procs x k) = thread_at t k.
Proof. done. Qed.
Lemma thread_at_set_nextpid t x k : thread_at t (set_k_nextpid x k) = thread_at t k.
Proof. done. Qed.
Lemma thread_at_set_nexttid t x k : thread_at t (set_k_nexttid x k) = thread_at t k.
Proof. done. Qed.
Lemma thread_at_set_mem t x k : thread_at t (set_k_mem x k) = thread_at t k.
Proof. done. Qed.
Lemma thread_at_set_kmem t x k : thread_at t (set_k_kmem x k) = thread_at t k.
Proof. done. Qed.
Lemma thread_at_set_icache t x k : thread_at t (set_k_icache x k) = thread_at t k.
Proof. done. Qed.
Lemma thread_at_set_bufs t x k : thread_at t (set_k_bufs x k) = thread_at t k.
Proof. done. Qed.
Lemma thread_at_set_lru t x k : thread_at t (set_k_lru x k) = thread_at t k.
Proof. done. Qed.
Lemma thread_at_set_log t x k : thread_at t (set_k_log x k) = thread_at t k.
Proof. done. Qed.
Lemma thread_at_set_disk t x k : thread_at t (set_k_disk x k) = thread_at t k.
Proof. done. Qed.
Lemma thread_at_set_power t x k : thread_at t (set_k_power x k) = thread_at t k.
Proof. done. Qed.
Lemma thread_at_set_pipes t x k : thread_at t (set_k_pipes x k) = thread_at t k.
Proof. done. Qed.
Lemma thread_at_set_ftable t x k : thread_at t (set_k_ftable x k) = thread_at t k.
Proof. done. Qed.
Create Rewrite HintDb kframe.
#[export] Hint Rewrite k_lk_alter_thread k_proc_alter_thread k_thread_alter_thread k_cr3_alter_thread k_procs_alter_thread k_nextpid_alter_thread k_nexttid_alter_thread k_initproc_alter_thread k_mutexes_alter_thread k_mem_alter_thread k_kmem_alter_thread k_end_alter_thread k_ftable_alter_thread k_icache_alter_thread k_bufs_alter_thread k_lru_alter_thread k_log_alter_thread k_disk_alter_thread k_power_alter_thread k_sb_alter_thread k_pipes_alter_thread
  thread_at_set_lk thread_at_set_proc thread_at_set_thread thread_at_set_cr3 thread_at_set_esp0 thread_at_set_procs thread_at_set_nextpid thread_at_set_nexttid thread_at_set_mem thread_at_set_kmem thread_at_set_icache thread_at_set_bufs thread_at_set_lru thread_at_set_log thread_at_set_disk thread_at_set_power thread_at_set_pipes thread_at_set_ftable : kframe.
Ltac kframe := repeat first [progress kproj | progress autorewrite with kframe].

(** Updates of one thread move inside other updates. *)
Lemma alter_thread_set_lk f t x k : alter_thread f t (set_k_lk x k) = set_k_lk x (alter_thread f t k).
Proof. done. Qed.
Lemma alter_thread_set_proc f t x k : alter_thread f t (set_k_proc x k) = set_k_proc x (alter_thread f t k).
Proof. done. Qed.
Lemma alter_thread_set_thread f t x k : alter_thread f t (set_k_thread x k) = set_k_thread x (alter_thread f t k).
Proof. done. Qed.
Lemma alter_thread_set_cr3 f t x k : alter_thread f t (set_k_cr3 x k) = set_k_cr3 x (alter_thread f t k).
Proof. done. Qed.
Lemma alter_thread_set_esp0 f t x k : alter_thread f t (set_k_esp0 x k) = set_k_esp0 x (alter_thread f t k).
Proof. done. Qed.
Lemma alter_thread_set_procs f t x k : alter_thread f t (set_k_procs x k) = set_k_procs x (alter_thread f t k).
Proof. done. Qed.
Lemma alter_thread_set_nextpid f t x k : alter_thread f t (set_k_nextpid x k) = set_k_nextpid x (alter_thread f t k).
Proof. done. Qed.
Lemma alter_thread_set_nexttid f t x k : alter_thread f t (set_k_nexttid x k) = set_k_nexttid x (alter_thread f t k).
Proof. done. Qed.
Lemma alter_thread_set_mem f t x k : alter_thread f t (set_k_mem x k) = set_k_mem x (alter_thread f t k).
Proof. done. Qed.
Lemma alter_thread_set_kmem f t x k : alter_thread f t (set_k_kmem x k) = set_k_kmem x (alter_thread f t k).
Proof. done. Qed.
Lemma alter_thread_set_icache f t x k : alter_thread f t (set_k_icache x k) = set_k_icache x (alter_thread f t k).
Proof. done. Qed.
Lemma alter_thread_set_bufs f t x k : alter_thread f t (set_k_bufs x k) = set_k_bufs x (alter_thread f t k).
Proof. done. Qed.
Lemma alter_thread_set_lru f t x k : alter_thread f t (set_k_lru x k) = set_k_lru x (alter_thread f t k).
Proof. done. Qed.
Lemma alter_thread_set_log f t x k : alter_thread f t (set_k_log x k) = set_k_log x (alter_thread f t k).
Proof. done. Qed.
Lemma alter_thread_set_disk f t x k : alter_thread f t (set_k_disk x k) = set_k_disk x (alter_thread f t k).
Proof. done. Qed.
Lemma alter_thread_set_power f t x k : alter_thread f t (set_k_power x k) = set_k_power x (alter_thread f t k).
Proof. done. Qed.
Lemma alter_thread_set_pipes f t x k : alter_thread f t (set_k_pipes x k) = set_k_pipes x (alter_thread f t k).
Proof. done. Qed.
Lemma alter_thread_set_ftable f t x k : alter_thread f t (set_k_ftable x k) = set_k_ftable x (alter_thread f t k).
Proof. done. Qed.
Lemma alter_thread_set_initproc f t x k : alter_thread f t (set_k_initproc x k) = set_k_initproc x (alter_thread f t k).
Proof. done. Qed.
Lemma alter_thread_set_mutexes f t x k : alter_thread f t (set_k_mutexes x k) = set_k_mutexes x (alter_thread f t k).
Proof. done. Qed.
Create Rewrite HintDb kpush.
#[export] Hint Rewrite alter_thread_set_lk alter_thread_set_proc alter_thread_set_thread alter_thread_set_cr3 alter_thread_set_esp0 alter_thread_set_procs alter_thread_set_nextpid alter_thread_set_nexttid alter_thread_set_mem alter_thread_set_kmem alter_thread_set_icache alter_thread_set_bufs alter_thread_set_lru alter_thread_set_log alter_thread_set_disk alter_thread_set_power alter_thread_set_pipes alter_thread_set_ftable alter_thread_set_initproc alter_thread_set_mutexes alter_thread_twice : kpush.

(** Step over a read through a known pointer. *)
Ltac kread H :=
  erewrite bind_ok; [|first [eapply rd_thread_eq|eapply rd_proc_eq]; kproj; exact H].

(** ** Spinlocks of the kernel state *)

Lemma acquire_k l o k n :
  calm (k_lk k) n → lock_free l (k_lk k) →
  acquire l o k = Ok tt (set_k_lk (lk_acquire l (k_lk k)) k) o.
Proof. intros Hc Hf. exact (acquire_calm l o k n Hc Hf). Qed.

Lemma release_k l o k K n :
  calm K n → lock_free l K → k_lk k = lk_acquire l K →
  release l o k = Ok tt (set_k_lk K k) o.
Proof. intros Hc Hf Hk. exact (release_calm l o k K n Hc Hf Hk). Qed.

Lemma release_swap_k l l' o k K n :
  calm K n → n < 999000 → lock_free l K → lock_free l' K → l ≠ l' →
  k_lk k = lk_acquire l' (lk_acquire l K) →
  release l o k = Ok tt (set_k_lk (lk_acquire l' K) k) o.
Proof. intros H1 H2 H3 H4 H5 H6. exact (release_calm_swap l l' o k K n H1 H2 H3 H4 H5 H6). Qed.

Lemma holding_k l o k n :
  calm (k_lk k) n → holding l o k = Ok (held_by_self l (k_lk k)) k o.
Proof. intros H. exact (holding_calm l o k n H). Qed.

Lemma mycpu_k o k n : calm (k_lk k) n → n ≠ 0 → mycpu o k = Ok (self_ix (k_lk k)) k o.
Proof. intros H Hn. exact (mycpu_calm o k n H Hn). Qed.

Lemma readeflags_k o k n : calm (k_lk k) n → n ≠ 0 → readeflags o k = Ok 0 k o.
Proof. intros H Hn. exact (readeflags_calm o k n H Hn). Qed.

(** Step over an acquire of a free lock, over the matching release. *)
Ltac kacquire Hc Hf := erewrite bind_ok; [|eapply acquire_k; [exact Hc|exact Hf]]; kproj.
Ltac krelease Hc Hf :=
  first [ erewrite bind_ok; [|eapply release_k; [exact Hc|exact Hf|reflexivity]]
        | erewrite release_k; [|exact Hc|exact Hf|reflexivity] ]; kproj.

(** ** The global variables as the loader leaves them

    Every table zeroed; the locks have been through [initlock].  Concrete
    states of the development start from it. *)

Definition proc0 : proc := Proc 0 0 UNUSED 0 None 0 (replicate NOFILE None) None (replicate 16 0) None.
Definition kthread0 : kthread := Kthread 0 0 UNINIT 0 None 0 0 None 0.
Definition kmutex0 : kmutex := Kmutex 0 0 0 0 0.
Definition file0 : file := File FD_NONE 0 0 0 0 None 0.
Definition sleeplock0 : sleeplock := Sleeplock 0 0.
Definition inode0 : inode := Inode 0 0 0 sleeplock0 0 0 0 0 0 0 (replicate 13 0).
Definition buf0 : buf := Buf 0 0 0 sleeplock0 0 (replicate 512 0).
Definition log0 : log_t := Log 0 0 0 0 0 0 (replicate 30 0).

Definition boot_locks : gmap lockid spinlock :=
  list_to_map ((λ l, (l, Spinlock 0 None "")) <$>
    ([Lptable; LmutexTable; Lkmem; Lftable; Licache; Lbcache; Llog; Lide; Lcons; Ltickslock]
     ++ (Lmutex <$> seq 0 MAX_MUTEXES) ++ (Lbufsleep <$> seq 0 NBUF)
     ++ (Linodesleep <$> seq 0 NINODE))).

Definition boot_lks : lkstate :=
  LkState boot_locks [Cpu 0 0 FL_IF; Cpu 1 0 FL_IF] [HwCpu 0 true; HwCpu 1 true] 0.

Definition boot_kernel : kernel := {|
  k_lk := boot_lks; k_proc := None; k_thread := None; k_cr3 := 0; k_esp0 := 0;
  k_procs := replicate NPROC proc0; k_ttable := replicate NPROC (replicate NTHREAD kthread0);
  k_nextpid := 1; k_nexttid := 1; k_initproc := None; k_first := 1;
  k_mutexes := replicate MAX_MUTEXES kmutex0; k_mutex_past := 0;
  k_mem := λ _, 0; k_kmem := Kmem 0 0; k_end := 0x80112000; k_data := 0x80108000;
  k_kpgdir := 0; k_pipes := ∅; k_ftable := replicate NFILE file0;
  k_icache := replicate NINODE inode0; k_sb := Superblock 0 0 0 0 0 0 0;
  k_bufs := replicate NBUF buf0; k_lru := seq 0 NBUF; k_log := log0;
  k_disk := []; k_ticks := 0; k_input := Input (replicate 128 0) 0 0 0;
  k_power := None; k_idequeue := []; k_havedisk1 := 0; k_devsw := replicate 10 false;
  k_cons_locking := 0; k_output := []; k_io := Ports [] (λ _ _, 0) 0; k_uart := 0; k_crt := replicate 2000 0
|}.

Lemma boot_lks_calm : calm boot_lks 0.
Proof.
  exists 0%nat, (Cpu 0 0 FL_IF), true.
  split_and!; try done. split_and!; try done. intros j c' _ Hj. lia.
Qed.

(** A lock of the table is free at boot. *)
Lemma boot_lks_free l :
  boot_locks !! l = Some (Spinlock 0 None "") → lock_free l boot_lks.
Proof.
  intros H. unfold lock_free, getlock. simpl. by rewrite H.
Qed.

#[export] Hint Resolve boot_lks_calm : xv6.
Ltac boot_free := apply boot_lks_free; vm_compute; reflexivity.
#[export] Hint Extern 1 (lock_free _ _) => boot_free : xv6.

(** ** Device registers *)
#[export, refine] Instance kernel_ports : PortState kernel := {| ports_of := k_io; set_ports := set_k_io |}.
Proof. all: by intros; destruct s. Defined.
