(* ===== verification/Cprintf.v ===== *)
(** * Kernel output

    [cprintf] of [console.c] with [printint] and [consputc], and [getcallerpcs]
    of [spinlock.c].  The characters that reach the serial port and the screen
    are appended to [k_output]; [Uart] shows what becomes of them in the registers
    behind [uartputc] and [cgaputc].  Elsewhere a panic just ends the run; what the
    function does is [kpanic] here. *)

From S2P Require Import Prelude Defs Spinlock Kernel.
Local Open Scope kernel_scope.

Definition BACKSPACE : Z := 0x100.

(** The bytes of a string literal. *)
Fixpoint chars (s : string) : list Z :=
  match s with
  | EmptyString => []
  | String c s' => Z.of_N (Ascii.N_of_ascii c) :: chars s'
  end.

(** ** Output *)

Definition consputc (c : Z) : KM unit := modify (λ k, set_k_output (c :: k_output k) k).

(** [digits[x % base]] *)
Definition digit_char (upper : bool) (d : Z) : Z :=
  if d <? 10 then 48 + d else (if upper then 55 else 87) + d.

(** The do-while loop: lowest digit first.  A 32-bit number has at most 32
    digits. *)
Fixpoint digit_chars (fuel : nat) (upper : bool) (x base : Z) : list Z :=
  match fuel with
  | O => []
  | S f =>
      digit_char upper (x `mod` base) ::
      (if x / base =? 0 then [] else digit_chars f upper (x / base) base)
  end.

(** What printint writes, in order. *)
Definition int_chars (upper : bool) (xx base : Z) (sign : bool) : list Z :=
  let neg := sign && (xx <? 0) in
  let x := if neg then u32 (- xx) else u32 xx in
  rev (digit_chars 32 upper x base ++ (if neg then [45] else [])).

Definition printint (xx base : Z) (sign : bool) : KM unit :=
  for_each (int_chars false xx base sign) consputc.

(** An argument: a word, or a pointer to a string (None: null). *)
Inductive carg := Aint (v : Z) | Astr (s : option (list Z)).

Definition next_int (args : list carg) : KM (Z * list carg) :=
  match args with
  | Aint v :: a => ret (v, a)
  | _ => undef "cprintf argument"
  end.
Definition next_str (args : list carg) : KM (list Z * list carg) :=
  match args with
  | Astr (Some s) :: a => ret (s, a)
  | Astr None :: a => ret (chars "(null)", a)
  | _ => undef "cprintf argument"
  end.

Fixpoint cprintf_loop (fmt : list Z) (args : list carg) : KM unit :=
  match fmt with
  | [] => ret tt
  | c :: fmt' =>
      if negb (c =? 37) then consputc c ;;; cprintf_loop fmt' args
      else
        match fmt' with
        | [] => ret tt
        | c :: fmt'' =>
            if c =? 100 then
              let! a := next_int args in
              printint (i32 (fst a)) 10 true ;;; cprintf_loop fmt'' (snd a)
            else if (c =? 120) || (c =? 112) then
              let! a := next_int args in
              printint (i32 (fst a)) 16 false ;;; cprintf_loop fmt'' (snd a)
            else if c =? 115 then
              let! a := next_str args in
              for_each (fst a) consputc ;;; cprintf_loop fmt'' (snd a)
            else if c =? 37 then consputc 37 ;;; cprintf_loop fmt'' args
            else consputc 37 ;;; consputc c ;;; cprintf_loop fmt'' args
        end
  end.

Definition cprintf (fmt : list Z) (args : list carg) : KM unit :=
  let! locking := gets k_cons_locking in
  when (negb (locking =? 0)) (acquire Lcons) ;;;
  cprintf_loop fmt args ;;;
  when (negb (locking =? 0)) (release Lcons).

(** ** spinlock.c: getcallerpcs *)

(** Follow the frame pointers from [v]. *)
Fixpoint caller_pcs (n : nat) (m : memory) (ebp : Z) : list Z :=
  match n with
  | O => []
  | S n' =>
      if (ebp =? 0) || (ebp <? KERNBASE) || (ebp =? 0xffffffff) then replicate n 0
      else ld32 m (ebp + 4) :: caller_pcs n' m (ld32 m ebp)
  end.
Definition getcallerpcs (m : memory) (v : Z) : list Z := caller_pcs 10 m (u32 (v - 8)).

(** ** console.c: panic *)

(** [v] is the address of the argument, from which the callers are found.  The loop
    at the end is where the run stops. *)
Definition kpanic (msg : string) (v : Z) : KM unit :=
  cli ;;;
  modify (set_k_cons_locking 0) ;;;
  let! id := lapicid in
  cprintf (chars "lapicid %d: panic: ") [Aint id] ;;;
  cprintf (chars msg) [] ;;;
  cprintf [10] [] ;;;
  let! m := gets k_mem in
  for_each (getcallerpcs m v) (λ pc, cprintf (chars " %p") [Aint pc]) ;;;
  panic msg.

(** ** Reading numbers back *)

Definition digit_val (c : Z) : Z := if c <? 58 then c - 48 else c - 87.
Definition read_digits (base : Z) (l : list Z) : Z := foldl (λ a c, a * base + digit_val c) 0 l.
Definition read_int (base : Z) (l : list Z) : Z :=
  match l with
  | c :: l' => if c =? 45 then - read_digits base l' else read_digits base l
  | [] => 0
  end.

Lemma digit_val_char d : 0 ≤ d < 16 → digit_val (digit_char false d) = d ∧ 48 ≤ digit_char false d.
Proof. intros. unfold digit_val, digit_char. repeat (case_test; to_prop); lia. Qed.

(** The loop of printint with enough rounds writes the number, in at most [n]
    digits if it is below [base^n]. *)
Lemma digit_chars_spec n base x :
  2 ≤ base ≤ 16 → 0 ≤ x < base ^ Z.of_nat (S n) →
  let l := digit_chars (S n) false x base in
  read_digits base (rev l) = x ∧ (1 ≤ length l ≤ S n)%nat ∧ Forall (λ c, 48 ≤ c) l.
Proof.
  intros Hb. revert x. induction n as [|n IH]; intros x Hx l.
  - change (base ^ Z.of_nat 1) with (base ^ 1) in Hx. rewrite Z.pow_1_r in Hx.
    assert (l = [digit_char false x]) as ->.
    { unfold l. cbn [digit_chars]. rewrite Z.mod_small, Z.div_small by lia. done. }
    destruct (digit_val_char x) as [E H48]; [lia|]. unfold read_digits. simpl.
    rewrite E. split_and!; [lia|lia|lia|by repeat constructor].
  - set (l' := if x / base =? 0 then [] else digit_chars (S n) false (x / base) base).
    assert (l = digit_char false (x `mod` base) :: l') as -> by done.
    pose proof (Z.mod_pos_bound x base ltac:(lia)). pose proof (Z.div_mod x base ltac:(lia)) as Hdm.
    destruct (digit_val_char (x `mod` base)) as [E H48]; [lia|].
    assert (read_digits base (rev l') = x / base ∧ (length l' ≤ S n)%nat ∧ Forall (λ c, 48 ≤ c) l') as (I1 & I2 & I3).
    { unfold l'. destruct (Z.eqb_spec (x / base) 0) as [->|Hne]; [simpl; split_and!; [done|lia|constructor]|].
      destruct (IH (x / base)) as (A & B & C).
      - split; [apply Z.div_pos; lia|]. apply Z.div_lt_upper_bound; [lia|].
        rewrite <- Z.pow_succ_r, <- Nat2Z.inj_succ by lia. lia.
      - split_and!; [exact A|lia|exact C]. }
    simpl rev. unfold read_digits in *. rewrite foldl_app, I1. simpl. rewrite E.
    split_and!; [lia|lia|lia|by constructor].
Qed.

(** More rounds than digits change nothing. *)
Lemma digit_chars_enough n m base x :
  2 ≤ base → 0 ≤ x < base ^ Z.of_nat (S n) →
  digit_chars (S n + m) false x base = digit_chars (S n) false x base.
Proof.
  intros Hb. revert x. induction n as [|n IH]; intros x Hx.
  - change (base ^ Z.of_nat 1) with (base ^ 1) in Hx. rewrite Z.pow_1_r in Hx. simpl.
    by rewrite Z.div_small by lia.
  - change (S (S n) + m)%nat with (S (S n + m)). cbn [digit_chars].
    destruct (x / base =? 0); [done|]. f_equal. apply IH. split; [apply Z.div_pos; lia|].
    apply Z.div_lt_upper_bound; [lia|]. rewrite <- Z.pow_succ_r, <- Nat2Z.inj_succ by lia. lia.
Qed.

Lemma for_each_consputc l o k : for_each l consputc o k = Ok tt (set_k_output (rev l ++ k_output k) k) o.
Proof.
  revert k. induction l as [|c l IH]; intros k; [by destruct k|]. simpl.
  unfold consputc at 1. rewrite bind_modify, IH. kproj. rewrite <- app_assoc. by destruct k.
Qed.

(** ** What cprintf writes *)

Fixpoint format (fmt : list Z) (args : list carg) : option (list Z) :=
  match fmt with
  | [] => Some []
  | c :: fmt' =>
      if negb (c =? 37) then r ← format fmt' args; Some (c :: r)
      else
        match fmt' with
        | [] => Some []
        | c :: fmt'' =>
            if c =? 100 then
              match args with Aint v :: a => r ← format fmt'' a; Some (int_chars false (i32 v) 10 true ++ r) | _ => None end
            else if (c =? 120) || (c =? 112) then
              match args with Aint v :: a => r ← format fmt'' a; Some (int_chars false (i32 v) 16 false ++ r) | _ => None end
            else if c =? 115 then
              match args with
              | Astr s :: a => r ← format fmt'' a; Some (default (chars "(null)") s ++ r)
              | _ => None
              end
            else if c =? 37 then r ← format fmt'' args; Some (37 :: r)
            else r ← format fmt'' args; Some (37 :: c :: r)
        end
  end.

Lemma consputc_eq c o k : consputc c o k = Ok tt (set_k_output (c :: k_output k) k) o.
Proof. done. Qed.
Lemma output_app l l' k : set_k_output (rev l' ++ k_output (set_k_output (rev l ++ k_output k) k)) (set_k_output (rev l ++ k_output k) k) =
  set_k_output (rev (l ++ l') ++ k_output k) k.
Proof. kproj. rewrite rev_app_distr, <- app_assoc. by destruct k. Qed.

Lemma cprintf_loop_format fmt args out o k :
  format fmt args = Some out → cprintf_loop fmt args o k = Ok tt (set_k_output (rev out ++ k_output k) k) o.
Proof.
  revert args out k. induction fmt as [fmt IH] using (induction_ltof1 _ (@length Z)). unfold ltof in IH. intros args out k.
  assert (∀ l fmt' args' out', (length fmt' < length fmt)%nat → (r ← format fmt' args'; Some (l ++ r)) = Some out' →
    ∀ m, m o k = Ok tt (set_k_output (rev l ++ k_output k) k) o →
    (m ;;; cprintf_loop fmt' args') o k = Ok tt (set_k_output (rev out' ++ k_output k) k) o) as Hs.
  { intros l fmt' args' out' Hl Hf m Hm. apply bind_Some in Hf as (r & Hr & [= <-]). rewrite (bind_ok _ _ _ _ _ _ _ Hm).
    rewrite (IH fmt' Hl _ _ _ Hr). by rewrite output_app. }
  destruct fmt as [|c fmt']; cbn [format cprintf_loop].
  { intros [= <-]. by destruct k. }
  destruct (negb (c =? 37)).
  { intros H. apply (Hs [c]); [cbn; lia|exact H|done]. }
  destruct fmt' as [|d fmt'']; [intros [= <-]; by destruct k|].
  assert (length fmt'' < length (c :: d :: fmt''))%nat as Hlt by (cbn; lia).
  destruct (d =? 100); [|destruct (_ || _); [|destruct (d =? 115); [|destruct (d =? 37)]]].
  - destruct args as [|[v|] args]; [done| |done]. intros H. unfold next_int. mrun. by eapply Hs; [|exact H|apply for_each_consputc].
  - destruct args as [|[v|] args]; [done| |done]. intros H. unfold next_int. mrun. by eapply Hs; [|exact H|apply for_each_consputc].
  - destruct args as [|[|[str|]] args]; [done|done| |]; intros H; unfold next_str; mrun; by eapply Hs; [|exact H|apply for_each_consputc].
  - intros H. by apply (Hs [37] fmt'' args).
  - intros H. rewrite <- bind_assoc. by apply (Hs [37; d] fmt'' args).
Qed.

Lemma cprintf_format fmt args out o k :
  k_cons_locking k = 0 → format fmt args = Some out → cprintf fmt args o k = Ok tt (set_k_output (rev out ++ k_output k) k) o.
Proof.
  intros Hc Hf. unfold cprintf. mrun. rewrite Hc. change (negb (0 =? 0)) with false. unfold when. mrun.
  by rewrite (bind_ok _ _ _ _ _ _ _ (cprintf_loop_format _ _ _ o k Hf)).
Qed.
Lemma format_plain l : Forall (λ c, c ≠ 37) l → format l [] = Some l.
Proof. induction 1 as [|c l Hc _ IH]; [done|]. cbn [format]. rewrite (proj2 (Z.eqb_neq _ _) Hc). cbn [negb]. by rewrite IH. Qed.

Lemma panic_pcs l o k :
  k_cons_locking k = 0 → for_each l (λ pc, cprintf (chars " %p") [Aint pc]) o k =
    Ok tt (set_k_output (rev (l ≫= λ pc, 32 :: int_chars false (i32 pc) 16 false) ++ k_output k) k) o.
Proof.
  revert k. induction l as [|pc l IH]; intros k Hc; [by destruct k|]. cbn [for_each].
  rewrite (bind_ok _ _ _ _ _ _ _ (cprintf_format (chars " %p") [Aint pc] (32 :: int_chars false (i32 pc) 16 false) o k Hc ltac:(change (format _ _) with (Some (32 :: (int_chars false (i32 pc) 16 false ++ []))); by rewrite app_nil_r))).
  rewrite IH by done. by rewrite output_app.
Qed.

(** panic reports the CPU, the message and the callers, and stops, whatever the
    locks: also when this CPU or another one holds the lock of the console. *)
Theorem kpanic_stops msg v o k :
  Forall (λ c, c ≠ 37) (chars msg) →
  ∃ k', kpanic msg v o k = Panic msg k' ∧
    k_output k' = rev (chars "lapicid " ++ int_chars false (i32 (h_apicid (hw_self (k_lk k)))) 10 true ++ chars ": panic: " ++ chars msg ++ [10] ++
                       (getcallerpcs (k_mem k) v ≫= λ pc, 32 :: int_chars false (i32 pc) 16 false)) ++ k_output k.
Proof.
  intros Hm. unfold kpanic, cli, on_lks. mrun. unfold lapicid. mrun. set (k1 := set_k_cons_locking 0 _).
  assert (h_apicid (hw_self (lks k1)) = h_apicid (hw_self (k_lk k))) as ->.
  { change (lks k1) with (set_if false (k_lk k)). unfold hw_self, set_if. simpl. rewrite list_lookup_alter.
    rewrite decide_True by done. by destruct (lk_hw (k_lk k) !! lk_self (k_lk k)). }
  set (id := h_apicid _).
  rewrite (bind_ok _ _ _ _ _ _ _ (cprintf_format (chars "lapicid %d: panic: ") [Aint id]
    (chars "lapicid " ++ int_chars false (i32 id) 10 true ++ chars ": panic: ") o k1 eq_refl eq_refl)).
  rewrite (bind_ok _ _ _ _ _ _ _ (cprintf_format (chars msg) [] _ o (set_k_output _ k1) eq_refl (format_plain _ Hm))), output_app.
  rewrite (bind_ok _ _ _ _ _ _ _ (cprintf_format [10] [] [10] o (set_k_output _ k1) eq_refl eq_refl)), output_app. mrun. kproj.
  rewrite (bind_ok _ _ _ _ _ _ _ (panic_pcs (getcallerpcs (k_mem k) v) o (set_k_output _ k1) eq_refl)), output_app.
  eexists. split; [done|]. kproj. change (k_output k1) with (k_output k). do 2 f_equal. by rewrite <- !app_assoc.
Qed.

(** printint prints numbers exactly: for the two bases cprintf uses, what it
    sends to the console reads back as the argument (as an unsigned number when
    not asked for a sign), the most negative number included, and it needs at
    most 11 of the 16 characters of its buffer. *)
Theorem printint_exact xx base sign o k :
  base = 10 ∨ base = 16 ∧ sign = false → -2147483648 ≤ xx < 2147483648 →
  ∃ l, printint xx base sign o k = Ok tt (set_k_output (rev l ++ k_output k) k) o ∧
    (1 ≤ length l ≤ 11)%nat ∧ read_int base l = if sign then xx else u32 xx.
Proof.
  intros Hb Hx. exists (int_chars false xx base sign). split; [apply for_each_consputc|].
  unfold int_chars. set (neg := sign && (xx <? 0)). set (x := if neg then u32 (- xx) else u32 xx).
  assert (0 ≤ x < base ^ 10) as Hr.
  { assert (0 ≤ x < 4294967296) by (unfold x; destruct neg; apply u32_range). destruct Hb as [->|[-> _]]; lia. }
  rewrite (digit_chars_enough 9 22 base x ltac:(lia) Hr : digit_chars 32 false x base = _).
  destruct (digit_chars_spec 9 base x ltac:(lia) Hr) as (D1 & D2 & D3).
  set (l := digit_chars 10 false x base) in *. clearbody l. rewrite rev_app_distr.
  destruct neg eqn:En; simpl app; simpl length.
  - unfold neg in En. apply andb_true_iff in En as [-> Hn]. to_prop. split.
    + rewrite length_rev. lia.
    + simpl. rewrite D1. unfold x. rewrite u32_small by lia. lia.
  - assert ((if sign then xx else u32 xx) = x) as ->.
    { unfold x, neg in *. destruct sign; [|done]. simpl in En. to_prop. by rewrite u32_small by lia. }
    rewrite length_rev. split; [lia|]. unfold read_int. destruct (rev l) as [|c r] eqn:Er; [|].
    + apply (f_equal length) in Er. rewrite length_rev in Er. simpl in Er. lia.
    + assert (48 ≤ c) as Hc.
      { rewrite Forall_forall in D3. apply D3. apply list_elem_of_In, in_rev. rewrite Er. by left. }
      rewrite (proj2 (Z.eqb_neq _ _)) by lia. done.
Qed.

Lemma printint_exact_witness :
  ∃ l, printint (-2147483648) 10 true [] boot_kernel = Ok tt (set_k_output (rev l ++ k_output boot_kernel) boot_kernel) [] ∧
       read_int 10 l = -2147483648.
Proof.
  destruct (printint_exact (-2147483648) 10 true [] boot_kernel ltac:(by left) ltac:(lia)) as (l & H1 & _ & H2).
  exists l. split; [exact H1|exact H2].
Defined.
