(* ===== verification/Apic.v ===== *)
(** * Interrupt controllers and the clock chip

    [ioapic.c], [lapic.c] and [picirq.c]: the I/O APIC routes device interrupts
    to CPUs, the local APIC of each CPU has the timer and starts the other CPUs,
    and the CMOS clock gives the time of day.  All of it is writing and reading
    device registers ([Ports]).  The pointer [lapic], set by mp.c before any of
    this runs, and [ioapicid] are arguments. *)

From S2P Require Import Prelude Defs Bytes Ports Spinlock Kernel Cprintf.
Local Open Scope kernel_scope.

(** ** ioapic.c *)

Definition IOAPIC : Z := 0xFEC00000.
Definition REG_ID : Z := 0x00.
Definition REG_VER : Z := 0x01.
Definition REG_TABLE : Z := 0x10.
Definition INT_DISABLED : Z := 0x00010000.

(** The members [reg] and [data] of struct ioapic. *)
Definition ioapic_sel : ioreg := Mmio IOAPIC.
Definition ioapic_win : ioreg := Mmio (IOAPIC + 16).

Definition ioapicread (reg : Z) : KM Z :=
  io_write ioapic_sel (u32 reg) ;;;
  let! v := io_read ioapic_win in ret (u32 v).
Definition ioapicwrite (reg data : Z) : KM unit :=
  io_write ioapic_sel (u32 reg) ;;;
  io_write ioapic_win (u32 data).

Definition ioapicinit (ioapicid : Z) : KM unit :=
  let! ver := ioapicread REG_VER in
  let maxintr := Z.land (Z.shiftr ver 16) 0xFF in
  let! w := ioapicread REG_ID in
  let id := Z.shiftr w 24 in
  when (negb (id =? ioapicid))
    (cprintf (chars "ioapicinit: id isn't equal to ioapicid; not a MP" ++ [10]) []) ;;;
  for_each (seq 0 (S (Z.to_nat maxintr))) (λ i,
    ioapicwrite (REG_TABLE + 2 * Z.of_nat i) (Z.lor INT_DISABLED (T_IRQ0 + Z.of_nat i)) ;;;
    ioapicwrite (REG_TABLE + 2 * Z.of_nat i + 1) 0).

Definition ioapicenable (irq cpunum : Z) : KM unit :=
  ioapicwrite (REG_TABLE + 2 * irq) (T_IRQ0 + irq) ;;;
  ioapicwrite (REG_TABLE + 2 * irq + 1) (Z.shiftl cpunum 24).

(** ** picirq.c *)

Definition IO_PIC1 : Z := 0x20.
Definition IO_PIC2 : Z := 0xA0.
Definition picinit : KM unit := outb (IO_PIC1 + 1) 0xFF ;;; outb (IO_PIC2 + 1) 0xFF.

(** ** lapic.c *)

Definition LAPIC_ID : Z := 0x0020 / 4.
Definition LAPIC_VER : Z := 0x0030 / 4.
Definition TPR : Z := 0x0080 / 4.
Definition EOI : Z := 0x00B0 / 4.
Definition SVR : Z := 0x00F0 / 4.
Definition ENABLE : Z := 0x00000100.
Definition ESR : Z := 0x0280 / 4.
Definition ICRLO : Z := 0x0300 / 4.
Definition INIT : Z := 0x00000500.
Definition STARTUP : Z := 0x00000600.
Definition DELIVS : Z := 0x00001000.
Definition ASSERT : Z := 0x00004000.
Definition LEVEL : Z := 0x00008000.
Definition BCAST : Z := 0x00080000.
Definition ICRHI : Z := 0x0310 / 4.
Definition TIMER : Z := 0x0320 / 4.
Definition X1 : Z := 0x0000000B.
Definition PERIODIC : Z := 0x00020000.
Definition PCINT : Z := 0x0340 / 4.
Definition LINT0 : Z := 0x0350 / 4.
Definition LINT1 : Z := 0x0360 / 4.
Definition ERROR : Z := 0x0370 / 4.
Definition MASKED : Z := 0x00010000.
Definition TICR : Z := 0x0380 / 4.
Definition TDCR : Z := 0x03E0 / 4.

(** [lapic[index]] *)
Definition lapic_reg (lapic index : Z) : ioreg := Mmio (u32 (lapic + 4 * index)).
Definition lapicr (lapic index : Z) : KM Z := let! v := io_read (lapic_reg lapic index) in ret (u32 v).
Definition lapicw (lapic index value : Z) : KM unit :=
  io_write (lapic_reg lapic index) (u32 value) ;;;
  let! _ := lapicr lapic LAPIC_ID in ret tt.

Definition lapicinit (lapic : Z) : KM unit :=
  if lapic =? 0 then ret tt
  else
    lapicw lapic SVR (Z.lor ENABLE (T_IRQ0 + IRQ_SPURIOUS)) ;;;
    lapicw lapic TDCR X1 ;;;
    lapicw lapic TIMER (Z.lor PERIODIC (T_IRQ0 + IRQ_TIMER)) ;;;
    lapicw lapic TICR 10000000 ;;;
    lapicw lapic LINT0 MASKED ;;;
    lapicw lapic LINT1 MASKED ;;;
    let! ver := lapicr lapic LAPIC_VER in
    when (4 <=? Z.land (Z.shiftr ver 16) 0xFF) (lapicw lapic PCINT MASKED) ;;;
    lapicw lapic ERROR (T_IRQ0 + IRQ_ERROR) ;;;
    lapicw lapic ESR 0 ;;;
    lapicw lapic ESR 0 ;;;
    lapicw lapic EOI 0 ;;;
    lapicw lapic ICRHI 0 ;;;
    lapicw lapic ICRLO (Z.lor (Z.lor BCAST INIT) LEVEL) ;;;
    let! _ := poll_until (lapicr lapic ICRLO) (λ v, Z.land v DELIVS =? 0) in
    lapicw lapic TPR 0.

Definition lapicid (lapic : Z) : KM Z :=
  if lapic =? 0 then ret 0
  else let! v := lapicr lapic LAPIC_ID in ret (Z.shiftr v 24).

Definition lapiceoi (lapic : Z) : KM unit := when (negb (lapic =? 0)) (lapicw lapic EOI 0).

Definition microdelay (us : Z) : KM unit := ret tt.

Definition CMOS_PORT : Z := 0x70.
Definition CMOS_RETURN : Z := 0x71.

Definition st16 (m : memory) (a v : Z) : memory := st8 (st8 m a v) (a + 1) (v / 256).

Definition lapicstartap (lapic apicid addr : Z) : KM unit :=
  outb CMOS_PORT 0xF ;;;
  outb (CMOS_PORT + 1) 0x0A ;;;
  let wrv := P2V (Z.lor (Z.shiftl 0x40 4) 0x67) in
  upd_mem (λ m, st16 m wrv 0) ;;;
  upd_mem (λ m, st16 m (wrv + 2) (Z.shiftr addr 4)) ;;;
  lapicw lapic ICRHI (Z.shiftl apicid 24) ;;;
  lapicw lapic ICRLO (Z.lor (Z.lor INIT LEVEL) ASSERT) ;;;
  microdelay 200 ;;;
  lapicw lapic ICRLO (Z.lor INIT LEVEL) ;;;
  microdelay 100 ;;;
  for_each (seq 0 2) (λ _,
    lapicw lapic ICRHI (Z.shiftl apicid 24) ;;;
    lapicw lapic ICRLO (Z.lor STARTUP (Z.shiftr addr 12)) ;;;
    microdelay 200).

(** ** The time of day *)

Definition CMOS_STATA : Z := 0x0a.
Definition CMOS_STATB : Z := 0x0b.
Definition CMOS_UIP : Z := Z.shiftl 1 7.
Definition SECS : Z := 0x00.
Definition MINS : Z := 0x02.
Definition HOURS : Z := 0x04.
Definition DAY : Z := 0x07.
Definition MONTH : Z := 0x08.
Definition YEAR : Z := 0x09.

Record rtcdate := Rtcdate { rt_second : Z; rt_minute : Z; rt_hour : Z; rt_day : Z; rt_month : Z; rt_year : Z }.
#[export] Instance rtcdate_eq_dec : EqDecision rtcdate.
Proof. solve_decision. Defined.

Definition cmos_read (reg : Z) : KM Z :=
  outb CMOS_PORT reg ;;;
  microdelay 200 ;;;
  inb CMOS_RETURN.

Definition fill_rtcdate : KM rtcdate :=
  let! s := cmos_read SECS in
  let! m := cmos_read MINS in
  let! h := cmos_read HOURS in
  let! d := cmos_read DAY in
  let! mo := cmos_read MONTH in
  let! y := cmos_read YEAR in
  ret (Rtcdate s m h d mo y).

(** The reads repeat until two in a row agree and no update is in progress. *)
Fixpoint cmos_stable (n : nat) : KM rtcdate :=
  match n with
  | O => undef "device never ready"
  | S n' =>
      let! t1 := fill_rtcdate in
      let! a := cmos_read CMOS_STATA in
      if negb (Z.land a CMOS_UIP =? 0) then cmos_stable n'
      else
        let! t2 := fill_rtcdate in
        if decide (t1 = t2) then ret t1 else cmos_stable n'
  end.

(** The macro CONV. *)
Definition conv_bcd (x : Z) : Z := u32 (Z.shiftr x 4 * 10 + Z.land x 0xf).

Definition cmostime : KM rtcdate :=
  let! sb := cmos_read CMOS_STATB in
  let bcd := Z.land sb (Z.shiftl 1 2) =? 0 in
  let! n := gets (λ k, S (io_patience (k_io k))) in
  let! t := cmos_stable n in
  let t := if bcd then Rtcdate (conv_bcd (rt_second t)) (conv_bcd (rt_minute t)) (conv_bcd (rt_hour t))
                         (conv_bcd (rt_day t)) (conv_bcd (rt_month t)) (conv_bcd (rt_year t)) else t in
  ret (Rtcdate (rt_second t) (rt_minute t) (rt_hour t) (rt_day t) (rt_month t) (u32 (rt_year t + 2000))).

(** ** What the device sees *)

(** A run that only touched devices. *)
Definition io_ran (l : list ioev) (k : kernel) : kernel := set_k_io (with_log l (k_io k)) k.

Lemma io_ran_log l k : io_log (k_io (io_ran l k)) = l ++ io_log (k_io k).
Proof. done. Qed.
Lemma io_ran_dev l k : io_dev (k_io (io_ran l k)) = io_dev (k_io k).
Proof. done. Qed.
Lemma io_ran_patience l k : io_patience (k_io (io_ran l k)) = io_patience (k_io k).
Proof. done. Qed.
Lemma io_ran_app l l' k : io_ran l (io_ran l' k) = io_ran (l ++ l') k.
Proof. unfold io_ran. cbn [k_io set_k_io]. by rewrite with_log_app. Qed.

Lemma outb_ran port v o l k : outb port v o (io_ran l k) = Ok tt (io_ran (Wr (Port8 port) (u8 v) :: l) k) o.
Proof. done. Qed.

Lemma inb_ran port o k :
  let v := io_dev (k_io k) (io_log (k_io k)) (Port8 port) in inb port o k = Ok (u8 v) (io_ran [Rd (Port8 port) v] k) o.
Proof. done. Qed.
Lemma outb_ran1 port v o k : outb port v o k = Ok tt (io_ran [Wr (Port8 port) (u8 v)] k) o.
Proof. done. Qed.

(** The register selected last, and the data written last to a register. *)
Fixpoint selected (log : list ioev) : option Z :=
  match log with
  | [] => None
  | Wr r v :: log' => if decide (r = ioapic_sel) then Some v else selected log'
  | _ :: log' => selected log'
  end.
Fixpoint redir (log : list ioev) (reg : Z) : option Z :=
  match log with
  | [] => None
  | Wr r v :: log' =>
      if decide (r = ioapic_win ∧ selected log' = Some reg) then Some v else redir log' reg
  | _ :: log' => redir log' reg
  end.

Lemma ioapicwrite_eq reg data o k :
  ioapicwrite reg data o k = Ok tt (io_ran [Wr ioapic_win (u32 data); Wr ioapic_sel (u32 reg)] k) o.
Proof. done. Qed.
Lemma ioapicread_eq reg o k :
  let v := io_dev (k_io k) (Wr ioapic_sel (u32 reg) :: io_log (k_io k)) ioapic_win in
  ioapicread reg o k = Ok (u32 v) (io_ran [Rd ioapic_win v; Wr ioapic_sel (u32 reg)] k) o.
Proof. done. Qed.

Lemma redir_write reg data log reg' :
  redir (Wr ioapic_win data :: Wr ioapic_sel reg :: log) reg' = if decide (reg' = reg) then Some data else redir log reg'.
Proof.
  cbn [redir selected]. rewrite (decide_True (P := ioapic_sel = ioapic_sel)) by done.
  rewrite (decide_False (P := ioapic_sel = ioapic_win ∧ _)) by (intros [? _]; discriminate).
  destruct (decide (reg' = reg)) as [->|Hne]; [by rewrite decide_True|]. rewrite decide_False; [done|]. intros [_ [= ->]]. done.
Qed.

Lemma lor_range a b n : 0 ≤ n → 0 ≤ a < 2 ^ n → 0 ≤ b < 2 ^ n → 0 ≤ Z.lor a b < 2 ^ n.
Proof.
  intros Hn Ha Hb. split; [apply Z.lor_nonneg; lia|]. destruct (decide (Z.lor a b = 0)) as [->|Hne]; [lia|].
  assert (0 ≤ Z.lor a b) by (apply Z.lor_nonneg; lia). apply Z.log2_lt_pow2; [lia|]. rewrite Z.log2_lor by lia.
  assert (∀ x, 0 ≤ x < 2 ^ n → x ≠ 0 → 0 ≤ Z.log2 x < n) as Hl by (intros; split; [apply Z.log2_nonneg|apply Z.log2_lt_pow2; lia]).
  destruct (decide (a = 0)) as [->|], (decide (b = 0)) as [->|]; [done| | |]; change (Z.log2 0) with 0.
  - specialize (Hl b). lia.
  - specialize (Hl a). lia.
  - pose proof (Hl a). specialize (Hl b). lia.
Qed.

(** The two words of interrupt [i]. *)
Definition routed (log : list ioev) (i lo hi : Z) : Prop :=
  redir log (REG_TABLE + 2 * i) = Some lo ∧ redir log (REG_TABLE + 2 * i + 1) = Some hi.

Lemma routed_pair log i lo hi j lo' hi' :
  0 ≤ i < 256 → 0 ≤ j < 256 → 0 ≤ lo < 4294967296 → 0 ≤ hi < 4294967296 →
  (if decide (j = i) then lo' = lo ∧ hi' = hi else routed log j lo' hi') →
  routed (Wr ioapic_win (u32 hi) :: Wr ioapic_sel (u32 (REG_TABLE + 2 * i + 1)) ::
          Wr ioapic_win (u32 lo) :: Wr ioapic_sel (u32 (REG_TABLE + 2 * i)) :: log) j lo' hi'.
Proof.
  intros Hi Hj Hlo Hhi H. unfold routed. rewrite !u32_small by (unfold REG_TABLE; lia). rewrite !redir_write. unfold REG_TABLE in *.
  destruct (decide (j = i)) as [->|Hne].
  - destruct H as [-> ->]. rewrite (decide_False (P := 16 + 2 * i = 16 + 2 * i + 1)) by lia. by rewrite !decide_True by lia.
  - rewrite !decide_False by lia. exact H.
Qed.

Section Ioapic.
Context (k : kernel) (ver ioapicid : Z).
(** The version register holds [ver], the id register the id that the tables of
    the BIOS announced. *)
Hypothesis (Hver : ∀ log, selected log = Some REG_VER → io_dev (k_io k) log ioapic_win = ver) (Hv : 0 ≤ ver < 4294967296).
Hypothesis (Hid : ∀ log, selected log = Some REG_ID → io_dev (k_io k) log ioapic_win = Z.shiftl ioapicid 24) (Hi : 0 ≤ ioapicid < 256).

Definition maxintr : Z := Z.land (Z.shiftr ver 16) 0xFF.

Lemma maxintr_range : 0 ≤ maxintr < 256.
Proof. unfold maxintr. change 0xFF with (Z.ones 8). rewrite Z.land_ones by lia. apply Z.mod_pos_bound. lia. Qed.

Lemma ioapicinit_loop n k1 o :
  (n ≤ 256)%nat →
  ∃ l, for_each (seq 0 n) (λ i,
         ioapicwrite (REG_TABLE + 2 * Z.of_nat i) (Z.lor INT_DISABLED (T_IRQ0 + Z.of_nat i)) ;;;
         ioapicwrite (REG_TABLE + 2 * Z.of_nat i + 1) 0) o k1 = Ok tt (io_ran l k1) o ∧
       ∀ i, 0 ≤ i < Z.of_nat n → routed (l ++ io_log (k_io k1)) i (Z.lor INT_DISABLED (T_IRQ0 + i)) 0.
Proof.
  intros Hn. induction n as [|n IH].
  { exists []. split; [unfold io_ran; rewrite with_log_nil; by destruct k1|lia]. }
  destruct (IH ltac:(lia)) as (l & E & H). rewrite seq_S, for_each_app, (bind_ok _ _ _ _ _ _ _ E). cbn [for_each Nat.add].
  eexists. rewrite bind_assoc, (bind_ok _ _ _ _ _ _ _ (ioapicwrite_eq _ _ _ _)), (bind_ok _ _ _ _ _ _ _ (ioapicwrite_eq _ _ _ _)).
  rewrite !io_ran_app. split; [reflexivity|]. intros i Hr. cbn [app].
  pose proof (lor_range INT_DISABLED (T_IRQ0 + Z.of_nat n) 32 ltac:(lia) ltac:(done) ltac:(unfold T_IRQ0; lia)) as Hb.
  apply routed_pair; [lia|lia|exact Hb|lia|]. destruct (decide (i = Z.of_nat n)) as [->|]; [done|]. apply H. lia.
Qed.

(** The I/O APIC: after ioapicinit and ioapicenable(irq, cpunum) the
    redirection table, as the device has it, sends interrupt [irq] as vector
    32 + [irq] to CPU [cpunum] and has every other interrupt of the device
    disabled. *)
Theorem ioapic_routes irq cpunum o :
  0 ≤ irq ≤ maxintr → 0 ≤ cpunum < 256 →
  ∃ l, (ioapicinit ioapicid ;;; ioapicenable irq cpunum) o k = Ok tt (io_ran l k) o ∧
    routed (l ++ io_log (k_io k)) irq (T_IRQ0 + irq) (Z.shiftl cpunum 24) ∧
    ∀ i, 0 ≤ i ≤ maxintr → i ≠ irq → routed (l ++ io_log (k_io k)) i (Z.lor INT_DISABLED (T_IRQ0 + i)) 0.
Proof using Hver Hv Hid Hi.
  intros Hirq Hcpu. pose proof maxintr_range as Hm. unfold ioapicinit. rewrite bind_assoc, (bind_ok _ _ _ _ _ _ _ (ioapicread_eq REG_VER o k)).
  rewrite Hver, (u32_small ver) by done. fold maxintr. set (k1 := io_ran _ k).
  rewrite bind_assoc, (bind_ok _ _ _ _ _ _ _ (ioapicread_eq REG_ID o k1)). cbv zeta. set (w := io_dev (k_io k1) _ _). assert (w = Z.shiftl ioapicid 24) as Ew by (by apply Hid).
  rewrite Ew. assert (0 ≤ Z.shiftl ioapicid 24 < 4294967296) as Hw by (rewrite Z.shiftl_mul_pow2 by lia; lia).
  rewrite u32_small, Z.shiftr_shiftl_l, Z.shiftl_0_r, Z.eqb_refl by lia. mrun.
  set (k2 := io_ran _ k1). destruct (ioapicinit_loop (S (Z.to_nat maxintr)) k2 o ltac:(lia)) as (l & E & H).
  rewrite (bind_ok _ _ _ _ _ _ _ E). unfold ioapicenable.
  rewrite (bind_ok _ _ _ _ _ _ _ (ioapicwrite_eq _ _ _ _)), ioapicwrite_eq. subst k2 k1. rewrite !io_ran_app in *. eexists. split; [reflexivity|].
  rewrite io_ran_log in H. rewrite <- !app_assoc in *. cbn [app] in *.
  assert (0 ≤ Z.shiftl cpunum 24 < 4294967296) by (rewrite Z.shiftl_mul_pow2 by lia; lia).
  split; [|intros i Hr Hne]; apply routed_pair; try (unfold T_IRQ0; lia).
  - by rewrite decide_True.
  - rewrite decide_False by done. apply H. lia.
Qed.
End Ioapic.

(** ** Reading the clock *)

(** The CMOS register chosen last. *)
Fixpoint chosen (log : list ioev) : option Z :=
  match log with
  | [] => None
  | Wr r v :: log' => if decide (r = Port8 CMOS_PORT) then Some v else chosen log'
  | _ :: log' => chosen log'
  end.

(** Two decimal digits in one byte. *)
Definition bcd (x : Z) : Z := x / 10 * 16 + x `mod` 10.

Lemma conv_bcd_bcd x : 0 ≤ x < 100 → conv_bcd (bcd x) = x.
Proof.
  intros Hx. unfold conv_bcd, bcd. rewrite Z.shiftr_div_pow2 by lia. change 0xf with (Z.ones 4). rewrite Z.land_ones by lia.
  change (2 ^ 4) with 16. assert ((x / 10 * 16 + x `mod` 10) / 16 = x / 10) as -> by dlia.
  assert ((x / 10 * 16 + x `mod` 10) `mod` 16 = x `mod` 10) as -> by dlia. unfold u32. dlia.
Qed.

Section Clock.
Context (k : kernel) (regs : Z → Z).
(** The chip answers with the register that was chosen. *)
Hypothesis (Hregs : ∀ log r, chosen log = Some r → io_dev (k_io k) log (Port8 CMOS_RETURN) = regs r).
Hypothesis (Hbyte : ∀ r, 0 ≤ regs r < 256).

Lemma cmos_read_eq r l o : 0 ≤ r < 256 → ∃ l', cmos_read r o (io_ran l k) = Ok (regs r) (io_ran l' k) o.
Proof.
  intros Hr. eexists. unfold cmos_read, microdelay. unfold bind, outb, inb, io_write, io_read, bind, ret, answer. cbn [ports_of set_ports kernel_ports].
  set (v := io_dev _ _ _). assert (v = regs r) as ->.
  { unfold v. apply Hregs. cbn. by rewrite u8_small by done. }
  rewrite u8_small by done. unfold io_ran, logged. cbn [k_io set_k_io io_log io_dev io_patience with_log]. rewrite app_comm_cons, app_comm_cons. reflexivity.
Qed.
Definition clock_date : rtcdate := Rtcdate (regs SECS) (regs MINS) (regs HOURS) (regs DAY) (regs MONTH) (regs YEAR).

Lemma fill_rtcdate_eq l o : ∃ l', fill_rtcdate o (io_ran l k) = Ok clock_date (io_ran l' k) o.
Proof.
  unfold fill_rtcdate.
  destruct (cmos_read_eq SECS l o ltac:(done)) as [l1 E1]. rewrite (bind_ok _ _ _ _ _ _ _ E1).
  destruct (cmos_read_eq MINS l1 o ltac:(done)) as [l2 E2]. rewrite (bind_ok _ _ _ _ _ _ _ E2).
  destruct (cmos_read_eq HOURS l2 o ltac:(done)) as [l3 E3]. rewrite (bind_ok _ _ _ _ _ _ _ E3).
  destruct (cmos_read_eq DAY l3 o ltac:(done)) as [l4 E4]. rewrite (bind_ok _ _ _ _ _ _ _ E4).
  destruct (cmos_read_eq MONTH l4 o ltac:(done)) as [l5 E5]. rewrite (bind_ok _ _ _ _ _ _ _ E5).
  destruct (cmos_read_eq YEAR l5 o ltac:(done)) as [l6 E6]. rewrite (bind_ok _ _ _ _ _ _ _ E6). by exists l6.
Qed.

(** cmostime reads a clock that is not being updated and keeps its time in
    decimal digits: it returns the date, with the year since 0. *)
Lemma cmostime_decimal t l o :
  Z.land (regs CMOS_STATA) CMOS_UIP = 0 → Z.land (regs CMOS_STATB) (Z.shiftl 1 2) = 0 →
  0 ≤ rt_second t < 100 → 0 ≤ rt_minute t < 100 → 0 ≤ rt_hour t < 100 → 0 ≤ rt_day t < 100 → 0 ≤ rt_month t < 100 → 2000 ≤ rt_year t < 2100 →
  clock_date = Rtcdate (bcd (rt_second t)) (bcd (rt_minute t)) (bcd (rt_hour t)) (bcd (rt_day t)) (bcd (rt_month t)) (bcd (rt_year t - 2000)) →
  ∃ l', cmostime o (io_ran l k) = Ok t (io_ran l' k) o.
Proof.
  intros HA HB H1 H2 H3 H4 H5 H6 E. unfold cmostime.
  destruct (cmos_read_eq CMOS_STATB l o ltac:(done)) as [l1 E1]. rewrite (bind_ok _ _ _ _ _ _ _ E1), HB. mrun. cbn [cmos_stable Z.eqb].
  destruct (fill_rtcdate_eq l1 o) as [l2 E2]. rewrite bind_assoc, (bind_ok _ _ _ _ _ _ _ E2).
  destruct (cmos_read_eq CMOS_STATA l2 o ltac:(done)) as [l3 E3]. rewrite bind_assoc, (bind_ok _ _ _ _ _ _ _ E3), HA. cbn [Z.eqb negb].
  destruct (fill_rtcdate_eq l3 o) as [l4 E4]. rewrite bind_assoc, (bind_ok _ _ _ _ _ _ _ E4), decide_True by done. mrun.
  exists l4. unfold ret. rewrite E. cbn [rt_second rt_minute rt_hour rt_day rt_month rt_year]. rewrite !conv_bcd_bcd by lia.
  rewrite u32_small by lia. replace (rt_year t - 2000 + 2000) with (rt_year t) by lia. by destruct t.
Qed.
End Clock.

(** ** Witnesses *)

(** An I/O APIC with 24 inputs and id 0. *)
Definition demo_ioapic : kernel :=
  set_k_io (Ports [] (λ log _, if decide (selected log = Some REG_VER) then 0x170011 else 0) 0) boot_kernel.

Lemma ioapic_routes_witness :
  ∃ l, (ioapicinit 0 ;;; ioapicenable IRQ_IDE 1) [] demo_ioapic = Ok tt (io_ran l demo_ioapic) [] ∧
    routed l IRQ_IDE 46 0x1000000 ∧ routed l IRQ_KBD 0x10021 0.
Proof.
  destruct (ioapic_routes demo_ioapic 0x170011 0) with (irq := IRQ_IDE) (cpunum := 1) (o := @nil (kernel → kernel)) as (l & E & H & H').
  - intros log Hs. cbn. by rewrite decide_True.
  - done.
  - intros log Hs. cbn. rewrite decide_False; [done|]. rewrite Hs. discriminate.
  - done.
  - done.
  - done.
  - exists l. cbn [demo_ioapic k_io set_k_io io_log] in H, H'. rewrite app_nil_r in H, H'. split_and!; [exact E|exact H|apply (H' IRQ_KBD); done].
Defined.
