(* ===== verification/Uart.v ===== *)
(** * The console hardware

    [uart.c], and [cgaputc] and [consputc] of [console.c] down to the registers:
    the serial line, the cursor registers of the CGA controller and the cells of
    its screen ([k_crt]).  [Cprintf] and [Console] describe output by the list of
    characters sent to [consputc]; here it is shown what those characters become on
    the serial line and on the screen.  The test of [panicked] is left out: a run of
    the model ends with the panic. *)

From S2P Require Import Prelude Defs Bytes Ports Spinlock Kernel Cprintf Apic.
Local Open Scope kernel_scope.

(** ** uart.c *)
Definition COM1 : Z := 0x3f8.

(** [for(i = 0; i < 128 && !(inb(COM1+5) & 0x20); i++) microdelay(10);] *)
Fixpoint uart_wait (n : nat) : KM unit :=
  match n with
  | O => ret tt
  | S n' =>
      let! s := inb (COM1 + 5) in
      if Z.land s 0x20 =? 0 then microdelay 10 ;;; uart_wait n' else ret tt
  end.

Definition uartputc (c : Z) : KM unit :=
  let! uart := gets k_uart in
  if uart =? 0 then ret tt
  else
    uart_wait 128 ;;;
    outb (COM1 + 0) c.

Definition uartinit : KM unit :=
  outb (COM1 + 2) 0 ;;;
  outb (COM1 + 3) 0x80 ;;;
  outb (COM1 + 0) (115200 / 9600) ;;;
  outb (COM1 + 1) 0 ;;;
  outb (COM1 + 3) 0x03 ;;;
  outb (COM1 + 4) 0 ;;;
  outb (COM1 + 1) 0x01 ;;;
  let! s := inb (COM1 + 5) in
  if s =? 0xFF then ret tt
  else
    modify (set_k_uart 1) ;;;
    let! _ := inb (COM1 + 2) in
    let! _ := inb (COM1 + 0) in
    ioapicenable IRQ_COM1 0 ;;;
    for_each (chars "xv6..." ++ [10]) uartputc.

Definition uartgetc : KM Z :=
  let! uart := gets k_uart in
  if uart =? 0 then ret (-1)
  else
    let! s := inb (COM1 + 5) in
    if Z.land s 0x01 =? 0 then ret (-1) else inb (COM1 + 0).

(** ** console.c: cgaputc, consputc *)
Definition CRTPORT : Z := 0x3d4.

(** [crt[i] = v] *)
Definition crt_set (i v : Z) : KM unit :=
  let! k := get in
  if (0 <=? i) && (i <? Z.of_nat (length (k_crt k))) then modify (set_k_crt (<[Z.to_nat i := v]> (k_crt k)))
  else undef "crt".

(** [memmove(crt, crt+80, sizeof(crt[0])*23*80)] *)
Definition crt_move : KM unit :=
  modify (λ k, set_k_crt (take (23 * 80) (drop 80 (k_crt k)) ++ drop (23 * 80) (k_crt k)) k).
(** [memset(crt+pos, 0, sizeof(crt[0])*(24*80 - pos))] *)
Definition crt_clear (pos : Z) : KM unit :=
  modify (λ k, set_k_crt (take (Z.to_nat pos) (k_crt k) ++ replicate (Z.to_nat (24 * 80 - pos)) 0 ++ drop (24 * 80) (k_crt k)) k).

(** The cursor position: [col + 80*row]. *)
Definition cga_getpos : KM Z :=
  outb CRTPORT 14 ;;;
  let! h := inb (CRTPORT + 1) in
  outb CRTPORT 15 ;;;
  let! l := inb (CRTPORT + 1) in
  ret (Z.lor (Z.shiftl h 8) l).
Definition cga_setpos (pos : Z) : KM unit :=
  outb CRTPORT 14 ;;;
  outb (CRTPORT + 1) (Z.shiftr pos 8) ;;;
  outb CRTPORT 15 ;;;
  outb (CRTPORT + 1) pos.

(** The character, and the position after it. *)
Definition cga_put (c pos : Z) : KM Z :=
  if c =? 10 then ret (pos + (80 - pos `mod` 80))
  else if c =? BACKSPACE then ret (if 0 <? pos then pos - 1 else pos)
  else crt_set pos (Z.lor (Z.land c 0xff) 0x0700) ;;; ret (pos + 1).

Definition cgaputc (c : Z) : KM unit :=
  let! pos := cga_getpos in
  let! pos := cga_put c pos in
  if (pos <? 0) || (25 * 80 <? pos) then panic "pos under/overflow"
  else
    let! pos :=
      (if 24 <=? pos / 80 then crt_move ;;; crt_clear (pos - 80) ;;; ret (pos - 80) else ret pos) in
    cga_setpos pos ;;;
    crt_set pos (Z.lor 32 0x0700).

Definition hw_consputc (c : Z) : KM unit :=
  (if c =? BACKSPACE then uartputc 8 ;;; uartputc 32 ;;; uartputc 8 else uartputc c) ;;;
  cgaputc c.

(** ** The devices *)

(** The CGA controller: the index register and the two cursor registers. *)
Record crtc := Crtc { cr_index : Z; cr_hi : Z; cr_lo : Z }.
Definition crtc_step (e : ioev) (c : crtc) : crtc :=
  match e with
  | Wr (Port8 p) v =>
      if p =? 0x3d4 then Crtc v (cr_hi c) (cr_lo c)
      else if p =? 0x3d5 then
        if cr_index c =? 14 then Crtc (cr_index c) v (cr_lo c)
        else if cr_index c =? 15 then Crtc (cr_index c) (cr_hi c) v else c
      else c
  | _ => c
  end.
Definition crtc_of (c0 : crtc) (log : list ioev) : crtc := foldr crtc_step c0 log.
Record speaks_crtc (c0 : crtc) (p : ports) : Prop := {
  sc_hi : ∀ log, cr_index (crtc_of c0 log) = 14 → io_dev p log (Port8 0x3d5) = cr_hi (crtc_of c0 log);
  sc_lo : ∀ log, cr_index (crtc_of c0 log) = 15 → io_dev p log (Port8 0x3d5) = cr_lo (crtc_of c0 log)
}.

(** The serial line: the bytes written to the data register, unless the register
    is the low byte of the baud rate (bit 7 of the line control register). *)
Fixpoint uart_dlab (log : list ioev) : bool :=
  match log with
  | [] => false
  | Wr (Port8 p) v :: log' => if p =? COM1 + 3 then Z.testbit v 7 else uart_dlab log'
  | _ :: log' => uart_dlab log'
  end.
Fixpoint uart_sent (log : list ioev) : list Z :=
  match log with
  | [] => []
  | Wr (Port8 p) v :: log' => if (p =? COM1) && negb (uart_dlab log') then uart_sent log' ++ [v] else uart_sent log'
  | _ :: log' => uart_sent log'
  end.

(** The looks at the line status before each byte that is sent, and those since the
    last byte, newest first. *)
Fixpoint uart_looks (log : list ioev) : list Z * list (list Z) :=
  match log with
  | [] => ([], [])
  | e :: log' =>
      let looks := uart_looks log' in
      match e with
      | Rd (Port8 p) v => if p =? COM1 + 5 then (v :: looks.1, looks.2) else looks
      | Wr (Port8 p) _ => if p =? COM1 then ([], looks.1 :: looks.2) else looks
      | _ => looks
      end
  end.

(** The transmitter can take a byte. *)
Definition thr_empty (v : Z) : bool := negb (Z.land (u8 v) 0x20 =? 0).
(** Looking until the transmitter is ready, but not more than [n] times. *)
Definition patient (n : nat) (looks : list Z) : Prop :=
  (∃ v old, looks = v :: old ∧ thr_empty v = true ∧ Forall (λ w, thr_empty w = false) old ∧ (length looks ≤ n)%nat) ∨
  (length looks = n ∧ Forall (λ w, thr_empty w = false) looks).

(** ** A terminal

    The text on the screen, from the top left corner to the cursor, 80 to a row:
    [None] for a cell that was skipped. *)
Definition term_put (text : list (option Z)) (c : Z) : list (option Z) :=
  let t := if c =? 10 then text ++ replicate (80 - length text `mod` 80) None
           else if c =? BACKSPACE then take (length text - 1) text
           else text ++ [Some c] in
  if (24 * 80 <=? length t)%nat then drop 80 t else t.

(** A character on the serial line. *)
Definition uart_bytes (c : Z) : list Z := if c =? BACKSPACE then [8; 32; 8] else [u8 c].

(** White on black. *)
Definition cell (c : Z) : Z := Z.lor (Z.land c 0xff) 0x0700.

(** The screen shows the text. *)
Record shows (c0 : crtc) (text : list (option Z)) (k : kernel) : Prop := {
  sh_dev : speaks_crtc c0 (k_io k);
  sh_hi : cr_hi (crtc_of c0 (io_log (k_io k))) = Z.of_nat (length text) / 256;
  sh_lo : cr_lo (crtc_of c0 (io_log (k_io k))) = Z.of_nat (length text) `mod` 256;
  sh_fits : (length text < 24 * 80)%nat;
  sh_crt : length (k_crt k) = 2000%nat;
  sh_cells : ∀ i c, text !! i = Some (Some c) → k_crt k !! i = Some (cell c)
}.

Lemma uart_looks_app a b :
  (uart_looks b).1 = [] → uart_looks (a ++ b) = ((uart_looks a).1, (uart_looks a).2 ++ (uart_looks b).2).
Proof.
  intros Hb. induction a as [|e a IH]; [cbn; destruct (uart_looks b); cbn in *; congruence|].
  cbn [app uart_looks]. rewrite IH. destruct e as [[] v|[] v]; cbn; try done; by destruct (_ =? _).
Qed.

(** ** cgaputc *)

(** The cursor, as the code reads it. *)
Lemma cga_getpos_eq c0 text o k :
  shows c0 text k →
  ∃ l, cga_getpos o k = Ok (Z.of_nat (length text)) (io_ran l k) o ∧
    uart_looks l = ([], []) ∧
    ∀ log, uart_sent (l ++ log) = uart_sent log ∧ uart_dlab (l ++ log) = uart_dlab log.
Proof.
  intros [[Hhi Hlo] H1 H2 Hf _ _]. set (log := io_log (k_io k)) in *. set (n := Z.of_nat (length text)) in *. assert (0 ≤ n < 1920) by (unfold n; lia).
  set (l1 := [Wr (Port8 0x3d4) 14]). set (l2 := Rd (Port8 0x3d5) (n / 256) :: l1). set (l3 := Wr (Port8 0x3d4) 15 :: l2). set (l4 := Rd (Port8 0x3d5) (n `mod` 256) :: l3).
  exists l4. split; [|done]. unfold cga_getpos.
  rewrite (bind_ok _ _ _ _ _ _ _ (outb_ran1 CRTPORT 14 o k)). change (io_ran [_] k) with (io_ran l1 k).
  rewrite (bind_ok _ _ _ _ _ _ _ (inb_ran (CRTPORT + 1) o (io_ran l1 k))). rewrite io_ran_dev, io_ran_log. fold log.
  change (CRTPORT + 1) with 0x3d5. rewrite (Hhi (l1 ++ log) eq_refl). change (cr_hi (crtc_of c0 (l1 ++ log))) with (cr_hi (crtc_of c0 log)). rewrite H1.
  rewrite io_ran_app. change ([_] ++ l1) with l2.
  rewrite (bind_ok _ _ _ _ _ _ _ (outb_ran CRTPORT 15 o l2 k)). change (_ :: l2) with l3.
  rewrite (bind_ok _ _ _ _ _ _ _ (inb_ran 0x3d5 o (io_ran l3 k))), io_ran_dev, io_ran_log. fold log.
  rewrite (Hlo (l3 ++ log) eq_refl). change (cr_lo (crtc_of c0 (l3 ++ log))) with (cr_lo (crtc_of c0 log)). rewrite H2, io_ran_app. change ([_] ++ l3) with l4.
  rewrite !u8_small by dlia. rewrite Z.shiftl_mul_pow2, (lor_add 8) by (lia || change (2 ^ 8) with 256; dlia).
  change (2 ^ 8) with 256. by replace (n / 256 * 256 + n `mod` 256) with n by dlia.
Qed.

(** The cursor, as the code writes it, and the blank under it. *)
Lemma cga_setpos_eq c0 pos o k :
  0 ≤ pos < 2000 → length (k_crt k) = 2000%nat →
  ∃ l, (cga_setpos pos ;;; crt_set pos (Z.lor 32 0x0700)) o k = Ok tt (set_k_crt (<[Z.to_nat pos := Z.lor 32 0x0700]> (k_crt k)) (io_ran l k)) o ∧
    uart_looks l = ([], []) ∧
    ∀ log, crtc_of c0 (l ++ log) = Crtc 15 (pos / 256) (pos `mod` 256) ∧ uart_sent (l ++ log) = uart_sent log ∧ uart_dlab (l ++ log) = uart_dlab log.
Proof.
  intros Hp Hl. eexists [_; _; _; _]. split.
  - unfold cga_setpos. rewrite bind_assoc, (bind_ok _ _ _ _ _ _ _ (outb_ran1 CRTPORT 14 o k)).
    do 2 rewrite bind_assoc, (bind_ok _ _ _ _ _ _ _ (outb_ran _ _ _ _ _)). rewrite (bind_ok _ _ _ _ _ _ _ (outb_ran _ _ _ _ _)).
    unfold crt_set. mrun. change (k_crt (io_ran ?l k)) with (k_crt k). rewrite Hl, (proj2 (Z.leb_le _ _)), (proj2 (Z.ltb_lt _ _)) by lia. reflexivity.
  - split; [done|]. intros log. split; [|done]. cbn [app crtc_of foldr crtc_step]. change (CRTPORT + 1 =? 0x3d4) with false. change (CRTPORT =? 0x3d4) with true.
    change (CRTPORT + 1 =? 0x3d5) with true. cbn [cr_index cr_hi cr_lo]. change (u8 15 =? 14) with false. change (u8 15 =? 15) with true.
    change (u8 14 =? 14) with true. cbv match. cbn [cr_index cr_hi cr_lo]. change (u8 15) with 15.
    rewrite Z.shiftr_div_pow2 by lia. change (2 ^ 8) with 256. rewrite u8_small by dlia. done.
Qed.

(** The cells before the cursor. *)
Definition cells_show (text : list (option Z)) (cells : list Z) : Prop :=
  length cells = 2000%nat ∧ ∀ i c, text !! i = Some (Some c) → cells !! i = Some (cell c).

(** The text when the character is put, before the screen scrolls. *)
Definition term_char (text : list (option Z)) (c : Z) : list (option Z) :=
  if c =? 10 then text ++ replicate (80 - length text `mod` 80) None
  else if c =? BACKSPACE then take (length text - 1) text
  else text ++ [Some c].

Lemma term_char_length text c : (length text < 1920)%nat → (length (term_char text c) ≤ 1920)%nat.
Proof.
  intros H. unfold term_char. repeat case_match; rewrite ?length_app, ?length_replicate, ?length_take; cbn [length]; [|lia|lia].
  pose proof (Nat.div_mod_eq (length text) 80). pose proof (Nat.mod_upper_bound (length text) 80 ltac:(lia)). lia.
Qed.

Lemma cga_put_eq text c o k :
  cells_show text (k_crt k) → (length text < 1920)%nat →
  ∃ cells, cga_put c (Z.of_nat (length text)) o k = Ok (Z.of_nat (length (term_char text c))) (set_k_crt cells k) o ∧
    cells_show (term_char text c) cells.
Proof.
  intros [Hl Hc] Hn. set (pos := Z.of_nat (length text)). unfold cga_put, term_char. destruct (c =? 10); [|destruct (c =? BACKSPACE)].
  - exists (k_crt k). split.
    + unfold ret. rewrite length_app, length_replicate. unfold pos. rewrite <- (Nat2Z.inj_mod _ 80).
      replace (Z.of_nat (length text + (80 - length text `mod` 80))) with (Z.of_nat (length text) + (80 - Z.of_nat (length text `mod` 80)))
        by (pose proof (Nat.mod_upper_bound (length text) 80 ltac:(lia)); lia). by destruct k.
    + split; [done|]. intros i x Hi. apply Hc. apply lookup_app_Some in Hi as [Hi|[_ Hi]]; [done|]. by apply lookup_replicate in Hi as [? _].
  - exists (k_crt k). split.
    + unfold ret. rewrite length_take. replace (Z.of_nat ((length text - 1) `min` length text)) with (if 0 <? pos then pos - 1 else pos); [by destruct k|].
      unfold pos. case_test; to_prop; lia.
    + split; [done|]. intros i x Hi. apply Hc. by apply lookup_take_Some in Hi as [Hi _].
  - exists (<[length text := cell c]> (k_crt k)). split.
    + unfold crt_set. mrun. rewrite Hl, (proj2 (Z.leb_le _ _)), (proj2 (Z.ltb_lt _ _)) by (unfold pos; lia). cbn [andb]. mrun.
      unfold pos. rewrite Nat2Z.id. unfold ret, modify. rewrite length_app. cbn [length]. f_equal. lia.
    + split; [by rewrite length_insert|]. intros i x Hi. apply lookup_snoc_Some in Hi as [[Hi1 Hi]|[-> Hi]].
      * rewrite list_lookup_insert_ne by lia. by apply Hc.
      * injection Hi as ->. apply list_lookup_insert_eq. lia.
Qed.

Lemma cga_scroll t o k :
  cells_show t (k_crt k) → (length t ≤ 1920)%nat →
  let pos := Z.of_nat (length t) in
  let t' := if (24 * 80 <=? length t)%nat then drop 80 t else t in
  ∃ cells, (if 24 <=? pos / 80 then crt_move ;;; crt_clear (pos - 80) ;;; ret (pos - 80) else ret pos) o k
    = Ok (Z.of_nat (length t')) (set_k_crt cells k) o ∧ cells_show t' cells ∧ (length t' < 1920)%nat.
Proof.
  intros [Hl Hc] Hn pos t'. unfold t'. destruct (Nat.leb_spec (24 * 80) (length t)) as [H|H].
  - assert (pos = 1920) as Ep by (unfold pos; lia). rewrite Ep. change (24 <=? 1920 / 80) with true. cbv match.
    exists (take 1840 (drop 80 (k_crt k)) ++ replicate 80 0 ++ drop 1920 (k_crt k)). split_and!.
    + unfold crt_move, crt_clear. mrun. kproj. unfold ret, modify. rewrite length_drop.
      replace (Z.of_nat (length t - 80)) with (1920 - 80) by lia. change (Z.to_nat (1920 - 80)) with 1840%nat.
      change (Z.to_nat (24 * 80 - (1920 - 80))) with 80%nat. change (23 * 80)%nat with 1840%nat. change (24 * 80)%nat with 1920%nat.
      rewrite take_app_le, take_ge by (rewrite length_take, length_drop; lia).
      rewrite drop_app_ge, length_take, length_drop, Hl, drop_drop by (rewrite length_take, length_drop; lia).
      change (1840 + (1920 - 1840 `min` (2000 - 80)))%nat with 1920%nat. by destruct k.
    + split; [rewrite !length_app, length_take, !length_drop, length_replicate; lia|].
      intros i x Hi. rewrite lookup_drop in Hi. pose proof (lookup_lt_Some _ _ _ Hi).
      rewrite lookup_app_l, lookup_take_lt, lookup_drop by (rewrite ?length_take, ?length_drop; lia). by apply Hc.
    + rewrite length_drop. lia.
  - assert (pos / 80 < 24) as Hd by (unfold pos; dlia). rewrite (proj2 (Z.leb_gt _ _)) by lia.
    exists (k_crt k). split_and!; [by destruct k|by split|lia].
Qed.

Lemma cgaputc_shows c0 text c o k :
  shows c0 text k →
  ∃ k' l, cgaputc c o k = Ok tt k' o ∧ shows c0 (term_put text c) k' ∧ k_uart k' = k_uart k ∧ k_io k' = with_log l (k_io k) ∧ uart_looks l = ([], []) ∧
    (∀ log, uart_sent (l ++ log) = uart_sent log ∧ uart_dlab (l ++ log) = uart_dlab log).
Proof.
  intros Hs. pose proof Hs as [Hdev H1 H2 Hn Hl Hc].
  unfold cgaputc. destruct (cga_getpos_eq c0 text o k Hs) as (l & E & Hlk & Hlog). rewrite (bind_ok _ _ _ _ _ _ _ E). clear E.
  destruct (cga_put_eq text c o (io_ran l k)) as (cells & E & Hc1); [by split|lia|]. rewrite (bind_ok _ _ _ _ _ _ _ E). clear E.
  set (t := term_char text c) in *. assert (length t ≤ 1920)%nat as Ht by (apply term_char_length; lia).
  rewrite (proj2 (Z.ltb_ge _ _)), (proj2 (Z.ltb_ge (25 * 80) _)) by lia. cbn [orb].
  destruct (cga_scroll t o (set_k_crt cells (io_ran l k)) Hc1 Ht) as (cells' & E & [Hl2 Hc2] & Ht'). rewrite (bind_ok _ _ _ _ _ _ _ E). clear E.
  change (if (24 * 80 <=? length t)%nat then drop 80 t else t) with (term_put text c) in *. set (t' := term_put text c) in *.
  destruct (cga_setpos_eq c0 (Z.of_nat (length t')) o (set_k_crt cells' (set_k_crt cells (io_ran l k)))) as (l' & E & Hlk' & Hw); [lia|done|].
  rewrite E. eexists _, (l' ++ l). split; [reflexivity|]. split_and!; [|reflexivity|by unfold with_log; cbn; rewrite <- app_assoc| |].
  - destruct (Hw (l ++ io_log (k_io k))) as (Hcr & _). split.
    + destruct Hdev as [D1 D2]. by split.
    + change (io_log (k_io _)) with (l' ++ l ++ io_log (k_io k)). by rewrite Hcr.
    + change (io_log (k_io _)) with (l' ++ l ++ io_log (k_io k)). by rewrite Hcr.
    + lia.
    + cbn. by rewrite length_insert.
    + intros i x Hi. cbn. rewrite list_lookup_insert_ne by (apply lookup_lt_Some in Hi; lia). by apply Hc2.
  - by rewrite uart_looks_app, Hlk, Hlk' by (by rewrite Hlk).
  - intros log. rewrite <- app_assoc. destruct (Hw (l ++ log)) as (_ & -> & ->). apply Hlog.
Qed.

(** ** uartputc *)

Lemma uart_wait_ran n o k :
  ∃ l, uart_wait n o k = Ok tt (io_ran l k) o ∧ Forall (λ e, ∃ v, e = Rd (Port8 (COM1 + 5)) v) l ∧
    (uart_looks l).2 = [] ∧ patient n (uart_looks l).1.
Proof.
  revert k. induction n as [|n IH]; intros k; cbn [uart_wait].
  - exists []. split; [unfold io_ran; rewrite with_log_nil; by destruct k|]. split_and!; [done|done|]. right. done.
  - rewrite (bind_ok _ _ _ _ _ _ _ (inb_ran (COM1 + 5) o k)). cbv zeta. set (v := io_dev _ _ _).
    set (e := Rd (Port8 (COM1 + 5)) v). fold (thr_empty v). destruct (Z.land (u8 v) 0x20 =? 0) eqn:Ev.
    + unfold microdelay. mrun. destruct (IH (io_ran [e] k)) as (l & E & Hl & Hd & Hp). rewrite E, io_ran_app.
      assert (thr_empty v = false) as Hv by (unfold thr_empty; by rewrite Ev).
      assert (∀ l0, Forall (λ e, ∃ v, e = Rd (Port8 (COM1 + 5)) v) l0 → uart_looks (l0 ++ [e]) = ((uart_looks l0).1 ++ [v], (uart_looks l0).2)) as Hlast.
      { clear. induction 1 as [|x l0 [w ->] _ IH0]; [done|]. cbn [app uart_looks]. rewrite IH0. done. }
      eexists. split; [reflexivity|]. rewrite Hlast by done. cbn [fst snd]. split_and!; [apply Forall_app; split; [done|repeat econstructor]|done|].
      destruct Hp as [(w & old & -> & Hw & Ho & Hn)|[Hn Ho]].
      * left. exists w, (old ++ [v]). split_and!; [done|done|apply Forall_app; split; [done|by constructor]|].
        cbn [length app] in *. rewrite length_app. cbn [length]. lia.
      * right. split; [rewrite length_app; cbn [length]; lia|]. apply Forall_app. split; [done|by constructor].
    + exists [e]. split; [done|]. change (uart_looks [e]) with ([v], @nil (list Z)). cbn [fst snd]. split_and!; [repeat econstructor|done|].
      left. exists v, []. split_and!; [done|unfold thr_empty; by rewrite Ev|done|cbn [length]; lia].
Qed.

Lemma status_reads l log :
  Forall (λ e, ∃ v, e = Rd (Port8 (COM1 + 5)) v) l →
  uart_sent (l ++ log) = uart_sent log ∧ uart_dlab (l ++ log) = uart_dlab log ∧ ∀ c0, crtc_of c0 (l ++ log) = crtc_of c0 log.
Proof. induction 1 as [|e l [v ->] _ IH]; [done|]. exact IH. Qed.

(** A byte is sent after looking at the status, at most 128 times. *)
Lemma uartputc_sends c o k :
  k_uart k ≠ 0 → uart_dlab (io_log (k_io k)) = false →
  ∃ l looks, uartputc c o k = Ok tt (io_ran l k) o ∧ uart_sent (l ++ io_log (k_io k)) = uart_sent (io_log (k_io k)) ++ [u8 c] ∧
    uart_dlab (l ++ io_log (k_io k)) = false ∧ uart_looks l = ([], [looks]) ∧ patient 128 looks ∧
    ∀ c0, crtc_of c0 (l ++ io_log (k_io k)) = crtc_of c0 (io_log (k_io k)).
Proof.
  intros Hu Hd. unfold uartputc. mrun. rewrite (proj2 (Z.eqb_neq _ _) Hu).
  destruct (uart_wait_ran 128 o k) as (l & E & Hl & Hl2 & Hp). rewrite (bind_ok _ _ _ _ _ _ _ E), outb_ran.
  destruct (status_reads l (io_log (k_io k)) Hl) as (H1 & H2 & H3). eexists _, _. split; [reflexivity|]. cbn [app uart_sent uart_dlab uart_looks].
  change (COM1 + 0 =? COM1) with true. change (COM1 + 0 =? COM1 + 3) with false. cbv match. rewrite H2, Hd. cbn [negb andb]. rewrite H1, Hl2.
  split_and!; [done|done|done|exact Hp|].
  intros c0. cbn [crtc_of foldr crtc_step]. change (COM1 + 0 =? 0x3d4) with false. change (COM1 + 0 =? 0x3d5) with false. cbv match. apply H3.
Qed.

(** ** Output to the console *)

(** The hardware shows the text and has sent the bytes. *)
Record sent (c0 : crtc) (text : list (option Z)) (bytes : list Z) (k : kernel) : Prop := {
  se_shows : shows c0 text k;
  se_dlab : uart_dlab (io_log (k_io k)) = false;
  se_bytes : uart_sent (io_log (k_io k)) = bytes
}.

(** From [k] to [k'], each byte was sent after looking at the status of the line
    until it was ready, at most 128 times. *)
Definition paced (k k' : kernel) : Prop :=
  k_uart k' = k_uart k ∧
  ∃ new, io_log (k_io k') = new ++ io_log (k_io k) ∧ (uart_looks new).1 = [] ∧ Forall (patient 128) (uart_looks new).2.

Lemma paced_refl k : paced k k.
Proof. split; [done|]. by exists []. Qed.
Lemma paced_trans k k1 k2 : paced k k1 → paced k1 k2 → paced k k2.
Proof.
  intros (U1 & n1 & E1 & P1 & F1) (U2 & n2 & E2 & P2 & F2). split; [by rewrite U2|]. exists (n2 ++ n1).
  rewrite E2, E1, app_assoc, uart_looks_app by done. split_and!; [done|done|]. by apply Forall_app.
Qed.

(** What goes out on the line, if there is one. *)
Definition on_line (k : kernel) (bytes : list Z) : list Z := if k_uart k =? 0 then [] else bytes.

Lemma on_line_app k a b : on_line k (a ++ b) = on_line k a ++ on_line k b.
Proof. unfold on_line. by destruct (_ =? 0). Qed.

Lemma sent_uart c0 text bytes c o k :
  sent c0 text bytes k →
  ∃ k', uartputc c o k = Ok tt k' o ∧ sent c0 text (bytes ++ on_line k [u8 c]) k' ∧ paced k k'.
Proof.
  intros [[D1 D2 D3 D4 D5 D6] Hd <-]. unfold on_line. destruct (Z.eqb_spec (k_uart k) 0) as [E0|Hu].
  - exists k. rewrite app_nil_r. split; [unfold uartputc; mrun; by rewrite E0|]. split; [by split|apply paced_refl].
  - destruct (uartputc_sends c o k Hu Hd) as (l & looks & E & H1 & H2 & Hl & Hp & H3).
    exists (io_ran l k). split; [done|]. split.
    + split; [|exact H2|exact H1].
      split; [destruct D1; by split|rewrite io_ran_log, H3; done|rewrite io_ran_log, H3; done|done..].
    + split; [done|]. exists l. rewrite io_ran_log, Hl. split_and!; [done|done|by constructor].
Qed.

Lemma hw_consputc_sends c0 text bytes c o k :
  sent c0 text bytes k →
  ∃ k', hw_consputc c o k = Ok tt k' o ∧ sent c0 (term_put text c) (bytes ++ on_line k (uart_bytes c)) k' ∧ paced k k'.
Proof.
  intros Hs. unfold hw_consputc, uart_bytes.
  assert (∃ k1, (if c =? BACKSPACE then uartputc 8 ;;; uartputc 32 ;;; uartputc 8 else uartputc c) o k = Ok tt k1 o ∧
    sent c0 text (bytes ++ on_line k (if c =? BACKSPACE then [8; 32; 8] else [u8 c])) k1 ∧ paced k k1) as (k1 & E1 & H1 & P1).
  { destruct (c =? BACKSPACE); [|by apply sent_uart].
    destruct (sent_uart _ _ _ 8 o k Hs) as (k1 & E1 & H1 & P1). destruct (sent_uart _ _ _ 32 o k1 H1) as (k2 & E2 & H2 & P2).
    destruct (sent_uart _ _ _ 8 o k2 H2) as (k3 & E3 & H3 & P3). exists k3.
    rewrite (bind_ok _ _ _ _ _ _ _ E1), (bind_ok _ _ _ _ _ _ _ E2). split; [exact E3|].
    split; [|by eapply paced_trans; [|eapply paced_trans]].
    change [8; 32; 8] with ([u8 8] ++ [u8 32] ++ [u8 8]). rewrite !on_line_app.
    unfold on_line in *. rewrite (proj1 P2), (proj1 P1) in H3. by rewrite <- !app_assoc in H3. }
  rewrite (bind_ok _ _ _ _ _ _ _ E1). destruct H1 as [Hsh Hd Hb].
  destruct (cgaputc_shows c0 text c o k1 Hsh) as (k2 & l & E2 & Hsh2 & Hu2 & Hio & Hlk & Hlog). exists k2. split; [exact E2|].
  destruct (Hlog (io_log (k_io k1))) as [L1 L2]. split.
  - split; [done|rewrite Hio; cbn; by rewrite L2|rewrite Hio; cbn; by rewrite L1].
  - apply (paced_trans _ k1); [done|]. split; [done|]. exists l. rewrite Hio, Hlk. done.
Qed.

(** [C21] What the characters of the console become.  For any characters, the driver
    never panics.  If there is a serial line, each character goes out on it
    (backspace as BS, space, BS), each byte after looking at the line's status until
    it is ready to send, but at most 128 times; if there is none, nothing is sent.
    The screen shows what a terminal of 24 rows of 80 would show: characters fill
    the row and wrap, newline goes to the next row, backspace steps back, and when
    the last row is full everything moves up one row.  The characters are those
    that consputc of the rest of the development records. *)
Theorem console_output c0 text bytes l o k k2 :
  sent c0 text bytes k →
  ∃ k', for_each l hw_consputc o k = Ok tt k' o ∧
    sent c0 (foldl term_put text l) (bytes ++ on_line k (l ≫= uart_bytes)) k' ∧ paced k k' ∧
    for_each l consputc o k2 = Ok tt (set_k_output (rev l ++ k_output k2) k2) o.
Proof.
  intros Hs. assert (∃ k', for_each l hw_consputc o k = Ok tt k' o ∧ sent c0 (foldl term_put text l) (bytes ++ on_line k (l ≫= uart_bytes)) k' ∧ paced k k') as (k' & E & H & P).
  { revert text bytes k Hs. induction l as [|c l IH]; intros text bytes k Hs; cbn [for_each foldl].
    - exists k. split; [done|]. split; [|apply paced_refl]. unfold on_line. destruct (_ =? 0); by rewrite app_nil_r.
    - destruct (hw_consputc_sends c0 text bytes c o k Hs) as (k1 & E1 & H1 & P1). rewrite (bind_ok _ _ _ _ _ _ _ E1).
      destruct (IH _ _ _ H1) as (k' & E & H & P). exists k'. split; [exact E|]. split; [|by eapply paced_trans].
      rewrite bind_cons, on_line_app, app_assoc. unfold on_line in *. by rewrite (proj1 P1) in H. }
  exists k'. split_and!; [exact E|exact H|exact P|apply for_each_consputc].
Qed.

(** ** A concrete screen *)

Definition demo_crtc_dev (log : list ioev) (r : ioreg) : Z :=
  let c := crtc_of (Crtc 0 0 0) log in
  match r with
  | Port8 p => if p =? 0x3d5 then (if cr_index c =? 14 then cr_hi c else cr_lo c) else 0
  | _ => 0
  end.
Definition demo_console : kernel := set_k_uart 1 (set_k_io (Ports [] demo_crtc_dev 0) boot_kernel).

Lemma demo_sent : sent (Crtc 0 0 0) [] [] demo_console.
Proof.
  split; [|done..]. split; [|done|done|cbn; lia|done|done].
  split; intros log H; cbn [demo_console k_io set_k_uart set_k_io io_dev demo_crtc_dev]; change (0x3d5 =? 0x3d5) with true; cbv match; by rewrite H.
Qed.

(** The line is never ready, so that each byte goes out after 128 looks. *)
Lemma console_output_witness :
  ∃ k', for_each (chars "ok" ++ [10]) hw_consputc [] demo_console = Ok tt k' [] ∧
    sent (Crtc 0 0 0) ([Some 111; Some 107] ++ replicate 78 None) (chars "ok" ++ [10]) k' ∧ paced demo_console k'.
Proof.
  destruct (console_output (Crtc 0 0 0) [] [] (chars "ok" ++ [10]) [] demo_console demo_console demo_sent) as (k' & H1 & H2 & H3 & _).
  exists k'. split; [exact H1|]. split; [exact H2|exact H3].
Defined.
