(* ===== verification/Mp.v ===== *)
(** * The multiprocessor tables

    [mp.c] with the structures of [mp.h]: the search for the floating pointer
    structure that the BIOS leaves in memory, the check of the configuration
    table, and the walk over its entries, which finds the processors, the I/O APIC
    and the local APIC.  Memory is by kernel virtual address.  The walk has fuel,
    one unit for each turn of its loop; [None] means that the fuel is used up. *)

From S2P Require Import Prelude Defs Bytes Ports Spinlock CString Kernel Cprintf Apic.
Local Open Scope kernel_scope.

(** ** mp.h: offsets and entry types *)
Definition MP_SIZE : Z := 16.
Definition mp_physaddr (m : memory) (p : Z) : Z := ld32 m (p + 4).
Definition mp_imcrp (m : memory) (p : Z) : Z := ld8 m (p + 12).
Definition MPCONF_SIZE : Z := 44.
Definition conf_length (m : memory) (c : Z) : Z := ld8 m (c + 4) + 256 * ld8 m (c + 5).
Definition conf_version (m : memory) (c : Z) : Z := ld8 m (c + 6).
Definition conf_lapicaddr (m : memory) (c : Z) : Z := ld32 m (c + 36).
Definition MPPROC_SIZE : Z := 20.
Definition MPIOAPIC_SIZE : Z := 8.
Definition MPPROC : Z := 0x00.
Definition MPBUS : Z := 0x01.
Definition MPIOAPIC : Z := 0x02.
Definition MPIOINTR : Z := 0x03.
Definition MPLINTR : Z := 0x04.

(** ** mp.c *)

(** [n] bytes at [p]. *)
Definition bytes_at (m : memory) (p : Z) (n : nat) : list Z := (λ i, ld8 m (p + Z.of_nat i)) <$> seq 0 n.

Definition sum (m : memory) (addr len : Z) : Z := u8 (foldl Z.add 0 (bytes_at m addr (Z.to_nat len))).

(** The structures at [p], [p + 16], and so on, [n] of them. *)
Fixpoint mpsearch_from (m : memory) (p : Z) (n : nat) : option Z :=
  match n with
  | O => None
  | S n' =>
      if bool_decide (bytes_at m p 4 = chars "_MP_") && (sum m p MP_SIZE =? 0) then Some p
      else mpsearch_from m (p + MP_SIZE) n'
  end.
Definition mpsearch1 (m : memory) (a len : Z) : option Z :=
  mpsearch_from m (P2V a) (Z.to_nat ((len + (MP_SIZE - 1)) / MP_SIZE)).

Definition mpsearch (m : memory) : option Z :=
  let bda := P2V 0x400 in
  let p := Z.shiftl (Z.lor (Z.shiftl (ld8 m (bda + 0x0F)) 8) (ld8 m (bda + 0x0E))) 4 in
  let first :=
    if negb (p =? 0) then mpsearch1 m p 1024
    else mpsearch1 m (u32 (Z.lor (Z.shiftl (ld8 m (bda + 0x14)) 8) (ld8 m (bda + 0x13)) * 1024 - 1024)) 1024 in
  match first with
  | Some mp => Some mp
  | None => mpsearch1 m 0xF0000 0x10000
  end.

(** The structure and its configuration table. *)
Definition mpconfig (m : memory) : option (Z * Z) :=
  match mpsearch m with
  | None => None
  | Some mp =>
      if mp_physaddr m mp =? 0 then None
      else
        let conf := P2V (mp_physaddr m mp) in
        if negb (bool_decide (bytes_at m conf 4 = chars "PCMP")) then None
        else if negb (conf_version m conf =? 1) && negb (conf_version m conf =? 4) then None
        else if negb (sum m conf (conf_length m conf) =? 0) then None
        else Some (mp, conf)
  end.

(** What the walk finds: the [apicid] of the entries of [cpus], and [ioapicid]. *)
Record mpinfo := Mpinfo { mi_cpus : list Z; mi_ioapicid : Z }.
Definition add_cpu (apicid : Z) (i : mpinfo) : mpinfo :=
  if (length (mi_cpus i) <? NCPU)%nat then Mpinfo (mi_cpus i ++ [apicid]) (mi_ioapicid i) else i.

(** The loop over the entries; the second component is [ismp].  The [break] of
    the default case leaves the switch, not the loop. *)
Fixpoint mp_walk (fuel : nat) (m : memory) (p e : Z) (i : mpinfo) (ismp : bool) : option (mpinfo * bool) :=
  if p <? e then
    match fuel with
    | O => None
    | S fuel' =>
        let t := ld8 m p in
        if t =? MPPROC then mp_walk fuel' m (p + MPPROC_SIZE) e (add_cpu (ld8 m (p + 1)) i) ismp
        else if t =? MPIOAPIC then mp_walk fuel' m (p + MPIOAPIC_SIZE) e (Mpinfo (mi_cpus i) (ld8 m (p + 1))) ismp
        else if (t =? MPBUS) || (t =? MPIOINTR) || (t =? MPLINTR) then mp_walk fuel' m (p + 8) e i ismp
        else mp_walk fuel' m p e i false
    end
  else Some (i, ismp).

(** The result: what the walk finds, and the address of the local APIC. *)
Definition mpinit (fuel : nat) : KM (mpinfo * Z) :=
  let! m := gets k_mem in
  match mpconfig m with
  | None => panic "Expect to run on an SMP"
  | Some (mp, conf) =>
      match mp_walk fuel m (conf + MPCONF_SIZE) (conf + conf_length m conf) (Mpinfo [] 0) true with
      | None => undef "loop"
      | Some (i, ismp) =>
          if negb ismp then panic "Didn't find a suitable machine"
          else
            when (negb (mp_imcrp m mp =? 0))
              (outb 0x22 0x70 ;;;
               let! v := inb 0x23 in
               outb 0x23 (Z.lor v 1)) ;;;
            ret (i, conf_lapicaddr m conf)
      end
  end.

(** ** The entries *)

Inductive mpentry := EProc (apicid : Z) | EIoapic (apicno : Z) | EOther (type : Z).
Definition entry_size (x : mpentry) : Z := match x with EProc _ => 20 | _ => 8 end.
(** Entry [x] is at [p]. *)
Definition entry_at (m : memory) (p : Z) (x : mpentry) : Prop :=
  match x with
  | EProc a => ld8 m p = MPPROC ∧ ld8 m (p + 1) = a
  | EIoapic a => ld8 m p = MPIOAPIC ∧ ld8 m (p + 1) = a
  | EOther t => ld8 m p = t ∧ (t = MPBUS ∨ t = MPIOINTR ∨ t = MPLINTR)
  end.
Fixpoint entries_at (m : memory) (p : Z) (l : list mpentry) (e : Z) : Prop :=
  match l with
  | [] => p = e
  | x :: l' => entry_at m p x ∧ entries_at m (p + entry_size x) l' e
  end.

(** The processors of the table, and its last I/O APIC. *)
Definition procs_of (l : list mpentry) : list Z := l ≫= λ x, match x with EProc a => [a] | _ => [] end.
Definition ioapic_of (l : list mpentry) (d : Z) : Z := foldl (λ d x, match x with EIoapic a => a | _ => d end) d l.

Lemma entries_le m p l e : entries_at m p l e → p ≤ e.
Proof.
  revert p. induction l as [|x l IH]; intros p; cbn; [lia|]. intros [_ H]. apply IH in H. destruct x; cbn in *; lia.
Qed.

Lemma add_cpu_take a i l :
  mi_cpus i = take NCPU l → add_cpu a i = Mpinfo (take NCPU (l ++ [a])) (mi_ioapicid i).
Proof.
  intros H. unfold add_cpu. destruct (Nat.ltb_spec (length (mi_cpus i)) NCPU) as [Hl|Hl].
  - rewrite H in *. rewrite length_take in Hl. f_equal. rewrite (take_ge l), take_ge by (rewrite ?length_app; cbn [length]; lia). done.
  - destruct i as [cs io]. cbn [mi_cpus mi_ioapicid] in *. subst cs. rewrite length_take in Hl. f_equal. by rewrite take_app_le by lia.
Qed.

(** The walk reads the entries one after the other. *)
Lemma mp_walk_entries m e l : ∀ fuel p done io,
  entries_at m p l e → (length l ≤ fuel)%nat →
  mp_walk fuel m p e (Mpinfo (take NCPU done) io) true =
    Some (Mpinfo (take NCPU (done ++ procs_of l)) (ioapic_of l io), true).
Proof.
  induction l as [|x l IH]; intros fuel p done io He Hf.
  - cbn in He. subst. destruct fuel; cbn [mp_walk]; rewrite Z.ltb_irrefl; by rewrite app_nil_r.
  - destruct He as [Hx He]. pose proof (entries_le _ _ _ _ He) as Hle. destruct fuel as [|fuel]; [cbn in Hf; lia|]. cbn [mp_walk].
    rewrite (proj2 (Z.ltb_lt _ _)) by (destruct x; cbn in Hle; lia). cbn [length] in Hf.
    destruct x as [a|a|t]; cbn [entry_at entry_size] in *.
    + destruct Hx as [-> ->]. change (MPPROC =? MPPROC) with true. cbv match. rewrite (add_cpu_take _ _ done) by done.
      cbn [mi_ioapicid]. change MPPROC_SIZE with 20. rewrite (IH fuel) by (done || lia). by rewrite <- app_assoc.
    + destruct Hx as [-> ->]. change (MPIOAPIC =? MPPROC) with false. change (MPIOAPIC =? MPIOAPIC) with true. cbv match. cbn [mi_cpus].
      change MPIOAPIC_SIZE with 8. by rewrite (IH fuel) by (done || lia).
    + destruct Hx as [Ht Hk]. rewrite Ht. destruct Hk as [-> | [-> | ->]].
      all: change ((_ =? MPPROC)) with false; cbv match; change (_ =? MPIOAPIC) with false; cbv match.
      all: change (_ || _) with true; cbv match; by rewrite (IH fuel) by (done || lia).
Qed.

(** An entry of a type the code does not know is never left. *)
Lemma mp_walk_unknown m e : ∀ fuel p i ismp,
  p < e → ¬ 0 ≤ ld8 m p ≤ 4 → mp_walk fuel m p e i ismp = None.
Proof.
  induction fuel as [|fuel IH]; intros p i ismp Hp Ht; cbn [mp_walk]; rewrite (proj2 (Z.ltb_lt _ _) Hp); [done|].
  unfold MPPROC, MPIOAPIC, MPBUS, MPIOINTR, MPLINTR. rewrite !(proj2 (Z.eqb_neq _ _)) by lia. cbn [orb]. by apply IH.
Qed.

(** The walk never ends with [ismp] cleared. *)
Lemma mp_walk_suitable m e : ∀ fuel p i i', mp_walk fuel m p e i true ≠ Some (i', false).
Proof.
  induction fuel as [|fuel IH]; intros p i i'; cbn [mp_walk]; destruct (Z.ltb_spec p e) as [Hp|Hp]; try done.
  destruct (Z.eqb_spec (ld8 m p) MPPROC) as [E1|E1]; [apply IH|]. destruct (Z.eqb_spec (ld8 m p) MPIOAPIC) as [E2|E2]; [apply IH|].
  destruct ((ld8 m p =? MPBUS) || (ld8 m p =? MPIOINTR) || (ld8 m p =? MPLINTR)) eqn:E3; [apply IH|].
  apply orb_false_iff in E3 as [[E3 E4]%orb_false_iff E5]. to_prop. unfold MPPROC, MPIOAPIC, MPBUS, MPIOINTR, MPLINTR in *.
  rewrite mp_walk_unknown; [done|done|lia].
Qed.

Lemma mp_walk_reaches m e l : ∀ fuel p p' i ismp,
  entries_at m p l p' → p' < e → ¬ 0 ≤ ld8 m p' ≤ 4 → mp_walk fuel m p e i ismp = None.
Proof.
  induction l as [|x l IH]; intros fuel p p' i ismp He Hp Ht.
  - cbn in He. subst. by apply mp_walk_unknown.
  - destruct He as [Hx He]. pose proof (entries_le _ _ _ _ He) as Hle.
    assert (p < e) as Hlt by (destruct x; cbn [entry_size] in Hle; lia).
    destruct fuel as [|fuel]; cbn [mp_walk]; rewrite (proj2 (Z.ltb_lt _ _) Hlt); [done|].
    destruct x as [a|a|t]; cbn [entry_at entry_size] in *.
    + destruct Hx as [-> _]. by apply (IH fuel _ p').
    + destruct Hx as [-> _]. by apply (IH fuel _ p').
    + destruct Hx as [Ht' Hk]. rewrite Ht'. destruct Hk as [-> | [-> | ->]]; by apply (IH fuel _ p').
Qed.

Lemma entries_length m p l e : entries_at m p l e → 8 * Z.of_nat (length l) ≤ e - p.
Proof.
  revert p. induction l as [|x l IH]; intros p; cbn [entries_at length]; [lia|].
  intros [_ H]. apply IH in H. destruct x; cbn [entry_size] in H; lia.
Qed.

(** The first structure with the signature and a good checksum. *)
Lemma mpsearch_from_spec m n : ∀ p,
  let good q := bytes_at m q 4 = chars "_MP_" ∧ sum m q MP_SIZE = 0 in
  match mpsearch_from m p n with
  | Some q => good q ∧ ∃ i, (i < n)%nat ∧ q = p + 16 * Z.of_nat i ∧ ∀ j, (j < i)%nat → ¬ good (p + 16 * Z.of_nat j)
  | None => ∀ i, (i < n)%nat → ¬ good (p + 16 * Z.of_nat i)
  end.
Proof.
  induction n as [|n IH]; intros p good; cbn [mpsearch_from]; [intros; lia|].
  destruct (bool_decide (bytes_at m p 4 = chars "_MP_") && (sum m p MP_SIZE =? 0)) eqn:E.
  - apply andb_prop in E as [E1%bool_decide_eq_true E2%Z.eqb_eq]. split; [by split|]. exists O. split_and!; [lia|lia|intros; lia].
  - assert (¬ good p) as Hp. { intros [G1 G2]. rewrite bool_decide_true, G2 in E by done. done. }
    specialize (IH (p + MP_SIZE)). cbv zeta in IH. unfold MP_SIZE in *. destruct (mpsearch_from m (p + 16) n) as [q|].
    + destruct IH as (Hg & i & Hi & -> & Hj). split; [done|]. exists (S i). split_and!; [lia|lia|].
      intros [|j] Hlt; [by rewrite Z.add_0_r|]. replace (p + 16 * Z.of_nat (S j)) with (p + 16 + 16 * Z.of_nat j) by lia. apply Hj. lia.
    + intros [|i] Hi; [by rewrite Z.add_0_r|]. replace (p + 16 * Z.of_nat (S i)) with (p + 16 + 16 * Z.of_nat i) by lia. apply IH. lia.
Qed.

(** mpinit enumerates the machine.  When the BIOS tables are found and every
    entry has a type of the specification, mpinit returns, within one turn of its
    loop for each 8 bytes of the table: the CPUs are the processor entries in their
    order, the first NCPU of them, the I/O APIC is the one of the last such entry,
    and the local APIC is at the address in the table's header. *)
Theorem mpinit_enumerates fuel l o k mp conf :
  let m := k_mem k in
  mpconfig m = Some (mp, conf) → entries_at m (conf + MPCONF_SIZE) l (conf + conf_length m conf) →
  conf_length m conf ≤ 8 * Z.of_nat fuel →
  ∃ lg, mpinit fuel o k = Ok (Mpinfo (take NCPU (procs_of l)) (ioapic_of l 0), conf_lapicaddr m conf) (io_ran lg k) o.
Proof.
  intros m Hc He Hf. pose proof (entries_length _ _ _ _ He) as Hlen. unfold MPCONF_SIZE in Hlen.
  unfold mpinit. rewrite (bind_ok (gets k_mem) _ _ _ _ _ _ eq_refl). fold m. rewrite Hc.
  change (Mpinfo [] 0) with (Mpinfo (take NCPU []) 0). rewrite (mp_walk_entries m _ l fuel _ [] 0 He) by lia. cbn [negb app].
  destruct (mp_imcrp m mp =? 0); cbn [negb when].
  - exists []. unfold io_ran. rewrite with_log_nil. by destruct k.
  - eexists. rewrite bind_assoc, (bind_ok _ _ _ _ _ _ _ (outb_ran1 0x22 0x70 o k)), bind_assoc.
    rewrite (bind_ok _ _ _ _ _ _ _ (inb_ran 0x23 o _)), io_ran_app, (bind_ok _ _ _ _ _ _ _ (outb_ran _ _ _ _ _)). reflexivity.
Qed.

(** A table entry of a type mpinit does not know is not an error but an
    endless loop: the break of the default case leaves the switch without stepping
    over the entry, so however long the loop runs it does not end; and the panic
    that the case prepares for is never reached for any memory. *)
Theorem mpinit_unknown_loops l p o k mp conf :
  let m := k_mem k in
  mpconfig m = Some (mp, conf) → entries_at m (conf + MPCONF_SIZE) l p → p < conf + conf_length m conf → ¬ 0 ≤ ld8 m p ≤ 4 →
  (∀ fuel, mpinit fuel o k = Undef "loop" k) ∧ ∀ fuel m' p' e i i', mp_walk fuel m' p' e i true ≠ Some (i', false).
Proof.
  intros m Hc He Hp Ht. split; [|intros fuel m' p' e i i'; apply mp_walk_suitable]. intros fuel. unfold mpinit. rewrite (bind_ok (gets k_mem) _ _ _ _ _ _ eq_refl). fold m. rewrite Hc.
  by rewrite (mp_walk_reaches m _ l fuel _ p).
Qed.

(** ** Concrete tables *)

(** Memory with the given bytes at the given addresses. *)
Definition demo_mem (pairs : list (Z * list Z)) : memory :=
  foldr (λ x m a, if (fst x <=? a) && (a <? fst x + Z.of_nat (length (snd x))) then nth (Z.to_nat (a - fst x)) (snd x) 0 else m a) (λ _, 0) pairs.
(** The pointer structure at 0x9fc00 and the table with its entries at 0x9fd00. *)
Definition demo_conf (len check : Z) (entries : list Z) : memory :=
  demo_mem [(P2V 0x40e, [0xc0; 0x9f]);
            (P2V 0x9fc00, chars "_MP_" ++ [0x00; 0xfd; 0x09; 0x00; 1; 4; 0x9a; 0; 0; 0; 0; 0]);
            (P2V 0x9fd00, chars "PCMP" ++ [len; 0; 4; check] ++ replicate 28 0 ++ [0; 0; 0xe0; 0xfe] ++ replicate 4 0 ++ entries)].
Definition demo_proc_entry : list Z := [0; 7; 0; 0] ++ replicate 16 0.

Definition demo_mp : kernel := set_k_mem (demo_conf 72 0x94 (demo_proc_entry ++ [2; 9; 0; 0; 0; 0; 0; 0])) boot_kernel.
Definition demo_mp_odd : kernel := set_k_mem (demo_conf 72 0x9a (demo_proc_entry ++ [5; 0; 0; 0; 0; 0; 0; 0])) boot_kernel.

Lemma mpinit_enumerates_witness :
  ∃ lg, mpinit 10 [] demo_mp = Ok (Mpinfo [7] 9, 0xfee00000) (io_ran lg demo_mp) [].
Proof.
  destruct (mpinit_enumerates 10 [EProc 7; EIoapic 9] [] demo_mp (P2V 0x9fc00) (P2V 0x9fd00)) as (lg & H).
  - vm_compute. reflexivity.
  - vm_compute. tauto.
  - vm_compute. discriminate.
  - exists lg. exact H.
Defined.

Lemma mpinit_unknown_loops_witness :
  ¬ 0 ≤ ld8 (k_mem demo_mp_odd) (P2V 0x9fd00 + 64) ≤ 4 ∧ (∀ fuel, mpinit fuel [] demo_mp_odd = Undef "loop" demo_mp_odd).
Proof.
  split; [vm_compute; intros [_ H]; exact (H eq_refl)|].
  apply (mpinit_unknown_loops [EProc 7] (P2V 0x9fd00 + 64) [] demo_mp_odd (P2V 0x9fc00) (P2V 0x9fd00)).
  - vm_compute. reflexivity.
  - vm_compute. tauto.
  - vm_compute. reflexivity.
  - vm_compute. intros [_ H]. exact (H eq_refl).
Defined.
