(* ===== verification/Sched.v ===== *)
(** * Switching threads: sched, sleep, wakeup, yield, the scheduler

    The parts of [proc.c] that move threads on and off a CPU, with
    [switchuvm] and [switchkvm] of [vm.c].  Leaving the CPU in [sched] hands
    the state to the other threads: they run as the oracle says until this
    thread is RUNNABLE and a scheduler dispatches it again. *)

From S2P Require Import Prelude Defs Spinlock CString Kernel.
Local Open Scope kernel_scope.

(** ** proc.c: myproc, mythread *)
Definition myproc : KM (option nat) :=
  pushcli ;;;
  let! c := mycpu in
  let! p := gets (λ k, k_proc k) in
  popcli ;;;
  ret p.

Definition mythread : KM (option tslot) :=
  pushcli ;;;
  let! c := mycpu in
  let! t := gets (λ k, k_thread k) in
  popcli ;;;
  ret t.

(** ** vm.c: switchkvm, switchuvm

    The TSS descriptor and the I/O map base are written with constants; the
    state keeps the kernel stack of the TSS and the page table register. *)
Definition switchkvm : KM unit := modify (λ k, set_k_cr3 (V2P (k_kpgdir k)) k).

Definition switchuvm (p : option nat) : KM unit :=
  match p with
  | None => panic "switchuvm: no process"
  | Some i =>
      let! t := mythread in
      let! t := deref t in
      let! th := rd_thread t in
      if t_kstack th =? 0 then panic "switchuvm: no kstack"
      else
        let! pr := rd_proc i in
        if p_pgdir pr =? 0 then panic "switchuvm: no pgdir"
        else
          pushcli ;;;
          modify (set_k_esp0 (u32 (t_kstack th + KSTACKSIZE))) ;;;
          modify (set_k_cr3 (V2P (p_pgdir pr))) ;;;
          popcli
  end.

(** ** scheduler *)

(** The body of the inner loop up to [swtch]: make thread [t] of process [p]
    the running one. *)
Definition dispatch (p : nat) (t : tslot) : KM unit :=
  modify (set_k_proc (Some p)) ;;;
  modify (set_k_thread (Some t)) ;;;
  switchuvm (Some p) ;;;
  upd_thread t (set_t_state RUNNING).

(** [swtch] from the scheduler: the thread runs until it switches back. *)
Definition run_thread : KM unit := λ o k,
  match o with
  | [] => Wait k
  | e :: o' => Ok tt (e k) o'
  end.

(** One pass over the process table, between acquire and release. *)
Definition scheduler_pass : KM unit :=
  for_each (seq 0 NPROC) (λ i,
    let! p := rd_proc i in
    if decide (p_state p = USED) then
      let! base := deref (p_threads p) in
      for_each (seq 0 NTHREAD) (λ j,
        let! t := rd_thread (base, j) in
        if decide (t_state t = RUNNABLE) then
          dispatch i (base, j) ;;;
          run_thread ;;;
          switchkvm ;;;
          modify (set_k_proc None) ;;;
          modify (set_k_thread None)
        else ret tt)
    else ret tt).

(** One iteration of the scheduler's endless loop. *)
Definition scheduler_round : KM unit :=
  sti ;;;
  acquire Lptable ;;;
  scheduler_pass ;;;
  release Lptable.

(** The scheduler of a CPU, for its first [n] iterations. *)
Definition scheduler (n : nat) : KM unit :=
  let! c := mycpu in
  modify (set_k_proc None) ;;;
  modify (set_k_thread None) ;;;
  repeat_m n scheduler_round.

(** ** sched *)

(** The scheduler may pick thread [t]. *)
Definition pickable (t : tslot) (k : kernel) : bool :=
  match thread_at t k with
  | Some th =>
      bool_decide (t_state th = RUNNABLE) &&
      match k_procs k !! fst t with
      | Some p => bool_decide (p_state p = USED)
      | None => false
      end
  | None => false
  end.

(** Off the CPU: the others run until a scheduler picks this thread, which
    then continues after its [swtch]. *)
Fixpoint offcpu (t : tslot) (o : list (kernel → kernel)) (k : kernel) {struct o} : res kernel unit :=
  match o with
  | [] => Wait k
  | e :: o' =>
      let k' := e k in
      if pickable t k' then dispatch (fst t) t o' k' else offcpu t o' k'
  end.

Definition cpu_self (k : kernel) : cpu := cpu_at (self_ix (k_lk k)) (k_lk k).
Definition set_intena (v : Z) : KM unit :=
  let! c := mycpu in
  modify (λ k, set_k_lk (cpu_alter c (λ x, Cpu (c_apicid x) (c_ncli x) v) (k_lk k)) k).

Definition sched : KM unit :=
  let! t := mythread in
  let! t := deref t in
  let! h := holding Lptable in
  if negb h then panic "sched ptable.lock"
  else
    let! c := mycpu in
    let! ncli := gets (λ k, c_ncli (cpu_at c (k_lk k))) in
    if negb (ncli =? 1) then panic "sched locks"
    else
      let! th := rd_thread t in
      if decide (t_state th = RUNNING) then panic "sched running"
      else
        let! eflags := readeflags in
        if negb (Z.land eflags FL_IF =? 0) then panic "sched interruptible"
        else
          let! intena := gets (λ k, c_intena (cpu_at c (k_lk k))) in
          offcpu t ;;;
          set_intena intena.

Definition yield : KM unit :=
  acquire Lptable ;;;
  let! t := mythread in
  let! t := deref t in
  upd_thread t (set_t_state RUNNABLE) ;;;
  sched ;;;
  release Lptable.

(** ** sleep and wakeup *)

Definition sleep (ch : chan) (lk : lockid) : KM unit :=
  let! t := mythread in
  match t with
  | None => panic "sleep"
  | Some t =>
      when (negb (bool_decide (lk = Lptable)))
        (acquire Lptable ;;; release lk) ;;;
      upd_thread t (set_t_chan (Some ch)) ;;;
      upd_thread t (set_t_state SLEEPING) ;;;
      sched ;;;
      upd_thread t (set_t_chan None) ;;;
      when (negb (bool_decide (lk = Lptable)))
        (release Lptable ;;; acquire lk)
  end.

Definition sleeping_on (ch : chan) (t : kthread) : bool :=
  bool_decide (t_state t = SLEEPING) && bool_decide (t_chan t = Some ch).

Definition wakeup1 (ch : chan) : KM unit :=
  for_each (seq 0 NPROC) (λ i,
    let! p := rd_proc i in
    if decide (p_state p = UNUSED) then ret tt
    else
      let! base := deref (p_threads p) in
      for_each (seq 0 NTHREAD) (λ j,
        let! t := rd_thread (base, j) in
        when (sleeping_on ch t) (upd_thread (base, j) (set_t_state RUNNABLE)))).

Definition wakeup (ch : chan) : KM unit :=
  acquire Lptable ;;;
  wakeup1 ch ;;;
  release Lptable.

(** ** The shape of the process table *)

Record ptable_wf (k : kernel) : Prop := {
  wf_procs : length (k_procs k) = NPROC;
  wf_ttable : length (k_ttable k) = NPROC;
  wf_rows : ∀ i ts, k_ttable k !! i = Some ts → length ts = NTHREAD;
  wf_threads : ∀ i p, k_procs k !! i = Some p → p_state p ≠ UNUSED → p_threads p = Some i
}.

(** ** Reading the current process and thread *)

Lemma myproc_calm o k n : calm (k_lk k) n → myproc o k = Ok (k_proc k) k o.
Proof. intros H. by apply (read_cpu_calm (λ _ k, k_proc k) o k n). Qed.

Lemma mythread_calm o k n : calm (k_lk k) n → mythread o k = Ok (k_thread k) k o.
Proof. intros H. by apply (read_cpu_calm (λ _ k, k_thread k) o k n). Qed.

(** ** wakeup1 in closed form *)

Definition wake_thread (ch : chan) (t : kthread) : kthread :=
  if sleeping_on ch t then set_t_state RUNNABLE t else t.

Definition row_slots (i : nat) : list tslot := (λ j, (i, j)) <$> seq 0 NTHREAD.

(** The thread slots of the processes in use. *)
Definition live_slots (k : kernel) : list tslot :=
  seq 0 NPROC ≫= λ i,
    match k_procs k !! i with
    | Some p => if decide (p_state p = UNUSED) then [] else row_slots i
    | None => []
    end.

Definition alter_threads (f : kthread → kthread) (ts : list tslot) (k : kernel) : kernel :=
  foldl (λ k t, alter_thread f t k) k ts.

Definition wake_all (ch : chan) (k : kernel) : kernel :=
  alter_threads (wake_thread ch) (live_slots k) k.

Lemma alter_thread_id f t k x :
  thread_at t k = Some x → f x = x → alter_thread f t k = k.
Proof.
  intros Hx Hf. unfold alter_thread, thread_at in *. destruct t as [i j]. simpl in *.
  destruct (k_ttable k !! i) as [ts|] eqn:Ei; simpl in Hx; [|done].
  assert (alter (alter f j) i (k_ttable k) = k_ttable k) as ->; [|by destruct k].
  apply list_eq. intros i'. rewrite list_lookup_alter. case_decide; [|done]. subst.
  rewrite Ei. simpl. f_equal. apply list_eq. intros j'. rewrite list_lookup_alter.
  case_decide; [|done]. subst. rewrite Hx. simpl. by rewrite Hf.
Qed.

(** Only the thread table changes. *)
Lemma alter_threads_frame f ts k :
  alter_threads f ts k = set_k_ttable (k_ttable (alter_threads f ts k)) k.
Proof.
  unfold alter_threads. revert k. induction ts as [|t ts IH]; intros k; simpl; [by destruct k|].
  rewrite IH at 1. done.
Qed.

Lemma alter_threads_at f ts k t :
  NoDup ts →
  thread_at t (alter_threads f ts k) =
    if decide (t ∈ ts) then f <$> thread_at t k else thread_at t k.
Proof.
  unfold alter_threads. revert k. induction ts as [|t0 ts IH]; intros k Hnd; cbn [foldl].
  - rewrite decide_False; [done|]. set_solver.
  - apply NoDup_cons in Hnd as [Hn Hnd]. rewrite IH by done. rewrite thread_at_alter.
    destruct (decide (t ∈ ts)), (decide (t0 = t)), (decide (t ∈ t0 :: ts)); set_solver.
Qed.

Lemma row_slots_spec t i : t ∈ row_slots i ↔ fst t = i ∧ (snd t < NTHREAD)%nat.
Proof.
  unfold row_slots. rewrite list_elem_of_fmap. destruct t as [a b]. simpl. split.
  - intros (j & Heq & Hj). apply elem_of_seq in Hj. simplify_eq. lia.
  - intros [-> Hb]. exists b. split; [done|]. apply elem_of_seq. lia.
Qed.

Lemma live_slots_spec k t :
  t ∈ live_slots k ↔
    (fst t < NPROC)%nat ∧ (snd t < NTHREAD)%nat ∧
    ∃ p, k_procs k !! fst t = Some p ∧ p_state p ≠ UNUSED.
Proof.
  unfold live_slots. rewrite list_elem_of_bind. split.
  - intros (i & Ht & Hi). apply elem_of_seq in Hi.
    destruct (k_procs k !! i) as [p|] eqn:Hp; [|set_solver].
    case_decide; [set_solver|]. apply row_slots_spec in Ht as [<- ?].
    split_and!; [lia|done|eauto].
  - intros (Hi & Hj & p & Hp & Hs). exists (fst t). rewrite Hp, decide_False by done.
    split; [by apply row_slots_spec|]. apply elem_of_seq. lia.
Qed.

Lemma NoDup_row_slots i : NoDup (row_slots i).
Proof. apply NoDup_fmap_2; [|apply NoDup_seq]. intros a b H. by simplify_eq. Qed.

Lemma NoDup_live_slots k : NoDup (live_slots k).
Proof.
  unfold live_slots. generalize 0%nat. generalize NPROC.
  induction n as [|n IH]; intros a; simpl; [constructor|].
  apply NoDup_app. split_and!; [|intros t Ht Ht'|apply IH].
  - destruct (k_procs k !! a); [case_decide|]; solve [constructor | apply NoDup_row_slots].
  - apply list_elem_of_bind in Ht' as (i & Ht' & Hi). apply elem_of_seq in Hi.
    assert (fst t = a).
    { destruct (k_procs k !! a); [case_decide|]; (apply row_slots_spec in Ht as [? _]; done)
      || set_solver. }
    assert (fst t = i).
    { destruct (k_procs k !! i); [case_decide|]; (apply row_slots_spec in Ht' as [? _]; done)
      || set_solver. }
    lia.
Qed.

Lemma ptable_wf_ext k k' :
  k_procs k' = k_procs k → k_ttable k' = k_ttable k → ptable_wf k → ptable_wf k'.
Proof. intros Hp Ht []. by split; rewrite ?Hp, ?Ht. Qed.

Lemma ptable_wf_set_lk l k : ptable_wf k → ptable_wf (set_k_lk l k).
Proof. by apply ptable_wf_ext. Qed.

Lemma ptable_wf_alter_thread f t k : ptable_wf k → ptable_wf (alter_thread f t k).
Proof.
  intros [H1 H2 H3 H4]. split; simpl; [done|by rewrite length_alter| |done].
  intros i ts. rewrite list_lookup_alter. case_decide; [|by apply H3]. subst.
  destruct (k_ttable k !! fst t) eqn:E; simpl; [|done]. intros ?. simplify_eq.
  rewrite length_alter. eauto.
Qed.

Lemma ptable_wf_alter_threads f ts k : ptable_wf k → ptable_wf (alter_threads f ts k).
Proof.
  unfold alter_threads. revert k. induction ts; intros k H; simpl; [done|].
  by apply IHts, ptable_wf_alter_thread.
Qed.

Lemma alter_threads_app f l1 l2 k :
  alter_threads f (l1 ++ l2) k = alter_threads f l2 (alter_threads f l1 k).
Proof. unfold alter_threads. apply foldl_app. Qed.

Lemma thread_at_wf k t :
  ptable_wf k → (fst t < NPROC)%nat → (snd t < NTHREAD)%nat → is_Some (thread_at t k).
Proof.
  intros [_ H2 H3 _] Hi Hj. unfold thread_at.
  destruct (lookup_lt_is_Some_2 (k_ttable k) (fst t)) as [ts Hts]; [lia|].
  rewrite Hts. simpl. apply lookup_lt_is_Some_2. by rewrite (H3 _ _ Hts).
Qed.

Lemma proc_at_wf k i : ptable_wf k → (i < NPROC)%nat → is_Some (k_procs k !! i).
Proof. intros [H1 _ _ _] Hi. apply lookup_lt_is_Some_2. lia. Qed.

(** A loop over the threads of one process that changes each of them by a
    test on its own state. *)
Lemma row_loop_eq (test : kthread → bool) (g : kthread → kthread) i o k :
  ptable_wf k → (i < NPROC)%nat →
  for_each (seq 0 NTHREAD) (λ j,
    let! t := rd_thread (i, j) in when (test t) (upd_thread (i, j) g)) o k
  = Ok tt (alter_threads (λ t, if test t then g t else t) (row_slots i) k) o.
Proof.
  intros Hwf Hi.
  destruct (for_each_pure ptable_wf (λ j k, alter_thread (λ t, if test t then g t else t) (i, j) k)
              (seq 0 NTHREAD)
              (λ j, let! t := rd_thread (i, j) in when (test t) (upd_thread (i, j) g)) o k)
    as [Hrun _]; [|done|].
  - intros j o' k' Hj Hk'. apply elem_of_seq in Hj.
    split; [|by apply ptable_wf_alter_thread].
    destruct (thread_at_wf k' (i, j)) as [x Hx]; [done|simpl; lia|simpl; lia|].
    rewrite (bind_ok _ _ _ _ _ _ _ (rd_thread_eq _ _ _ _ Hx)). unfold when.
    destruct (test x) eqn:E.
    + unfold upd_thread, modify. f_equal. unfold alter_thread. f_equal.
      apply list_alter_ext; [|done]. intros ts Hts. apply list_alter_ext; [|done].
      intros y Hy. unfold thread_at in Hx. simpl in Hx, Hts, Hy. rewrite Hts in Hx. simpl in Hx.
      simplify_eq. by rewrite E.
    + unfold ret. f_equal. symmetry. apply (alter_thread_id _ _ _ x Hx). by rewrite E.
  - exact Hrun.
Qed.

Lemma wakeup1_eq ch o k : ptable_wf k → wakeup1 ch o k = Ok tt (wake_all ch k) o.
Proof.
  intros Hwf. unfold wakeup1.
  set (slots := λ i, match k_procs k !! i with
                     | Some p => if decide (p_state p = UNUSED) then [] else row_slots i
                     | None => [] end).
  destruct (for_each_pure (λ k', ptable_wf k' ∧ k_procs k' = k_procs k)
              (λ i k', alter_threads (wake_thread ch) (slots i) k') (seq 0 NPROC)
              (λ i, let! p := rd_proc i in
                 if decide (p_state p = UNUSED) then ret tt
                 else let! base := deref (p_threads p) in
                   for_each (seq 0 NTHREAD) (λ j,
                     let! t := rd_thread (base, j) in
                     when (sleeping_on ch t) (upd_thread (base, j) (set_t_state RUNNABLE)))) o k)
    as [Hrun _]; [|done|].
  - intros i o' k' Hi [Hk' Hp']. apply elem_of_seq in Hi. split.
    + destruct (proc_at_wf k' i Hk' ltac:(lia)) as [p Hp].
      rewrite (bind_ok _ _ _ _ _ _ _ (rd_proc_eq _ _ _ _ Hp)). unfold slots.
      rewrite <- Hp', Hp. case_decide as Hs; [done|].
      rewrite (wf_threads _ Hk' _ _ Hp Hs). unfold bind at 1, deref, ret.
      apply row_loop_eq; [done|lia].
    + split; [by apply ptable_wf_alter_threads|].
      by rewrite alter_threads_frame.
  - rewrite Hrun. f_equal. unfold wake_all, live_slots. fold slots. clearbody slots. clear.
    generalize (seq 0 NPROC). intros l. revert k. induction l as [|i l IH]; intros k; [done|].
    simpl. by rewrite alter_threads_app, IH.
Qed.

(** The threads after a wakeup. *)
Lemma wake_all_at ch k t :
  ptable_wf k →
  thread_at t (wake_all ch k) =
    match k_procs k !! fst t with
    | Some p => if decide (p_state p = UNUSED) then thread_at t k
                else wake_thread ch <$> thread_at t k
    | None => thread_at t k
    end.
Proof.
  intros Hwf. unfold wake_all. rewrite alter_threads_at by apply NoDup_live_slots.
  destruct (thread_at t k) as [x|] eqn:Hx.
  - unfold thread_at in Hx. destruct (k_ttable k !! fst t) as [ts|] eqn:Ht; [|done].
    simpl in Hx. pose proof (lookup_lt_Some _ _ _ Ht). pose proof (lookup_lt_Some _ _ _ Hx).
    rewrite (wf_ttable _ Hwf), (wf_rows _ Hwf _ _ Ht) in *.
    destruct (proc_at_wf k (fst t)) as [p Hp]; [done..|]. rewrite Hp.
    case_decide as Hin; rewrite live_slots_spec in Hin.
    + destruct Hin as (_ & _ & p' & Hp' & Hs). simplify_eq. by rewrite decide_False.
    + rewrite decide_True; [done|]. destruct (decide (p_state p = UNUSED)); [done|].
      destruct Hin. split_and!; [done..|eauto].
  - repeat case_decide; by repeat case_match.
Qed.

Lemma wake_all_frame ch k : wake_all ch k = set_k_ttable (k_ttable (wake_all ch k)) k.
Proof. apply alter_threads_frame. Qed.

Lemma wake_all_wf ch k : ptable_wf k → ptable_wf (wake_all ch k).
Proof. apply ptable_wf_alter_threads. Qed.

(** ** switchuvm and dispatch *)

Lemma switchuvm_eq i o k n t th pr :
  calm (k_lk k) n → k_thread k = Some t → thread_at t k = Some th → t_kstack th ≠ 0 →
  k_procs k !! i = Some pr → p_pgdir pr ≠ 0 →
  switchuvm (Some i) o k =
    Ok tt (set_k_cr3 (V2P (p_pgdir pr)) (set_k_esp0 (u32 (t_kstack th + KSTACKSIZE)) k)) o.
Proof.
  intros Hc Ht Hth Hks Hp Hpg. unfold switchuvm.
  rewrite (bind_ok _ _ _ _ _ _ _ (mythread_calm _ _ _ Hc)), Ht. unfold bind at 1, deref, ret.
  rewrite (bind_ok _ _ _ _ _ _ _ (rd_thread_eq _ _ _ _ Hth)).
  rewrite (proj2 (Z.eqb_neq _ _)) by done.
  rewrite (bind_ok _ _ _ _ _ _ _ (rd_proc_eq _ _ _ _ Hp)).
  rewrite (proj2 (Z.eqb_neq _ _)) by done.
  destruct Hc as (ci & c & b & H & <- & Hb & Hi & Hn). pose proof H as (_ & _ & _ & ?).
  erewrite bind_ok; [|eapply pushcli_eq; [exact H|lia]].
  unfold bind, modify. by erewrite (popcli_calm _ _ ci c b (k_lk k)).
Qed.

Definition dispatched (p : nat) (t : tslot) (th : kthread) (pr : proc) (k : kernel) : kernel :=
  alter_thread (set_t_state RUNNING) t
    (set_k_cr3 (V2P (p_pgdir pr)) (set_k_esp0 (u32 (t_kstack th + KSTACKSIZE))
       (set_k_thread (Some t) (set_k_proc (Some p) k)))).

Lemma dispatch_eq p t o k n th pr :
  calm (k_lk k) n → thread_at t k = Some th → t_kstack th ≠ 0 →
  k_procs k !! p = Some pr → p_pgdir pr ≠ 0 →
  dispatch p t o k = Ok tt (dispatched p t th pr k) o.
Proof.
  intros Hc Hth Hks Hp Hpg. unfold dispatch. unfold bind at 1 2, modify.
  erewrite bind_ok; [|by eapply (switchuvm_eq _ _ _ n)]. done.
Qed.

(** ** sched *)

Lemma calm_self_intena v o k n :
  calm (k_lk k) n → n ≠ 0 → v = c_intena (cpu_self k) → set_intena v o k = Ok tt k o.
Proof.
  intros Hc Hn ->. unfold set_intena.
  rewrite (bind_ok _ _ _ _ _ _ _ (mycpu_k o k n Hc Hn)).
  unfold modify. f_equal. simpl.
  destruct Hc as (i & c & b & H & _). destruct (lk_at_self _ _ _ _ H) as [Hs _].
  unfold cpu_self. rewrite Hs. destruct H as (_ & Hc & _). unfold cpu_at. rewrite Hc. simpl.
  assert (cpu_alter i (λ x, Cpu (c_apicid x) (c_ncli x) (c_intena c)) (k_lk k) = k_lk k) as ->;
    [|by destruct k].
  unfold cpu_alter, setcpus. destruct (k_lk k) as [ls cs hs me]. simpl in *. f_equal.
  apply list_eq. intros j. rewrite list_lookup_alter. case_decide; [|done]. subst.
  rewrite Hc. by destruct c.
Qed.

(** With only the process table lock held and the thread no longer RUNNING,
    sched passes its checks and leaves the CPU. *)
Lemma sched_eq o k K t th :
  calm K 0 → lock_free Lptable K → k_lk k = lk_acquire Lptable K →
  k_thread k = Some t → thread_at t k = Some th → t_state th ≠ RUNNING →
  sched o k = bind (offcpu t) (λ _, set_intena (c_intena (cpu_self k))) o k.
Proof.
  intros Hc Hf Hk Ht Hth Hs. unfold sched.
  pose proof (calm_acquire Lptable _ _ Hc ltac:(lia)) as Hc1. rewrite <- Hk in Hc1.
  rewrite (bind_ok _ _ _ _ _ _ _ (mythread_calm _ _ _ Hc1)), Ht. unfold bind at 1, deref, ret.
  rewrite (bind_ok _ _ _ _ _ _ _ (holding_k _ _ _ _ Hc1)).
  rewrite Hk, (held_acquire _ _ _ Hc). cbn [negb].
  rewrite (bind_ok _ _ _ _ _ _ _ (mycpu_k o k _ Hc1 ltac:(lia))).
  unfold bind at 1, gets. rewrite (calm_ncli _ _ Hc1).
  change (negb (0 + 1 =? 1)) with false. cbv iota.
  rewrite (bind_ok _ _ _ _ _ _ _ (rd_thread_eq _ _ _ _ Hth)).
  rewrite decide_False by done.
  by rewrite (bind_ok _ _ _ _ _ _ _ (readeflags_k o k _ Hc1 ltac:(lia))).
Qed.

(** A thread no one makes RUNNABLE stays off the CPU. *)
Lemma offcpu_waits (P : kernel → Prop) t o k :
  (∀ k, P k → pickable t k = false) → P k → rely P o → ∃ k', offcpu t o k = Wait k' ∧ P k'.
Proof.
  intros HP. revert k. induction o as [|e o IH]; intros k Hk Ho; simpl; [eauto|].
  apply Forall_cons in Ho as [He Ho]. rewrite (HP _ (He _ Hk)). apply IH; [by apply He|done].
Qed.

Lemma pickable_iff t k th pr :
  thread_at t k = Some th → k_procs k !! fst t = Some pr →
  pickable t k = bool_decide (t_state th = RUNNABLE) && bool_decide (p_state pr = USED).
Proof. intros Ht Hp. unfold pickable. by rewrite Ht, Hp. Qed.

(** ** sleep *)

(** The state in which a sleeping thread leaves the CPU: [K] is the lock state
    without the caller's lock. *)
Definition asleep (ch : chan) (t : tslot) (K : lkstate) (k : kernel) : kernel :=
  alter_thread (set_t_state SLEEPING) t
    (alter_thread (set_t_chan (Some ch)) t (set_k_lk (lk_acquire Lptable K) k)).

(** What [sleep] does after it is dispatched again. *)
Definition sleep_tail (t : tslot) (lk : lockid) (intena : Z) : KM unit :=
  set_intena intena ;;;
  upd_thread t (set_t_chan None) ;;;
  when (negb (bool_decide (lk = Lptable))) (release Lptable ;;; acquire lk).

Lemma sleep_eq ch lk o k K t th :
  calm K 0 → lock_free Lptable K → lock_free lk K → k_lk k = lk_acquire lk K →
  k_thread k = Some t → thread_at t k = Some th →
  sleep ch lk o k =
    bind (offcpu t) (λ _, sleep_tail t lk (c_intena (cpu_self (asleep ch t K k)))) o
      (asleep ch t K k).
Proof.
  intros Hc Hf Hfl Hk Ht Hth.
  pose proof (calm_acquire lk _ _ Hc ltac:(lia)) as Hc1. rewrite <- Hk in Hc1.
  unfold sleep. rewrite (bind_ok _ _ _ _ _ _ _ (mythread_calm _ _ _ Hc1)), Ht.
  assert (when (negb (bool_decide (lk = Lptable))) (acquire Lptable ;;; release lk) o k
          = Ok tt (set_k_lk (lk_acquire Lptable K) k) o) as Hlk.
  { destruct (decide (lk = Lptable)) as [->|Hne].
    - rewrite bool_decide_true by done. simpl. unfold ret. f_equal. rewrite <- Hk. by destruct k.
    - rewrite bool_decide_false by done. simpl.
      erewrite bind_ok; [|eapply acquire_k; [exact Hc1|]; rewrite Hk;
                           by apply lock_free_acquire_ne].
      erewrite (release_swap_k lk Lptable); [|exact Hc|lia|done|done|done|].
      + by destruct k.
      + simpl. by rewrite Hk. }
  rewrite (bind_ok _ _ _ _ _ _ _ Hlk).
  unfold bind at 1 2, upd_thread, modify. fold (asleep ch t K k).
  assert (thread_at t (asleep ch t K k) = Some (set_t_state SLEEPING (set_t_chan (Some ch) th))) as Hth'.
  { unfold asleep. rewrite !thread_at_alter, !decide_True by done.
    change (thread_at t (set_k_lk _ k)) with (thread_at t k). by rewrite Hth. }
  unfold bind at 1. rewrite (sched_eq _ (asleep ch t K k) K t _ Hc Hf eq_refl Ht Hth' ltac:(done)).
  unfold bind. by destruct (offcpu t o (asleep ch t K k)).
Qed.

Lemma wake_all_lk ch k : k_lk (wake_all ch k) = k_lk k.
Proof. by rewrite wake_all_frame. Qed.
Lemma wake_all_procs ch k : k_procs (wake_all ch k) = k_procs k.
Proof. by rewrite wake_all_frame. Qed.

Lemma thread_at_set_k_lk t l k : thread_at t (set_k_lk l k) = thread_at t k.
Proof. done. Qed.

Lemma thread_at_dispatched p t th pr k t' :
  thread_at t' (dispatched p t th pr k) =
    if decide (t = t') then set_t_state RUNNING <$> thread_at t' k else thread_at t' k.
Proof. unfold dispatched. by rewrite thread_at_alter. Qed.

Lemma thread_at_asleep ch t K k t' :
  thread_at t' (asleep ch t K k) =
    if decide (t = t') then (λ x, set_t_state SLEEPING (set_t_chan (Some ch) x)) <$> thread_at t' k
    else thread_at t' k.
Proof.
  unfold asleep. rewrite !thread_at_alter, thread_at_set_k_lk. case_decide; [|done].
  by rewrite <- option_fmap_compose.
Qed.

Lemma ptable_wf_asleep ch t K k : ptable_wf k → ptable_wf (asleep ch t K k).
Proof. intros [????]. by do 2 apply ptable_wf_alter_thread. Qed.

Lemma sleep_tail_eq t lk v o k K :
  calm K 0 → lock_free Lptable K → lock_free lk K → k_lk k = lk_acquire Lptable K →
  v = c_intena (cpu_self k) →
  sleep_tail t lk v o k =
    Ok tt (set_k_lk (lk_acquire lk K) (alter_thread (set_t_chan None) t k)) o.
Proof.
  intros Hc Hf Hfl Hk Hv. unfold sleep_tail.
  pose proof (calm_acquire Lptable _ _ Hc ltac:(lia)) as Hc1. rewrite <- Hk in Hc1.
  rewrite (bind_ok _ _ _ _ _ _ _ (calm_self_intena v o k _ Hc1 ltac:(lia) Hv)).
  unfold bind at 1, upd_thread, modify.
  destruct (decide (lk = Lptable)) as [->|Hne].
  - rewrite bool_decide_true by done. simpl. unfold ret. f_equal. rewrite <- Hk. by destruct k.
  - rewrite bool_decide_false by done. simpl.
    erewrite bind_ok; [|by apply (release_k Lptable _ _ K 0)].
    by rewrite (acquire_k lk _ _ 0).
Qed.

(** ** The oracle through sched and sleep *)

Lemma shrinks_readeflags : shrinks (@readeflags kernel _).
Proof. unfold readeflags. shrink. Qed.
#[export] Hint Resolve shrinks_readeflags : xv6.
Lemma shrinks_mycpu : shrinks (@mycpu kernel _).
Proof. unfold mycpu, lapicid. shrink. Qed.
#[export] Hint Resolve shrinks_mycpu : xv6.
Lemma shrinks_pushcli : shrinks (@pushcli kernel _).
Proof. unfold pushcli, cli, on_lks. shrink. Qed.
Lemma shrinks_popcli : shrinks (@popcli kernel _).
Proof. unfold popcli, sti, on_lks. shrink. Qed.
#[export] Hint Resolve shrinks_pushcli shrinks_popcli : xv6.
Lemma shrinks_holding l : shrinks (@holding kernel _ l).
Proof. unfold holding. shrink. Qed.
#[export] Hint Resolve shrinks_holding : xv6.
Lemma shrinks_spin l : shrinks (@spin kernel _ l).
Proof.
  intros o. induction o as [|e o IH]; intros s a s' o'; simpl; (case_test; [intros ?; by simplify_eq|]).
  - done.
  - intros H. apply IH in H. lia.
Qed.
#[export] Hint Resolve shrinks_spin : xv6.
Lemma shrinks_acquire l : shrinks (@acquire kernel _ l).
Proof. unfold acquire, on_lks. shrink. Qed.
Lemma shrinks_release l : shrinks (@release kernel _ l).
Proof. unfold release, on_lks. shrink. Qed.
Lemma shrinks_mythread : shrinks mythread.
Proof. unfold mythread. shrink. Qed.
Lemma shrinks_myproc : shrinks myproc.
Proof. unfold myproc. shrink. Qed.
Lemma shrinks_deref {A} (x : option A) : shrinks (deref x).
Proof. unfold deref. shrink. Qed.
Lemma shrinks_rd_thread t : shrinks (rd_thread t).
Proof. unfold rd_thread. shrink. Qed.
Lemma shrinks_rd_proc i : shrinks (rd_proc i).
Proof. unfold rd_proc. shrink. Qed.
Lemma shrinks_upd_thread t f : shrinks (upd_thread t f).
Proof. unfold upd_thread. shrink. Qed.
Lemma shrinks_set_intena v : shrinks (set_intena v).
Proof. unfold set_intena. shrink. Qed.
#[export] Hint Resolve shrinks_acquire shrinks_release shrinks_mythread shrinks_myproc
  shrinks_deref shrinks_rd_thread shrinks_rd_proc shrinks_upd_thread shrinks_set_intena : xv6.
Lemma shrinks_dispatch p t : shrinks (dispatch p t).
Proof. unfold dispatch, switchuvm. shrink. Qed.
#[export] Hint Resolve shrinks_dispatch : xv6.
Lemma shrinks_wakeup1 ch : shrinks (wakeup1 ch).
Proof. unfold wakeup1. shrink. Qed.
#[export] Hint Resolve shrinks_wakeup1 : xv6.
Lemma shrinks_wakeup ch : shrinks (wakeup ch).
Proof. unfold wakeup. shrink. Qed.
#[export] Hint Resolve shrinks_wakeup : xv6.

(** Leaving the CPU uses up at least one step of the others. *)
Definition waits {A} (m : KM A) : Prop :=
  ∀ o s a s' o', m o s = Ok a s' o' → (length o' < length o)%nat.

Lemma waits_bind_l {A B} (m : KM A) (f : A → KM B) :
  waits m → (∀ a, shrinks (f a)) → waits (bind m f).
Proof.
  intros Hm Hf o s b s' o' H. unfold bind in H. destruct (m o s) eqn:E; try done.
  apply Hm in E. apply Hf in H. lia.
Qed.
Lemma waits_bind_r {A B} (m : KM A) (f : A → KM B) :
  shrinks m → (∀ a, waits (f a)) → waits (bind m f).
Proof.
  intros Hm Hf o s b s' o' H. unfold bind in H. destruct (m o s) eqn:E; try done.
  apply Hm in E. apply Hf in H. lia.
Qed.
Lemma waits_panic {A} msg : waits (@panic kernel A msg).
Proof. intros o s a s' o' H. done. Qed.

Lemma waits_offcpu t : waits (offcpu t).
Proof.
  intros o. induction o as [|e o IH]; intros s a s' o'; simpl; [done|].
  case_test; intros H; [apply shrinks_dispatch in H|apply IH in H]; lia.
Qed.

Lemma waits_sched : waits sched.
Proof.
  unfold sched. do 3 (apply waits_bind_r; [auto with xv6|intros ?]).
  case_test; [apply waits_panic|]. do 2 (apply waits_bind_r; [auto with xv6|intros ?]).
  case_test; [apply waits_panic|]. apply waits_bind_r; [auto with xv6|intros ?].
  case_decide; [apply waits_panic|]. apply waits_bind_r; [auto with xv6|intros ?].
  case_test; [apply waits_panic|]. apply waits_bind_r; [auto with xv6|intros ?].
  apply waits_bind_l; [apply waits_offcpu|auto with xv6].
Qed.

Lemma waits_sleep ch lk : waits (sleep ch lk).
Proof.
  unfold sleep. apply waits_bind_r; [auto with xv6|]. intros [t|]; [|apply waits_panic].
  do 3 (apply waits_bind_r; [shrink|intros ?]).
  apply waits_bind_l; [apply waits_sched|intros ?]. shrink.
Qed.

(** ** A sleep that ends *)

(** [e] is what the others do until this thread, RUNNABLE again, is picked. *)
Definition resumed (t : tslot) (lk : lockid) (K : lkstate) (th : kthread) (pr : proc)
    (k : kernel) : kernel :=
  set_k_lk (lk_acquire lk K) (alter_thread (set_t_chan None) t (dispatched (fst t) t th pr k)).

Lemma sleep_resumes ch lk e o k K t th th' pr :
  calm K 0 → lock_free Lptable K → lock_free lk K → k_lk k = lk_acquire lk K →
  k_thread k = Some t → thread_at t k = Some th →
  let k1 := e (asleep ch t K k) in
  k_lk k1 = lk_acquire Lptable K →
  thread_at t k1 = Some th' → t_state th' = RUNNABLE → t_kstack th' ≠ 0 →
  k_procs k1 !! fst t = Some pr → p_state pr = USED → p_pgdir pr ≠ 0 →
  sleep ch lk (e :: o) k = Ok tt (resumed t lk K th' pr k1) o.
Proof.
  intros Hc Hf Hfl Hk Ht Hth k1 Hl1 Hth1 Hs1 Hks Hp Hps Hpg.
  rewrite (sleep_eq ch lk _ k K t th) by done.
  assert (pickable t k1 = true) as Hpick.
  { rewrite (pickable_iff _ _ _ _ Hth1 Hp). by rewrite !bool_decide_true. }
  unfold bind. cbn [offcpu]. fold k1. rewrite Hpick.
  rewrite (dispatch_eq (fst t) t o k1 1 th' pr);
    [|rewrite Hl1; by apply (calm_acquire Lptable K 0)|done..].
  rewrite (sleep_tail_eq t lk _ _ _ K); [done|done..|].
  unfold cpu_self, dispatched. simpl. by rewrite Hl1.
Qed.

Lemma thread_at_resumed t lk K th pr k t' :
  thread_at t' (resumed t lk K th pr k) =
    if decide (t = t') then (λ x, set_t_chan None (set_t_state RUNNING x)) <$> thread_at t' k
    else thread_at t' k.
Proof.
  unfold resumed. rewrite thread_at_set_k_lk, thread_at_alter, thread_at_dispatched.
  case_decide; [|done]. by rewrite <- option_fmap_compose.
Qed.

(** Waking threads does not look at the locks. *)
Lemma alter_threads_ttable f ts k1 k2 :
  k_ttable k1 = k_ttable k2 → k_ttable (alter_threads f ts k1) = k_ttable (alter_threads f ts k2).
Proof.
  unfold alter_threads. revert k1 k2. induction ts as [|t ts IH]; intros k1 k2 E; [done|]. simpl.
  apply IH. unfold alter_thread. simpl. by rewrite E.
Qed.
Lemma wake_all_set_lk ch K k : wake_all ch (set_k_lk K k) = set_k_lk K (wake_all ch k).
Proof.
  rewrite wake_all_frame, (wake_all_frame ch k). unfold wake_all.
  change (live_slots (set_k_lk K k)) with (live_slots k).
  rewrite (alter_threads_ttable _ _ (set_k_lk K k) k) by done. by destruct k.
Qed.

(** wakeup takes and gives back the lock of the table around [wakeup1]. *)
Lemma wakeup_eq ch o k n :
  ptable_wf k → calm (k_lk k) n → lock_free Lptable (k_lk k) →
  wakeup ch o k = Ok tt (wake_all ch k) o.
Proof.
  intros Hwf Hc Hf. unfold wakeup. kacquire Hc Hf.
  rewrite (bind_ok _ _ _ _ _ _ _ (wakeup1_eq ch o _ (ptable_wf_set_lk _ _ Hwf))), wake_all_set_lk.
  krelease Hc Hf. rewrite (wake_all_frame ch k). by destruct k.
Qed.

(** ** Main theorems *)

(** wakeup makes RUNNABLE exactly the threads sleeping on the channel in
    processes that are in use, and changes nothing else of the kernel state. *)
Theorem wakeup_exact ch o k n :
  ptable_wf k → calm (k_lk k) n → n < 999999 → lock_free Lptable (k_lk k) →
  ∃ k', wakeup ch o k = Ok tt k' o ∧ k' = set_k_ttable (k_ttable k') k ∧
    ∀ t, thread_at t k' =
      match k_procs k !! fst t with
      | Some p => if decide (p_state p = UNUSED) then thread_at t k
                  else (λ x, if sleeping_on ch x then set_t_state RUNNABLE x else x)
                       <$> thread_at t k
      | None => thread_at t k
      end.
Proof.
  intros Hwf Hc Hn Hf. exists (wake_all ch k). split_and!.
  - by apply (wakeup_eq _ _ _ n).
  - apply wake_all_frame.
  - intros t. by apply wake_all_at.
Qed.

(** *** Waiting for ptable.lock in sleep *)

(** The locks while sleep waits for ptable.lock: [lk] is held and acquire has
    masked interrupts once more; [K] is the lock state without both. *)
Definition in_acquire (lk : lockid) (K : lkstate) : lkstate := push_k (self_ix K) false (lk_acquire lk K).

(** What other CPUs do meanwhile.  They may change anything, ptable.lock included,
    but not the lock that this CPU holds, nor this CPU and its thread; nothing is
    said of what they do when [lk] is not held. *)
Definition others_run (lk : lockid) (t : tslot) (e : kernel → kernel) : Prop :=
  ∀ k K, calm K 0 → lock_free lk K → k_lk k = in_acquire lk K → ptable_wf k →
  ∃ K', calm K' 0 ∧ lock_free lk K' ∧ self_ix K' = self_ix K ∧ k_lk (e k) = in_acquire lk K' ∧ ptable_wf (e k) ∧
    thread_at t (e k) = thread_at t k ∧ k_thread (e k) = k_thread k ∧ k_procs (e k) !! fst t = k_procs k !! fst t.

Lemma in_acquire_setlock lk l x K :
  lk ≠ l → setlock l x (in_acquire lk K) = in_acquire lk (setlock l x K).
Proof.
  intros Hne. unfold in_acquire, lk_acquire, push_k, acq_k, cpu_alter, set_if, setcpus, sethw, setlock. cbn.
  unfold getlock. cbn. rewrite lookup_insert_ne by done. f_equal. by rewrite insert_insert_ne.
Qed.

Lemma lock_free_setlock_ne lk l x K : lk ≠ l → lock_free lk K → lock_free lk (setlock l x K).
Proof. intros Hne H. unfold lock_free in *. rewrite getlock_setlock_ne by done. cbn. by rewrite lookup_insert_ne. Qed.
Lemma calm_setlock l x K n : calm K n → calm (setlock l x K) n.
Proof. done. Qed.
Lemma lock_free_in_acquire lk l K : lk ≠ l → lock_free l (in_acquire lk K) → lock_free l K.
Proof.
  intros Hne H. unfold lock_free, in_acquire, lk_acquire, acq_k, push_k, getlock in *. cbn in H. by rewrite lookup_insert_ne in H.
Qed.

Lemma spins_others lk t es k K ke :
  lk ≠ Lptable → Forall (others_run lk t) es → calm K 0 → lock_free lk K → k_lk k = in_acquire lk K → ptable_wf k →
  spins Lptable es k = Some ke →
  ∃ K', calm K' 0 ∧ lock_free lk K' ∧ self_ix K' = self_ix K ∧ k_lk ke = in_acquire lk K' ∧ ptable_wf ke ∧
    thread_at t ke = thread_at t k ∧ k_thread ke = k_thread k ∧ k_procs ke !! fst t = k_procs k !! fst t.
Proof.
  intros Hne Hes. revert k K. induction Hes as [|e es He _ IH]; intros k K Hc Hf Hk Hwf; cbn [spins].
  - destruct (_ =? 0); [|done]. intros [= <-]. by exists K.
  - destruct (_ =? 0); [done|]. set (k1 := set_lks _ k). intros H.
    destruct (He k1 (setlock Lptable (Spinlock 1 (l_cpu (getlock Lptable (k_lk k))) (l_name (getlock Lptable (k_lk k)))) K))
      as (K1 & C1 & F1 & S1 & E1 & W1 & T1 & T2 & P1); [done|by apply lock_free_setlock_ne| |by apply ptable_wf_set_lk|].
    { unfold k1, xchg1. cbn. rewrite Hk. by rewrite in_acquire_setlock. }
    destruct (IH (e k1) K1 C1 F1 E1 W1 H) as (K' & ? & ? & S' & ? & ? & T1' & T2' & P1'). exists K'.
    split_and!; [done|done|by rewrite S', S1|done|done|by rewrite T1', T1|by rewrite T2', T2|by rewrite P1', P1].
Qed.

(** sleep called while others hold ptable.lock: it is as if it had been called when
    they let go of it. *)
Lemma sleep_spins ch lk es o k K ke t :
  lk ≠ Lptable → Forall (others_run lk t) es → calm K 0 → lock_free lk K → k_lk k = lk_acquire lk K → ptable_wf k →
  held_by_self Lptable K = false → k_thread k = Some t →
  spins Lptable es (set_k_lk (in_acquire lk K) k) = Some ke →
  ∃ K', calm K' 0 ∧ lock_free lk K' ∧ k_lk ke = in_acquire lk K' ∧ ptable_wf ke ∧
    thread_at t ke = thread_at t k ∧ k_thread ke = k_thread k ∧ k_procs ke !! fst t = k_procs k !! fst t ∧
    sleep ch lk (es ++ o) k = sleep ch lk o (set_k_lk (lk_acquire lk K') ke).
Proof.
  intros Hne Hes Hc Hf Hk Hwf Hh Ht Hsp.
  destruct (spins_others lk t es (set_k_lk (in_acquire lk K) k) K ke Hne Hes Hc Hf eq_refl (ptable_wf_set_lk _ _ Hwf) Hsp) as (K' & C' & F' & S' & E' & W' & T1 & T2 & P1).
  exists K'. split_and!; [done..|].
  pose proof (calm_acquire lk _ _ Hc ltac:(lia)) as Hc1. pose proof (calm_acquire lk _ _ C' ltac:(lia)) as Hc1'.
  unfold sleep. erewrite bind_ok; [|eapply mythread_calm; rewrite Hk; exact Hc1].
  erewrite (bind_ok mythread); [|eapply mythread_calm; exact Hc1']. change (k_thread (set_k_lk _ ke)) with (k_thread ke).
  rewrite T2. change (k_thread (set_k_lk _ k)) with (k_thread k). rewrite Ht, (bool_decide_false (lk = Lptable)) by done. cbn [negb when].
  pose proof Hc as (i & c & b & H & Hn & _). destruct (lk_at_self _ _ _ _ H) as [Hs Hif].
  pose proof C' as (i' & c' & b' & H' & Hn' & _). destruct (lk_at_self _ _ _ _ H') as [Hs' Hif'].
  assert (i' = i) as -> by congruence.
  assert (lk_acquire lk K = acq_k i b lk K) as EK by (unfold lk_acquire; by rewrite Hs, Hif).
  assert (lk_acquire lk K' = acq_k i b' lk K') as EK' by (unfold lk_acquire; by rewrite Hs', Hif').
  unfold bind at 1 2. unfold bind at 6 7.
  rewrite (acquire_spins Lptable es o k ke i (pushed b c) (pushed b' c') false (lk_acquire lk K')); [done|..].
  - cbn. rewrite Hk, EK. apply lk_at_acq; [done|lia].
  - cbn. lia.
  - cbn. rewrite Hk, EK, holding_acq_ne by done. unfold held_by_self in Hh. by rewrite Hs in Hh.
  - cbn. rewrite Hk. unfold in_acquire in Hsp. by rewrite Hs in Hsp.
  - cbn. rewrite E'. unfold in_acquire. by rewrite Hs'.
  - rewrite EK'. apply lk_at_acq; [done|lia].
  - cbn. lia.
Qed.

(** The code of the thread that wakes: the scheduler lets go of ptable.lock, the
    thread takes [lk], calls wakeup and releases [lk], and the scheduler looks for
    a thread to run again. *)
Definition waker (ch : chan) (lk : lockid) : KM unit :=
  release Lptable ;;;
  acquire lk ;;;
  wakeup ch ;;;
  release lk ;;;
  acquire Lptable.
Definition ran (c : KM unit) (k : kernel) : kernel := final (c [] k).

Lemma ran_waker ch lk k K :
  ptable_wf k → calm K 0 → lock_free Lptable K → lock_free lk K → lk ≠ Lptable → k_lk k = lk_acquire Lptable K →
  ran (waker ch lk) k = wake_all ch k.
Proof.
  intros Hwf Hc Hf Hfl Hne Hk. unfold ran, waker.
  erewrite bind_ok; [|eapply release_k; [exact Hc|exact Hf|exact Hk]].
  erewrite bind_ok; [|eapply acquire_k; [exact Hc|exact Hfl]]. kproj.
  pose proof (calm_acquire lk _ _ Hc ltac:(lia)) as Hc1.
  erewrite bind_ok; [|eapply wakeup_eq; [do 2 apply ptable_wf_set_lk; exact Hwf|exact Hc1|by apply lock_free_acquire_ne]].
  erewrite bind_ok; [|eapply release_k; [exact Hc|exact Hfl|by rewrite wake_all_lk]].
  erewrite acquire_k; [|exact Hc|exact Hf]. cbn [final]. rewrite !wake_all_set_lk. cbn. rewrite <- Hk.
  rewrite (wake_all_frame ch k). by destruct k.
Qed.

(** A sleep that others end as a wakeup does. *)
Lemma sleep_woken ch lk e o k K t th pr :
  ptable_wf k → calm K 0 → lock_free Lptable K → lock_free lk K →
  k_lk k = lk_acquire lk K → k_thread k = Some t → thread_at t k = Some th →
  t_kstack th ≠ 0 → k_procs k !! fst t = Some pr → p_state pr = USED → p_pgdir pr ≠ 0 →
  e (asleep ch t K k) = wake_all ch (asleep ch t K k) →
  ∃ k', sleep ch lk (e :: o) k = Ok tt k' o ∧
    k_lk k' = lk_acquire lk K ∧ k_thread k' = Some t ∧ k_proc k' = Some (fst t) ∧
    thread_at t k' = Some (set_t_chan None (set_t_state RUNNING th)) ∧
    ∀ t', t' ≠ t → thread_at t' k' = thread_at t' (wake_all ch k).
Proof.
  intros Hwf Hc Hf Hfl Hk Ht Hth Hks Hp Hps Hpg He.
  set (k1 := asleep ch t K k) in *.
  assert (ptable_wf k1) as Hwf1 by (by apply ptable_wf_asleep).
  assert (thread_at t k1 = Some (set_t_state SLEEPING (set_t_chan (Some ch) th))) as Hth1.
  { unfold k1. by rewrite thread_at_asleep, decide_True, Hth by done. }
  assert (k_procs k1 !! fst t = Some pr) as Hp1 by done.
  assert (thread_at t (wake_all ch k1) = Some (set_t_state RUNNABLE (set_t_chan (Some ch) th))) as Hth2.
  { rewrite wake_all_at, Hp1, decide_False, Hth1 by (done || by rewrite Hps).
    simpl. unfold wake_thread, sleeping_on. simpl. by rewrite !bool_decide_true. }
  exists (resumed t lk K (set_t_state RUNNABLE (set_t_chan (Some ch) th)) pr (e k1)). rewrite He.
  split_and!; [|done..| |].
  - rewrite <- He. apply (sleep_resumes ch lk e o k K t th); fold k1; try rewrite He; try done;
      [by rewrite wake_all_lk|by rewrite wake_all_procs].
  - rewrite thread_at_resumed, decide_True, Hth2 by done. by destruct th.
  - intros t' Hne. rewrite thread_at_resumed, decide_False, !wake_all_at by done.
    unfold k1. by rewrite thread_at_asleep, decide_False by done.
Qed.

(** sleep on ptable.lock itself, as in wait: the waker holds it too. *)
Theorem sleep_wakeup1 ch o k K t th pr :
  ptable_wf k → calm K 0 → lock_free Lptable K → k_lk k = lk_acquire Lptable K →
  k_thread k = Some t → thread_at t k = Some th → t_kstack th ≠ 0 →
  k_procs k !! fst t = Some pr → p_state pr = USED → p_pgdir pr ≠ 0 →
  ∃ k', sleep ch Lptable (ran (wakeup1 ch) :: o) k = Ok tt k' o ∧
    k_lk k' = lk_acquire Lptable K ∧ thread_at t k' = Some (set_t_chan None (set_t_state RUNNING th)).
Proof.
  intros Hwf Hc Hf Hk Ht Hth Hks Hp Hps Hpg.
  destruct (sleep_woken ch Lptable (ran (wakeup1 ch)) o k K t th pr) as (k' & H1 & H2 & _ & _ & H3 & _); try done.
  - unfold ran. by rewrite wakeup1_eq by (by apply ptable_wf_asleep).
  - by exists k'.
Qed.

(** [C39] No wakeup is lost between sleep's release of its lock and its sleep.  A
    thread calls sleep(chan, lk) holding only lk, while other CPUs may hold
    ptable.lock for any number of steps [es], in which they respect lk as long as
    it is held.  When sleep gets ptable.lock, and not before, lk becomes free, and
    no one runs until the thread is asleep on chan: another thread that then takes
    lk, calls wakeup(chan) and releases lk, with the code of these functions, ends
    the sleep.  sleep returns with the thread RUNNING, its channel cleared and lk
    held again, and the only other threads it finds changed are those that the
    wakeup woke. *)
Theorem sleep_wakeup ch lk es o k K ke t th pr :
  lk ≠ Lptable → ptable_wf k → calm K 0 → held_by_self Lptable K = false → lock_free lk K →
  k_lk k = lk_acquire lk K → k_thread k = Some t → thread_at t k = Some th →
  t_kstack th ≠ 0 → k_procs k !! fst t = Some pr → p_state pr = USED → p_pgdir pr ≠ 0 →
  Forall (others_run lk t) es →
  spins Lptable es (set_k_lk (in_acquire lk K) k) = Some ke → lock_free Lptable (k_lk ke) →
  ∃ k' K', sleep ch lk (es ++ ran (waker ch lk) :: o) k = Ok tt k' o ∧
    calm K' 0 ∧ lock_free lk K' ∧ k_lk k' = lk_acquire lk K' ∧
    k_thread k' = Some t ∧ k_proc k' = Some (fst t) ∧
    thread_at t k' = Some (set_t_chan None (set_t_state RUNNING th)) ∧
    ∀ t', t' ≠ t → thread_at t' k' = thread_at t' (wake_all ch ke).
Proof.
  intros Hne Hwf Hc Hh Hfl Hk Ht Hth Hks Hp Hps Hpg Hes Hsp Hfe.
  destruct (sleep_spins ch lk es (ran (waker ch lk) :: o) k K ke t) as (K' & C' & F' & E' & W' & T1 & T2 & P1 & ->); [done..|].
  rewrite E' in Hfe. apply lock_free_in_acquire in Hfe; [|done]. set (k2 := set_k_lk (lk_acquire lk K') ke).
  destruct (sleep_woken ch lk (ran (waker ch lk)) o k2 K' t th pr) as (k' & H1 & H2 & H3 & H4 & H5 & H6); try done.
  - by apply ptable_wf_set_lk.
  - cbn. by rewrite T2.
  - unfold k2. by rewrite thread_at_set_k_lk, T1.
  - cbn. by rewrite P1.
  - apply (ran_waker ch lk _ K'); [by apply ptable_wf_asleep, ptable_wf_set_lk|done..].
  - exists k', K'. split_and!; [done..|]. intros t' Hne'. rewrite H6 by done. unfold k2. by rewrite wake_all_set_lk, thread_at_set_k_lk.
Qed.

(** A thread that sleeps stays off the CPU, asleep and with its channel
    set, as long as no other thread changes its record: sleep never returns
    spuriously. *)
Theorem sleep_needs_wakeup ch lk o k K t th :
  calm K 0 → lock_free Lptable K → lock_free lk K → k_lk k = lk_acquire lk K →
  k_thread k = Some t → thread_at t k = Some th →
  Forall (λ e, ∀ k1, thread_at t (e k1) = thread_at t k1) o →
  ∃ k', sleep ch lk o k = Wait k' ∧
        thread_at t k' = Some (set_t_state SLEEPING (set_t_chan (Some ch) th)).
Proof.
  intros Hc Hf Hfl Hk Ht Hth Ho. rewrite (sleep_eq ch lk _ k K t th) by done.
  set (P := λ k1, thread_at t k1 = Some (set_t_state SLEEPING (set_t_chan (Some ch) th))).
  destruct (offcpu_waits P t o (asleep ch t K k)) as (k' & Hk' & HP).
  - intros k1 Hk1. unfold pickable. by rewrite Hk1.
  - unfold P. by rewrite thread_at_asleep, decide_True, Hth by done.
  - eapply Forall_impl; [exact Ho|]. intros e He s Hs. unfold P in *. by rewrite He.
  - exists k'. split; [|done]. unfold bind. by rewrite Hk'.
Qed.

(** ** The scheduler *)

(** The states in which the scheduler hands the CPU to a thread. *)
Definition running (t : tslot) (k : kernel) : Prop :=
  k_thread k = Some t ∧ k_proc k = Some (fst t) ∧
  ∃ th p, thread_at t k = Some th ∧ t_state th = RUNNING ∧
    k_procs k !! fst t = Some p ∧ p_state p = USED ∧
    k_cr3 k = V2P (p_pgdir p) ∧ k_esp0 k = u32 (t_kstack th + KSTACKSIZE).

(** Every RUNNABLE thread has a kernel stack, and its process is in use and
    has a page table; [KL] is the lock state while the table is locked. *)
Definition sched_inv (KL : lkstate) (k : kernel) : Prop :=
  ptable_wf k ∧ k_lk k = KL ∧
  ∀ t th, thread_at t k = Some th → t_state th = RUNNABLE →
    ∃ p, k_procs k !! fst t = Some p ∧ p_state p = USED ∧ t_kstack th ≠ 0 ∧ p_pgdir p ≠ 0.

(** What the scheduler relies on: a thread that was handed the CPU properly
    gives it back in a good state. *)
Definition sched_rely (KL : lkstate) (o : list (kernel → kernel)) : Prop :=
  Forall (λ e, ∀ t k, running t k → ptable_wf k → k_lk k = KL → sched_inv KL (e k)) o.

Lemma sched_inv_ext KL k k' :
  k_lk k' = k_lk k → k_procs k' = k_procs k → k_ttable k' = k_ttable k →
  sched_inv KL k → sched_inv KL k'.
Proof.
  intros Hl Hp Ht (H1 & H2 & H3). unfold sched_inv, thread_at in *.
  rewrite Hl, Hp, Ht. split_and!; [by eapply ptable_wf_ext|done|done].
Qed.

Definition sched_ok (KL : lkstate) (r : res kernel unit) : Prop :=
  match r with
  | Ok _ k' o' => sched_inv KL k' ∧ sched_rely KL o'
  | Wait k' => ∃ t, running t k'
  | _ => False
  end.

Lemma for_each_sched_ok {A} KL (l : list A) (body : A → KM unit) o k :
  (∀ x o k, x ∈ l → sched_inv KL k → sched_rely KL o → sched_ok KL (body x o k)) →
  sched_inv KL k → sched_rely KL o → sched_ok KL (for_each l body o k).
Proof.
  revert o k. induction l as [|x l IH]; intros o k Hb Hk Ho; simpl; [done|].
  pose proof (Hb x o k ltac:(set_solver) Hk Ho) as Hx. unfold bind.
  destruct (body x o k); simpl in *; try done. destruct Hx. apply IH; [set_solver|done..].
Qed.

(** Dispatching a RUNNABLE thread of the row of process [i] hands over a
    proper state. *)
Lemma dispatch_running KL i j o k n th :
  calm KL n → sched_inv KL k → thread_at (i, j) k = Some th → t_state th = RUNNABLE →
  ∃ k', dispatch i (i, j) o k = Ok tt k' o ∧ running (i, j) k' ∧ ptable_wf k' ∧ k_lk k' = KL.
Proof.
  intros Hc (Hwf & Hl & Hr) Ht Hs. destruct (Hr _ _ Ht Hs) as (p & Hpr & Hu & Hks & Hpg).
  exists (dispatched i (i, j) th p k). split_and!; [|split_and!| |done]; try done.
  - by rewrite (dispatch_eq _ _ _ _ n th p) by (rewrite ?Hl; done).
  - exists (set_t_state RUNNING th), p. rewrite thread_at_dispatched, decide_True, Ht by done. done.
  - apply ptable_wf_alter_thread. by eapply ptable_wf_ext; [..|exact Hwf].
Qed.

(** [C40] The scheduler's pass over the table never panics and never runs a
    thread that is not ready: each time it gives the CPU away, the current
    thread is RUNNING in a USED process, with that process's page table and
    the thread's kernel stack loaded; provided the threads it runs give the
    CPU back with the table well formed, the pass ends in such a state. *)
Theorem scheduler_pass_safe KL n o k :
  calm KL n → sched_inv KL k → sched_rely KL o → sched_ok KL (scheduler_pass o k).
Proof.
  intros Hc. unfold scheduler_pass. apply for_each_sched_ok. clear o k.
  intros i o k Hi Hk Ho. apply elem_of_seq in Hi. destruct Hk as (Hwf & Hl & Hr).
  destruct (proc_at_wf k i Hwf ltac:(lia)) as [p Hp].
  rewrite (bind_ok _ _ _ _ _ _ _ (rd_proc_eq _ _ _ _ Hp)).
  case_decide as Hu; [|done].
  rewrite (wf_threads _ Hwf _ _ Hp) by (by rewrite Hu). unfold bind at 1, deref, ret.
  assert (sched_inv KL k) as Hk by done. clear Hwf Hl Hr Hp Hu.
  revert Hk Ho. apply for_each_sched_ok. clear o k.
  intros j o k Hj Hk Ho. apply elem_of_seq in Hj. pose proof Hk as (Hwf & Hl & Hr).
  destruct (thread_at_wf k (i, j) Hwf) as [th Hth]; [simpl; lia..|].
  rewrite (bind_ok _ _ _ _ _ _ _ (rd_thread_eq _ _ _ _ Hth)).
  case_decide as Hs; [|done].
  destruct (dispatch_running KL i j o k n th Hc Hk Hth Hs) as (k' & Hd & Hrun & Hwf' & Hl').
  rewrite (bind_ok _ _ _ _ _ _ _ Hd). unfold bind at 1, run_thread.
  destruct o as [|e o]; [by exists (i, j)|]. apply Forall_cons in Ho as [He Ho].
  split; [|done]. eapply sched_inv_ext; [| | |exact (He _ _ Hrun Hwf' Hl')]; done.
Qed.

(** ** Concrete states *)

(** Process 0 in use with thread 0 running and thread 1 asleep on the ticks;
    process 1 in use with thread 0 ready. *)
Definition demo_proc (pid : Z) (i : nat) : proc :=
  set_p_threads (Some i) (set_p_state USED (set_p_pid pid (set_p_pgdir 0x80400000 proc0))).
Definition demo_thread (tid : Z) (i : nat) (s : threadstate) (ch : option chan) : kthread :=
  Kthread 0x80401000 0 s tid (Some i) 0x80401FB4 0x80401FA0 ch 0.
Definition demo_kernel : kernel :=
  set_k_proc (Some 0%nat) (set_k_thread (Some (0, 0)%nat)
    (set_k_procs (<[0%nat := demo_proc 1 0]> (<[1%nat := demo_proc 2 1]> (k_procs boot_kernel)))
    (set_k_ttable
       (<[0%nat := demo_thread 1 0 RUNNING None :: demo_thread 2 0 SLEEPING (Some ChTicks)
                   :: replicate 14 kthread0]>
       (<[1%nat := demo_thread 3 1 RUNNABLE None :: replicate 15 kthread0]> (k_ttable boot_kernel)))
       boot_kernel))).

Lemma demo_kernel_wf : ptable_wf demo_kernel.
Proof.
  split; [done|done| |].
  - intros i ts. change NTHREAD with 16%nat.
    assert (Forall (λ ts, length ts = 16%nat) (k_ttable demo_kernel)) as H.
    { apply Forall_forall. intros x Hx. vm_compute in Hx.
      repeat (apply elem_of_cons in Hx as [->|Hx]; [done|]). by apply elem_of_nil in Hx. }
    intros Hi. by apply (Forall_lookup_1 _ _ _ _ H Hi).
  - intros [|[|i]] p Hp Hs; [by vm_compute in Hp; simplify_eq..|].
    exfalso. apply Hs. change (k_procs demo_kernel !! S (S i)) with (replicate 62 proc0 !! i) in Hp.
    by apply lookup_replicate in Hp as [-> _].
Qed.

Lemma wakeup_exact_witness :
  ∃ k', wakeup ChTicks [] demo_kernel = Ok tt k' [] ∧
        t_state <$> thread_at (0, 1)%nat k' = Some RUNNABLE ∧
        t_state <$> thread_at (0, 0)%nat k' = Some RUNNING.
Proof.
  destruct (wakeup_exact ChTicks [] demo_kernel 0 demo_kernel_wf boot_lks_calm ltac:(lia)
              ltac:(boot_free)) as (k' & H & _ & Ht).
  exists k'. rewrite !Ht. split; [exact H|]. split; reflexivity.
Defined.

(** CPU 1 holds ptable.lock when thread (0, 0) calls sleep on CPU 0, and lets go of
    it once. *)
Definition demo_busy : lkstate := setlock Lptable (Spinlock 1 (Some 1%nat) (l_name (getlock Lptable boot_lks))) boot_lks.
Definition demo_lets_go (k : kernel) : kernel :=
  set_k_lk (setlock Lptable (Spinlock 0 None (l_name (getlock Lptable (k_lk k)))) (k_lk k)) k.

Lemma demo_lets_go_runs : others_run Ltickslock (0, 0)%nat demo_lets_go.
Proof.
  intros k K Hc Hf Hk Hwf. exists (setlock Lptable (Spinlock 0 None (l_name (getlock Lptable (k_lk k)))) K).
  split_and!; [done|by apply lock_free_setlock_ne|done| |by apply ptable_wf_set_lk|done..].
  cbn. rewrite Hk. by apply in_acquire_setlock.
Qed.

Lemma sleep_wakeup_witness :
  ∃ k' K', sleep ChTicks Ltickslock [demo_lets_go; ran (waker ChTicks Ltickslock)]
          (set_k_lk (lk_acquire Ltickslock demo_busy) demo_kernel) = Ok tt k' [] ∧
        k_lk k' = lk_acquire Ltickslock K' ∧ lock_free Ltickslock K'.
Proof.
  destruct (sleep_wakeup ChTicks Ltickslock [demo_lets_go] []
              (set_k_lk (lk_acquire Ltickslock demo_busy) demo_kernel) demo_busy
              (demo_lets_go (set_k_lk (in_acquire Ltickslock demo_busy) demo_kernel)) (0, 0)%nat
              (demo_thread 1 0 RUNNING None) (demo_proc 1 0) ltac:(discriminate)
              (ptable_wf_set_lk _ _ demo_kernel_wf) (calm_setlock _ _ _ _ boot_lks_calm) ltac:(vm_compute; reflexivity)
              ltac:(vm_compute; reflexivity) eq_refl eq_refl eq_refl ltac:(discriminate)
              eq_refl eq_refl ltac:(discriminate)) as (k' & K' & H & _ & Hf & Hl & _).
  - apply Forall_singleton. exact demo_lets_go_runs.
  - reflexivity.
  - vm_compute. reflexivity.
  - exists k', K'. split; [exact H|]. split; [exact Hl|exact Hf].
Defined.

Lemma sleep_needs_wakeup_witness :
  ∃ k', sleep ChTicks Ltickslock [set_k_ticks 5]
          (set_k_lk (lk_acquire Ltickslock boot_lks) demo_kernel) = Wait k' ∧
        thread_at (0, 0)%nat k' = Some (demo_thread 1 0 SLEEPING (Some ChTicks)).
Proof.
  apply (sleep_needs_wakeup ChTicks Ltickslock [set_k_ticks 5]
              (set_k_lk (lk_acquire Ltickslock boot_lks) demo_kernel) boot_lks (0, 0)%nat
              (demo_thread 1 0 RUNNING None)); auto with xv6.
Defined.

Lemma demo_sched_inv : sched_inv boot_lks demo_kernel.
Proof.
  split_and!; [exact demo_kernel_wf|done|].
  intros [i j] th Ht Hs. unfold thread_at in Ht. cbn [fst snd] in *.
  destruct i as [|[|i]].
  - do 2 (destruct j as [|j]; [by vm_compute in Ht; simplify_eq|]).
    change (replicate 14 kthread0 !! j = Some th) in Ht.
    by apply lookup_replicate in Ht as [-> _].
  - exists (demo_proc 2 1). destruct j as [|j].
    + vm_compute in Ht. simplify_eq. by split_and!.
    + change (replicate 15 kthread0 !! j = Some th) in Ht.
      by apply lookup_replicate in Ht as [-> _].
  - change (k_ttable demo_kernel !! S (S i)) with (replicate 62 (replicate 16 kthread0) !! i) in Ht.
    destruct (replicate 62 (replicate 16 kthread0) !! i) as [row|] eqn:E; simpl in Ht; [|done].
    apply lookup_replicate in E as [-> _]. by apply lookup_replicate in Ht as [-> _].
Qed.

Lemma scheduler_pass_safe_witness :
  sched_inv boot_lks demo_kernel ∧ sched_ok boot_lks (scheduler_pass [λ _, demo_kernel] demo_kernel).
Proof.
  split; [exact demo_sched_inv|].
  apply (scheduler_pass_safe boot_lks 0 [λ _, demo_kernel] demo_kernel boot_lks_calm demo_sched_inv).
  apply Forall_singleton. intros t k _ _ _. exact demo_sched_inv.
Defined.
