(* ===== verification/Kalloc.v ===== *)
(** * The physical page allocator

    [kalloc.c]: the free list threaded through the free pages.  The abstract
    view is the list of the free pages; [kalloc] and [kfree] are shown to
    implement pop and push on it, and every history of calls to hand out each
    page at most once and to lose none. *)

From S2P Require Import Prelude Defs Spinlock CString Kernel.
Local Open Scope kernel_scope.

(** ** kalloc.c *)

Definition kfree (v : Z) : KM unit :=
  let! end_ := gets k_end in
  if negb (v `mod` PGSIZE =? 0) || (v <? end_) || (PHYSTOP <=? V2P v) then panic "kfree"
  else
    upd_mem (λ m, memset m v 1 PGSIZE) ;;;
    let! use_lock := gets (λ k, km_use_lock (k_kmem k)) in
    when (negb (use_lock =? 0)) (acquire Lkmem) ;;;
    let! freelist := gets (λ k, km_freelist (k_kmem k)) in
    wr32 v freelist ;;;
    modify (λ k, set_k_kmem (set_km_freelist v (k_kmem k)) k) ;;;
    let! use_lock := gets (λ k, km_use_lock (k_kmem k)) in
    when (negb (use_lock =? 0)) (release Lkmem).

Definition kalloc : KM Z :=
  let! use_lock := gets (λ k, km_use_lock (k_kmem k)) in
  when (negb (use_lock =? 0)) (acquire Lkmem) ;;;
  let! r := gets (λ k, km_freelist (k_kmem k)) in
  when (negb (r =? 0))
    (let! next := rd32 r in
     modify (λ k, set_k_kmem (set_km_freelist next (k_kmem k)) k)) ;;;
  let! use_lock := gets (λ k, km_use_lock (k_kmem k)) in
  when (negb (use_lock =? 0)) (release Lkmem) ;;;
  ret r.

(** The loop of freerange; [n] bounds the number of iterations. *)
Fixpoint freerange_loop (n : nat) (p vend : Z) : KM unit :=
  match n with
  | O => undef "loop bound"
  | S n' =>
      if u32 (p + PGSIZE) <=? vend then
        kfree p ;;;
        freerange_loop n' (u32 (p + PGSIZE)) vend
      else ret tt
  end.

(** At most one iteration per page of the address space. *)
Definition freerange (vstart vend : Z) : KM unit :=
  freerange_loop (Z.to_nat (4294967296 / PGSIZE)) (PGROUNDUP vstart) vend.

Definition kinit1 (vstart vend : Z) : KM unit :=
  initlock Lkmem "kmem" ;;;
  modify (λ k, set_k_kmem (set_km_use_lock 0 (k_kmem k)) k) ;;;
  freerange vstart vend.

Definition kinit2 (vstart vend : Z) : KM unit :=
  freerange vstart vend ;;;
  modify (λ k, set_k_kmem (set_km_use_lock 1 (k_kmem k)) k).

(** ** The abstract view *)

(** [v] is the address of a page the allocator manages. *)
Definition page_ok (end_ v : Z) : Prop :=
  v `mod` PGSIZE = 0 ∧ end_ ≤ v ∧ KERNBASE ≤ v ∧ v < KERNBASE + PHYSTOP.

(** The linked list from address [a] runs through the pages [ps]. *)
Fixpoint flist (m : memory) (a : Z) (ps : list Z) : Prop :=
  match ps with
  | [] => a = 0
  | p :: ps' => a = p ∧ flist m (ld32 m p) ps'
  end.

Record free_pages (ps : list Z) (k : kernel) : Prop := {
  fp_list : flist (k_mem k) (km_freelist (k_kmem k)) ps;
  fp_nodup : NoDup ps;
  fp_ok : Forall (page_ok (k_end k)) ps
}.

(** The allocator's lock is not in the way: it is not used yet, or free. *)
Definition kmem_ready (k : kernel) : Prop :=
  km_use_lock (k_kmem k) = 0 ∨ (∃ n, calm (k_lk k) n) ∧ lock_free Lkmem (k_lk k).

(** The states after a free and after an allocation. *)
Definition kfreed (v : Z) (k : kernel) : kernel :=
  set_k_kmem (set_km_freelist v (k_kmem k))
    (set_k_mem (st32 (memset (k_mem k) v 1 PGSIZE) v (km_freelist (k_kmem k))) k).
Definition kpopped (k : kernel) : kernel :=
  set_k_kmem (set_km_freelist (ld32 (k_mem k) (km_freelist (k_kmem k))) (k_kmem k)) k.
Definition kalloced (k : kernel) : kernel :=
  if km_freelist (k_kmem k) =? 0 then k else kpopped k.

(** ** The operations in closed form *)

Lemma page_ok_not_bad end_ v :
  page_ok end_ v →
  negb (v `mod` PGSIZE =? 0) || (v <? end_) || (PHYSTOP <=? V2P v) = false.
Proof.
  intros (Hm & He & Hk & Hp). rewrite Hm. simpl.
  assert (V2P v = v - KERNBASE) as -> by (unfold V2P; apply u32_small; unfold KERNBASE, PHYSTOP in *; lia).
  apply orb_false_iff. split; [apply Z.ltb_ge|apply Z.leb_gt]; lia.
Qed.

Lemma kfree_eq v o k :
  page_ok (k_end k) v → kmem_ready k → kfree v o k = Ok tt (kfreed v k) o.
Proof.
  intros Hv Hr. unfold kfree, upd_mem, wr32. mrun. rewrite page_ok_not_bad by done. mrun. kproj.
  destruct (Z.eqb_spec (km_use_lock (k_kmem k)) 0) as [E|E]; mrun; kproj.
  - rewrite E. unfold kfreed. by destruct k.
  - destruct Hr as [?|[[n Hc] Hf]]; [done|].
    kacquire Hc Hf. mrun. kproj. rewrite (proj2 (Z.eqb_neq _ _) E). mrun.
    krelease Hc Hf. by destruct k.
Qed.

Lemma kalloc_eq o k :
  kmem_ready k → kalloc o k = Ok (km_freelist (k_kmem k)) (kalloced k) o.
Proof.
  intros Hr. unfold kalloc, rd32, kalloced, kpopped. mrun.
  destruct (Z.eqb_spec (km_use_lock (k_kmem k)) 0) as [E|E].
  - mrun. destruct (km_freelist (k_kmem k) =? 0); mrun; kproj; by rewrite E.
  - destruct Hr as [?|[[n Hc] Hf]]; [done|]. mrun.
    kacquire Hc Hf. mrun. kproj.
    destruct (km_freelist (k_kmem k) =? 0); mrun; kproj;
      rewrite (proj2 (Z.eqb_neq _ _) E); mrun; krelease Hc Hf; by destruct k.
Qed.

(** ** The free list through the operations *)

Lemma page_ok_apart e p q : page_ok e p → page_ok e q → p ≠ q → p + PGSIZE ≤ q ∨ q + PGSIZE ≤ p.
Proof. intros (Hp & _) (Hq & _) Hne. unfold PGSIZE in *. dlia. Qed.

(** The list only depends on the words at the heads of its pages. *)
Lemma flist_ext m m' a ps :
  (∀ p, p ∈ ps → ld32 m' p = ld32 m p) → flist m a ps → flist m' a ps.
Proof.
  revert a. induction ps as [|p ps IH]; intros a Hm; simpl; [done|]. intros [-> Hl].
  split; [done|]. rewrite Hm by set_solver. apply IH; [|done]. intros q Hq. apply Hm. set_solver.
Qed.

Lemma flist_head_range e m a ps : Forall (page_ok e) ps → flist m a ps → u32 a = a.
Proof.
  destruct ps as [|p ps]; simpl; [by intros _ ->|]. intros Hf [-> _].
  apply Forall_cons in Hf as [(_ & _ & ? & ?) _]. apply u32_small. unfold KERNBASE, PHYSTOP in *. lia.
Qed.

Lemma kfreed_mem v k x :
  x < v ∨ v + PGSIZE ≤ x → k_mem (kfreed v k) x = k_mem k x.
Proof.
  intros Hx. simpl. rewrite st32_other by (unfold PGSIZE in *; lia).
  rewrite memset_fill by done. unfold fill. case_tests.
Qed.

Lemma kfreed_free_pages v ps k :
  page_ok (k_end k) v → v ∉ ps → free_pages ps k → free_pages (v :: ps) (kfreed v k).
Proof.
  intros Hv Hn [Hl Hnd Hok]. split; simpl.
  - split; [done|]. rewrite ld32_st32, (flist_head_range _ _ _ _ Hok Hl).
    apply (flist_ext (k_mem k)); [|done]. intros p Hp. apply ld32_ext. intros x Hx.
    apply (kfreed_mem v k). rewrite Forall_forall in Hok.
    destruct (page_ok_apart _ _ _ Hv (Hok p Hp)); [set_solver|unfold PGSIZE in *; lia..].
  - by apply NoDup_cons.
  - by apply Forall_cons.
Qed.

Lemma free_pages_head ps k : free_pages ps k → km_freelist (k_kmem k) = default 0 (head ps).
Proof. intros [Hl _ _]. destruct ps; simpl in *; [done|]. by destruct Hl. Qed.

Lemma kalloced_free_pages ps k : free_pages ps k → free_pages (tail ps) (kalloced k).
Proof.
  intros [Hl Hnd Hok]. unfold kalloced. destruct ps as [|p ps]; simpl in *.
  - by rewrite Hl.
  - destruct Hl as [Ha Hl]. apply Forall_cons in Hok as [Hp Hok]. apply NoDup_cons in Hnd as [_ Hnd].
    destruct (Z.eqb_spec (km_freelist (k_kmem k)) 0) as [E|E].
    + rewrite E in Ha. subst p. destruct Hp as (_ & _ & ? & _). unfold KERNBASE in *. lia.
    + split; simpl; [|done..]. by rewrite Ha.
Qed.

Lemma kmem_ready_ext k k' :
  k_lk k' = k_lk k → km_use_lock (k_kmem k') = km_use_lock (k_kmem k) →
  kmem_ready k → kmem_ready k'.
Proof. intros H1 H2. unfold kmem_ready. by rewrite H1, H2. Qed.

Lemma kmem_ready_freed v k : kmem_ready k → kmem_ready (kfreed v k).
Proof. by apply kmem_ready_ext. Qed.
Lemma kmem_ready_alloced k : kmem_ready k → kmem_ready (kalloced k).
Proof. apply kmem_ready_ext; unfold kalloced; by case_test. Qed.

(** The list survives writes outside its pages. *)
Lemma free_pages_ext ps k k' :
  k_kmem k' = k_kmem k → k_end k' = k_end k →
  (∀ p x, p ∈ ps → p ≤ x < p + PGSIZE → k_mem k' x = k_mem k x) →
  free_pages ps k → free_pages ps k'.
Proof.
  intros H1 H2 Hm [Hl Hn Hok]. split; [|done|by rewrite H2]. rewrite H1.
  apply (flist_ext (k_mem k)); [|done]. intros p Hp. apply ld32_ext.
  intros x Hx. apply (Hm p); [done|]. unfold PGSIZE. lia.
Qed.

#[export] Hint Resolve kmem_ready_freed kmem_ready_alloced kalloced_free_pages : xv6.

(** ** freerange *)

(** The pages from [p] on, [n] of them. *)
Definition pages_from (p : Z) (n : nat) : list Z := (λ i, p + PGSIZE * Z.of_nat i) <$> seq 0 n.

Lemma pages_from_S p n : pages_from p (S n) = p :: pages_from (p + PGSIZE) n.
Proof.
  unfold pages_from. simpl. f_equal; [lia|]. rewrite <- (seq_shift n 0), <- list_fmap_compose.
  apply list_fmap_ext. intros _ x _. simpl. lia.
Qed.

Lemma pages_from_elem p n x : x ∈ pages_from p n ↔ ∃ i, 0 ≤ i < Z.of_nat n ∧ x = p + PGSIZE * i.
Proof.
  unfold pages_from. rewrite list_elem_of_fmap. split.
  - intros (j & -> & Hj). apply elem_of_seq in Hj. exists (Z.of_nat j). lia.
  - intros (i & Hi & ->). exists (Z.to_nat i). split; [rewrite Z2Nat.id by lia; done|].
    apply elem_of_seq. lia.
Qed.

Lemma kfree_free_pages v ps o k :
  page_ok (k_end k) v → v ∉ ps → free_pages ps k → kmem_ready k →
  ∃ k', kfree v o k = Ok tt k' o ∧ free_pages (v :: ps) k' ∧ kmem_ready k' ∧
        k_end k' = k_end k.
Proof.
  intros Hv Hn Hp Hr. exists (kfreed v k).
  split_and!; [by apply kfree_eq|by apply kfreed_free_pages|auto with xv6|done].
Qed.

Lemma freerange_loop_pages n fuel p vend ps o k :
  p `mod` PGSIZE = 0 → k_end k ≤ p → KERNBASE ≤ p → vend ≤ KERNBASE + PHYSTOP →
  p + PGSIZE * Z.of_nat n ≤ vend < p + PGSIZE * (Z.of_nat n + 1) → (n < fuel)%nat →
  (∀ x, x ∈ pages_from p n → x ∉ ps) → free_pages ps k → kmem_ready k →
  ∃ k', freerange_loop fuel p vend o k = Ok tt k' o ∧
        free_pages (rev (pages_from p n) ++ ps) k' ∧ kmem_ready k' ∧ k_end k' = k_end k.
Proof.
  revert fuel p ps k. induction n as [|n IH]; intros [|fuel] p ps k Hm He Hk Hv Hn Hf Hx Hp Hr;
    try lia; simpl freerange_loop.
  - rewrite u32_small by (unfold PGSIZE, KERNBASE, PHYSTOP in *; lia).
    rewrite (proj2 (Z.leb_gt _ _)) by lia. exists k. by split_and!.
  - rewrite u32_small by (unfold PGSIZE, KERNBASE, PHYSTOP in *; lia).
    rewrite (proj2 (Z.leb_le _ _)) by (unfold PGSIZE in *; lia).
    rewrite pages_from_S in *.
    destruct (kfree_free_pages p ps o k) as (k1 & H1 & Hp1 & Hr1 & He1); [|set_solver|done|done|].
    { split_and!; try done. unfold PGSIZE in *. lia. }
    rewrite (bind_ok _ _ _ _ _ _ _ H1).
    destruct (IH fuel (p + PGSIZE) (p :: ps) k1) as (k2 & H2 & Hp2 & Hr2 & He2).
    + rewrite <- Hm. unfold PGSIZE. rewrite <- (Z_mod_plus_full p 1 4096). done.
    + rewrite He1. unfold PGSIZE in *. lia.
    + unfold PGSIZE in *. lia.
    + done.
    + unfold PGSIZE in *. lia.
    + lia.
    + intros x Hx1 [->|Hx2]%elem_of_cons; [|set_solver].
      apply pages_from_elem in Hx1 as (i & ? & ?). unfold PGSIZE in *. lia.
    + done.
    + done.
    + exists k2. split_and!; [done| |done|congruence]. simpl. by rewrite <- app_assoc.
Qed.

(** ** Histories of calls *)

Inductive aop := AAlloc | AFree (i : nat).

(** A client that holds a list of pages: it allocates, or frees the [i]-th
    page it holds. *)
Fixpoint arun (ops : list aop) (held : list Z) : KM (list Z) :=
  match ops with
  | [] => ret held
  | AAlloc :: ops' =>
      let! r := kalloc in
      arun ops' (if r =? 0 then held else r :: held)
  | AFree i :: ops' =>
      match held !! i with
      | Some v => kfree v ;;; arun ops' (delete i held)
      | None => arun ops' held
      end
  end.

(** ** Main theorems *)

(** kfree accepts exactly the page-aligned addresses between the end of
    the kernel and the top of physical memory and pushes the page on the free
    list, changing no byte outside it; any other address panics. *)
Theorem kfree_spec v ps o k :
  free_pages ps k → kmem_ready k → v ∉ ps → KERNBASE ≤ k_end k → 0 ≤ v < 4294967296 →
  (page_ok (k_end k) v →
     ∃ k', kfree v o k = Ok tt k' o ∧ free_pages (v :: ps) k' ∧
       (∀ x, x < v ∨ v + PGSIZE ≤ x → k_mem k' x = k_mem k x) ∧
       k' = set_k_kmem (k_kmem k') (set_k_mem (k_mem k') k)) ∧
  (¬ page_ok (k_end k) v → kfree v o k = Panic "kfree" k).
Proof.
  intros Hp Hr Hv Hend Hrange. split.
  - intros Hok. exists (kfreed v k).
    split_and!; [by apply kfree_eq|by apply kfreed_free_pages|apply kfreed_mem|by destruct k].
  - intros Hbad. unfold kfree. mrun. case_test; [done|]. to_prop. destruct Hbad.
    assert (V2P v = v - KERNBASE) as E.
    { unfold V2P. apply u32_small. unfold KERNBASE in *. lia. }
    rewrite E in *. split_and!; lia.
Qed.

(** kalloc returns 0 and changes nothing when no page is free, and
    otherwise the first page of the free list, which is not free any more;
    no byte of memory changes. *)
Theorem kalloc_spec ps o k :
  free_pages ps k → kmem_ready k →
  ∃ k', kalloc o k = Ok (default 0 (head ps)) k' o ∧ free_pages (tail ps) k' ∧
        head ps ≠ Some 0 ∧ ¬ (default 0 (head ps) ∈ tail ps) ∧
        k' = set_k_kmem (k_kmem k') k ∧ (ps = [] → k' = k).
Proof.
  intros Hp Hr. exists (kalloced k). rewrite <- (free_pages_head _ _ Hp).
  split_and!; [by apply kalloc_eq|auto with xv6| | | |].
  - destruct Hp as [_ _ Hok]. destruct ps; simpl; [done|].
    apply Forall_cons in Hok as [(_ & _ & ? & _) _]. intros ?. simplify_eq. unfold KERNBASE in *. lia.
  - rewrite (free_pages_head _ _ Hp). destruct Hp as [_ Hnd _]. destruct ps; simpl; [set_solver|].
    by apply NoDup_cons in Hnd as [? _].
  - unfold kalloced, kpopped. case_test; by destruct k.
  - intros ->. unfold kalloced. by rewrite (free_pages_head _ _ Hp).
Qed.

(** [C14] No page is handed out twice and none is lost: after any history of
    allocations and frees by a client that only frees pages it holds, every
    call has returned, and the pages held and the pages free are together
    the same pages as before, each exactly once. *)
Theorem kalloc_history ops held ps o k :
  free_pages ps k → kmem_ready k → NoDup (held ++ ps) → Forall (page_ok (k_end k)) held →
  ∃ held' ps' k', arun ops held o k = Ok held' k' o ∧ free_pages ps' k' ∧
    held' ++ ps' ≡ₚ held ++ ps ∧ NoDup (held' ++ ps').
Proof.
  revert held ps k. induction ops as [|[|i] ops IH]; intros held ps k Hp Hr Hnd Hok; simpl.
  - by exists held, ps, k.
  - rewrite (bind_ok _ _ _ _ _ _ _ (kalloc_eq o k Hr)).
    pose proof (free_pages_head _ _ Hp) as Hh.
    destruct ps as [|p ps]; simpl in Hh; rewrite Hh.
    + destruct (IH held [] (kalloced k)) as (held' & ps' & k' & ? & ? & ? & ?);
        [by apply (kalloced_free_pages [])|auto with xv6|done| |by exists held', ps', k'].
      unfold kalloced. by rewrite Hh.
    + pose proof (fp_ok _ _ Hp) as Hall. apply Forall_cons in Hall as [Hpk _].
      pose proof Hpk as (_ & _ & ? & _). rewrite (proj2 (Z.eqb_neq p 0)) by (unfold KERNBASE in *; lia).
      assert ((p :: held) ++ ps ≡ₚ held ++ p :: ps) as Hperm by (by rewrite <- Permutation_middle).
      destruct (IH (p :: held) ps (kalloced k)) as (held' & ps' & k' & ? & ? & Hpm & ?).
      * by apply (kalloced_free_pages (p :: ps)).
      * auto with xv6.
      * by rewrite Hperm.
      * assert (k_end (kalloced k) = k_end k) as -> by (unfold kalloced; by case_test).
        by apply Forall_cons.
      * exists held', ps', k'. split_and!; [done..|by rewrite Hpm|done].
  - destruct (held !! i) as [v|] eqn:Hi; [|by apply IH].
    assert (held ++ ps ≡ₚ delete i held ++ v :: ps) as Hperm.
    { rewrite <- Permutation_middle. change (v :: delete i held ++ ps) with ((v :: delete i held) ++ ps).
      f_equiv. by apply delete_Permutation. }
    assert (v ∉ ps) as Hv.
    { rewrite Hperm in Hnd. apply NoDup_app in Hnd as (_ & _ & Hnd). by apply NoDup_cons in Hnd as [? _]. }
    assert (page_ok (k_end k) v) as Hvk by (by eapply Forall_lookup_1).
    rewrite (bind_ok _ _ _ _ _ _ _ (kfree_eq v o k Hvk Hr)).
    destruct (IH (delete i held) (v :: ps) (kfreed v k)) as (held' & ps' & k' & ? & ? & Hpm & ?).
    + by apply kfreed_free_pages.
    + auto with xv6.
    + by rewrite <- Hperm.
    + by apply Forall_delete.
    + exists held', ps', k'. split_and!; [done..|by rewrite Hpm|done].
Qed.

(** freerange puts every whole page between its bounds on the free list,
    and nothing else. *)
Theorem freerange_spec vstart vend ps o k :
  free_pages ps k → kmem_ready k → KERNBASE ≤ k_end k ≤ vstart →
  PGROUNDUP vstart ≤ vend ≤ KERNBASE + PHYSTOP → vstart ≤ vend →
  let pages := pages_from (PGROUNDUP vstart) (Z.to_nat ((vend - PGROUNDUP vstart) / PGSIZE)) in
  (∀ x, x ∈ pages → x ∉ ps) →
  ∃ k', freerange vstart vend o k = Ok tt k' o ∧ free_pages (rev pages ++ ps) k'.
Proof.
  intros Hp Hr Hs Hv Hle pages Hx. unfold KERNBASE, PHYSTOP in *.
  pose proof (PGROUNDUP_spec vstart ltac:(lia)) as Hup.
  assert (PGROUNDUP vstart `mod` PGSIZE = 0 ∧ vstart ≤ PGROUNDUP vstart) as [Hm Hge].
  { unfold PGSIZE. dlia. }
  destruct (freerange_loop_pages (Z.to_nat ((vend - PGROUNDUP vstart) / PGSIZE))
              (Z.to_nat (4294967296 / PGSIZE)) (PGROUNDUP vstart) vend ps o k)
    as (k' & H & Hf & _); try done; try (unfold KERNBASE, PHYSTOP; lia).
  - clear Hup Hm Hx. unfold PGSIZE. rewrite Z2Nat.id by dlia. dlia.
  - clear Hup Hm Hx. apply Nat2Z.inj_lt. rewrite !Z2Nat.id by (unfold PGSIZE; dlia).
    unfold PGSIZE. dlia.
  - by exists k'.
Qed.

(** ** Concrete states *)

Definition demo_pages : kernel :=
  kfreed 0x80400000 (kfreed 0x80401000 (kfreed 0x80402000 boot_kernel)).

Lemma boot_free_pages : free_pages [] boot_kernel.
Proof. split; [done|constructor|constructor]. Qed.
Lemma boot_kmem_ready : kmem_ready boot_kernel.
Proof. by left. Qed.

Lemma demo_free_pages : free_pages [0x80400000; 0x80401000; 0x80402000] demo_pages.
Proof.
  unfold demo_pages. do 3 (apply kfreed_free_pages; [by split_and!|set_solver|]).
  apply boot_free_pages.
Qed.

Lemma kfree_spec_witness :
  (∃ k', kfree 0x80403000 [] demo_pages = Ok tt k' [] ∧
         free_pages [0x80403000; 0x80400000; 0x80401000; 0x80402000] k') ∧
  kfree 0x80403004 [] demo_pages = Panic "kfree" demo_pages.
Proof.
  split.
  - destruct (kfree_spec 0x80403000 _ [] _ demo_free_pages ltac:(by left) ltac:(set_solver)
                ltac:(done) ltac:(done)) as [H _].
    destruct H as (k' & H1 & H2 & _); [by split_and!|]. by exists k'.
  - apply (kfree_spec 0x80403004 _ [] _ demo_free_pages ltac:(by left) ltac:(set_solver)
                ltac:(done) ltac:(done)). intros [? _]. done.
Defined.

Lemma kalloc_spec_witness :
  ∃ k', kalloc [] demo_pages = Ok 0x80400000 k' [] ∧ free_pages [0x80401000; 0x80402000] k'.
Proof.
  destruct (kalloc_spec _ [] _ demo_free_pages ltac:(by left)) as (k' & H1 & H2 & _).
  by exists k'.
Defined.

Lemma kalloc_history_witness :
  ∃ held ps k', arun [AAlloc; AAlloc; AFree 1; AAlloc] [] [] demo_pages = Ok held k' [] ∧
    held ++ ps ≡ₚ [0x80400000; 0x80401000; 0x80402000].
Proof.
  destruct (kalloc_history [AAlloc; AAlloc; AFree 1; AAlloc] [] _ [] _ demo_free_pages
              ltac:(by left) (fp_nodup _ _ demo_free_pages) (Forall_nil_2 _))
    as (held & ps & k' & H1 & _ & H2 & _).
  by exists held, ps, k'.
Defined.

Lemma freerange_spec_witness :
  ∃ k', freerange 0x80112001 0x80115fff [] boot_kernel = Ok tt k' [] ∧
        free_pages [0x80114000; 0x80113000] k'.
Proof.
  destruct (freerange_spec 0x80112001 0x80115fff [] [] boot_kernel boot_free_pages
              boot_kmem_ready ltac:(done) ltac:(done) ltac:(done)) as (k' & H1 & H2).
  - intros x _. apply not_elem_of_nil.
  - by exists k'.
Defined.
