(* ===== verification/Mutex.v ===== *)
(** * Kernel mutexes

    [mutex.c].  The operations run on the kernel state; the parts of
    [kthread_mutex_lock] and [kthread_mutex_unlock] between two points where
    other threads can run are functions of the mutex record
    ([lock_enter], [lock_take], [unlock_word_m]), shared by the code and by
    the step relation of the second half, in which any number of threads use
    one mutex. *)

From S2P Require Import Prelude Defs Spinlock Kernel Sched.
Local Open Scope kernel_scope.

(** ** The mutex table *)

Definition rd_mutex (i : nat) : KM kmutex :=
  let! k := get in
  match k_mutexes k !! i with Some m => ret m | None => undef "mutex pointer" end.
Definition upd_mutex (i : nat) (f : kmutex → kmutex) : KM unit :=
  modify (λ k, set_k_mutexes (alter f i (k_mutexes k)) k).

(** [mutex->id] where [mutex] may be one past the last entry: the word there
    belongs to whatever follows the table. *)
Definition rd_mutex_id (i : nat) : KM Z :=
  let! k := get in
  if decide (i = MAX_MUTEXES) then ret (k_mutex_past k)
  else let! m := rd_mutex i in ret (m_id m).

(** [for(mutex = ...; mutex < ...; mutex++) if(test) break;]: the position of
    the first entry that passes, or one past the table. *)
Fixpoint mutex_scan (test : kmutex → bool) (l : list kmutex) (i : nat) : nat :=
  match l with
  | [] => i
  | m :: l' => if test m then i else mutex_scan test l' (S i)
  end.

(** ** mutex.c *)

Definition kthread_mutex_alloc : KM Z :=
  acquire LmutexTable ;;;
  let! l := gets k_mutexes in
  let i := mutex_scan (λ m, m_used m =? 0) l 0 in
  when (i <? MAX_MUTEXES)%nat (upd_mutex i (λ _, Kmutex (Z.of_nat i) 0 0 1 0)) ;;;
  release LmutexTable ;;;
  ret (if (MAX_MUTEXES <=? i)%nat then -1 else Z.of_nat i).

Definition kthread_mutex_dealloc (mutex_id : Z) : KM Z :=
  acquire LmutexTable ;;;
  let! l := gets k_mutexes in
  let i := mutex_scan (λ m, m_id m =? mutex_id) l 0 in
  if (i <? MAX_MUTEXES)%nat then
    let! m := rd_mutex i in
    if m_locked m =? 1 then release LmutexTable ;;; ret (-1)
    else if m_used m =? 0 then release LmutexTable ;;; ret (-1)
    else
      upd_mutex i (λ _, Kmutex 0 0 0 0 0) ;;;
      release LmutexTable ;;;
      ret 0
  else
    let! id := rd_mutex_id i in
    if negb (id =? mutex_id) then release LmutexTable ;;; ret (-1)
    else release LmutexTable ;;; ret (-1).

(** The statements of lock before its wait loop: count a new waiter. *)
Definition lock_enter (tid : Z) (m : kmutex) : kmutex :=
  if negb (m_tid m =? tid) then set_m_waiting (i32 (m_waiting m + 1)) m else m.

(** The statements after the loop: [if(mutex->locked == 0) ...]. *)
Definition lock_take (tid : Z) (m : kmutex) : kmutex :=
  if m_locked m =? 0 then
    let m1 := if negb (m_tid m =? tid) then set_m_waiting (i32 (m_waiting m - 1)) m else m in
    if negb (m_tid m1 =? tid) || ((m_tid m1 =? tid) && (m_waiting m1 =? 0))
    then set_m_tid tid (set_m_locked 1 m1)
    else m1
  else m.

Definition unlock_word_m (m : kmutex) : kmutex := set_m_locked 0 m.

(** The lookup shared by lock and unlock: [None] is the return of -1. *)
Definition find_mutex (mutex_id : Z) : KM (option nat) :=
  acquire LmutexTable ;;;
  let! l := gets k_mutexes in
  let i := mutex_scan (λ m, m_id m =? mutex_id) l 0 in
  release LmutexTable ;;;
  let! id := rd_mutex_id i in
  ret (if negb (id =? mutex_id) then None else Some i).

Definition kthread_mutex_lock (mutex_id : Z) : KM Z :=
  let! r := find_mutex mutex_id in
  match r with
  | None => ret (-1)
  | Some i =>
      let! m := rd_mutex i in
      if m_used m =? 0 then ret (-1)
      else
        let! curthread := mythread in
        acquire (Lmutex i) ;;;
        let! curthread := deref curthread in
        let! th := rd_thread curthread in
        upd_mutex i (lock_enter (t_tid th)) ;;;
        while_wait (let! m := rd_mutex i in ret (negb (m_locked m =? 0)))
          (sleep (ChMutexTid i) (Lmutex i)) ;;;
        let! th := rd_thread curthread in
        upd_mutex i (lock_take (t_tid th)) ;;;
        release (Lmutex i) ;;;
        ret 0
  end.

Definition kthread_mutex_unlock (mutex_id : Z) : KM Z :=
  let! r := find_mutex mutex_id in
  match r with
  | None => ret (-1)
  | Some i =>
      let! curthread := mythread in
      let! curthread := deref curthread in
      let! th := rd_thread curthread in
      let! m := rd_mutex i in
      if negb (t_tid th =? m_tid m) then ret (-1)
      else
        acquire (Lmutex i) ;;;
        let! m := rd_mutex i in
        if m_locked m =? 0 then release (Lmutex i) ;;; ret (-1)
        else
          upd_mutex i unlock_word_m ;;;
          release (Lmutex i) ;;;
          wakeup (ChMutexTid i) ;;;
          ret 0
  end.

(** ** Many threads on one mutex

    A state is the mutex record, the calls of lock and unlock that are in
    progress, and the threads that are inside: their last call of lock returned 0
    and no call of unlock has ended for them since.  Threads are named by their
    ids.  A step is what a thread does while it holds [mutex->lock] (or, for the
    comparison with the owner in unlock and for the wakeup, without it).  Any
    thread that is not in a call may call lock or unlock, whether it is inside or
    not, so the sequences of steps are the interleavings of any calls of lock and
    unlock on a mutex that stays allocated. *)

Inductive mxcall :=
| InWait   (* asleep in the loop of lock *)
| InWoken  (* made RUNNABLE, about to test [mutex->locked] again *)
| InChk    (* in unlock, the caller is [mutex->tid] *)
| InUnl.   (* in unlock, the word is cleared, about to call wakeup *)

#[export] Instance mxcall_eq_dec : EqDecision mxcall.
Proof. solve_decision. Defined.

Record mxstate := MxState {
  mx : kmutex;
  mx_call : gmap Z mxcall;
  mx_in : gmap Z bool  (* true: its lock set [mutex->locked] *)
}.

Definition woken (p : mxcall) : mxcall := match p with InWait => InWoken | p => p end.

(** What a step does: a call of lock that goes to sleep or returns, a sleeper
    that sleeps again or returns, a sleeper made runnable by kill; a call of unlock
    that fails the comparison or passes it, finds the mutex free, frees it, and
    ends with the wakeup. *)
Inductive mxact :=
| ALockSleep | ALockPass | AWakeSleep | AWakePass | AKilled
| AUnlockOther | AUnlockCheck | AUnlockFree | AUnlock | AWakeup.

Inductive mxstep : mxstate → Z → mxact → mxstate → Prop :=
| mx_lock_sleep t m c i :
    c !! t = None → m_locked (lock_enter t m) ≠ 0 →
    mxstep (MxState m c i) t ALockSleep (MxState (lock_enter t m) (<[t := InWait]> c) i)
| mx_lock_pass t m c i m' :
    c !! t = None → m_locked (lock_enter t m) = 0 → m' = lock_take t (lock_enter t m) →
    mxstep (MxState m c i) t ALockPass (MxState m' c (<[t := negb (m_locked m' =? 0)]> i))
| mx_wake_sleep t m c i :
    c !! t = Some InWoken → m_locked m ≠ 0 →
    mxstep (MxState m c i) t AWakeSleep (MxState m (<[t := InWait]> c) i)
| mx_wake_pass t m c i m' :
    c !! t = Some InWoken → m_locked m = 0 → m' = lock_take t m →
    mxstep (MxState m c i) t AWakePass (MxState m' (delete t c) (<[t := negb (m_locked m' =? 0)]> i))
| mx_killed t m c i :
    c !! t = Some InWait →
    mxstep (MxState m c i) t AKilled (MxState m (<[t := InWoken]> c) i)
| mx_unlock_other t m c i :
    c !! t = None → m_tid m ≠ t →
    mxstep (MxState m c i) t AUnlockOther (MxState m c (delete t i))
| mx_unlock_check t m c i :
    c !! t = None → m_tid m = t →
    mxstep (MxState m c i) t AUnlockCheck (MxState m (<[t := InChk]> c) i)
| mx_unlock_free t m c i :
    c !! t = Some InChk → m_locked m = 0 →
    mxstep (MxState m c i) t AUnlockFree (MxState m (delete t c) (delete t i))
| mx_unlock t m c i :
    c !! t = Some InChk → m_locked m ≠ 0 →
    mxstep (MxState m c i) t AUnlock (MxState (unlock_word_m m) (<[t := InUnl]> c) (delete t i))
| mx_wakeup t m c i :
    c !! t = Some InUnl →
    mxstep (MxState m c i) t AWakeup (MxState m (delete t (woken <$> c)) i).

(** A fresh mutex that nobody has used. *)
Definition mxinit : mxstate := MxState (Kmutex 0 0 0 1 0) ∅ ∅.

Definition inside (st : mxstate) (t : Z) : Prop := is_Some (mx_in st !! t).

(** The runs all of whose steps are as [P] says. *)
Definition mxruns (P : mxstate → Z → mxact → mxstate → Prop) : mxstate → mxstate → Prop :=
  rtc (λ s s', ∃ t a, mxstep s t a s' ∧ P s t a s').

(** The step does not return from lock without having locked. *)
Definition locks (t : Z) (st' : mxstate) : Prop := mx_in st' !! t ≠ Some false.
(** No thread that is outside gets past the comparison with the owner in unlock:
    the thread that held the mutex last does not unlock it a second time. *)
Definition unlocks_own (st : mxstate) (t : Z) (a : mxact) : Prop := a = AUnlockCheck → inside st t.
Definition clean (st : mxstate) (t : Z) (a : mxact) (st' : mxstate) : Prop :=
  locks t st' ∧ unlocks_own st t a.

(** Each thread calls lock when it is outside and unlock when it is inside. *)
Definition paired (st : mxstate) (t : Z) (a : mxact) (st' : mxstate) : Prop :=
  match a with
  | ALockSleep | ALockPass => ¬ inside st t
  | AUnlockOther | AUnlockCheck => inside st t
  | _ => True
  end.

(** ** Lemmas on the mutex record *)

Lemma lock_enter_same tid m :
  m_locked (lock_enter tid m) = m_locked m ∧ m_tid (lock_enter tid m) = m_tid m.
Proof. unfold lock_enter. by case_test. Qed.

(** What lock_take does to a free mutex: it takes it, except for the previous
    owner while others wait. *)
Lemma lock_take_free tid m :
  m_locked m = 0 →
  (m_tid m ≠ tid →
     lock_take tid m = set_m_tid tid (set_m_locked 1 (set_m_waiting (i32 (m_waiting m - 1)) m))) ∧
  (m_tid m = tid → m_waiting m = 0 → lock_take tid m = set_m_tid tid (set_m_locked 1 m)) ∧
  (m_tid m = tid → m_waiting m ≠ 0 → lock_take tid m = m).
Proof.
  intros Hl. unfold lock_take. rewrite Hl. simpl (0 =? 0). cbv iota.
  split_and!.
  - intros Hne. rewrite (proj2 (Z.eqb_neq _ _) Hne). cbn [negb].
    simpl m_tid. by rewrite (proj2 (Z.eqb_neq _ _) Hne).
  - intros E Hw. rewrite E, Z.eqb_refl. cbn [negb]. by rewrite E, Z.eqb_refl, Hw.
  - intros E Hw. rewrite E, Z.eqb_refl. cbn [negb].
    by rewrite E, Z.eqb_refl, (proj2 (Z.eqb_neq _ _) Hw).
Qed.

Lemma lock_take_taken tid m :
  m_locked m = 0 → m_locked (lock_take tid m) ≠ 0 →
  m_locked (lock_take tid m) = 1 ∧ m_tid (lock_take tid m) = tid.
Proof.
  intros Hl Ht. destruct (lock_take_free tid m Hl) as (H1 & H2 & H3).
  destruct (decide (m_tid m = tid)) as [E|E]; [|by rewrite (H1 E)].
  destruct (decide (m_waiting m = 0)) as [E'|E']; [by rewrite (H2 E E')|].
  by rewrite (H3 E E') in Ht.
Qed.

(** ** The invariants of the steps *)

(** Who is inside has locked the mutex and is its owner, a locked mutex has its
    owner inside, and only who is inside is about to unlock. *)
Record owner_inv (st : mxstate) : Prop := {
  oi_in t : inside st t → m_locked (mx st) ≠ 0 ∧ m_tid (mx st) = t;
  oi_owner : m_locked (mx st) ≠ 0 → inside st (m_tid (mx st));
  oi_chk t : mx_call st !! t = Some InChk → inside st t
}.

Lemma owner_inv_init : owner_inv mxinit.
Proof. split; [by intros t [b ?]|done|done]. Qed.

(** A change of the calls that brings no new check. *)
Lemma owner_inv_calls m m' c c' i :
  m_locked m' = m_locked m → m_tid m' = m_tid m →
  (∀ t, c' !! t = Some InChk → c !! t = Some InChk) →
  owner_inv (MxState m c i) → owner_inv (MxState m' c' i).
Proof.
  intros El Et Hc [H1 H2 H3]. split; cbn in *; rewrite ?El, ?Et; [done|done|]. intros t Ht. by apply H3, Hc.
Qed.

Lemma insert_no_chk (c : gmap Z mxcall) t p : p ≠ InChk → ∀ u, <[t := p]> c !! u = Some InChk → c !! u = Some InChk.
Proof. intros Hp u. destruct (decide (t = u)) as [->|]; [rewrite lookup_insert_eq; congruence|by rewrite lookup_insert_ne]. Qed.
Lemma delete_no_chk (c : gmap Z mxcall) t u : delete t c !! u = Some InChk → c !! u = Some InChk.
Proof. by intros [_ H]%lookup_delete_Some. Qed.

(** Nobody is inside a free mutex. *)
Lemma owner_inv_free m c i : m_locked m = 0 → owner_inv (MxState m c i) → i = ∅ ∧ ∀ t, c !! t ≠ Some InChk.
Proof.
  intros Hl [H1 _ H3]. assert (∀ t, i !! t = None) as Hi.
  { intros t. destruct (i !! t) as [b|] eqn:E; [|done]. destruct (H1 t) as [? _]; [by exists b|done]. }
  split; [by apply map_empty|]. intros t Ht. destruct (H3 t Ht) as [b Hb]. cbn in Hb. by rewrite Hi in Hb.
Qed.

(** Taking a free mutex. *)
Lemma owner_inv_take m m1 c c' i t :
  m_locked m = 0 → m_locked m1 = 0 → owner_inv (MxState m c i) →
  (∀ u, c' !! u = Some InChk → c !! u = Some InChk) →
  locks t (MxState (lock_take t m1) c' (<[t := negb (m_locked (lock_take t m1) =? 0)]> i)) →
  owner_inv (MxState (lock_take t m1) c' (<[t := negb (m_locked (lock_take t m1) =? 0)]> i)).
Proof.
  intros Hl Hl1 Hi Hc Hk. destruct (owner_inv_free _ _ _ Hl Hi) as [-> Hno].
  unfold locks in Hk. cbn in Hk. rewrite lookup_insert_eq in Hk.
  assert (m_locked (lock_take t m1) ≠ 0) as Hk' by (intros E; by rewrite E in Hk).
  destruct (lock_take_taken t m1 Hl1 Hk') as [E1 E2]. split; cbn; rewrite ?E1, ?E2.
  - intros u [b Hu]. cbn in Hu. destruct (decide (t = u)) as [->|Hne]; [done|]. by rewrite lookup_insert_ne in Hu.
  - intros _. eexists. apply lookup_insert_eq.
  - intros u Hu. by apply Hc, Hno in Hu.
Qed.

(** The thread that leaves is not the owner of a locked mutex. *)
Lemma owner_inv_leave m c c' i t :
  (m_locked m ≠ 0 → m_tid m ≠ t) → (∀ u, c' !! u = Some InChk → u ≠ t ∧ c !! u = Some InChk) →
  owner_inv (MxState m c i) → owner_inv (MxState m c' (delete t i)).
Proof.
  intros Ht Hc [H1 H2 H3]. split; cbn in *.
  - intros u [b Hu]. cbn in Hu. apply lookup_delete_Some in Hu as [_ Hu]. apply H1. by exists b.
  - intros Hl. destruct (H2 Hl) as [b Hb]. exists b. cbn. rewrite lookup_delete_ne; [done|]. by apply not_eq_sym, Ht.
  - intros u [Hne Hu]%Hc. destruct (H3 u Hu) as [b Hb]. exists b. cbn. by rewrite lookup_delete_ne.
Qed.

Lemma owner_inv_step st t a st' : mxstep st t a st' → clean st t a st' → owner_inv st → owner_inv st'.
Proof.
  intros Hs [Hk Hown] Hi. destruct Hs as [t m c i Hc Hl|t m c i m' Hc Hl ->|t m c i Hc Hl|t m c i m' Hc Hl ->|t m c i Hc
    |t m c i Hc Hl|t m c i Hc Hl|t m c i Hc Hl|t m c i Hc Hl|t m c i Hc].
  - destruct (lock_enter_same t m) as [E1 E2]. by apply (owner_inv_calls m _ c); [..|apply insert_no_chk|].
  - destruct (lock_enter_same t m) as [E1 E2]. apply (owner_inv_take m _ c); [congruence|done..].
  - by apply (owner_inv_calls m _ c); [..|apply insert_no_chk|].
  - apply (owner_inv_take m _ c); [done..|intros u; apply delete_no_chk|done].
  - by apply (owner_inv_calls m _ c); [..|apply insert_no_chk|].
  - apply (owner_inv_leave _ c); [done| |done]. intros u Hu. split; [|done]. intros ->. congruence.
  - destruct Hi as [H1 H2 H3]. split; cbn in *; [done..|]. intros u. destruct (decide (t = u)) as [->|Hne]; [by intros _; apply Hown|].
    rewrite lookup_insert_ne by done. apply H3.
  - apply (owner_inv_leave _ c); [done| |done]. intros u [Hne Hu]%lookup_delete_Some. done.
  - destruct (oi_in _ Hi t (oi_chk _ Hi t Hc)) as [_ <-]. destruct Hi as [H1 H2 H3]. cbn in *. split; cbn.
    + intros u [b Hu]. cbn in Hu. apply lookup_delete_Some in Hu as [Hne Hu]. by destruct (H1 u) as [_ E]; [exists b|].
    + done.
    + intros u Hu. destruct (decide (m_tid m = u)) as [<-|Hne]; [by rewrite lookup_insert_eq in Hu|].
      rewrite lookup_insert_ne in Hu by done. by destruct (H1 u (H3 u Hu)).
  - apply (owner_inv_calls m _ c); [done..| |done]. intros u Hu. apply delete_no_chk in Hu. rewrite lookup_fmap in Hu.
    by destruct (c !! u) as [[]|].
Qed.

Lemma owner_inv_runs st : mxruns clean mxinit st → owner_inv st.
Proof.
  intros Hr. assert (∀ s, owner_inv s → mxruns clean s st → owner_inv st) as H; [|apply (H mxinit); [apply owner_inv_init|done]].
  clear Hr. intros s Hi Hr. induction Hr as [|s1 s2 s3 (t & a & Hs & Hc) _ IH]; [done|]. apply IH. by apply (owner_inv_step s1 t a).
Qed.

(** Every sleeper has someone who will wake it: the mutex is locked, or an
    unlock is about to call wakeup. *)
Definition wake_inv (st : mxstate) : Prop :=
  ∀ t, mx_call st !! t = Some InWait →
    m_locked (mx st) ≠ 0 ∨ ∃ u, mx_call st !! u = Some InUnl.

(** Steps that put no one to sleep, free nothing and wake no one. *)
Lemma wake_inv_keep m m' c c' i i' :
  (∀ u, c' !! u = Some InWait → c !! u = Some InWait) → (∀ u, c !! u = Some InUnl → c' !! u = Some InUnl) →
  m_locked m' = m_locked m ∨ m_locked m' ≠ 0 →
  wake_inv (MxState m c i) → wake_inv (MxState m' c' i').
Proof.
  intros Hw Hu Hm Hi t Ht. cbn in *. destruct (Hi t (Hw t Ht)) as [H|[u Hu']]; cbn in *.
  - left. destruct Hm as [->|]; done.
  - right. exists u. by apply Hu.
Qed.

Lemma insert_call (c : gmap Z mxcall) t p :
  p ≠ InWait → c !! t ≠ Some InUnl →
  (∀ u, <[t := p]> c !! u = Some InWait → c !! u = Some InWait) ∧ (∀ u, c !! u = Some InUnl → <[t := p]> c !! u = Some InUnl).
Proof.
  intros Hp Ht. split; intros u; (destruct (decide (t = u)) as [->|]; [|by rewrite lookup_insert_ne]); [rewrite lookup_insert_eq|]; congruence.
Qed.
Lemma delete_call (c : gmap Z mxcall) t :
  c !! t ≠ Some InUnl →
  (∀ u, delete t c !! u = Some InWait → c !! u = Some InWait) ∧ (∀ u, c !! u = Some InUnl → delete t c !! u = Some InUnl).
Proof.
  intros Ht. split; intros u; [by intros [_ H]%lookup_delete_Some|]. intros Hu. rewrite lookup_delete_ne; [done|]. by intros ->.
Qed.

Lemma lock_take_locked tid m :
  m_locked (lock_take tid m) = m_locked m ∨ m_locked (lock_take tid m) ≠ 0.
Proof. destruct (decide (m_locked (lock_take tid m) = 0)) as [E|E]; [|auto].
  left. rewrite E. unfold lock_take in E. destruct (m_locked m =? 0) eqn:E1; to_prop; [done|congruence].
Qed.

Lemma wake_inv_step st t a st' : mxstep st t a st' → wake_inv st → wake_inv st'.
Proof.
  intros Hs Hi. destruct Hs as [t m c i Hc Hl|t m c i m' Hc Hl ->|t m c i Hc Hl|t m c i m' Hc Hl ->|t m c i Hc
    |t m c i Hc Hl|t m c i Hc Hl|t m c i Hc Hl|t m c i Hc Hl|t m c i Hc].
  - intros u _. by left.
  - apply (wake_inv_keep m _ c _ i); [done..| |done]. rewrite <- (proj1 (lock_enter_same t m)). apply lock_take_locked.
  - intros u _. by left.
  - destruct (delete_call c t); [congruence|]. apply (wake_inv_keep m _ c _ i); [done..|apply lock_take_locked|done].
  - destruct (insert_call c t InWoken); [done|congruence|]. by apply (wake_inv_keep m _ c _ i); [..|left|].
  - by apply (wake_inv_keep m _ c _ i); [..|left|].
  - destruct (insert_call c t InChk); [done|congruence|]. by apply (wake_inv_keep m _ c _ i); [..|left|].
  - destruct (delete_call c t); [congruence|]. by apply (wake_inv_keep m _ c _ i); [..|left|].
  - intros u _. right. exists t. apply lookup_insert_eq.
  - intros u Hu. cbn in Hu. apply lookup_delete_Some in Hu as [_ Hu]. rewrite lookup_fmap in Hu.
    by destruct (c !! u) as [[]|].
Qed.

Lemma wake_inv_runs P st : mxruns P mxinit st → wake_inv st.
Proof.
  intros Hr. assert (∀ s, wake_inv s → mxruns P s st → wake_inv st) as H; [|by apply (H mxinit)].
  clear Hr. intros s Hi Hr. induction Hr as [|s1 s2 s3 (t & a & Hs & _) _ IH]; [done|]. apply IH. by apply (wake_inv_step s1 t a).
Qed.

(** ** The table *)

(** Unused entries are zero and a used entry's id is its position. *)
Record mutex_table_wf (l : list kmutex) : Prop := {
  mt_length : length l = MAX_MUTEXES;
  mt_entry i m : l !! i = Some m →
    m = kmutex0 ∨ m_used m = 1 ∧ m_id m = Z.of_nat i
}.

Lemma mutex_scan_spec test l a :
  let i := mutex_scan test l a in
  (a ≤ i ≤ a + length l)%nat ∧
  (∀ j m, l !! j = Some m → (a + j < i)%nat → test m = false) ∧
  ((i < a + length l)%nat → ∃ m, l !! (i - a)%nat = Some m ∧ test m = true).
Proof.
  revert a. induction l as [|m l IH]; intros a; simpl; [split_and!; (done || lia)|].
  destruct (test m) eqn:E.
  - split_and!; [lia..| |].
    + intros [|j] m' Hj Hlt; lia.
    + intros _. exists m. by rewrite Nat.sub_diag.
  - destruct (IH (S a)) as ([H1 H1'] & H2 & H3). split_and!; [lia..| |].
    + intros [|j] m' Hj Hlt; simpl in Hj; [by simplify_eq|]. apply (H2 j); [done|lia].
    + intros Hlt. destruct H3 as (m' & Hm & Ht); [lia|]. exists m'. split; [|done].
      rewrite <- Hm. replace (mutex_scan test l (S a) - a)%nat
        with (S (mutex_scan test l (S a) - S a))%nat by lia. done.
Qed.

(** The scan for the id of a used entry stops there. *)
Lemma mutex_scan_used l i m :
  mutex_table_wf l → l !! i = Some m → m_used m ≠ 0 →
  mutex_scan (λ m, m_id m =? Z.of_nat i) l 0 = i.
Proof.
  intros [Hlen Hent] Hm Hu. pose proof (lookup_lt_Some _ _ _ Hm) as Hlt.
  destruct (mutex_scan_spec (λ m, m_id m =? Z.of_nat i) l 0) as (H1 & H2 & H3).
  set (s := mutex_scan _ _ _) in *.
  destruct (Hent _ _ Hm) as [->|[_ Hid]]; [done|].
  destruct (decide (s ≤ i)%nat) as [Hle|Hle].
  - destruct H3 as (m' & Hm' & Ht); [lia|]. rewrite Nat.sub_0_r in Hm'. to_prop.
    destruct (Hent _ _ Hm') as [->|[_ Hid']]; simpl in *; lia.
  - specialize (H2 _ _ Hm ltac:(lia)). to_prop. lia.
Qed.

Lemma rd_mutex_eq i o k m : k_mutexes k !! i = Some m → rd_mutex i o k = Ok m k o.
Proof. intros H. unfold rd_mutex. mrun. by rewrite H. Qed.

Lemma find_mutex_used i m o k n :
  calm (k_lk k) n → lock_free LmutexTable (k_lk k) →
  mutex_table_wf (k_mutexes k) → k_mutexes k !! i = Some m → m_used m ≠ 0 →
  find_mutex (Z.of_nat i) o k = Ok (Some i) k o.
Proof.
  intros Hc Hf Hwf Hm Hu. unfold find_mutex. kacquire Hc Hf. mrun. kproj.
  rewrite (mutex_scan_used _ _ _ Hwf Hm Hu). krelease Hc Hf.
  assert (set_k_lk (k_lk k) (set_k_lk (lk_acquire LmutexTable (k_lk k)) k) = k) as -> by (by destruct k).
  unfold rd_mutex_id. mrun. destruct Hwf as [Hlen Hent].
  rewrite decide_False by (apply lookup_lt_Some in Hm; lia). mrun.
  rewrite (bind_ok _ _ _ _ _ _ _ (rd_mutex_eq _ _ _ _ Hm)). mrun.
  destruct (Hent _ _ Hm) as [->|[_ ->]]; [done|]. by rewrite Z.eqb_refl.
Qed.

Lemma set_k_lk_id k : set_k_lk (k_lk k) k = k.
Proof. by destruct k. Qed.
Lemma set_k_lk_twice K K' k : set_k_lk K (set_k_lk K' k) = set_k_lk K k.
Proof. by destruct k. Qed.

Lemma lock_cond_shrinks i : shrinks (let! m := rd_mutex i in ret (negb (m_locked m =? 0))).
Proof. unfold rd_mutex. shrink. Qed.

(** ** Main theorems *)


(** [C18] No wakeup is lost: whatever calls of lock and unlock any number of threads
    make on an allocated mutex, interleaved in any way, while a thread sleeps in
    lock the mutex is locked or an unlock is about to wake it. *)
Theorem mutex_no_lost_wakeup st t :
  mxruns (λ _ _ _ _, True) mxinit st → mx_call st !! t = Some InWait →
  m_locked (mx st) ≠ 0 ∨ ∃ u, mx_call st !! u = Some InUnl.
Proof. intros Hr. apply (wake_inv_runs _ _ Hr). Qed.

(** A step of a concrete run. *)
Ltac mx_go c :=
  eapply rtc_l; [eexists _, _; split; [eapply c; first [vm_compute; reflexivity | vm_compute; discriminate | reflexivity]|
    first [vm_compute; tauto | vm_compute; intros [? ?]; discriminate | vm_compute; eexists; reflexivity | vm_compute; discriminate]]|].

(** [C31] The shortcut breaks mutual exclusion: three threads that call lock and
    unlock only in pairs reach a state in which two of them are inside, both
    having set the locked word.  Thread 1 locks; 2 waits; 1 unlocks, wakes 2 and
    locks again, getting 0 without the lock; its unlock passes the comparison with
    the owner; 2 takes the mutex; 1 finishes its unlock, freeing 2's mutex; 3 locks. *)
Theorem mutex_exclusion_fails :
  ∃ st, mxruns paired mxinit st ∧ mx_in st !! 2 = Some true ∧ mx_in st !! 3 = Some true.
Proof.
  eexists. split.
  - mx_go (mx_lock_pass 1). mx_go (mx_lock_sleep 2). mx_go (mx_unlock_check 1).
    mx_go (mx_unlock 1). mx_go (mx_wakeup 1). mx_go (mx_lock_pass 1).
    mx_go (mx_unlock_check 1). mx_go (mx_wake_pass 2). mx_go (mx_unlock 1).
    mx_go (mx_lock_pass 3). reflexivity.
  - split; vm_compute; reflexivity.
Qed.

(** So does a second unlock, without any shortcut: thread 1 locks, unlocks and calls
    unlock again, which passes the comparison since the mutex keeps its last owner; 2
    locks; 1 frees 2's mutex; 3 locks. *)
Theorem mutex_double_unlock_fails :
  ∃ st, mxruns (λ _ t _ st', locks t st') mxinit st ∧ mx_in st !! 2 = Some true ∧ mx_in st !! 3 = Some true.
Proof.
  eexists. split.
  - mx_go (mx_lock_pass 1). mx_go (mx_unlock_check 1). mx_go (mx_unlock 1). mx_go (mx_wakeup 1).
    mx_go (mx_unlock_check 1). mx_go (mx_lock_pass 2). mx_go (mx_unlock 1). mx_go (mx_lock_pass 3). reflexivity.
  - split; vm_compute; reflexivity.
Qed.

(** The lock call up to its wait loop, on a mutex in use. *)
Definition lock_body (i : nat) (t : tslot) : KM Z :=
  while_wait (let! m := rd_mutex i in ret (negb (m_locked m =? 0)))
    (sleep (ChMutexTid i) (Lmutex i)) ;;;
  let! th := rd_thread t in
  upd_mutex i (lock_take (t_tid th)) ;;;
  release (Lmutex i) ;;;
  ret 0.

Definition with_mutex (i : nat) (f : kmutex → kmutex) (k : kernel) : kernel :=
  set_k_mutexes (alter f i (k_mutexes k)) k.

Lemma mutex_lock_enters i m t th o k n :
  calm (k_lk k) n → lock_free LmutexTable (k_lk k) → lock_free (Lmutex i) (k_lk k) →
  mutex_table_wf (k_mutexes k) → k_mutexes k !! i = Some m → m_used m ≠ 0 →
  k_thread k = Some t → thread_at t k = Some th →
  kthread_mutex_lock (Z.of_nat i) o k =
    lock_body i t o (with_mutex i (lock_enter (t_tid th)) (set_k_lk (lk_acquire (Lmutex i) (k_lk k)) k)).
Proof.
  intros Hc Hf Hfi Hwf Hm Hu Ht Hth. unfold kthread_mutex_lock.
  rewrite (bind_ok _ _ _ _ _ _ _ (find_mutex_used _ _ _ _ _ Hc Hf Hwf Hm Hu)).
  rewrite (bind_ok _ _ _ _ _ _ _ (rd_mutex_eq _ _ _ _ Hm)).
  rewrite (proj2 (Z.eqb_neq _ _) Hu).
  rewrite (bind_ok _ _ _ _ _ _ _ (mythread_calm _ _ _ Hc)), Ht.
  kacquire Hc Hfi. unfold deref. mrun.
  erewrite bind_ok; [|apply rd_thread_eq; rewrite thread_at_set_k_lk; exact Hth].
  unfold upd_mutex at 1. mrun. done.
Qed.

(** The end of the call, once the loop finds the mutex free. *)
Lemma lock_body_free i m t th o k K n :
  calm K n → lock_free (Lmutex i) K → k_lk k = lk_acquire (Lmutex i) K →
  k_mutexes k !! i = Some m → m_locked m = 0 → thread_at t k = Some th →
  lock_body i t o k = Ok 0 (set_k_lk K (with_mutex i (lock_take (t_tid th)) k)) o.
Proof.
  intros Hc Hf Hk Hm Hl Hth. unfold lock_body.
  rewrite (bind_ok _ _ o k tt o k).
  2:{ rewrite while_wait_unfold; [|apply lock_cond_shrinks|intros; by eapply waits_sleep].
      rewrite bind_assoc, (bind_ok _ _ _ _ _ _ _ (rd_mutex_eq _ _ _ _ Hm)). mrun. by rewrite Hl. }
  rewrite (bind_ok _ _ _ _ _ _ _ (rd_thread_eq _ _ _ _ Hth)).
  unfold upd_mutex. mrun. fold (with_mutex i (lock_take (t_tid th)) k).
  erewrite bind_ok; [|eapply release_k; [exact Hc|exact Hf|exact Hk]]. done.
Qed.

Lemma thread_at_with_mutex t i f k : thread_at t (with_mutex i f k) = thread_at t k.
Proof. done. Qed.

Lemma lock_body_sleeps i t o o' k k' :
  (∃ m, k_mutexes k !! i = Some m ∧ m_locked m ≠ 0) →
  sleep (ChMutexTid i) (Lmutex i) o k = Ok tt k' o' →
  lock_body i t o k = lock_body i t o' k'.
Proof.
  intros (m & Hm & Hl) Hs. unfold lock_body. unfold bind at 1.
  rewrite while_wait_unfold; [|apply lock_cond_shrinks|intros; by eapply waits_sleep].
  rewrite bind_assoc, (bind_ok _ _ _ _ _ _ _ (rd_mutex_eq _ _ _ _ Hm)). mrun.
  rewrite (proj2 (Z.eqb_neq _ _) Hl). cbn [negb].
  by rewrite (bind_ok _ _ _ _ _ _ _ Hs).
Qed.

Lemma resumed_mutexes t lk K th pr k : k_mutexes (resumed t lk K th pr k) = k_mutexes k.
Proof. done. Qed.
Lemma wake_all_mutexes ch k : k_mutexes (wake_all ch k) = k_mutexes k.
Proof. by rewrite wake_all_frame. Qed.

(** What the others do when the owner unlocks mutex [i] while we sleep. *)
Definition others_unlock (i : nat) (k : kernel) : kernel :=
  wake_all (ChMutexTid i) (with_mutex i unlock_word_m k).

(** kthread_mutex_lock on a mutex locked by another thread sleeps until the
    owner unlocks it, and then returns 0 as the owner of the locked mutex, with
    the count of waiting threads and every spinlock as before the call. *)
Theorem mutex_lock_waits i m t th pr o k :
  ptable_wf k → calm (k_lk k) 0 → lock_free Lptable (k_lk k) →
  lock_free LmutexTable (k_lk k) → lock_free (Lmutex i) (k_lk k) →
  mutex_table_wf (k_mutexes k) → k_mutexes k !! i = Some m → m_used m ≠ 0 →
  m_locked m ≠ 0 → m_tid m ≠ t_tid th → -2147483648 ≤ m_waiting m < 2147483647 →
  k_thread k = Some t → thread_at t k = Some th → t_kstack th ≠ 0 →
  k_procs k !! fst t = Some pr → p_state pr = USED → p_pgdir pr ≠ 0 →
  ∃ k', kthread_mutex_lock (Z.of_nat i) (others_unlock i :: o) k = Ok 0 k' o ∧
    k_mutexes k' !! i = Some (set_m_tid (t_tid th) (set_m_locked 1 m)) ∧
    k_lk k' = k_lk k ∧ k_thread k' = Some t ∧
    thread_at t k' = Some (set_t_chan None (set_t_state RUNNING th)).
Proof.
  intros Hwf Hc Hf Hft Hfi Hmt Hm Hu Hl Hne Hw Ht Hth Hks Hp Hps Hpg.
  rewrite (mutex_lock_enters i m t th _ k 0) by done.
  set (K := k_lk k) in *. set (k1 := with_mutex i _ _).
  assert (k_mutexes k1 !! i = Some (set_m_waiting (m_waiting m + 1) m)) as Hm1.
  { unfold k1, with_mutex. kproj. rewrite list_lookup_alter, decide_True, Hm by done. simpl.
    unfold lock_enter. rewrite (proj2 (Z.eqb_neq _ _) Hne). simpl. by rewrite i32_small by lia. }
  set (ch := ChMutexTid i). set (k2 := asleep ch t K k1).
  assert (thread_at t k2 = Some (set_t_state SLEEPING (set_t_chan (Some ch) th))) as Hth2.
  { unfold k2. rewrite thread_at_asleep, decide_True by done. unfold k1.
    by rewrite thread_at_with_mutex, thread_at_set_k_lk, Hth. }
  assert (ptable_wf k2) as Hwf2 by (apply ptable_wf_asleep; by apply (ptable_wf_ext k)).
  set (th3 := set_t_state RUNNABLE (set_t_chan (Some ch) th)).
  assert (thread_at t (others_unlock i k2) = Some th3) as Hth3.
  { unfold others_unlock. rewrite wake_all_at by (by apply (ptable_wf_ext k2)).
    change (k_procs (with_mutex i unlock_word_m k2)) with (k_procs k).
    rewrite Hp, decide_False, thread_at_with_mutex, Hth2 by (by rewrite Hps).
    simpl. unfold wake_thread, sleeping_on. simpl. by rewrite !bool_decide_true. }
  set (k3 := resumed t (Lmutex i) K th3 pr (others_unlock i k2)).
  assert (k_mutexes k3 !! i = Some (set_m_locked 0 (set_m_waiting (m_waiting m + 1) m))) as Hm3.
  { unfold k3. rewrite resumed_mutexes. unfold others_unlock. rewrite wake_all_mutexes.
    unfold with_mutex. kproj. rewrite list_lookup_alter, decide_True by done.
    change (k_mutexes k2) with (k_mutexes k1). by rewrite Hm1. }
  assert (thread_at t k3 = Some (set_t_chan None (set_t_state RUNNING th))) as Hth3'.
  { unfold k3. rewrite thread_at_resumed, decide_True, Hth3 by done. by destruct th. }
  assert (lock_body i t (others_unlock i :: o) k1 = lock_body i t o k3) as ->.
  { apply lock_body_sleeps; [by eexists; split; [exact Hm1|]|].
    apply (sleep_resumes _ _ _ _ k1 K t th); try done.
    - unfold others_unlock. by rewrite wake_all_lk.
    - unfold others_unlock. by rewrite wake_all_procs. }
  rewrite (lock_body_free i _ t _ o k3 K 0 Hc Hfi eq_refl Hm3 eq_refl Hth3').
  eexists. split_and!; [done| |done|done|].
  - unfold with_mutex. kproj. rewrite list_lookup_alter, decide_True, Hm3 by done.
    simpl. f_equal. set (m3 := set_m_locked 0 _).
    destruct (lock_take_free (t_tid th) m3 eq_refl) as [Htake _]. rewrite Htake by done.
    unfold m3. simpl. rewrite i32_small by lia. destruct m. unfold set_m_tid, set_m_locked, set_m_waiting.
    simpl. f_equal. lia.
  - by rewrite thread_at_set_k_lk, thread_at_with_mutex.
Qed.

(** ** The calls as steps *)

Lemma mutex_unlock_eq i m t th o k n :
  ptable_wf k → calm (k_lk k) n → lock_free Lptable (k_lk k) →
  lock_free LmutexTable (k_lk k) → lock_free (Lmutex i) (k_lk k) →
  mutex_table_wf (k_mutexes k) → k_mutexes k !! i = Some m → m_used m ≠ 0 →
  k_thread k = Some t → thread_at t k = Some th →
  kthread_mutex_unlock (Z.of_nat i) o k =
    if negb (t_tid th =? m_tid m) || (m_locked m =? 0) then Ok (-1) k o
    else Ok 0 (wake_all (ChMutexTid i) (with_mutex i unlock_word_m k)) o.
Proof.
  intros Hwf Hc Hf Hft Hfi Hmt Hm Hu Ht Hth. unfold kthread_mutex_unlock.
  rewrite (bind_ok _ _ _ _ _ _ _ (find_mutex_used _ _ _ _ _ Hc Hft Hmt Hm Hu)).
  rewrite (bind_ok _ _ _ _ _ _ _ (mythread_calm _ _ _ Hc)), Ht. unfold deref. mrun.
  rewrite (bind_ok _ _ _ _ _ _ _ (rd_thread_eq _ _ _ _ Hth)).
  rewrite (bind_ok _ _ _ _ _ _ _ (rd_mutex_eq _ _ _ _ Hm)).
  destruct (t_tid th =? m_tid m); [|done]. cbn [negb orb].
  kacquire Hc Hfi. erewrite bind_ok; [|apply rd_mutex_eq; kproj; exact Hm].
  destruct (m_locked m =? 0).
  - krelease Hc Hfi. by destruct k.
  - unfold upd_mutex. mrun. krelease Hc Hfi. kproj.
    replace (set_k_lk _ _) with (with_mutex i unlock_word_m k) by (by destruct k).
    erewrite bind_ok; [|apply (wakeup_eq _ _ _ n); [by apply (ptable_wf_ext k)|done..]]. done.
Qed.

Definition mx_any (_ : mxstate) (_ : Z) (_ : mxact) (_ : mxstate) : Prop := True.

(** What the step relation says of a call is what the code does: a call of unlock,
    and a call of lock on a free mutex, with no other call between, leave the
    mutex as a sequence of steps of the calling thread does, and return 0 exactly
    when the steps say so. *)
Theorem mutex_calls_step i m t th inn o k n :
  ptable_wf k → calm (k_lk k) n → lock_free Lptable (k_lk k) →
  lock_free LmutexTable (k_lk k) → lock_free (Lmutex i) (k_lk k) →
  mutex_table_wf (k_mutexes k) → k_mutexes k !! i = Some m → m_used m ≠ 0 →
  k_thread k = Some t → thread_at t k = Some th →
  (∃ r k' st', kthread_mutex_unlock (Z.of_nat i) o k = Ok r k' o ∧
     mxruns mx_any (MxState m ∅ inn) st' ∧ k_mutexes k' !! i = Some (mx st') ∧
     mx_call st' = ∅ ∧ mx_in st' = delete (t_tid th) inn ∧
     (r = 0 ↔ m_locked m ≠ 0 ∧ m_tid m = t_tid th)) ∧
  (m_locked m = 0 →
   ∃ k' st', kthread_mutex_lock (Z.of_nat i) o k = Ok 0 k' o ∧
     mxruns mx_any (MxState m ∅ inn) st' ∧ k_mutexes k' !! i = Some (mx st') ∧
     mx_call st' = ∅ ∧ inside st' (t_tid th)).
Proof.
  intros Hwf Hc Hf Hft Hfi Hmt Hm Hu Ht Hth. split.
  - rewrite (mutex_unlock_eq i m t th o k n) by done. set (u := t_tid th).
    destruct (Z.eqb_spec u (m_tid m)) as [E|E]; cbn [negb orb].
    + destruct (Z.eqb_spec (m_locked m) 0) as [El|El]; eexists _, _, _; (split; [done|]).
      * split; [eapply rtc_l; [eexists u, _; split; [by apply mx_unlock_check|done]|];
                eapply rtc_l; [eexists u, _; split; [apply mx_unlock_free; [apply lookup_insert_eq|done]|done]|reflexivity]|].
        cbn. rewrite delete_insert_eq, delete_empty. split_and!; [done..|]. lia.
      * split; [eapply rtc_l; [eexists u, _; split; [by apply mx_unlock_check|done]|];
                eapply rtc_l; [eexists u, _; split; [apply mx_unlock; [apply lookup_insert_eq|done]|done]|];
                eapply rtc_l; [eexists u, _; split; [apply mx_wakeup; apply lookup_insert_eq|done]|reflexivity]|].
        cbn. rewrite wake_all_mutexes. cbn. rewrite list_lookup_alter, decide_True, Hm by done.
        rewrite insert_insert_eq, fmap_insert, fmap_empty, delete_insert_eq, delete_empty. done.
    + eexists _, _, _. split; [done|]. split; [eapply rtc_l; [eexists u, _; split; [by apply mx_unlock_other|done]|reflexivity]|].
      cbn. split_and!; [done..|]. split; [done|]. intros [_ ?]. congruence.
  - intros El. destruct (lock_enter_same (t_tid th) m) as [E1 E2].
    rewrite (mutex_lock_enters i m t th o k n) by done.
    erewrite lock_body_free; [|exact Hc|exact Hfi|done| |cbn; by rewrite E1|by rewrite thread_at_with_mutex, thread_at_set_k_lk].
    2:{ cbn. by rewrite list_lookup_alter, decide_True, Hm. }
    eexists _, _. split; [done|]. split.
    { eapply rtc_l; [eexists (t_tid th), _; split; [by eapply mx_lock_pass; [..|by rewrite E1|]|done]|reflexivity]. }
    cbn. rewrite !list_lookup_alter, !decide_True, Hm by done. split_and!; [done..|]. eexists. apply lookup_insert_eq.
Qed.

(** ** alloc and dealloc *)

Lemma with_mutex_same i m m' k :
  k_mutexes k !! i = Some m' → with_mutex i (λ _, m') (with_mutex i (λ _, m) k) = k.
Proof.
  intros H. unfold with_mutex. kproj.
  assert (alter (λ _, m') i (alter (λ _, m) i (k_mutexes k)) = k_mutexes k) as E.
  2:{ rewrite E. by destruct k. }
  apply list_eq. intros j. rewrite !list_lookup_alter. case_decide; [|done]. subst. rewrite ?decide_True, H by done. done.
Qed.

Lemma mutex_alloc_eq o k n :
  calm (k_lk k) n → lock_free LmutexTable (k_lk k) → mutex_table_wf (k_mutexes k) →
  let i := mutex_scan (λ m, m_used m =? 0) (k_mutexes k) 0 in
  kthread_mutex_alloc o k =
    if (i <? MAX_MUTEXES)%nat
    then Ok (Z.of_nat i) (with_mutex i (λ _, Kmutex (Z.of_nat i) 0 0 1 0) k) o
    else Ok (-1) k o.
Proof.
  intros Hc Hf Hwf i. unfold kthread_mutex_alloc. kacquire Hc Hf. mrun. kproj. fold i.
  destruct (Nat.ltb_spec i MAX_MUTEXES) as [Hi|Hi].
  - unfold upd_mutex. mrun. krelease Hc Hf. mrun.
    rewrite (proj2 (Nat.leb_gt _ _)) by lia. by destruct k.
  - mrun. krelease Hc Hf. mrun. rewrite (proj2 (Nat.leb_le _ _)) by lia. by destruct k.
Qed.

Lemma mutex_table_wf_alloc i l :
  mutex_table_wf l → mutex_table_wf (alter (λ _, Kmutex (Z.of_nat i) 0 0 1 0) i l).
Proof.
  intros [Hl He]. split; [by rewrite length_alter|]. intros j m. rewrite list_lookup_alter.
  case_decide; [|by apply He]. subst. destruct (l !! j); simpl; intros; [|done]. simplify_eq. by right.
Qed.

Lemma mutex_dealloc_eq i m o k n :
  calm (k_lk k) n → lock_free LmutexTable (k_lk k) → mutex_table_wf (k_mutexes k) →
  k_mutexes k !! i = Some m → m_used m ≠ 0 →
  kthread_mutex_dealloc (Z.of_nat i) o k =
    if m_locked m =? 1 then Ok (-1) k o else Ok 0 (with_mutex i (λ _, kmutex0) k) o.
Proof.
  intros Hc Hf Hwf Hm Hu. unfold kthread_mutex_dealloc. kacquire Hc Hf. mrun. kproj.
  rewrite (mutex_scan_used _ _ _ Hwf Hm Hu). pose proof (lookup_lt_Some _ _ _ Hm) as Hlt.
  rewrite (mt_length _ Hwf) in Hlt. rewrite (proj2 (Nat.ltb_lt _ _)) by done.
  erewrite bind_ok; [|apply rd_mutex_eq; kproj; exact Hm]. destruct (m_locked m =? 1).
  - krelease Hc Hf. by destruct k.
  - rewrite (proj2 (Z.eqb_neq _ _) Hu). unfold upd_mutex. mrun. krelease Hc Hf. by destruct k.
Qed.

(** kthread_mutex_alloc hands out the first unused mutex, unlocked, and
    returns -1 with the table unchanged exactly when all are in use; deallocating
    the new mutex restores the table. *)
Theorem mutex_alloc_dealloc o k n :
  calm (k_lk k) n → lock_free LmutexTable (k_lk k) → mutex_table_wf (k_mutexes k) →
  (∃ i k', kthread_mutex_alloc o k = Ok (Z.of_nat i) k' o ∧
     k_mutexes k !! i = Some kmutex0 ∧
     (∀ j m, (j < i)%nat → k_mutexes k !! j = Some m → m_used m ≠ 0) ∧
     k_mutexes k' = <[i := Kmutex (Z.of_nat i) 0 0 1 0]> (k_mutexes k) ∧
     mutex_table_wf (k_mutexes k') ∧
     kthread_mutex_dealloc (Z.of_nat i) o k' = Ok 0 k o) ∨
  (kthread_mutex_alloc o k = Ok (-1) k o ∧
   ∀ i m, k_mutexes k !! i = Some m → m_used m ≠ 0).
Proof.
  intros Hc Hf Hwf. rewrite (mutex_alloc_eq o k n) by done. cbv zeta.
  destruct (mutex_scan_spec (λ m, m_used m =? 0) (k_mutexes k) 0) as (H1 & H2 & H3).
  set (i := mutex_scan _ _ _) in *. rewrite (mt_length _ Hwf) in *.
  destruct (Nat.ltb_spec i MAX_MUTEXES) as [Hi|Hi].
  - destruct H3 as (m & Hm & Ht); [done|]. rewrite Nat.sub_0_r in Hm. to_prop.
    destruct (mt_entry _ Hwf _ _ Hm) as [->|[? _]]; [|lia].
    left. exists i. eexists. split; [done|]. split_and!; [done| | | |].
    + intros j m Hj Hm'. specialize (H2 _ _ Hm' Hj). by to_prop.
    + simpl. symmetry. apply list_eq. intros j.
      rewrite list_lookup_alter. destruct (decide (i = j)) as [<-|Hne].
      * rewrite list_lookup_insert_eq by (by apply lookup_lt_Some in Hm). by rewrite Hm.
      * by rewrite list_lookup_insert_ne.
    + by apply mutex_table_wf_alloc.
    + rewrite (mutex_dealloc_eq i (Kmutex (Z.of_nat i) 0 0 1 0) o _ n); [|done|done| | |done].
      * simpl. f_equal. by apply with_mutex_same.
      * by apply mutex_table_wf_alloc.
      * simpl. by rewrite list_lookup_alter, decide_True, Hm by done.
  - right. split; [done|]. intros j m Hm. pose proof (lookup_lt_Some _ _ _ Hm).
    rewrite (mt_length _ Hwf) in *. specialize (H2 _ _ Hm ltac:(lia)). by to_prop.
Qed.

(** ** Witnesses *)

Lemma boot_mutexes_wf : mutex_table_wf (k_mutexes boot_kernel).
Proof. split; [done|]. intros i m H. left. by apply lookup_replicate in H as [-> _]. Qed.

Lemma mutex_alloc_dealloc_witness :
  ∃ k', kthread_mutex_alloc [] boot_kernel = Ok 0 k' [] ∧
        kthread_mutex_dealloc 0 [] k' = Ok 0 boot_kernel [].
Proof.
  destruct (mutex_alloc_dealloc [] boot_kernel 0 boot_lks_calm ltac:(boot_free) boot_mutexes_wf)
    as [(i & k' & H1 & _ & H2 & _ & _ & H3)|[_ H]];
    [|destruct (H 0%nat kmutex0 eq_refl); reflexivity].
  destruct i as [|i].
  - exists k'. split; [exact H1|exact H3].
  - destruct (H2 0%nat kmutex0 ltac:(lia) eq_refl). reflexivity.
Defined.

(** Mutex 5 allocated and locked by thread 3 of process 1. *)
Definition demo_mutex : kernel :=
  set_k_mutexes (<[5%nat := Kmutex 5 1 3 1 0]> (k_mutexes boot_kernel)) demo_kernel.

Lemma demo_mutexes_wf : mutex_table_wf (k_mutexes demo_mutex).
Proof.
  split; [done|]. intros i m H. simpl in H. destruct (decide (i = 5%nat)) as [->|Hne].
  - vm_compute in H. simplify_eq. by right.
  - left. change (k_mutexes demo_mutex) with (<[5%nat := Kmutex 5 1 3 1 0]> (k_mutexes boot_kernel)) in H.
    rewrite list_lookup_insert_ne in H by done. by apply lookup_replicate in H as [-> _].
Qed.

Lemma mutex_lock_waits_witness :
  ∃ k', kthread_mutex_lock 5 [others_unlock 5] demo_mutex = Ok 0 k' [] ∧
        k_mutexes k' !! 5%nat = Some (Kmutex 5 1 1 1 0).
Proof.
  destruct (mutex_lock_waits 5 (Kmutex 5 1 3 1 0) (0, 0)%nat (demo_thread 1 0 RUNNING None)
              (demo_proc 1 0) [] demo_mutex) as (k' & H1 & H2 & _);
    [by apply (ptable_wf_ext demo_kernel); [..|apply demo_kernel_wf]
    |exact boot_lks_calm|boot_free|boot_free|boot_free|exact demo_mutexes_wf
    |reflexivity|discriminate|discriminate|discriminate|simpl; lia|reflexivity|reflexivity
    |discriminate|reflexivity|reflexivity|discriminate|].
  exists k'. split; [exact H1|exact H2].
Defined.


Lemma mutex_no_lost_wakeup_witness :
  ∃ st, mx_call st !! 2 = Some InWait ∧
        (m_locked (mx st) ≠ 0 ∨ ∃ u, mx_call st !! u = Some InUnl).
Proof.
  assert (∃ st, mxruns (λ _ _ _ _, True) mxinit st ∧ mx_call st !! 2 = Some InWait) as (st & Hr & Hw).
  { eexists. split; [mx_go (mx_lock_pass 1); mx_go (mx_lock_sleep 2); reflexivity|].
    vm_compute. reflexivity. }
  exists st. split; [exact Hw|]. exact (mutex_no_lost_wakeup st 2 Hr Hw).
Defined.
