(* ===== verification/Tree.v ===== *)
(** * Tournament trees

    [tree.c], a user library on top of the mutex system calls.  The memory of
    the program is the blocks malloc has handed out and the library's global
    variables; the mutex system calls are an interface ([TreeSys]), so that the
    theorems hold for any implementation that keeps its promises; the kernel of
    [Mutex] is an instance.  The tournament itself, any number of threads that climb
    from their leaves to the root, is in [Tournament]. *)

From S2P Require Import Prelude Defs Spinlock Kernel Sched Mutex.
Local Open Scope kernel_scope.

(** ** tournament_tree.h: addresses are positive, 0 is the null pointer *)
Record tree_node := TreeNode {
  left_child : Z;
  right_child : Z;
  parent : Z;
  mutex_id : Z;
  index : Z;
  level : Z;
  lockPath : Z
}.

Record trnmnt_tree := TrnmntTree {
  root : Z;
  depth : Z
}.

(** ** The library's memory *)
Record tree_mem := TreeMem {
  tm_nodes : gmap Z tree_node;  (* tree_node blocks, by address *)
  tm_trees : gmap Z trnmnt_tree;  (* trnmnt_tree blocks *)
  tm_ints : gmap Z (list Z);  (* int arrays *)
  tm_next : Z;  (* address of the next block *)
  tm_avail : nat;  (* how many more blocks malloc can give *)
  tm_junk : tree_node;  (* what a fresh block holds *)
  tm_level_index : list Z;  (* *level_index *)
  tm_treeDepth : Z;
  tm_index : Z;
  tm_curLevel : Z
}.

Definition set_left_child (x : Z) (n : tree_node) : tree_node :=
  TreeNode x (right_child n) (parent n) (mutex_id n) (index n) (level n) (lockPath n).
Definition set_right_child (x : Z) (n : tree_node) : tree_node :=
  TreeNode (left_child n) x (parent n) (mutex_id n) (index n) (level n) (lockPath n).
Definition set_parent (x : Z) (n : tree_node) : tree_node :=
  TreeNode (left_child n) (right_child n) x (mutex_id n) (index n) (level n) (lockPath n).
Definition set_mutex_id (x : Z) (n : tree_node) : tree_node :=
  TreeNode (left_child n) (right_child n) (parent n) x (index n) (level n) (lockPath n).
Definition set_index (x : Z) (n : tree_node) : tree_node :=
  TreeNode (left_child n) (right_child n) (parent n) (mutex_id n) x (level n) (lockPath n).
Definition set_level (x : Z) (n : tree_node) : tree_node :=
  TreeNode (left_child n) (right_child n) (parent n) (mutex_id n) (index n) x (lockPath n).
Definition set_lockPath (x : Z) (n : tree_node) : tree_node :=
  TreeNode (left_child n) (right_child n) (parent n) (mutex_id n) (index n) (level n) x.
Definition set_tm_nodes (x : gmap Z tree_node) (m : tree_mem) : tree_mem :=
  TreeMem x (tm_trees m) (tm_ints m) (tm_next m) (tm_avail m) (tm_junk m) (tm_level_index m)
    (tm_treeDepth m) (tm_index m) (tm_curLevel m).
Definition set_tm_trees (x : gmap Z trnmnt_tree) (m : tree_mem) : tree_mem :=
  TreeMem (tm_nodes m) x (tm_ints m) (tm_next m) (tm_avail m) (tm_junk m) (tm_level_index m)
    (tm_treeDepth m) (tm_index m) (tm_curLevel m).
Definition set_tm_ints (x : gmap Z (list Z)) (m : tree_mem) : tree_mem :=
  TreeMem (tm_nodes m) (tm_trees m) x (tm_next m) (tm_avail m) (tm_junk m) (tm_level_index m)
    (tm_treeDepth m) (tm_index m) (tm_curLevel m).
Definition set_tm_next (x : Z) (m : tree_mem) : tree_mem :=
  TreeMem (tm_nodes m) (tm_trees m) (tm_ints m) x (tm_avail m) (tm_junk m) (tm_level_index m)
    (tm_treeDepth m) (tm_index m) (tm_curLevel m).
Definition set_tm_avail (x : nat) (m : tree_mem) : tree_mem :=
  TreeMem (tm_nodes m) (tm_trees m) (tm_ints m) (tm_next m) x (tm_junk m) (tm_level_index m)
    (tm_treeDepth m) (tm_index m) (tm_curLevel m).
Definition set_tm_junk (x : tree_node) (m : tree_mem) : tree_mem :=
  TreeMem (tm_nodes m) (tm_trees m) (tm_ints m) (tm_next m) (tm_avail m) x (tm_level_index m)
    (tm_treeDepth m) (tm_index m) (tm_curLevel m).
Definition set_tm_level_index (x : list Z) (m : tree_mem) : tree_mem :=
  TreeMem (tm_nodes m) (tm_trees m) (tm_ints m) (tm_next m) (tm_avail m) (tm_junk m) x
    (tm_treeDepth m) (tm_index m) (tm_curLevel m).
Definition set_tm_treeDepth (x : Z) (m : tree_mem) : tree_mem :=
  TreeMem (tm_nodes m) (tm_trees m) (tm_ints m) (tm_next m) (tm_avail m) (tm_junk m)
    (tm_level_index m) x (tm_index m) (tm_curLevel m).
Definition set_tm_index (x : Z) (m : tree_mem) : tree_mem :=
  TreeMem (tm_nodes m) (tm_trees m) (tm_ints m) (tm_next m) (tm_avail m) (tm_junk m)
    (tm_level_index m) (tm_treeDepth m) x (tm_curLevel m).
Definition set_tm_curLevel (x : Z) (m : tree_mem) : tree_mem :=
  TreeMem (tm_nodes m) (tm_trees m) (tm_ints m) (tm_next m) (tm_avail m) (tm_junk m)
    (tm_level_index m) (tm_treeDepth m) (tm_index m) x.

(** ** What the library needs from the system

    [sys_ok] is the condition on the state under which the calls keep their
    promises.  A call that waits lets other threads run; they may write the
    arrays of other leaves, but not the array [my_path] of the calling thread. *)
Class TreeSys (S : Type) := {
  tmem : S → tree_mem;
  set_tmem : tree_mem → S → S;
  sys_ok : S → Prop;
  my_path : Z;
  sys_mutex_alloc : M S Z;
  sys_mutex_dealloc : Z → M S Z;
  sys_mutex_lock : Z → M S Z;
  sys_mutex_unlock : Z → M S Z;
  tmem_set_tmem m s : tmem (set_tmem m s) = m;
  sys_ok_set_tmem m s : sys_ok s → sys_ok (set_tmem m s);
  sys_alloc_returns o s : sys_ok s →
    ∃ r s', sys_mutex_alloc o s = Ok r s' o ∧ tmem s' = tmem s ∧ sys_ok s';
  sys_lock_frame i o s r s' o' : sys_mutex_lock i o s = Ok r s' o' →
    (r = 0 ∨ r = -1) ∧
    tm_nodes (tmem s') = tm_nodes (tmem s) ∧ tm_trees (tmem s') = tm_trees (tmem s) ∧
    tm_treeDepth (tmem s') = tm_treeDepth (tmem s) ∧
    tm_ints (tmem s') !! my_path = tm_ints (tmem s) !! my_path;
  sys_unlock_frame i o s r s' o' : sys_mutex_unlock i o s = Ok r s' o' →
    (r = 0 ∨ r = -1) ∧
    tm_nodes (tmem s') = tm_nodes (tmem s) ∧ tm_trees (tmem s') = tm_trees (tmem s) ∧
    tm_treeDepth (tmem s') = tm_treeDepth (tmem s) ∧
    tm_ints (tmem s') !! my_path = tm_ints (tmem s) !! my_path
}.

Section Tree.
Context {S : Type} `{!TreeSys S}.

(** ** Memory accesses *)
Definition upd_tm (f : tree_mem → tree_mem) : M S unit := modify (λ s, set_tmem (f (tmem s)) s).
Definition tm_get {A} (f : tree_mem → A) : M S A := gets (λ s, f (tmem s)).

Definition rd_node (p : Z) : M S tree_node :=
  let! m := tm_get tm_nodes in
  match m !! p with Some n => ret n | None => undef "tree_node pointer" end.
Definition wr_node (p : Z) (f : tree_node → tree_node) : M S unit :=
  let! n := rd_node p in
  upd_tm (λ m, set_tm_nodes (<[p := f n]> (tm_nodes m)) m).
Definition rd_tree (p : Z) : M S trnmnt_tree :=
  let! m := tm_get tm_trees in
  match m !! p with Some t => ret t | None => undef "trnmnt_tree pointer" end.

(** [a[i]] for an array of ints. *)
Definition rd_int (a i : Z) : M S Z :=
  let! m := tm_get tm_ints in
  match m !! a with
  | Some l => if (0 <=? i) then
                match l !! Z.to_nat i with Some x => ret x | None => undef "array bounds" end
              else undef "array bounds"
  | None => undef "array pointer"
  end.
Definition wr_int (a i v : Z) : M S unit :=
  let! x := rd_int a i in
  upd_tm (λ m, set_tm_ints (alter (λ l, <[Z.to_nat i := v]> l) a (tm_ints m)) m).

(** malloc: the next address, or 0 when memory is used up. *)
Definition malloc (install : Z → tree_mem → tree_mem) : M S Z :=
  let! avail := tm_get tm_avail in
  match avail with
  | O => ret 0
  | Datatypes.S n =>
      let! p := tm_get tm_next in
      upd_tm (λ m, install p (set_tm_next (p + 1) (set_tm_avail n m))) ;;;
      ret p
  end.
Definition malloc_node : M S Z :=
  malloc (λ p m, set_tm_nodes (<[p := tm_junk m]> (tm_nodes m)) m).
Definition malloc_tree : M S Z :=
  malloc (λ p m, set_tm_trees (<[p := TrnmntTree 0 0]> (tm_trees m)) m).
Definition malloc_ints (n : nat) : M S Z :=
  malloc (λ p m, set_tm_ints (<[p := replicate n (mutex_id (tm_junk m))]> (tm_ints m)) m).
Definition free_node (p : Z) : M S unit :=
  rd_node p ;;; upd_tm (λ m, set_tm_nodes (delete p (tm_nodes m)) m).
Definition free_ints (p : Z) : M S unit :=
  upd_tm (λ m, set_tm_ints (delete p (tm_ints m)) m).
Definition free_tree (p : Z) : M S unit :=
  upd_tm (λ m, set_tm_trees (delete p (tm_trees m)) m).

(** ** tree.c *)

Fixpoint create_tree (node : Z) (depth : nat) : M S unit :=
  match depth with
  | O => ret tt
  | Datatypes.S d =>
      let! curLevel := tm_get tm_curLevel in
      when (negb (curLevel =? Z.of_nat depth - 2))
        (upd_tm (λ m, set_tm_index (nth d (tm_level_index m) 0) m) ;;;
         upd_tm (set_tm_curLevel (Z.of_nat depth - 2))) ;;;
      let! curLevel := tm_get tm_curLevel in
      wr_node node (set_level curLevel) ;;;
      let! i := tm_get tm_index in
      wr_node node (set_index i) ;;;
      upd_tm (λ m, set_tm_index (tm_index m + 1) m) ;;;
      upd_tm (λ m, set_tm_level_index (<[d := tm_index m]> (tm_level_index m)) m) ;;;
      match d with
      | O =>
          wr_node node (set_left_child 0) ;;;
          wr_node node (set_right_child 0) ;;;
          let! treeDepth := tm_get tm_treeDepth in
          let! p := malloc_ints (Z.to_nat treeDepth) in
          wr_node node (set_lockPath p)
      | Datatypes.S _ =>
          let! left_ := malloc_node in
          let! right_ := malloc_node in
          wr_node left_ (set_parent node) ;;;
          wr_node right_ (set_parent node) ;;;
          wr_node node (set_left_child left_) ;;;
          wr_node node (set_right_child right_) ;;;
          let! id := sys_mutex_alloc in
          wr_node node (set_mutex_id id) ;;;
          create_tree left_ d ;;;
          create_tree right_ d
      end
  end.

Definition wr_tree (p : Z) (f : trnmnt_tree → trnmnt_tree) : M S unit :=
  let! t := rd_tree p in
  upd_tm (λ m, set_tm_trees (<[p := f t]> (tm_trees m)) m).

Definition trnmnt_tree_alloc (d : Z) : M S Z :=
  if d <? 1 then ret 0
  else
    let! tree := malloc_tree in
    let! root_ := malloc_node in
    upd_tm (set_tm_treeDepth d) ;;;
    wr_tree tree (λ t, TrnmntTree (root t) d) ;;;
    wr_tree tree (λ t, TrnmntTree root_ (depth t)) ;;;
    wr_node root_ (set_parent 0) ;;;
    upd_tm (set_tm_level_index (replicate (Z.to_nat (d + 1)) 0)) ;;;
    let! t := rd_tree tree in
    create_tree (root t) (Z.to_nat (d + 1)) ;;;
    ret tree.

(** The lines print_node writes: the indentation, level, index and mutex of
    each node, right subtree first; [fuel] bounds the depth of the tree. *)
Fixpoint print_node (fuel : nat) (n l : Z) : M S (list (Z * Z * Z * Z)) :=
  match fuel with
  | O => undef "recursion depth"
  | Datatypes.S f =>
      if n =? 0 then ret []
      else
        let! x := rd_node n in
        let! r1 := print_node f (right_child x) (l + 1) in
        let! r2 := print_node f (left_child x) (l + 1) in
        ret (r1 ++ [(l, level x, index x, mutex_id x)] ++ r2)
  end.

Definition print_tree (fuel : nat) (t : Z) : M S (list (Z * Z * Z * Z)) :=
  if t =? 0 then ret []
  else let! tr := rd_tree t in print_node fuel (root tr) 0.

Fixpoint delete_node (fuel : nat) (node : Z) : M S Z :=
  match fuel with
  | O => undef "recursion depth"
  | Datatypes.S f =>
      if node =? 0 then ret 0
      else
        let! n := rd_node node in
        let! r := sys_mutex_dealloc (mutex_id n) in
        if r =? -1 then ret (-1)
        else
          let! n := rd_node node in
          delete_node f (left_child n) ;;;
          let! n := rd_node node in
          delete_node f (right_child n) ;;;
          wr_node node (set_left_child 0) ;;;
          wr_node node (set_right_child 0) ;;;
          let! n := rd_node node in
          when (negb (lockPath n =? 0))
            (free_ints (lockPath n) ;;; wr_node node (set_lockPath 0)) ;;;
          free_node node ;;;
          ret 0
  end.

Definition trnmnt_tree_dealloc (fuel : nat) (tree : Z) : M S Z :=
  let! t := rd_tree tree in
  let! r := delete_node fuel (root t) in
  if r =? 0 then
    wr_tree tree (λ t, TrnmntTree 0 (depth t)) ;;;
    free_tree tree ;;;
    ret 0
  else ret (-1).

Fixpoint find_leaf (fuel : nat) (node ID : Z) : M S Z :=
  match fuel with
  | O => undef "recursion depth"
  | Datatypes.S f =>
      let! n := rd_node node in
      if (right_child n =? 0) && (left_child n =? 0) then
        ret (if ID =? index n then node else 0)
      else
        let! leaf1 := find_leaf f (left_child n) ID in
        let! leaf2 := find_leaf f (right_child n) ID in
        ret (if negb (leaf1 =? 0) then leaf1 else leaf2)
  end.

(** The loop of acquire; [fuel] bounds the height of the tree. *)
Fixpoint acquire_loop (fuel : nat) (leaf curNode : Z) : M S Z :=
  match fuel with
  | O => undef "loop bound"
  | Datatypes.S f =>
      let! n := rd_node curNode in
      if parent n =? 0 then ret 0
      else
        let! p := rd_node (parent n) in
        let! mutex_lock := sys_mutex_lock (mutex_id p) in
        let! lf := rd_node leaf in
        let! n := rd_node curNode in
        let! p' := rd_node (parent n) in
        wr_int (lockPath lf) (level p) (mutex_id p') ;;;
        if mutex_lock =? -1 then ret (-1)
        else if mutex_lock =? 0 then
          let! n := rd_node curNode in
          acquire_loop f leaf (parent n)
        else acquire_loop f leaf curNode
  end.

Definition trnmnt_tree_acquire (fuel : nat) (tree ID : Z) : M S Z :=
  let! t := rd_tree tree in
  let! leaf := find_leaf fuel (root t) ID in
  acquire_loop fuel leaf leaf.

(** The loop of release from [i] down to 0. *)
Fixpoint release_loop (leaf : Z) (n : nat) : M S Z :=
  match n with
  | O => ret 0
  | Datatypes.S i =>
      let! lf := rd_node leaf in
      let! id := rd_int (lockPath lf) (Z.of_nat i) in
      let! res := sys_mutex_unlock id in
      if res =? -1 then ret (-1)
      else
        let! lf := rd_node leaf in
        wr_int (lockPath lf) (Z.of_nat i) 0 ;;;
        release_loop leaf i
  end.

Definition trnmnt_tree_release (fuel : nat) (tree ID : Z) : M S Z :=
  let! t := rd_tree tree in
  let! leaf := find_leaf fuel (root t) ID in
  let! treeDepth := tm_get tm_treeDepth in
  release_loop leaf (Z.to_nat treeDepth).

(** ** The tree in memory *)

Inductive ttree :=
| TLeaf (a i lp : Z)
| TNode (a mid i : Z) (l r : ttree).

Definition taddr (t : ttree) : Z := match t with TLeaf a _ _ | TNode a _ _ _ _ => a end.

(** All blocks of the tree, the arrays of the leaves included. *)
Fixpoint taddrs (t : ttree) : list Z :=
  match t with
  | TLeaf a _ lp => [a; lp]
  | TNode a _ _ l r => a :: taddrs l ++ taddrs r
  end.

(** A perfect tree of height [d] whose root is number [i] of its level, the
    nodes of each level numbered from left to right. *)
Fixpoint perfect (d : nat) (i : Z) (t : ttree) : Prop :=
  match d, t with
  | O, TLeaf _ j _ => j = i
  | Datatypes.S d', TNode _ _ j l r => j = i ∧ perfect d' (2 * i) l ∧ perfect d' (2 * i + 1) r
  | _, _ => False
  end.

Fixpoint rep (m : tree_mem) (par lvl : Z) (t : ttree) : Prop :=
  match t with
  | TLeaf a i lp =>
      0 < a ∧ (∃ mid, tm_nodes m !! a = Some (TreeNode 0 0 par mid i lvl lp)) ∧
      ∃ l, tm_ints m !! lp = Some l ∧ length l = Z.to_nat (tm_treeDepth m)
  | TNode a mid i l r =>
      0 < a ∧ (∃ lp, tm_nodes m !! a = Some (TreeNode (taddr l) (taddr r) par mid i lvl lp)) ∧
      rep m a (lvl - 1) l ∧ rep m a (lvl - 1) r
  end.

Lemma rep_addr_pos m par lvl t : rep m par lvl t → 0 < taddr t.
Proof. destruct t; simpl; tauto. Qed.

(** The tree only depends on its own blocks. *)
Lemma rep_ext m m' par lvl t :
  tm_treeDepth m' = tm_treeDepth m →
  (∀ a, a ∈ taddrs t → tm_nodes m' !! a = tm_nodes m !! a ∧ tm_ints m' !! a = tm_ints m !! a) →
  rep m par lvl t → rep m' par lvl t.
Proof.
  intros Hd. revert par lvl. induction t as [a i lp|a mid i l IHl r IHr]; intros par lvl Ha; simpl.
  - destruct (Ha a) as [-> _]; [set_solver|]. destruct (Ha lp) as [_ ->]; [set_solver|]. by rewrite Hd.
  - destruct (Ha a) as [-> _]; [set_solver|]. intros (H1 & H2 & H3 & H4). split_and!; [done..| |].
    + apply IHl; [|done]. intros b Hb. apply Ha. set_solver.
    + apply IHr; [|done]. intros b Hb. apply Ha. set_solver.
Qed.

(** ** Steps on the library's memory *)

(** The memory is [m] and the system is in order. *)
Definition St (m : tree_mem) (s : S) : Prop := tmem s = m ∧ sys_ok s.

Lemma St_set m f s : St m s → St (f m) (set_tmem (f (tmem s)) s).
Proof. intros [-> H]. split; [by rewrite tmem_set_tmem|by apply sys_ok_set_tmem]. Qed.

Lemma step_upd {B} f (g : unit → M S B) o m s Q :
  St m s → (∀ s', St (f m) s' → returns (g tt) o s' Q) → returns (bind (upd_tm f) g) o s Q.
Proof.
  intros Hs Hg. eapply returns_eq; [apply bind_modify|]. apply Hg. by apply St_set.
Qed.

Lemma step_get {A B} (f : tree_mem → A) (g : A → M S B) o m s Q :
  St m s → returns (g (f m)) o s Q → returns (bind (tm_get f) g) o s Q.
Proof. intros [<- _] Hg. by eapply returns_eq; [apply bind_gets|]. Qed.

Lemma step_rd_node {B} p n (g : tree_node → M S B) o m s Q :
  St m s → tm_nodes m !! p = Some n → returns (g n) o s Q → returns (bind (rd_node p) g) o s Q.
Proof.
  intros Hs Hn Hg. eapply returns_eq; [apply bind_assoc|]. eapply step_get; [done|]. by rewrite Hn.
Qed.

Definition put_node (p : Z) (n : tree_node) (m : tree_mem) : tree_mem :=
  set_tm_nodes (<[p := n]> (tm_nodes m)) m.

Lemma step_wr_node {B} p n f (g : unit → M S B) o m s Q :
  St m s → tm_nodes m !! p = Some n →
  (∀ s', St (put_node p (f n) m) s' → returns (g tt) o s' Q) →
  returns (bind (wr_node p f) g) o s Q.
Proof.
  intros Hs Hn Hg. eapply returns_eq; [apply bind_assoc|]. eapply step_rd_node; [done..|].
  by eapply step_upd.
Qed.

Lemma step_rd_tree {B} p t (g : trnmnt_tree → M S B) o m s Q :
  St m s → tm_trees m !! p = Some t → returns (g t) o s Q → returns (bind (rd_tree p) g) o s Q.
Proof.
  intros Hs Hn Hg. eapply returns_eq; [apply bind_assoc|]. eapply step_get; [done|]. by rewrite Hn.
Qed.

Lemma step_wr_tree {B} p t f (g : unit → M S B) o m s Q :
  St m s → tm_trees m !! p = Some t →
  (∀ s', St (set_tm_trees (<[p := f t]> (tm_trees m)) m) s' → returns (g tt) o s' Q) →
  returns (bind (wr_tree p f) g) o s Q.
Proof.
  intros Hs Hn Hg. eapply returns_eq; [apply bind_assoc|]. eapply step_rd_tree; [done..|].
  by eapply step_upd.
Qed.

(** The memory after a successful malloc. *)
Definition grown (install : Z → tree_mem → tree_mem) (m : tree_mem) : tree_mem :=
  install (tm_next m) (set_tm_next (tm_next m + 1) (set_tm_avail (pred (tm_avail m)) m)).

Lemma step_malloc {B} install (g : Z → M S B) o m s Q :
  St m s → (0 < tm_avail m)%nat →
  (∀ s', St (grown install m) s' → returns (g (tm_next m)) o s' Q) →
  returns (bind (malloc install) g) o s Q.
Proof.
  intros Hs Ha Hg. eapply returns_eq; [apply bind_assoc|]. eapply step_get; [done|].
  destruct (tm_avail m) as [|n] eqn:E; [lia|].
  eapply returns_eq; [apply bind_assoc|]. eapply step_get; [done|].
  eapply returns_eq; [apply bind_assoc|]. eapply step_upd; [done|]. intros s' Hs'.
  eapply returns_eq; [apply bind_ret|]. apply Hg. unfold grown. by rewrite E.
Qed.

Lemma step_alloc {B} (g : Z → M S B) o m s Q :
  St m s → (∀ r s', St m s' → returns (g r) o s' Q) → returns (bind sys_mutex_alloc g) o s Q.
Proof.
  intros [Hm Hok] Hg. apply returns_bind. destruct (sys_alloc_returns o s Hok) as (r & s' & H & Ht & Hok').
  exists r, s'. split; [done|]. apply Hg. split; [congruence|done].
Qed.

Lemma step_last {A} (m : M S A) o s Q : returns (bind m ret) o s Q → returns m o s Q.
Proof.
  intros (a & s' & H & HQ). exists a, s'. split; [|done]. unfold bind in H.
  by destruct (m o s).
Qed.

(** ** create_tree *)

(** How many blocks the subtree below a node needs. *)
Fixpoint need (D : nat) : nat :=
  match D with
  | O => 0
  | Datatypes.S O => 1
  | Datatypes.S D' => 2 + 2 * need D'
  end.

Definition pow2 (n : nat) : Z := 2 ^ Z.of_nat n.
Lemma pow2_S n : pow2 (Datatypes.S n) = 2 * pow2 n.
Proof. unfold pow2. rewrite Nat2Z.inj_succ, Z.pow_succ_r by lia. done. Qed.
Lemma pow2_0 : pow2 0 = 1.
Proof. done. Qed.

(** Before the call for the node [p], number [i] of its level: the next free
    number of each lower level. *)
Record creatable (p par i : Z) (D : nat) (m : tree_mem) : Prop := {
  ca_node : ∃ n, tm_nodes m !! p = Some n ∧ parent n = par;
  ca_pos : 0 < p < tm_next m;
  ca_avail : (need D ≤ tm_avail m)%nat;
  ca_index j : (j < D)%nat → tm_level_index m !! j = Some (i * pow2 (D - 1 - j));
  ca_cur : tm_curLevel m = Z.of_nat D - 2 → tm_index m = i
}.

Record created (p par i : Z) (D : nat) (m m' : tree_mem) (t : ttree) : Prop := {
  cr_addr : taddr t = p;
  cr_shape : perfect (D - 1) i t;
  cr_rep : rep m' par (Z.of_nat D - 2) t;
  cr_addrs a : a ∈ taddrs t → a = p ∨ tm_next m ≤ a < tm_next m';
  cr_nodes a : a ≠ p → a < tm_next m → tm_nodes m' !! a = tm_nodes m !! a;
  cr_ints a : a < tm_next m → tm_ints m' !! a = tm_ints m !! a;
  cr_index j : tm_level_index m' !! j =
    if (j <? D)%nat then Some ((i + 1) * pow2 (D - 1 - j)) else tm_level_index m !! j;
  cr_cur : tm_curLevel m' = -1 ∧ tm_index m' = (i + 1) * pow2 (D - 1);
  cr_next : tm_next m ≤ tm_next m';
  cr_avail : (tm_avail m' + need D = tm_avail m)%nat;
  cr_same : tm_trees m' = tm_trees m ∧ tm_treeDepth m' = tm_treeDepth m
}.

(** The part of create_tree common to leaves and inner nodes. *)
Definition stamped (p i : Z) (D : nat) (n : tree_node) (m : tree_mem) : tree_mem :=
  set_tm_level_index (<[pred D := i + 1]> (tm_level_index m))
    (set_tm_index (i + 1)
       (put_node p (set_index i (set_level (Z.of_nat D - 2) n)) (set_tm_curLevel (Z.of_nat D - 2) m))).

Definition create_rest (node : Z) (d : nat) : M S unit :=
  match d with
  | O =>
      wr_node node (set_left_child 0) ;;;
      wr_node node (set_right_child 0) ;;;
      let! treeDepth := tm_get tm_treeDepth in
      let! p := malloc_ints (Z.to_nat treeDepth) in
      wr_node node (set_lockPath p)
  | Datatypes.S _ =>
      let! left_ := malloc_node in
      let! right_ := malloc_node in
      wr_node left_ (set_parent node) ;;;
      wr_node right_ (set_parent node) ;;;
      wr_node node (set_left_child left_) ;;;
      wr_node node (set_right_child right_) ;;;
      let! id := sys_mutex_alloc in
      wr_node node (set_mutex_id id) ;;;
      create_tree left_ d ;;;
      create_tree right_ d
  end.

Lemma create_stamp p par i d n o m s Q :
  St m s → creatable p par i (Datatypes.S d) m → tm_nodes m !! p = Some n →
  (∀ s', St (stamped p i (Datatypes.S d) n m) s' → returns (create_rest p d) o s' Q) →
  returns (create_tree p (Datatypes.S d)) o s Q.
Proof.
  intros Hs Hca Hn Hk. cbn [create_tree]. eapply step_get; [done|].
  assert (tm_level_index m !! d = Some i) as Hi.
  { rewrite (ca_index _ _ _ _ _ Hca) by lia. replace (Datatypes.S d - 1 - d)%nat with 0%nat by lia.
    rewrite pow2_0. f_equal. lia. }
  set (lv := Z.of_nat (Datatypes.S d) - 2) in *.
  assert (∀ s', St (set_tm_index i (set_tm_curLevel lv m)) s' → returns
    (let! curLevel := tm_get tm_curLevel in
      wr_node p (set_level curLevel) ;;;
      let! i := tm_get tm_index in
      wr_node p (set_index i) ;;;
      upd_tm (λ m, set_tm_index (tm_index m + 1) m) ;;;
      upd_tm (λ m, set_tm_level_index (<[d := tm_index m]> (tm_level_index m)) m) ;;;
      create_rest p d) o s' Q) as Hrest.
  { intros s1 H1. eapply step_get; [done|]. eapply step_wr_node; [done|exact Hn|].
    intros s2 H2. eapply step_get; [done|]. eapply step_wr_node; [done|simpl; apply lookup_insert_eq|].
    intros s3 H3. eapply step_upd; [done|]. intros s4 H4. eapply step_upd; [done|]. intros s5 H5.
    apply Hk. unfold stamped, put_node in *. simpl in *. by rewrite insert_insert_eq in H5. }
  destruct (Z.eqb_spec (tm_curLevel m) lv) as [E|E].
  - eapply returns_eq; [apply bind_when_false|]. apply Hrest.
    pose proof (ca_cur _ _ _ _ _ Hca E) as Hix. rewrite <- E, <- Hix. by destruct m.
  - eapply returns_eq; [apply bind_when_true|]. eapply returns_eq; [apply bind_assoc|].
    eapply step_upd; [done|]. intros s1 H1. eapply step_upd; [done|]. intros s2 H2.
    apply Hrest. by rewrite (nth_lookup_Some _ _ _ _ Hi) in H2.
Qed.

Lemma create_leaf p par i o m s :
  St m s → creatable p par i 1 m →
  returns (create_tree p 1) o s (λ _ s', ∃ m' t, St m' s' ∧ created p par i 1 m m' t).
Proof.
  intros Hs Hca. pose proof Hca as [(n & Hn & Hpar) Hp Ha Hix Hcur].
  eapply create_stamp; [done..|]. clear s Hs. intros s Hs. unfold create_rest.
  eapply step_wr_node; [done|apply lookup_insert_eq|]. clear s Hs. intros s Hs.
  eapply step_wr_node; [done|apply lookup_insert_eq|]. clear s Hs. intros s Hs.
  eapply step_get; [done|]. eapply step_malloc; [done|simpl in *; lia|]. clear s Hs. intros s Hs.
  apply step_last. eapply step_wr_node; [done|apply lookup_insert_eq|]. clear s Hs. intros s Hs.
  apply returns_ret. eexists _, (TLeaf p i (tm_next m)). split; [exact Hs|].
  unfold put_node, grown, stamped. simpl. split; simpl; try done.
  - split_and!; [lia| |].
    + exists (mutex_id n). rewrite lookup_insert_eq. by rewrite <- Hpar.
    + eexists. rewrite lookup_insert_eq. split; [done|]. by rewrite length_replicate.
  - intros a Hin. apply elem_of_cons in Hin as [->|Hin]; [by left|].
    apply list_elem_of_singleton in Hin as ->. right. lia.
  - intros a Hne Hlt. by rewrite !lookup_insert_ne by done.
  - intros a Hlt. rewrite lookup_insert_ne by lia. done.
  - intros j. pose proof (lookup_lt_Some _ _ _ (Hix 0%nat ltac:(lia))).
    destruct (decide (j = 0%nat)) as [->|Hj].
    + rewrite list_lookup_insert_eq by done. simpl. f_equal. rewrite pow2_0. lia.
    + rewrite list_lookup_insert_ne by done. rewrite (proj2 (Nat.ltb_ge _ _)) by lia. done.
  - split; [done|]. rewrite pow2_0. lia.
  - lia.
  - simpl in Ha. lia.
Qed.

(** The memory of an inner node before its subtrees are built. *)
Record spread (p par mid i : Z) (D : nat) (m m2 : tree_mem) : Prop := {
  sp_node : ∃ lp, tm_nodes m2 !! p =
    Some (TreeNode (tm_next m) (tm_next m + 1) par mid i (Z.of_nat D - 2) lp);
  sp_left : ∃ n, tm_nodes m2 !! tm_next m = Some n ∧ parent n = p;
  sp_right : ∃ n, tm_nodes m2 !! (tm_next m + 1) = Some n ∧ parent n = p;
  sp_nodes a : a ≠ p → a < tm_next m → tm_nodes m2 !! a = tm_nodes m !! a;
  sp_ints : tm_ints m2 = tm_ints m;
  sp_next : tm_next m2 = tm_next m + 2;
  sp_avail : tm_avail m = (tm_avail m2 + 2)%nat;
  sp_index : tm_level_index m2 = <[pred D := i + 1]> (tm_level_index m);
  sp_cur : tm_curLevel m2 = Z.of_nat D - 2;
  sp_same : tm_trees m2 = tm_trees m ∧ tm_treeDepth m2 = tm_treeDepth m
}.

Lemma create_spread p par i d o m s Q :
  St m s → creatable p par i (Datatypes.S (Datatypes.S d)) m →
  (∀ mid m2 s', St m2 s' → spread p par mid i (Datatypes.S (Datatypes.S d)) m m2 →
     returns (create_tree (tm_next m) (Datatypes.S d) ;;;
              create_tree (tm_next m + 1) (Datatypes.S d)) o s' Q) →
  returns (create_tree p (Datatypes.S (Datatypes.S d))) o s Q.
Proof.
  intros Hs Hca Hk. pose proof Hca as [(n & Hn & Hpar) Hp Ha Hix Hcur].
  eapply create_stamp; [done..|]. clear s Hs. intros s Hs. cbn [create_rest].
  assert (2 ≤ tm_avail m)%nat as Ha2 by (cbn [need] in Ha; lia).
  eapply step_malloc; [done|simpl; lia|]. clear s Hs. intros s Hs.
  eapply step_malloc; [done|simpl; lia|]. clear s Hs. intros s Hs.
  simpl tm_next in *. unfold grown, stamped, put_node in Hs. simpl in Hs.
  eapply step_wr_node; [done|simpl; rewrite lookup_insert_ne by lia; apply lookup_insert_eq|].
  clear s Hs. intros s Hs. unfold put_node in Hs. simpl in Hs.
  eapply step_wr_node; [done|simpl; rewrite lookup_insert_ne by lia; apply lookup_insert_eq|].
  clear s Hs. intros s Hs. unfold put_node in Hs. simpl in Hs.
  eapply step_wr_node; [done|simpl; rewrite !lookup_insert_ne by lia; apply lookup_insert_eq|].
  clear s Hs. intros s Hs. unfold put_node in Hs. simpl in Hs.
  eapply step_wr_node; [done|apply lookup_insert_eq|].
  clear s Hs. intros s Hs. unfold put_node in Hs. simpl in Hs.
  eapply step_alloc; [done|]. clear s Hs. intros mid s Hs.
  eapply step_wr_node; [done|apply lookup_insert_eq|].
  clear s Hs. intros s Hs. unfold put_node in Hs. simpl in Hs.
  apply (Hk mid _ _ Hs). split; simpl; try done; try lia.
  - exists (lockPath n). rewrite lookup_insert_eq. by rewrite <- Hpar.
  - eexists. rewrite !lookup_insert_ne by lia. by rewrite lookup_insert_eq.
  - eexists. rewrite !lookup_insert_ne by lia. by rewrite lookup_insert_eq.
  - intros a Hne Hlt. by rewrite !lookup_insert_ne by lia.
Qed.

Lemma creatable_left p par mid i d m m2 :
  creatable p par i (Datatypes.S (Datatypes.S d)) m →
  spread p par mid i (Datatypes.S (Datatypes.S d)) m m2 →
  creatable (tm_next m) p (2 * i) (Datatypes.S d) m2.
Proof.
  intros [_ Hp Ha Hix _] [_ Hl _ _ _ Hnx Hav Hli Hcur _]. split; [done|lia| | |lia].
  - cbn [need] in Ha. destruct d; simpl in *; lia.
  - intros j Hj. rewrite Hli, list_lookup_insert_ne by (simpl; lia). rewrite Hix by lia. f_equal.
    replace (Datatypes.S (Datatypes.S d) - 1 - j)%nat with (Datatypes.S (Datatypes.S d - 1 - j)) by lia.
    rewrite pow2_S. lia.
Qed.

Lemma creatable_right p par mid i d m m2 m3 t1 :
  creatable p par i (Datatypes.S (Datatypes.S d)) m →
  spread p par mid i (Datatypes.S (Datatypes.S d)) m m2 →
  created (tm_next m) p (2 * i) (Datatypes.S d) m2 m3 t1 →
  creatable (tm_next m + 1) p (2 * i + 1) (Datatypes.S d) m3.
Proof.
  intros [_ Hp Ha Hix _] [_ _ (n & Hn & Hpar) _ _ Hnx Hav Hli _ _]
    [_ _ _ _ Hnod _ Hind [Hc1 Hc2] Hnxt Hav3 _]. split.
  - exists n. rewrite Hnod by lia. done.
  - lia.
  - cbn [need] in Ha, Hav3 |- *. destruct d; simpl in *; lia.
  - intros j Hj. rewrite Hind, (proj2 (Nat.ltb_lt _ _)) by lia. done.
  - intros Hcur. rewrite Hc2. assert (d = 0%nat) as -> by lia. simpl. rewrite pow2_0. lia.
Qed.

Lemma created_inner p par mid i d m m2 m3 m4 t1 t2 :
  creatable p par i (Datatypes.S (Datatypes.S d)) m →
  spread p par mid i (Datatypes.S (Datatypes.S d)) m m2 →
  created (tm_next m) p (2 * i) (Datatypes.S d) m2 m3 t1 →
  created (tm_next m + 1) p (2 * i + 1) (Datatypes.S d) m3 m4 t2 →
  created p par i (Datatypes.S (Datatypes.S d)) m m4 (TNode p mid i t1 t2).
Proof.
  intros Hca Hsp H1 H2. pose proof Hca as [_ Hp Ha Hix _].
  pose proof Hsp as [(lp & Hnp) _ _ Hfr Hin Hnx Hav Hli _ [Hs1 Hs2]].
  destruct H1 as [A1 B1 C1 D1 E1 F1 G1 _ I1 J1 [K1 L1]], H2 as [A2 B2 C2 D2 E2 F2 G2 [H2c H2i] I2 J2 [K2 L2]].
  replace (Datatypes.S d - 1)%nat with d in * by lia.
  split; cbn [taddr taddrs rep].
  - done.
  - replace (Datatypes.S (Datatypes.S d) - 1)%nat with (Datatypes.S d) by lia. by split_and!.
  - split_and!; [lia| | |].
    + exists lp. rewrite A1, A2. by rewrite E2, E1 by lia.
    + replace (Z.of_nat (Datatypes.S (Datatypes.S d)) - 2 - 1) with (Z.of_nat (Datatypes.S d) - 2) by lia.
      apply (rep_ext m3); [done| |done]. intros a Hin1. destruct (D1 a Hin1) as [->|?].
      * split; [apply E2; lia|apply F2; lia].
      * split; [apply E2; lia|apply F2; lia].
    + replace (Z.of_nat (Datatypes.S (Datatypes.S d)) - 2 - 1) with (Z.of_nat (Datatypes.S d) - 2) by lia.
      done.
  - intros a Hin1. apply elem_of_cons in Hin1 as [->|Hin1]; [by left|]. right.
    apply elem_of_app in Hin1 as [Hin1|Hin1]; [destruct (D1 a Hin1)|destruct (D2 a Hin1)]; lia.
  - intros a Hne Hlt. rewrite E2, E1 by lia. by apply Hfr.
  - intros a Hlt. rewrite F2, F1 by lia. by rewrite Hin.
  - intros j. rewrite G2, G1, Hli. simpl pred.
    pose proof (lookup_lt_Some _ _ _ (Hix (Datatypes.S d) ltac:(lia))) as Hlen.
    destruct (Nat.ltb_spec j (Datatypes.S d)) as [Hj|Hj].
    + rewrite (proj2 (Nat.ltb_lt _ _)) by lia. f_equal.
      replace (Datatypes.S (Datatypes.S d) - 1 - j)%nat with (Datatypes.S (Datatypes.S d - 1 - j)) by lia.
      replace (Datatypes.S d - 1 - j)%nat with (d - j)%nat by lia.
      rewrite pow2_S. lia.
    + destruct (decide (j = Datatypes.S d)) as [->|Hne].
      * rewrite list_lookup_insert_eq by done. rewrite (proj2 (Nat.ltb_lt _ _)) by lia. f_equal.
        replace (Datatypes.S (Datatypes.S d) - 1 - Datatypes.S d)%nat with 0%nat by lia. rewrite pow2_0. lia.
      * rewrite list_lookup_insert_ne by done. by rewrite (proj2 (Nat.ltb_ge _ _)) by lia.
  - split; [done|]. replace (Datatypes.S (Datatypes.S d) - 1)%nat with (Datatypes.S d) by lia.
    rewrite H2i, pow2_S. lia.
  - lia.
  - cbn [need] in *. destruct d; simpl in *; lia.
  - split; congruence.
Qed.

Lemma create_tree_spec d p par i o m s :
  St m s → creatable p par i (Datatypes.S d) m →
  returns (create_tree p (Datatypes.S d)) o s
    (λ _ s', ∃ m' t, St m' s' ∧ created p par i (Datatypes.S d) m m' t).
Proof.
  revert p par i m s. induction d as [|d IH]; intros p par i m s Hs Hca; [by apply create_leaf|].
  eapply create_spread; [done..|]. clear s Hs. intros mid m2 s Hs Hsp.
  apply returns_bind. eapply returns_mono; [by apply IH; [|eapply creatable_left]|].
  simpl. clear s Hs. intros _ s (m3 & t1 & Hs & H1).
  eapply returns_mono; [by apply IH; [|eapply creatable_right]|].
  simpl. clear s Hs. intros _ s (m4 & t2 & Hs & H2).
  exists m4, (TNode p mid i t1 t2). split; [done|]. by eapply created_inner.
Qed.

(** ** find_leaf *)

Fixpoint height (t : ttree) : nat :=
  match t with
  | TLeaf _ _ _ => 0
  | TNode _ _ _ l r => Datatypes.S (height l `max` height r)
  end.

(** The leaf numbered [ID]: its address, its array and the nodes above it up to
    the root of [t], with their mutexes. *)
Fixpoint climb (t : ttree) (ID : Z) : option (Z * Z * list (Z * Z)) :=
  match t with
  | TLeaf a i lp => if ID =? i then Some (a, lp, []) else None
  | TNode a mid _ l r =>
      match climb l ID with
      | Some (x, lp, path) => Some (x, lp, path ++ [(a, mid)])
      | None => match climb r ID with
                | Some (x, lp, path) => Some (x, lp, path ++ [(a, mid)])
                | None => None
                end
      end
  end.

Definition leaf_of (t : ttree) (ID : Z) : Z :=
  match climb t ID with Some (a, _, _) => a | None => 0 end.

Lemma climb_pos m par lvl t ID a lp path :
  rep m par lvl t → climb t ID = Some (a, lp, path) → 0 < a.
Proof.
  revert par lvl path. induction t as [b i lp'|b mid i l IHl r IHr]; intros par lvl path; simpl.
  - intros [? _]. case_test; intros; by simplify_eq.
  - intros (_ & _ & Hl & Hr). destruct (climb l ID) as [[[? ?] ?]|]; intros ?; simplify_eq; [by eapply IHl|].
    destruct (climb r ID) as [[[? ?] ?]|]; simplify_eq. by eapply IHr.
Qed.

Lemma find_leaf_eq fuel t ID par lvl o m s :
  tm_nodes (tmem s) = tm_nodes m → rep m par lvl t → (height t < fuel)%nat →
  find_leaf fuel (taddr t) ID o s = Ok (leaf_of t ID) s o.
Proof.
  intros Hs. revert fuel par lvl.
  induction t as [a i lp|a mid i l IHl r IHr]; intros [|fuel] par lvl Hr Hf; try (simpl in Hf; lia);
    cbn [find_leaf taddr].
  - destruct Hr as (Hp & (mid & Hn) & _). unfold rd_node, tm_get. mrun.
    rewrite Hs, Hn. mrun. simpl. unfold leaf_of. simpl. by case_test.
  - pose proof Hr as (Hp & (lp & Hn) & Hl & Hr'). unfold rd_node, tm_get. mrun.
    rewrite Hs, Hn. mrun. simpl.
    pose proof (rep_addr_pos _ _ _ _ Hl). pose proof (rep_addr_pos _ _ _ _ Hr').
    rewrite (proj2 (Z.eqb_neq (taddr r) 0)) by lia. cbn [andb].
    simpl in Hf. rewrite (bind_ok _ _ _ _ _ _ _ (IHl fuel _ _ Hl ltac:(lia))).
    rewrite (bind_ok _ _ _ _ _ _ _ (IHr fuel _ _ Hr' ltac:(lia))).
    unfold leaf_of. simpl. unfold ret. f_equal.
    destruct (climb l ID) as [[[x lp'] path]|] eqn:El; simpl.
    + pose proof (climb_pos _ _ _ _ _ _ _ _ Hl El). by rewrite (proj2 (Z.eqb_neq x 0)) by lia.
    + by destruct (climb r ID) as [[[x lp'] path]|].
Qed.

Lemma perfect_height d i t : perfect d i t → height t = d.
Proof.
  revert i t. induction d as [|d IH]; intros i [?|? ? ? l r]; simpl; try done.
  intros (_ & Hl & Hr). rewrite (IH _ _ Hl), (IH _ _ Hr). lia.
Qed.

(** In a perfect tree the leaves of node [i] are those from [i * 2^d] on, and
    the path from a leaf to the root has one node per level. *)
Lemma perfect_climb d i t ID :
  perfect d i t →
  if (i * pow2 d <=? ID) && (ID <? (i + 1) * pow2 d)
  then ∃ a lp path, climb t ID = Some (a, lp, path) ∧ length path = d
  else climb t ID = None.
Proof.
  revert i t. induction d as [|d IH]; intros i t Hp.
  - destruct t as [a j lp|]; simpl in Hp; [|done]. subst. rewrite pow2_0. simpl.
    destruct (Z.eqb_spec ID i) as [->|Hne]; [|case_tests].
    rewrite (proj2 (Z.leb_le _ _)), (proj2 (Z.ltb_lt _ _)) by lia. simpl. eauto.
  - destruct t as [|a mid j l r]; simpl in Hp; [done|]. destruct Hp as (-> & Hl & Hr).
    specialize (IH _ _ Hl) as IHl. specialize (IH _ _ Hr) as IHr. simpl.
    rewrite pow2_S. assert (0 < pow2 d) by (unfold pow2; lia).
    destruct (Z.leb_spec (2 * i * pow2 d) ID), (Z.ltb_spec ID ((2 * i + 1) * pow2 d)); simpl in IHl.
    + destruct IHl as (x & lp & path & -> & Hlen).
      rewrite (proj2 (Z.leb_le _ _)), (proj2 (Z.ltb_lt _ _)) by nia. simpl.
      eexists _, _, _. split; [done|]. rewrite length_app. simpl. lia.
    + rewrite IHl. rewrite (proj2 (Z.leb_le ((2 * i + 1) * pow2 d) ID)) in IHr by lia. simpl in IHr.
      rewrite (proj2 (Z.leb_le (i * (2 * pow2 d)) ID)) by lia.
      replace ((2 * i + 1 + 1) * pow2 d) with ((i + 1) * (2 * pow2 d)) in IHr by lia. simpl.
      destruct (Z.ltb_spec ID ((i + 1) * (2 * pow2 d))).
      * destruct IHr as (x & lp & path & -> & Hlen). eexists _, _, _. split; [done|].
        rewrite length_app. simpl. lia.
      * by rewrite IHr.
    + rewrite IHl. rewrite (proj2 (Z.leb_gt (i * (2 * pow2 d)) ID)) by lia. simpl.
      rewrite (proj2 (Z.leb_gt ((2 * i + 1) * pow2 d) ID)) in IHr by lia. simpl in IHr. by rewrite IHr.
    + nia.
Qed.

(** ** acquire and release along the path *)

(** The reference: lock the mutexes of a list in order, recording each in the
    array, until one fails. *)
Fixpoint lock_path (lp lvl : Z) (ids : list Z) : M S Z :=
  match ids with
  | [] => ret 0
  | id :: ids' =>
      let! r := sys_mutex_lock id in
      wr_int lp lvl id ;;;
      if r =? -1 then ret (-1) else lock_path lp (lvl + 1) ids'
  end.

(** Unlock the last [n] entries of [ids], highest first, clearing the array. *)
Fixpoint unlock_path (lp : Z) (ids : list Z) (n : nat) : M S Z :=
  match n with
  | O => ret 0
  | Datatypes.S i =>
      let! r := sys_mutex_unlock (nth i ids 0) in
      if r =? -1 then ret (-1)
      else wr_int lp (Z.of_nat i) 0 ;;; unlock_path lp ids i
  end.

(** From [cur] the parents are the nodes of [path], the first at level [lvl]. *)
Fixpoint chain (ns : gmap Z tree_node) (cur lvl top : Z) (path : list (Z * Z)) : Prop :=
  match path with
  | [] => ∃ n, ns !! cur = Some n ∧ parent n = top
  | (a, mid) :: path' =>
      0 < a ∧ (∃ n, ns !! cur = Some n ∧ parent n = a) ∧
      (∃ p, ns !! a = Some p ∧ mutex_id p = mid ∧ level p = lvl) ∧ chain ns a (lvl + 1) top path'
  end.

Lemma chain_snoc ns cur lvl a mid top path :
  chain ns cur lvl a path → 0 < a →
  (∃ p, ns !! a = Some p ∧ mutex_id p = mid ∧ level p = lvl + Z.of_nat (length path) ∧ parent p = top) →
  chain ns cur lvl top (path ++ [(a, mid)]).
Proof.
  revert cur lvl. induction path as [|[b mid'] path IH]; intros cur lvl; simpl.
  - intros (n & Hn & Hpar) Ha (p & Hp & Hm & Hl & Ht). split_and!; [done|eauto| |eauto].
    exists p. split_and!; [done|done|lia].
  - intros (H1 & H2 & H3 & H4) Ha (p & Hp & Hm & Hl & Ht). split_and!; [done..|].
    apply IH; [done|done|]. exists p. split_and!; [done|done|lia|done].
Qed.

Lemma rep_chain m par d i t ID a lp path :
  rep m par (Z.of_nat d - 1) t → perfect d i t → climb t ID = Some (a, lp, path) →
  chain (tm_nodes m) a 0 par path ∧
  (∃ n, tm_nodes m !! a = Some n ∧ lockPath n = lp) ∧
  (∃ l, tm_ints m !! lp = Some l ∧ length l = Z.to_nat (tm_treeDepth m)).
Proof.
  revert par d i path. induction t as [b j lp'|b mid j l IHl r IHr]; intros par d i path Hr Hp Hc.
  - simpl in Hc. destruct (ID =? j); simplify_eq. destruct Hr as (_ & (mid & Hn) & Hi).
    split_and!; [by eexists|by eexists|done].
  - destruct d as [|d]; [done|]. destruct Hp as (-> & Hpl & Hpr).
    destruct Hr as (Hb & (lp0 & Hn) & Hl & Hr).
    replace (Z.of_nat (Datatypes.S d) - 1 - 1) with (Z.of_nat d - 1) in * by lia.
    assert (∀ path', length path' = d → chain (tm_nodes m) a 0 b path' →
              chain (tm_nodes m) a 0 par (path' ++ [(b, mid)])) as Hsn.
    { intros path' Hlen Hch. apply chain_snoc; [done..|]. eexists. split; [exact Hn|]. simpl.
      split_and!; [done|lia|done]. }
    simpl in Hc. pose proof (perfect_climb _ _ _ ID Hpl) as Hcl. pose proof (perfect_climb _ _ _ ID Hpr) as Hcr.
    destruct (climb l ID) as [[[x lp1] path1]|] eqn:El.
    + simplify_eq. destruct (IHl _ _ _ _ Hl Hpl eq_refl) as (H1 & H2 & H3). split_and!; [|done..].
      apply Hsn; [|done]. destruct (_ && _) in Hcl; [|done]. destruct Hcl as (? & ? & ? & ? & <-). by simplify_eq.
    + destruct (climb r ID) as [[[x lp1] path1]|] eqn:Er; simplify_eq.
      destruct (IHr _ _ _ _ Hr Hpr eq_refl) as (H1 & H2 & H3). split_and!; [|done..].
      apply Hsn; [|done]. destruct (_ && _) in Hcr; [|done]. destruct Hcr as (? & ? & ? & ? & <-). by simplify_eq.
Qed.

Lemma rd_node_eq p n o s : tm_nodes (tmem s) !! p = Some n → rd_node p o s = Ok n s o.
Proof. intros H. unfold rd_node, tm_get. mrun. by rewrite H. Qed.
Lemma rd_tree_eq p t o s : tm_trees (tmem s) !! p = Some t → rd_tree p o s = Ok t s o.
Proof. intros H. unfold rd_tree, tm_get. mrun. by rewrite H. Qed.
Lemma rd_int_eq p i l x o s :
  tm_ints (tmem s) !! p = Some l → l !! i = Some x → rd_int p (Z.of_nat i) o s = Ok x s o.
Proof.
  intros H Hx. unfold rd_int, tm_get. mrun. rewrite H, (proj2 (Z.leb_le _ _)) by lia.
  by rewrite Nat2Z.id, Hx.
Qed.

(** A write to an array changes nothing else. *)
Lemma wr_int_ok p i v o s a s' o' :
  wr_int p i v o s = Ok a s' o' →
  o' = o ∧ tm_nodes (tmem s') = tm_nodes (tmem s) ∧
  tm_trees (tmem s') = tm_trees (tmem s) ∧ tm_treeDepth (tmem s') = tm_treeDepth (tmem s) ∧
  tm_ints (tmem s') = alter (λ l, <[Z.to_nat i := v]> l) p (tm_ints (tmem s)).
Proof.
  unfold wr_int, rd_int, tm_get, upd_tm. mrun. intros H.
  destruct (tm_ints (tmem s) !! p) as [l|]; [|done]. destruct (0 <=? i); [|done].
  destruct (l !! Z.to_nat i); [|done]. unfold bind, ret, modify in H. simplify_eq.
  split_and!; [done|by rewrite tmem_set_tmem..].
Qed.

Lemma wr_int_eq p i v l o s :
  tm_ints (tmem s) !! p = Some l → (i < length l)%nat →
  ∃ s', wr_int p (Z.of_nat i) v o s = Ok tt s' o.
Proof.
  intros Hl Hi. destruct (lookup_lt_is_Some_2 l i Hi) as [x Hx]. unfold wr_int.
  rewrite (bind_ok _ _ _ _ _ _ _ (rd_int_eq _ _ _ _ _ _ Hl Hx)). by eexists.
Qed.

Lemma acquire_loop_eq fuel leaf lp cur lvl path o s :
  chain (tm_nodes (tmem s)) cur lvl 0 path →
  (∃ n, tm_nodes (tmem s) !! leaf = Some n ∧ lockPath n = lp) → (length path < fuel)%nat →
  acquire_loop fuel leaf cur o s = lock_path lp lvl (path.*2) o s.
Proof.
  revert fuel cur lvl o s. induction path as [|[a mid] path IH];
    intros [|fuel] cur lvl o s Hch Hlf Hf; try (simpl in Hf; lia); cbn [acquire_loop].
  - destruct Hch as (n & Hn & Hpar). rewrite (bind_ok _ _ _ _ _ _ _ (rd_node_eq _ _ _ _ Hn)).
    by rewrite Hpar.
  - destruct Hch as (Ha & (n & Hn & Hpar) & (p & Hp & Hm & Hlv) & Hch).
    rewrite (bind_ok _ _ _ _ _ _ _ (rd_node_eq _ _ _ _ Hn)), Hpar.
    rewrite (proj2 (Z.eqb_neq a 0)) by lia.
    rewrite (bind_ok _ _ _ _ _ _ _ (rd_node_eq _ _ _ _ Hp)), Hm.
    destruct Hlf as (nl & Hnl & Hlp). cbn [fmap list_fmap lock_path snd].
    apply bind_ext. intros r s1 o1 E.
    destruct (sys_lock_frame _ _ _ _ _ _ E) as (Hr & Hns & _).
    rewrite <- Hns in Hn, Hp, Hnl, Hch.
    rewrite (bind_ok _ _ _ _ _ _ _ (rd_node_eq _ _ _ _ Hnl)), Hlp.
    rewrite (bind_ok _ _ _ _ _ _ _ (rd_node_eq _ _ _ _ Hn)), Hpar.
    rewrite (bind_ok _ _ _ _ _ _ _ (rd_node_eq _ _ _ _ Hp)), Hm, Hlv.
    apply bind_ext. intros [] s2 o2 E2.
    destruct (wr_int_ok _ _ _ _ _ _ _ _ E2) as (-> & Hns2 & _).
    destruct Hr as [->| ->]; [|done]. cbn [Z.eqb].
    rewrite <- Hns2 in Hn, Hch, Hnl.
    rewrite (bind_ok _ _ _ _ _ _ _ (rd_node_eq _ _ _ _ Hn)), Hpar.
    apply IH; [done|by exists nl|simpl in Hf; lia].
Qed.

(** What a successful lock_path leaves behind. *)
Lemma lock_path_ok lvl ids o s s1 o1 l :
  tm_ints (tmem s) !! my_path = Some l →
  lock_path my_path (Z.of_nat lvl) ids o s = Ok 0 s1 o1 →
  tm_nodes (tmem s1) = tm_nodes (tmem s) ∧ tm_trees (tmem s1) = tm_trees (tmem s) ∧
  tm_treeDepth (tmem s1) = tm_treeDepth (tmem s) ∧
  ∃ l', tm_ints (tmem s1) !! my_path = Some l' ∧ length l' = length l ∧
    (∀ j, (j < lvl)%nat → l' !! j = l !! j) ∧
    (∀ j x, ids !! j = Some x → l' !! (lvl + j)%nat = Some x).
Proof.
  revert lvl o s l. induction ids as [|id ids IH]; intros lvl o s l Hl; simpl.
  - unfold ret. intros ?. simplify_eq. split_and!; [done..|]. exists l. split_and!; [done..|].
    intros j x Hj. by rewrite lookup_nil in Hj.
  - unfold bind. destruct (sys_mutex_lock id o s) as [r s2 o2| | | |] eqn:E; [|done..].
    destruct (sys_lock_frame _ _ _ _ _ _ E) as (Hr & Hns & Htr & Htd & Hmy).
    rewrite Hl in Hmy.
    destruct (wr_int my_path (Z.of_nat lvl) id o2 s2) as [[] s3 o3| | | |] eqn:E3; [|done..].
    destruct (wr_int_ok _ _ _ _ _ _ _ _ E3) as (-> & Hns3 & Htr3 & Htd3 & Hi3).
    destruct Hr as [->| ->]; [|done]. cbn [Z.eqb].
    replace (Z.of_nat lvl + 1) with (Z.of_nat (Datatypes.S lvl)) by lia. intros Hrest.
    assert (tm_ints (tmem s3) !! my_path = Some (<[lvl := id]> l)) as Hl3.
    { rewrite Hi3, lookup_alter_eq, Hmy. simpl. by rewrite Nat2Z.id. }
    destruct (IH (Datatypes.S lvl) o2 s3 _ Hl3 Hrest) as (H2 & H3 & H4 & l' & H5 & H6 & H7 & H8).
    assert (lvl < length l)%nat as Hlt.
    { unfold wr_int, rd_int, tm_get in E3. unfold bind at 1 2, gets in E3. rewrite Hmy in E3.
      rewrite (proj2 (Z.leb_le _ _)), Nat2Z.id in E3 by lia.
      destruct (l !! lvl) eqn:Ell; [by eapply lookup_lt_Some|done]. }
    split_and!; [congruence|congruence|congruence|]. exists l'.
    split_and!; [done|by rewrite H6, length_insert| |].
    + intros j Hj. rewrite H7, list_lookup_insert_ne by lia. done.
    + intros [|j] x Hj; simpl in Hj.
      * simplify_eq. rewrite Nat.add_0_r, H7, list_lookup_insert_eq by lia. done.
      * replace (lvl + Datatypes.S j)%nat with (Datatypes.S lvl + j)%nat by lia. by apply H8.
Qed.

Lemma release_loop_eq leaf ids n o s l :
  (∃ x, tm_nodes (tmem s) !! leaf = Some x ∧ lockPath x = my_path) →
  tm_ints (tmem s) !! my_path = Some l → (∀ j, (j < n)%nat → l !! j = Some (nth j ids 0)) →
  release_loop leaf n o s = unlock_path my_path ids n o s.
Proof.
  revert o s l. induction n as [|n IH]; intros o s l (x & Hx & Hlp) Hl Hids; simpl; [done|].
  rewrite (bind_ok _ _ _ _ _ _ _ (rd_node_eq _ _ _ _ Hx)), Hlp.
  rewrite (bind_ok _ _ _ _ _ _ _ (rd_int_eq _ _ _ _ _ _ Hl (Hids n ltac:(lia)))).
  apply bind_ext. intros r s1 o1 E.
  destruct (sys_unlock_frame _ _ _ _ _ _ E) as (Hr & Hns & Htr & Htd & Hmy).
  destruct Hr as [->| ->]; [|done]. cbn [Z.eqb]. rewrite <- Hns in Hx. rewrite Hl in Hmy.
  rewrite (bind_ok _ _ _ _ _ _ _ (rd_node_eq _ _ _ _ Hx)), Hlp.
  apply bind_ext. intros [] s2 o2 E2.
  destruct (wr_int_ok _ _ _ _ _ _ _ _ E2) as (-> & Hns2 & _ & _ & Hi2).
  apply (IH _ _ (<[n := 0]> l)); [exists x; split; [congruence|done]| |].
  - rewrite Hi2, lookup_alter_eq, Hmy. simpl. by rewrite Nat2Z.id.
  - intros j Hj. rewrite list_lookup_insert_ne by lia. apply Hids. lia.
Qed.

(** The block of the tree and the tree itself. *)
Definition tree_at (tree : Z) (d : nat) (t : ttree) (m : tree_mem) : Prop :=
  tm_trees m !! tree = Some (TrnmntTree (taddr t) (Z.of_nat d)) ∧
  perfect d 0 t ∧ rep m 0 (Z.of_nat d - 1) t ∧ tm_treeDepth m = Z.of_nat d.

(** ** Main theorems *)

(** [C28] trnmnt_tree_alloc(d), given enough memory, returns a perfect binary tree
    of height d: inner nodes on levels d-1 (the root) to 0, leaves on level -1,
    the nodes of every level numbered from left to right, parent and child
    pointers consistent, an array of d entries at every leaf; blocks allocated
    before are untouched and the library is ready for the next tree. *)
Theorem tree_alloc_perfect d o m s :
  St m s → (1 ≤ d)%nat → 0 < tm_next m → tm_curLevel m < 0 →
  (need (d + 1) + 2 ≤ tm_avail m)%nat →
  returns (trnmnt_tree_alloc (Z.of_nat d)) o s (λ tree s', ∃ t m',
    St m' s' ∧ 0 < tree ∧ tree_at tree d t m' ∧ tm_curLevel m' < 0 ∧
    ∀ a, a < tm_next m → tm_nodes m' !! a = tm_nodes m !! a ∧ tm_ints m' !! a = tm_ints m !! a).
Proof.
  intros Hs Hd Hnx Hcur Hav. unfold trnmnt_tree_alloc. rewrite (proj2 (Z.ltb_ge _ _)) by lia.
  eapply step_malloc; [done|lia|]. clear s Hs. intros s Hs.
  eapply step_malloc; [done|simpl; lia|]. clear s Hs. intros s Hs.
  unfold grown in Hs. simpl in Hs. simpl tm_next.
  eapply step_upd; [done|]. clear s Hs. intros s Hs.
  eapply step_wr_tree; [done|simpl; apply lookup_insert_eq|]. clear s Hs. intros s Hs.
  eapply step_wr_tree; [done|simpl; apply lookup_insert_eq|]. clear s Hs. intros s Hs.
  eapply step_wr_node; [done|simpl; apply lookup_insert_eq|]. clear s Hs. intros s Hs.
  replace (Z.to_nat (Z.of_nat d + 1)) with (Datatypes.S d) in * by lia.
  eapply step_upd; [done|]. clear s Hs. intros s Hs.
  eapply step_rd_tree; [done|simpl; apply lookup_insert_eq|].
  set (m1 := set_tm_level_index _ _) in *. cbn [root depth].
  apply returns_bind. eapply returns_mono; [eapply (create_tree_spec d _ 0 0); [exact Hs|split]|].
  - eexists. unfold m1. simpl. by rewrite lookup_insert_eq.
  - unfold m1. simpl. lia.
  - unfold m1. cbn -[need]. replace (d + 1)%nat with (Datatypes.S d) in Hav by lia. lia.
  - intros j Hj. unfold m1. cbn [tm_level_index set_tm_level_index].
    rewrite (lookup_replicate_2 (Datatypes.S d) 0 j) by lia. done.
  - unfold m1. simpl. lia.
  - simpl. clear s Hs. intros _ s (m' & t & Hs & Hcr). apply returns_ret.
    exists t, m'. destruct Hcr as [A B C D E F G [H _] I J [K L]].
    replace (Datatypes.S d - 1)%nat with d in * by lia.
    replace (Z.of_nat (Datatypes.S d) - 2) with (Z.of_nat d - 1) in C by lia.
    split_and!; [done|lia| |lia|].
    + split_and!; [|done|done|by rewrite L]. rewrite K, A. unfold m1. simpl. by rewrite !lookup_insert_eq.
    + intros a Ha. rewrite E, F by (unfold m1; simpl; lia). unfold m1. simpl.
      by rewrite !lookup_insert_ne by lia.
Qed.

(** [C19] trnmnt_tree_acquire by the thread with number ID locks exactly the
    mutexes of the nodes on the path from leaf ID to the root, bottom up, and
    records each of them in the leaf's array at the level of its node, stopping
    with -1 at the first lock that fails. *)
Theorem tree_acquire_locks_path d tree t ID fuel o m s :
  tmem s = m → tree_at tree d t m → 0 ≤ ID < pow2 d → (d < fuel)%nat →
  ∃ a lp path, climb t ID = Some (a, lp, path) ∧ length path = d ∧
    trnmnt_tree_acquire fuel tree ID o s = lock_path lp 0 path.*2 o s.
Proof.
  intros E (Ht & Hp & Hr & Htd) HID Hf. pose proof (perfect_climb _ _ _ ID Hp) as Hc.
  rewrite (proj2 (Z.leb_le _ _)), (proj2 (Z.ltb_lt _ _)) in Hc by lia. simpl in Hc.
  destruct Hc as (a & lp & path & Hc & Hlen). exists a, lp, path. split_and!; [done|done|].
  destruct (rep_chain _ _ _ _ _ _ _ _ _ Hr Hp Hc) as (Hch & Hlf & _).
  unfold trnmnt_tree_acquire.
  rewrite (bind_ok _ _ _ _ _ _ _ (rd_tree_eq _ _ _ _ ltac:(by rewrite E))). cbn [root].
  rewrite (bind_ok _ _ _ _ _ _ _ (find_leaf_eq fuel t ID _ _ o m s ltac:(by rewrite E) Hr
             ltac:(by rewrite (perfect_height _ _ _ Hp)))).
  unfold leaf_of. rewrite Hc. apply acquire_loop_eq; [by rewrite E|by rewrite E|lia].
Qed.


End Tree.

(** ** The kernel as the system below the library *)

Record kt := Kt { kt_mem : tree_mem; kt_k : kernel }.

(** A system call, no other thread running meanwhile. *)
Definition syscall_kt (c : KM Z) : M kt Z := λ o s,
  match c [] (kt_k s) with
  | Ok r k _ => Ok r (Kt (kt_mem s) k) o
  | Panic e k => Panic e (Kt (kt_mem s) k)
  | Wait k => Wait (Kt (kt_mem s) k)
  | Gone k => Gone (Kt (kt_mem s) k)
  | Undef e k => Undef e (Kt (kt_mem s) k)
  end.

(** The value of a call that returns only 0 or -1. *)
Definition only_0_1 (c : KM Z) : Prop :=
  ∀ o k r k' o', c o k = Ok r k' o' → r = 0 ∨ r = -1.

Lemma only_0_1_bind {A} (c : KM A) f : (∀ a, only_0_1 (f a)) → only_0_1 (bind c f).
Proof.
  intros Hf o k r k' o' H. unfold bind in H. destruct (c o k); try done. by eapply Hf.
Qed.
Lemma only_0_1_ret r : r = 0 ∨ r = -1 → only_0_1 (ret r).
Proof. intros Hr o k r' k' o' H. unfold ret in H. by simplify_eq. Qed.

Ltac zero_one :=
  repeat first [ apply only_0_1_bind; intros ?
               | match goal with |- only_0_1 (match ?x with _ => _ end) => destruct x end
               | apply only_0_1_ret; lia ].

Lemma mutex_lock_0_1 i : only_0_1 (kthread_mutex_lock i).
Proof. unfold kthread_mutex_lock. zero_one. Qed.
Lemma mutex_unlock_0_1 i : only_0_1 (kthread_mutex_unlock i).
Proof. unfold kthread_mutex_unlock. zero_one. Qed.

Definition kernel_sys_ok (s : kt) : Prop :=
  calm (k_lk (kt_k s)) 0 ∧ lock_free LmutexTable (k_lk (kt_k s)) ∧
  mutex_table_wf (k_mutexes (kt_k s)).

Lemma kernel_alloc_ok (o : list (kt → kt)) (s : kt) :
  kernel_sys_ok s →
  ∃ r s', syscall_kt kthread_mutex_alloc o s = Ok r s' o ∧ kt_mem s' = kt_mem s ∧ kernel_sys_ok s'.
Proof.
  intros (Hc & Hf & Hwf). unfold syscall_kt. rewrite (mutex_alloc_eq [] _ 0) by done. cbv zeta.
  destruct (_ <? _)%nat; [|by eexists _, _].
  eexists _, _. split; [done|]. split; [done|]. split_and!; [done|done|]. by apply mutex_table_wf_alloc.
Qed.

Lemma syscall_kt_frame c o s r s' o' :
  only_0_1 c → syscall_kt c o s = Ok r s' o' → (r = 0 ∨ r = -1) ∧ kt_mem s' = kt_mem s.
Proof.
  unfold syscall_kt. intros Hc H. destruct (c [] (kt_k s)) eqn:E; simplify_eq.
  split; [by eapply Hc|done].
Qed.

(** The mutexes of the kernel; the calling thread's array is at [path]. *)
Definition kernel_TreeSys (path : Z) : TreeSys kt.
Proof.
  refine {| tmem := kt_mem; set_tmem := λ m s, Kt m (kt_k s); sys_ok := kernel_sys_ok;
            my_path := path;
            sys_mutex_alloc := syscall_kt kthread_mutex_alloc;
            sys_mutex_dealloc := λ i, syscall_kt (kthread_mutex_dealloc i);
            sys_mutex_lock := λ i, syscall_kt (kthread_mutex_lock i);
            sys_mutex_unlock := λ i, syscall_kt (kthread_mutex_unlock i) |}.
  - done.
  - done.
  - apply kernel_alloc_ok.
  - intros i o s r s' o' H. apply syscall_kt_frame in H as [Hr Hm]; [|apply mutex_lock_0_1].
    by rewrite !Hm.
  - intros i o s r s' o' H. apply syscall_kt_frame in H as [Hr Hm]; [|apply mutex_unlock_0_1].
    by rewrite !Hm.
Defined.

(** ** Concrete runs *)

(** A library that has allocated nothing; fresh blocks hold 5 as mutex_id. *)
Definition demo_tm : tree_mem := TreeMem ∅ ∅ ∅ 1 100 (TreeNode 0 0 0 5 0 0 0) [] 0 0 (-2).
Definition demo_kt : kt := Kt demo_tm demo_kernel.

(** Two trees: release of the first uses the depth of the last allocated one, so
    it returns 0 with the mutex of the first tree's root still locked. *)
Theorem tree_release_last_depth :
  let _ := kernel_TreeSys 7 in
  let run :=
    (let! t1 := trnmnt_tree_alloc 2 in
     let! t2 := trnmnt_tree_alloc 1 in
     let! r1 := trnmnt_tree_acquire 5 t1 0 in
     let! r2 := trnmnt_tree_release 5 t1 0 in
     ret (r1, r2))%K in
  match run [] demo_kt with
  | Ok r s _ => r = (0, 0) ∧ m_locked <$> k_mutexes (kt_k s) !! 0%nat = Some 1
  | _ => False
  end.
Proof. vm_compute. split; reflexivity. Qed.

(** The mutex_id of a leaf is never set, and delete_node deallocates it: with 5
    in the fresh blocks, deallocating a tree takes away mutex 5 of someone else. *)
Theorem tree_dealloc_foreign :
  let _ := kernel_TreeSys 7 in
  let run :=
    (let! _ := sys_mutex_alloc in let! _ := sys_mutex_alloc in let! _ := sys_mutex_alloc in
     let! _ := sys_mutex_alloc in let! _ := sys_mutex_alloc in let! m5 := sys_mutex_alloc in
     let! t := trnmnt_tree_alloc 1 in
     let! r := trnmnt_tree_dealloc 5 t in
     ret (m5, r))%K in
  match run [] demo_kt with
  | Ok r s _ => r = (5, 0) ∧ m_used <$> k_mutexes (kt_k s) !! 5%nat = Some 0
  | _ => False
  end.
Proof. vm_compute. split; reflexivity. Qed.

(** ** Witnesses *)

Lemma demo_kt_ok : kernel_sys_ok demo_kt.
Proof. split_and!; [exact boot_lks_calm|boot_free|exact boot_mutexes_wf]. Qed.

Lemma tree_alloc_perfect_witness :
  ∃ tree s t m', @trnmnt_tree_alloc kt (kernel_TreeSys 7) 2 [] demo_kt = Ok tree s [] ∧
    kt_mem s = m' ∧ tree_at tree 2 t m'.
Proof.
  destruct (@tree_alloc_perfect kt (kernel_TreeSys 7) 2 [] demo_tm demo_kt)
    as (tree & s & H1 & t & m' & [H2 _] & _ & H3 & _);
    [split; [reflexivity|exact demo_kt_ok]|lia|reflexivity|reflexivity|vm_compute; lia|].
  exists tree, s, t, m'. split; [exact H1|]. split; [exact H2|exact H3].
Defined.

(** The memory after trnmnt_tree_alloc(2). *)
Definition demo_tree : kt := final (@trnmnt_tree_alloc kt (kernel_TreeSys 7) 2 [] demo_kt).
Definition demo_ttree : ttree :=
  TNode 2 0 0 (TNode 3 1 0 (TLeaf 5 0 7) (TLeaf 6 1 8)) (TNode 4 2 1 (TLeaf 9 2 11) (TLeaf 10 3 12)).

Lemma kernel_tmem path s : @tmem kt (kernel_TreeSys path) s = kt_mem s.
Proof. reflexivity. Qed.

Lemma res_final {S A} (r : res S A) a :
  match r with Ok x _ [] => x = a | _ => False end → r = Ok a (final r) [].
Proof. destruct r as [x s [|]| | | |]; simpl; try done. by intros ->. Qed.

Lemma demo_tree_at : tree_at 1 2 demo_ttree (kt_mem demo_tree).
Proof.
  split_and!; [vm_compute; reflexivity|by vm_compute| |vm_compute; reflexivity].
  unfold demo_ttree. cbn [rep taddr]. split_and!; first
    [ reflexivity
    | eexists; vm_compute; reflexivity
    | eexists; split; [vm_compute; reflexivity|vm_compute; reflexivity] ].
Qed.

Lemma tree_acquire_locks_path_witness :
  @trnmnt_tree_acquire kt (kernel_TreeSys 7) 5 1 0 [] demo_tree
  = @lock_path kt (kernel_TreeSys 7) 7 0 [1; 0] [] demo_tree.
Proof.
  destruct (@tree_acquire_locks_path kt (kernel_TreeSys 7) 2 1 demo_ttree 0 5 [] _ demo_tree (kernel_tmem 7 _)
              demo_tree_at ltac:(vm_compute; split; [discriminate|reflexivity]) ltac:(lia))
    as (a & lp & path & H1 & _ & H2).
  vm_compute in H1. injection H1 as <- <- <-. exact H2.
Defined.

Definition demo_acquired : kt := final (@trnmnt_tree_acquire kt (kernel_TreeSys 7) 5 1 0 [] demo_tree).

