(* ===== verification/Tournament.v ===== *)
(** * The tournament

    Any number of threads that acquire and release one tree, each with a leaf of
    its own.  [trnmnt_tree_acquire] and [trnmnt_tree_release] make the calls of
    lock and unlock that [Tree.tree_acquire_locks_path] and
    [Tree.tree_release_unlocks_path] give: along the path of the leaf upwards, and
    downwards again.  Here the calls of all threads are interleaved, each of them
    in the steps of [Mutex.mxstep], on the mutexes of the nodes. *)

From S2P Require Import Prelude Defs Spinlock Kernel Sched Mutex Tree.

(** ** Paths in a tree *)

(** The mutexes on the path from leaf [ID] to the root. *)
Definition path_of (t : ttree) (ID : Z) : option (list Z) :=
  match climb t ID with Some (_, _, path) => Some path.*2 | None => None end.

(** The mutexes of the inner nodes. *)
Fixpoint tmids (t : ttree) : list Z :=
  match t with TLeaf _ _ _ => [] | TNode _ mid _ l r => mid :: tmids l ++ tmids r end.

Lemma tmids_node a mid i l r :
  NoDup (tmids (TNode a mid i l r)) → (mid ∉ tmids l) ∧ (mid ∉ tmids r) ∧ NoDup (tmids l) ∧ NoDup (tmids r).
Proof.
  intros Hnd. cbn [tmids] in Hnd. apply NoDup_cons in Hnd as [Hm Hnd]. apply NoDup_app in Hnd as (? & _ & ?).
  split_and!; [set_solver|set_solver|done..].
Qed.

Lemma path_of_node a mid i l r ID p :
  path_of (TNode a mid i l r) ID = Some p →
  ∃ q, p = q ++ [mid] ∧ (path_of l ID = Some q ∨ path_of r ID = Some q).
Proof.
  unfold path_of. cbn [climb]. destruct (climb l ID) as [[[x lp] q]|].
  - intros [= <-]. exists q.*2. rewrite fmap_app. auto.
  - destruct (climb r ID) as [[[x lp] q]|]; [|done]. intros [= <-]. exists q.*2. rewrite fmap_app. auto.
Qed.

Lemma path_of_length d i t ID p : perfect d i t → path_of t ID = Some p → length p = d.
Proof.
  revert i t p. induction d as [|d IH]; intros i [a j lp|a mid j l r] p Hp H; try done.
  - unfold path_of in H. cbn in H. destruct (ID =? j); [|done]. by injection H as <-.
  - destruct Hp as (_ & Hl & Hr). apply path_of_node in H as (q & -> & Hq). rewrite length_app. cbn.
    destruct Hq as [Hq|Hq]; [rewrite (IH _ _ _ Hl Hq)|rewrite (IH _ _ _ Hr Hq)]; lia.
Qed.

Lemma path_of_mids t ID p n : path_of t ID = Some p → n ∈ p → n ∈ tmids t.
Proof.
  revert p. induction t as [a j lp|a mid j l IHl r IHr]; intros p H Hn.
  - unfold path_of in H. cbn in H. destruct (ID =? j); [|done]. injection H as <-. by apply elem_of_nil in Hn.
  - apply path_of_node in H as (q & -> & Hq). apply elem_of_app in Hn as [Hn|Hn%list_elem_of_singleton]; cbn [tmids]; [|set_solver].
    destruct Hq as [Hq|Hq]; [specialize (IHl _ Hq Hn)|specialize (IHr _ Hq Hn)]; set_solver.
Qed.

Lemma path_of_NoDup t ID p : NoDup (tmids t) → path_of t ID = Some p → NoDup p.
Proof.
  revert p. induction t as [a j lp|a mid j l IHl r IHr]; intros p Hnd H.
  - unfold path_of in H. cbn in H. destruct (ID =? j); [|done]. injection H as <-. constructor.
  - apply path_of_node in H as (q & -> & Hq). cbn [tmids] in Hnd. apply NoDup_cons in Hnd as [Hm Hnd].
    apply NoDup_app in Hnd as (Hl & _ & Hr). apply NoDup_app. split_and!; [destruct Hq; auto| |apply NoDup_singleton].
    intros n Hn ->%list_elem_of_singleton. destruct Hq as [Hq|Hq]; pose proof (path_of_mids _ _ _ _ Hq Hn); set_solver.
Qed.

(** The path ends at the root. *)
Lemma path_of_top d i a mid j l r ID p :
  perfect (S d) i (TNode a mid j l r) → path_of (TNode a mid j l r) ID = Some p → p !! d = Some mid.
Proof.
  intros (_ & Hl & Hr) H. apply path_of_node in H as (q & -> & Hq).
  assert (length q = d) as <- by (destruct Hq as [Hq|Hq]; [exact (path_of_length _ _ _ _ _ Hl Hq)|exact (path_of_length _ _ _ _ _ Hr Hq)]). by rewrite lookup_app_r, Nat.sub_diag.
Qed.

Lemma path_of_root d i t :
  perfect d i t → (1 ≤ d)%nat → ∃ n, ∀ ID p, path_of t ID = Some p → p !! (d - 1)%nat = Some n.
Proof.
  destruct d as [|d], t as [a j lp|a mid j l r]; try done; intros Hp Hd; [lia|]. exists mid. intros ID p H.
  cbn. rewrite Nat.sub_0_r. by eapply path_of_top.
Qed.

(** Where a path goes below its top: into the left or the right subtree, as the
    mutex found there tells. *)
Lemma path_of_below d i a mid j l r ID p k n :
  perfect (S d) i (TNode a mid j l r) → NoDup (tmids (TNode a mid j l r)) →
  path_of (TNode a mid j l r) ID = Some p → p !! k = Some n →
  (k = d ∧ n = mid) ∨
  (k < d)%nat ∧ ∃ q, p = q ++ [mid] ∧ q !! k = Some n ∧
    (path_of l ID = Some q ∧ n ∈ tmids l ∧ (n ∉ tmids r) ∨ path_of r ID = Some q ∧ n ∈ tmids r ∧ (n ∉ tmids l)).
Proof.
  intros (_ & Hl & Hr) Hnd H Hk. apply path_of_node in H as (q & -> & Hq). cbn [tmids] in Hnd.
  apply NoDup_cons in Hnd as [_ Hnd]. apply NoDup_app in Hnd as (_ & Hd & _).
  assert (length q = d) as Hlen by (destruct Hq as [Hq|Hq]; [exact (path_of_length _ _ _ _ _ Hl Hq)|exact (path_of_length _ _ _ _ _ Hr Hq)]).
  apply lookup_app_Some in Hk as [Hk|[Hge Hk]].
  - right. split; [apply lookup_lt_Some in Hk; lia|]. exists q. split_and!; [done..|].
    assert (n ∈ q) as Hn by (by eapply list_elem_of_lookup_2).
    destruct Hq as [Hq|Hq]; pose proof (path_of_mids _ _ _ _ Hq Hn); [left|right]; (split_and!; [done..|]); intros ?; by eapply Hd.
  - left. apply list_lookup_singleton_Some in Hk as [E <-]. split; [lia|done].
Qed.

(** A mutex is at the same level of all paths. *)
Lemma path_of_level d i t ID ID' p p' k k' n :
  perfect d i t → NoDup (tmids t) → path_of t ID = Some p → path_of t ID' = Some p' →
  p !! k = Some n → p' !! k' = Some n → k = k'.
Proof.
  revert i t p p'. induction d as [|d IH]; intros i [a j lp|a mid j l r] p p' Hp Hnd H H' Hk Hk'; try done.
  { pose proof (path_of_length _ _ _ _ _ Hp H). apply lookup_lt_Some in Hk. lia. }
  destruct (tmids_node _ _ _ _ _ Hnd) as (Hml & Hmr & Hnl & Hnr).
  pose proof Hp as (_ & Hl & Hr).
  destruct (path_of_below _ _ _ _ _ _ _ _ _ _ _ Hp Hnd H Hk) as [[-> ->]|(Hlt & q & -> & Hq & Hs)],
    (path_of_below _ _ _ _ _ _ _ _ _ _ _ Hp Hnd H' Hk') as [[-> Hm]|(Hlt' & q' & -> & Hq' & Hs')]; [done| | |].
  - destruct Hs' as [(_ & ? & _)|(_ & ? & _)]; done.
  - subst. destruct Hs as [(_ & ? & _)|(_ & ? & _)]; done.
  - destruct Hs as [(Hs & ? & ?)|(Hs & ? & ?)], Hs' as [(Hs' & ? & ?)|(Hs' & ? & ?)]; try done; [by eapply (IH (2 * i) l)|by eapply (IH (2 * i + 1) r)].
Qed.

(** Two paths come from the same child of the node at level [k] of both. *)
Definition same_child (k : nat) (ID ID' : Z) (p p' : list Z) : Prop :=
  match k with O => ID = ID' | S k' => p !! k' = p' !! k' end.

Lemma same_child_snoc k ID ID' p p' x : (k < length p)%nat → (k < length p')%nat → same_child k ID ID' p p' → same_child k ID ID' (p ++ [x]) (p' ++ [x]).
Proof. destruct k as [|k]; [done|]. cbn. intros H H'. by rewrite !lookup_app_l by lia. Qed.

(** The paths through one subtree come from its root. *)
Lemma same_child_sub d i t ID ID' p p' :
  perfect d i t → path_of t ID = Some p → path_of t ID' = Some p' → same_child d ID ID' p p'.
Proof.
  destruct d as [|d], t as [a j lp|a mid j l r]; try done.
  - intros _ H H'. unfold path_of in *. cbn in *. destruct (Z.eqb_spec ID j), (Z.eqb_spec ID' j); try done. congruence.
  - intros Hp H H'. cbn. by rewrite (path_of_top _ _ _ _ _ _ _ _ _ Hp H), (path_of_top _ _ _ _ _ _ _ _ _ Hp H').
Qed.

(** A node has two children. *)
Lemma two_children d i t k n ID1 ID2 ID3 p1 p2 p3 :
  perfect d i t → NoDup (tmids t) →
  path_of t ID1 = Some p1 → path_of t ID2 = Some p2 → path_of t ID3 = Some p3 →
  p1 !! k = Some n → p2 !! k = Some n → p3 !! k = Some n →
  same_child k ID1 ID2 p1 p2 ∨ same_child k ID2 ID3 p2 p3 ∨ same_child k ID1 ID3 p1 p3.
Proof.
  revert i t p1 p2 p3. induction d as [|d IH]; intros i [a j lp|a mid j l r] p1 p2 p3 Hp Hnd H1 H2 H3 K1 K2 K3; try done.
  { pose proof (path_of_length _ _ _ _ _ Hp H1). apply lookup_lt_Some in K1. lia. }
  destruct (tmids_node _ _ _ _ _ Hnd) as (Hml & Hmr & Hnl & Hnr).
  pose proof Hp as (_ & Hl & Hr).
  destruct (path_of_below _ _ _ _ _ _ _ _ _ _ _ Hp Hnd H1 K1) as [[-> ->]|(Hlt & q1 & -> & Q1 & S1)].
  - (* the root: two of the three come from the same side *)
    apply path_of_node in H1 as (q1 & -> & S1), H2 as (q2 & -> & S2), H3 as (q3 & -> & S3).
    assert (∀ ID ID' q q' t0 i0, perfect d i0 t0 → path_of t0 ID = Some q → path_of t0 ID' = Some q' → same_child d ID ID' (q ++ [mid]) (q' ++ [mid])) as Hsub.
    { intros ID ID' q q' t0 i0 Hp0 Hq Hq'. pose proof (same_child_sub _ _ _ _ _ _ _ Hp0 Hq Hq') as Hs.
      pose proof (path_of_length _ _ _ _ _ Hp0 Hq) as L. pose proof (path_of_length _ _ _ _ _ Hp0 Hq') as L'.
      destruct d as [|d']; [done|]. cbn in *. by rewrite !lookup_app_l by lia. }
    destruct S1 as [S1|S1], S2 as [S2|S2], S3 as [S3|S3]; eauto 6.
  - destruct (path_of_below _ _ _ _ _ _ _ _ _ _ _ Hp Hnd H2 K2) as [[? ?]|(_ & q2 & -> & Q2 & S2)]; [lia|].
    destruct (path_of_below _ _ _ _ _ _ _ _ _ _ _ Hp Hnd H3 K3) as [[? ?]|(_ & q3 & -> & Q3 & S3)]; [lia|].
    pose proof (lookup_lt_Some _ _ _ Q1). pose proof (lookup_lt_Some _ _ _ Q2). pose proof (lookup_lt_Some _ _ _ Q3).
    assert (same_child k ID1 ID2 q1 q2 ∨ same_child k ID2 ID3 q2 q3 ∨ same_child k ID1 ID3 q1 q3) as Hs.
    { destruct S1 as [(S1 & ? & ?)|(S1 & ? & ?)], S2 as [(S2 & ? & ?)|(S2 & ? & ?)], S3 as [(S3 & ? & ?)|(S3 & ? & ?)]; try done;
        [by eapply (IH (2 * i) l)|by eapply (IH (2 * i + 1) r)]. }
    destruct Hs as [Hs|[Hs|Hs]]; eauto using same_child_snoc.
Qed.

(** ** The threads in the tree *)

Definition upd {A} (f : Z → A) (a : Z) (x : A) : Z → A := λ b, if decide (b = a) then x else f b.

Lemma upd_eq {A} (f : Z → A) a x : upd f a x a = x.
Proof. unfold upd. by rewrite decide_True. Qed.
Lemma upd_ne {A} (f : Z → A) a b x : b ≠ a → upd f a x b = f b.
Proof. intros. unfold upd. by rewrite decide_False. Qed.

(** Where a thread is: outside; in acquire with the first [h] mutexes of its path
    locked, and inside when these are all; in release with the first [h] mutexes
    still to be unlocked; or after an unlock that returned -1, with which release
    ends. *)
Inductive tpos := Out | Climb (h : nat) | Leave (h : nat) | Failed.

Record tstate := TState { ts_mx : Z → mxstate; ts_pos : Z → tpos }.

(** The steps of a call of lock, and those with which it returns 0. *)
Definition lock_act (a : mxact) : bool :=
  match a with ALockSleep | ALockPass | AWakeSleep | AWakePass | AKilled => true | _ => false end.
Definition lock_returns (a : mxact) : bool := match a with ALockPass | AWakePass => true | _ => false end.

(** After a step of the call of unlock on number [h] of the path. *)
Definition unlock_pos (a : mxact) (h : nat) : tpos :=
  match a with
  | AWakeup => Leave h
  | AUnlockOther | AUnlockFree => Failed
  | _ => Leave (S h)
  end.

Section Tournament.
(** [leaf u] is the number with which thread [u] uses the tree. *)
Context (t : ttree) (leaf : Z → Z).

Definition tpath (u : Z) : list Z := default [] (path_of t (leaf u)).

Inductive tstep : tstate → Z → tstate → Prop :=
| t_acquire s u :
    ts_pos s u = Out → is_Some (path_of t (leaf u)) →
    tstep s u (TState (ts_mx s) (upd (ts_pos s) u (Climb 0)))
| t_lock s u h n a m' :
    ts_pos s u = Climb h → tpath u !! h = Some n → lock_act a = true → mxstep (ts_mx s n) u a m' →
    tstep s u (TState (upd (ts_mx s) n m') (upd (ts_pos s) u (Climb (if lock_returns a then S h else h))))
| t_release s u :
    ts_pos s u = Climb (length (tpath u)) →
    tstep s u (TState (ts_mx s) (upd (ts_pos s) u (Leave (length (tpath u)))))
| t_unlock s u h n a m' :
    ts_pos s u = Leave (S h) → tpath u !! h = Some n → lock_act a = false → mxstep (ts_mx s n) u a m' →
    tstep s u (TState (upd (ts_mx s) n m') (upd (ts_pos s) u (unlock_pos a h)))
| t_released s u :
    ts_pos s u = Leave 0 → tstep s u (TState (ts_mx s) (upd (ts_pos s) u Out)).

(** Fresh mutexes, all threads outside. *)
Definition tinit : tstate := TState (λ n, MxState (Kmutex n 0 0 1 0) ∅ ∅) (λ _, Out).

(** No call of lock has returned by the shortcut for the previous owner. *)
Definition truns : tstate → tstate → Prop :=
  rtc (λ s s', ∃ u, tstep s u s' ∧ ∀ n, locks u (ts_mx s' n)).

(** ** The invariant *)

Definition held (p : tpos) : nat := match p with Climb h | Leave h => h | _ => 0 end.

(** What the mutexes know of a thread with the path [path] at [p]: [vc n] is its
    call on mutex [n], and [vi n] whether it is inside. *)
Record tok (path : list Z) (p : tpos) (vc : Z → option mxcall) (vi : Z → option bool) : Prop := {
  tk_in n : is_Some (vi n) ↔ (∃ l, path !! l = Some n ∧ (l < held p)%nat) ∧ vc n ≠ Some InUnl;
  tk_wait n : vc n = Some InWait ∨ vc n = Some InWoken → ∃ h, p = Climb h ∧ path !! h = Some n;
  tk_chk n : vc n = Some InChk ∨ vc n = Some InUnl → ∃ h, p = Leave (S h) ∧ path !! h = Some n;
  tk_len : (held p ≤ length path)%nat;
  tk_ok : p ≠ Failed
}.

Definition calls_of (s : tstate) (u n : Z) : option mxcall := mx_call (ts_mx s n) !! u.
Definition in_of (s : tstate) (u n : Z) : option bool := mx_in (ts_mx s n) !! u.

Record tinv (s : tstate) : Prop := {
  ti_own n : owner_inv (ts_mx s n);
  ti_wake n : wake_inv (ts_mx s n);
  ti_ok u : tok (tpath u) (ts_pos s u) (calls_of s u) (in_of s u);
  ti_leaf u : ts_pos s u ≠ Out → is_Some (path_of t (leaf u))
}.

(** Other threads' steps: at most a wakeup. *)
Lemma tok_ext path p vc vc' vi vi' :
  (∀ n, vi' n = vi n) → (∀ n, vc' n = vc n ∨ vc n = Some InWait ∧ vc' n = Some InWoken) →
  tok path p vc vi → tok path p vc' vi'.
Proof.
  intros Hi Hc [H1 H2 H3 H4 H5]. split; [|intros n Hn..|done|done].
  - intros n. rewrite Hi, H1. destruct (Hc n) as [->|[-> ->]]; [done|]. split; intros [? _]; done.
  - apply H2. destruct (Hc n) as [<-|[? ?]]; auto.
  - apply H3. destruct (Hc n) as [<-|[? E]]; [done|]. rewrite E in Hn. by destruct Hn.
Qed.

Lemma mxstep_others m u a m' v :
  mxstep m u a m' → v ≠ u →
  mx_in m' !! v = mx_in m !! v ∧
  (mx_call m' !! v = mx_call m !! v ∨ mx_call m !! v = Some InWait ∧ mx_call m' !! v = Some InWoken).
Proof.
  intros Hs Hne. destruct Hs; cbn; rewrite ?lookup_insert_ne, ?lookup_delete_ne by done; auto.
  split; [done|]. rewrite lookup_fmap. destruct (c !! v) as [[]|]; auto.
Qed.

Lemma mxstep_check_idle m u m' : mxstep m u AUnlockCheck m' → mx_call m !! u = None.
Proof. by inversion 1. Qed.

Ltac at_mutex x n := destruct (decide (x = n)) as [->|?]; [rewrite ?upd_eq in *|rewrite ?upd_ne in * by done].

(** A thread's own steps. *)
Lemma tok_waits path h n c vc vi :
  tok path (Climb h) vc vi → path !! h = Some n → c = InWait ∨ c = InWoken →
  tok path (Climb h) (upd vc n (Some c)) vi.
Proof.
  intros [H1 H2 H3 H4 H5] Hn Hc. split; [|intros x Hx..|done|done].
  - intros x. rewrite H1. at_mutex x n; [|done]. split; intros [Hl _]; (split; [done|]); [destruct Hc as [->| ->]; done|].
    intros E. by destruct (H3 n (or_intror E)) as (? & ? & _).
  - at_mutex x n; [by exists h|by apply H2].
  - at_mutex x n; [|by apply H3]. by destruct Hc as [->| ->], Hx.
Qed.

Lemma tok_climbs path h n b vc vi :
  NoDup path → tok path (Climb h) vc vi → path !! h = Some n →
  tok path (Climb (S h)) (upd vc n None) (upd vi n (Some b)).
Proof.
  intros Hnd [H1 H2 H3 H4 H5] Hn. split; [|intros x Hx..| |done].
  - intros x. at_mutex x n.
    + split; [|by eexists]. intros _. split; [|done]. exists h. cbn. split; [done|lia].
    + rewrite H1. split; intros [(l & Hl & Hlt) Hc]; (split; [|done]); exists l; cbn in *; (split; [done|]); [lia|].
      assert (l ≠ h) by (intros ->; congruence). lia.
  - at_mutex x n; [by destruct Hx|]. destruct (H2 x Hx) as (h' & [= <-] & Hh). congruence.
  - at_mutex x n; [by destruct Hx|]. by destruct (H3 x Hx) as (h' & ? & _).
  - apply lookup_lt_Some in Hn. cbn. lia.
Qed.

Lemma tok_checks path h n vc vi :
  tok path (Leave (S h)) vc vi → path !! h = Some n → vc n ≠ Some InUnl →
  tok path (Leave (S h)) (upd vc n (Some InChk)) vi.
Proof.
  intros [H1 H2 H3 H4 H5] Hn Hc. split; [|intros x Hx..|done|done].
  - intros x. rewrite H1. at_mutex x n; [|done]. split; intros [Hl _]; by split.
  - at_mutex x n; [by destruct Hx|]. by destruct (H2 x Hx) as (? & ? & _).
  - at_mutex x n; [by exists h|by apply H3].
Qed.

Lemma tok_unlocks path h n vc vi :
  tok path (Leave (S h)) vc vi → path !! h = Some n →
  tok path (Leave (S h)) (upd vc n (Some InUnl)) (upd vi n None).
Proof.
  intros [H1 H2 H3 H4 H5] Hn. split; [|intros x Hx..|done|done].
  - intros x. at_mutex x n; [|apply H1]. split; [by intros [? ?]|by intros [_ ?]].
  - at_mutex x n; [by destruct Hx|]. by destruct (H2 x Hx) as (? & ? & _).
  - at_mutex x n; [by exists h|by apply H3].
Qed.

Lemma tok_leaves path h n vc vi :
  NoDup path → tok path (Leave (S h)) vc vi → path !! h = Some n → vc n = Some InUnl →
  tok path (Leave h) (upd vc n None) vi.
Proof.
  intros Hnd [H1 H2 H3 H4 H5] Hn Hc. split; [|intros x Hx..| |done].
  - intros x. rewrite H1. at_mutex x n.
    + split; [by intros [_ ?]|]. intros [(l & Hl & Hlt) _]. cbn in Hlt. pose proof (NoDup_lookup _ _ _ _ Hnd Hl Hn). lia.
    + split; intros [(l & Hl & Hlt) Hx]; (split; [|done]); exists l; cbn in *; (split; [done|]); [|lia].
      assert (l ≠ h) by (intros ->; congruence). lia.
  - at_mutex x n; [by destruct Hx|]. by destruct (H2 x Hx) as (? & ? & _).
  - at_mutex x n; [by destruct Hx|]. destruct (H3 x Hx) as (h' & [= <-] & Hh). congruence.
  - cbn in *. lia.
Qed.

(** At the ends of acquire and release no call is in progress. *)
Lemma tok_between path p p' vc vi :
  tok path p vc vi → held p' = held p → p' ≠ Failed → (∀ n, vc n = None) → tok path p' vc vi.
Proof.
  intros [H1 H2 H3 H4 H5] Hh Hp Hc. split; [intros n; rewrite Hh; apply H1|intros n Hn; rewrite Hc in Hn; by destruct Hn..|by rewrite Hh|done].
Qed.
Lemma tok_idle path p vc vi :
  tok path p vc vi → p = Out ∨ p = Climb (length path) ∨ p = Leave 0 → ∀ n, vc n = None.
Proof.
  intros [_ H2 H3 _ _] Hp n. destruct (vc n) as [[]|] eqn:E; [..|done].
  1, 2: destruct (H2 n) as (h & E1 & Hh); [auto|].
  3, 4: destruct (H3 n) as (h & E1 & Hh); [auto|].
  all: apply lookup_lt_Some in Hh; destruct Hp as [?|[?|?]]; simplify_eq; lia.
Qed.

Lemma tok_lock path h n m u a m' vc vi :
  NoDup path → tok path (Climb h) vc vi → path !! h = Some n → lock_act a = true →
  mxstep m u a m' → vc n = mx_call m !! u → vi n = mx_in m !! u →
  tok path (Climb (if lock_returns a then S h else h)) (upd vc n (mx_call m' !! u)) (upd vi n (mx_in m' !! u)).
Proof.
  intros Hnd Ht Hn Ha Hs Ec Ei. assert (∀ c, c = InWait ∨ c = InWoken → ∀ x, x = mx_in m !! u → tok path (Climb h) (upd vc n (Some c)) (upd vi n x)) as Hw.
  { intros c Hc x ->. apply (tok_ext _ _ (upd vc n (Some c)) _ vi); [|auto|by apply tok_waits].
    intros y. at_mutex y n; [by rewrite Ei|done]. }
  destruct Hs; cbn [lock_act lock_returns] in *; try done; cbn [mx_call mx_in] in *; rewrite ?lookup_insert_eq; auto.
  - rewrite H. by apply tok_climbs.
  - rewrite lookup_delete_eq. by apply tok_climbs.
Qed.

Lemma tok_unlock path h n m u a m' vc vi :
  NoDup path → tok path (Leave (S h)) vc vi → path !! h = Some n → lock_act a = false → owner_inv m →
  mxstep m u a m' → vc n = mx_call m !! u → vi n = mx_in m !! u →
  tok path (unlock_pos a h) (upd vc n (mx_call m' !! u)) (upd vi n (mx_in m' !! u)).
Proof.
  intros Hnd Ht Hn Ha Ho Hs Ec Ei.
  assert (vc n ≠ Some InUnl → inside m u) as Hin.
  { intros Hc. unfold inside. rewrite <- Ei. apply (tk_in _ _ _ _ Ht). split; [|done]. exists h. cbn. split; [done|lia]. }
  assert (∀ p vc', tok path p vc' vi → tok path p vc' (upd vi n (mx_in m !! u))) as Hsame.
  { intros p vc' H. apply (tok_ext _ _ vc' _ vi); [|auto|done]. intros y. at_mutex y n; [by rewrite Ei|done]. }
  destruct Hs; cbn [lock_act unlock_pos] in *; try done; cbn [mx_call mx_in] in *; rewrite ?lookup_insert_eq, ?lookup_delete_eq.
  - destruct (oi_in _ Ho t0) as [_ ?]; [apply Hin; congruence|done].
  - apply Hsame, tok_checks; [done..|]. congruence.
  - destruct (oi_in _ Ho t0) as [? _]; [apply Hin; congruence|done].
  - by apply tok_unlocks.
  - apply Hsame, tok_leaves; [done..|]. congruence.
Qed.

(** The tree of [trnmnt_tree_alloc], its mutexes all different, and the threads'
    numbers too. *)
Context (d : nat) (Hperf : perfect d 0 t) (Hmids : NoDup (tmids t)) (Hleaf : ∀ u v, leaf u = leaf v → u = v).

Lemma tpath_NoDup u : NoDup (tpath u).
Proof. unfold tpath. destruct (path_of t (leaf u)) as [p|] eqn:E; [by eapply path_of_NoDup|constructor]. Qed.
Lemma tpath_length u : is_Some (path_of t (leaf u)) → length (tpath u) = d.
Proof. intros [p E]. unfold tpath. rewrite E. by eapply path_of_length. Qed.
Lemma tpath_some u k n : tpath u !! k = Some n → path_of t (leaf u) = Some (tpath u).
Proof. unfold tpath. by destruct (path_of t (leaf u)). Qed.

Lemma tinv_init : tinv tinit.
Proof.
  split; cbn.
  - intros n. split; [by intros u [b ?]|done|done].
  - by intros n u Hu.
  - intros u. split; cbn; try done; [|by intros n [?|?]..|lia].
    intros n. unfold in_of. cbn. split; [by intros [? ?]|]. intros [(l & _ & ?) _]. lia.
  - done.
Qed.

(** The mutex's own step, and that of its threads. *)
Lemma tinv_mutex s u a n m' p :
  tinv s → mxstep (ts_mx s n) u a m' → clean (ts_mx s n) u a m' →
  (∀ vc vi, vc n = mx_call (ts_mx s n) !! u → vi n = mx_in (ts_mx s n) !! u → tok (tpath u) (ts_pos s u) vc vi →
     tok (tpath u) p (upd vc n (mx_call m' !! u)) (upd vi n (mx_in m' !! u))) →
  is_Some (path_of t (leaf u)) →
  tinv (TState (upd (ts_mx s) n m') (upd (ts_pos s) u p)).
Proof.
  intros [H1 H2 H3 H4] Hs Hc Hp Hl. split; cbn.
  - intros x. at_mutex x n; [by eapply owner_inv_step|done].
  - intros x. at_mutex x n; [by eapply wake_inv_step|done].
  - intros v. destruct (decide (v = u)) as [->|Hv].
    + rewrite upd_eq. specialize (Hp (calls_of s u) (in_of s u) eq_refl eq_refl (H3 u)).
      apply (tok_ext _ _ (upd (calls_of s u) n (mx_call m' !! u)) _ (upd (in_of s u) n (mx_in m' !! u))); [| |done];
        intros x; unfold in_of, calls_of; cbn; at_mutex x n; auto.
    + rewrite upd_ne by done. destruct (mxstep_others _ _ _ _ v Hs Hv) as [E1 E2].
      apply (tok_ext _ _ (calls_of s v) _ (in_of s v)); [| |done]; intros x; unfold in_of, calls_of; cbn; at_mutex x n; auto.
  - intros v. destruct (decide (v = u)) as [->|Hv]; [done|]. rewrite upd_ne by done. apply H4.
Qed.

(** A step that only moves the thread. *)
Lemma tinv_move s u p :
  tinv s → tok (tpath u) p (calls_of s u) (in_of s u) → (p ≠ Out → is_Some (path_of t (leaf u))) →
  tinv (TState (ts_mx s) (upd (ts_pos s) u p)).
Proof.
  intros [H1 H2 H3 H4] Hp Hl. split; cbn; [done..| |].
  - intros v. destruct (decide (v = u)) as [->|Hv]; [by rewrite upd_eq|]. rewrite upd_ne by done. apply H3.
  - intros v. destruct (decide (v = u)) as [->|Hv]; [by rewrite upd_eq|]. rewrite upd_ne by done. apply H4.
Qed.

Lemma tinv_step s u s' : tstep s u s' → (∀ n, locks u (ts_mx s' n)) → tinv s → tinv s'.
Proof.
  intros Hs Hk Hi. destruct Hs as [s u Hp Hl|s u h n a m' Hp Hn Ha Hm|s u Hp|s u h n a m' Hp Hn Ha Hm|s u Hp].
  - apply tinv_move; [done| |done]. pose proof (ti_ok _ Hi u) as Ht. rewrite Hp in Ht.
    by apply (tok_between _ Out); [..|apply (tok_idle _ _ _ _ Ht); auto].
  - eapply tinv_mutex; [done|exact Hm| | |by rewrite (tpath_some _ _ _ Hn)].
    + split; [specialize (Hk n); cbn in Hk; by rewrite upd_eq in Hk|]. intros ->. done.
    + intros vc vi Ec Ei Ht. rewrite Hp in Ht. by eapply tok_lock; [apply tpath_NoDup|..].
  - pose proof (ti_ok _ Hi u) as Ht. rewrite Hp in Ht. apply tinv_move; [done| |].
    + by apply (tok_between _ (Climb (length (tpath u)))); [..|apply (tok_idle _ _ _ _ Ht); auto].
    + intros _. apply (ti_leaf _ Hi u). by rewrite Hp.
  - eapply tinv_mutex; [done|exact Hm| | |by rewrite (tpath_some _ _ _ Hn)].
    + split; [specialize (Hk n); cbn in Hk; by rewrite upd_eq in Hk|]. intros ->. pose proof (ti_ok _ Hi u) as Ht. rewrite Hp in Ht.
      apply (tk_in _ _ _ _ Ht n). split; [exists h; cbn; split; [done|lia]|]. unfold calls_of. by rewrite (mxstep_check_idle _ _ _ Hm).
    + intros vc vi Ec Ei Ht. rewrite Hp in Ht. eapply tok_unlock; [apply tpath_NoDup|done|done|done|apply (ti_own _ Hi n)|done..].
  - pose proof (ti_ok _ Hi u) as Ht. rewrite Hp in Ht. apply tinv_move; [done| |done].
    by apply (tok_between _ (Leave 0)); [..|apply (tok_idle _ _ _ _ Ht); auto].
Qed.

Lemma tinv_runs s : truns tinit s → tinv s.
Proof.
  intros Hr. assert (∀ s0, tinv s0 → truns s0 s → tinv s) as H; [|apply (H tinit); [apply tinv_init|done]].
  clear Hr. intros s0 Hi Hr. induction Hr as [|s1 s2 s3 (u & Hs & Hk) _ IH]; [done|]. apply IH. by eapply tinv_step.
Qed.

(** ** Main theorems *)

(** Thread [u] wants, holds or is about to free the mutex [n], number [l] of its
    path: all below it are locked. *)
Definition contends (s : tstate) (u : Z) (l : nat) (n : Z) : Prop :=
  tpath u !! l = Some n ∧
  match ts_pos s u with Climb h => (l ≤ h)%nat | Leave h => (l < h)%nat | _ => False end.

Lemma contends_below s u l n :
  tinv s → contends s u (S l) n → ∃ n', tpath u !! l = Some n' ∧ inside (ts_mx s n') u.
Proof.
  intros Hi [Hn Hp]. pose proof (lookup_lt_Some _ _ _ Hn) as Hlt.
  destruct (lookup_lt_is_Some_2 (tpath u) l ltac:(lia)) as [n' Hn']. exists n'. split; [done|].
  pose proof (ti_ok _ Hi u) as Ht. apply (tk_in _ _ _ _ Ht n'). split.
  - exists l. split; [done|]. destruct (ts_pos s u); cbn; done || lia.
  - intros E. destruct (tk_chk _ _ _ _ Ht n' (or_intror E)) as (h & E' & Hh). rewrite E' in Hp.
    assert (l = h) as -> by (eapply (NoDup_lookup (tpath u)); [apply tpath_NoDup|done..]). lia.
Qed.

Lemma one_inside s u v n : tinv s → inside (ts_mx s n) u → inside (ts_mx s n) v → u = v.
Proof. intros Hi Hu Hv. destruct (oi_in _ (ti_own _ Hi n) u Hu) as [_ <-], (oi_in _ (ti_own _ Hi n) v Hv) as [_ <-]. done. Qed.

(** [C29] The tournament: threads with different numbers acquire and release one tree
    of depth d, any number of them, their calls interleaved in any way, and no call
    of lock returns by the shortcut for the previous owner.  Then at most one thread
    is between the end of acquire and the start of release, and every node's
    mutex has at most two contenders, one from each of its children. *)
Theorem tournament_exclusion s :
  (1 ≤ d)%nat → truns tinit s →
  (∀ u v, ts_pos s u = Climb d → ts_pos s v = Climb d → u = v) ∧
  (∀ u1 u2 u3 l n, contends s u1 l n → contends s u2 l n → contends s u3 l n → u1 = u2 ∨ u2 = u3 ∨ u1 = u3).
Proof.
  intros Hd Hr. pose proof (tinv_runs s Hr) as Hi. split.
  - assert (∃ n, ∀ u, ts_pos s u = Climb d → inside (ts_mx s n) u) as (n & Hn).
    { destruct (path_of_root _ _ _ Hperf Hd) as [n Hn]. exists n. intros u Hu.
      pose proof (ti_ok _ Hi u) as Ht. destruct (ti_leaf _ Hi u) as [p E]; [by rewrite Hu|].
      apply (tk_in _ _ _ _ Ht n). rewrite Hu. split.
      - exists (d - 1)%nat. cbn. split; [|lia]. unfold tpath. rewrite E. by apply (Hn _ _ E).
      - intros Eu. rewrite Hu in Ht. by destruct (tk_chk _ _ _ _ Ht n (or_intror Eu)) as (? & ? & _). }
    intros u v Hu Hv. apply (one_inside s u v n Hi); auto.
  - intros u1 u2 u3 l n H1 H2 H3. pose proof H1 as [P1 _]. pose proof H2 as [P2 _]. pose proof H3 as [P3 _].
    pose proof (two_children _ _ _ _ _ _ _ _ _ _ _ Hperf Hmids (tpath_some _ _ _ P1) (tpath_some _ _ _ P2) (tpath_some _ _ _ P3) P1 P2 P3) as Hc.
    assert (∀ u v, contends s u l n → contends s v l n → same_child l (leaf u) (leaf v) (tpath u) (tpath v) → u = v) as Heq.
    { intros u v Hu Hv Hs. destruct l as [|l]; [by apply Hleaf|]. cbn in Hs.
      destruct (contends_below s u l n Hi Hu) as (x & Ex & Hx), (contends_below s v l n Hi Hv) as (y & Ey & Hy).
      rewrite Ex, Ey in Hs. injection Hs as ->. by eapply one_inside. }
    destruct Hc as [Hc|[Hc|Hc]]; eauto.
Qed.

(** A thread that is not asleep can go on. *)
Lemma awake_steps s u :
  tinv s → ts_pos s u ≠ Out → (∀ n, mx_call (ts_mx s n) !! u ≠ Some InWait) → ∃ s', tstep s u s'.
Proof.
  intros Hi Ho Hw. pose proof (ti_ok _ Hi u) as Ht. pose proof (tk_len _ _ _ _ Ht) as Hlen.
  destruct (ts_pos s u) as [|h|[|h]|] eqn:Hp; [done| | | |by destruct (tk_ok _ _ _ _ Ht)]; cbn in Hlen.
  - destruct (decide (h = length (tpath u))) as [->|Hne]; [eexists; by apply t_release|].
    destruct (lookup_lt_is_Some_2 (tpath u) h ltac:(lia)) as [n Hn].
    assert (∃ a m', lock_act a = true ∧ mxstep (ts_mx s n) u a m') as (a & m' & Ha & Hm); [|eexists; by eapply t_lock].
    specialize (Hw n). destruct (mx_call (ts_mx s n) !! u) as [[]|] eqn:E; [done| | | |].
    + destruct (ts_mx s n) as [m c i]. cbn in E. destruct (decide (m_locked m = 0)); eexists _, _;
        [split; [|by eapply mx_wake_pass]|split; [|by eapply mx_wake_sleep]]; done.
    + by destruct (tk_chk _ _ _ _ Ht n (or_introl E)) as (? & ? & _).
    + by destruct (tk_chk _ _ _ _ Ht n (or_intror E)) as (? & ? & _).
    + destruct (ts_mx s n) as [m c i]. cbn in E. destruct (decide (m_locked (lock_enter u m) = 0)); eexists _, _;
        [split; [|by eapply mx_lock_pass]|split; [|by eapply mx_lock_sleep]]; done.
  - eexists. by apply t_released.
  - destruct (lookup_lt_is_Some_2 (tpath u) h ltac:(lia)) as [n Hn].
    assert (∃ a m', lock_act a = false ∧ mxstep (ts_mx s n) u a m') as (a & m' & Ha & Hm); [|eexists; by eapply t_unlock].
    specialize (Hw n). destruct (mx_call (ts_mx s n) !! u) as [[]|] eqn:E; [done| | | |].
    + by destruct (tk_wait _ _ _ _ Ht n (or_intror E)) as (? & ? & _).
    + destruct (ts_mx s n) as [m c i]. cbn in E. destruct (decide (m_locked m = 0)); eexists _, _;
        [split; [|by eapply mx_unlock_free]|split; [|by eapply mx_unlock]]; done.
    + destruct (ts_mx s n) as [m c i]. cbn in E. eexists _, _. split; [|by eapply mx_wakeup]. done.
    + destruct (ts_mx s n) as [m c i]. cbn in E. destruct (decide (m_tid m = u)); eexists _, _;
        [split; [|by eapply mx_unlock_check]|split; [|by eapply mx_unlock_other]]; done.
Qed.

(** Thread [v] does not sleep, and it holds a mutex of the tree or is about to wake
    those who wait for one. *)
Definition advances (s : tstate) (v : Z) : Prop :=
  (∀ n, mx_call (ts_mx s n) !! v ≠ Some InWait) ∧
  ∃ n, inside (ts_mx s n) v ∨ mx_call (ts_mx s n) !! v = Some InUnl.

Lemma asleep_or_not s v :
  tinv s →
  (∃ h n, ts_pos s v = Climb h ∧ tpath v !! h = Some n ∧ mx_call (ts_mx s n) !! v = Some InWait) ∨
  ∀ n, mx_call (ts_mx s n) !! v ≠ Some InWait.
Proof.
  intros Hi. pose proof (ti_ok _ Hi v) as Ht.
  assert (∀ n, mx_call (ts_mx s n) !! v = Some InWait → ∃ h, ts_pos s v = Climb h ∧ tpath v !! h = Some n) as Hw
    by (intros n Hn; exact (tk_wait _ _ _ _ Ht n (or_introl Hn))).
  destruct (ts_pos s v) as [|h|h|] eqn:Hp; [right; intros n Hn; by destruct (Hw n Hn) as (? & ? & _)| |right; intros n Hn; by destruct (Hw n Hn) as (? & ? & _)..].
  destruct (tpath v !! h) as [n|] eqn:Hn.
  - destruct (decide (mx_call (ts_mx s n) !! v = Some InWait)) as [E|E]; [left; by exists h, n|].
    right. intros n' Hn'. destruct (Hw n' Hn') as (h' & [= <-] & Hh). congruence.
  - right. intros n' Hn'. destruct (Hw n' Hn') as (h' & [= <-] & Hh). congruence.
Qed.

Lemma waits_for s l u n :
  tinv s → tpath u !! l = Some n → mx_call (ts_mx s n) !! u = Some InWait → ∃ v, ts_pos s v ≠ Out ∧ advances s v.
Proof.
  intros Hi. remember (d - l)%nat as k eqn:Ek. revert l u n Ek.
  induction k as [k IH] using (well_founded_induction lt_wf). intros l u n -> Hl Hu.
  pose proof (lookup_lt_Some _ _ _ Hl) as Hlt. rewrite tpath_length in Hlt by (by rewrite (tpath_some _ _ _ Hl)).
  destruct (ti_wake _ Hi n u Hu) as [Hk|[v Hv]].
  - (* the owner *)
    pose proof (oi_owner _ (ti_own _ Hi n) Hk) as Hin. set (v := m_tid (mx (ts_mx s n))) in *.
    pose proof (ti_ok _ Hi v) as Ht. destruct (proj1 (tk_in _ _ _ _ Ht n) Hin) as [(l' & Hl' & Hh) _].
    assert (ts_pos s v ≠ Out) as Ho by (intros E; rewrite E in Hh; cbn in Hh; lia).
    assert (l' = l) as -> by exact (path_of_level _ _ _ _ _ _ _ _ _ _ Hperf Hmids (tpath_some _ _ _ Hl') (tpath_some _ _ _ Hl) Hl' Hl).
    destruct (asleep_or_not s v Hi) as [(h & n' & Hp & Hn' & Hw)|Hno].
    + rewrite Hp in Hh. cbn in Hh. apply (IH (d - h)%nat ltac:(lia) h v n' eq_refl Hn' Hw).
    + exists v. split; [done|]. split; [done|]. exists n. by left.
  - (* the thread about to call wakeup *)
    pose proof (ti_ok _ Hi v) as Ht. destruct (tk_chk _ _ _ _ Ht n (or_intror Hv)) as (h & Hp & Hh).
    exists v. split; [by rewrite Hp|]. split; [|exists n; by right].
    intros n' Hn'. destruct (tk_wait _ _ _ _ Ht n' (or_introl Hn')) as (h' & Hp' & _). congruence.
Qed.


End Tournament.

(** ** Concrete runs *)

Ltac t_move c := eapply c; first [vm_compute; reflexivity | vm_compute; eexists; reflexivity].
Ltac t_act c step :=
  eapply c; [vm_compute; reflexivity|vm_compute; reflexivity|
            |eapply step; first [vm_compute; reflexivity | vm_compute; discriminate | reflexivity]]; reflexivity.
Ltac t_locks := intros n; unfold locks; cbn [ts_mx]; unfold upd; repeat case_decide; vm_compute; discriminate.
Ltac t_go u c := eapply rtc_l; [exists u; first [t_move c | split; [t_move c|t_locks]]|].
Ltac t_call u c step := eapply rtc_l; [exists u; first [t_act c step | split; [t_act c step|t_locks]]|].

(** In the tree of depth 2, thread 1 has leaf 0 and thread 4 leaf 3: 1 gets to the top,
    and 4 waits for the root. *)
Definition demo_leaf (u : Z) : Z := u - 1.

Lemma demo_run :
  ∃ s, truns demo_ttree demo_leaf tinit s ∧ ts_pos s 1 = Climb 2 ∧ ts_pos s 4 = Climb 1 ∧
    mx_call (ts_mx s 0) !! 4 = Some InWait.
Proof.
  eexists. split.
  - t_go 1 t_acquire. t_call 1 t_lock mx_lock_pass. t_go 4 t_acquire. t_call 4 t_lock mx_lock_pass.
    t_call 1 t_lock mx_lock_pass. t_call 4 t_lock mx_lock_sleep. reflexivity.
  - split_and!; vm_compute; reflexivity.
Qed.

Lemma demo_mids : NoDup (tmids demo_ttree).
Proof. apply (bool_decide_unpack _). vm_compute. exact I. Qed.
Lemma demo_leaf_inj u v : demo_leaf u = demo_leaf v → u = v.
Proof. unfold demo_leaf. lia. Qed.

Lemma tournament_exclusion_witness :
  ∃ s, ts_pos s 1 = Climb 2 ∧ contends demo_ttree demo_leaf s 4 1 0 ∧
    (∀ v, ts_pos s v = Climb 2 → v = 1) ∧
    (∀ v, contends demo_ttree demo_leaf s v 1 0 → v = 1 ∨ v = 4).
Proof.
  destruct demo_run as (s & Hr & H1 & H4 & _). exists s.
  destruct (tournament_exclusion demo_ttree demo_leaf 2 ltac:(by vm_compute) demo_mids demo_leaf_inj s ltac:(lia) Hr) as [He Hc].
  assert (contends demo_ttree demo_leaf s 1 1 0) as C1 by (split; [reflexivity|rewrite H1; lia]).
  assert (contends demo_ttree demo_leaf s 4 1 0) as C4 by (split; [reflexivity|rewrite H4; lia]).
  split; [exact H1|]. split; [exact C4|]. split.
  - intros v Hv. exact (He v 1 Hv H1).
  - intros v Hv. destruct (Hc 1 4 v 1%nat 0 C1 C4 Hv) as [E|[E|E]]; [discriminate|right; by symmetry|left; by symmetry].
Defined.


(** With the shortcut, two threads are at the top of a tree of depth 1 at once: 1
    acquires the tree, 2 waits, 1 releases it, acquires it again, and then 2 wakes
    up. *)
Theorem tournament_exclusion_fails :
  let t := TNode 1 0 0 (TLeaf 2 0 3) (TLeaf 4 1 5) in
  perfect 1 0 t ∧
  ∃ s, rtc (λ s s', ∃ u, tstep t demo_leaf s u s') tinit s ∧ ts_pos s 1 = Climb 1 ∧ ts_pos s 2 = Climb 1.
Proof.
  split; [by vm_compute|]. eexists. split.
  - t_go 1 t_acquire. t_call 1 t_lock mx_lock_pass. t_go 2 t_acquire. t_call 2 t_lock mx_lock_sleep.
    t_go 1 t_release. t_call 1 t_unlock mx_unlock_check. t_call 1 t_unlock mx_unlock. t_call 1 t_unlock mx_wakeup.
    t_go 1 t_released. t_go 1 t_acquire. t_call 1 t_lock mx_lock_pass. t_call 2 t_lock mx_wake_pass. reflexivity.
  - split; vm_compute; reflexivity.
Qed.
