(* ===== verification/Vm.v ===== *)
(** * Virtual memory

    [vm.c] but for [seginit] (with the segment descriptors, in X86) and [loaduvm]
    (with [exec], in Exec).  Page directories and page tables are pages of [k_mem];
    a pointer to an entry is its kernel virtual address.  The abstract view is
    the translation [pte_val] from virtual page to page table entry. *)

From S2P Require Import Prelude Defs Spinlock CString Kernel Cprintf Sched Kalloc.
Local Open Scope kernel_scope.

(** The number of pages of the address space: a loop that steps by pages
    cannot run longer before it repeats an address. *)
Definition NPAGES : nat := Z.to_nat 1048576.
Lemma NPAGES_eq : Z.of_nat NPAGES = 1048576.
Proof. apply Z2Nat.id. lia. Qed.
#[global] Opaque NPAGES.

(** ** walkpgdir, mappages *)

Definition walkpgdir (pgdir va : Z) (alloc : bool) : KM Z :=
  let pde := u32 (pgdir + 4 * PDX va) in
  let! e := rd32 pde in
  if negb (Z.land e PTE_P =? 0) then
    ret (u32 (P2V (PTE_ADDR e) + 4 * PTX va))
  else if negb alloc then ret 0
  else
    let! pgtab := kalloc in
    if pgtab =? 0 then ret 0
    else
      upd_mem (λ m, memset m pgtab 0 PGSIZE) ;;;
      wr32 pde (Z.lor (Z.lor (Z.lor (V2P pgtab) PTE_P) PTE_W) PTE_U) ;;;
      ret (u32 (pgtab + 4 * PTX va)).

Fixpoint mappages_loop (fuel : nat) (pgdir a last pa perm : Z) : KM Z :=
  match fuel with
  | O => undef "loop bound"
  | S f =>
      let! pte := walkpgdir pgdir a true in
      if pte =? 0 then ret (-1)
      else
        let! e := rd32 pte in
        if negb (Z.land e PTE_P =? 0) then panic "remap"
        else
          wr32 pte (Z.lor (Z.lor pa perm) PTE_P) ;;;
          if a =? last then ret 0
          else mappages_loop f pgdir (u32 (a + PGSIZE)) last (u32 (pa + PGSIZE)) perm
  end.

Definition mappages (pgdir va size pa perm : Z) : KM Z :=
  mappages_loop NPAGES pgdir (PGROUNDDOWN va) (PGROUNDDOWN (u32 (va + size - 1))) pa perm.

(** ** Freeing *)

Fixpoint deallocuvm_loop (fuel : nat) (pgdir a oldsz : Z) : KM unit :=
  match fuel with
  | O => undef "loop bound"
  | S f =>
      if a <? oldsz then
        let! pte := walkpgdir pgdir a false in
        if pte =? 0 then
          deallocuvm_loop f pgdir (u32 (u32 (PGADDR (PDX a + 1) 0 0 - PGSIZE) + PGSIZE)) oldsz
        else
          let! e := rd32 pte in
          when (negb (Z.land e PTE_P =? 0))
            (if PTE_ADDR e =? 0 then panic "kfree"
             else kfree (P2V (PTE_ADDR e)) ;;; wr32 pte 0) ;;;
          deallocuvm_loop f pgdir (u32 (a + PGSIZE)) oldsz
      else ret tt
  end.

Definition deallocuvm (pgdir oldsz newsz : Z) : KM Z :=
  if oldsz <=? newsz then ret oldsz
  else
    deallocuvm_loop (S NPAGES) pgdir (PGROUNDUP newsz) oldsz ;;;
    ret newsz.

Definition freevm (pgdir : Z) : KM unit :=
  if pgdir =? 0 then panic "freevm: no pgdir"
  else
    deallocuvm pgdir KERNBASE 0 ;;;
    for_each (seq 0 (Z.to_nat NPDENTRIES)) (λ i,
      let! e := rd32 (u32 (pgdir + 4 * Z.of_nat i)) in
      when (negb (Z.land e PTE_P =? 0)) (kfree (P2V (PTE_ADDR e)))) ;;;
    kfree pgdir.

(** ** The kernel part *)

(** The rows of [kmap]: virt, phys_start, phys_end, perm. *)
Definition kmap (data : Z) : list (Z * Z * Z * Z) :=
  [ (KERNBASE, 0, EXTMEM, PTE_W);
    (KERNLINK, V2P KERNLINK, V2P data, 0);
    (data, V2P data, PHYSTOP, PTE_W);
    (DEVSPACE, DEVSPACE, 0, PTE_W) ].

Fixpoint setupkvm_loop (pgdir : Z) (l : list (Z * Z * Z * Z)) : KM Z :=
  match l with
  | [] => ret pgdir
  | (virt, phys_start, phys_end, perm) :: l' =>
      let! r := mappages pgdir virt (u32 (phys_end - phys_start)) phys_start perm in
      if r <? 0 then freevm pgdir ;;; ret 0
      else setupkvm_loop pgdir l'
  end.

Definition setupkvm : KM Z :=
  let! pgdir := kalloc in
  if pgdir =? 0 then ret 0
  else
    upd_mem (λ m, memset m pgdir 0 PGSIZE) ;;;
    if DEVSPACE <? P2V PHYSTOP then panic "PHYSTOP too high"
    else
      let! data := gets k_data in
      setupkvm_loop pgdir (kmap data).

Definition kvmalloc : KM unit :=
  let! pgdir := setupkvm in
  modify (set_k_kpgdir pgdir) ;;;
  switchkvm.

(** ** User memory *)

Definition inituvm (pgdir init sz : Z) : KM unit :=
  if PGSIZE <=? sz then panic "inituvm: more than a page"
  else
    let! mem := kalloc in
    upd_mem (λ m, memset m mem 0 PGSIZE) ;;;
    mappages pgdir 0 PGSIZE (V2P mem) (Z.lor PTE_W PTE_U) ;;;
    upd_mem (λ m, memmove m mem init sz).

Fixpoint allocuvm_loop (fuel : nat) (pgdir a oldsz newsz : Z) : KM Z :=
  match fuel with
  | O => undef "loop bound"
  | S f =>
      if a <? newsz then
        let! mem := kalloc in
        if mem =? 0 then
          cprintf (chars "allocuvm out of memory" ++ [10]) [] ;;;
          deallocuvm pgdir newsz oldsz ;;;
          ret 0
        else
          upd_mem (λ m, memset m mem 0 PGSIZE) ;;;
          let! r := mappages pgdir a PGSIZE (V2P mem) (Z.lor PTE_W PTE_U) in
          if r <? 0 then
            cprintf (chars "allocuvm out of memory (2)" ++ [10]) [] ;;;
            deallocuvm pgdir newsz oldsz ;;;
            kfree mem ;;;
            ret 0
          else allocuvm_loop f pgdir (u32 (a + PGSIZE)) oldsz newsz
      else ret newsz
  end.

Definition allocuvm (pgdir oldsz newsz : Z) : KM Z :=
  if KERNBASE <=? newsz then ret 0
  else if newsz <? oldsz then ret oldsz
  else allocuvm_loop (S NPAGES) pgdir (PGROUNDUP oldsz) oldsz newsz.

Definition clearpteu (pgdir uva : Z) : KM unit :=
  let! pte := walkpgdir pgdir uva false in
  if pte =? 0 then panic "clearpteu"
  else
    let! e := rd32 pte in
    wr32 pte (Z.land e (u32 (Z.lnot PTE_U))).

Fixpoint copyuvm_loop (fuel : nat) (d pgdir i sz : Z) : KM Z :=
  match fuel with
  | O => undef "loop bound"
  | S f =>
      if i <? sz then
        let! pte := walkpgdir pgdir i false in
        if pte =? 0 then panic "copyuvm: pte should exist"
        else
          let! e := rd32 pte in
          if Z.land e PTE_P =? 0 then panic "copyuvm: page not present"
          else
            let! mem := kalloc in
            if mem =? 0 then freevm d ;;; ret 0
            else
              upd_mem (λ m, memmove m mem (P2V (PTE_ADDR e)) PGSIZE) ;;;
              let! r := mappages d i PGSIZE (V2P mem) (PTE_FLAGS e) in
              if r <? 0 then kfree mem ;;; freevm d ;;; ret 0
              else copyuvm_loop f d pgdir (u32 (i + PGSIZE)) sz
      else ret d
  end.

Definition copyuvm (pgdir sz : Z) : KM Z :=
  let! d := setupkvm in
  if d =? 0 then ret 0 else copyuvm_loop (S NPAGES) d pgdir 0 sz.

Definition uva2ka (pgdir uva : Z) : KM Z :=
  let! pte := walkpgdir pgdir uva false in
  if pte =? 0 then undef "null pointer"
  else
    let! e := rd32 pte in
    if Z.land e PTE_P =? 0 then ret 0
    else if Z.land e PTE_U =? 0 then ret 0
    else ret (P2V (PTE_ADDR e)).

Fixpoint copyout_loop (fuel : nat) (pgdir va buf len : Z) : KM Z :=
  match fuel with
  | O => undef "loop bound"
  | S f =>
      if 0 <? len then
        let va0 := PGROUNDDOWN va in
        let! pa0 := uva2ka pgdir va0 in
        if pa0 =? 0 then ret (-1)
        else
          let n := Z.min (u32 (PGSIZE - (va - va0))) len in
          upd_mem (λ m, memmove m (u32 (pa0 + (va - va0))) buf n) ;;;
          copyout_loop f pgdir (u32 (va0 + PGSIZE)) (u32 (buf + n)) (u32 (len - n))
      else ret 0
  end.

Definition copyout (pgdir va p len : Z) : KM Z := copyout_loop (S (S NPAGES)) pgdir va p len.

(** ** The translation *)

Definition pt_page (p : Z) : Prop := p `mod` 4096 = 0 ∧ KERNBASE ≤ p < KERNBASE + PHYSTOP.
Definition in_page (p x : Z) : Prop := p ≤ x < p + 4096.

(** The page table of directory slot [i]. *)
Definition pgtab_at (m : memory) (pgdir i : Z) : option Z :=
  let e := ld32 m (pgdir + 4 * i) in
  if Z.land e PTE_P =? 0 then None else Some (P2V (PTE_ADDR e)).

(** Where the entry of [va] is, if its table exists, and its value; an address
    without a table has entry 0, which is not present. *)
Definition pte_addr (m : memory) (pgdir va : Z) : option Z :=
  (λ p, p + 4 * PTX va) <$> pgtab_at m pgdir (PDX va).
Definition pte_val (m : memory) (pgdir va : Z) : Z :=
  match pte_addr m pgdir va with Some a => ld32 m a | None => 0 end.

(** The directory and its tables are distinct pages. *)
Record pt_wf (m : memory) (pgdir : Z) : Prop := {
  pw_dir : pt_page pgdir;
  pw_tab i p : 0 ≤ i < 1024 → pgtab_at m pgdir i = Some p → pt_page p ∧ p ≠ pgdir;
  pw_inj i j p : 0 ≤ i < 1024 → 0 ≤ j < 1024 →
    pgtab_at m pgdir i = Some p → pgtab_at m pgdir j = Some p → i = j
}.

(** ... and none of them is on the free list [ps]. *)
Record vm_ok (pgdir : Z) (ps : list Z) (k : kernel) : Prop := {
  vo_wf : pt_wf (k_mem k) pgdir;
  vo_free : free_pages ps k;
  vo_dir : pgdir ∉ ps;
  vo_tab i p : 0 ≤ i < 1024 → pgtab_at (k_mem k) pgdir i = Some p → p ∉ ps;
  vo_ready : kmem_ready k
}.

(** An address that belongs neither to the page table nor to a free page. *)
Definition outside (m : memory) (pgdir : Z) (ps : list Z) (x : Z) : Prop :=
  ¬ in_page pgdir x ∧ (∀ p, p ∈ ps → ¬ in_page p x) ∧
  ∀ i p, 0 ≤ i < 1024 → pgtab_at m pgdir i = Some p → ¬ in_page p x.

(** ** Arithmetic *)

Lemma pt_page_apart p q : pt_page p → pt_page q → p ≠ q → p + 4096 ≤ q ∨ q + 4096 ≤ p.
Proof. intros [Hp _] [Hq _] Hne. dlia. Qed.

Lemma page_ok_pt_page e p : page_ok e p → pt_page p.
Proof. intros (H1 & _ & H2 & H3). split; [done|lia]. Qed.

Lemma PDX_range va : 0 ≤ va < 4294967296 → 0 ≤ PDX va < 1024.
Proof. intros. rewrite PDX_spec by done. dlia. Qed.
Lemma PTX_range va : 0 ≤ va < 4294967296 → 0 ≤ PTX va < 1024.
Proof. intros. rewrite PTX_spec by done. dlia. Qed.

Lemma same_page va va' :
  0 ≤ va < 4294967296 → 0 ≤ va' < 4294967296 →
  PDX va = PDX va' → PTX va = PTX va' → va / 4096 = va' / 4096.
Proof. intros. rewrite !PDX_spec, !PTX_spec in * by done. dlia. Qed.

Lemma lor_low x f : x `mod` 4096 = 0 → 0 ≤ f < 4096 → Z.lor x f = x + f.
Proof. intros. by apply (lor_add 12). Qed.

Lemma land_1 x : Z.land x 1 = x `mod` 2.
Proof. change 1 with (Z.ones 1) at 1. by rewrite Z.land_ones by lia. Qed.

(** The directory entry for a table at [p] points to [p] and is present. *)
Lemma pde_points p :
  pt_page p →
  let e := u32 (Z.lor (Z.lor (Z.lor (V2P p) PTE_P) PTE_W) PTE_U) in
  (Z.land e PTE_P =? 0) = false ∧ P2V (PTE_ADDR e) = p.
Proof.
  intros [Hp Hr]. unfold PTE_P, PTE_W, PTE_U. rewrite <- !Z.lor_assoc.
  change (Z.lor 1 (Z.lor 2 4)) with 7.
  assert (V2P p = p - KERNBASE) as E by (unfold V2P; apply u32_small; unfold KERNBASE, PHYSTOP in *; lia).
  assert ((p - KERNBASE) `mod` 4096 = 0) as Hm by (unfold KERNBASE; dlia).
  rewrite E, lor_low by (done || lia). rewrite u32_small by (unfold KERNBASE, PHYSTOP in *; lia).
  cbv zeta. rewrite land_1. split.
  - apply Z.eqb_neq. unfold KERNBASE in *. dlia.
  - rewrite PTE_ADDR_spec by (unfold KERNBASE, PHYSTOP in *; lia).
    unfold P2V. rewrite u32_small by (unfold KERNBASE, PHYSTOP in *; dlia).
    unfold KERNBASE in *. dlia.
Qed.

(** ** Memory under the writes *)

Lemma ld32_memset_in m p a : in_page p a → in_page p (a + 3) → ld32 (memset m p 0 PGSIZE) a = 0.
Proof.
  intros H1 H2. unfold ld32, in_page in *. rewrite !memset_fill by done. unfold fill, PGSIZE.
  rewrite !(proj2 (Z.leb_le _ _)), !(proj2 (Z.ltb_lt _ _)) by lia. done.
Qed.
Lemma ld32_memset_out m p a : a + 4 ≤ p ∨ p + 4096 ≤ a → ld32 (memset m p 0 PGSIZE) a = ld32 m a.
Proof.
  intros H. apply ld32_ext. intros x Hx. rewrite memset_fill by done. unfold fill, PGSIZE. case_tests.
Qed.
Lemma memset_out m p c x : ¬ in_page p x → memset m p c PGSIZE x = m x.
Proof. intros H. rewrite memset_fill by done. unfold fill, in_page, PGSIZE in *. case_tests. Qed.

Lemma bytes_ok_memset m p c : bytes_ok m → bytes_ok (memset m p c PGSIZE).
Proof. intros H x. rewrite memset_fill by done. by apply bytes_ok_fill. Qed.

Lemma slot_in p i : 0 ≤ i < 1024 → in_page p (p + 4 * i) ∧ in_page p (p + 4 * i + 3).
Proof. unfold in_page. lia. Qed.

(** ** walkpgdir *)

Lemma pgtab_at_range k pgdir i :
  pt_wf (k_mem k) pgdir → 0 ≤ i < 1024 → u32 (pgdir + 4 * i) = pgdir + 4 * i.
Proof. intros [[_ H] _ _] Hi. apply u32_small. unfold KERNBASE, PHYSTOP in *. lia. Qed.

Lemma walkpgdir_present pgdir va al o k p :
  pt_wf (k_mem k) pgdir → 0 ≤ va < 4294967296 → pgtab_at (k_mem k) pgdir (PDX va) = Some p →
  walkpgdir pgdir va al o k = Ok (p + 4 * PTX va) k o.
Proof.
  intros Hwf Hva Hp. pose proof (PDX_range va Hva). pose proof (PTX_range va Hva).
  destruct (pw_tab _ _ Hwf _ _ (PDX_range va Hva) Hp) as [[_ Hpr] _].
  unfold walkpgdir, rd32. mrun. rewrite (pgtab_at_range k) by done.
  unfold pgtab_at in Hp. destruct (_ =? 0); [done|]. simplify_eq. cbn [negb]. unfold ret. f_equal.
  apply u32_small. unfold KERNBASE, PHYSTOP in *. lia.
Qed.

Lemma walkpgdir_absent pgdir va o k :
  pt_wf (k_mem k) pgdir → 0 ≤ va < 4294967296 → pgtab_at (k_mem k) pgdir (PDX va) = None →
  walkpgdir pgdir va false o k = Ok 0 k o.
Proof.
  intros Hwf Hva Hp. pose proof (PDX_range va Hva). unfold walkpgdir, rd32. mrun.
  rewrite (pgtab_at_range k) by done. unfold pgtab_at in Hp. by destruct (_ =? 0).
Qed.

(** The state after a new table at [p] for directory slot [i]. *)
Definition tabled (pgdir i p : Z) (k : kernel) : kernel :=
  set_k_mem (st32 (memset (k_mem k) p 0 PGSIZE) (pgdir + 4 * i)
               (Z.lor (Z.lor (Z.lor (V2P p) PTE_P) PTE_W) PTE_U)) (kpopped k).

Lemma walkpgdir_alloc pgdir va o k ps :
  vm_ok pgdir ps k → 0 ≤ va < 4294967296 → pgtab_at (k_mem k) pgdir (PDX va) = None →
  walkpgdir pgdir va true o k =
    match ps with
    | [] => Ok 0 k o
    | p :: _ => Ok (p + 4 * PTX va) (tabled pgdir (PDX va) p k) o
    end.
Proof.
  intros Hok Hva Hp. pose proof Hok as [Hwf Hfr _ _ Hrd]. pose proof (PDX_range va Hva).
  pose proof (PTX_range va Hva). unfold walkpgdir, rd32. mrun. rewrite (pgtab_at_range k) by done.
  unfold pgtab_at in Hp. destruct (_ =? 0); [|done]. cbn [negb].
  rewrite (bind_ok _ _ _ _ _ _ _ (kalloc_eq o k Hrd)). pose proof (free_pages_head _ _ Hfr) as Hh.
  destruct ps as [|p ps]; simpl in Hh; unfold kalloced; rewrite Hh; [done|].
  pose proof (fp_ok _ _ Hfr) as Hall. apply Forall_cons in Hall as [Hpk _].
  pose proof Hpk as (_ & _ & Hk1 & Hk2).
  rewrite (proj2 (Z.eqb_neq p 0)) by (unfold KERNBASE in *; lia).
  unfold upd_mem, wr32. mrun. unfold ret. f_equal. apply u32_small. unfold KERNBASE, PHYSTOP in *. lia.
Qed.

(** The new table, and nothing else, appears. *)
Lemma tabled_pgtab pgdir i p k ps j :
  vm_ok pgdir (p :: ps) k → 0 ≤ i < 1024 → 0 ≤ j < 1024 →
  pgtab_at (k_mem (tabled pgdir i p k)) pgdir j =
    if decide (j = i) then Some p else pgtab_at (k_mem k) pgdir j.
Proof.
  intros [Hwf Hfr Hd Ht _] Hi Hj.
  pose proof (fp_ok _ _ Hfr) as Hall. apply Forall_cons in Hall as [Hpk _].
  apply page_ok_pt_page in Hpk. pose proof (pw_dir _ _ Hwf) as Hpd.
  assert (p ≠ pgdir) as Hne by set_solver. unfold pgtab_at, tabled. cbn [k_mem set_k_mem].
  destruct (decide (j = i)) as [->|Hji].
  - rewrite ld32_st32. destruct (pde_points p Hpk) as [-> ->]. done.
  - rewrite ld32_st32_other by lia. rewrite ld32_memset_out; [done|].
    destruct (pt_page_apart p pgdir); [done..|lia|lia].
Qed.

Lemma tabled_pte_val pgdir i p k ps va :
  vm_ok pgdir (p :: ps) k → 0 ≤ i < 1024 → pgtab_at (k_mem k) pgdir i = None → 0 ≤ va < 4294967296 →
  pte_val (k_mem (tabled pgdir i p k)) pgdir va = pte_val (k_mem k) pgdir va.
Proof.
  intros Hok Hi Hnone Hva. pose proof (PDX_range va Hva). pose proof (PTX_range va Hva) as Hx.
  unfold pte_val, pte_addr. rewrite (tabled_pgtab pgdir i p k ps) by done.
  pose proof Hok as [Hwf Hfr Hd Ht _]. pose proof (fp_ok _ _ Hfr) as Hall.
  apply Forall_cons in Hall as [Hpk _]. apply page_ok_pt_page in Hpk.
  pose proof (pw_dir _ _ Hwf) as Hpd. assert (p ≠ pgdir) as Hne by set_solver.
  destruct (pt_page_apart p pgdir Hpk Hpd Hne) as [Hap|Hap].
  all: destruct (decide (PDX va = i)) as [E|E]; simpl.
  1,3: rewrite E, Hnone; simpl; rewrite ld32_st32_other by lia;
    apply ld32_memset_in; apply slot_in; done.
  all: destruct (pgtab_at (k_mem k) pgdir (PDX va)) as [q|] eqn:Eq; simpl; [|done];
    destruct (pw_tab _ _ Hwf _ _ (PDX_range va Hva) Eq) as [Hq Hqd];
    assert (q ≠ p) as Hqp by (intros ->; apply (Ht _ _ (PDX_range va Hva) Eq); set_solver);
    destruct (pt_page_apart q pgdir Hq Hpd Hqd), (pt_page_apart q p Hq Hpk Hqp);
    rewrite ld32_st32_other, ld32_memset_out by lia; done.
Qed.

Lemma kpopped_free_pages p ps k : free_pages (p :: ps) k → free_pages ps (kpopped k).
Proof.
  intros H. pose proof (kalloced_free_pages _ _ H) as H'. unfold kalloced in H'.
  rewrite (free_pages_head _ _ H) in H'. simpl in H'.
  pose proof (fp_ok _ _ H) as Hall. apply Forall_cons in Hall as [(_ & _ & ? & _) _].
  by rewrite (proj2 (Z.eqb_neq p 0)) in H' by (unfold KERNBASE in *; lia).
Qed.

(** Writes outside the free pages keep the free list. *)
Lemma free_pages_mem ps k m :
  free_pages ps k → (∀ p x, p ∈ ps → in_page p x → m x = k_mem k x) →
  free_pages ps (set_k_mem m k).
Proof.
  intros [Hl Hn Hok] Hm. split; [|done..]. simpl. apply (flist_ext (k_mem k)); [|done].
  intros p Hp. apply ld32_ext. intros x Hx. apply (Hm p); [done|]. unfold in_page. lia.
Qed.

Lemma tabled_mem pgdir i p k x :
  0 ≤ i < 1024 → ¬ in_page pgdir x → ¬ in_page p x → k_mem (tabled pgdir i p k) x = k_mem k x.
Proof.
  intros Hi Hd Hp. unfold tabled. cbn [k_mem set_k_mem]. destruct (slot_in pgdir i Hi).
  rewrite st32_other by (unfold in_page in *; lia). by apply memset_out.
Qed.

Lemma in_page_apart p q x : pt_page p → pt_page q → p ≠ q → in_page p x → ¬ in_page q x.
Proof. intros Hp Hq Hne H1 H2. destruct (pt_page_apart p q Hp Hq Hne); unfold in_page in *; lia. Qed.

Lemma free_page_pt ps k p : free_pages ps k → p ∈ ps → pt_page p.
Proof.
  intros Hf Hp. pose proof (fp_ok _ _ Hf) as Hall. rewrite Forall_forall in Hall.
  by eapply page_ok_pt_page, Hall.
Qed.

Lemma tabled_ok pgdir i p ps k :
  vm_ok pgdir (p :: ps) k → 0 ≤ i < 1024 → pgtab_at (k_mem k) pgdir i = None →
  vm_ok pgdir ps (tabled pgdir i p k).
Proof.
  intros Hok Hi Hnone. pose proof Hok as [Hwf Hfr Hd Ht Hrd].
  assert (pt_page p) as Hpk by (apply (free_page_pt _ _ _ Hfr); set_solver).
  pose proof (fp_nodup _ _ Hfr) as Hnd. apply NoDup_cons in Hnd as [Hpn _].
  assert (∀ j, 0 ≤ j < 1024 → pgtab_at (k_mem (tabled pgdir i p k)) pgdir j =
    if decide (j = i) then Some p else pgtab_at (k_mem k) pgdir j) as Htab
    by (intros; by eapply tabled_pgtab).
  split.
  - split; [apply Hwf| |].
    + intros j q Hj. rewrite Htab by done. case_decide; [|by apply (pw_tab _ _ Hwf)].
      intros ?. simplify_eq. split; [done|set_solver].
    + intros j1 j2 q Hj1 Hj2. rewrite !Htab by done. repeat case_decide; subst; intros E1 E2; simplify_eq;
        [done| | |by eapply (pw_inj _ _ Hwf)]; exfalso.
      * by apply (Ht _ _ Hj2 E2), elem_of_cons; left.
      * by apply (Ht _ _ Hj1 E1), elem_of_cons; left.
  - apply free_pages_mem; [by eapply kpopped_free_pages|]. intros q x Hq Hx.
    assert (pt_page q) as Hqk by (apply (free_page_pt _ _ _ Hfr); set_solver).
    change (k_mem (kpopped k)) with (k_mem k).
    apply (tabled_mem pgdir i p k); [done| |].
    + eapply in_page_apart; [exact Hqk|apply Hwf| |done]. set_solver.
    + eapply in_page_apart; [exact Hqk|done| |done]. by intros ->.
  - set_solver.
  - intros j q Hj. rewrite Htab by done. case_decide; [by intros ?; simplify_eq|].
    intros Hq Hin. apply (Ht _ _ Hj Hq). set_solver.
  - by apply (kmem_ready_ext k).
Qed.

(** The number of page tables. *)
Definition has_table (m : memory) (pgdir i : Z) : bool := bool_decide (pgtab_at m pgdir i ≠ None).
Definition tables (m : memory) (pgdir : Z) : nat := length (List.filter (has_table m pgdir) (seqZ 0 1024)).

Lemma tables_le m pgdir : (tables m pgdir ≤ 1024)%nat.
Proof. unfold tables. etrans; [apply filter_length_le|]. by rewrite length_seqZ. Qed.
Lemma tables_ext m m' pgdir :
  (∀ i, 0 ≤ i < 1024 → pgtab_at m' pgdir i = pgtab_at m pgdir i) → tables m' pgdir = tables m pgdir.
Proof.
  intros H. unfold tables. f_equal. apply filter_ext_in. intros i Hi. apply list_elem_of_In, elem_of_seqZ in Hi.
  unfold has_table. by rewrite H by lia.
Qed.
Lemma filter_one_more (f g : Z → bool) (i : Z) l :
  NoDup l → i ∈ l → f i = false → g i = true → (∀ j, j ∈ l → j ≠ i → g j = f j) →
  length (List.filter g l) = S (length (List.filter f l)).
Proof.
  induction l as [|x l IH]; intros Hn Hi Hf Hg Hs; [by apply elem_of_nil in Hi|].
  apply NoDup_cons in Hn as [Hx Hn]. cbn [List.filter]. destruct (decide (x = i)) as [->|Hne].
  - rewrite Hf, Hg. cbn [length]. do 2 f_equal. apply filter_ext_in. intros j Hj. apply list_elem_of_In in Hj.
    apply Hs; [set_solver|by intros ->].
  - rewrite (Hs x) by set_solver. assert (i ∈ l) as Hil by set_solver.
    pose proof (IH Hn Hil Hf Hg (λ j Hj, Hs j ltac:(set_solver))) as E. destruct (f x); cbn [length]; lia.
Qed.
Lemma tabled_tables pgdir i p k ps :
  vm_ok pgdir (p :: ps) k → 0 ≤ i < 1024 → pgtab_at (k_mem k) pgdir i = None →
  tables (k_mem (tabled pgdir i p k)) pgdir = S (tables (k_mem k) pgdir).
Proof.
  intros Hok Hi Hn. apply (filter_one_more _ _ i).
  - apply NoDup_seqZ.
  - apply elem_of_seqZ. lia.
  - unfold has_table. rewrite Hn. by apply bool_decide_eq_false; intros [].
  - unfold has_table. rewrite (tabled_pgtab pgdir i p k ps), decide_True by done. by apply bool_decide_eq_true.
  - intros j Hj Hne. apply elem_of_seqZ in Hj. unfold has_table.
    by rewrite (tabled_pgtab pgdir i p k ps), decide_False by (done || lia).
Qed.

Lemma tables_none m pgdir : (∀ i, 0 ≤ i < 1024 → pgtab_at m pgdir i = None) → tables m pgdir = 0%nat.
Proof.
  intros H. unfold tables. rewrite (filter_ext_in _ (λ _, false)); [by induction (seqZ 0 1024)|].
  intros i Hi. apply list_elem_of_In, elem_of_seqZ in Hi. unfold has_table. rewrite H by lia. by apply bool_decide_eq_false; intros [].
Qed.
#[global] Opaque tables.

(** ** Walking with allocation, in one lemma *)

(** What taking pages from the allocator for page tables does to the free list. *)
Record took (pgdir : Z) (ps : list Z) (k : kernel) (ps' : list Z) (k' : kernel) : Prop := {
  tk_sub : ∃ used, ps = used ++ ps';
  tk_tab i p : 0 ≤ i < 1024 → pgtab_at (k_mem k') pgdir i = Some p → pgtab_at (k_mem k) pgdir i = Some p ∨ p ∈ ps;
  tk_count : (length ps + tables (k_mem k) pgdir = length ps' + tables (k_mem k') pgdir)%nat;
  tk_bytes : bytes_ok (k_mem k) → bytes_ok (k_mem k')
}.
Lemma took_refl pgdir ps k : took pgdir ps k ps k.
Proof. split; [by exists []|by left|done|done]. Qed.
Lemma took_mem pgdir ps k m :
  (bytes_ok (k_mem k) → bytes_ok m) → (∀ i, 0 ≤ i < 1024 → pgtab_at m pgdir i = pgtab_at (k_mem k) pgdir i) → took pgdir ps k ps (set_k_mem m k).
Proof.
  intros Hb H. split; [by exists []| | |done].
  - intros i p Hi. cbn. rewrite H by done. by left.
  - cbn. by rewrite (tables_ext (k_mem k) m).
Qed.
Lemma took_trans pgdir ps k ps1 k1 ps2 k2 : took pgdir ps k ps1 k1 → took pgdir ps1 k1 ps2 k2 → took pgdir ps k ps2 k2.
Proof.
  intros [[u1 ->] Ht1 Hc1 Hb1] [[u2 ->] Ht2 Hc2 Hb2]. split; [by exists (u1 ++ u2); rewrite app_assoc| |lia|by intros H; apply Hb2, Hb1].
  intros i p Hi Hp. destruct (Ht2 i p Hi Hp) as [H|H]; [by apply Ht1|right; set_solver].
Qed.

Record walked (pgdir va : Z) (ps : list Z) (k : kernel) (ps' : list Z) (k' : kernel) (a : Z) : Prop := {
  wk_addr : pte_addr (k_mem k') pgdir va = Some a;
  wk_ok : vm_ok pgdir ps' k';
  wk_val va' : 0 ≤ va' < 4294967296 → pte_val (k_mem k') pgdir va' = pte_val (k_mem k) pgdir va';
  wk_len : (length ps ≤ length ps' + 1)%nat;
  wk_took : took pgdir ps k ps' k';
  wk_out x : outside (k_mem k) pgdir ps x →
    outside (k_mem k') pgdir ps' x ∧ k_mem k' x = k_mem k x;
  wk_frame : k' = set_k_kmem (k_kmem k') (set_k_mem (k_mem k') k)
}.

Lemma pte_addr_pos m pgdir va a :
  pt_wf m pgdir → 0 ≤ va < 4294967296 → pte_addr m pgdir va = Some a → a ≠ 0.
Proof.
  intros Hwf Hva H. unfold pte_addr in H. destruct (pgtab_at _ _ _) as [p|] eqn:E; simplify_eq/=.
  destruct (pw_tab _ _ Hwf _ _ (PDX_range va Hva) E) as [[_ [? _]] _].
  pose proof (PTX_range va Hva). unfold KERNBASE in *. lia.
Qed.

Lemma walk_alloc pgdir va ps o k :
  vm_ok pgdir ps k → 0 ≤ va < 4294967296 →
  (ps = [] ∧ walkpgdir pgdir va true o k = Ok 0 k o) ∨
  ∃ a ps' k', walkpgdir pgdir va true o k = Ok a k' o ∧ walked pgdir va ps k ps' k' a.
Proof.
  intros Hok Hva. pose proof (vo_wf _ _ _ Hok) as Hwf. pose proof (PDX_range va Hva) as Hi.
  destruct (pgtab_at (k_mem k) pgdir (PDX va)) as [p|] eqn:E.
  - right. exists (p + 4 * PTX va), ps, k. split; [by apply walkpgdir_present|].
    split; try done; [by unfold pte_addr; rewrite E|lia|apply took_refl|by destruct k].
  - pose proof (walkpgdir_alloc pgdir va o k ps Hok Hva E) as Hw.
    destruct ps as [|p ps]; [by left|]. right.
    eexists _, ps, _. split; [exact Hw|]. split.
    + unfold pte_addr. rewrite (tabled_pgtab pgdir _ p k ps) by done. by rewrite decide_True.
    + by apply tabled_ok.
    + intros va' Hva'. by apply (tabled_pte_val _ _ _ _ ps).
    + simpl. lia.
    + split; [by exists [p]| | |].
      * intros i q Hi'. rewrite (tabled_pgtab pgdir _ p k ps) by done. case_decide; [|by left].
        intros ?. simplify_eq. right. set_solver.
      * rewrite (tabled_tables pgdir _ p k ps) by done. simpl. lia.
      * intros Hb. unfold tabled. cbn [k_mem set_k_mem]. by apply bytes_ok_st32, bytes_ok_memset.
    + intros x (Hd & Hps & Ht). pose proof (Hps p ltac:(set_solver)) as Hp. split.
      * split_and!; [done| |].
        -- intros q Hq. apply Hps. set_solver.
        -- intros j q Hj. rewrite (tabled_pgtab pgdir _ p k ps) by done.
           case_decide; [by intros ?; simplify_eq|by apply Ht].
      * by apply tabled_mem.
    + unfold tabled, kpopped. by destruct k.
Qed.

(** ** Writing an entry *)

Lemma set_pte pgdir va ps k a v :
  vm_ok pgdir ps k → 0 ≤ va < 4294967296 → pte_addr (k_mem k) pgdir va = Some a →
  let k' := set_k_mem (st32 (k_mem k) a v) k in
  vm_ok pgdir ps k' ∧
  (∀ va', 0 ≤ va' < 4294967296 → pte_val (k_mem k') pgdir va' =
     if decide (va' / 4096 = va / 4096) then u32 v else pte_val (k_mem k) pgdir va') ∧
  (∀ x, outside (k_mem k) pgdir ps x → outside (k_mem k') pgdir ps x ∧ k_mem k' x = k_mem k x) ∧
  took pgdir ps k ps k'.
Proof.
  intros Hok Hva Ha k'. pose proof Hok as [Hwf Hfr Hd Ht Hrd].
  pose proof (PDX_range va Hva) as Hi. pose proof (PTX_range va Hva) as Hx.
  unfold pte_addr in Ha. destruct (pgtab_at (k_mem k) pgdir (PDX va)) as [p|] eqn:E; simplify_eq/=.
  destruct (pw_tab _ _ Hwf _ _ Hi E) as [Hpk Hpd].
  assert (∀ x, ¬ in_page p x → st32 (k_mem k) (p + 4 * PTX va) v x = k_mem k x) as Hmem.
  { intros x Hnx. apply st32_other. unfold in_page in *. lia. }
  assert (∀ j, 0 ≤ j < 1024 → pgtab_at (k_mem k') pgdir j = pgtab_at (k_mem k) pgdir j) as Htab.
  { intros j Hj. unfold pgtab_at. simpl.
    destruct (pt_page_apart p pgdir Hpk (pw_dir _ _ Hwf) Hpd); by rewrite ld32_st32_other by lia. }
  assert (∀ x, outside (k_mem k) pgdir ps x → outside (k_mem k') pgdir ps x ∧ k_mem k' x = k_mem k x) as Hout.
  { intros x (Ho1 & Ho2 & Ho3). split; [|by apply Hmem, (Ho3 (PDX va))].
    split_and!; [done..|]. intros j q Hj. rewrite Htab by done. by apply Ho3. }
  split_and!; [|intros va' Hva'|done|apply took_mem; [by apply bytes_ok_st32|done]].
  - split; [split|..]; try done.
    + apply Hwf.
    + intros j q Hj. rewrite Htab by done. by apply (pw_tab _ _ Hwf).
    + intros j1 j2 q H1 H2. rewrite !Htab by done. by apply (pw_inj _ _ Hwf).
    + apply free_pages_mem; [done|]. intros q x Hq Hqx. apply Hmem.
      eapply in_page_apart; [by eapply free_page_pt|exact Hpk| |done].
      intros ->. by apply (Ht _ _ Hi E).
    + intros j q Hj. rewrite Htab by done. by apply Ht.
  - pose proof (PDX_range va' Hva'). pose proof (PTX_range va' Hva').
    unfold pte_val, pte_addr. rewrite Htab by done.
    destruct (decide (va' / 4096 = va / 4096)) as [Hs|Hs].
    + assert (PDX va' = PDX va ∧ PTX va' = PTX va) as [-> ->].
      { rewrite !PDX_spec, !PTX_spec by done. rewrite Hs. split; [|done]. dlia. }
      rewrite E. simpl. by rewrite ld32_st32.
    + destruct (pgtab_at (k_mem k) pgdir (PDX va')) as [q|] eqn:Eq; simpl; [|done].
      destruct (decide (PDX va' = PDX va)) as [Hpdx|Hpdx].
      * rewrite Hpdx in Eq. simplify_eq. assert (PTX va' ≠ PTX va) by (intros ?; by destruct Hs; apply same_page).
        by rewrite ld32_st32_other by lia.
      * assert (q ≠ p) as Hqp by (intros ->; destruct Hpdx; by eapply (pw_inj _ _ Hwf)).
        destruct (pw_tab _ _ Hwf _ _ (PDX_range va' Hva') Eq) as [Hq _].
        destruct (pt_page_apart q p Hq Hpk Hqp); by rewrite ld32_st32_other by lia.
Qed.

(** ** mappages *)

(** What mapping the [n] pages from [va] to [pa] does. *)
Record mapped (pgdir va pa perm : Z) (n : nat) (ps : list Z) (k : kernel) (ps' : list Z)
    (k' : kernel) (r : Z) : Prop := {
  mp_ok : vm_ok pgdir ps' k';
  mp_ret : r = 0 ∨ r = -1;
  mp_enough : (n ≤ length ps)%nat → r = 0;
  mp_fail : r = -1 → ps' = [];
  mp_took : took pgdir ps k ps' k';
  mp_new i : r = 0 → 0 ≤ i < Z.of_nat n →
    pte_val (k_mem k') pgdir (va + 4096 * i) = u32 (Z.lor (Z.lor (pa + 4096 * i) perm) PTE_P);
  mp_old va' : 0 ≤ va' < 4294967296 →
    va' / 4096 < va / 4096 ∨ va / 4096 + Z.of_nat n ≤ va' / 4096 →
    pte_val (k_mem k') pgdir va' = pte_val (k_mem k) pgdir va';
  mp_out x : outside (k_mem k) pgdir ps x →
    outside (k_mem k') pgdir ps' x ∧ k_mem k' x = k_mem k x;
  mp_frame : k' = set_k_kmem (k_kmem k') (set_k_mem (k_mem k') k)
}.

Lemma pte_val_addr m pgdir va a : pte_addr m pgdir va = Some a → ld32 m a = pte_val m pgdir va.
Proof. intros H. unfold pte_val. by rewrite H. Qed.

Lemma mappages_step fuel pgdir va last pa perm ps o k :
  vm_ok pgdir ps k → va `mod` 4096 = 0 → 0 ≤ va < 4294967296 →
  Z.land (pte_val (k_mem k) pgdir va) PTE_P = 0 →
  (ps = [] ∧ mappages_loop (S fuel) pgdir va last pa perm o k = Ok (-1) k o) ∨
  ∃ ps1 k1, mapped pgdir va pa perm 1 ps k ps1 k1 0 ∧ (length ps ≤ length ps1 + 1)%nat ∧
    mappages_loop (S fuel) pgdir va last pa perm o k =
      (if va =? last then ret 0
       else mappages_loop fuel pgdir (u32 (va + PGSIZE)) last (u32 (pa + PGSIZE)) perm) o k1.
Proof.
  intros Hok Hm Hva Hnp. cbn [mappages_loop].
  destruct (walk_alloc pgdir va ps o k Hok Hva) as [[-> Hw]|(a & ps1 & k1 & Hw & Hwk)].
  { left. by rewrite (bind_ok _ _ _ _ _ _ _ Hw). }
  right. destruct Hwk as [Ha Hok1 Hval Hlen Htk Hout Hfr].
  pose proof (pte_addr_pos _ _ _ _ (vo_wf _ _ _ Hok1) Hva Ha) as Ha0.
  destruct (set_pte pgdir va ps1 k1 a (Z.lor (Z.lor pa perm) PTE_P) Hok1 Hva Ha) as (Hok2 & Hval2 & Hout2 & Htk2).
  eexists ps1, _. split_and!; [|exact Hlen|].
  2:{ rewrite (bind_ok _ _ _ _ _ _ _ Hw), (proj2 (Z.eqb_neq a 0)) by done. unfold rd32, wr32. mrun.
      rewrite (pte_val_addr _ _ _ _ Ha), Hval, Hnp by done. mrun. done. }
  split.
  - exact Hok2.
  - by left.
  - done.
  - done.
  - exact (took_trans _ _ _ _ _ _ _ Htk Htk2).
  - intros i _ Hi. assert (i = 0) as -> by lia. rewrite Hval2 by lia.
    rewrite decide_True by (f_equal; lia). by rewrite Z.mul_0_r, Z.add_0_r.
  - intros va' Hva' Hne. rewrite Hval2, decide_False, Hval by lia. done.
  - intros x Hx. destruct (Hout x Hx) as [H1 H2], (Hout2 x) as [H3 H4]; [by apply Hout|].
    split; [done|]. by rewrite H4.
  - rewrite Hfr. by destruct k.
Qed.

Lemma mappages_loop_spec n fuel pgdir va pa perm ps o k :
  vm_ok pgdir ps k → va `mod` 4096 = 0 → 0 ≤ va → va + 4096 * Z.of_nat n < 4294967296 →
  0 ≤ pa → pa + 4096 * Z.of_nat n < 4294967296 → (n < fuel)%nat →
  (∀ i, 0 ≤ i ≤ Z.of_nat n → Z.land (pte_val (k_mem k) pgdir (va + 4096 * i)) PTE_P = 0) →
  ∃ r ps' k', mappages_loop fuel pgdir va (va + 4096 * Z.of_nat n) pa perm o k = Ok r k' o ∧
    mapped pgdir va pa perm (S n) ps k ps' k' r.
Proof.
  revert fuel va pa ps k. induction n as [|n IH]; intros [|fuel] va pa ps k Hok Hm Hva Hend Hpa Hpae Hf Hnp;
    try lia.
  all: pose proof (Hnp 0 ltac:(lia)) as Hnp0; rewrite Z.mul_0_r, Z.add_0_r in Hnp0.
  - destruct (mappages_step fuel pgdir va (va + 4096 * Z.of_nat 0) pa perm ps o k Hok Hm ltac:(lia) Hnp0)
      as [[-> Hs]|(ps1 & k1 & H1 & _ & Hs)]; rewrite Hs.
    + exists (-1), [], k. split; [done|].
      split; try done; [by right|simpl; lia|apply took_refl|by destruct k].
    + rewrite (proj2 (Z.eqb_eq _ _)) by lia. by exists 0, ps1, k1.
  - destruct (mappages_step fuel pgdir va (va + 4096 * Z.of_nat (S n)) pa perm ps o k Hok Hm ltac:(lia) Hnp0)
      as [[-> Hs]|(ps1 & k1 & H1 & Hlen & Hs)]; rewrite Hs.
    + exists (-1), [], k. split; [done|].
      split; try done; [by right|simpl; lia|apply took_refl|by destruct k].
    + destruct H1 as [Hok1 _ _ _ Htk1 Hnew1 Hold1 Hout1 Hfr1].
      rewrite (proj2 (Z.eqb_neq _ _)) by lia. unfold PGSIZE. rewrite !u32_small by lia.
      replace (va + 4096 * Z.of_nat (S n)) with (va + 4096 + 4096 * Z.of_nat n) by lia.
      assert (∀ i, (va + 4096 * i) / 4096 = va / 4096 + i) as Hdiv.
      { intros i. rewrite (Z.mul_comm 4096). by rewrite Z.div_add by lia. }
      assert ((va + 4096) / 4096 = va / 4096 + 1) as Hdiv1 by (by rewrite <- (Hdiv 1)).
      destruct (IH fuel (va + 4096) (pa + 4096) ps1 k1) as (r & ps2 & k2 & Hr & H2); try done; try lia.
      { dlia. }
      { intros i Hi. rewrite Hold1; [|lia|].
        - replace (va + 4096 + 4096 * i) with (va + 4096 * (i + 1)) by lia. apply Hnp. lia.
        - right. replace (va + 4096 + 4096 * i) with (va + 4096 * (i + 1)) by lia. rewrite Hdiv. lia. }
      destruct H2 as [Hok2 Hret2 Hen2 Hfl2 Htk2 Hnew2 Hold2 Hout2 Hfr2].
      exists r, ps2, k2. split; [done|]. split; try done.
      * intros Hl. apply Hen2. lia.
      * exact (took_trans _ _ _ _ _ _ _ Htk1 Htk2).
      * intros i Hr0 Hi. destruct (decide (i = 0)) as [->|Hi0].
        -- rewrite Hold2; [apply Hnew1; [done|lia]|lia|]. left. rewrite Hdiv1, Z.mul_0_r, Z.add_0_r. lia.
        -- replace (va + 4096 * i) with (va + 4096 + 4096 * (i - 1)) by lia.
           rewrite Hnew2 by (done || lia). f_equal. do 2 f_equal. lia.
      * intros va' Hva' Hne. rewrite Hold2, Hold1; [done|done|lia|done|lia].
      * intros x Hx. destruct (Hout1 x Hx) as [H3 H4], (Hout2 x) as [H5 H6]; [by apply Hout1|].
        split; [done|]. by rewrite H6.
      * rewrite Hfr2. rewrite Hfr1. by destruct k.
Qed.

(** ** Main theorems *)

(** mappages on pages that are not mapped yet installs exactly the requested
    translations and no other: each page of the range gets its physical page
    with the given permissions, every other virtual address keeps its entry,
    memory outside the page table and the free pages is untouched, and the call
    fails with -1 only when the allocator runs out of pages for page tables. *)
Theorem mappages_spec pgdir va size pa perm ps o k :
  vm_ok pgdir ps k → 0 < size → 0 ≤ va → va + size ≤ 4294967296 →
  0 ≤ pa → pa + size + 4096 ≤ 4294967296 →
  let n := ((va + size - 1) / 4096 - va / 4096 + 1) in
  (∀ i, 0 ≤ i < n → Z.land (pte_val (k_mem k) pgdir (PGROUNDDOWN va + 4096 * i)) PTE_P = 0) →
  ∃ r ps' k', mappages pgdir va size pa perm o k = Ok r k' o ∧
    mapped pgdir (PGROUNDDOWN va) pa perm (Z.to_nat n) ps k ps' k' r.
Proof.
  intros Hok Hsz Hva Hend Hpa Hpe n Hnp. unfold mappages.
  assert (1 ≤ n ≤ 1048576) as Hn by (unfold n; dlia).
  rewrite (u32_small (va + size - 1)) by lia.
  assert (PGROUNDDOWN va = 4096 * (va / 4096)) as Ed by (rewrite PGROUNDDOWN_spec by lia; dlia).
  assert (PGROUNDDOWN (va + size - 1) = PGROUNDDOWN va + 4096 * Z.of_nat (Z.to_nat (n - 1))) as ->.
  { rewrite Z2Nat.id, Ed, PGROUNDDOWN_spec by lia. unfold n. dlia. }
  replace (Z.to_nat n) with (S (Z.to_nat (n - 1))) by lia.
  apply mappages_loop_spec; try done; try (rewrite ?Z2Nat.id by lia; rewrite ?Ed); try lia.
  - rewrite Z.mul_comm. by apply Z_mod_mult.
  - unfold n. dlia.
  - unfold n. dlia.
  - unfold n. dlia.
  - pose proof NPAGES_eq. lia.
  - intros i Hi. rewrite <- Ed. apply Hnp. lia.
Qed.

(** ** copyout *)

(** The physical byte behind user address [va], as a kernel address. *)
Definition user_page (m : memory) (pgdir va : Z) : Z := P2V (PTE_ADDR (pte_val m pgdir va)).
Definition user_byte (m : memory) (pgdir va : Z) : Z := user_page m pgdir va + va `mod` 4096.

(** User code may access [va], and its page is neither the directory nor one
    of its tables. *)
Record user_ok (m : memory) (pgdir va : Z) : Prop := {
  uo_present : Z.land (pte_val m pgdir va) PTE_P ≠ 0;
  uo_user : Z.land (pte_val m pgdir va) PTE_U ≠ 0;
  uo_page : pt_page (user_page m pgdir va);
  uo_dir : user_page m pgdir va ≠ pgdir;
  uo_tab i p : 0 ≤ i < 1024 → pgtab_at m pgdir i = Some p → user_page m pgdir va ≠ p
}.

Lemma pte_val_page m pgdir va va' :
  0 ≤ va < 4294967296 → 0 ≤ va' < 4294967296 → va / 4096 = va' / 4096 →
  pte_val m pgdir va = pte_val m pgdir va'.
Proof.
  intros H H' E. unfold pte_val, pte_addr.
  assert (PDX va = PDX va' ∧ PTX va = PTX va') as [-> ->]; [|done].
  rewrite !PDX_spec, !PTX_spec by done. rewrite E. split; [dlia|done].
Qed.

Lemma uva2ka_eq pgdir va o k :
  pt_wf (k_mem k) pgdir → 0 ≤ va < 4294967296 → user_ok (k_mem k) pgdir va →
  uva2ka pgdir va o k = Ok (user_page (k_mem k) pgdir va) k o.
Proof.
  intros Hwf Hva [Hp Hu _ _ _]. unfold uva2ka, user_page, pte_val, pte_addr in *.
  destruct (pgtab_at (k_mem k) pgdir (PDX va)) as [p|] eqn:E; simpl in *; [|done].
  rewrite (bind_ok _ _ _ _ _ _ _ (walkpgdir_present _ _ _ _ _ _ Hwf Hva E)).
  destruct (pw_tab _ _ Hwf _ _ (PDX_range va Hva) E) as [[_ [? _]] _]. pose proof (PTX_range va Hva).
  rewrite (proj2 (Z.eqb_neq _ 0)) by (unfold KERNBASE in *; lia). unfold rd32. mrun.
  by rewrite (proj2 (Z.eqb_neq _ _) Hp), (proj2 (Z.eqb_neq _ _) Hu).
Qed.

(** Writes that avoid the directory and its tables keep the translation. *)
Lemma pt_same m m' pgdir :
  pt_wf m pgdir →
  (∀ x, in_page pgdir x ∨ (∃ i p, 0 ≤ i < 1024 ∧ pgtab_at m pgdir i = Some p ∧ in_page p x) → m' x = m x) →
  (∀ i, 0 ≤ i < 1024 → pgtab_at m' pgdir i = pgtab_at m pgdir i) ∧
  (∀ va, 0 ≤ va < 4294967296 → pte_val m' pgdir va = pte_val m pgdir va) ∧ pt_wf m' pgdir.
Proof.
  intros Hwf Hm.
  assert (∀ i, 0 ≤ i < 1024 → pgtab_at m' pgdir i = pgtab_at m pgdir i) as Htab.
  { intros i Hi. unfold pgtab_at. rewrite (ld32_ext m' m); [done|]. intros x Hx. apply Hm. left.
    unfold in_page. lia. }
  split_and!; [done| |].
  - intros va Hva. pose proof (PDX_range va Hva). pose proof (PTX_range va Hva).
    unfold pte_val, pte_addr. rewrite Htab by done.
    destruct (pgtab_at m pgdir (PDX va)) as [p|] eqn:E; simpl; [|done].
    apply ld32_ext. intros x Hx. apply Hm. right. exists (PDX va), p. unfold in_page. split_and!; auto; lia.
  - split; [apply Hwf| |].
    + intros i p Hi. rewrite Htab by done. by apply (pw_tab _ _ Hwf).
    + intros i j p Hi Hj. rewrite !Htab by done. by apply (pw_inj _ _ Hwf).
Qed.

Lemma user_ok_same m m' pgdir va :
  0 ≤ va < 4294967296 →
  (∀ i, 0 ≤ i < 1024 → pgtab_at m' pgdir i = pgtab_at m pgdir i) →
  (∀ va, 0 ≤ va < 4294967296 → pte_val m' pgdir va = pte_val m pgdir va) →
  user_ok m pgdir va → user_ok m' pgdir va.
Proof.
  intros Hva Ht Hv [H1 H2 H3 H4 H5]. unfold user_page in *. split; unfold user_page; rewrite ?Hv by done; try done.
  intros i p Hi. rewrite Ht by done. by apply H5.
Qed.

(** The bytes [va .. va+n) of one page are contiguous. *)
Lemma user_byte_run m pgdir va i :
  0 ≤ va → 0 ≤ i → va `mod` 4096 + i < 4096 → va + i < 4294967296 →
  user_byte m pgdir (va + i) = user_page m pgdir (PGROUNDDOWN va) + va `mod` 4096 + i ∧
  user_page m pgdir (PGROUNDDOWN va) = user_page m pgdir va.
Proof.
  intros Hva Hi Hp Hr. unfold user_byte, user_page.
  assert (PGROUNDDOWN va = va - va `mod` 4096) as -> by (by rewrite PGROUNDDOWN_spec by lia).
  rewrite (pte_val_page m pgdir (va + i) (va - va `mod` 4096)) by dlia.
  rewrite (pte_val_page m pgdir va (va - va `mod` 4096)) by dlia.
  split; [|done]. assert ((va + i) `mod` 4096 = va `mod` 4096 + i) by dlia. lia.
Qed.

(** The requirements of copyout on the range. *)
Record copy_ok (m : memory) (pgdir va buf len : Z) : Prop := {
  co_user i : 0 ≤ i < len → user_ok m pgdir (va + i);
  co_inj i j : 0 ≤ i < len → 0 ≤ j < len →
    user_byte m pgdir (va + i) = user_byte m pgdir (va + j) → i = j;
  co_src i j : 0 ≤ i < len → 0 ≤ j < len → user_byte m pgdir (va + i) ≠ buf + j
}.

(** What it achieves. *)
Record copied (pgdir va buf len : Z) (k k' : kernel) : Prop := {
  cd_bytes i : 0 ≤ i < len → k_mem k' (user_byte (k_mem k) pgdir (va + i)) = k_mem k (buf + i);
  cd_rest x : (∀ i, 0 ≤ i < len → x ≠ user_byte (k_mem k) pgdir (va + i)) → k_mem k' x = k_mem k x;
  cd_frame : k' = set_k_mem (k_mem k') k
}.

(** One iteration: the part of the range in the first page. *)
Lemma copy_chunk pgdir va buf len k :
  let m := k_mem k in
  let n := Z.min (4096 - va `mod` 4096) len in
  let m1 := memmove m (user_page m pgdir (PGROUNDDOWN va) + va `mod` 4096) buf n in
  pt_wf m pgdir → bytes_ok m → 0 ≤ va → va + len ≤ KERNBASE → 0 < len → copy_ok m pgdir va buf len →
  copied pgdir va buf n k (set_k_mem m1 k) ∧ bytes_ok m1 ∧ pt_wf m1 pgdir ∧
  (∀ i, 0 ≤ i < 1024 → pgtab_at m1 pgdir i = pgtab_at m pgdir i) ∧
  (∀ va, 0 ≤ va < 4294967296 → pte_val m1 pgdir va = pte_val m pgdir va).
Proof.
  intros m n m1 Hwf Hb Hva Hend Hlen [Hu Hinj Hsrc]. unfold KERNBASE in Hend.
  pose proof (Z.mod_pos_bound va 4096 ltac:(lia)) as Hoff.
  set (dst := user_page m pgdir (PGROUNDDOWN va) + va `mod` 4096) in *.
  assert (∀ i, 0 ≤ i < n → user_byte m pgdir (va + i) = dst + i) as Hrun.
  { intros i Hi. destruct (user_byte_run m pgdir va i) as [-> _]; [lia..|]. unfold dst. lia. }
  assert (∀ x, m1 x = copy m dst buf n x) as Hm1 by (intros; apply memmove_copy; [done|lia]).
  assert (bytes_ok m1) as Hb1.
  { intros x. rewrite Hm1. unfold copy. case_test; apply Hb. }
  destruct (user_byte_run m pgdir va 0) as [_ Hpg]; [lia..|].
  destruct (Hu 0 ltac:(lia)) as [_ _ Up Ud Ut]. rewrite Z.add_0_r in Up, Ud, Ut. rewrite <- Hpg in Up, Ud, Ut.
  destruct (pt_same m m1 pgdir Hwf) as (Htab & Hval & Hwf1).
  { intros x Hx. rewrite Hm1. unfold copy. destruct (_ && _) eqn:E; [|done]. to_prop. exfalso.
    assert (in_page (user_page m pgdir (PGROUNDDOWN va)) x) as Hin by (unfold in_page, dst in *; lia).
    destruct Hx as [Hx|(i & p & Hi & Hp & Hx)].
    - revert Hx. by eapply in_page_apart; [exact Up|apply Hwf|done|].
    - destruct (pw_tab _ _ Hwf _ _ Hi Hp) as [Hpp _].
      revert Hx. eapply in_page_apart; [exact Up|exact Hpp| |done]. by eapply Ut. }
  split_and!; [|done..]. split; cbn [k_mem set_k_mem].
  - intros i Hi. fold m. rewrite Hrun, Hm1 by done. unfold copy.
    rewrite (proj2 (Z.leb_le _ _)), (proj2 (Z.ltb_lt _ _)) by lia. simpl. f_equal. lia.
  - intros x Hx. fold m in Hx. rewrite Hm1. unfold copy. destruct (_ && _) eqn:E; [|done]. to_prop.
    exfalso. apply (Hx (x - dst) ltac:(lia)). rewrite Hrun by lia. lia.
  - done.
Qed.

Lemma copyout_loop_spec fuel pgdir va buf len o k :
  pt_wf (k_mem k) pgdir → bytes_ok (k_mem k) → 0 ≤ va → va + len ≤ KERNBASE →
  0 ≤ buf → buf + len < 4294967296 → 0 ≤ len →
  va `mod` 4096 + len ≤ 4096 * (Z.of_nat fuel - 1) →
  copy_ok (k_mem k) pgdir va buf len →
  ∃ k', copyout_loop fuel pgdir va buf len o k = Ok 0 k' o ∧ copied pgdir va buf len k k'.
Proof.
  revert va buf len k. induction fuel as [|fuel IH]; intros va buf len k Hwf Hb Hva Hend Hbuf Hbe Hlen Hf Hco.
  { pose proof (Z.mod_pos_bound va 4096). lia. }
  cbn [copyout_loop]. destruct (Z.ltb_spec 0 len) as [Hl|Hl].
  2:{ exists k. split; [done|]. assert (len = 0) as -> by lia. split; [lia|done|by destruct k]. }
  pose proof (Z.mod_pos_bound va 4096 ltac:(lia)) as Hoff. unfold KERNBASE in Hend.
  assert (PGROUNDDOWN va = va - va `mod` 4096) as Ed by (by rewrite PGROUNDDOWN_spec by lia).
  destruct (user_byte_run (k_mem k) pgdir va 0) as [_ Hpg]; [lia..|].
  assert (user_ok (k_mem k) pgdir (PGROUNDDOWN va)) as Hu0.
  { destruct (co_user _ _ _ _ _ Hco 0 ltac:(lia)) as [U1 U2 U3 U4 U5]. rewrite Z.add_0_r in *.
    rewrite <- Hpg in *. rewrite (pte_val_page _ _ va (PGROUNDDOWN va)) in U1, U2 by dlia. by split. }
  rewrite (bind_ok _ _ _ _ _ _ _ (uva2ka_eq pgdir (PGROUNDDOWN va) o k Hwf ltac:(rewrite Ed; dlia) Hu0)).
  pose proof (uo_page _ _ _ Hu0) as [_ Hpr].
  rewrite (proj2 (Z.eqb_neq _ 0)) by (unfold KERNBASE in *; lia).
  replace (va - PGROUNDDOWN va) with (va `mod` 4096) by lia. unfold PGSIZE.
  rewrite (u32_small (4096 - _)) by lia. set (n := Z.min (4096 - va `mod` 4096) len).
  rewrite (u32_small (_ + va `mod` 4096)) by (unfold KERNBASE, PHYSTOP in *; lia).
  rewrite (u32_small (buf + n)), (u32_small (len - n)), (u32_small (PGROUNDDOWN va + 4096)) by lia.
  destruct (copy_chunk pgdir va buf len k Hwf Hb Hva Hend Hl Hco) as ([C1 C2 C3] & Hb1 & Hwf1 & Htab & Hval).
  fold n in C1, C2, Hb1, Hwf1, Htab, Hval, C3 |- *. unfold upd_mem. mrun.
  set (m1 := memmove _ _ _ _) in *. set (k1 := set_k_mem m1 k) in *.
  assert (∀ i, 0 ≤ i < len - n → PGROUNDDOWN va + 4096 + i = va + (n + i)) as Hnext by lia.
  assert (∀ i, 0 ≤ i < len - n →
    user_byte m1 pgdir (PGROUNDDOWN va + 4096 + i) = user_byte (k_mem k) pgdir (va + (n + i))) as Hub.
  { intros i Hi. unfold user_byte, user_page. rewrite Hval by lia. by rewrite Hnext. }
  pose proof Hco as [Q1 Q2 Q3].
  destruct (IH (PGROUNDDOWN va + 4096) (buf + n) (len - n) k1) as (k2 & Hk2 & [D1 D2 D3]).
  - done.
  - done.
  - lia.
  - unfold KERNBASE. dlia.
  - lia.
  - lia.
  - lia.
  - assert ((PGROUNDDOWN va + 4096) `mod` 4096 = 0) as -> by dlia. lia.
  - split; change (k_mem k1) with m1.
    + intros i Hi. rewrite Hnext by done. apply (user_ok_same (k_mem k)); [lia|done|done|]. apply Q1. lia.
    + intros i j Hi Hj. rewrite !Hub by done. intros E. apply Q2 in E; lia.
    + intros i j Hi Hj. rewrite Hub by done. rewrite <- Z.add_assoc. apply Q3; lia.
  - change (k_mem k1) with m1 in *. exists k2. split; [done|]. split.
    + intros i Hi. destruct (decide (i < n)) as [Hin|Hin].
      * rewrite D2; [apply C1; lia|]. intros j Hj. rewrite Hub by done. intros E. apply Q2 in E; lia.
      * replace (va + i) with (va + (n + (i - n))) by lia. rewrite <- Hub, D1 by lia.
        replace (buf + n + (i - n)) with (buf + i) by lia. apply C2.
        intros j Hj E. apply (Q3 j i); [lia..|]. done.
    + intros x Hx. rewrite D2, C2; [done| |].
      * intros i Hi. apply Hx. lia.
      * intros i Hi. rewrite Hub by done. apply Hx. lia.
    + rewrite D3. by destruct k.
Qed.


(** copyout refuses pages user code may not access: when the first page of the
    range is present but without PTE_U (a kernel page, or the guard page below
    the stack), or not present, it returns -1 and changes nothing. *)
Theorem copyout_protects pgdir va buf len o k p :
  pt_wf (k_mem k) pgdir → 0 ≤ va < 4294967296 → 0 < len →
  pgtab_at (k_mem k) pgdir (PDX va) = Some p →
  Z.land (pte_val (k_mem k) pgdir va) PTE_P = 0 ∨ Z.land (pte_val (k_mem k) pgdir va) PTE_U = 0 →
  copyout pgdir va buf len o k = Ok (-1) k o.
Proof.
  intros Hwf Hva Hl Hp Hbad. unfold copyout. cbn [copyout_loop].
  rewrite (proj2 (Z.ltb_lt _ _)) by done.
  assert (PGROUNDDOWN va = va - va `mod` 4096) as Ed by (by rewrite PGROUNDDOWN_spec by lia).
  assert (0 ≤ PGROUNDDOWN va < 4294967296) as Hva0 by (rewrite Ed; dlia).
  assert (PDX (PGROUNDDOWN va) = PDX va) as Edx by (rewrite !PDX_spec, Ed by done; dlia).
  assert (pte_val (k_mem k) pgdir va = pte_val (k_mem k) pgdir (PGROUNDDOWN va)) as Ev
    by (apply pte_val_page; [done..|rewrite Ed; dlia]).
  assert (uva2ka pgdir (PGROUNDDOWN va) o k = Ok 0 k o) as Hu.
  { unfold uva2ka. rewrite <- Edx in Hp.
    rewrite (bind_ok _ _ _ _ _ _ _ (walkpgdir_present _ _ _ _ _ _ Hwf Hva0 Hp)).
    destruct (pw_tab _ _ Hwf _ _ (PDX_range _ Hva0) Hp) as [[_ [? _]] _]. pose proof (PTX_range _ Hva0).
    rewrite (proj2 (Z.eqb_neq _ 0)) by (unfold KERNBASE in *; lia). unfold rd32. mrun.
    rewrite (pte_val_addr _ pgdir (PGROUNDDOWN va)) by (unfold pte_addr; by rewrite Hp).
    rewrite <- Ev. destruct (Z.land _ PTE_P =? 0) eqn:E1; [done|]. to_prop.
    destruct Hbad as [Hb|Hb]; [lia|]. by rewrite Hb. }
  by rewrite (bind_ok _ _ _ _ _ _ _ Hu).
Qed.

(** ** Witnesses *)

(** An empty directory at 0x80500000. *)
Lemma demo_vm_ok : vm_ok 0x80500000 [0x80400000; 0x80401000; 0x80402000] demo_pages.
Proof.
  assert (∀ i, 0 ≤ i < 1024 → pgtab_at (k_mem demo_pages) 0x80500000 i = None) as Hnone.
  { intros i Hi. unfold pgtab_at. rewrite (ld32_ext _ (λ _, 0)); [done|]. intros x Hx.
    unfold demo_pages. by rewrite !kfreed_mem by (unfold PGSIZE; lia). }
  split.
  - split; [by vm_compute| |]; intros i; intros; rewrite Hnone in *; done.
  - exact demo_free_pages.
  - set_solver.
  - intros i p Hi. by rewrite Hnone.
  - by left.
Qed.

Lemma mappages_spec_witness :
  ∃ k', mappages 0x80500000 0x1010 4096 0x300000 PTE_W [] demo_pages = Ok 0 k' [] ∧
        pte_val (k_mem k') 0x80500000 0x2000 = 0x301003.
Proof.
  destruct (mappages_spec 0x80500000 0x1010 4096 0x300000 PTE_W _ [] demo_pages demo_vm_ok)
    as (r & ps' & k' & H & Hm); [lia..| |].
  - intros i Hi. unfold pte_val, pte_addr, pgtab_at.
    assert (PDX (PGROUNDDOWN 0x1010 + 4096 * i) = 0) as ->.
    { change (PGROUNDDOWN 0x1010) with 4096. rewrite PDX_spec by dlia. dlia. }
    vm_compute. reflexivity.
  - pose proof (mp_enough _ _ _ _ _ _ _ _ _ _ Hm ltac:(vm_compute; lia)) as ->.
    exists k'. split; [exact H|]. exact (mp_new _ _ _ _ _ _ _ _ _ _ Hm 1 eq_refl ltac:(vm_compute; by split)).
Defined.

(** User page 1 mapped to 0x80403000 with user access, page 2 without. *)
Definition demo_ptmem : memory :=
  st32 (st32 (st32 (λ _, 0) 0x80500000 (0x501000 + 7)) (0x80501000 + 4) (0x403000 + 7))
    (0x80501000 + 8) (0x404000 + 3).
Definition demo_user : kernel := set_k_mem demo_ptmem boot_kernel.

Lemma demo_pgtab i : 0 ≤ i < 1024 →
  pgtab_at demo_ptmem 0x80500000 i = if decide (i = 0) then Some 0x80501000 else None.
Proof.
  intros Hi. unfold pgtab_at, demo_ptmem. rewrite !(ld32_st32_other _ (0x80501000 + _)) by lia.
  destruct (decide (i = 0)) as [->|Hne]; [by vm_compute|]. by rewrite ld32_st32_other by lia.
Qed.

Lemma demo_pt_wf : pt_wf demo_ptmem 0x80500000.
Proof.
  split; [by vm_compute| |].
  - intros i p Hi. rewrite demo_pgtab by done. case_decide; intros ?; simplify_eq. by vm_compute.
  - intros i j p Hi Hj. rewrite !demo_pgtab by done. repeat case_decide; by subst.
Qed.

Lemma demo_pte va : 0x1000 ≤ va < 0x2000 → pte_val demo_ptmem 0x80500000 va = 0x403007.
Proof.
  intros Hva. rewrite (pte_val_page _ _ va 0x1000) by dlia. by vm_compute.
Qed.

Lemma demo_bytes_ok : bytes_ok demo_ptmem.
Proof. unfold demo_ptmem. do 3 apply bytes_ok_st32. intros x. lia. Qed.

Lemma demo_copy_ok : copy_ok demo_ptmem 0x80500000 0x1ffe 0x80600000 2.
Proof.
  assert (∀ i, 0 ≤ i < 2 → user_byte demo_ptmem 0x80500000 (0x1ffe + i) = 0x80403ffe + i) as Hb.
  { intros i Hi. unfold user_byte, user_page. rewrite demo_pte by lia.
    assert (i = 0 ∨ i = 1) as [->| ->] by lia; by vm_compute. }
  split.
  - intros i Hi. assert (pte_val demo_ptmem 0x80500000 (0x1ffe + i) = 0x403007) as E by (apply demo_pte; lia).
    split; unfold user_page; rewrite E; [by vm_compute..|].
    intros j p Hj. rewrite demo_pgtab by done. case_decide; intros ?; by simplify_eq.
  - intros i j Hi Hj. rewrite !Hb by done. lia.
  - intros i j Hi Hj. rewrite Hb by done. lia.
Qed.


Lemma copyout_protects_witness :
  copyout 0x80500000 0x2010 0x80600000 5 [] demo_user = Ok (-1) demo_user [].
Proof.
  apply (copyout_protects 0x80500000 0x2010 0x80600000 5 [] demo_user 0x80501000 demo_pt_wf);
    [lia|lia|apply demo_pgtab; vm_compute; split; [discriminate|reflexivity]|].
  right. rewrite (pte_val_page _ _ 0x2010 0x2000) by (lia || reflexivity).
  vm_compute. reflexivity.
Defined.
