(* ===== verification/Space.v ===== *)
(** * Address spaces

    The page directories that [vm.c] builds: [setupkvm], the kernel part of every
    address space, and [copyuvm], the copy of a process's memory that [fork] gives to
    the child. *)

From S2P Require Import Prelude Defs Spinlock CString Kernel Cprintf Sched Kalloc Vm.
Local Open Scope kernel_scope.

(** ** mappages on whole pages *)

Lemma mappages_pages pgdir va size pa perm ps o k :
  vm_ok pgdir ps k → va `mod` 4096 = 0 → size `mod` 4096 = 0 → 0 < size → 0 ≤ va → va + size ≤ 4294967296 →
  0 ≤ pa → pa + size ≤ 4294967296 →
  (∀ i, 0 ≤ i < size / 4096 → Z.land (pte_val (k_mem k) pgdir (va + 4096 * i)) PTE_P = 0) →
  ∃ r ps' k', mappages pgdir va size pa perm o k = Ok r k' o ∧
    mapped pgdir va pa perm (Z.to_nat (size / 4096)) ps k ps' k' r.
Proof.
  intros Hok Hva Hsz Hpos Hv Hve Hp Hpe Hnp. unfold mappages. rewrite (u32_small (va + size - 1)) by lia.
  set (n := Z.to_nat (size / 4096 - 1)).
  assert (Z.of_nat n = size / 4096 - 1) as En by (unfold n; dlia).
  assert (size = 4096 * (size / 4096)) as Es by dlia.
  rewrite !PGROUNDDOWN_spec by lia. replace (va - va `mod` 4096) with va by lia.
  replace (va + size - 1 - (va + size - 1) `mod` 4096) with (va + 4096 * Z.of_nat n) by dlia.
  replace (Z.to_nat (size / 4096)) with (S n) by lia.
  apply mappages_loop_spec; try done; try lia.
  - pose proof NPAGES_eq. lia.
  - intros i Hi. apply Hnp. lia.
Qed.

(** There are free pages for all the tables a directory can have. *)
Definition room (pgdir : Z) (ps : list Z) (k : kernel) : Prop := (1024 < length ps + tables (k_mem k) pgdir)%nat.

Lemma took_room pgdir ps k ps' k' : took pgdir ps k ps' k' → room pgdir ps k → room pgdir ps' k'.
Proof. intros H. unfold room. rewrite (tk_count _ _ _ _ _ H). done. Qed.
Lemma room_left pgdir ps k : room pgdir ps k → ps ≠ [].
Proof. intros H ->. unfold room in H. cbn [length] in H. pose proof (tables_le (k_mem k) pgdir). lia. Qed.
Lemma mapped_room pgdir va pa perm n ps k ps' k' r :
  mapped pgdir va pa perm n ps k ps' k' r → room pgdir ps k → r = 0 ∧ room pgdir ps' k'.
Proof.
  intros Hm Hr. pose proof (took_room _ _ _ _ _ (mp_took _ _ _ _ _ _ _ _ _ _ Hm) Hr) as Hr'. split; [|done].
  destruct (mp_ret _ _ _ _ _ _ _ _ _ _ Hm) as [?|E]; [done|]. exfalso.
  by apply (room_left _ _ _ Hr'), (mp_fail _ _ _ _ _ _ _ _ _ _ Hm).
Qed.

(** ** An empty directory *)

Definition new_dir (d : Z) (k : kernel) : kernel := set_k_mem (memset (k_mem k) d 0 PGSIZE) (kpopped k).

Lemma new_dir_none d k i : 0 ≤ i < 1024 → pgtab_at (k_mem (new_dir d k)) d i = None.
Proof.
  intros Hi. unfold pgtab_at, new_dir. cbn [k_mem set_k_mem]. destruct (slot_in d i Hi).
  by rewrite ld32_memset_in.
Qed.
Lemma new_dir_pte d k va : 0 ≤ va < 4294967296 → pte_val (k_mem (new_dir d k)) d va = 0.
Proof. intros H. unfold pte_val, pte_addr. by rewrite new_dir_none by (by apply PDX_range). Qed.
Lemma new_dir_ok d ps k : free_pages (d :: ps) k → kmem_ready k → vm_ok d ps (new_dir d k).
Proof.
  intros Hf Hr. pose proof (free_page_pt _ _ d Hf ltac:(set_solver)) as Hd.
  pose proof (fp_nodup _ _ Hf) as Hn. apply NoDup_cons in Hn as [Hn _].
  assert (∀ i p, 0 ≤ i < 1024 → pgtab_at (k_mem (new_dir d k)) d i ≠ Some p) as Hno
    by (intros; by rewrite new_dir_none).
  split; [split; [done|intros i p Hi Hp; by destruct (Hno i p)|intros i j p Hi Hj Hp; by destruct (Hno i p)]| |done|intros i p Hi Hp; by destruct (Hno i p)|by apply (kmem_ready_ext k)].
  apply free_pages_mem; [by eapply kpopped_free_pages|]. intros p x Hp Hx. apply memset_out.
  eapply in_page_apart; [|exact Hd| |exact Hx]; [apply (free_page_pt _ _ _ Hf); set_solver|by intros ->].
Qed.

(** ** setupkvm *)

(** The entry of [va] that the rows of a table like [kmap] ask for. *)
Definition row_size (r : Z * Z * Z * Z) : Z := let '(_, s, e, _) := r in u32 (e - s).
Definition in_row (r : Z * Z * Z * Z) (va : Z) : Prop := r.1.1.1 ≤ va < r.1.1.1 + row_size r.
#[export] Instance in_row_dec r va : Decision (in_row r va).
Proof. unfold in_row. apply _. Defined.
Fixpoint rows_pte (l : list (Z * Z * Z * Z)) (va : Z) : option Z :=
  match l with
  | [] => None
  | r :: l' =>
      if decide (in_row r va) then Some (u32 (Z.lor (Z.lor (r.1.1.2 + (va - r.1.1.1)) r.2) PTE_P)) else rows_pte l' va
  end.

Record row_ok (r : Z * Z * Z * Z) : Prop := {
  ro_va : r.1.1.1 `mod` 4096 = 0;
  ro_size : row_size r `mod` 4096 = 0 ∧ 0 < row_size r;
  ro_end : 0 ≤ r.1.1.1 ∧ r.1.1.1 + row_size r ≤ 4294967296;
  ro_pa : 0 ≤ r.1.1.2 ∧ r.1.1.2 + row_size r ≤ 4294967296
}.
Fixpoint rows_ok (l : list (Z * Z * Z * Z)) : Prop :=
  match l with
  | [] => True
  | r :: l' => row_ok r ∧ (∀ va, in_row r va → rows_pte l' va = None) ∧ rows_ok l'
  end.

(** What a run that maps pages in directory [d] leaves alone. *)
Record dir_grown (d : Z) (ps : list Z) (k : kernel) (ps' : list Z) (k' : kernel) : Prop := {
  gr_ok : vm_ok d ps' k';
  gr_took : took d ps k ps' k';
  gr_out x : outside (k_mem k) d ps x → outside (k_mem k') d ps' x ∧ k_mem k' x = k_mem k x;
  gr_frame : k' = set_k_kmem (k_kmem k') (set_k_mem (k_mem k') k)
}.
Lemma dir_grown_refl d ps k : vm_ok d ps k → dir_grown d ps k ps k.
Proof. intros H. split; [done|apply took_refl|done|by destruct k]. Qed.
Lemma dir_grown_trans d ps k ps1 k1 ps2 k2 : dir_grown d ps k ps1 k1 → dir_grown d ps1 k1 ps2 k2 → dir_grown d ps k ps2 k2.
Proof.
  intros [H1 T1 O1 F1] [H2 T2 O2 F2]. split; [done|by eapply took_trans| |rewrite F2, F1; by destruct k].
  intros x Hx. destruct (O1 x Hx) as [Hx1 E1], (O2 x) as [Hx2 E2]; [by apply O1|]. split; [done|]. by rewrite E2.
Qed.
Lemma mapped_grown pgdir va pa perm n ps k ps' k' r : mapped pgdir va pa perm n ps k ps' k' r → dir_grown pgdir ps k ps' k'.
Proof. intros []. by split. Qed.

Lemma setupkvm_loop_spec d l ps o k :
  rows_ok l → vm_ok d ps k → room d ps k →
  (∀ va, 0 ≤ va < 4294967296 → rows_pte l va ≠ None → pte_val (k_mem k) d va = 0) →
  ∃ ps' k', setupkvm_loop d l o k = Ok d k' o ∧ dir_grown d ps k ps' k' ∧
    (∀ va, 0 ≤ va < 4294967296 → va `mod` 4096 = 0 →
       pte_val (k_mem k') d va = default (pte_val (k_mem k) d va) (rows_pte l va)).
Proof.
  revert ps k. induction l as [|[[[virt s] e] perm] l IH]; intros ps k Hl Hok Hroom Hz.
  { exists ps, k. split; [done|]. split; [by apply dir_grown_refl|done]. }
  destruct Hl as ([Hva [Hsz Hpos] [Hv Hve] [Hp Hpe]] & Hdis & Hl). cbn [fst snd row_size] in *.
  set (size := u32 (e - s)) in *.
  destruct (mappages_pages d virt size s perm ps o k Hok Hva Hsz Hpos Hv Hve Hp Hpe) as (r & ps1 & k1 & Hm & Hmp).
  { intros i Hi. rewrite Hz; [done|dlia|]. cbn [rows_pte]. rewrite decide_True; [done|]. unfold in_row. cbn. fold size. dlia. }
  destruct (mapped_room _ _ _ _ _ _ _ _ _ _ Hmp Hroom) as [-> Hroom1].
  assert (∀ va, 0 ≤ va < 4294967296 → va `mod` 4096 = 0 → pte_val (k_mem k1) d va =
    if decide (in_row (virt, s, e, perm) va) then u32 (Z.lor (Z.lor (s + (va - virt)) perm) PTE_P) else pte_val (k_mem k) d va) as Hpte.
  { intros va Hr Ha. case_decide as Hin; unfold in_row in Hin; cbn in Hin; fold size in Hin.
    - replace va with (virt + 4096 * ((va - virt) / 4096)) at 1 by dlia.
      rewrite (mp_new _ _ _ _ _ _ _ _ _ _ Hmp) by (done || dlia). do 4 f_equal. dlia.
    - apply (mp_old _ _ _ _ _ _ _ _ _ _ Hmp); [done|]. dlia. }
  assert (∀ va, 0 ≤ va < 4294967296 → ¬ in_row (virt, s, e, perm) va → pte_val (k_mem k1) d va = pte_val (k_mem k) d va) as Hold.
  { intros va Hr Hin. apply (mp_old _ _ _ _ _ _ _ _ _ _ Hmp); [done|]. unfold in_row in Hin; cbn in Hin; fold size in Hin. dlia. }
  destruct (IH ps1 k1 Hl (mp_ok _ _ _ _ _ _ _ _ _ _ Hmp) Hroom1) as (ps2 & k2 & Hrun & Hg & Hpte2).
  { intros va Hr Hin. assert (¬ in_row (virt, s, e, perm) va) as Hn by (intros Hi; by apply Hin, Hdis).
    rewrite Hold by done. apply Hz; [done|]. cbn [rows_pte]. by rewrite decide_False. }
  exists ps2, k2. split_and!.
  - cbn [setupkvm_loop]. fold size. by rewrite (bind_ok _ _ _ _ _ _ _ Hm).
  - exact (dir_grown_trans _ _ _ _ _ _ _ (mapped_grown _ _ _ _ _ _ _ _ _ _ Hmp) Hg).
  - intros va Hr Ha. rewrite Hpte2 by done. cbn [rows_pte]. rewrite Hpte by done. case_decide as Hin; [by rewrite (Hdis _ Hin)|done].
Qed.

(** The entry every address space has for the page at [va]: the I/O space and the
    kernel's data writable, its code read-only, physical memory at KERNBASE, the devices
    at their own addresses; none of it for the user. *)
Definition kpte (data va : Z) : Z :=
  if va <? KERNBASE then 0
  else if va <? KERNLINK then Z.lor (Z.lor (va - KERNBASE) PTE_W) PTE_P
  else if va <? data then Z.lor (va - KERNBASE) PTE_P
  else if va <? KERNBASE + PHYSTOP then Z.lor (Z.lor (va - KERNBASE) PTE_W) PTE_P
  else if va <? DEVSPACE then 0
  else Z.lor (Z.lor va PTE_W) PTE_P.

(** The linker puts the data segment on a page of its own inside physical memory. *)
Record data_ok (data : Z) : Prop := {
  do_page : data `mod` 4096 = 0;
  do_range : KERNLINK < data < KERNBASE + PHYSTOP
}.

Ltac kconst := unfold KERNLINK, KERNBASE, EXTMEM, PHYSTOP, DEVSPACE, PGSIZE in *.

Lemma kmap_sizes data : data_ok data →
  V2P KERNLINK = EXTMEM ∧ V2P data = data - KERNBASE ∧
  u32 (EXTMEM - 0) = EXTMEM ∧ u32 (data - KERNBASE - EXTMEM) = data - KERNLINK ∧
  u32 (PHYSTOP - (data - KERNBASE)) = KERNBASE + PHYSTOP - data ∧ u32 (0 - DEVSPACE) = 4294967296 - DEVSPACE.
Proof.
  intros [Hp Hr]. split_and!; [done|unfold V2P; apply u32_small; kconst; lia|done|..|done];
    (rewrite u32_small by (kconst; lia)); kconst; lia.
Qed.

Lemma kmap_ok data : data_ok data → rows_ok (kmap data).
Proof.
  intros Hd. destruct (kmap_sizes data Hd) as (E1 & E2 & S1 & S2 & S3 & S4). destruct Hd as [Hp Hr].
  unfold kmap, rows_ok. rewrite E1, E2.
  repeat split; cbn [fst snd row_size]; rewrite ?S1, ?S2, ?S3, ?S4; try (kconst; dlia).
  all: intros va Hin; unfold in_row in Hin; cbn [fst snd row_size] in Hin; rewrite ?S1, ?S2, ?S3, ?S4 in Hin; cbn [rows_pte].
  all: repeat (rewrite decide_False; [|unfold in_row; cbn [fst snd row_size]; rewrite ?S1, ?S2, ?S3, ?S4; kconst; lia]); done.
Qed.

Lemma kmap_pte data va : data_ok data → 0 ≤ va < 4294967296 → va `mod` 4096 = 0 → default 0 (rows_pte (kmap data) va) = kpte data va.
Proof.
  intros Hd Hva Ha. destruct (kmap_sizes data Hd) as (E1 & E2 & S1 & S2 & S3 & S4). destruct Hd as [Hp Hr].
  assert (∀ x f, 0 ≤ x < 4294967296 → x `mod` 4096 = 0 → 0 ≤ f < 4096 → u32 (Z.lor x f) = Z.lor x f) as Hu.
  { intros x f Hx Hx' Hf. rewrite lor_low by done. apply u32_small. dlia. }
  unfold kmap, kpte. rewrite E1, E2. cbn [rows_pte].
  unfold PTE_W, PTE_P. rewrite <- !Z.lor_assoc. change (Z.lor 2 1) with 3. change (Z.lor 0 1) with 1.
  repeat case_decide; repeat match goal with
    | H : in_row _ _ |- _ => unfold in_row in H; cbn [fst snd row_size] in H; rewrite ?S1, ?S2, ?S3, ?S4 in H
    | H : ¬ in_row _ _ |- _ => unfold in_row in H; cbn [fst snd row_size] in H; rewrite ?S1, ?S2, ?S3, ?S4 in H
    end; cbn [fst snd default]; case_tests; try (kconst; lia).
  all: cbn [id]; change (Z.lor 2 1) with 3; change (Z.lor 0 1) with 1.
  all: clear S1 S2 S3 S4 E1 E2; rewrite Hu; [f_equal; kconst; lia|kconst; lia| |lia].
  all: match goal with |- ?x `mod` _ = 0 => first [replace x with (va - KERNBASE) by (kconst; lia); kconst; dlia | replace x with va by lia; done] end.
Qed.

(** A directory made from the free pages [ps]. *)
Record new_space (ps : list Z) (k : kernel) (d : Z) (ps' : list Z) (k' : kernel) : Prop := {
  ns_ok : vm_ok d ps' k';
  ns_free : ∃ used, ps = used ++ ps';
  ns_dir : d ∈ ps;
  ns_tab i p : 0 ≤ i < 1024 → pgtab_at (k_mem k') d i = Some p → p ∈ ps;
  ns_mem x : (∀ p, p ∈ ps → ¬ in_page p x) → k_mem k' x = k_mem k x;
  ns_bytes : bytes_ok (k_mem k) → bytes_ok (k_mem k');
  ns_frame : k' = set_k_kmem (k_kmem k') (set_k_mem (k_mem k') k)
}.

Lemma setupkvm_new ps o k :
  free_pages ps k → kmem_ready k → data_ok (k_data k) → (1026 ≤ length ps)%nat →
  ∃ d ps' k', setupkvm o k = Ok d k' o ∧ new_space ps k d ps' k' ∧
    (length ps = 1 + tables (k_mem k') d + length ps')%nat ∧
    ∀ va, 0 ≤ va < 4294967296 → va `mod` 4096 = 0 → pte_val (k_mem k') d va = kpte (k_data k) va.
Proof.
  intros Hf Hr Hd Hlen. pose proof (free_pages_head _ _ Hf) as Hh.
  destruct ps as [|d ps]; [cbn [length] in Hlen; lia|]. cbn in Hh.
  pose proof (free_page_pt _ _ d Hf ltac:(by apply elem_of_cons; left)) as Hpd.
  pose proof (new_dir_ok _ _ _ Hf Hr) as Hok.
  assert (tables (k_mem (new_dir d k)) d = 0%nat) as Ht by (apply tables_none; intros; by apply new_dir_none).
  destruct (setupkvm_loop_spec d (kmap (k_data k)) ps o (new_dir d k)) as (ps' & k' & Hrun & [Hok' Htk Hout Hfr] & Hpte);
    [by apply kmap_ok|done|unfold room; rewrite Ht; cbn [length] in Hlen; lia|intros; by apply new_dir_pte|].
  exists d, ps', k'. split_and!.
  - unfold setupkvm. rewrite (bind_ok _ _ _ _ _ _ _ (kalloc_eq o k Hr)). unfold kalloced. rewrite Hh.
    rewrite (proj2 (Z.eqb_neq d 0)) by (destruct Hpd; kconst; lia). unfold upd_mem. mrun.
    change (DEVSPACE <? P2V PHYSTOP) with false. cbv beta iota. mrun. exact Hrun.
  - assert (∀ p, p ∈ ps → p ∈ d :: ps) as Hin by (intros; by apply elem_of_cons; right).
    assert (d ∈ d :: ps) as Hind by (by apply elem_of_cons; left).
    split; [done| |done| | | |].
    + destruct (tk_sub _ _ _ _ _ Htk) as [u ->]. by exists (d :: u).
    + intros i p Hi Hp. destruct (tk_tab _ _ _ _ _ Htk i p Hi Hp) as [E|E]; [by rewrite new_dir_none in E|by apply Hin].
    + intros x Hx. destruct (Hout x) as [_ ->].
      * split_and!; [by apply Hx|intros p Hp; by apply Hx, Hin|]. intros i p Hi. by rewrite new_dir_none.
      * by apply memset_out, Hx.
    + intros Hb. apply (tk_bytes _ _ _ _ _ Htk). by apply bytes_ok_memset.
    + rewrite Hfr. by destruct k.
  - pose proof (tk_count _ _ _ _ _ Htk) as Hc. rewrite Ht in Hc. cbn [length]. lia.
  - intros va Hva Ha. rewrite Hpte, new_dir_pte by done. by apply kmap_pte.
Qed.

(** [C16] setupkvm.  With memory for the directory and its tables, the new directory maps
    exactly what the kernel needs, whatever was in the pages before: no page below
    KERNBASE, the kernel's code read-only, its data and the rest of physical memory
    writable, and the devices.  The directory and the tables come from the free list, and
    nothing outside the free pages changes. *)
Theorem setupkvm_maps ps o k :
  free_pages ps k → kmem_ready k → data_ok (k_data k) → (1026 ≤ length ps)%nat →
  ∃ d ps' k', setupkvm o k = Ok d k' o ∧ new_space ps k d ps' k' ∧
    ∀ va, 0 ≤ va < 4294967296 → va `mod` 4096 = 0 → pte_val (k_mem k') d va = kpte (k_data k) va.
Proof.
  intros Hf Hr Hd Hlen. destruct (setupkvm_new ps o k Hf Hr Hd Hlen) as (d & ps' & k' & H1 & H2 & _ & H3). by exists d, ps', k'.
Qed.

(** ** Taking a page *)

(** The head of the free list, allocated and filled. *)
Definition page_taken (m : memory) (k : kernel) : kernel := set_k_mem m (kpopped k).

Lemma pgtab_at_ext m m' pgdir i :
  0 ≤ i < 1024 → (∀ x, in_page pgdir x → m' x = m x) → pgtab_at m' pgdir i = pgtab_at m pgdir i.
Proof.
  intros Hi H. unfold pgtab_at. destruct (slot_in pgdir i Hi) as [H1 H2].
  rewrite (ld32_ext m' m); [done|]. intros x Hx. apply H. unfold in_page in *. lia.
Qed.
Lemma pte_val_ext m m' pgdir va :
  pt_wf m pgdir → 0 ≤ va < 4294967296 → (∀ x, in_page pgdir x → m' x = m x) →
  (∀ i p x, 0 ≤ i < 1024 → pgtab_at m pgdir i = Some p → in_page p x → m' x = m x) →
  pte_val m' pgdir va = pte_val m pgdir va.
Proof.
  intros Hwf Hva Hd Ht. pose proof (PDX_range va Hva) as Hi. pose proof (PTX_range va Hva) as Hx.
  unfold pte_val, pte_addr. rewrite (pgtab_at_ext m m') by done. destruct (pgtab_at m pgdir (PDX va)) as [p|] eqn:E; [|done].
  cbn. apply ld32_ext. intros x Hx'. destruct (slot_in p _ Hx). apply (Ht _ _ _ Hi E). unfold in_page in *. lia.
Qed.

Lemma vm_ok_take pgdir q ps k m :
  vm_ok pgdir (q :: ps) k → (∀ x, ¬ in_page q x → m x = k_mem k x) →
  vm_ok pgdir ps (page_taken m k) ∧
  (∀ i, 0 ≤ i < 1024 → pgtab_at m pgdir i = pgtab_at (k_mem k) pgdir i) ∧
  (∀ va, 0 ≤ va < 4294967296 → pte_val m pgdir va = pte_val (k_mem k) pgdir va).
Proof.
  intros Hok Hm. pose proof Hok as [Hwf Hf Hd Ht Hr].
  assert (q ∈ q :: ps) as Hq by (by apply elem_of_cons; left).
  assert (∀ p, p ∈ ps → p ∈ q :: ps) as Hin by (intros; by apply elem_of_cons; right).
  pose proof (free_page_pt _ _ _ Hf Hq) as Hqp. pose proof (fp_nodup _ _ Hf) as Hn. apply NoDup_cons in Hn as [Hqn _].
  assert (∀ p x, pt_page p → p ≠ q → in_page p x → m x = k_mem k x) as Hpg.
  { intros p x Hp Hne Hx. apply Hm. by eapply (in_page_apart p q). }
  assert (∀ i, 0 ≤ i < 1024 → pgtab_at m pgdir i = pgtab_at (k_mem k) pgdir i) as Htab.
  { intros i Hi. apply pgtab_at_ext; [done|]. intros x. apply Hpg; [apply Hwf|]. by intros ->. }
  split_and!; [|done|].
  - split; [split|..].
    + apply Hwf.
    + intros i p Hi. cbn. rewrite Htab by done. by apply (pw_tab _ _ Hwf).
    + intros i j p Hi Hj. cbn. rewrite !Htab by done. by apply (pw_inj _ _ Hwf).
    + apply free_pages_mem; [by eapply kpopped_free_pages|]. intros p x Hp Hx. apply (Hpg p); [|by intros ->|done].
      by apply (free_page_pt _ _ _ Hf), Hin.
    + intros H. by apply Hd, Hin.
    + intros i p Hi. cbn. rewrite Htab by done. intros Hp Hps. by apply (Ht i p Hi Hp), Hin.
    + by apply (kmem_ready_ext k).
  - intros va Hva. apply pte_val_ext; [done|done| |].
    + intros x. apply Hpg; [apply Hwf|]. by intros ->.
    + intros i p x Hi Hp. apply Hpg; [by apply (pw_tab _ _ Hwf i)|]. intros ->. by apply (Ht i q Hi Hp).
Qed.

(** ** copyuvm *)

(** The pages of [pgdir] below [sz] are there, and neither free nor part of the page table. *)
Record user_space (pgdir sz : Z) (ps : list Z) (k : kernel) : Prop := {
  us_ok : vm_ok pgdir ps k;
  us_present j : 0 ≤ j → 4096 * j < sz → Z.land (pte_val (k_mem k) pgdir (4096 * j)) PTE_P ≠ 0;
  us_page j : 0 ≤ j → 4096 * j < sz → pt_page (user_page (k_mem k) pgdir (4096 * j)) ∧ user_page (k_mem k) pgdir (4096 * j) ∉ ps
}.

(** A new directory leaves the other ones alone. *)
Lemma other_space pgdir ps k d ps' k' :
  vm_ok pgdir ps k → new_space ps k d ps' k' →
  (∀ i, 0 ≤ i < 1024 → pgtab_at (k_mem k') pgdir i = pgtab_at (k_mem k) pgdir i) ∧
  (∀ va, 0 ≤ va < 4294967296 → pte_val (k_mem k') pgdir va = pte_val (k_mem k) pgdir va) ∧
  pt_wf (k_mem k') pgdir.
Proof.
  intros [Hwf Hf Hd Ht Hr] Hn.
  assert (∀ p x, pt_page p → p ∉ ps → in_page p x → k_mem k' x = k_mem k x) as Hpg.
  { intros p x Hp Hps Hx. apply (ns_mem _ _ _ _ _ Hn). intros q Hq. eapply (in_page_apart p q); [done| | |done].
    - by apply (free_page_pt _ _ _ Hf).
    - by intros ->. }
  assert (∀ i, 0 ≤ i < 1024 → pgtab_at (k_mem k') pgdir i = pgtab_at (k_mem k) pgdir i) as Htab.
  { intros i Hi. apply pgtab_at_ext; [done|]. intros x. apply Hpg; [apply Hwf|done]. }
  split_and!; [done| |split].
  - intros va Hva. apply pte_val_ext; [done|done|intros x; apply Hpg; [apply Hwf|done]|].
    intros i p x Hi Hp. apply Hpg; [by apply (pw_tab _ _ Hwf i)|by apply (Ht i)].
  - apply Hwf.
  - intros i p Hi. rewrite Htab by done. by apply (pw_tab _ _ Hwf).
  - intros i j p Hi Hj. rewrite !Htab by done. by apply (pw_inj _ _ Hwf).
Qed.

(** After [i] of the [n] pages: [qs] are the new ones. *)
Record copying (ps0 : list Z) (k0 : kernel) (pgdir d : Z) (n i : nat) (qs ps : list Z) (k : kernel) : Prop := {
  cp_new : new_space ps0 k0 d ps k;
  cp_room : (1024 + (n - i) < length ps + tables (k_mem k) d)%nat;
  cp_len : length qs = i;
  cp_nodup : NoDup qs;
  cp_pages q : q ∈ qs → q ∈ ps0 ∧ (q ∉ ps) ∧ q ≠ d ∧ (∀ j p, 0 ≤ j < 1024 → pgtab_at (k_mem k) d j = Some p → p ≠ q);
  cp_user j q : qs !! j = Some q →
    let va := 4096 * Z.of_nat j in
    pte_val (k_mem k) d va = u32 (Z.lor (Z.lor (V2P q) (PTE_FLAGS (pte_val (k_mem k0) pgdir va))) PTE_P) ∧
    ∀ b, 0 ≤ b < 4096 → k_mem k (q + b) = k_mem k0 (user_page (k_mem k0) pgdir va + b);
  cp_rest va : 0 ≤ va < 4294967296 → va `mod` 4096 = 0 → Z.of_nat i ≤ va / 4096 → pte_val (k_mem k) d va = kpte (k_data k0) va
}.

(** The free list gets shorter and the directory larger. *)
Lemma new_space_take ps0 k0 d q ps k m :
  new_space ps0 k0 d (q :: ps) k → free_pages ps0 k0 → (∀ x, ¬ in_page q x → m x = k_mem k x) → (bytes_ok (k_mem k) → bytes_ok m) →
  new_space ps0 k0 d ps (page_taken m k).
Proof.
  intros [Hok [u Hu] Hd Ht Hm Hb Hfr] Hf Hmm Hbm. destruct (vm_ok_take _ _ _ _ _ Hok Hmm) as (Hok' & Htab & _). split.
  - done.
  - exists (u ++ [q]). by rewrite <- app_assoc.
  - done.
  - intros i p Hi. cbn. rewrite Htab by done. by apply Ht.
  - intros x Hx. cbn. rewrite Hmm; [by apply Hm|]. apply Hx. rewrite Hu. apply elem_of_app. right. by apply elem_of_cons; left.
  - intros H. cbn. by apply Hbm, Hb.
  - unfold page_taken. rewrite Hfr. unfold kpopped. by destruct k0.
Qed.
Lemma new_space_grown ps0 k0 d ps k ps' k' : new_space ps0 k0 d ps k → dir_grown d ps k ps' k' → new_space ps0 k0 d ps' k'.
Proof.
  intros [Hok [u Hu] Hd Ht Hm Hb Hfr] [Hok' Htk Hout Hfr']. split.
  - done.
  - destruct (tk_sub _ _ _ _ _ Htk) as [u' ->]. exists (u ++ u'). by rewrite <- app_assoc.
  - done.
  - intros i p Hi Hp. destruct (tk_tab _ _ _ _ _ Htk i p Hi Hp) as [E|E]; [by apply (Ht i)|]. rewrite Hu. apply elem_of_app. by right.
  - intros x Hx. destruct (Hout x) as [_ ->]; [|by apply Hm]. split_and!; [by apply Hx| |].
    + intros p Hp. apply Hx. rewrite Hu. apply elem_of_app. by right.
    + intros i p Hi Hp. by apply Hx, (Ht i).
  - intros H. by apply (tk_bytes _ _ _ _ _ Htk), Hb.
  - rewrite Hfr', Hfr. by destruct k0.
Qed.

Section Copy.
Context (ps0 : list Z) (k0 : kernel) (pgdir d sz : Z) (n : nat).
Context (Hus : user_space pgdir sz ps0 k0) (Hb0 : bytes_ok (k_mem k0)) (Hsz : 0 ≤ sz ≤ KERNBASE) (Hn : n = Z.to_nat (PGROUNDUP sz / 4096)).

Lemma pages_of_sz i : (i < n)%nat ↔ 4096 * Z.of_nat i < sz.
Proof. rewrite Hn, PGROUNDUP_spec by (kconst; lia). kconst. dlia. Qed.

(** The page the loop is at, in the parent. *)
Lemma copy_source i ps qs k o :
  copying ps0 k0 pgdir d n i qs ps k → (i < n)%nat →
  let va := 4096 * Z.of_nat i in
  ∃ a, walkpgdir pgdir va false o k = Ok a k o ∧ a ≠ 0 ∧ ld32 (k_mem k) a = pte_val (k_mem k0) pgdir va.
Proof.
  intros Hc Hi va. apply pages_of_sz in Hi. destruct (other_space _ _ _ _ _ _ (us_ok _ _ _ _ Hus) (cp_new _ _ _ _ _ _ _ _ _ Hc)) as (Htab & Hpte & Hwf).
  assert (0 ≤ va < 4294967296) as Hva by (unfold va; kconst; lia). pose proof (us_present _ _ _ _ Hus (Z.of_nat i) ltac:(lia) Hi) as Hp. fold va in Hp.
  destruct (pte_addr (k_mem k) pgdir va) as [a|] eqn:E.
  - exists a. split_and!.
    + unfold pte_addr in E. destruct (pgtab_at (k_mem k) pgdir (PDX va)) as [p|] eqn:Ep; simplify_eq/=. by apply walkpgdir_present.
    + by eapply pte_addr_pos.
    + rewrite (pte_val_addr _ _ _ _ E). by apply Hpte.
  - exfalso. apply Hp. rewrite <- Hpte by done. unfold pte_val. by rewrite E.
Qed.

(** A page that is not free and not part of the directory stays as it is. *)
Lemma page_outside m ps q x :
  pt_wf m d → (∀ p, p ∈ ps → pt_page p) → pt_page q → q ∉ ps → q ≠ d →
  (∀ j p, 0 ≤ j < 1024 → pgtab_at m d j = Some p → p ≠ q) → in_page q x → outside m d ps x.
Proof.
  intros Hwf Hps Hq Hqn Hqd Hqt Hx. split_and!.
  - eapply (in_page_apart q d); [done|apply Hwf|done|done].
  - intros p Hp. eapply (in_page_apart q p); [done|by apply Hps|by intros ->|done].
  - intros j p Hj Hp. eapply (in_page_apart q p); [done|by apply (pw_tab _ _ Hwf j)| |done]. intros ->. by eapply Hqt.
Qed.

(** One more page: [m] is the memory with its contents in place. *)
Lemma copying_page i qs q ps k m ps' k2 :
  let va := 4096 * Z.of_nat i in
  copying ps0 k0 pgdir d n i qs (q :: ps) k → (i < n)%nat →
  (∀ x, ¬ in_page q x → m x = k_mem k x) → bytes_ok m →
  (∀ b, 0 ≤ b < 4096 → m (q + b) = k_mem k0 (user_page (k_mem k0) pgdir va + b)) →
  mapped d va (V2P q) (PTE_FLAGS (pte_val (k_mem k0) pgdir va)) 1 ps (page_taken m k) ps' k2 0 →
  copying ps0 k0 pgdir d n (S i) (qs ++ [q]) ps' k2.
Proof.
  intros va [Hnew Hroom Hlen Hnd Hpg Huser Hrest] Hi Hmo Hbm Hmc Hmp.
  pose proof (proj1 (pages_of_sz i) Hi) as Hlt. pose proof (ns_ok _ _ _ _ _ Hnew) as Hok. pose proof Hok as [Hwf Hf Hd Ht Hr].
  pose proof (vo_free _ _ _ (us_ok _ _ _ _ Hus)) as Hf0. destruct (ns_free _ _ _ _ _ Hnew) as [used Hu].
  assert (∀ p, p ∈ q :: ps → p ∈ ps0) as Hsub by (intros p ?; rewrite Hu; apply elem_of_app; by right).
  assert (∀ p, p ∈ ps → p ∈ q :: ps) as Hcons by (intros; by apply elem_of_cons; right).
  assert (q ∈ q :: ps) as Hq by (by apply elem_of_cons; left).
  pose proof (fp_nodup _ _ Hf) as Hnq. apply NoDup_cons in Hnq as [Hqn _].
  destruct (vm_ok_take _ _ _ _ _ Hok Hmo) as (Hok1 & Htab1 & Hpte1). pose proof (mapped_grown _ _ _ _ _ _ _ _ _ _ Hmp) as Hg.
  destruct (tk_sub _ _ _ _ _ (gr_took _ _ _ _ _ Hg)) as [used' Hu'].
  assert (∀ p, p ∈ ps' → p ∈ ps) as Hsub' by (intros p ?; rewrite Hu'; apply elem_of_app; by right).
  assert (∀ p, p ∈ qs ++ [q] → p ∈ ps0 ∧ (p ∉ ps) ∧ p ≠ d ∧ ∀ j t, 0 ≤ j < 1024 → pgtab_at (k_mem k) d j = Some t → t ≠ p) as Hpg'.
  { intros p [Hp|Hp]%elem_of_app.
    - destruct (Hpg p Hp) as (H1 & H2 & H3 & H4). split_and!; [done| |done|done]. by intros H%Hcons.
    - apply list_elem_of_singleton in Hp as ->. split_and!; [by apply Hsub|done|by intros <-|]. intros j t Hj Hp ->. by apply (Ht j q). }
  assert (∀ p x, p ∈ qs ++ [q] → in_page p x → k_mem k2 x = m x) as Hkeep.
  { intros p x Hp Hx. destruct (Hpg' p Hp) as (H1 & H2 & H3 & H4). apply (gr_out _ _ _ _ _ Hg).
    apply (page_outside m ps p); [apply Hok1| |by apply (free_page_pt _ _ _ Hf0)|done|done| |done].
    - intros t Htt. by apply (free_page_pt _ _ _ Hf0), Hsub, Hcons.
    - intros j t Hj. rewrite Htab1 by done. by apply H4. }
  split.
  - eapply new_space_grown; [|exact Hg]. by apply (new_space_take _ _ _ q).
  - pose proof (tk_count _ _ _ _ _ (gr_took _ _ _ _ _ Hg)) as Hcnt. change (k_mem (page_taken m k)) with m in Hcnt.
    rewrite (tables_ext (k_mem k) m) in Hcnt by done. cbn [length] in Hroom. lia.
  - rewrite length_app. cbn [length]. lia.
  - apply NoDup_app. split_and!; [done| |apply NoDup_singleton]. intros p Hp Hp'. apply list_elem_of_singleton in Hp' as ->. destruct (Hpg q Hp) as (_ & H & _). by apply H.
  - intros p Hp. destruct (Hpg' p Hp) as (H1 & H2 & H3 & H4). split_and!; [done| |done|]. { by intros H%Hsub'. }
    intros j t Hj Ht' ->. destruct (tk_tab _ _ _ _ _ (gr_took _ _ _ _ _ Hg) j p Hj Ht') as [E|E]; [|done].
    change (k_mem (page_taken m k)) with m in E. rewrite Htab1 in E by done. by eapply H4.
  - intros j p Hj. cbv zeta. pose proof (list_elem_of_lookup_2 _ _ _ Hj) as Hin. apply lookup_app_Some in Hj as [Hj|[Hge Hj]].
    + destruct (Huser j p Hj) as [Hu1 Hu2]. apply lookup_lt_Some in Hj as Hjl. split.
      * rewrite (mp_old _ _ _ _ _ _ _ _ _ _ Hmp) by (unfold va; kconst; dlia). cbn. rewrite Hpte1 by (kconst; dlia). exact Hu1.
      * intros b Hb. rewrite (Hkeep p) by (done || unfold in_page; lia). rewrite Hmo; [by apply Hu2|].
        assert (p ∈ qs) as Hpq by (by eapply list_elem_of_lookup_2). destruct (Hpg p Hpq) as (H1 & H2 & _).
        eapply (in_page_apart p q); [by apply (free_page_pt _ _ _ Hf0)|by apply (free_page_pt _ _ _ Hf)| |unfold in_page; lia]. by intros ->.
    + assert (j = i ∧ p = q) as [-> ->].
      { destruct (j - length qs)%nat as [|u] eqn:Eu; [|by destruct u]. cbn in Hj. simplify_eq. split; [lia|done]. }
      fold va. split.
      * pose proof (mp_new _ _ _ _ _ _ _ _ _ _ Hmp 0 eq_refl ltac:(lia)) as E. by rewrite Z.mul_0_r, !Z.add_0_r in E.
      * intros b Hb. rewrite (Hkeep q) by (done || unfold in_page; lia). by apply Hmc.
  - intros va' Hva' Ha' Hge. rewrite (mp_old _ _ _ _ _ _ _ _ _ _ Hmp) by (unfold va; kconst; dlia). cbn. rewrite Hpte1 by done. apply Hrest; [done|done|lia].
Qed.

Lemma copyuvm_step f i qs ps k o :
  copying ps0 k0 pgdir d n i qs ps k → (i < n)%nat →
  ∃ q ps' k', copying ps0 k0 pgdir d n (S i) (qs ++ [q]) ps' k' ∧
    copyuvm_loop (S f) d pgdir (4096 * Z.of_nat i) sz o k = copyuvm_loop f d pgdir (4096 * Z.of_nat (S i)) sz o k'.
Proof.
  intros Hc Hi. pose proof Hc as [Hnew Hroom _ _ _ _ Hrest]. pose proof (proj1 (pages_of_sz i) Hi) as Hlt.
  destruct (copy_source i ps qs k o Hc Hi) as (a & Hw & Ha & He). set (va := 4096 * Z.of_nat i) in *.
  set (e := pte_val (k_mem k0) pgdir va) in *.
  pose proof (us_present _ _ _ _ Hus (Z.of_nat i) ltac:(lia) Hlt) as Hp. fold va in Hp. fold e in Hp.
  destruct (us_page _ _ _ _ Hus (Z.of_nat i) ltac:(lia) Hlt) as [Hsp Hsn]. fold va in Hsp, Hsn.
  assert (ps ≠ []) as Hne by (intros ->; cbn [length] in Hroom; pose proof (tables_le (k_mem k) d); lia).
  destruct ps as [|q ps]; [done|]. pose proof (ns_ok _ _ _ _ _ Hnew) as Hok. pose proof Hok as [Hwf Hf Hd Ht Hr].
  pose proof (free_pages_head _ _ Hf) as Hh. cbn in Hh. pose proof (free_page_pt _ _ q Hf ltac:(by apply elem_of_cons; left)) as Hqp.
  pose proof (vo_free _ _ _ (us_ok _ _ _ _ Hus)) as Hf0.
  set (m := memmove (k_mem k) q (P2V (PTE_ADDR e)) PGSIZE).
  pose proof (ns_bytes _ _ _ _ _ Hnew Hb0) as Hb.
  assert (∀ x, m x = copy (k_mem k) q (P2V (PTE_ADDR e)) PGSIZE x) as Hm by (intros x; by apply memmove_copy).
  assert (∀ x, ¬ in_page q x → m x = k_mem k x) as Hmo.
  { intros x Hx. rewrite Hm. unfold copy, in_page, PGSIZE in *. case_tests. }
  assert (bytes_ok m) as Hbm by (intros x; rewrite Hm; by apply bytes_ok_copy).
  destruct (vm_ok_take _ _ _ _ _ Hok Hmo) as (Hok1 & Htab1 & Hpte1).
  assert (0 ≤ va < KERNBASE ∧ va `mod` 4096 = 0) as [Hva Hal] by (unfold va; dlia).
  destruct (mappages_pages d va PGSIZE (V2P q) (PTE_FLAGS e) ps o (page_taken m k) Hok1 Hal) as (r & ps' & k2 & Hmap & Hmp); try done; try (kconst; lia).
  { unfold V2P. apply u32_range. }
  { destruct Hqp as [_ Hqr]. unfold V2P. rewrite u32_small; kconst; lia. }
  { intros j Hj. replace j with 0 by (unfold PGSIZE in *; dlia). rewrite Z.mul_0_r, Z.add_0_r. cbn.
    rewrite Hpte1 by (kconst; lia). rewrite Hrest; [|kconst; lia|done|unfold va; dlia]. unfold kpte. by rewrite (proj2 (Z.ltb_lt _ _)) by lia. }
  assert (room d ps (page_taken m k)) as Hroom1.
  { unfold room. cbn. rewrite (tables_ext (k_mem k) m) by done. cbn [length] in Hroom. lia. }
  destruct (mapped_room _ _ _ _ _ _ _ _ _ _ Hmp Hroom1) as [-> _].
  exists q, ps', k2. split.
  - apply (copying_page i qs q ps k m); try done. intros b Hbr. fold va. rewrite Hm. unfold copy.
    rewrite (proj2 (Z.leb_le _ _)), (proj2 (Z.ltb_lt _ _)) by (unfold PGSIZE; lia). cbn [andb].
    replace (P2V (PTE_ADDR e) + (q + b - q)) with (user_page (k_mem k0) pgdir va + b) by (unfold user_page; fold e; lia).
    apply (ns_mem _ _ _ _ _ Hnew). intros p Hp'. eapply (in_page_apart _ p); [exact Hsp|by apply (free_page_pt _ _ _ Hf0)|by intros <-|]. unfold in_page. lia.
  - cbn [copyuvm_loop]. rewrite (proj2 (Z.ltb_lt _ _)) by done. rewrite (bind_ok _ _ _ _ _ _ _ Hw).
    rewrite (proj2 (Z.eqb_neq _ _)) by done. unfold rd32. mrun. rewrite He. fold e. rewrite (proj2 (Z.eqb_neq _ _)) by done.
    rewrite (bind_ok _ _ _ _ _ _ _ (kalloc_eq o k Hr)). unfold kalloced. rewrite Hh.
    rewrite (proj2 (Z.eqb_neq q 0)) by (destruct Hqp; kconst; lia). unfold upd_mem. mrun. fold m. change (set_k_mem m (kpopped k)) with (page_taken m k).
    rewrite (bind_ok _ _ _ _ _ _ _ Hmap). cbn. unfold PGSIZE. rewrite u32_small by (kconst; lia). unfold va. do 2 f_equal. lia.
Qed.
End Copy.

(** The two halves of an entry that mappages writes. *)
Lemma pte_parts q e :
  pt_page q → Z.land e PTE_P ≠ 0 →
  let p := u32 (Z.lor (Z.lor (V2P q) (PTE_FLAGS e)) PTE_P) in P2V (PTE_ADDR p) = q ∧ PTE_FLAGS p = PTE_FLAGS e.
Proof.
  intros [Hq Hr] He. assert (V2P q = q - KERNBASE) as -> by (unfold V2P; apply u32_small; kconst; lia).
  assert (∀ x, PTE_FLAGS x = u32 x `mod` 4096) as Hfl by (intros x; unfold PTE_FLAGS; by rewrite (Z.land_ones _ 12)).
  assert (Z.lor (PTE_FLAGS e) PTE_P = PTE_FLAGS e) as El.
  { apply Z.bits_inj'. intros j Hj. rewrite Z.lor_spec. destruct (decide (j = 0)) as [->|Hne].
    - assert (Z.testbit (PTE_FLAGS e) 0 = true) as ->; [|done]. rewrite Hfl, Z.bit0_odd. unfold PTE_P in He. rewrite land_1 in He.
      rewrite Zodd_mod. apply Z.eqb_eq. unfold u32. dlia.
    - replace (Z.testbit PTE_P j) with false; [by rewrite orb_false_r|]. unfold PTE_P. symmetry. rewrite (Z.bits_above_log2 1); [done|lia|cbn; lia]. }
  cbv zeta. rewrite <- Z.lor_assoc, El. assert (0 ≤ PTE_FLAGS e < 4096) as Hf by (rewrite Hfl; dlia).
  rewrite lor_low by (kconst; dlia). rewrite u32_small by (kconst; lia). split.
  - rewrite PTE_ADDR_spec by (kconst; lia). unfold P2V. rewrite u32_small; kconst; dlia.
  - rewrite (Hfl (_ + _)), u32_small by (kconst; lia). kconst. dlia.
Qed.

(** The copy [d] of the first [sz] bytes of [pgdir], in the pages [qs]. *)
Record space_copy (ps : list Z) (k : kernel) (pgdir sz d : Z) (qs ps' : list Z) (k' : kernel) : Prop := {
  sc_new : new_space ps k d ps' k';
  sc_pages : NoDup qs ∧ (∀ q, q ∈ qs → q ∈ ps ∧ (q ∉ ps') ∧ q ≠ d);
  sc_private va : 0 ≤ va < sz → user_page (k_mem k') d va ∈ qs;
  sc_byte va : 0 ≤ va < sz → k_mem k' (user_byte (k_mem k') d va) = k_mem k (user_byte (k_mem k) pgdir va);
  sc_flags va : 0 ≤ va < sz → PTE_FLAGS (pte_val (k_mem k') d va) = PTE_FLAGS (pte_val (k_mem k) pgdir va);
  sc_rest va : PGROUNDUP sz ≤ va < 4294967296 → va `mod` 4096 = 0 → pte_val (k_mem k') d va = kpte (k_data k) va
}.

Section Copied.
Context (ps0 : list Z) (k0 : kernel) (pgdir d sz : Z) (n : nat).
Context (Hus : user_space pgdir sz ps0 k0) (Hb0 : bytes_ok (k_mem k0)) (Hsz : 0 ≤ sz ≤ KERNBASE) (Hn : n = Z.to_nat (PGROUNDUP sz / 4096)).

Lemma copying_done qs ps k : copying ps0 k0 pgdir d n n qs ps k → space_copy ps0 k0 pgdir sz d qs ps k.
Proof.
  intros [Hnew Hroom Hlen Hnd Hpg Huser Hrest]. pose proof (vo_free _ _ _ (us_ok _ _ _ _ Hus)) as Hf0.
  assert (∀ va, 0 ≤ va < sz → ∃ q, q ∈ qs ∧ pt_page q ∧ user_page (k_mem k) d va = q ∧
    PTE_FLAGS (pte_val (k_mem k) d va) = PTE_FLAGS (pte_val (k_mem k0) pgdir va) ∧
    k_mem k (q + va `mod` 4096) = k_mem k0 (user_page (k_mem k0) pgdir va + va `mod` 4096)) as H.
  { intros va Hva. set (j := Z.to_nat (va / 4096)).
    assert (4096 * Z.of_nat j = 4096 * (va / 4096)) as Ej by (unfold j; dlia).
    assert (j < n)%nat as Hj by (apply (pages_of_sz sz n Hsz Hn); dlia).
    destruct (lookup_lt_is_Some_2 qs j ltac:(lia)) as [q Hq]. destruct (Huser j q Hq) as [He Hc]. rewrite Ej in He, Hc.
    assert (q ∈ qs) as Hin by (by eapply list_elem_of_lookup_2). pose proof (free_page_pt _ _ _ Hf0 (proj1 (Hpg q Hin))) as Hqp.
    assert (va / 4096 = 4096 * (va / 4096) / 4096) as Ev by dlia. pose proof (us_present _ _ _ _ Hus (va / 4096) ltac:(dlia) ltac:(dlia)) as Hp.
    destruct (pte_parts q _ Hqp Hp) as [P1 P2]. rewrite <- He in P1, P2. exists q. unfold user_page in *.
    rewrite (pte_val_page (k_mem k) d va (4096 * (va / 4096))), (pte_val_page (k_mem k0) pgdir va (4096 * (va / 4096))) by (kconst; dlia).
    split_and!; [done|done|done|done|]. apply Hc. dlia. }
  split.
  - done.
  - split; [done|]. intros q Hq. destruct (Hpg q Hq) as (H1 & H2 & H3 & _). done.
  - intros va Hva. by destruct (H va Hva) as (q & Hq & _ & -> & _).
  - intros va Hva. unfold user_byte. by destruct (H va Hva) as (q & _ & _ & -> & _ & E).
  - intros va Hva. by destruct (H va Hva) as (q & _ & _ & _ & E & _).
  - intros va Hva Ha. apply Hrest; [rewrite PGROUNDUP_spec in Hva by (kconst; lia); dlia|done|]. rewrite Hn, Z2Nat.id by (rewrite PGROUNDUP_spec by (kconst; lia); dlia).
    apply Z.div_le_mono; lia.
Qed.

Lemma copyuvm_loop_spec m f i qs ps k o :
  copying ps0 k0 pgdir d n i qs ps k → (m + i = n)%nat → (m < f)%nat →
  ∃ qs' ps' k', copyuvm_loop f d pgdir (4096 * Z.of_nat i) sz o k = Ok d k' o ∧ copying ps0 k0 pgdir d n n qs' ps' k'.
Proof.
  revert f i qs ps k. induction m as [|m IH]; intros [|f] i qs ps k Hc Hm Hf; try lia.
  - assert (i = n) as -> by lia. exists qs, ps, k. split; [|done]. cbn [copyuvm_loop].
    destruct (Z.ltb_spec (4096 * Z.of_nat n) sz) as [H|H]; [|done]. apply (pages_of_sz sz n Hsz Hn) in H. lia.
  - destruct (copyuvm_step ps0 k0 pgdir d sz n Hus Hb0 Hsz Hn f i qs ps k o Hc ltac:(lia)) as (q & ps' & k' & Hc' & E).
    rewrite E. apply (IH f (S i) _ _ _ Hc'); lia.
Qed.
End Copied.

(** [C15] copyuvm.  With enough free memory the child's address space is an exact copy of
    the parent's: below [sz] every byte and all permissions are the same, above it there is
    only the kernel's part.  The copies are in pages of their own, all different, taken from
    the free list, and nothing outside the free pages changes, so the parent's memory is as
    it was and neither sees what the other writes. *)
Theorem copyuvm_copies pgdir sz ps o k :
  user_space pgdir sz ps k → bytes_ok (k_mem k) → data_ok (k_data k) → 0 ≤ sz ≤ KERNBASE →
  1026 + PGROUNDUP sz / 4096 ≤ Z.of_nat (length ps) →
  ∃ d qs ps' k', copyuvm pgdir sz o k = Ok d k' o ∧ space_copy ps k pgdir sz d qs ps' k'.
Proof.
  intros Hus Hb Hd Hsz Hlen. pose proof (us_ok _ _ _ _ Hus) as [_ Hf _ _ Hr]. set (n := Z.to_nat (PGROUNDUP sz / 4096)).
  assert (0 ≤ PGROUNDUP sz / 4096 ≤ 524288) as Hpg by (rewrite PGROUNDUP_spec by (kconst; lia); kconst; dlia).
  destruct (setupkvm_new ps o k Hf Hr Hd ltac:(lia)) as (d & ps1 & k1 & Hrun & Hnew & Hcnt & Hpte).
  assert (copying ps k pgdir d n 0 [] ps1 k1) as Hc.
  { split; [done| |done|constructor|intros q Hq; by apply elem_of_nil in Hq|done|intros; by apply Hpte]. unfold n. lia. }
  destruct (copyuvm_loop_spec ps k pgdir d sz n Hus Hb Hsz eq_refl n (S NPAGES) 0 [] ps1 k1 o Hc) as (qs & ps2 & k2 & Hl & Hc2);
    [lia|unfold n; pose proof NPAGES_eq; lia|].
  exists d, qs, ps2, k2. split; [|by apply (copying_done _ _ _ _ _ n)].
  unfold copyuvm. rewrite (bind_ok _ _ _ _ _ _ _ Hrun).
  rewrite (proj2 (Z.eqb_neq d 0)); [exact Hl|]. destruct (pw_dir _ _ (vo_wf _ _ _ (ns_ok _ _ _ _ _ Hnew))). kconst. lia.
Qed.

(** ** A machine with 1100 free pages

    Page [i] of the free ones is at 0x80400000 + 4096 i and holds the address of the next.
    A process with one page of memory has its directory at 0x80300000. *)

Definition demo_pool_page (i : Z) : Z := 0x80400000 + 4096 * i.
Definition demo_pool_next (i : Z) : Z := if i =? 1099 then 0 else demo_pool_page (i + 1).
Definition demo_pool_mem : memory := λ a,
  if (0x80400000 <=? a) && (a <? 0x80400000 + 4096 * 1100) && ((a - 0x80400000) `mod` 4096 <? 4) then
    (demo_pool_next ((a - 0x80400000) / 4096) / 256 ^ ((a - 0x80400000) `mod` 4096)) `mod` 256
  else 0.
Definition demo_space_mem : memory :=
  st8 (st32 (st32 demo_pool_mem 0x80300000 (0x301000 + 7)) 0x80301000 (0x302000 + 7)) 0x80302005 77.
Definition demo_pool : list Z := demo_pool_page <$> seqZ 0 1100.
Definition demo_space : kernel := set_k_kmem (Kmem 0 0x80400000) (set_k_mem demo_space_mem boot_kernel).

Lemma demo_pool_ld32 i : 0 ≤ i < 1100 → ld32 demo_pool_mem (demo_pool_page i) = demo_pool_next i.
Proof.
  intros Hi. assert (∀ b, 0 ≤ b < 4 → demo_pool_mem (demo_pool_page i + b) = (demo_pool_next i / 256 ^ b) `mod` 256) as E.
  { intros b Hb. unfold demo_pool_mem, demo_pool_page. replace (0x80400000 + 4096 * i + b - 0x80400000) with (4096 * i + b) by lia.
    rewrite (proj2 (Z.leb_le _ _)), (proj2 (Z.ltb_lt _ _)) by lia.
    replace ((4096 * i + b) `mod` 4096) with b by dlia. replace ((4096 * i + b) / 4096) with i by dlia. by rewrite (proj2 (Z.ltb_lt _ _)) by lia. }
  unfold ld32. rewrite <- (Z.add_0_r (demo_pool_page i)) at 1. rewrite !E by lia. change (256 ^ 0) with 1. change (256 ^ 1) with 256. change (256 ^ 2) with 65536. change (256 ^ 3) with 16777216.
  assert (0 ≤ demo_pool_next i < 4294967296) by (unfold demo_pool_next, demo_pool_page; case_tests). dlia.
Qed.

Lemma demo_space_pool x : 0x80303000 ≤ x → demo_space_mem x = demo_pool_mem x.
Proof. intros Hx. unfold demo_space_mem, st8, st32. case_tests. Qed.

Lemma demo_space_free : free_pages demo_pool demo_space.
Proof.
  split.
  - cbn. unfold demo_pool.
    assert (∀ n i, i + Z.of_nat n = 1100 → 0 ≤ i → flist demo_space_mem (if i =? 1100 then 0 else demo_pool_page i) (demo_pool_page <$> seqZ i (Z.of_nat n))) as H.
    { induction n as [|n IH]; intros i Hi H0; [cbn; by rewrite (proj2 (Z.eqb_eq _ _)) by lia|].
      rewrite seqZ_cons by lia. rewrite fmap_cons. cbn [flist]. rewrite (proj2 (Z.eqb_neq _ _)) by lia. split; [done|].
      rewrite (ld32_ext demo_space_mem demo_pool_mem); [|intros x Hx; apply demo_space_pool; unfold demo_pool_page in *; lia].
      rewrite demo_pool_ld32 by lia. replace (Z.pred (Z.of_nat (S n))) with (Z.of_nat n) by lia.
      unfold demo_pool_next. specialize (IH (Z.succ i) ltac:(lia) ltac:(lia)). replace (i =? 1099) with (Z.succ i =? 1100) by (destruct (Z.eqb_spec (Z.succ i) 1100), (Z.eqb_spec i 1099); done || lia). exact IH. }
    exact (H 1100%nat 0 eq_refl ltac:(lia)).
  - apply NoDup_fmap_2; [intros i j; unfold demo_pool_page; lia|apply NoDup_seqZ].
  - apply Forall_fmap, Forall_forall. intros i Hi%elem_of_seqZ. unfold page_ok, demo_pool_page. cbn. kconst. dlia.
Qed.
Lemma demo_pool_length : length demo_pool = 1100%nat.
Proof. unfold demo_pool. by rewrite length_fmap, length_seqZ. Qed.

Lemma setupkvm_maps_witness :
  ∃ d ps' k', setupkvm [] demo_space = Ok d k' [] ∧ pte_val (k_mem k') d 0x80112000 = 0x112003 ∧ pte_val (k_mem k') d 0x80100000 = 0x100001 ∧ pte_val (k_mem k') d 0 = 0 ∧ ps' ⊆ demo_pool.
Proof.
  destruct (setupkvm_maps demo_pool [] demo_space demo_space_free (or_introl eq_refl)) as (d & ps' & k' & H & Hn & Hp).
  - by split.
  - rewrite demo_pool_length. lia.
  - exists d, ps', k'. split_and!; [exact H|..].
    + exact (Hp 0x80112000 ltac:(lia) eq_refl).
    + exact (Hp 0x80100000 ltac:(lia) eq_refl).
    + exact (Hp 0 ltac:(lia) eq_refl).
    + destruct (ns_free _ _ _ _ _ Hn) as [u ->]. intros p Hp'. apply elem_of_app. by right.
Defined.

Lemma demo_space_tab i : 0 ≤ i < 1024 → pgtab_at demo_space_mem 0x80300000 i = if decide (i = 0) then Some 0x80301000 else None.
Proof.
  intros Hi. unfold pgtab_at. case_decide as E; [by subst; vm_compute|].
  assert (∀ x, 0x80300004 ≤ x < 0x80301000 → demo_space_mem x = 0) as Hz.
  { intros x Hx. unfold demo_space_mem, st8, st32, demo_pool_mem. rewrite (proj2 (Z.leb_gt 0x80400000 x)) by lia. case_tests. }
  unfold ld32. by rewrite !Hz by lia.
Qed.

Lemma demo_space_bytes : bytes_ok demo_space_mem.
Proof.
  apply bytes_ok_st8, bytes_ok_st32, bytes_ok_st32. intros x. unfold demo_pool_mem. destruct (_ && _); [|lia]. apply Z.mod_pos_bound. lia.
Qed.
Lemma demo_space_ok : user_space 0x80300000 0x1000 demo_pool demo_space.
Proof.
  assert (∀ p, p < 0x80400000 → p ∉ demo_pool) as Hno.
  { intros p Hp [i [-> Hi%elem_of_seqZ]]%list_elem_of_fmap. unfold demo_pool_page in Hp. lia. }
  split; [split; [split|..]|..].
  - by vm_compute.
  - intros i p Hi. cbn. rewrite demo_space_tab by done. case_decide; intros ?; simplify_eq. by vm_compute.
  - intros i j p Hi Hj. cbn. rewrite !demo_space_tab by done. repeat case_decide; by subst.
  - exact demo_space_free.
  - apply Hno. lia.
  - intros i p Hi. cbn. rewrite demo_space_tab by done. case_decide; intros ?; simplify_eq. apply Hno. lia.
  - by left.
  - intros j Hj Hlt. assert (j = 0) as -> by lia. by vm_compute.
  - intros j Hj Hlt. assert (j = 0) as -> by lia. assert (user_page (k_mem demo_space) 0x80300000 (4096 * 0) = 0x80302000) as -> by (by vm_compute).
    split; [by vm_compute|apply Hno; lia].
Qed.

Lemma copyuvm_copies_witness :
  ∃ d k', copyuvm 0x80300000 0x1000 [] demo_space = Ok d k' [] ∧ k_mem k' (user_byte (k_mem k') d 5) = 77 ∧
    pte_val (k_mem k') d 0x1000 = 0 ∧ k_mem k' 0x80302005 = 77.
Proof.
  destruct (copyuvm_copies 0x80300000 0x1000 demo_pool [] demo_space demo_space_ok demo_space_bytes) as (d & qs & ps' & k' & H & Hc).
  - by split.
  - unfold KERNBASE. lia.
  - rewrite demo_pool_length. vm_compute. discriminate.
  - exists d, k'. split_and!; [exact H|..].
    + rewrite (sc_byte _ _ _ _ _ _ _ _ Hc 5 ltac:(lia)). by vm_compute.
    + exact (sc_rest _ _ _ _ _ _ _ _ Hc 0x1000 ltac:(vm_compute; split; [discriminate|reflexivity]) eq_refl).
    + rewrite (ns_mem _ _ _ _ _ (sc_new _ _ _ _ _ _ _ _ Hc)); [by vm_compute|].
      intros p [i [-> Hi%elem_of_seqZ]]%list_elem_of_fmap. unfold in_page, demo_pool_page. lia.
Defined.
