(* ===== verification/Sleeplock.v ===== *)
(** * Sleep locks

    [sleeplock.c].  A sleep lock lives inside a buffer or an inode; it is named
    by the spinlock it contains ([Lbufsleep b], [Linodesleep i]).  The file also
    sets up [quiet] states, in which no spinlock is held: there an operation
    returns without waiting for other threads as long as the sleep locks it
    takes are free, which is what the files on the file system build on. *)

From S2P Require Import Prelude Defs Spinlock Kernel Sched.
Local Open Scope kernel_scope.

Definition sl_at (l : lockid) (k : kernel) : option sleeplock :=
  match l with
  | Lbufsleep b => b_lock <$> k_bufs k !! b
  | Linodesleep i => i_lock <$> k_icache k !! i
  | _ => None
  end.
Definition sl_put (l : lockid) (x : sleeplock) (k : kernel) : kernel :=
  match l with
  | Lbufsleep b => set_k_bufs (alter (set_b_lock x) b (k_bufs k)) k
  | Linodesleep i => set_k_icache (alter (set_i_lock x) i (k_icache k)) k
  | _ => k
  end.
Definition rd_sl (l : lockid) : KM sleeplock :=
  let! k := get in
  match sl_at l k with Some x => ret x | None => undef "sleeplock pointer" end.

(** [myproc()->pid] *)
Definition mypid : KM Z :=
  let! p := myproc in
  let! p := deref p in
  let! pr := rd_proc p in
  ret (p_pid pr).

(** ** sleeplock.c *)

Definition initsleeplock (l : lockid) (name : string) : KM unit :=
  initlock l "sleep lock" ;;;
  modify (sl_put l (Sleeplock 0 0)).

Definition acquiresleep (l : lockid) : KM unit :=
  acquire l ;;;
  while_wait (let! x := rd_sl l in ret (negb (sl_locked x =? 0)))
    (sleep (ChSleeplock l) l) ;;;
  let! x := rd_sl l in
  modify (sl_put l (Sleeplock 1 (sl_pid x))) ;;;
  let! pid := mypid in
  modify (sl_put l (Sleeplock 1 pid)) ;;;
  release l.

Definition releasesleep (l : lockid) : KM unit :=
  acquire l ;;;
  modify (sl_put l (Sleeplock 0 0)) ;;;
  wakeup (ChSleeplock l) ;;;
  release l.

Definition holdingsleep (l : lockid) : KM bool :=
  acquire l ;;;
  let! x := rd_sl l in
  let! r := (if sl_locked x =? 0 then ret false
             else let! pid := mypid in ret (sl_pid x =? pid)) in
  release l ;;;
  ret r.

(** ** Quiet states *)

(** The spinlocks of the file system, the allocator and the process table. *)
Inductive fslock : lockid → Prop :=
| fl_ptable : fslock Lptable
| fl_kmem : fslock Lkmem
| fl_ftable : fslock Lftable
| fl_icache : fslock Licache
| fl_bcache : fslock Lbcache
| fl_log : fslock Llog
| fl_buf b : (b < NBUF)%nat → fslock (Lbufsleep b)
| fl_inode i : (i < NINODE)%nat → fslock (Linodesleep i).
#[export] Hint Constructors fslock : xv6.

(** [quiet pid k]: no spinlock is held and the running thread belongs to the
    process [pid].  Other threads may sleep anywhere. *)
Record quiet (pid : Z) (k : kernel) : Prop := {
  q_calm : calm (k_lk k) 0;
  q_free l : fslock l → lock_free l (k_lk k);
  q_wf : ptable_wf k;
  q_proc : ∃ p pr, k_proc k = Some p ∧ k_procs k !! p = Some pr ∧ p_pid pr = pid
}.

(** Only these parts of the state matter. *)
Lemma quiet_ext pid k k' :
  k_lk k' = k_lk k → k_procs k' = k_procs k → k_ttable k' = k_ttable k → k_proc k' = k_proc k →
  quiet pid k → quiet pid k'.
Proof.
  intros H1 H2 H3 H4 [Q1 Q2 Q3 Q5]. split.
  - by rewrite H1.
  - rewrite H1. done.
  - by apply (ptable_wf_ext k).
  - by rewrite H2, H4.
Qed.

Lemma sl_put_frame l x k :
  k_lk (sl_put l x k) = k_lk k ∧ k_procs (sl_put l x k) = k_procs k ∧
  k_ttable (sl_put l x k) = k_ttable k ∧ k_proc (sl_put l x k) = k_proc k.
Proof. by destruct l. Qed.

Lemma quiet_sl_put pid l x k : quiet pid k → quiet pid (sl_put l x k).
Proof. destruct (sl_put_frame l x k) as (?&?&?&?). by apply quiet_ext. Qed.

Lemma quiet_wake_all pid ch k : quiet pid k → quiet pid (wake_all ch k).
Proof.
  intros [Q1 Q2 Q3 Q5]. split; [by rewrite wake_all_lk| |by apply wake_all_wf|by rewrite wake_all_frame].
  intros l Hl. rewrite wake_all_lk. auto.
Qed.

Section Quiet.
Context (pid : Z) (k : kernel) (Hq : quiet pid k).

Lemma mypid_quiet o n : calm (k_lk k) n → mypid o k = Ok pid k o.
Proof.
  intros Hc. unfold mypid. rewrite (bind_ok _ _ _ _ _ _ _ (myproc_calm _ _ _ Hc)).
  destruct (q_proc _ _ Hq) as (p & pr & -> & Hp & <-). unfold deref. mrun.
  by rewrite (bind_ok _ _ _ _ _ _ _ (rd_proc_eq _ _ _ _ Hp)).
Qed.

End Quiet.

(** The current process does not depend on the lock state. *)
Lemma mypid_locked pid o k K n :
  quiet pid (set_k_lk K k) → calm (k_lk k) n → mypid o k = Ok pid k o.
Proof.
  intros Hq Hc. unfold mypid. rewrite (bind_ok _ _ _ _ _ _ _ (myproc_calm _ _ _ Hc)).
  destruct (q_proc _ _ Hq) as (p & pr & Hp0 & Hp & <-). simpl in Hp0, Hp. rewrite Hp0. unfold deref. mrun.
  by rewrite (bind_ok _ _ _ _ _ _ _ (rd_proc_eq _ _ _ _ Hp)).
Qed.

Lemma sl_at_put l x x0 k : sl_at l k = Some x0 → sl_at l (sl_put l x k) = Some x.
Proof.
  destruct l; simpl; try done; rewrite list_lookup_alter, decide_True by done;
    [destruct (k_bufs k !! b)|destruct (k_icache k !! i)]; intros H; by simplify_eq/=.
Qed.
Lemma sl_put_put l x y k : sl_put l x (sl_put l y k) = sl_put l x k.
Proof.
  destruct l; simpl; try done; kproj.
  - rewrite (list_alter_absorb _ _ (set_b_lock x)) by done. by destruct k.
  - rewrite (list_alter_absorb _ _ (set_i_lock x)) by done. by destruct k.
Qed.
Lemma sl_put_lk l x K k : sl_put l x (set_k_lk K k) = set_k_lk K (sl_put l x k).
Proof. by destruct l. Qed.

Lemma rd_sl_eq l o k x : sl_at l k = Some x → rd_sl l o k = Ok x k o.
Proof. intros H. unfold rd_sl. mrun. by rewrite H. Qed.
Lemma sl_at_set_lk l K k : sl_at l (set_k_lk K k) = sl_at l k.
Proof. by destruct l. Qed.

Lemma sl_cond_shrinks l : shrinks (let! x := rd_sl l in ret (negb (sl_locked x =? 0))).
Proof. unfold rd_sl. shrink. Qed.

(** The tail of acquiresleep, once the lock word is free. *)
Lemma acquiresleep_free_eq l o k K pid x n :
  quiet pid (set_k_lk K k) → calm K n → n < 999999 → lock_free l K → k_lk k = lk_acquire l K →
  sl_at l k = Some x → sl_locked x = 0 →
  (while_wait (let! x := rd_sl l in ret (negb (sl_locked x =? 0))) (sleep (ChSleeplock l) l) ;;;
   let! x := rd_sl l in
   modify (sl_put l (Sleeplock 1 (sl_pid x))) ;;;
   let! pid := mypid in
   modify (sl_put l (Sleeplock 1 pid)) ;;;
   release l) o k = Ok tt (sl_put l (Sleeplock 1 pid) (set_k_lk K k)) o.
Proof.
  intros Hq Hc Hn Hf Hk Hx Hl.
  rewrite (bind_ok _ _ o k tt o k).
  2:{ rewrite while_wait_unfold; [|apply sl_cond_shrinks|intros; by eapply waits_sleep].
      rewrite bind_assoc, (bind_ok _ _ _ _ _ _ _ (rd_sl_eq _ _ _ _ Hx)). mrun. by rewrite Hl. }
  rewrite (bind_ok _ _ _ _ _ _ _ (rd_sl_eq _ _ _ _ Hx)). mrun.
  set (k1 := sl_put l _ k).
  assert (k_lk k1 = lk_acquire l K) as Hk1 by (unfold k1; by rewrite (proj1 (sl_put_frame _ _ _))).
  assert (quiet pid (set_k_lk K k1)) as Hq1.
  { unfold k1. rewrite <- sl_put_lk. by apply quiet_sl_put. }
  rewrite (bind_ok _ _ _ _ _ _ _ (mypid_locked pid o k1 K (n + 1) Hq1
             ltac:(rewrite Hk1; by apply calm_acquire))).
  mrun. unfold k1. rewrite sl_put_put.
  rewrite (release_k l o _ K n Hc Hf) by (by rewrite (proj1 (sl_put_frame _ _ _))).
  by rewrite sl_put_lk.
Qed.

(** ** The operations in quiet states *)

Lemma acquiresleep_quiet l o k pid x :
  quiet pid k → fslock l → sl_at l k = Some x → sl_locked x = 0 →
  acquiresleep l o k = Ok tt (sl_put l (Sleeplock 1 pid) k) o.
Proof.
  intros Hq Hl Hx H0. unfold acquiresleep. pose proof (q_calm _ _ Hq) as Hc.
  pose proof (q_free _ _ Hq _ Hl) as Hf. kacquire Hc Hf.
  erewrite (acquiresleep_free_eq l o _ (k_lk k) pid x 0); [by destruct k, l|by destruct k|done|lia|done|done| |done].
  by rewrite sl_at_set_lk.
Qed.

(** The lock is free again and the threads waiting for it are awake. *)
Lemma releasesleep_quiet l o k pid :
  quiet pid k → fslock l → l ≠ Lptable →
  releasesleep l o k = Ok tt (wake_all (ChSleeplock l) (sl_put l (Sleeplock 0 0) k)) o.
Proof.
  intros Hq Hl Hne. unfold releasesleep. pose proof (q_calm _ _ Hq) as Hc.
  pose proof (q_free _ _ Hq _ Hl) as Hf. kacquire Hc Hf. mrun. rewrite sl_put_lk.
  set (k1 := sl_put l (Sleeplock 0 0) k). set (K1 := lk_acquire l (k_lk k)).
  assert (ptable_wf k1) as Hwf by (unfold k1; by apply q_wf with pid, quiet_sl_put).
  rewrite (bind_ok _ _ _ _ _ _ _ (wakeup_eq (ChSleeplock l) o (set_k_lk K1 k1) 1
             (ptable_wf_set_lk _ _ Hwf) ltac:(by apply (calm_acquire _ _ 0))
             ltac:(by apply lock_free_acquire_ne, (q_free _ _ Hq); auto with xv6))).
  rewrite (release_k l o _ (k_lk k) 0 Hc Hf) by (by rewrite wake_all_lk).
  rewrite wake_all_set_lk. by rewrite (wake_all_frame _ k1); destruct k, l.
Qed.

Lemma holdingsleep_quiet l o k pid x :
  quiet pid k → fslock l → sl_at l k = Some x →
  holdingsleep l o k = Ok (negb (sl_locked x =? 0) && (sl_pid x =? pid)) k o.
Proof.
  intros Hq Hl Hx. unfold holdingsleep. pose proof (q_calm _ _ Hq) as Hc.
  pose proof (q_free _ _ Hq _ Hl) as Hf. kacquire Hc Hf.
  erewrite bind_ok; [|apply rd_sl_eq; rewrite sl_at_set_lk; exact Hx].
  destruct (sl_locked x =? 0); mrun.
  - krelease Hc Hf. by destruct k.
  - erewrite bind_ok; [|apply (mypid_locked pid _ _ (k_lk k) 1);
      [by apply (quiet_ext pid k)|by apply (calm_acquire _ _ 0)]].
    mrun. krelease Hc Hf. by destruct k.
Qed.

(** ** A concrete quiet state *)

Lemma list_to_map_const {K A} `{Countable K} (l : list K) (x : A) i :
  i ∈ l → (list_to_map ((λ j, (j, x)) <$> l) : gmap K A) !! i = Some x.
Proof.
  induction l as [|j l IH]; [by intros ?%not_elem_of_nil|]. intros Hi. simpl.
  destruct (decide (j = i)) as [->|]; [apply lookup_insert_eq|].
  rewrite lookup_insert_ne by done. apply IH. by apply elem_of_cons in Hi as [->|].
Qed.

Lemma boot_fslock_free l : fslock l → lock_free l boot_lks.
Proof.
  intros Hl. apply boot_lks_free. unfold boot_locks. apply list_to_map_const. rewrite !elem_of_app.
  destruct Hl as [| | | | | |b Hb|i Hi]; [left; set_solver..|right; right; left|right; right; right];
    apply list_elem_of_fmap; eexists; (split; [reflexivity|]); apply elem_of_seq; lia.
Qed.

Lemma demo_kernel_quiet : quiet 1 demo_kernel.
Proof.
  split; [exact boot_lks_calm|exact boot_fslock_free|exact demo_kernel_wf|].
  by exists 0%nat, (demo_proc 1 0).
Qed.
