(* ===== verification/Bio.v ===== *)
(** * The buffer cache and the disk below it

    [bio.c] on top of [memide.c], the in-memory disk.  The doubly linked list
    of the cache is the list [k_lru] of buffer positions, [head.next] first.  A
    disk write uses one unit of [k_power]: when none is left the machine stops
    there, which is how a crash at any point between two disk writes is
    modelled.  The second half of the file relates the cache to an abstract
    one: the disk, the blocks pinned in memory and the blocks in use. *)

From S2P Require Import Prelude Defs Spinlock Kernel Sched Sleeplock Bytes.
Local Open Scope kernel_scope.

(** ** Constants *)

Definition BSIZE : Z := 512.
Definition B_VALID : Z := 0x2.
Definition B_DIRTY : Z := 0x4.

(** ** Buffers *)

Definition rd_buf (b : nat) : KM buf :=
  let! k := get in
  match k_bufs k !! b with Some x => ret x | None => undef "buf pointer" end.
Definition upd_buf (b : nat) (f : buf → buf) : KM unit :=
  modify (λ k, set_k_bufs (alter f b (k_bufs k)) k).

(** ** memide.c *)

(** Copying a block to the disk, unless the power fails first. *)
Definition disk_write (blockno : Z) (data : list Z) : KM unit :=
  let! k := get in
  match k_power k with
  | Some O => gone
  | Some (S n) =>
      modify (set_k_power (Some n)) ;;;
      modify (λ k, set_k_disk (<[Z.to_nat blockno := data]> (k_disk k)) k)
  | None => modify (λ k, set_k_disk (<[Z.to_nat blockno := data]> (k_disk k)) k)
  end.

Definition disk_read (blockno : Z) : KM (list Z) :=
  let! k := get in ret (nth (Z.to_nat blockno) (k_disk k) []).

Definition ideinit : KM unit := ret tt.
Definition ideintr : KM unit := ret tt.

Definition iderw (b : nat) : KM unit :=
  let! h := holdingsleep (Lbufsleep b) in
  if negb h then panic "iderw: buf not locked"
  else
    let! x := rd_buf b in
    if Z.land (b_flags x) (Z.lor B_VALID B_DIRTY) =? B_VALID then panic "iderw: nothing to do"
    else if negb (b_dev x =? 1) then panic "iderw: request not for disk 1"
    else
      let! disksize := gets (λ k, Z.of_nat (length (k_disk k))) in
      if disksize <=? b_blockno x then panic "iderw: block out of range"
      else
        (if negb (Z.land (b_flags x) B_DIRTY =? 0) then
           upd_buf b (λ y, set_b_flags (Z.land (b_flags y) (Z.lnot B_DIRTY)) y) ;;;
           disk_write (b_blockno x) (b_data x)
         else
           let! d := disk_read (b_blockno x) in
           upd_buf b (set_b_data d)) ;;;
        upd_buf b (λ y, set_b_flags (Z.lor (b_flags y) B_VALID) y).

(** ** bio.c *)

Definition binit : KM unit :=
  initlock Lbcache "bcache" ;;;
  modify (set_k_lru []) ;;;
  for_each (seq 0 NBUF) (λ b,
    initsleeplock (Lbufsleep b) "buffer" ;;;
    modify (λ k, set_k_lru (b :: k_lru k) k)).

(** The first buffer along a list of positions that passes a test. *)
Fixpoint buf_scan (test : buf → bool) (l : list nat) (bufs : list buf) : option nat :=
  match l with
  | [] => None
  | b :: l' =>
      match bufs !! b with
      | Some x => if test x then Some b else buf_scan test l' bufs
      | None => buf_scan test l' bufs
      end
  end.

Definition is_block (dev blockno : Z) (x : buf) : bool :=
  (b_dev x =? dev) && (b_blockno x =? blockno).
Definition is_free (x : buf) : bool :=
  (b_refcnt x =? 0) && (Z.land (b_flags x) B_DIRTY =? 0).

Definition bget (dev blockno : Z) : KM nat :=
  acquire Lbcache ;;;
  let! k := get in
  match buf_scan (is_block dev blockno) (k_lru k) (k_bufs k) with
  | Some b =>
      upd_buf b (λ x, set_b_refcnt (u32 (b_refcnt x + 1)) x) ;;;
      release Lbcache ;;;
      acquiresleep (Lbufsleep b) ;;;
      ret b
  | None =>
      match buf_scan is_free (rev (k_lru k)) (k_bufs k) with
      | Some b =>
          upd_buf b (λ x, set_b_refcnt 1 (set_b_flags 0 (set_b_blockno blockno (set_b_dev dev x)))) ;;;
          release Lbcache ;;;
          acquiresleep (Lbufsleep b) ;;;
          ret b
      | None => panic "bget: no buffers"
      end
  end.

Definition bread (dev blockno : Z) : KM nat :=
  let! b := bget dev blockno in
  let! x := rd_buf b in
  when (Z.land (b_flags x) B_VALID =? 0) (iderw b) ;;;
  ret b.

Definition bwrite (b : nat) : KM unit :=
  let! h := holdingsleep (Lbufsleep b) in
  if negb h then panic "bwrite"
  else
    upd_buf b (λ x, set_b_flags (Z.lor (b_flags x) B_DIRTY) x) ;;;
    iderw b.

Definition brelse (b : nat) : KM unit :=
  let! h := holdingsleep (Lbufsleep b) in
  if negb h then panic "brelse"
  else
    releasesleep (Lbufsleep b) ;;;
    acquire Lbcache ;;;
    upd_buf b (λ x, set_b_refcnt (u32 (b_refcnt x - 1)) x) ;;;
    let! x := rd_buf b in
    when (b_refcnt x =? 0)
      (modify (λ k, set_k_lru (b :: filter (λ c, c ≠ b) (k_lru k)) k)) ;;;
    release Lbcache.

(** ** Runs that may end in a power failure

    [cruns m o k Q C]: [m] returns without waiting for other threads, in [Q],
    or the power fails on the way, which takes a finite [k_power], and leaves
    a disk in [C]. *)
Definition cruns {A} (m : KM A) (o : list (kernel → kernel)) (k : kernel)
    (Q : A → kernel → Prop) (C : list (list Z) → Prop) : Prop :=
  match m o k with
  | Ok a k' o' => o' = o ∧ (k_power k = None → k_power k' = None) ∧ Q a k'
  | Gone k' => k_power k ≠ None ∧ C (k_disk k')
  | _ => False
  end.

Lemma cruns_ok {A} (m : KM A) o k a k' Q C :
  m o k = Ok a k' o → k_power k' = k_power k → Q a k' → cruns m o k Q C.
Proof. intros E P H. unfold cruns. rewrite E. split_and!; [done|congruence|done]. Qed.

Lemma cruns_ret {A} (a : A) o k Q C : Q a k → cruns (ret a) o k Q C.
Proof. intros. by eapply cruns_ok. Qed.

Lemma cruns_mono {A} (m : KM A) o k Q Q' C C' :
  cruns m o k Q C → (∀ a k', Q a k' → Q' a k') → (∀ D, C D → C' D) → cruns m o k Q' C'.
Proof. unfold cruns. destruct (m o k); naive_solver. Qed.

Lemma cruns_bind {A B} (m : KM B) (f : B → KM A) o k Q C :
  cruns m o k (λ b k', cruns (f b) o k' Q C) C → cruns (bind m f) o k Q C.
Proof.
  unfold cruns, bind. destruct (m o k) as [b k1 o1| | | |]; try done.
  intros (-> & Hp & H). destruct (f b o k1); naive_solver.
Qed.

(** A step that returns, followed by the rest. *)
Lemma cruns_step {A B} (m : KM B) (f : B → KM A) o k b k' Q C :
  m o k = Ok b k' o → k_power k' = k_power k → cruns (f b) o k' Q C → cruns (bind m f) o k Q C.
Proof. intros E P H. apply cruns_bind. by eapply cruns_ok. Qed.

Lemma cruns_eq {A} (m m' : KM A) o k Q C : m o k = m' o k → cruns m' o k Q C → cruns m o k Q C.
Proof. unfold cruns. by intros ->. Qed.

(** A loop with an invariant indexed by the iterations done. *)
Lemma cruns_seq (I : nat → kernel → Prop) (body : nat → KM unit) C o k n :
  (∀ i k, (i < n)%nat → I i k → cruns (body i) o k (λ _ k', I (S i) k') C) → I 0%nat k →
  cruns (for_each (seq 0 n) body) o k (λ _ k', I n k') C.
Proof.
  intros Hb. assert (∀ m i k, (i + m = n)%nat → I i k →
    cruns (for_each (seq i m) body) o k (λ _ k', I n k') C) as H; [|intros; by apply H].
  induction m as [|m IH]; intros i k1 Hi HI; simpl.
  - apply cruns_ret. by replace n with i by lia.
  - apply cruns_bind. eapply cruns_mono; [apply Hb; [lia|done]| |done].
    intros [] k2 H2. apply IH; [lia|done].
Qed.

(** ** The abstract cache

    [c_disk] is the disk, [c_dirty] the blocks pinned in memory with their
    contents, [c_held] the buffers in use with their block and contents. *)
Record cache := Cache {
  c_disk : list (list Z);
  c_dirty : gmap nat (list Z);
  c_held : gmap nat (nat * list Z)
}.

(** What a reader of block [n] sees. *)
Definition c_view (n : nat) (c : cache) : list Z := default (nth n (c_disk c) []) (c_dirty c !! n).

Definition c_hold (b n : nat) (c : cache) : cache :=
  Cache (c_disk c) (c_dirty c) (<[b := (n, c_view n c)]> (c_held c)).
Definition c_store (b : nat) (d : list Z) (c : cache) : cache :=
  Cache (c_disk c) (c_dirty c) (alter (λ p, (fst p, d)) b (c_held c)).
Definition c_write (n : nat) (d : list Z) (c : cache) : cache :=
  Cache (<[n := d]> (c_disk c)) (delete n (c_dirty c)) (c_held c).
Definition c_pin (n : nat) (d : list Z) (c : cache) : cache :=
  Cache (c_disk c) (<[n := d]> (c_dirty c)) (c_held c).
Definition c_release (b n : nat) (d : list Z) (c : cache) : cache :=
  Cache (c_disk c) (alter (λ _, d) n (c_dirty c)) (delete b (c_held c)).

Definition c_flags (n : nat) (c : cache) : Z :=
  match c_dirty c !! n with Some _ => Z.lor B_VALID B_DIRTY | None => B_VALID end.

(** What a buffer of the cache can look like. *)
Inductive buf_ok (pid : Z) (c : cache) (b : nat) : buf → Prop :=
| bo_held n d :
    c_held c !! b = Some (n, d) →
    buf_ok pid c b (Buf (c_flags n c) 1 (Z.of_nat n) (Sleeplock 1 pid) 1 d)
| bo_unused dev blk d :
    c_held c !! b = None → dev ≠ 1 → buf_ok pid c b (Buf 0 dev blk sleeplock0 0 d)
| bo_clean n d :
    c_held c !! b = None → c_dirty c !! n = None → c_disk c !! n = Some d →
    buf_ok pid c b (Buf B_VALID 1 (Z.of_nat n) sleeplock0 0 d)
| bo_dirty n d :
    c_held c !! b = None → c_dirty c !! n = Some d →
    buf_ok pid c b (Buf (Z.lor B_VALID B_DIRTY) 1 (Z.of_nat n) sleeplock0 0 d).

Record cinv (pid : Z) (c : cache) (B : list buf) (L : list nat) : Prop := {
  ci_len : length B = NBUF;
  ci_lru : L ≡ₚ seq 0 NBUF;
  ci_buf b x : B !! b = Some x → buf_ok pid c b x;
  ci_uniq b1 b2 x1 x2 : B !! b1 = Some x1 → B !! b2 = Some x2 → b_dev x1 = 1 → b_dev x2 = 1 →
    b_blockno x1 = b_blockno x2 → b1 = b2;
  ci_dirty n : is_Some (c_dirty c !! n) →
    ∃ b x, B !! b = Some x ∧ b_dev x = 1 ∧ b_blockno x = Z.of_nat n;
  ci_held b n d : c_held c !! b = Some (n, d) → (b < NBUF)%nat ∧ (n < length (c_disk c))%nat;
  ci_bound n : is_Some (c_dirty c !! n) → (n < length (c_disk c))%nat
}.

(** ** Scans of the cache *)

Lemma buf_scan_Some test l B b :
  buf_scan test l B = Some b → b ∈ l ∧ ∃ x, B !! b = Some x ∧ test x = true.
Proof.
  induction l as [|a l IH]; simpl; [done|]. destruct (B !! a) as [x|] eqn:E; [|set_solver].
  destruct (test x) eqn:T; [|set_solver]. intros [= <-]. split; [set_solver|eauto].
Qed.
Lemma buf_scan_None test l B b x :
  buf_scan test l B = None → b ∈ l → B !! b = Some x → test x = false.
Proof.
  induction l as [|a l IH]; simpl; [set_solver|]. intros H Hin Hx.
  apply elem_of_cons in Hin as [->|Hin].
  - rewrite Hx in H. by destruct (test x).
  - destruct (B !! a) as [y|]; [destruct (test y); [done|]|]; auto.
Qed.

(** Every position is on the list of the cache. *)
Lemma cinv_on_list pid c B L b x : cinv pid c B L → B !! b = Some x → b ∈ L.
Proof.
  intros H Hx. rewrite (ci_lru _ _ _ _ H), elem_of_seq. apply lookup_lt_Some in Hx.
  rewrite (ci_len _ _ _ _ H) in Hx. lia.
Qed.

(** A buffer not pinned and not in use is left when the pinned blocks and the
    buffers in use are fewer than the buffers. *)
Lemma cinv_room pid c B L :
  cinv pid c B L → (size (c_held c) + size (c_dirty c) < NBUF)%nat →
  ∃ b x, B !! b = Some x ∧ is_free x = true.
Proof.
  intros H Hs. destruct (decide (Exists (λ x, is_free x = true) B)) as [He|He].
  { apply Exists_exists in He as (x & Hx & Hf). apply list_elem_of_lookup in Hx as [b Hb]. eauto. }
  exfalso. apply not_Exists_Forall in He; [|solve_decision]. rewrite Forall_lookup in He.
  set (own := λ b, match B !! b with
                   | Some x => match c_held c !! b with Some _ => inl b | None => inr (Z.to_nat (b_blockno x)) end
                   | None => inl b end : nat + nat).
  assert (∀ b, (b < NBUF)%nat → own b ∈ (inl <$> elements (dom (c_held c))) ++
                                   (inr <$> elements (dom (c_dirty c)))) as Hown.
  { intros b Hb. rewrite <- (ci_len _ _ _ _ H) in Hb. apply lookup_lt_is_Some in Hb as [x Hx].
    unfold own. rewrite Hx. pose proof (He _ _ Hx) as Hnf. pose proof (ci_buf _ _ _ _ H _ _ Hx) as Ho.
    destruct Ho as [n d Hh|dev blk d Hh|n d Hh|n d Hh Hd]; rewrite Hh.
    - apply elem_of_app. left. apply list_elem_of_fmap. exists b. split; [done|].
      rewrite elem_of_elements. by apply elem_of_dom_2 in Hh.
    - by destruct Hnf.
    - by destruct Hnf.
    - apply elem_of_app. right. apply list_elem_of_fmap. eexists. split; [done|].
      simpl. rewrite Nat2Z.id, elem_of_elements. by apply elem_of_dom_2 in Hd. }
  assert (NoDup (own <$> seq 0 NBUF)) as Hnd.
  { apply NoDup_fmap_2_strong; [|apply NoDup_seq]. intros b1 b2 H1%elem_of_seq H2%elem_of_seq.
    destruct (lookup_lt_is_Some_2 B b1) as [x1 Hx1]; [rewrite (ci_len _ _ _ _ H); lia|].
    destruct (lookup_lt_is_Some_2 B b2) as [x2 Hx2]; [rewrite (ci_len _ _ _ _ H); lia|].
    unfold own. rewrite Hx1, Hx2.
    destruct (c_held c !! b1) eqn:E1, (c_held c !! b2) eqn:E2; intros E; simplify_eq; [done|].
    pose proof (He _ _ Hx1) as F1. pose proof (He _ _ Hx2) as F2.
    apply (ci_uniq _ _ _ _ H _ _ _ _ Hx1 Hx2);
      destruct (ci_buf _ _ _ _ H _ _ Hx1), (ci_buf _ _ _ _ H _ _ Hx2); simpl in *; try congruence;
      try (by destruct F1); try (by destruct F2); lia. }
  assert (length (own <$> seq 0 NBUF) ≤
          length ((inl <$> elements (dom (c_held c))) ++ (inr <$> elements (dom (c_dirty c)))))%nat as Hle.
  { apply submseteq_length, NoDup_submseteq; [done|]. intros y (b & -> & Hb%elem_of_seq)%list_elem_of_fmap.
    apply Hown. lia. }
  rewrite length_fmap, length_seq, length_app, !length_fmap in Hle.
  change (length (elements (dom (c_held c)))) with (size (dom (c_held c))) in Hle.
  change (length (elements (dom (c_dirty c)))) with (size (dom (c_dirty c))) in Hle.
  rewrite !size_dom in Hle. lia.
Qed.

(** ** The invariant under the operations *)

(** The buffer of a block in use. *)
Definition held_buf (pid : Z) (c : cache) (n : nat) (d : list Z) : buf :=
  Buf (c_flags n c) 1 (Z.of_nat n) (Sleeplock 1 pid) 1 d.

Lemma cinv_held pid c B L b n d :
  cinv pid c B L → c_held c !! b = Some (n, d) → B !! b = Some (held_buf pid c n d).
Proof.
  intros H Hh. destruct (ci_held _ _ _ _ H _ _ _ Hh) as [Hb _]. rewrite <- (ci_len _ _ _ _ H) in Hb.
  apply lookup_lt_is_Some in Hb as [x Hx]. rewrite Hx. f_equal.
  destruct (ci_buf _ _ _ _ H _ _ Hx); by simplify_eq.
Qed.

(** Changing one buffer that keeps or takes over a block. *)
Lemma cinv_update pid c c' B L L' b x y n :
  cinv pid c B L → B !! b = Some x → L' ≡ₚ seq 0 NBUF →
  b_dev y = 1 → b_blockno y = Z.of_nat n → buf_ok pid c' b y →
  (∀ b' x', b' ≠ b → B !! b' = Some x' → b_dev x' = 1 → b_blockno x' ≠ Z.of_nat n) →
  (∀ b' x', b' ≠ b → B !! b' = Some x' → buf_ok pid c b' x' → buf_ok pid c' b' x') →
  (∀ m, is_Some (c_dirty c' !! m) → m = n ∨ is_Some (c_dirty c !! m) ∧ (b_dev x = 1 → b_blockno x ≠ Z.of_nat m)) →
  (∀ b' m d, c_held c' !! b' = Some (m, d) → b' ≠ b → c_held c !! b' = Some (m, d)) →
  length (c_disk c') = length (c_disk c) → (n < length (c_disk c))%nat →
  cinv pid c' (<[b := y]> B) L'.
Proof.
  intros H Hx HL Hd Hn Hy Hu Ho Hdi Hh Hlen Hnl. pose proof (lookup_lt_Some _ _ _ Hx) as Hlt. split.
  - rewrite length_insert. apply H.
  - done.
  - intros b' x'. rewrite list_lookup_insert_Some. intros [(<- & <- & _)|[Hne Hx']]; [done|].
    by apply Ho, (ci_buf _ _ _ _ H).
  - intros b1 b2 x1 x2. rewrite !list_lookup_insert_Some.
    intros [(<- & <- & _)|[N1 H1]] [(<- & <- & _)|[N2 H2]] D1 D2 E; [done| | |by eapply (ci_uniq _ _ _ _ H)].
    + destruct (Hu b2 x2); congruence.
    + destruct (Hu b1 x1); congruence.
  - intros m Hm. destruct (decide (m = n)) as [->|Hmn].
    { exists b, y. by rewrite list_lookup_insert_eq. }
    destruct (Hdi m Hm) as [?|[Hm' Hxm]]; [done|].
    destruct (ci_dirty _ _ _ _ H _ Hm') as (b' & x' & Hx' & E1 & E2). exists b', x'.
    rewrite list_lookup_insert_ne; [done|]. intros <-. simplify_eq. by apply Hxm.
  - intros b' m d Hm. rewrite Hlen. destruct (decide (b' = b)) as [->|Hne].
    + rewrite <- (ci_len _ _ _ _ H). split; [done|].
      destruct Hy; simpl in *; [apply Nat2Z.inj in Hn|..]; congruence.
    + by eapply (ci_held _ _ _ _ H), Hh.
  - intros m Hm. rewrite Hlen. destruct (Hdi m Hm) as [->|[Hm' _]]; [done|]. by apply (ci_bound _ _ _ _ H).
Qed.

(** A buffer is the only one for its block. *)
Lemma cinv_only pid c B L b x n b' x' :
  cinv pid c B L → B !! b = Some x → b_dev x = 1 → b_blockno x = Z.of_nat n →
  b' ≠ b → B !! b' = Some x' → b_dev x' = 1 → b_blockno x' ≠ Z.of_nat n.
Proof. intros H Hx Hd Hn Hne Hx' Hd' Hn'. apply Hne. eapply (ci_uniq _ _ _ _ H); eauto. congruence. Qed.

Lemma cinv_hold pid c B L b x n :
  cinv pid c B L → B !! b = Some x → c_held c !! b = None →
  (∀ b' x', b' ≠ b → B !! b' = Some x' → b_dev x' = 1 → b_blockno x' ≠ Z.of_nat n) →
  (∀ m d, c_dirty c !! m = Some d → b_dev x = 1 → b_blockno x = Z.of_nat m → m = n) →
  (n < length (c_disk c))%nat →
  cinv pid (c_hold b n c) (<[b := held_buf pid c n (c_view n c)]> B) L.
Proof.
  intros H Hx Hb Hu Hxd Hn. eapply (cinv_update pid c _ _ _ _ _ _ _ n); try done; [apply H|..].
  - apply (bo_held pid (c_hold b n c)). apply lookup_insert_eq.
  - intros b' x' Hne _ Ho. assert (c_held (c_hold b n c) !! b' = c_held c !! b') as E by (by apply lookup_insert_ne).
    destruct Ho; [apply (bo_held pid (c_hold b n c))|apply bo_unused|apply bo_clean|apply bo_dirty]; by rewrite ?E.
  - intros m Hm. destruct (decide (m = n)); [by left|]. right. split; [done|]. intros Hd1 Hb1.
    destruct Hm as [d Hm]. by apply (Hxd m d) in Hm.
  - intros b' m d. simpl. intros Hm Hne. by rewrite lookup_insert_ne in Hm.
Qed.

Lemma cinv_store pid c B L b n d d' :
  cinv pid c B L → c_held c !! b = Some (n, d) →
  cinv pid (c_store b d' c) (<[b := held_buf pid c n d']> B) L.
Proof.
  intros H Hh. pose proof (cinv_held _ _ _ _ _ _ _ H Hh) as Hx.
  eapply (cinv_update pid c _ _ _ _ _ _ _ n); try done; [apply H|..].
  - apply (bo_held pid (c_store b d' c)). simpl. by rewrite lookup_alter_eq, Hh.
  - intros b' x' Hne Hx'. exact (cinv_only _ _ _ _ _ _ n _ _ H Hx eq_refl eq_refl Hne Hx').
  - intros b' x' Hne _ Ho.
    assert (c_held (c_store b d' c) !! b' = c_held c !! b') as E by (by apply lookup_alter_ne).
    destruct Ho; [apply (bo_held pid (c_store b d' c))|apply bo_unused|apply bo_clean|apply bo_dirty]; by rewrite ?E.
  - intros m Hm. destruct (decide (m = n)); [by left|right]. split; [done|]. simpl. lia.
  - intros b' m d1 Hm Hne. simpl in Hm. by rewrite lookup_alter_ne in Hm.
  - by eapply (ci_held _ _ _ _ H).
Qed.

Lemma cinv_write pid c B L b n d :
  cinv pid c B L → c_held c !! b = Some (n, d) →
  cinv pid (c_write n d c) (<[b := held_buf pid (c_write n d c) n d]> B) L.
Proof.
  intros H Hh. pose proof (cinv_held _ _ _ _ _ _ _ H Hh) as Hx.
  eapply (cinv_update pid c _ _ _ _ _ _ _ n); try done; [apply H|..].
  - by apply (bo_held pid (c_write n d c)).
  - intros b' x' Hne Hx'. exact (cinv_only _ _ _ _ _ _ n _ _ H Hx eq_refl eq_refl Hne Hx').
  - intros b' x' Hne Hx' Ho.
    assert (b_dev x' = 1 → b_blockno x' ≠ Z.of_nat n) as Hu
      by exact (cinv_only _ _ _ _ _ _ n _ _ H Hx eq_refl eq_refl Hne Hx').
    destruct Ho as [m d1 ?|dev blk d1 ? ?|m d1 ???|m d1 ??]; simpl in Hu.
    + replace (c_flags m c) with (c_flags m (c_write n d c)); [by apply bo_held|].
      unfold c_flags. simpl. rewrite lookup_delete_ne by lia. done.
    + by apply bo_unused.
    + apply bo_clean; simpl; [done|rewrite lookup_delete_ne by lia|rewrite list_lookup_insert_ne by lia]; done.
    + apply bo_dirty; simpl; [done|rewrite lookup_delete_ne by lia]; done.
  - intros m Hm. simpl in Hm. destruct (decide (m = n)) as [->|]; [by left|right].
    rewrite lookup_delete_ne in Hm by done. split; [done|]. simpl. lia.
  - by apply length_insert.
  - by eapply (ci_held _ _ _ _ H).
Qed.

Lemma cinv_pin pid c B L b n d :
  cinv pid c B L → c_held c !! b = Some (n, d) →
  cinv pid (c_pin n d c) (<[b := held_buf pid (c_pin n d c) n d]> B) L.
Proof.
  intros H Hh. pose proof (cinv_held _ _ _ _ _ _ _ H Hh) as Hx.
  eapply (cinv_update pid c _ _ _ _ _ _ _ n); try done; [apply H|..].
  - by apply (bo_held pid (c_pin n d c)).
  - intros b' x' Hne Hx'. exact (cinv_only _ _ _ _ _ _ n _ _ H Hx eq_refl eq_refl Hne Hx').
  - intros b' x' Hne Hx' Ho.
    assert (b_dev x' = 1 → b_blockno x' ≠ Z.of_nat n) as Hu
      by exact (cinv_only _ _ _ _ _ _ n _ _ H Hx eq_refl eq_refl Hne Hx').
    destruct Ho as [m d1 ?|dev blk d1 ? ?|m d1 ???|m d1 ??]; simpl in Hu.
    + replace (c_flags m c) with (c_flags m (c_pin n d c)); [by apply bo_held|].
      unfold c_flags. simpl. rewrite lookup_insert_ne by lia. done.
    + by apply bo_unused.
    + apply bo_clean; simpl; [done|rewrite lookup_insert_ne by lia|]; done.
    + apply bo_dirty; simpl; [done|rewrite lookup_insert_ne by lia]; done.
  - intros m Hm. simpl in Hm. destruct (decide (m = n)) as [->|]; [by left|right].
    rewrite lookup_insert_ne in Hm by done. split; [done|]. simpl. lia.
  - by eapply (ci_held _ _ _ _ H).
Qed.

(** The buffer as brelse leaves it, at the front of the list. *)
Definition released_buf (c : cache) (n : nat) (d : list Z) : buf :=
  Buf (c_flags n c) 1 (Z.of_nat n) sleeplock0 0 d.

Lemma cinv_release pid c B L b n d :
  cinv pid c B L → c_held c !! b = Some (n, d) →
  (c_dirty c !! n = None → c_disk c !! n = Some d) →
  cinv pid (c_release b n d c) (<[b := released_buf c n d]> B) (b :: filter (λ a, a ≠ b) L).
Proof.
  intros H Hh Hclean. pose proof (cinv_held _ _ _ _ _ _ _ H Hh) as Hx.
  eapply (cinv_update pid c _ _ _ _ _ _ _ n); try done.
  - apply NoDup_Permutation.
    + constructor; [rewrite list_elem_of_filter; naive_solver|]. apply NoDup_filter.
      rewrite (ci_lru _ _ _ _ H). apply NoDup_seq.
    + apply NoDup_seq.
    + intros a. rewrite elem_of_cons, list_elem_of_filter, (ci_lru _ _ _ _ H), !elem_of_seq.
      pose proof (proj1 (ci_held _ _ _ _ H _ _ _ Hh)). destruct (decide (a = b)); naive_solver lia.
  - unfold released_buf, c_flags. destruct (c_dirty c !! n) eqn:E.
    + apply bo_dirty; simpl; [apply lookup_delete_eq|by rewrite lookup_alter_eq, E].
    + apply bo_clean; simpl; [apply lookup_delete_eq|by rewrite lookup_alter_eq, E|auto].
  - intros b' x' Hne Hx'. exact (cinv_only _ _ _ _ _ _ n _ _ H Hx eq_refl eq_refl Hne Hx').
  - intros b' x' Hne Hx' Ho.
    assert (b_dev x' = 1 → b_blockno x' ≠ Z.of_nat n) as Hu
      by exact (cinv_only _ _ _ _ _ _ n _ _ H Hx eq_refl eq_refl Hne Hx').
    assert (c_held (c_release b n d c) !! b' = c_held c !! b') as Eh by (by apply lookup_delete_ne).
    assert (∀ m, m ≠ n → c_dirty (c_release b n d c) !! m = c_dirty c !! m) as Ed
      by (intros; by apply lookup_alter_ne).
    destruct Ho as [m d1 ?|dev blk d1 ? ?|m d1 ???|m d1 ??]; simpl in Hu.
    + replace (c_flags m c) with (c_flags m (c_release b n d c)); [apply bo_held; by rewrite Eh|].
      unfold c_flags. by rewrite Ed by lia.
    + apply bo_unused; by rewrite ?Eh.
    + apply bo_clean; rewrite ?Eh, ?Ed by lia; done.
    + apply bo_dirty; rewrite ?Eh, ?Ed by lia; done.
  - intros m Hm. simpl in Hm. destruct (decide (m = n)) as [->|]; [by left|right].
    rewrite lookup_alter_ne in Hm by done. split; [done|]. simpl. lia.
  - intros b' m d1 Hm Hne. simpl in Hm. by rewrite lookup_delete_ne in Hm.
  - by eapply (ci_held _ _ _ _ H).
Qed.

(** ** The operations on the abstract cache *)

(** [k] is [k0] but for the cache, the disk, the power and the threads woken. *)
Definition cframe (k0 k : kernel) : Prop :=
  ∃ B L D T W, k = set_k_bufs B (set_k_lru L (set_k_disk D (set_k_ttable T (set_k_power W k0)))).

Record cst (pid : Z) (c : cache) (k0 k : kernel) : Prop := {
  cs_quiet : quiet pid k;
  cs_inv : cinv pid c (k_bufs k) (k_lru k);
  cs_disk : k_disk k = c_disk c;
  cs_frame : cframe k0 k
}.

Lemma cframe_refl k : cframe k k.
Proof. exists (k_bufs k), (k_lru k), (k_disk k), (k_ttable k), (k_power k). by destruct k. Qed.

Lemma cframe_upd k0 k B L D W :
  cframe k0 k → cframe k0 (set_k_bufs B (set_k_lru L (set_k_disk D (set_k_power W k)))).
Proof. intros (B' & L' & D' & T & W' & ->). exists B, L, D, T, W. by destruct k0. Qed.

Lemma quiet_upd pid k B L D W :
  quiet pid k → quiet pid (set_k_bufs B (set_k_lru L (set_k_disk D (set_k_power W k)))).
Proof. by apply quiet_ext. Qed.

(** A change of the cache and the disk that the abstract cache follows. *)
Lemma cst_upd pid c c' k0 k B L W :
  cst pid c k0 k → cinv pid c' B L →
  cst pid c' k0 (set_k_bufs B (set_k_lru L (set_k_disk (c_disk c') (set_k_power W k)))).
Proof. intros [Q _ _ F] H. split; [by apply quiet_upd|done|done|by apply cframe_upd]. Qed.

Lemma cst_bufs pid c c' k0 k B :
  cst pid c k0 k → c_disk c' = c_disk c → cinv pid c' B (k_lru k) → cst pid c' k0 (set_k_bufs B k).
Proof.
  intros S E H. replace (set_k_bufs B k) with
    (set_k_bufs B (set_k_lru (k_lru k) (set_k_disk (c_disk c') (set_k_power (k_power k) k)))).
  - by eapply cst_upd.
  - rewrite E, <- (cs_disk _ _ _ _ S). by destruct k.
Qed.

Lemma cst_wake pid c k0 k ch : cst pid c k0 k → cst pid c k0 (wake_all ch k).
Proof.
  intros [Q I D (B & L & D' & T & W & F)].
  assert (∀ T', cframe k0 (set_k_ttable T' k)) as HF.
  { intros T'. exists B, L, D', T', W. rewrite F. by destruct k0. }
  pose proof (quiet_wake_all _ ch _ Q) as Qw. pose proof (wake_all_frame ch k) as E.
  set (k' := wake_all ch k) in *. clearbody k'.
  split; [done|by rewrite E|by rewrite E|rewrite E; apply HF].
Qed.

Lemma rd_buf_eq b o k x : k_bufs k !! b = Some x → rd_buf b o k = Ok x k o.
Proof. intros H. unfold rd_buf. mrun. by rewrite H. Qed.
Lemma upd_buf_eq b f o k x :
  k_bufs k !! b = Some x → upd_buf b f o k = Ok tt (set_k_bufs (<[b := f x]> (k_bufs k)) k) o.
Proof. intros H. unfold upd_buf, modify. by rewrite (list_alter_at _ _ _ _ H). Qed.

Lemma holdingsleep_buf b o k pid x :
  quiet pid k → k_bufs k !! b = Some x → b_lock x = Sleeplock 1 pid → (b < NBUF)%nat →
  holdingsleep (Lbufsleep b) o k = Ok true k o.
Proof.
  intros Q Hx Hl Hb. rewrite (holdingsleep_quiet _ _ _ pid (Sleeplock 1 pid)); [|done|auto with xv6|].
  - simpl. by rewrite Z.eqb_refl.
  - simpl. by rewrite Hx; simpl; rewrite Hl.
Qed.

(** Taking the sleep lock of a free buffer. *)
Lemma acquiresleep_buf b o k pid x :
  quiet pid k → k_bufs k !! b = Some x → b_lock x = sleeplock0 → (b < NBUF)%nat →
  acquiresleep (Lbufsleep b) o k =
    Ok tt (set_k_bufs (<[b := set_b_lock (Sleeplock 1 pid) x]> (k_bufs k)) k) o.
Proof.
  intros Q Hx Hl Hb. rewrite (acquiresleep_quiet _ _ _ pid sleeplock0); [|done|auto with xv6| |done].
  - simpl. by rewrite (list_alter_at _ _ _ _ Hx).
  - simpl. by rewrite Hx; simpl; rewrite Hl.
Qed.

(** No buffer in use is for block [n], and there is one for it if it is pinned,
    or room for one. *)
Definition can_read (n : nat) (c : cache) : Prop :=
  (n < length (c_disk c))%nat ∧ (∀ b d, c_held c !! b ≠ Some (n, d)) ∧
  (is_Some (c_dirty c !! n) ∨ (size (c_held c) + size (c_dirty c) < NBUF)%nat).

(** What bget may do with position [b] to make it the buffer of block [n]. *)
Record takes (c : cache) (B : list buf) (b n : nat) (x : buf) : Prop := {
  tk_at : B !! b = Some x;
  tk_free : c_held c !! b = None;
  tk_only b' x' : b' ≠ b → B !! b' = Some x' → b_dev x' = 1 → b_blockno x' ≠ Z.of_nat n;
  tk_pin m d : c_dirty c !! m = Some d → b_dev x = 1 → b_blockno x = Z.of_nat m → m = n
}.

Lemma bget_eq pid c k0 k o n :
  cst pid c k0 k → can_read n c →
  ∃ b x y, takes c (k_bufs k) b n x ∧
    bget 1 (Z.of_nat n) o k = Ok b (set_k_bufs (<[b := y]> (k_bufs k)) k) o ∧
    (y = held_buf pid c n (c_view n c) ∨
     c_dirty c !! n = None ∧ ∃ d, y = Buf 0 1 (Z.of_nat n) (Sleeplock 1 pid) 1 d).
Proof.
  intros S (Hn & Hnh & Hroom). pose proof (cs_quiet _ _ _ _ S) as Q. pose proof (cs_inv _ _ _ _ S) as I.
  pose proof (q_calm _ _ Q) as Hc. pose proof (q_free _ _ Q _ fl_bcache) as Hf.
  assert (∀ b x y z, k_bufs k !! b = Some x → b_lock (y x) = sleeplock0 →
    set_b_lock (Sleeplock 1 pid) (y x) = z →
    (upd_buf b y ;;; release Lbcache ;;; acquiresleep (Lbufsleep b) ;;; ret b)%K o
      (set_k_lk (lk_acquire Lbcache (k_lk k)) k) =
    Ok b (set_k_bufs (<[b := z]> (k_bufs k)) k) o) as Htail.
  { intros b x y z Hx Hl <-. erewrite bind_ok; [|apply upd_buf_eq; kproj; exact Hx]. kproj.
    krelease Hc Hf. pose proof (lookup_lt_Some _ _ _ Hx) as Hb.
    erewrite bind_ok; [|apply (acquiresleep_buf b o _ pid (y x)); [by apply (quiet_ext pid k)| |done|]].
    - kproj. rewrite list_insert_insert_eq. by destruct k.
    - kproj. by apply list_lookup_insert_eq.
    - by rewrite <- (ci_len _ _ _ _ I). }
  unfold bget. kacquire Hc Hf. mrun. kproj. destruct (buf_scan _ _ _) as [b|] eqn:E1.
  - apply buf_scan_Some in E1 as (_ & x & Hx & Ht). unfold is_block in Ht. to_prop.
    assert (takes c (k_bufs k) b n x) as Htk.
    { split; [done| | |].
      - destruct (ci_buf _ _ _ _ I _ _ Hx) as [m d Hm| | |]; [|done..]. simpl in *.
        assert (m = n) as -> by lia. by apply Hnh in Hm.
      - intros b' x' Hne Hx'. exact (cinv_only _ _ _ _ _ _ n _ _ I Hx ltac:(done) ltac:(done) Hne Hx').
      - intros m d _ _. lia. }
    exists b, x, (held_buf pid c n (c_view n c)). split_and!; [done| |by left].
    pose proof (tk_free _ _ _ _ _ Htk) as Hfr.
    destruct (ci_buf _ _ _ _ I _ _ Hx) as [m d Hm| |m d ? Hd Hdk|m d ? Hd]; simpl in *; try congruence;
      assert (m = n) as -> by lia; apply (Htail _ _ _ _ Hx); try done;
      unfold held_buf, c_flags, c_view; rewrite Hd; simpl; [|done].
    by rewrite (nth_lookup_Some _ _ _ _ Hdk).
  - assert (∀ b x, k_bufs k !! b = Some x → b_dev x = 1 → b_blockno x ≠ Z.of_nat n) as Hno.
    { intros b x Hx Hd Hb. pose proof (buf_scan_None _ _ _ _ _ E1 (cinv_on_list _ _ _ _ _ _ I Hx) Hx) as Ht.
      unfold is_block in Ht. rewrite Hd, Hb, !Z.eqb_refl in Ht. done. }
    assert (c_dirty c !! n = None) as Hnd.
    { destruct (c_dirty c !! n) eqn:E; [|done]. destruct (ci_dirty _ _ _ _ I n) as (b & x & Hx & ? & ?); [done|].
      by destruct (Hno b x). }
    destruct Hroom as [[??]|Hroom]; [congruence|]. destruct (cinv_room _ _ _ _ I Hroom) as (b0 & x0 & Hx0 & Hf0).
    destruct (buf_scan is_free _ _) as [b|] eqn:E2.
    2:{ rewrite (buf_scan_None _ _ _ b0 x0 E2) in Hf0; [done| |done].
        apply list_elem_of_In, in_rev. rewrite rev_involutive. apply list_elem_of_In.
        by eapply cinv_on_list. }
    apply buf_scan_Some in E2 as (_ & x & Hx & Ht). unfold is_free in Ht. to_prop.
    assert (b_lock x = sleeplock0 ∧ takes c (k_bufs k) b n x) as [Hl Htk].
    { pose proof (ci_buf _ _ _ _ I _ _ Hx) as Ho. split; [destruct Ho; done|split].
      - done.
      - destruct Ho; done.
      - intros b' x' _. apply Hno.
      - intros m d Hm Hd Hb. destruct Ho as [| |m' d' ? Hm'|]; simpl in *; [done|done| |done].
        assert (m' = m) by lia. congruence. }
    eexists b, x, _. split_and!; [exact Htk|apply (Htail _ _ _ _ Hx); [exact Hl|reflexivity]|].
    right. split; [done|]. exists (b_data x). done.
Qed.

(** Reading a block into the buffer that was just assigned to it. *)
Lemma iderw_read pid k o b n d :
  quiet pid k → k_bufs k !! b = Some (Buf 0 1 (Z.of_nat n) (Sleeplock 1 pid) 1 d) →
  (b < NBUF)%nat → (n < length (k_disk k))%nat →
  iderw b o k = Ok tt (set_k_bufs (<[b := Buf B_VALID 1 (Z.of_nat n) (Sleeplock 1 pid) 1
                                        (nth n (k_disk k) [])]> (k_bufs k)) k) o.
Proof.
  intros Q Hx Hb Hn. unfold iderw.
  rewrite (bind_ok _ _ _ _ _ _ _ (holdingsleep_buf _ _ _ _ _ Q Hx eq_refl Hb)). mrun.
  rewrite (bind_ok _ _ _ _ _ _ _ (rd_buf_eq _ _ _ _ Hx)). cbn [b_flags b_dev b_blockno b_data].
  change (Z.land 0 (Z.lor B_VALID B_DIRTY) =? B_VALID) with false. change (1 =? 1) with true. mrun.
  rewrite (proj2 (Z.leb_gt _ _)) by lia. change (Z.land 0 B_DIRTY =? 0) with true. unfold disk_read. mrun. mrun. rewrite Nat2Z.id.
  rewrite (bind_ok _ _ _ _ _ _ _ (upd_buf_eq _ _ _ _ _ Hx)).
  rewrite (upd_buf_eq _ _ _ _ (Buf 0 1 (Z.of_nat n) (Sleeplock 1 pid) 1 (nth n (k_disk k) []))).
  - kproj. rewrite list_insert_insert_eq. by destruct k.
  - kproj. apply list_lookup_insert_eq. by eapply lookup_lt_Some.
Qed.

Lemma bread_spec pid c k0 k o n C :
  cst pid c k0 k → can_read n c →
  cruns (bread 1 (Z.of_nat n)) o k
    (λ b k', c_held c !! b = None ∧ cst pid (c_hold b n c) k0 k') C.
Proof.
  intros S Hr. destruct (bget_eq _ _ _ _ o _ S Hr) as (b & x & y & Htk & E & Hy).
  pose proof (cs_inv _ _ _ _ S) as I. destruct Htk as [Hx Hfree Hu Hp]. destruct Hr as (Hn & _ & _).
  pose proof (lookup_lt_Some _ _ _ Hx) as Hlt.
  assert (cst pid (c_hold b n c) k0
    (set_k_bufs (<[b := held_buf pid c n (c_view n c)]> (k_bufs k)) k)) as S'
    by (apply (cst_bufs pid c); [done..|by eapply cinv_hold]).
  set (k1 := set_k_bufs (<[b := y]> (k_bufs k)) k) in *.
  assert (k_bufs k1 !! b = Some y) as Hy1 by (by apply list_lookup_insert_eq).
  unfold bread. eapply cruns_step; [exact E|done|].
  eapply cruns_step; [apply rd_buf_eq; exact Hy1|done|].
  destruct Hy as [->|(Hnd & d & ->)].
  - eapply (cruns_ok _ _ _ b k1); [|done|by split].
    unfold held_buf, c_flags. by destruct (c_dirty c !! n).
  - eapply cruns_ok.
    + mrun. rewrite (bind_ok _ _ _ _ _ _ _ (iderw_read pid k1 o b n d
        ltac:(by apply (quiet_ext pid k); [..|apply (cs_quiet _ _ _ _ S)]) Hy1
        ltac:(by rewrite <- (ci_len _ _ _ _ I)) ltac:(by simpl; rewrite (cs_disk _ _ _ _ S)))). done.
    + done.
    + split; [done|]. unfold k1. kproj. rewrite list_insert_insert_eq.
      replace (Buf B_VALID 1 (Z.of_nat n) (Sleeplock 1 pid) 1 (nth n (k_disk k) []))
        with (held_buf pid c n (c_view n c)); [by destruct k|].
      unfold held_buf, c_flags, c_view. by rewrite Hnd, (cs_disk _ _ _ _ S).
Qed.

(** Storing into the buffer of a block in use. *)
Lemma upd_buf_spec pid c k0 k o b n d d' f C :
  cst pid c k0 k → c_held c !! b = Some (n, d) →
  f (held_buf pid c n d) = held_buf pid c n d' →
  cruns (upd_buf b f) o k (λ _ k', cst pid (c_store b d' c) k0 k') C.
Proof.
  intros S Hh Hf. pose proof (cs_inv _ _ _ _ S) as I. pose proof (cinv_held _ _ _ _ _ _ _ I Hh) as Hx.
  eapply cruns_ok; [by apply upd_buf_eq|done|]. rewrite Hf.
  apply (cst_bufs pid c); [done..|]. by eapply cinv_store.
Qed.

Lemma rd_buf_spec {A} pid c k0 k o b n d (f : buf → KM A) Q C :
  cst pid c k0 k → c_held c !! b = Some (n, d) →
  cruns (f (held_buf pid c n d)) o k Q C → cruns (bind (rd_buf b) f) o k Q C.
Proof.
  intros S Hh H. eapply cruns_step; [|done|exact H].
  apply rd_buf_eq, (cinv_held _ _ _ _ _ _ _ (cs_inv _ _ _ _ S) Hh).
Qed.

(** A write of the buffer's block: the power may fail before it. *)
Lemma bwrite_spec pid c k0 k o b n d C :
  cst pid c k0 k → c_held c !! b = Some (n, d) → C (c_disk c) →
  cruns (bwrite b) o k (λ _ k', cst pid (c_write n d c) k0 k') C.
Proof.
  intros S Hh HC. pose proof (cs_inv _ _ _ _ S) as I. pose proof (cs_quiet _ _ _ _ S) as Q.
  pose proof (cinv_held _ _ _ _ _ _ _ I Hh) as Hx. destruct (ci_held _ _ _ _ I _ _ _ Hh) as [Hb Hn].
  pose proof (lookup_lt_Some _ _ _ Hx) as Hlt.
  unfold bwrite. eapply cruns_step; [by eapply holdingsleep_buf|done|]. cbn [negb].
  set (x1 := Buf (Z.lor B_VALID B_DIRTY) 1 (Z.of_nat n) (Sleeplock 1 pid) 1 d).
  set (k1 := set_k_bufs (<[b := x1]> (k_bufs k)) k).
  eapply (cruns_step _ _ _ _ _ k1); [|done|].
  { rewrite (upd_buf_eq _ _ _ _ _ Hx). unfold k1, x1, held_buf, c_flags. by destruct (c_dirty c !! n). }
  assert (k_bufs k1 !! b = Some x1) as Hx1 by (by apply list_lookup_insert_eq).
  unfold iderw. eapply cruns_step.
  { apply (holdingsleep_buf _ _ _ pid x1); [by apply (quiet_ext pid k)|done..]. } { done. }
  cbn [negb]. eapply cruns_step; [by apply rd_buf_eq|done|].
  unfold x1. cbn [b_flags b_dev b_blockno b_data]. change (_ =? B_VALID) with false.
  change (1 =? 1) with true. change (_ =? 0) with false. fold x1.
  apply (cruns_eq _ (let! _ := upd_buf b (λ y, set_b_flags (Z.land (b_flags y) (Z.lnot B_DIRTY)) y) in
    disk_write (Z.of_nat n) d ;;; upd_buf b (λ y, set_b_flags (Z.lor (b_flags y) B_VALID) y))%K).
  { mrun. change (k_disk k1) with (k_disk k). rewrite (cs_disk _ _ _ _ S), (proj2 (Z.leb_gt _ _)) by lia. by mrun. }
  set (x2 := Buf B_VALID 1 (Z.of_nat n) (Sleeplock 1 pid) 1 d).
  set (k2 := set_k_bufs (<[b := x2]> (k_bufs k)) k).
  eapply (cruns_step _ _ _ _ _ k2); [|done|].
  { rewrite (upd_buf_eq _ _ _ _ _ Hx1). unfold k1, k2. kproj. rewrite list_insert_insert_eq. by destruct k. }
  assert (∀ W, cruns (upd_buf b (λ y, set_b_flags (Z.lor (b_flags y) B_VALID) y)) o
    (set_k_disk (<[n := d]> (k_disk k2)) (set_k_power W k2))
    (λ _ k', cst pid (c_write n d c) k0 k') C) as Hend.
  { intros W. eapply cruns_ok; [apply (upd_buf_eq _ _ _ _ x2); kproj; by apply list_lookup_insert_eq|done|].
    pose proof (cst_upd _ _ _ _ _ _ _ W S (cinv_write _ _ _ _ _ _ _ I Hh)) as S'.
    unfold k2. kproj. rewrite list_insert_insert_eq, (cs_disk _ _ _ _ S).
    unfold held_buf, c_flags in S'. simpl in S'. rewrite lookup_delete_eq in S'. by destruct k. }
  apply cruns_bind. unfold disk_write, cruns. mrun. rewrite Nat2Z.id. unfold k2 at 1. kproj.
  destruct (k_power k) as [[|w]|] eqn:Ew; mrun.
  - split; [unfold k2; kproj; by rewrite Ew|]. unfold k2. kproj. by rewrite (cs_disk _ _ _ _ S).
  - unfold modify. split_and!; [done|unfold k2; kproj; by rewrite Ew|]. apply (Hend (Some w)).
  - unfold modify. split_and!; [done|done|]. pose proof (Hend None) as He.
    replace (set_k_power None k2) with k2 in He; [done|]. unfold k2. rewrite <- Ew. by destruct k.
Qed.

(** A change of the cache after some threads were woken. *)
Lemma cst_woken pid c c' k0 k k1 B1 T B L :
  cst pid c k0 k → k1 = set_k_ttable T (set_k_bufs B1 k) → quiet pid k1 →
  cinv pid c' B L → c_disk c' = c_disk c → cst pid c' k0 (set_k_bufs B (set_k_lru L k1)).
Proof.
  intros [_ _ D (B0 & L0 & D0 & T0 & W & F)] E Q H Ed. split.
  - by apply (quiet_ext pid k1).
  - done.
  - rewrite E. kproj. congruence.
  - exists B, L, D0, T, W. rewrite E, F. by destruct k0.
Qed.

(** Giving a buffer back: its contents must be on the disk unless the block is
    pinned. *)
Lemma brelse_spec pid c k0 k o b n d C :
  cst pid c k0 k → c_held c !! b = Some (n, d) →
  (c_dirty c !! n = None → c_disk c !! n = Some d) →
  cruns (brelse b) o k (λ _ k', cst pid (c_release b n d c) k0 k') C.
Proof.
  intros S Hh Hclean. pose proof (cs_inv _ _ _ _ S) as I. pose proof (cs_quiet _ _ _ _ S) as Q.
  pose proof (cinv_held _ _ _ _ _ _ _ I Hh) as Hx. destruct (ci_held _ _ _ _ I _ _ _ Hh) as [Hb Hn].
  pose proof (lookup_lt_Some _ _ _ Hx) as Hlt.
  unfold brelse. eapply cruns_step; [by eapply holdingsleep_buf|done|]. cbn [negb].
  eapply cruns_step; [apply (releasesleep_quiet _ _ _ pid); [done|auto with xv6|done]|
    by rewrite wake_all_frame|].
  simpl sl_put. rewrite (list_alter_at _ _ _ _ Hx). fold sleeplock0.
  set (ch := ChSleeplock (Lbufsleep b)). set (x1 := set_b_lock _ _).
  set (k1 := set_k_bufs (<[b := x1]> (k_bufs k)) k).
  assert (quiet pid (wake_all ch k1)) as Q1.
  { apply quiet_wake_all. by apply (quiet_ext pid k). }
  pose proof (wake_all_frame ch k1) as Ef. set (k2 := wake_all ch k1) in *. clearbody k2.
  assert (k_bufs k2 = <[b := x1]> (k_bufs k) ∧ k_lru k2 = k_lru k) as [Eb El] by (by rewrite Ef).
  pose proof (q_calm _ _ Q1) as Hc. pose proof (q_free _ _ Q1 _ fl_bcache) as Hf.
  pose proof (cst_woken _ _ _ _ _ _ _ _ _ _ S Ef Q1 (cinv_release _ _ _ _ _ _ _ I Hh Hclean) eq_refl) as S'.
  eapply cruns_ok; [| |exact S']; [|by rewrite Ef].
  kacquire Hc Hf. erewrite bind_ok; [|apply (upd_buf_eq _ _ _ _ x1); kproj; rewrite Eb; by apply list_lookup_insert_eq].
  kproj. erewrite bind_ok; [|apply rd_buf_eq; kproj; rewrite Eb, list_insert_insert_eq; by apply list_lookup_insert_eq].
  change (b_refcnt _ =? 0) with true. mrun. krelease Hc Hf.
  rewrite Eb, El, list_insert_insert_eq. by destruct k2.
Qed.
