(* ===== verification/Ide.v ===== *)
(** * The IDE disk driver

    [ide.c], which takes the place of [memide.c] in a kernel for a real disk: a
    queue of buffers, the registers of the disk controller, and the interrupt
    that reports that a request is done.  The [qnext] list is the list
    [k_idequeue] of buffer positions; a buffer is put into it only while its
    sleep lock is held, so it is not in it already.

    The disk itself is described by [ata_step]: what an access to one of its
    registers does to the state of the controller and to the sectors.  The
    theorems hold for a device that answers as that description says and is
    ready within the polls the driver makes. *)

From S2P Require Import Prelude Defs Bytes Ports Spinlock Kernel Cprintf Apic Sched Sleeplock Bio.
Local Open Scope kernel_scope.

(** ** ide.c *)

Definition SECTOR_SIZE : Z := 512.
Definition IDE_BSY : Z := 0x80.
Definition IDE_DRDY : Z := 0x40.
Definition IDE_DF : Z := 0x20.
Definition IDE_ERR : Z := 0x01.
Definition IDE_CMD_READ : Z := 0x20.
Definition IDE_CMD_WRITE : Z := 0x30.
Definition IDE_CMD_RDMUL : Z := 0xc4.
Definition IDE_CMD_WRMUL : Z := 0xc5.

Definition ide_ready (r : Z) : bool := Z.land r (Z.lor IDE_BSY IDE_DRDY) =? IDE_DRDY.

Definition idewait (checkerr : bool) : KM Z :=
  let! r := poll_until (inb 0x1f7) ide_ready in
  if checkerr && negb (Z.land r (Z.lor IDE_DF IDE_ERR) =? 0) then ret (-1) else ret 0.

(** [for(i=0; i<1000; i++) if(inb(0x1f7) != 0){ havedisk1 = 1; break; }] *)
Fixpoint find_disk1 (n : nat) : KM unit :=
  match n with
  | O => ret tt
  | S n' =>
      let! r := inb 0x1f7 in
      if negb (r =? 0) then modify (set_k_havedisk1 1) else find_disk1 n'
  end.

Definition ideinit : KM unit :=
  initlock Lide "ide" ;;;
  let! ncpu := gets (λ k, Z.of_nat (length (lk_cpus (k_lk k)))) in
  ioapicenable IRQ_IDE (ncpu - 1) ;;;
  let! _ := idewait false in
  outb 0x1f6 (Z.lor 0xe0 (Z.shiftl 1 4)) ;;;
  find_disk1 1000 ;;;
  outb 0x1f6 (Z.lor 0xe0 (Z.shiftl 0 4)).

Definition idestart (b : option nat) : KM unit :=
  match b with
  | None => panic "idestart"
  | Some b =>
      let! x := rd_buf b in
      if FSSIZE <=? b_blockno x then panic "incorrect blockno"
      else
        let sector_per_block := BSIZE / SECTOR_SIZE in
        let sector := i32 (b_blockno x * sector_per_block) in
        let read_cmd := if sector_per_block =? 1 then IDE_CMD_READ else IDE_CMD_RDMUL in
        let write_cmd := if sector_per_block =? 1 then IDE_CMD_WRITE else IDE_CMD_WRMUL in
        if 7 <? sector_per_block then panic "idestart"
        else
          let! _ := idewait false in
          outb 0x3f6 0 ;;;
          outb 0x1f2 sector_per_block ;;;
          outb 0x1f3 (Z.land sector 0xff) ;;;
          outb 0x1f4 (Z.land (Z.shiftr sector 8) 0xff) ;;;
          outb 0x1f5 (Z.land (Z.shiftr sector 16) 0xff) ;;;
          outb 0x1f6 (Z.lor (Z.lor 0xe0 (Z.shiftl (Z.land (b_dev x) 1) 4)) (Z.land (Z.shiftr sector 24) 0x0f)) ;;;
          if negb (Z.land (b_flags x) B_DIRTY =? 0) then
            outb 0x1f7 write_cmd ;;;
            let! x := rd_buf b in
            outsl 0x1f0 (b_data x) (Z.to_nat (BSIZE / 4))
          else outb 0x1f7 read_cmd
  end.

Definition ideintr : KM unit :=
  acquire Lide ;;;
  let! q := gets k_idequeue in
  match q with
  | [] => release Lide
  | b :: q' =>
      modify (set_k_idequeue q') ;;;
      let! x := rd_buf b in
      (if Z.land (b_flags x) B_DIRTY =? 0 then
         let! r := idewait true in
         when (0 <=? r)
           (let! l := insl 0x1f0 (Z.to_nat (BSIZE / 4)) in upd_buf b (set_b_data l))
       else ret tt) ;;;
      upd_buf b (λ x, set_b_flags (Z.lor (b_flags x) B_VALID) x) ;;;
      upd_buf b (λ x, set_b_flags (Z.land (b_flags x) (Z.lnot B_DIRTY)) x) ;;;
      wakeup (ChBuf b) ;;;
      let! q := gets k_idequeue in
      match q with
      | [] => ret tt
      | b' :: _ => idestart (Some b')
      end ;;;
      release Lide
  end.

Definition iderw (b : nat) : KM unit :=
  let! h := holdingsleep (Lbufsleep b) in
  if negb h then panic "iderw: buf not locked"
  else
    let! x := rd_buf b in
    if Z.land (b_flags x) (Z.lor B_VALID B_DIRTY) =? B_VALID then panic "iderw: nothing to do"
    else
      let! havedisk1 := gets k_havedisk1 in
      if negb (b_dev x =? 0) && (havedisk1 =? 0) then panic "iderw: ide disk 1 not present"
      else
        acquire Lide ;;;
        modify (λ k, set_k_idequeue (k_idequeue k ++ [b]) k) ;;;
        let! q := gets k_idequeue in
        when (bool_decide (head q = Some b)) (idestart (Some b)) ;;;
        while_wait
          (let! x := rd_buf b in ret (negb (Z.land (b_flags x) (Z.lor B_VALID B_DIRTY) =? B_VALID)))
          (sleep (ChBuf b) Lide) ;;;
        release Lide.

(** ** The disk *)

(** A transfer in progress: the drive, the sector, and the words read so far or
    the words written so far. *)
Inductive xfer := XNone | XRead (d : bool) (sec : Z) (n : nat) | XWrite (d : bool) (sec : Z) (ws : list Z).

Record ata := Ata {
  at_lba0 : Z; at_lba1 : Z; at_lba2 : Z; at_sel : Z;
  at_xfer : xfer;
  at_disk : bool → list (list Z)  (* sectors of drive 0 and drive 1 *)
}.

Definition ata_sector (a : ata) : Z := at_lba0 a + 256 * at_lba1 a + 65536 * at_lba2 a + 16777216 * Z.land (at_sel a) 15.
Definition ata_drive (a : ata) : bool := Z.testbit (at_sel a) 4.
Definition set_xfer (x : xfer) (a : ata) : ata := Ata (at_lba0 a) (at_lba1 a) (at_lba2 a) (at_sel a) x (at_disk a).
Definition set_sector (d : bool) (sec : Z) (l : list Z) (a : ata) : ata :=
  Ata (at_lba0 a) (at_lba1 a) (at_lba2 a) (at_sel a) (at_xfer a)
    (λ d', if Bool.eqb d' d then <[Z.to_nat sec := l]> (at_disk a d') else at_disk a d').

Definition ata_out8 (p v : Z) (a : ata) : ata :=
  if p =? 0x1f3 then Ata v (at_lba1 a) (at_lba2 a) (at_sel a) (at_xfer a) (at_disk a)
  else if p =? 0x1f4 then Ata (at_lba0 a) v (at_lba2 a) (at_sel a) (at_xfer a) (at_disk a)
  else if p =? 0x1f5 then Ata (at_lba0 a) (at_lba1 a) v (at_sel a) (at_xfer a) (at_disk a)
  else if p =? 0x1f6 then Ata (at_lba0 a) (at_lba1 a) (at_lba2 a) v (at_xfer a) (at_disk a)
  else if p =? 0x1f7 then
    if v =? IDE_CMD_READ then set_xfer (XRead (ata_drive a) (ata_sector a) 0) a
    else if v =? IDE_CMD_WRITE then set_xfer (XWrite (ata_drive a) (ata_sector a) []) a
    else a
  else a.

(** The 128th word ends a transfer. *)
Definition ata_step (e : ioev) (a : ata) : ata :=
  match e with
  | Wr (Port8 p) v => ata_out8 p v a
  | Rd (Port32 p) _ =>
      match at_xfer a with
      | XRead d sec n => if p =? 0x1f0 then set_xfer (if (S n =? 128)%nat then XNone else XRead d sec (S n)) a else a
      | _ => a
      end
  | Wr (Port32 p) w =>
      match at_xfer a with
      | XWrite d sec ws =>
          if p =? 0x1f0 then
            if (S (length ws) =? 128)%nat then set_xfer XNone (set_sector d sec ((ws ++ [w]) ≫= bytes32) a)
            else set_xfer (XWrite d sec (ws ++ [w])) a
          else a
      | _ => a
      end
  | _ => a
  end.

(** The state of the disk after the accesses of a log, from the state [a0]. *)
Definition ata_of (a0 : ata) (log : list ioev) : ata := foldr ata_step a0 log.

(** Ready, and without an error, within [n] polls. *)
Fixpoint ready_within (n : nat) (dev : list ioev → ioreg → Z) (log : list ioev) : bool :=
  let v := dev log (Port8 0x1f7) in
  if ide_ready (u8 v) then Z.land (u8 v) (Z.lor IDE_DF IDE_ERR) =? 0
  else match n with O => false | S n' => ready_within n' dev (Rd (Port8 0x1f7) v :: log) end.

Record speaks_ata (a0 : ata) (p : ports) : Prop := {
  sa_ready : ∀ log, ready_within (io_patience p) (io_dev p) log = true;
  sa_data : ∀ log d sec n, at_xfer (ata_of a0 log) = XRead d sec n →
    io_dev p log (Port32 0x1f0) = get32 (nth (Z.to_nat sec) (at_disk (ata_of a0 log) d) []) (4 * Z.of_nat n)
}.

(** ** Register accesses *)

Lemma ata_of_app a0 l log : ata_of a0 (l ++ log) = foldr ata_step (ata_of a0 log) l.
Proof. apply foldr_app. Qed.
Lemma ata_of_cons a0 e log : ata_of a0 (e :: log) = ata_step e (ata_of a0 log).
Proof. done. Qed.

Lemma poll_ready n o k :
  ready_within n (io_dev (k_io k)) (io_log (k_io k)) = true →
  ∃ l v, poll (S n) (inb 0x1f7) ide_ready o k = Ok v (io_ran l k) o ∧
    Z.land v (Z.lor IDE_DF IDE_ERR) = 0 ∧ Forall (λ e, ∃ w, e = Rd (Port8 0x1f7) w) l.
Proof.
  revert k. induction n as [|n IH]; intros k H; cbn [ready_within] in H; cbn [poll];
    rewrite (bind_ok _ _ _ _ _ _ _ (inb_eq 0x1f7 o k)); unfold answer; cbn [ports_of set_ports kernel_ports] in *;
    set (w := io_dev (k_io k) (io_log (k_io k)) (Port8 0x1f7)) in *; fold (io_ran [Rd (Port8 0x1f7) w] k);
    destruct (ide_ready (u8 w)) eqn:E.
  - exists [Rd (Port8 0x1f7) w], (u8 w). split_and!; [done|by apply Z.eqb_eq|by repeat econstructor].
  - done.
  - exists [Rd (Port8 0x1f7) w], (u8 w). split_and!; [done|by apply Z.eqb_eq|by repeat econstructor].
  - destruct (IH (io_ran [Rd (Port8 0x1f7) w] k) H) as (l & v & E1 & H1 & H2). rewrite io_ran_app in E1.
    exists (l ++ [Rd (Port8 0x1f7) w]), v. split_and!; [exact E1|done|]. apply Forall_app. split; [done|by repeat econstructor].
Qed.

Lemma ata_status a0 l log : Forall (λ e, ∃ w, e = Rd (Port8 0x1f7) w) l → ata_of a0 (l ++ log) = ata_of a0 log.
Proof. induction 1 as [|e l [w ->] _ IH]; [done|]. cbn [app]. by rewrite ata_of_cons, IH. Qed.

(** The wait ends, without an error, and the transfer is not touched. *)
Lemma idewait_ok a0 ce o k :
  speaks_ata a0 (k_io k) →
  ∃ l, idewait ce o k = Ok 0 (io_ran l k) o ∧ ∀ log, ata_of a0 (l ++ log) = ata_of a0 log.
Proof.
  intros [Hr _]. destruct (poll_ready _ o k (Hr (io_log (k_io k)))) as (l & v & E & Hv & Hl).
  exists l. split; [|intros; by apply ata_status]. unfold idewait, poll_until. cbn [ports_of kernel_ports] in *.
  unfold bind at 1. rewrite E, Hv. cbn [Z.eqb negb]. by rewrite andb_false_r.
Qed.

Definition is_byte (x : Z) : Prop := 0 ≤ x < 256.

Lemma bytes32_get32 l off :
  Forall is_byte l → 0 ≤ off → off + 4 ≤ Z.of_nat (length l) → bytes32 (get32 l off) = sub_bytes l off 4.
Proof.
  intros Hb H0 H1. assert (∀ j, 0 ≤ j < Z.of_nat (length l) → is_byte (byte_at l j)) as Hbyte.
  { intros j Hj. unfold byte_at. rewrite nth_lookup. destruct (lookup_lt_is_Some_2 l (Z.to_nat j)) as [x E]; [lia|]. rewrite E. by apply (Forall_lookup_1 _ _ _ _ Hb E). }
  assert (sub_bytes l off 4 = [byte_at l off; byte_at l (off + 1); byte_at l (off + 2); byte_at l (off + 3)]) as ->.
  { unfold sub_bytes. apply list_eq. intros i. destruct (decide (i < 4)%nat) as [Hi|Hi]; cycle 1.
    - rewrite lookup_take_ge by lia. symmetry. apply lookup_ge_None_2. simpl. lia.
    - rewrite lookup_take_lt, lookup_drop by lia. destruct (lookup_lt_is_Some_2 l (Z.to_nat off + i)) as [x E]; [lia|]. rewrite E.
      assert (x = byte_at l (off + Z.of_nat i)) as -> by (unfold byte_at; rewrite nth_lookup; replace (Z.to_nat (off + Z.of_nat i)) with (Z.to_nat off + i)%nat by lia; by rewrite E).
      destruct i as [|[|[|[|i]]]]; [by rewrite Z.add_0_r|done|done|done|lia]. }
  pose proof (Hbyte off ltac:(lia)). pose proof (Hbyte (off + 1) ltac:(lia)). pose proof (Hbyte (off + 2) ltac:(lia)). pose proof (Hbyte (off + 3) ltac:(lia)).
  unfold bytes32, get32, is_byte, u8 in *. generalize dependent (byte_at l off). generalize dependent (byte_at l (off + 1)).
  generalize dependent (byte_at l (off + 2)). generalize dependent (byte_at l (off + 3)). intros d Hd c Hc b Hb' a Ha.
  f_equal; [dlia|]. f_equal; [dlia|]. f_equal; [dlia|]. f_equal. dlia.
Qed.

(** The words of a sector give back its bytes. *)
Lemma words_bytes l n : Forall is_byte l → length l = (4 * n)%nat → words l n ≫= bytes32 = l.
Proof.
  revert l. induction n as [|n IH]; intros l Hb Hl; [by destruct l|]. cbn [words]. rewrite bind_cons, bytes32_get32 by (done || lia).
  rewrite IH; [|by apply Forall_drop|rewrite length_drop; lia]. unfold sub_bytes. cbn [Z.to_nat drop]. by apply take_drop.
Qed.
Lemma length_words l n : length (words l n) = n.
Proof. revert l. induction n as [|n IH]; intros l; [done|]. cbn. by rewrite IH. Qed.

(** ** Transfers *)

Lemma speaks_ran a0 l k : speaks_ata a0 (k_io k) → speaks_ata a0 (k_io (io_ran l k)).
Proof. intros [H1 H2]. by split. Qed.

(** Reading the rest of a sector. *)
Lemma insl_ok a0 d sec cnt n o k :
  let sect := nth (Z.to_nat sec) (at_disk (ata_of a0 (io_log (k_io k))) d) [] in
  speaks_ata a0 (k_io k) → at_xfer (ata_of a0 (io_log (k_io k))) = XRead d sec n → (n + S cnt = 128)%nat →
  Forall is_byte sect → length sect = 512%nat →
  ∃ l, insl 0x1f0 (S cnt) o k = Ok (drop (4 * n) sect) (io_ran l k) o ∧
    ata_of a0 (l ++ io_log (k_io k)) = set_xfer XNone (ata_of a0 (io_log (k_io k))).
Proof.
  revert n k. induction cnt as [|cnt IH]; intros n k sect Hs Hx Hn Hb Hl.
  all: cbn [insl]; unfold bind at 1, io_read, answer; cbn [ports_of set_ports kernel_ports];
    rewrite (sa_data _ _ Hs _ _ _ _ Hx); fold sect; set (w := get32 sect (4 * Z.of_nat n)); fold (io_ran [Rd (Port32 0x1f0) w] k);
    assert (bytes32 w = take 4 (drop (4 * n) sect)) as Ew by
      (unfold w; rewrite bytes32_get32 by (done || lia); unfold sub_bytes; by replace (Z.to_nat (4 * Z.of_nat n)) with (4 * n)%nat by lia).
  - exists [Rd (Port32 0x1f0) w]. mrun. unfold ret. split.
    + rewrite Ew, app_nil_r, take_ge by (rewrite length_drop; lia). done.
    + cbn [app]. rewrite ata_of_cons. cbn [ata_step]. rewrite Hx. change (0x1f0 =? 0x1f0) with true. cbv match.
      by rewrite (proj2 (Nat.eqb_eq _ _)) by lia.
  - set (k1 := io_ran [Rd (Port32 0x1f0) w] k).
    assert (ata_of a0 (io_log (k_io k1)) = set_xfer (XRead d sec (S n)) (ata_of a0 (io_log (k_io k)))) as Ea.
    { unfold k1. rewrite io_ran_log. cbn [app]. rewrite ata_of_cons. cbn [ata_step]. rewrite Hx. change (0x1f0 =? 0x1f0) with true. cbv match.
      by rewrite (proj2 (Nat.eqb_neq _ _)) by lia. }
    destruct (IH (S n) k1) as (l & E & El); rewrite ?Ea; [by apply speaks_ran|done|lia|done|done|].
    rewrite (bind_ok _ _ _ _ _ _ _ E), Ea. cbn [at_disk set_xfer]. fold sect. unfold k1. rewrite io_ran_app. exists (l ++ [Rd (Port32 0x1f0) w]). split.
    + unfold ret. do 2 f_equal. rewrite Ew. replace (4 * S n)%nat with (4 * n + 4)%nat by lia. rewrite <- drop_drop. apply take_drop.
    + rewrite <- app_assoc. cbn [app]. change (Rd (Port32 0x1f0) w :: io_log (k_io k)) with (io_log (k_io k1)). rewrite El, Ea. done.
Qed.

(** Writing the rest of a sector. *)
Lemma ata_write a0 d sec ws l cnt log :
  at_xfer (ata_of a0 log) = XWrite d sec ws → (length ws + S cnt = 128)%nat →
  ata_of a0 (rev (Wr (Port32 0x1f0) <$> words l (S cnt)) ++ log) =
    set_xfer XNone (set_sector d sec ((ws ++ words l (S cnt)) ≫= bytes32) (ata_of a0 log)).
Proof.
  revert ws l log. induction cnt as [|cnt IH]; intros ws l log Hx Hn.
  - cbn [words fmap list_fmap rev app]. rewrite ata_of_cons. cbn [ata_step]. rewrite Hx. change (0x1f0 =? 0x1f0) with true. cbv match.
    by rewrite (proj2 (Nat.eqb_eq _ _)) by lia.
  - change (words l (S (S cnt))) with (get32 l 0 :: words (drop 4 l) (S cnt)).
    change (Wr (Port32 0x1f0) <$> get32 l 0 :: words (drop 4 l) (S cnt)) with (Wr (Port32 0x1f0) (get32 l 0) :: (Wr (Port32 0x1f0) <$> words (drop 4 l) (S cnt))).
    cbn [rev]. rewrite <- app_assoc. cbn [app].
    assert (ata_of a0 (Wr (Port32 0x1f0) (get32 l 0) :: log) = set_xfer (XWrite d sec (ws ++ [get32 l 0])) (ata_of a0 log)) as Ea.
    { rewrite ata_of_cons. cbn [ata_step]. rewrite Hx. change (0x1f0 =? 0x1f0) with true. cbv match. by rewrite (proj2 (Nat.eqb_neq _ _)) by lia. }
    rewrite (IH (ws ++ [get32 l 0])); rewrite ?Ea; [|done|rewrite length_app; simpl; lia]. by rewrite <- app_assoc.
Qed.

(** ** Starting a request *)

Record buf_ok (x : buf) : Prop := {
  bo_block : 0 ≤ b_blockno x < FSSIZE;
  bo_dev : b_dev x = 0 ∨ b_dev x = 1;
  bo_data : Forall is_byte (b_data x);
  bo_len : length (b_data x) = 512%nat
}.
Definition dirty (x : buf) : bool := negb (Z.land (b_flags x) B_DIRTY =? 0).
Definition drive (x : buf) : bool := b_dev x =? 1.

Lemma ata_regs l0 l1 l2 sel a :
  ata_out8 0x1f6 sel (ata_out8 0x1f5 l2 (ata_out8 0x1f4 l1 (ata_out8 0x1f3 l0 a))) = Ata l0 l1 l2 sel (at_xfer a) (at_disk a).
Proof. reflexivity. Qed.

(** The registers name the block. *)
Lemma ata_addressed x xf disk :
  buf_ok x →
  let s := i32 (b_blockno x * 1) in
  let a := Ata (u8 (Z.land s 0xff)) (u8 (Z.land (Z.shiftr s 8) 0xff)) (u8 (Z.land (Z.shiftr s 16) 0xff))
    (u8 (Z.lor (Z.lor 0xe0 (Z.shiftl (Z.land (b_dev x) 1) 4)) (Z.land (Z.shiftr s 24) 0x0f))) xf disk in
  ata_drive a = drive x ∧ ata_sector a = b_blockno x.
Proof.
  intros [Hb Hd _ _]. unfold FSSIZE in Hb. cbv zeta. rewrite Z.mul_1_r, i32_small by lia.
  change 0xff with (Z.ones 8). change 0x0f with (Z.ones 4). rewrite !Z.land_ones, !Z.shiftr_div_pow2 by lia.
  change (2 ^ 8) with 256. change (2 ^ 16) with 65536. change (2 ^ 24) with 16777216. change (2 ^ 4) with 16.
  replace ((b_blockno x / 16777216) `mod` 16) with 0 by dlia. replace ((b_blockno x / 65536) `mod` 256) with 0 by dlia.
  assert (u8 (b_blockno x `mod` 256) = b_blockno x `mod` 256) as -> by (unfold u8; dlia).
  assert (u8 ((b_blockno x / 256) `mod` 256) = b_blockno x / 256) as -> by (unfold u8; dlia).
  unfold ata_drive, ata_sector, drive. cbn [at_sel at_lba0 at_lba1 at_lba2].
  assert (Z.testbit (u8 (Z.lor (Z.lor 224 (Z.shiftl (Z.land (b_dev x) 1) 4)) 0)) 4 = (b_dev x =? 1) ∧
          Z.land (u8 (Z.lor (Z.lor 224 (Z.shiftl (Z.land (b_dev x) 1) 4)) 0)) 15 = 0) as [-> ->] by (by destruct Hd as [-> | ->]).
  split; [done|]. change (u8 0) with 0. dlia.
Qed.

(** What a request does to the sectors of the drives. *)
Definition sectors_after (x : buf) (disk : bool → list (list Z)) (d : bool) : list (list Z) :=
  if dirty x && Bool.eqb d (drive x) then <[Z.to_nat (b_blockno x) := b_data x]> (disk d) else disk d.

Lemma idestart_ok a0 b x o k :
  speaks_ata a0 (k_io k) → k_bufs k !! b = Some x → buf_ok x →
  ∃ l, idestart (Some b) o k = Ok tt (io_ran l k) o ∧
    let a := ata_of a0 (io_log (k_io k)) in let a' := ata_of a0 (l ++ io_log (k_io k)) in
    at_xfer a' = (if dirty x then XNone else XRead (drive x) (b_blockno x) 0) ∧
    ∀ d, at_disk a' d = sectors_after x (at_disk a) d.
Proof.
  intros Hs Hb Hx. assert (∀ l, rd_buf b o (io_ran l k) = Ok x (io_ran l k) o) as Hrd by (intros l; unfold rd_buf; mrun; cbn [k_bufs io_ran set_k_io]; by rewrite Hb).
  unfold idestart. assert (rd_buf b o k = Ok x k o) as Hrd0 by (unfold rd_buf; mrun; by rewrite Hb). rewrite (bind_ok _ _ _ _ _ _ _ Hrd0).
  pose proof (bo_block _ Hx) as Hblk. rewrite (proj2 (Z.leb_gt _ _)) by lia.
  change (BSIZE / SECTOR_SIZE) with 1. change (7 <? 1) with false. change (1 =? 1) with true. cbv match zeta.
  destruct (idewait_ok a0 false o k Hs) as (l0 & E0 & H0). rewrite (bind_ok _ _ _ _ _ _ _ E0).
  do 6 rewrite (bind_ok _ _ _ _ _ _ _ (outb_ran _ _ _ _ _)). fold (dirty x).
  set (log := io_log (k_io k)). set (regs := _ :: _ :: _ :: _ :: _ :: _ :: l0).
  set (disk := at_disk (ata_of a0 log)).
  assert (∃ a, ata_of a0 (regs ++ log) = a ∧ at_disk a = disk ∧ ata_drive a = drive x ∧ ata_sector a = b_blockno x) as (a & Ea & Hd & Hdr & Hsec).
  { eexists. split; [reflexivity|]. unfold regs. cbn [app]. rewrite !ata_of_cons, H0. cbn [ata_step]. rewrite ata_regs. split; [done|]. by apply ata_addressed. }
  destruct (dirty x) eqn:Ed.
  - rewrite (bind_ok _ _ _ _ _ _ _ (outb_ran _ _ _ _ _)), (bind_ok _ _ _ _ _ _ _ (Hrd _)), outsl_eq. cbn [ports_of set_ports kernel_ports].
    fold (io_ran (rev (Wr (Port32 0x1f0) <$> words (b_data x) (Z.to_nat (BSIZE / 4)))) (io_ran (Wr (Port8 0x1f7) (u8 IDE_CMD_WRITE) :: regs) k)).
    rewrite io_ran_app. eexists. split; [reflexivity|]. cbv zeta. rewrite <- app_assoc. cbn [app].
    change (Z.to_nat (BSIZE / 4)) with 128%nat.
    assert (at_xfer (ata_of a0 (Wr (Port8 0x1f7) (u8 IDE_CMD_WRITE) :: regs ++ log)) = XWrite (drive x) (b_blockno x) []) as Hxf.
    { rewrite ata_of_cons, Ea, <- Hdr, <- Hsec. reflexivity. }
    rewrite (ata_write a0 _ _ [] _ 127 _ Hxf) by done. cbn [app]. rewrite words_bytes by (apply Hx). split; [done|]. intros d.
    cbn [at_disk set_xfer set_sector]. rewrite ata_of_cons, Ea. unfold sectors_after. rewrite Ed. cbn [andb].
    change (at_disk (ata_step (Wr (Port8 0x1f7) (u8 IDE_CMD_WRITE)) a)) with (at_disk a). by rewrite Hd.
  - rewrite outb_ran. eexists. split; [reflexivity|]. cbv zeta. cbn [app]. rewrite ata_of_cons, Ea. split; [rewrite <- Hdr, <- Hsec; reflexivity|].
    intros d. unfold sectors_after. rewrite Ed. cbn [andb]. change (at_disk (ata_step (Wr (Port8 0x1f7) (u8 IDE_CMD_READ)) a)) with (at_disk a). by rewrite Hd.
Qed.

(** ** The interrupt *)

Definition sector_ok (s : list Z) : Prop := Forall is_byte s ∧ length s = 512%nat.

(** The state of the controller that a request waits for. *)
Definition request (x : buf) : xfer := if dirty x then XNone else XRead (drive x) (b_blockno x) 0.

(** The controller works on the first buffer of the queue. *)
Record driving (a0 : ata) (k : kernel) : Prop := {
  dr_speaks : speaks_ata a0 (k_io k);
  dr_sectors : ∀ d, Forall sector_ok (at_disk (ata_of a0 (io_log (k_io k))) d);
  dr_queue : ∀ b, b ∈ k_idequeue k → ∃ x, k_bufs k !! b = Some x ∧ buf_ok x ∧
    (Z.to_nat (b_blockno x) < length (at_disk (ata_of a0 (io_log (k_io k))) (drive x)))%nat;
  dr_head : ∀ b x, head (k_idequeue k) = Some b → k_bufs k !! b = Some x → at_xfer (ata_of a0 (io_log (k_io k))) = request x;
  dr_nodup : NoDup (k_idequeue k)
}.

(** The buffer of a request that is done. *)
Definition completed (disk : bool → list (list Z)) (x : buf) : buf :=
  let y := if dirty x then x else set_b_data (nth (Z.to_nat (b_blockno x)) (disk (drive x)) []) x in
  set_b_flags (Z.land (Z.lor (b_flags x) B_VALID) (Z.lnot B_DIRTY)) y.

(** The data of the request, as the code fetches it. *)
Lemma ide_fetch a0 b x o k :
  speaks_ata a0 (k_io k) → k_bufs k !! b = Some x → at_xfer (ata_of a0 (io_log (k_io k))) = request x →
  Forall sector_ok (at_disk (ata_of a0 (io_log (k_io k))) (drive x)) →
  (Z.to_nat (b_blockno x) < length (at_disk (ata_of a0 (io_log (k_io k))) (drive x)))%nat →
  let disk := at_disk (ata_of a0 (io_log (k_io k))) in
  ∃ l, (∀ rest : KM unit, ((if Z.land (b_flags x) B_DIRTY =? 0 then
           let! r := idewait true in
           when (0 <=? r) (let! l := insl 0x1f0 (Z.to_nat (BSIZE / 4)) in upd_buf b (set_b_data l))
         else ret tt) ;;;
        upd_buf b (λ x, set_b_flags (Z.lor (b_flags x) B_VALID) x) ;;;
        upd_buf b (λ x, set_b_flags (Z.land (b_flags x) (Z.lnot B_DIRTY)) x) ;;; rest) o k
      = rest o (io_ran l (set_k_bufs (<[b := completed disk x]> (k_bufs k)) k))) ∧
    at_disk (ata_of a0 (l ++ io_log (k_io k))) = disk.
Proof.
  intros Hs Hb Hx Hsec Hlt disk. unfold request, completed, dirty in *.
  set (k' := λ y, set_k_bufs (<[b := y]> (k_bufs k)) k).
  assert (∀ l y, k_bufs (io_ran l (k' y)) !! b = Some y) as Hb' by (intros; cbn [io_ran k' k_bufs set_k_bufs set_k_io]; apply list_lookup_insert_eq; exact (lookup_lt_Some _ _ _ Hb)).
  assert (∀ l y z, set_k_bufs (<[b := z]> (k_bufs (io_ran l (k' y)))) (io_ran l (k' y)) = io_ran l (k' z)) as Hk'
    by (intros; unfold io_ran, k'; unfold set_k_io, set_k_bufs; kproj; by rewrite list_insert_insert_eq).
  assert (∀ l y (rest : KM unit), (upd_buf b (λ x, set_b_flags (Z.lor (b_flags x) B_VALID) x) ;;;
            upd_buf b (λ x, set_b_flags (Z.land (b_flags x) (Z.lnot B_DIRTY)) x) ;;; rest) o (io_ran l (k' y))
          = rest o (io_ran l (k' (set_b_flags (Z.land (Z.lor (b_flags y) B_VALID) (Z.lnot B_DIRTY)) y)))) as Hflags.
  { intros l y rest. by rewrite (bind_ok _ _ _ _ _ _ _ (upd_buf_eq _ _ _ _ _ (Hb' l y))), Hk', (bind_ok _ _ _ _ _ _ _ (upd_buf_eq _ _ _ _ _ (Hb' _ _))), Hk'. }
  destruct (Z.eqb_spec (Z.land (b_flags x) B_DIRTY) 0) as [E|E]; cbn [negb] in *.
  - destruct (idewait_ok a0 true o k Hs) as (l0 & E0 & H0).     change (Z.to_nat (BSIZE / 4)) with (S 127). set (sect := nth (Z.to_nat (b_blockno x)) (disk (drive x)) []).
    assert (sector_ok sect) as [Hby Hlen].
    { unfold sect. rewrite nth_lookup. destruct (lookup_lt_is_Some_2 _ _ Hlt) as [s Es]. fold disk in Es. rewrite Es. by apply (Forall_lookup_1 _ _ _ _ Hsec Es). }
    destruct (insl_ok a0 (drive x) (b_blockno x) 127 0 o (io_ran l0 k)) as (l1 & E1 & H1); rewrite ?io_ran_log, ?H0; [by apply speaks_ran|done|done|done|done|].
    rewrite io_ran_log, H0 in E1, H1. fold disk sect in E1. exists (l1 ++ l0). split; [|by rewrite <- app_assoc, H1]. intros rest.
    rewrite bind_assoc, (bind_ok _ _ _ _ _ _ _ E0). change (0 <=? 0) with true. unfold when. rewrite bind_assoc, (bind_ok _ _ _ _ _ _ _ E1). rewrite Nat.mul_0_r, drop_0, io_ran_app.
    rewrite (bind_ok _ _ _ _ _ _ _ (upd_buf_eq b _ o (io_ran (l1 ++ l0) k) x Hb)).
    change (set_k_bufs _ (io_ran (l1 ++ l0) k)) with (io_ran (l1 ++ l0) (k' (set_b_data sect x))). by rewrite Hflags.
  - exists []. split; [|done]. intros rest. assert (io_ran [] (k' x) = k) as Ek by (unfold io_ran, k'; rewrite with_log_nil; unfold set_k_io, set_k_bufs; kproj; rewrite list_insert_id by done; by destruct k).
    pose proof (Hflags [] x rest) as Hf. rewrite Ek in Hf. exact Hf.
Qed.

(** The state after the interrupt for the request of [b], when [q] is the rest of
    the queue and [l] the accesses that were made. *)
Definition interrupted (b : nat) (q : list nat) (y : buf) (l : list ioev) (k : kernel) : kernel :=
  set_k_ttable (k_ttable (wake_all (ChBuf b) k))
    (io_ran l (set_k_bufs (<[b := y]> (k_bufs k)) (set_k_idequeue q k))).

Lemma wake_all_ttable ch k k' :
  k_procs k' = k_procs k → k_ttable k' = k_ttable k → k_ttable (wake_all ch k') = k_ttable (wake_all ch k).
Proof.
  intros Hp Ht. unfold wake_all. replace (live_slots k') with (live_slots k) by (unfold live_slots; by rewrite ?Hp, ?Ht).
  by rewrite (alter_threads_ttable _ _ k' k).
Qed.

Lemma io_ran_nil k : io_ran [] k = k.
Proof. unfold io_ran. rewrite with_log_nil. by destruct k. Qed.

Lemma ideintr_ok a0 b q x o k n :
  driving a0 k → ptable_wf k → calm (k_lk k) n → n < 999999 → lock_free Lide (k_lk k) → lock_free Lptable (k_lk k) →
  k_idequeue k = b :: q → k_bufs k !! b = Some x →
  let disk := at_disk (ata_of a0 (io_log (k_io k))) in
  ∃ l, ideintr o k = Ok tt (interrupted b q (completed disk x) l k) o ∧
    let a' := ata_of a0 (l ++ io_log (k_io k)) in
    match q with
    | [] => ∀ d, at_disk a' d = disk d
    | b' :: _ => ∃ x', k_bufs k !! b' = Some x' ∧ at_xfer a' = request x' ∧ ∀ d, at_disk a' d = sectors_after x' disk d
    end.
Proof.
  intros [Hs Hsec Hq Hh Hnd] Hwf Hc Hn Hf Hfp Eq Hb disk. rewrite Eq in *.
  destruct (Hq b) as (? & Hb' & Hok & Hlt); [by left|]. simplify_eq.
  set (K1 := lk_acquire Lide (k_lk k)). set (k2 := set_k_idequeue q (set_k_lk K1 k)).
  destruct (ide_fetch a0 b x o k2 Hs Hb (Hh _ _ eq_refl Hb) (Hsec _) Hlt) as (l & E & Hl).
  change (at_disk (ata_of a0 (io_log (k_io k2)))) with disk in E, Hl. change (io_log (k_io k2)) with (io_log (k_io k)) in Hl.
  set (k3 := io_ran l (set_k_bufs (<[b:=completed disk x]> (k_bufs k2)) k2)) in E.
  assert (k_ttable (wake_all (ChBuf b) k3) = k_ttable (wake_all (ChBuf b) k)) as Htt by by apply wake_all_ttable.
  assert (wakeup (ChBuf b) o k3 = Ok tt (set_k_lk K1 (interrupted b q (completed disk x) l k)) o) as Ew.
  { rewrite (wakeup_eq _ o k3 (n + 1)); [|by apply (ptable_wf_ext k)|by apply calm_acquire|by apply lock_free_acquire_ne].
    by rewrite (wake_all_frame (ChBuf b) k3), Htt. }
  assert (ideintr o k = (match q with [] => ret tt | b' :: _ => idestart (Some b') end ;;; release Lide) o
    (set_k_lk K1 (interrupted b q (completed disk x) l k))) as ->.
  { unfold ideintr. rewrite (bind_ok _ _ _ _ _ _ _ (acquire_k _ o k n Hc Hf)), (bind_ok (gets _) _ _ _ _ _ _ eq_refl). cbn [k_idequeue set_k_lk]. rewrite Eq.
    fold K1. rewrite (bind_ok (modify _) _ _ _ _ _ _ eq_refl). fold k2.
    assert (rd_buf b o k2 = Ok x k2 o) as Hrd by (unfold rd_buf; mrun; cbn [k_bufs k2 set_k_idequeue set_k_lk]; by rewrite Hb).
    rewrite (bind_ok _ _ _ _ _ _ _ Hrd), E, (bind_ok _ _ _ _ _ _ _ Ew). done. }
  destruct q as [|b' q'].
  - exists l. mrun. rewrite (release_k Lide o _ (k_lk k) n) by done. split; [done|]. cbv zeta. by rewrite Hl.
  - destruct (Hq b') as (x' & Hx' & Hok' & _); [by right; left|]. assert (b ≠ b') by (intros ->; apply NoDup_cons in Hnd as [Hnd _]; apply Hnd; by left).
    destruct (idestart_ok a0 b' x' o (set_k_lk K1 (interrupted b (b' :: q') (completed disk x) l k))) as (l' & E' & Hxf & Hd);
      [by apply (speaks_ran a0 l k)|cbn; by rewrite list_lookup_insert_ne|done|].
    exists (l' ++ l). rewrite (bind_ok _ _ _ _ _ _ _ E'), (release_k Lide o (io_ran l' (set_k_lk K1 _)) (k_lk k) n Hc Hf eq_refl). split.
    + unfold interrupted. rewrite <- io_ran_app. reflexivity.
    + exists x'. rewrite <- app_assoc. split_and!; [done|exact Hxf|]. intros d. rewrite <- Hl. apply Hd.
Qed.

(** ** A request *)

(** The disk interrupt, taken by the scheduler between two threads, when the
    locks are as in [K]. *)
Definition disk_interrupt (K : lkstate) (k : kernel) : kernel :=
  match ideintr [] (set_k_lk K k) with Ok _ k' _ => set_k_lk (k_lk k) k' | _ => k end.

Lemma synced_flags f : Z.land (Z.land (Z.lor f B_VALID) (Z.lnot B_DIRTY)) (Z.lor B_VALID B_DIRTY) = B_VALID.
Proof.
  rewrite <- Z.land_assoc. change (Z.land (Z.lnot B_DIRTY) (Z.lor B_VALID B_DIRTY)) with B_VALID.
  apply Z.bits_inj'. intros i _. rewrite Z.land_spec, Z.lor_spec. by destruct (Z.testbit f i), (Z.testbit B_VALID i).
Qed.

Lemma flags_commute f : Z.lor (Z.land f (Z.lnot B_DIRTY)) B_VALID = Z.land (Z.lor f B_VALID) (Z.lnot B_DIRTY).
Proof. by rewrite Z.land_lor_distr_l. Qed.

Lemma clean_flags f : Z.land f B_DIRTY = 0 → Z.land (Z.lor f B_VALID) (Z.lnot B_DIRTY) = Z.lor f B_VALID.
Proof.
  intros H. apply Z.bits_inj'. intros i Hi. rewrite Z.land_spec, Z.lor_spec, Z.lnot_spec by done.
  assert (Z.testbit (Z.land f B_DIRTY) i = false) as E by (by rewrite H, Z.bits_0). rewrite Z.land_spec in E.
  assert (Z.testbit (Z.land B_VALID B_DIRTY) i = false) as E' by (change (Z.land B_VALID B_DIRTY) with 0; by rewrite Z.bits_0).
  rewrite Z.land_spec in E'. by destruct (Z.testbit f i), (Z.testbit B_VALID i), (Z.testbit B_DIRTY i).
Qed.

(** What memide.c does with a request. *)
Lemma memide_eq pid b x o k :
  quiet pid k → (b < NBUF)%nat → k_bufs k !! b = Some x → b_lock x = Sleeplock 1 pid → b_dev x = 1 →
  Z.land (b_flags x) (Z.lor B_VALID B_DIRTY) ≠ B_VALID → b_blockno x < Z.of_nat (length (k_disk k)) → k_power k = None →
  Bio.iderw b o k = Ok tt (set_k_disk (if dirty x then <[Z.to_nat (b_blockno x) := b_data x]> (k_disk k) else k_disk k)
    (set_k_bufs (<[b := completed (λ _, k_disk k) x]> (k_bufs k)) k)) o.
Proof.
  intros Q Hb Hx Hl Hd Hf Hn Hp. unfold Bio.iderw. rewrite (bind_ok _ _ _ _ _ _ _ (holdingsleep_buf b o k pid x Q Hx Hl Hb)). cbn [negb].
  assert (rd_buf b o k = Ok x k o) as Hrd by (unfold rd_buf; mrun; by rewrite Hx). rewrite (bind_ok _ _ _ _ _ _ _ Hrd).
  rewrite (proj2 (Z.eqb_neq _ _) Hf), Hd. change (negb (1 =? 1)) with false. cbv match.
  rewrite (bind_ok (gets _) _ _ _ _ _ _ eq_refl), (proj2 (Z.leb_gt _ _) Hn). unfold completed, dirty.
  destruct (Z.eqb_spec (Z.land (b_flags x) B_DIRTY) 0) as [E|E]; cbn [negb].
  - unfold disk_read. mrun. rewrite (bind_ok _ _ _ _ _ _ _ (upd_buf_eq _ _ _ _ _ Hx)).
    erewrite upd_buf_eq by (cbn [k_bufs set_k_bufs]; apply list_lookup_insert_eq; exact (lookup_lt_Some _ _ _ Hx)).
    unfold set_k_disk, set_k_bufs. kproj. rewrite list_insert_insert_eq, (clean_flags _ E). reflexivity.
  - rewrite bind_assoc, (bind_ok _ _ _ _ _ _ _ (upd_buf_eq _ _ _ _ _ Hx)). unfold disk_write. mrun. kproj. rewrite Hp.
    unfold modify at 1. unfold bind at 1.
    erewrite upd_buf_eq by (kproj; apply list_lookup_insert_eq; exact (lookup_lt_Some _ _ _ Hx)).
    unfold set_k_disk, set_k_bufs. kproj. rewrite list_insert_insert_eq. cbn [b_flags set_b_flags]. rewrite flags_commute. reflexivity.
Qed.

Lemma driving_ext a0 k k' :
  k_io k' = k_io k → k_bufs k' = k_bufs k → k_idequeue k' = k_idequeue k → driving a0 k → driving a0 k'.
Proof. intros H1 H2 H3 [D1 D2 D3 D4 D5]. split; rewrite ?H1, ?H2, ?H3; done. Qed.

(** The sleep of a thread whose request is the only one ends with the interrupt. *)
Lemma ide_sleep a0 b x o k K t th pr :
  driving a0 k → ptable_wf k → calm K 0 → lock_free Lide K → lock_free Lptable K → k_lk k = lk_acquire Lide K →
  k_idequeue k = [b] → k_bufs k !! b = Some x →
  k_thread k = Some t → thread_at t k = Some th → t_kstack th ≠ 0 →
  k_procs k !! fst t = Some pr → p_state pr = USED → p_pgdir pr ≠ 0 →
  let disk := at_disk (ata_of a0 (io_log (k_io k))) in
  ∃ l k', sleep (ChBuf b) Lide (disk_interrupt K :: o) k = Ok tt k' o ∧
    k_io k' = with_log l (k_io k) ∧ (∀ d, at_disk (ata_of a0 (l ++ io_log (k_io k))) d = disk d) ∧
    k_bufs k' = <[b := completed disk x]> (k_bufs k) ∧ k_idequeue k' = [] ∧ k_lk k' = lk_acquire Lide K.
Proof.
  intros Hd Hwf Hc Hf Hfp Hk Eq Hb Ht Hth Hks Hp Hps Hpg disk.
  set (ka := set_k_lk K (asleep (ChBuf b) t K k)).
  assert (ptable_wf ka) as Hwfa by (apply (ptable_wf_ext (asleep (ChBuf b) t K k)); [done..|by apply ptable_wf_asleep]).
  assert (driving a0 ka) as Hda by (by apply (driving_ext a0 k)).
  destruct (ideintr_ok a0 b [] x [] ka 0 Hda Hwfa Hc ltac:(lia) Hf Hfp Eq Hb) as (l & E & Hl). cbv zeta in Hl.
  change (io_log (k_io ka)) with (io_log (k_io k)) in *. fold disk in E, Hl.
  set (k1 := disk_interrupt K (asleep (ChBuf b) t K k)).
  assert (k1 = set_k_lk (lk_acquire Lptable K) (interrupted b [] (completed disk x) l ka)) as E1.
  { unfold k1, disk_interrupt. fold ka. by rewrite E. }
  assert (thread_at t k1 = Some (set_t_state RUNNABLE (set_t_chan (Some (ChBuf b)) th))) as Ht1.
  { rewrite E1. change (thread_at t (wake_all (ChBuf b) ka) = Some (set_t_state RUNNABLE (set_t_chan (Some (ChBuf b)) th))).
    rewrite wake_all_at by done. change (k_procs ka) with (k_procs k). rewrite Hp, decide_False by (by rewrite Hps).
    change (thread_at t ka) with (thread_at t (asleep (ChBuf b) t K k)). rewrite thread_at_asleep, decide_True, Hth by done.
    simpl. unfold wake_thread, sleeping_on. simpl. by rewrite !bool_decide_true. }
  set (th1 := set_t_state RUNNABLE _) in Ht1. exists l, (resumed t Lide K th1 pr k1). split.
  { apply (sleep_resumes (ChBuf b) Lide (disk_interrupt K) o k K t th th1 pr Hc Hfp Hf Hk Ht Hth); [|exact Ht1|done|done| |done|done].
    - fold k1. rewrite E1. reflexivity.
    - fold k1. rewrite E1. exact Hp. }
  rewrite E1. split_and!; [reflexivity|exact Hl|reflexivity..].
Qed.

(** A thread of process [pid] that can issue the request of buffer [b], which it
    has locked, on an idle driver. *)
Record can_issue (pid : Z) (b : nat) (x : buf) (k : kernel) : Prop := {
  ci_quiet : quiet pid k;
  ci_free : lock_free Lide (k_lk k);
  ci_idle : k_idequeue k = [];
  ci_lt : (b < NBUF)%nat;
  ci_buf : k_bufs k !! b = Some x;
  ci_ok : buf_ok x;
  ci_lock : b_lock x = Sleeplock 1 pid;
  ci_dev : b_dev x = 1;
  ci_disk1 : k_havedisk1 k ≠ 0;
  ci_work : Z.land (b_flags x) (Z.lor B_VALID B_DIRTY) ≠ B_VALID;
  ci_thread : ∃ t th pr, k_thread k = Some t ∧ thread_at t k = Some th ∧ t_kstack th ≠ 0 ∧
    k_procs k !! fst t = Some pr ∧ p_state pr = USED ∧ p_pgdir pr ≠ 0
}.

(** Queueing and starting the request, up to the wait. *)
Lemma iderw_starts a0 pid b x o k :
  can_issue pid b x k → speaks_ata a0 (k_io k) →
  ∃ l, iderw b o k = (while_wait
          (let! x := rd_buf b in ret (negb (Z.land (b_flags x) (Z.lor B_VALID B_DIRTY) =? B_VALID)))
          (sleep (ChBuf b) Lide) ;;; release Lide) o
        (io_ran l (set_k_idequeue [b] (set_k_lk (lk_acquire Lide (k_lk k)) k))) ∧
    at_xfer (ata_of a0 (l ++ io_log (k_io k))) = request x ∧
    ∀ d, at_disk (ata_of a0 (l ++ io_log (k_io k))) d = sectors_after x (at_disk (ata_of a0 (io_log (k_io k)))) d.
Proof.
  intros [Q Hf Hi Hlt Hx Hok Hlk Hdev Hd1 Hw _] Hs.
  set (k1 := set_k_idequeue [b] (set_k_lk (lk_acquire Lide (k_lk k)) k)).
  destruct (idestart_ok a0 b x o k1 Hs Hx Hok) as (l & E & Hxf & Hd). exists l. split; [|done].
  unfold iderw. rewrite (bind_ok _ _ _ _ _ _ _ (holdingsleep_buf b o k pid x Q Hx Hlk Hlt)). cbn [negb].
  assert (rd_buf b o k = Ok x k o) as Hrd by (unfold rd_buf; mrun; by rewrite Hx). rewrite (bind_ok _ _ _ _ _ _ _ Hrd).
  rewrite (proj2 (Z.eqb_neq _ _) Hw), (bind_ok (gets _) _ _ _ _ _ _ eq_refl), (proj2 (Z.eqb_neq _ _) Hd1), andb_false_r.
  rewrite (bind_ok _ _ _ _ _ _ _ (acquire_k Lide o k 0 (q_calm _ _ Q) Hf)).
  rewrite (bind_ok (modify _) _ _ _ _ _ _ eq_refl), (bind_ok (gets _) _ _ _ _ _ _ eq_refl). cbn [k_idequeue set_k_idequeue set_k_lk].
  rewrite Hi. cbn [app head]. rewrite bool_decide_true by done. unfold when. fold k1. by rewrite (bind_ok _ _ _ _ _ _ _ E).
Qed.

Lemma sector_ok_after x disk d : buf_ok x → (∀ d, Forall sector_ok (disk d)) → Forall sector_ok (sectors_after x disk d).
Proof. intros [_ _ Hb Hl] H. unfold sectors_after. case_match; [|done]. by apply Forall_insert. Qed.

(** The wait of iderw. *)
Lemma ide_wait b x o k :
  k_bufs k !! b = Some x →
  let loop := while_wait
     (let! x := rd_buf b in ret (negb (Z.land (b_flags x) (Z.lor B_VALID B_DIRTY) =? B_VALID))) (sleep (ChBuf b) Lide) in
  loop o k = (if negb (Z.land (b_flags x) (Z.lor B_VALID B_DIRTY) =? B_VALID) then sleep (ChBuf b) Lide ;;; loop else ret tt) o k.
Proof.
  intros Hx loop. unfold loop. rewrite while_wait_unfold at 1; [|unfold rd_buf; shrink|intros; by eapply waits_sleep].
  assert (rd_buf b o k = Ok x k o) as Hrd by (unfold rd_buf; mrun; by rewrite Hx).
  by rewrite bind_assoc, (bind_ok _ _ _ _ _ _ _ Hrd).
Qed.

(** [C20] The two disk drivers do the same.  For a request on an idle controller by
    a thread that has locked the buffer, iderw of ide.c, with the disk interrupt
    that the controller sends, returns as iderw of memide.c does, with the
    same buffers (the data of the block after a read, marked valid and clean) and,
    if the drive held the memory disk's blocks, the same blocks after it; drive 0
    is not touched, and the queue is empty again. *)
Theorem ide_as_memide a0 pid b x o k :
  let a := ata_of a0 (io_log (k_io k)) in
  driving a0 k → can_issue pid b x k → k_power k = None → at_disk a true = k_disk k →
  b_blockno x < Z.of_nat (length (k_disk k)) →
  ∃ k' km, iderw b (disk_interrupt (k_lk k) :: o) k = Ok tt k' o ∧ Bio.iderw b o k = Ok tt km o ∧
    k_bufs k' = k_bufs km ∧ k_idequeue k' = [] ∧ k_lk k' = k_lk k ∧
    let a' := ata_of a0 (io_log (k_io k')) in at_disk a' true = k_disk km ∧ at_disk a' false = at_disk a false.
Proof.
  intros a Hd Hci Hp Hdk Hn. destruct (iderw_starts a0 pid b x (disk_interrupt (k_lk k) :: o) k Hci (dr_speaks _ _ Hd)) as (l & E & Hxf & Hdisk).
  destruct Hci as [Q Hf Hi Hlt Hx Hok Hlk Hdev Hd1 Hw (t & th & pr & Ht & Hth & Hks & Hpr & Hps & Hpg)].
  set (k2 := io_ran l _) in E. fold a in Hdisk. assert (drive x = true) as Hdr by (unfold drive; by rewrite Hdev).
  assert (driving a0 k2) as Hd2.
  { destruct Hd as [D1 D2 D3 D4 D5]. split; [by apply speaks_ran| | | |by apply NoDup_singleton].
    - intros d. change (io_log (k_io k2)) with (l ++ io_log (k_io k)). rewrite Hdisk. by apply sector_ok_after.
    - intros b' Hb'. apply list_elem_of_singleton in Hb' as ->. exists x. split_and!; [done|done|].
      change (io_log (k_io k2)) with (l ++ io_log (k_io k)). rewrite Hdisk. unfold sectors_after. rewrite Hdr, Hdk.
      case_match; rewrite ?length_insert; pose proof (bo_block _ Hok); lia.
    - intros b' x' Hb' Hx'. injection Hb' as <-. change (k_bufs k !! b = Some x') in Hx'. assert (x' = x) as -> by congruence. exact Hxf. }
  destruct (ide_sleep a0 b x o k2 (k_lk k) t th pr Hd2) as (l' & k3 & Es & Hio & Hdl & Hbufs & Hq & Hk3); try done;
    [by apply (ptable_wf_ext k), Q|apply Q|apply (q_free _ _ Q); constructor|].
  change (k_bufs k2) with (k_bufs k) in Hbufs. change (io_log (k_io k2)) with (l ++ io_log (k_io k)) in *.
  rewrite E, (bind_ok _ _ _ k2 tt o k3).
  2:{ rewrite (ide_wait b x _ k2 Hx), (proj2 (Z.eqb_neq _ _) Hw). cbn [negb]. rewrite (bind_ok _ _ _ _ _ _ _ Es).
      erewrite ide_wait by (rewrite Hbufs; apply list_lookup_insert_eq; exact (lookup_lt_Some _ _ _ Hx)).
      cbn [b_flags completed set_b_flags]. rewrite synced_flags. reflexivity. }
  rewrite (release_k Lide o k3 (k_lk k) 0 (q_calm _ _ Q) Hf Hk3). eexists _, _.
  rewrite (memide_eq pid b x o k) by done. split_and!; [reflexivity|reflexivity| |exact Hq|reflexivity|].
  - change (k_bufs k3 = <[b := completed (λ _, k_disk k) x]> (k_bufs k)). rewrite Hbufs. f_equal. unfold completed. rewrite Hdr, (Hdisk true).
    unfold sectors_after. destruct (dirty x); [done|]. cbn [andb]. by rewrite Hdk.
  - cbn [k_io set_k_lk]. rewrite Hio. change (io_log (with_log l' (k_io k2))) with (l' ++ l ++ io_log (k_io k)).
    rewrite !Hdl, !Hdisk. unfold sectors_after. rewrite Hdr. cbn [Bool.eqb]. rewrite andb_false_r, andb_true_r, Hdk. split; [|done].
    change (k_disk (set_k_disk _ _)) with (if dirty x then <[Z.to_nat (b_blockno x):=b_data x]> (k_disk k) else k_disk k). done.
Qed.

(** ** A concrete disk *)

Definition demo_sectors (d : bool) : list (list Z) := if d then replicate 3 (replicate 512 7) else [].
Definition demo_ata : ata := Ata 0 0 0 0 XNone demo_sectors.
(** A controller that is always ready. *)
Definition ready_dev (a0 : ata) (log : list ioev) (r : ioreg) : Z :=
  match r with
  | Port8 p => if p =? 0x1f7 then IDE_DRDY else 0
  | Port32 p =>
      match at_xfer (ata_of a0 log) with
      | XRead d sec n => get32 (nth (Z.to_nat sec) (at_disk (ata_of a0 log) d) []) (4 * Z.of_nat n)
      | _ => 0
      end
  | _ => 0
  end.
Definition demo_ide_buf : buf := Buf 0 1 2 (Sleeplock 1 1) 1 (replicate 512 0).
Definition demo_ide : kernel :=
  set_k_io (Ports [] (ready_dev demo_ata) 0) (set_k_havedisk1 1
    (set_k_disk (demo_sectors true) (set_k_bufs (<[0%nat := demo_ide_buf]> (replicate NBUF buf0)) demo_kernel))).

Lemma ready_dev_speaks a0 : speaks_ata a0 (Ports [] (ready_dev a0) 0).
Proof.
  split; [done|]. intros log d sec n H. cbn [io_dev ready_dev]. by rewrite H.
Qed.

Lemma demo_driving : driving demo_ata demo_ide.
Proof.
  split; [apply ready_dev_speaks| |intros b Hb; by apply elem_of_nil in Hb|done|constructor].
  intros [|]; [|constructor]. apply Forall_replicate. split; [|done]. by apply Forall_replicate.
Qed.

Lemma demo_can_issue : can_issue 1 0 demo_ide_buf demo_ide.
Proof.
  split; [by apply (quiet_ext 1 demo_kernel), demo_kernel_quiet|boot_free|done|by apply Nat.ltb_lt|done| |done|done|done|done|].
  - split; [done|by right|by apply Forall_replicate|done].
  - by exists (0, 0)%nat, (demo_thread 1 0 RUNNING None), (demo_proc 1 0).
Qed.

Lemma ide_as_memide_witness :
  ∃ k', iderw 0 [disk_interrupt (k_lk demo_ide)] demo_ide = Ok tt k' [] ∧
    k_bufs k' !! 0%nat = Some (Buf B_VALID 1 2 (Sleeplock 1 1) 1 (replicate 512 7)).
Proof.
  destruct (ide_as_memide demo_ata 1 0 demo_ide_buf [] demo_ide demo_driving demo_can_issue eq_refl eq_refl eq_refl)
    as (k' & km & H1 & H2 & H3 & _).
  exists k'. split; [exact H1|]. rewrite H3.
  assert (match Bio.iderw 0 [] demo_ide with Ok _ k _ => k_bufs k !! 0%nat | _ => None end =
    Some (Buf B_VALID 1 2 (Sleeplock 1 1) 1 (replicate 512 7))) as E by (vm_compute; reflexivity).
  rewrite H2 in E. exact E.
Defined.
