(* ===== verification/Boot.v ===== *)
(** * The boot loader

    [bootmain.c]: reading sectors of the boot disk with the same controller
    registers as the IDE driver, and loading the ELF kernel that starts at sector 1.
    [k_mem] is physical memory here.  [img D] is the kernel file as the sectors [D]
    of the disk hold it. *)

From S2P Require Import Prelude Defs Bytes Ports Spinlock CString Kernel Apic Sched Sleeplock Bio Ide.
Local Open Scope kernel_scope.

(** ** elf.h, in memory *)
Definition ELF_MAGIC : Z := 0x464C457F.
Definition eh_magic (m : memory) (e : Z) : Z := ld32 m e.
Definition eh_entry (m : memory) (e : Z) : Z := ld32 m (e + 24).
Definition eh_phoff (m : memory) (e : Z) : Z := ld32 m (e + 28).
Definition eh_phnum (m : memory) (e : Z) : Z := ld8 m (e + 44) + 256 * ld8 m (e + 45).
Definition PH_SIZE : Z := 32.
Definition ph_off (m : memory) (p : Z) : Z := ld32 m (p + 4).
Definition ph_paddr (m : memory) (p : Z) : Z := ld32 m (p + 12).
Definition ph_filesz (m : memory) (p : Z) : Z := ld32 m (p + 16).
Definition ph_memsz (m : memory) (p : Z) : Z := ld32 m (p + 20).

(** ** bootmain.c *)
Definition SECTSIZE : Z := 512.

Definition waitdisk : KM unit :=
  let! _ := poll_until (inb 0x1F7) (λ s, Z.land s 0xC0 =? 0x40) in ret tt.

(** The bytes [l] at address [a]. *)
Definition blit (m : memory) (a : Z) (l : list Z) : memory :=
  λ x, if (a <=? x) && (x <? a + Z.of_nat (length l)) then nth (Z.to_nat (x - a)) l 0 else m x.

Definition readsect (dst offset : Z) : KM unit :=
  waitdisk ;;;
  outb 0x1F2 1 ;;;
  outb 0x1F3 offset ;;;
  outb 0x1F4 (Z.shiftr offset 8) ;;;
  outb 0x1F5 (Z.shiftr offset 16) ;;;
  outb 0x1F6 (Z.lor (Z.shiftr offset 24) 0xE0) ;;;
  outb 0x1F7 0x20 ;;;
  waitdisk ;;;
  let! l := insl 0x1F0 (Z.to_nat (SECTSIZE / 4)) in
  modify (λ k, set_k_mem (blit (k_mem k) dst l) k).

(** [for(; pa < epa; pa += SECTSIZE, offset++) readsect(pa, offset)].  Pointers
    are 32 bits wide and wrap around; the fuel of [readseg] is used up only when
    [pa] goes past the end of the address space in the loop. *)
Fixpoint readseg_loop (fuel : nat) (pa epa offset : Z) : KM unit :=
  match fuel with
  | O => undef "readseg: past the end of memory"
  | S f =>
      if pa <? epa then readsect pa offset ;;; readseg_loop f (u32 (pa + SECTSIZE)) epa (u32 (offset + 1))
      else ret tt
  end.
Definition readseg (pa count offset : Z) : KM unit :=
  let epa := u32 (pa + count) in
  let pa := u32 (pa - offset `mod` SECTSIZE) in
  let offset := u32 (offset / SECTSIZE + 1) in
  readseg_loop (S (Z.to_nat ((epa - pa + (SECTSIZE - 1)) / SECTSIZE))) pa epa offset.

(** [for(; ph < eph; ph++)]: the segments, from the header [ph] on. *)
Fixpoint load_phs (fuel : nat) (ph eph : Z) : KM unit :=
  match fuel with
  | O => undef "bootmain: past the end of memory"
  | S f =>
      if ph <? eph then
        let! m := gets k_mem in
        let pa := ph_paddr m ph in
        readseg pa (ph_filesz m ph) (ph_off m ph) ;;;
        let! m := gets k_mem in
        when (ph_filesz m ph <? ph_memsz m ph)
          (modify (λ k, set_k_mem (stosb (k_mem k) (u32 (pa + ph_filesz m ph)) 0 (Z.to_nat (ph_memsz m ph - ph_filesz m ph))) k)) ;;;
        load_phs f (u32 (ph + PH_SIZE)) eph
      else ret tt
  end.

(** The scratch space for the first page of the file. *)
Definition elf_at : Z := 0x10000.

(** The address that is jumped to, or None for a return to bootasm.S. *)
Definition bootmain : KM (option Z) :=
  readseg elf_at 4096 0 ;;;
  let! m := gets k_mem in
  if negb (eh_magic m elf_at =? ELF_MAGIC) then ret None
  else
    let ph := u32 (elf_at + eh_phoff m elf_at) in
    load_phs (S (Z.to_nat (eh_phnum m elf_at))) ph (u32 (ph + PH_SIZE * eh_phnum m elf_at)) ;;;
    let! m := gets k_mem in
    ret (Some (eh_entry m elf_at)).

(** ** Reading the disk *)

(** Byte [j] of the file that starts at sector 1. *)
Definition img (D : list (list Z)) (j : Z) : Z := nth (Z.to_nat (j `mod` 512)) (nth (Z.to_nat (j / 512 + 1)) D []) 0.

(** The boot drive holds the sectors [D]. *)
Record boots (a0 : ata) (D : list (list Z)) (k : kernel) : Prop := {
  bt_speaks : speaks_ata a0 (k_io k);
  bt_disk : at_disk (ata_of a0 (io_log (k_io k))) false = D;
  bt_sectors : Forall sector_ok D
}.

Lemma waitdisk_ok a0 o k :
  speaks_ata a0 (k_io k) → ∃ l, waitdisk o k = Ok tt (io_ran l k) o ∧ ∀ log, ata_of a0 (l ++ log) = ata_of a0 log.
Proof.
  intros [Hr _]. destruct (poll_ready _ o k (Hr (io_log (k_io k)))) as (l & v & E & _ & Hl).
  exists l. split; [|intros; by apply ata_status]. unfold waitdisk, poll_until. cbn [ports_of kernel_ports] in *.
  unfold bind at 1. change (λ s, Z.land s 0xC0 =? 0x40) with ide_ready. by rewrite E.
Qed.

Lemma boot_addressed sec xf disk :
  0 ≤ sec < 2 ^ 24 →
  let a := Ata (u8 sec) (u8 (Z.shiftr sec 8)) (u8 (Z.shiftr sec 16)) (u8 (Z.lor (Z.shiftr sec 24) 0xE0)) xf disk in
  ata_drive a = false ∧ ata_sector a = sec.
Proof.
  intros H. change (2 ^ 24) with 16777216 in H. cbv zeta. rewrite !Z.shiftr_div_pow2 by lia.
  change (2 ^ 8) with 256. change (2 ^ 16) with 65536. change (2 ^ 24) with 16777216.
  rewrite (Z.div_small sec 16777216) by lia. unfold ata_drive, ata_sector. cbn [at_sel at_lba0 at_lba1 at_lba2].
  split; [done|]. change (Z.land (u8 (Z.lor 0 224)) 15) with 0. unfold u8. dlia.
Qed.

Lemma readsect_ok a0 D dst sec o k :
  boots a0 D k → 0 ≤ sec < 2 ^ 24 → sec < Z.of_nat (length D) →
  ∃ l, readsect dst sec o k = Ok tt (set_k_mem (blit (k_mem k) dst (nth (Z.to_nat sec) D [])) (io_ran l k)) o ∧
    at_disk (ata_of a0 (l ++ io_log (k_io k))) false = D.
Proof.
  intros [Hs Hd Hsec] Hsec0 Hlt. unfold readsect. destruct (waitdisk_ok a0 o k Hs) as (l0 & E0 & H0). rewrite (bind_ok _ _ _ _ _ _ _ E0).
  do 6 rewrite (bind_ok _ _ _ _ _ _ _ (outb_ran _ _ _ _ _)). set (log := io_log (k_io k)) in *. set (regs := _ :: _ :: _ :: _ :: _ :: _ :: l0).
  destruct (boot_addressed sec (at_xfer (ata_of a0 log)) (at_disk (ata_of a0 log)) Hsec0) as [Hdr Hse]. set (A := Ata _ _ _ _ _ _) in Hdr, Hse.
  assert (ata_of a0 (regs ++ log) = set_xfer (XRead false sec 0) A) as Ea.
  { transitivity (set_xfer (XRead (ata_drive A) (ata_sector A) 0) A); [|by rewrite Hdr, Hse].
    unfold regs. cbn [app]. rewrite !ata_of_cons, H0. cbn [ata_step]. rewrite ata_regs. reflexivity. }
  destruct (waitdisk_ok a0 o (io_ran regs k) (speaks_ran a0 regs k Hs)) as (l1 & E1 & H1). rewrite (bind_ok _ _ _ _ _ _ _ E1), io_ran_app.
  assert (nth (Z.to_nat sec) D [] ∈ D) as Hin by (apply list_elem_of_lookup; exists (Z.to_nat sec); rewrite nth_lookup; destruct (lookup_lt_is_Some_2 D (Z.to_nat sec) ltac:(lia)) as [s ->]; done).
  rewrite Forall_forall in Hsec. destruct (Hsec _ Hin) as [Hby Hlen].
  assert (ata_of a0 (io_log (k_io (io_ran (l1 ++ regs) k))) = ata_of a0 (regs ++ log)) as El by (rewrite io_ran_log, <- app_assoc; apply H1).
  destruct (insl_ok a0 false sec 127 0 o (io_ran (l1 ++ regs) k)) as (l2 & E2 & H2); rewrite ?El, ?Ea; cbn [at_disk set_xfer at_xfer A]; rewrite ?Hd; [by apply speaks_ran|done|done|done|done|].
  change (Z.to_nat (SECTSIZE / 4)) with (S 127). rewrite (bind_ok _ _ _ _ _ _ _ E2), El, Ea. cbn [at_disk set_xfer A]. rewrite Hd, Nat.mul_0_r, drop_0, io_ran_app.
  eexists. split; [reflexivity|]. rewrite <- !app_assoc. rewrite io_ran_log, <- app_assoc in H2. fold log in H2. rewrite H2. cbn [at_disk set_xfer].
  rewrite H1, Ea. done.
Qed.

Section Load.
Context (a0 : ata) (D : list (list Z)) (HD : Z.of_nat (length D) ≤ 2 ^ 24).

Lemma img_sector sec y : 1 ≤ sec → 0 ≤ y < 512 → img D (512 * (sec - 1) + y) = nth (Z.to_nat y) (nth (Z.to_nat sec) D []) 0.
Proof.
  intros Hs Hy. unfold img. replace ((512 * (sec - 1) + y) `mod` 512) with y by dlia.
  by replace ((512 * (sec - 1) + y) / 512 + 1) with sec by dlia.
Qed.

Lemma readseg_loop_ok n : ∀ fuel pa epa sec o k,
  boots a0 D k → 0 ≤ pa → pa + 512 * Z.of_nat n < 2 ^ 32 → epa ≤ pa + 512 * Z.of_nat n → (n = O ∨ pa + 512 * (Z.of_nat n - 1) < epa) → (n < fuel)%nat →
  1 ≤ sec → sec + Z.of_nat n ≤ Z.of_nat (length D) →
  ∃ k', readseg_loop fuel pa epa sec o k = Ok tt k' o ∧ boots a0 D k' ∧
    ∀ x, k_mem k' x = if (pa <=? x) && (x <? pa + 512 * Z.of_nat n) then img D (512 * (sec - 1) + (x - pa)) else k_mem k x.
Proof.
  induction n as [|n IH]; intros fuel pa epa sec o k Hb Hpa Hw He Hn Hf Hs Hl; (destruct fuel as [|fuel]; [lia|]); cbn [readseg_loop].
  - rewrite (proj2 (Z.ltb_ge _ _)) by lia. exists k. split_and!; [done|done|]. intros x. case_tests.
  - rewrite (proj2 (Z.ltb_lt _ _)) by lia. destruct (readsect_ok a0 D pa sec o k Hb) as (l & E & Hd); [lia|lia|].
    rewrite (bind_ok _ _ _ _ _ _ _ E). set (sect := nth (Z.to_nat sec) D []) in *. set (k1 := set_k_mem _ _).
    assert (boots a0 D k1) as Hb1 by (destruct Hb as [B1 B2 B3]; split; [by apply (speaks_ran a0 l k)|exact Hd|exact B3]).
    assert (length sect = 512%nat) as Hsl.
    { pose proof (bt_sectors _ _ _ Hb) as Hsec. rewrite Forall_forall in Hsec. apply Hsec. unfold sect. apply list_elem_of_lookup. exists (Z.to_nat sec).
      rewrite nth_lookup. destruct (lookup_lt_is_Some_2 D (Z.to_nat sec) ltac:(lia)) as [s ->]. done. }
    unfold SECTSIZE. rewrite !u32_small by lia.
    destruct (IH fuel (pa + 512) epa (sec + 1) o k1 Hb1) as (k' & E' & Hb' & Hm); [lia|lia|lia|lia|lia|lia|lia|].
    exists k'. split_and!; [exact E'|exact Hb'|]. intros x. rewrite Hm. cbn [k1 k_mem set_k_mem]. unfold blit. rewrite Hsl.
    change (Z.of_nat 512) with 512. clear Hd. case_tests; try lia.
    + f_equal. lia.
    + by rewrite img_sector by lia.
Qed.

(** How many sectors a segment takes, and where the first one goes. *)
Definition seg_sectors (count off : Z) : Z := (count + off `mod` 512 + 511) / 512.

Lemma readseg_ok pa count off o k :
  boots a0 D k → 0 ≤ count → 0 ≤ off → off / 512 + 1 + seg_sectors count off ≤ Z.of_nat (length D) →
  0 ≤ pa - off `mod` 512 → pa - off `mod` 512 + 512 * seg_sectors count off < 2 ^ 32 →
  ∃ k', readseg pa count off o k = Ok tt k' o ∧ boots a0 D k' ∧
    ∀ x, k_mem k' x = if (pa - off `mod` 512 <=? x) && (x <? pa - off `mod` 512 + 512 * seg_sectors count off)
                      then img D (off + (x - pa)) else k_mem k x.
Proof.
  intros Hb Hc Ho Hl Hlo Hhi. pose proof (Z.mod_pos_bound off 512 ltac:(lia)) as Hm. assert (0 ≤ off / 512) by dlia.
  assert (0 ≤ seg_sectors count off ∧ count + off `mod` 512 ≤ 512 * seg_sectors count off ∧
    (seg_sectors count off = 0 ∨ 512 * (seg_sectors count off - 1) < count + off `mod` 512)) as (H1 & H2 & H3) by (unfold seg_sectors in *; dlia).
  unfold readseg, SECTSIZE. cbv zeta. rewrite !u32_small by lia. replace (pa + count - (pa - off `mod` 512) + (512 - 1)) with (count + off `mod` 512 + 511) by lia.
  fold (seg_sectors count off).
  destruct (readseg_loop_ok (Z.to_nat (seg_sectors count off)) (S (Z.to_nat (seg_sectors count off))) (pa - off `mod` 512) (pa + count) (off / 512 + 1) o k Hb)
    as (k' & E & Hb' & Hx); [lia..|].
  exists k'. split_and!; [exact E|exact Hb'|]. intros x. rewrite Hx, Z2Nat.id by lia. case_tests. f_equal. dlia.
Qed.

(** A segment whose first sector would start below address 0 is not loaded: the
    rounded pointer wraps around to the end of the address space. *)
Lemma readseg_wraps pa count off o k :
  0 ≤ pa < off `mod` 512 → 0 ≤ count → pa + count < 2 ^ 32 - 512 → readseg pa count off o k = Ok tt k o.
Proof.
  intros Hpa Hc Hlt. pose proof (Z.mod_pos_bound off 512 ltac:(lia)) as Hm. unfold readseg, SECTSIZE. cbv zeta.
  assert (u32 (pa - off `mod` 512) = pa - off `mod` 512 + 2 ^ 32) as -> by (unfold u32; symmetry; apply (Z.mod_unique _ _ (-1)); lia).
  rewrite (u32_small (pa + count)) by lia. cbn [readseg_loop]. by rewrite (proj2 (Z.ltb_ge _ _)) by lia.
Qed.

(** ** Segments *)

Record seg := Seg { s_pa : Z; s_filesz : Z; s_memsz : Z; s_off : Z }.
Definition seg_in (m : memory) (ph : Z) : seg := Seg (ph_paddr m ph) (ph_filesz m ph) (ph_memsz m ph) (ph_off m ph).
Fixpoint segs_in (m : memory) (ph : Z) (n : nat) : list seg :=
  match n with O => [] | S n' => seg_in m ph :: segs_in m (ph + PH_SIZE) n' end.

(** The memory that loading a segment may write. *)
Definition foot_lo (s : seg) : Z := s_pa s - s_off s `mod` 512.
Definition foot_hi (s : seg) : Z := Z.max (foot_lo s + 512 * seg_sectors (s_filesz s) (s_off s)) (s_pa s + s_memsz s).
(** It is in the file, and what is written is within the 32-bit address space: no
    pointer wraps around. *)
Definition seg_ok (s : seg) : Prop :=
  (0 ≤ s_filesz s ∧ 0 ≤ s_memsz s ∧ 0 ≤ s_off s ∧ s_off s / 512 + 1 + seg_sectors (s_filesz s) (s_off s) ≤ Z.of_nat (length D)) ∧
  0 ≤ foot_lo s ∧ foot_hi s < 2 ^ 32.

(** The memory after it. *)
Definition with_seg (m : memory) (s : seg) : memory := λ x,
  if (s_pa s + s_filesz s <=? x) && (x <? s_pa s + s_memsz s) then 0
  else if (foot_lo s <=? x) && (x <? foot_lo s + 512 * seg_sectors (s_filesz s) (s_off s)) then img D (s_off s + (x - s_pa s))
  else m x.

Lemma with_seg_other m s x : x < foot_lo s ∨ foot_hi s ≤ x → 0 ≤ s_filesz s → with_seg m s x = m x.
Proof.
  intros H Hf. unfold with_seg, foot_hi in *. assert (foot_lo s ≤ s_pa s) by (unfold foot_lo; dlia). case_tests; lia.
Qed.

Lemma with_seg_ext m m' s x : m x = m' x → with_seg m s x = with_seg m' s x.
Proof. intros H. unfold with_seg. by repeat case_match. Qed.
Lemma with_segs_ext l : ∀ m m' x, m x = m' x → foldl with_seg m l x = foldl with_seg m' l x.
Proof. induction l as [|s l IH]; intros m m' x H; [done|]. cbn. apply IH. by apply with_seg_ext. Qed.

Lemma seg_in_ext m m' ph : (∀ x, ph ≤ x < ph + 32 → m x = m' x) → seg_in m ph = seg_in m' ph.
Proof.
  intros H. unfold seg_in, ph_paddr, ph_filesz, ph_memsz, ph_off. f_equal; apply ld32_ext; intros x Hx; apply H; lia.
Qed.

Lemma load_phs_ok m0 lo hi n : ∀ fuel ph o k,
  boots a0 D k → 0 ≤ lo → hi < 2 ^ 32 → (n < fuel)%nat → (∀ x, lo ≤ x < hi → k_mem k x = m0 x) → lo ≤ ph → ph + 32 * Z.of_nat n ≤ hi →
  (∀ s, s ∈ segs_in m0 ph n → seg_ok s ∧ (foot_hi s ≤ lo ∨ hi ≤ foot_lo s)) →
  ∃ k', load_phs fuel ph (ph + 32 * Z.of_nat n) o k = Ok tt k' o ∧ boots a0 D k' ∧ ∀ x, k_mem k' x = foldl with_seg (k_mem k) (segs_in m0 ph n) x.
Proof.
  induction n as [|n IH]; intros [|fuel] ph o k Hb Hlo0 Hhi0 Hfu Hm Hlo Hhi Hs; try lia; cbn [load_phs].
  - rewrite (proj2 (Z.ltb_ge _ _)) by lia. exists k. done.
  - rewrite (proj2 (Z.ltb_lt _ _)) by lia. cbn [segs_in] in *. destruct (Hs (seg_in m0 ph) ltac:(by left)) as [((S1 & S2 & S3 & S4) & S5 & S6) Hap].
    assert (∀ m, (∀ x, lo ≤ x < hi → m x = m0 x) → seg_in m ph = seg_in m0 ph) as Hext by (intros m Hm'; apply seg_in_ext; intros x Hx; apply Hm'; lia).
    set (s := seg_in m0 ph) in *. pose proof (Hext _ Hm) as E0. unfold seg_in in E0.
    assert (0 ≤ s_off s `mod` 512) by (apply Z.mod_pos_bound; lia). unfold foot_hi, foot_lo in S5, S6.
    destruct (readseg_ok (s_pa s) (s_filesz s) (s_off s) o k Hb S1 S3 S4 S5 ltac:(lia)) as (k1 & E1 & Hb1 & Hx1).
    rewrite (bind_ok (gets k_mem) _ _ _ _ _ _ eq_refl). cbv zeta.
    assert (ph_paddr (k_mem k) ph = s_pa s ∧ ph_filesz (k_mem k) ph = s_filesz s ∧ ph_off (k_mem k) ph = s_off s) as (-> & -> & ->) by (rewrite <- E0; done).
    rewrite (bind_ok _ _ _ _ _ _ _ E1), (bind_ok (gets k_mem) _ _ _ _ _ _ eq_refl).
    assert (∀ x, lo ≤ x < hi → k_mem k1 x = m0 x) as Hm1.
    { intros x Hx. rewrite Hx1. unfold foot_lo, foot_hi in Hap. case_tests; [unfold foot_lo in *; lia|..]; by apply Hm. }
    pose proof (Hext _ Hm1) as E1'. unfold seg_in in E1'.
    assert (ph_filesz (k_mem k1) ph = s_filesz s ∧ ph_memsz (k_mem k1) ph = s_memsz s) as (-> & ->) by (rewrite <- E1'; done).
    set (k2 := if s_filesz s <? s_memsz s then set_k_mem (stosb (k_mem k1) (u32 (s_pa s + s_filesz s)) 0 (Z.to_nat (s_memsz s - s_filesz s))) k1 else k1).
    rewrite (bind_ok _ _ _ _ tt o k2) by (unfold k2; by destruct (s_filesz s <? s_memsz s)).
    assert (∀ x, k_mem k2 x = with_seg (k_mem k) s x) as Hx2.
    { intros x. unfold k2, with_seg. fold (foot_lo s) in Hx1. destruct (Z.ltb_spec (s_filesz s) (s_memsz s)) as [Hlt|Hge].
      - cbn [k_mem set_k_mem]. rewrite u32_small, stosb_fill by lia. unfold fill. rewrite Z2Nat.id by lia. rewrite Hx1. case_tests; lia.
      - rewrite Hx1. case_tests; lia. }
    assert (boots a0 D k2) as Hb2 by (unfold k2; destruct (s_filesz s <? s_memsz s); [destruct Hb1; by split|done]).
    unfold PH_SIZE in *. rewrite u32_small by lia. replace (ph + 32 * Z.of_nat (S n)) with (ph + 32 + 32 * Z.of_nat n) by lia.
    destruct (IH fuel (ph + 32) o k2 Hb2) as (k' & E' & Hb' & Hx'); [lia|lia|lia| |lia|lia|intros s' Hs'; apply Hs; by right|].
    + intros x Hx. rewrite Hx2, with_seg_other by (done || lia). by apply Hm.
    + exists k'. split_and!; [exact E'|exact Hb'|]. intros x. rewrite Hx'. cbn [foldl]. by apply with_segs_ext.
Qed.
End Load.

(** The segment is in memory: the bytes of the file, then zeros. *)
Definition seg_loaded (D : list (list Z)) (m : memory) (s : seg) : Prop :=
  (∀ y, 0 ≤ y < s_filesz s → m (s_pa s + y) = img D (s_off s + y)) ∧
  (∀ y, s_filesz s ≤ y < s_memsz s → m (s_pa s + y) = 0).

(** Loading [s'] later does not write over [s]: whole sectors are written. *)
Definition later_apart (s s' : seg) : Prop :=
  foot_hi s' ≤ s_pa s ∨ s_pa s + Z.max (s_filesz s) (s_memsz s) ≤ foot_lo s'.

Lemma with_seg_loads D m s : 0 ≤ s_filesz s → seg_loaded D (with_seg D m s) s.
Proof.
  intros Hf. pose proof (Z.mod_pos_bound (s_off s) 512 ltac:(lia)) as Hr.
  assert (s_filesz s + s_off s `mod` 512 ≤ 512 * seg_sectors (s_filesz s) (s_off s)) as Hn by (unfold seg_sectors; dlia).
  split; intros y Hy; unfold with_seg, foot_lo; case_tests; try lia; f_equal; lia.
Qed.

Lemma with_segs_other D l x : ∀ m,
  (∀ s, s ∈ l → (x < foot_lo s ∨ foot_hi s ≤ x) ∧ 0 ≤ s_filesz s) → foldl (with_seg D) m l x = m x.
Proof.
  induction l as [|s l IH]; intros m H; [done|]. cbn. destruct (H s ltac:(by left)) as [H1 H2].
  rewrite IH by (intros s' Hs'; apply H; by right). by apply with_seg_other.
Qed.

Lemma with_segs_loads D l : ∀ m,
  ForallOrdPairs later_apart l → Forall (λ s, 0 ≤ s_filesz s) l → ∀ s, s ∈ l → seg_loaded D (foldl (with_seg D) m l) s.
Proof.
  induction l as [|s0 l IH]; intros m Ho Hf s Hs; [by apply elem_of_nil in Hs|]. inversion Ho as [|? ? Ha Ho']. subst.
  apply Forall_cons in Hf as [Hf0 Hf]. apply elem_of_cons in Hs as [->|Hs]; [|by apply IH]. cbn [foldl].
  destruct (with_seg_loads D m s0 Hf0) as [L1 L2]. rewrite !Forall_forall in *.
  assert (∀ y, 0 ≤ y < Z.max (s_filesz s0) (s_memsz s0) → foldl (with_seg D) (with_seg D m s0) l (s_pa s0 + y) = with_seg D m s0 (s_pa s0 + y)) as Hsame.
  { intros y Hy. apply with_segs_other. intros s' Hs'. specialize (Ha s' Hs'). unfold later_apart in Ha. split; [lia|by apply Hf]. }
  split; intros y Hy; rewrite Hsame by lia; [by apply L1|by apply L2].
Qed.

(** The kernel file's first page, where bootmain puts it. *)
Definition first_page (D : list (list Z)) : memory := λ x, img D (x - elf_at).
Definition kernel_segs (D : list (list Z)) : list seg :=
  segs_in (first_page D) (elf_at + eh_phoff (first_page D) elf_at) (Z.to_nat (eh_phnum (first_page D) elf_at)).

(** A kernel that the loader can load: its program headers are in the first page,
    its segments within the disk and the address space, away from the page at
    0x10000, and apart. *)
Record bootable (D : list (list Z)) : Prop := {
  ba_size : 9 ≤ Z.of_nat (length D) ≤ 2 ^ 24;
  ba_magic : eh_magic (first_page D) elf_at = ELF_MAGIC;
  ba_phoff : 0 ≤ eh_phoff (first_page D) elf_at;
  ba_phnum : 0 ≤ eh_phnum (first_page D) elf_at;
  ba_headers : eh_phoff (first_page D) elf_at + 32 * eh_phnum (first_page D) elf_at ≤ 4096;
  ba_segs : ∀ s, s ∈ kernel_segs D → seg_ok D s ∧ (foot_hi s ≤ elf_at ∨ elf_at + 4096 ≤ foot_lo s);
  ba_apart : ForallOrdPairs later_apart (kernel_segs D)
}.


(** ** A concrete disk *)

Definition demo_elf_header : list Z :=
  bytes32 ELF_MAGIC ++ replicate 20 0 ++ bytes32 0x10000c ++ bytes32 52 ++ replicate 12 0 ++ [1; 0] ++ replicate 6 0
  ++ bytes32 1 ++ bytes32 4096 ++ bytes32 0x80100000 ++ bytes32 0x100000 ++ bytes32 100 ++ bytes32 300 ++ replicate 8 0.
Definition demo_boot_disk : list (list Z) :=
  replicate 512 0 :: (demo_elf_header ++ replicate (512 - length demo_elf_header) 0) :: replicate 7 (replicate 512 0) ++ [replicate 512 7].
Definition demo_boot_ata : ata := Ata 0 0 0 0 XNone (λ d, if d then [] else demo_boot_disk).
Definition demo_boot : kernel := set_k_io (Ports [] (ready_dev demo_boot_ata) 0) boot_kernel.

Lemma demo_boots : boots demo_boot_ata demo_boot_disk demo_boot.
Proof.
  assert (∀ v, 0 ≤ v < 256 → sector_ok (replicate 512 v)) as Hrep by (intros v Hv; split; [by apply Forall_replicate|done]).
  split; [apply ready_dev_speaks|done|]. unfold demo_boot_disk. apply Forall_cons_2; [by apply Hrep|]. apply Forall_cons_2.
  - split; [|done]. apply Forall_app. split; [|by apply Forall_replicate].
    assert (forallb (λ x, (0 <=? x) && (x <? 256)) demo_elf_header = true) as E by reflexivity. rewrite forallb_forall in E.
    apply Forall_forall. intros x Hx. apply list_elem_of_In in Hx. apply E in Hx. apply andb_prop in Hx as [H1%Z.leb_le H2%Z.ltb_lt]. by split.
  - apply Forall_app. split; [by apply Forall_replicate, Hrep|apply Forall_singleton; by apply Hrep].
Qed.

Lemma demo_bootable : bootable demo_boot_disk.
Proof.
  assert (kernel_segs demo_boot_disk = [Seg 0x100000 100 300 4096]) as E by (vm_compute; reflexivity).
  split; rewrite ?E; [vm_compute; split; discriminate|vm_compute; reflexivity|vm_compute; discriminate|vm_compute; discriminate|vm_compute; discriminate|..].
  - intros s Hs. apply list_elem_of_singleton in Hs as ->. split; [vm_compute; intuition discriminate|right; vm_compute; discriminate].
  - repeat constructor.
Qed.

