(* ===== verification/Log.v ===== *)
(** * The log

    [log.c]: write-ahead logging of file system transactions, with
    [readsb] of [fs.c]. *)

From S2P Require Import Prelude Defs Spinlock Kernel Sched Sleeplock Bytes Bio.
Local Open Scope kernel_scope.

Definition upd_log (f : log_t → log_t) : KM unit := modify (λ k, set_k_log (f (k_log k)) k).

(** ** fs.c: readsb *)

(** The seven words of the super block. *)
Definition sb_of_bytes (l : list Z) : superblock :=
  Superblock (get32 l 0) (get32 l 4) (get32 l 8) (get32 l 12) (get32 l 16) (get32 l 20) (get32 l 24).

Definition readsb (dev : Z) : KM superblock :=
  let! bp := bread dev 1 in
  let! x := rd_buf bp in
  brelse bp ;;;
  ret (sb_of_bytes (b_data x)).

(** ** log.c *)

(** [log.lh.block[i]], for an index the code keeps in range. *)
Definition lh_block (i : nat) (lg : log_t) : Z := nth i (lg_block lg) 0.

(** [log.lh.block[i] = v] *)
Definition set_lh_block (i : nat) (v : Z) : KM unit :=
  let! lg := gets k_log in
  if (i <? length (lg_block lg))%nat then upd_log (set_lg_block (<[i := v]> (lg_block lg)))
  else undef "log.lh.block bounds".

(** One round of install_trans: [memmove(dbuf->data, lbuf->data, BSIZE)] etc. *)
Definition install_one (tail : nat) : KM unit :=
  let! lg := gets k_log in
  let! lbuf := bread (lg_dev lg) (u32 (lg_start lg + Z.of_nat tail + 1)) in
  let! lg := gets k_log in
  let! dbuf := bread (lg_dev lg) (u32 (lh_block tail lg)) in
  let! l := rd_buf lbuf in
  upd_buf dbuf (set_b_data (b_data l)) ;;;
  bwrite dbuf ;;;
  brelse lbuf ;;;
  brelse dbuf.

Definition install_trans : KM unit :=
  let! lg := gets k_log in
  for_each (seq 0 (Z.to_nat (lg_n lg))) install_one.

(** The words of the header block. *)
Definition read_head : KM unit :=
  let! lg := gets k_log in
  let! b := bread (lg_dev lg) (u32 (lg_start lg)) in
  let! x := rd_buf b in
  upd_log (set_lg_n (i32 (get32 (b_data x) 0))) ;;;
  let! lg := gets k_log in
  for_each (seq 0 (Z.to_nat (lg_n lg))) (λ i,
    let! x := rd_buf b in
    set_lh_block i (i32 (get32 (b_data x) (4 + 4 * Z.of_nat i)))) ;;;
  brelse b.

Definition write_head : KM unit :=
  let! lg := gets k_log in
  let! b := bread (lg_dev lg) (u32 (lg_start lg)) in
  let! lg := gets k_log in
  upd_buf b (λ x, set_b_data (put32 (b_data x) 0 (lg_n lg)) x) ;;;
  for_each (seq 0 (Z.to_nat (lg_n lg))) (λ i,
    let! lg := gets k_log in
    upd_buf b (λ x, set_b_data (put32 (b_data x) (4 + 4 * Z.of_nat i) (lh_block i lg)) x)) ;;;
  bwrite b ;;;
  brelse b.

Definition recover_from_log : KM unit :=
  read_head ;;;
  install_trans ;;;
  upd_log (set_lg_n 0) ;;;
  write_head.

Definition initlog (dev : Z) : KM unit :=
  initlock Llog "log" ;;;
  let! sb := readsb dev in
  upd_log (set_lg_start (i32 (sb_logstart sb))) ;;;
  upd_log (set_lg_size (i32 (sb_nlog sb))) ;;;
  upd_log (set_lg_dev dev) ;;;
  recover_from_log.

(** begin_op: the loop sleeps while the log is committing or too full. *)
Definition log_busy (lg : log_t) : bool :=
  negb (lg_committing lg =? 0) ||
  (LOGSIZE <? lg_n lg + (lg_outstanding lg + 1) * MAXOPBLOCKS).

Definition begin_op : KM unit :=
  acquire Llog ;;;
  while_wait (gets (λ k, log_busy (k_log k))) (sleep ChLog Llog) ;;;
  upd_log (λ g, set_lg_outstanding (lg_outstanding g + 1) g) ;;;
  release Llog.

Definition write_one (tail : nat) : KM unit :=
  let! lg := gets k_log in
  let! to := bread (lg_dev lg) (u32 (lg_start lg + Z.of_nat tail + 1)) in
  let! lg := gets k_log in
  let! from := bread (lg_dev lg) (u32 (lh_block tail lg)) in
  let! f := rd_buf from in
  upd_buf to (set_b_data (b_data f)) ;;;
  bwrite to ;;;
  brelse from ;;;
  brelse to.

Definition write_log : KM unit :=
  let! lg := gets k_log in
  for_each (seq 0 (Z.to_nat (lg_n lg))) write_one.

Definition commit : KM unit :=
  let! lg := gets k_log in
  when (0 <? lg_n lg)
    (write_log ;;;
     write_head ;;;
     install_trans ;;;
     upd_log (set_lg_n 0) ;;;
     write_head).

Definition end_op : KM unit :=
  acquire Llog ;;;
  upd_log (λ g, set_lg_outstanding (lg_outstanding g - 1) g) ;;;
  let! lg := gets k_log in
  if negb (lg_committing lg =? 0) then panic "log.committing"
  else
    let do_commit := lg_outstanding lg =? 0 in
    (if do_commit then upd_log (set_lg_committing 1) else wakeup ChLog) ;;;
    release Llog ;;;
    when do_commit
      (commit ;;;
       acquire Llog ;;;
       upd_log (set_lg_committing 0) ;;;
       wakeup ChLog ;;;
       release Llog).

(** The position of the block in the log, or [lh.n]. *)
Fixpoint log_scan (blockno : Z) (n : nat) (bs : list Z) (i : nat) : nat :=
  match n, bs with
  | S n', b :: bs' => if u32 b =? blockno then i else log_scan blockno n' bs' (S i)
  | _, _ => i
  end.

Definition log_write (b : nat) : KM unit :=
  let! lg := gets k_log in
  if (LOGSIZE <=? lg_n lg) || (lg_size lg - 1 <=? lg_n lg) then panic "too big a transaction"
  else if lg_outstanding lg <? 1 then panic "log_write outside of trans"
  else
    acquire Llog ;;;
    let! x := rd_buf b in
    let! lg := gets k_log in
    let i := log_scan (b_blockno x) (Z.to_nat (lg_n lg)) (lg_block lg) 0 in
    set_lh_block i (i32 (b_blockno x)) ;;;
    when (Z.of_nat i =? lg_n lg) (upd_log (λ g, set_lg_n (lg_n g + 1) g)) ;;;
    upd_buf b (λ x, set_b_flags (Z.lor (b_flags x) B_DIRTY) x) ;;;
    release Llog.
