(* ===== verification/Crash.v ===== *)
(** * Crash safety of the log

    Theorems on [log.c].  A run of commit or of recovery can be cut short by a
    power failure before any disk write ([k_power]); what it leaves is the disk.
    [replay] is what the log area of a disk means: the home blocks after the
    committed transaction, if there is one, has been copied out.  Commit changes
    the meaning of the disk in one step, whatever the point of the failure, and
    recovery, itself interrupted any number of times, does not change it. *)

From S2P Require Import Prelude Defs Spinlock Kernel Sched Sleeplock Bytes Bio Log.
Local Open Scope kernel_scope.

(** ** What the log on a disk means *)

Section Disk.
Context (st : nat).  (* the block of the log header *)

Definition hdr_n (D : list (list Z)) : nat := Z.to_nat (i32 (get32 (nth st D []) 0)).
Definition hdr_block (D : list (list Z)) (i : nat) : nat :=
  Z.to_nat (i32 (get32 (nth st D []) (4 + 4 * Z.of_nat i))).

(** Copying the first [n] blocks of the log to their homes. *)
Fixpoint install (n : nat) (D : list (list Z)) : list (list Z) :=
  match n with
  | O => D
  | S n' => <[hdr_block D n' := nth (st + n' + 1) D []]> (install n' D)
  end.
Definition replay (D : list (list Z)) : list (list Z) := install (hdr_n D) D.

(** The header can be trusted: a log of [sz] blocks, each logged block with one
    home, on the disk and outside the log. *)
Record disk_ok (sz : nat) (D : list (list Z)) : Prop := {
  dk_n : (hdr_n D < sz)%nat;
  dk_sz : (sz ≤ 30)%nat;
  dk_area : (st + sz ≤ length D)%nat;
  dk_len : Z.of_nat (length D) < 2147483648;
  dk_hdr : length (nth st D []) = 512%nat;
  dk_home i : (i < hdr_n D)%nat →
    0 ≤ i32 (get32 (nth st D []) (4 + 4 * Z.of_nat i)) ∧
    (hdr_block D i < length D)%nat ∧ ¬ (st ≤ hdr_block D i < st + sz)%nat;
  dk_nodup i j : (i < hdr_n D)%nat → (j < hdr_n D)%nat → hdr_block D i = hdr_block D j → i = j
}.

(** Two disks with the same meaning: recovery gives the same home blocks. *)
Definition same_files (sz : nat) (D D' : list (list Z)) : Prop :=
  ∀ b, ¬ (st ≤ b < st + sz)%nat → replay D !! b = replay D' !! b.

(** ** Copying out changes only home blocks *)

Lemma length_install n D : length (install n D) = length D.
Proof. induction n; simpl; [done|by rewrite length_insert]. Qed.

Lemma install_other n D b :
  (∀ j, (j < n)%nat → hdr_block D j ≠ b) → install n D !! b = D !! b.
Proof.
  induction n as [|n IH]; simpl; [done|]. intros H.
  rewrite list_lookup_insert_ne by (apply H; lia). apply IH. intros j Hj. apply H. lia.
Qed.

(** A block of the log area keeps its contents. *)
Lemma install_log sz n D b :
  disk_ok sz D → (n ≤ hdr_n D)%nat → (st ≤ b < st + sz)%nat → nth b (install n D) [] = nth b D [].
Proof.
  intros H Hn Hb. rewrite !nth_lookup, install_other; [done|]. intros j Hj <-.
  destruct (dk_home _ _ H j) as (_ & _ & Hh); [lia|]. by apply Hh.
Qed.

Lemma install_at sz n D j :
  disk_ok sz D → (j < n)%nat → (n ≤ hdr_n D)%nat →
  install n D !! hdr_block D j = Some (nth (st + j + 1) D []).
Proof.
  intros H. induction n as [|n IH]; simpl; [lia|]. intros Hj Hn.
  destruct (dk_home _ _ H j) as (_ & Hl & _); [lia|].
  destruct (decide (j = n)) as [->|Hne].
  - rewrite list_lookup_insert_eq; [done|by rewrite length_install].
  - rewrite list_lookup_insert_ne; [apply IH; lia|].
    intros E. apply Hne. symmetry. apply (dk_nodup _ _ H); [lia..|done].
Qed.

Section Installed.
Context (sz n : nat) (D : list (list Z)) (H : disk_ok sz D) (Hn : (n ≤ hdr_n D)%nat).

Lemma installed_hdr : nth st (install n D) [] = nth st D [].
Proof. apply (install_log sz); [done|done|]. pose proof (dk_n _ _ H). lia. Qed.
Lemma installed_n : hdr_n (install n D) = hdr_n D.
Proof. unfold hdr_n. by rewrite installed_hdr. Qed.
Lemma installed_block i : hdr_block (install n D) i = hdr_block D i.
Proof. unfold hdr_block. by rewrite installed_hdr. Qed.

Lemma installed_ok : disk_ok sz (install n D).
Proof.
  destruct H as [H1 H2 H3 H4 H5 H6 H7].
  split; rewrite ?installed_n, ?length_install, ?installed_hdr; try assumption.
  - intros i Hi. rewrite installed_block. by apply H6.
  - intros i j Hi Hj. rewrite !installed_block. by apply H7.
Qed.

(** Copying out part of the log again gives the same home blocks. *)
Lemma installed_same : same_files sz (install n D) D.
Proof.
  intros b Hb. unfold replay. rewrite installed_n.
  destruct (decide (Exists (λ j, hdr_block D j = b) (seq 0 (hdr_n D)))) as [Hex|Hex].
  - apply Exists_exists in Hex as (j & Hj%elem_of_seq & <-).
    rewrite (install_at sz _ D j H) by lia.
    pose proof (install_at sz (hdr_n D) _ j installed_ok ltac:(lia) ltac:(rewrite installed_n; lia)) as E.
    rewrite installed_block in E. rewrite E. f_equal. apply (install_log sz); [done|done|]. pose proof (dk_n _ _ H). lia.
  - assert (∀ j, (j < hdr_n D)%nat → hdr_block D j ≠ b) as Hno.
    { intros j Hj E. apply Hex, Exists_exists. exists j. rewrite elem_of_seq. split; [lia|done]. }
    rewrite !install_other; auto; [|intros; rewrite installed_block; auto]. intros. apply Hno. lia.
Qed.
End Installed.
End Disk.

(** ** Stepping through the code *)

Lemma cst_log pid c k0 k : cst pid c k0 k → k_log k = k_log k0.
Proof. intros [_ _ _ (B & L & D & T & W & ->)]. done. Qed.

Lemma cst_upd_log pid c k0 k g :
  cst pid c k0 k → cst pid c (set_k_log g k0) (set_k_log g k).
Proof.
  intros [Q I D (B & L & D' & T & W & F)]. split; [by apply (quiet_ext pid k)|done|done|].
  exists B, L, D', T, W. rewrite F. by destruct k0.
Qed.

Lemma upd_log_spec pid c k0 k o f C :
  cst pid c k0 k → cruns (upd_log f) o k (λ _ k', cst pid c (set_k_log (f (k_log k0)) k0) k') C.
Proof.
  intros S. eapply cruns_ok; [reflexivity|done|]. rewrite (cst_log _ _ _ _ S). by apply cst_upd_log.
Qed.

Lemma cruns_gets {A B} (f : kernel → B) (g : B → KM A) o k Q C :
  cruns (g (f k)) o k Q C → cruns (bind (gets f) g) o k Q C.
Proof. done. Qed.

(** [cstep lem]: the next call by its specification. *)
Ltac cstep lem :=
  first [ apply cruns_bind; eapply cruns_mono; [eapply lem| |exact (λ _ H, H)]
        | eapply cruns_mono; [eapply lem| |exact (λ _ H, H)] ].

Section Runs.
Context (pid : Z) (st sz : nat).

(** The log descriptor in memory, as initlog sets it up. *)
Definition log_at (g : log_t) : Prop :=
  lg_dev g = 1 ∧ lg_start g = Z.of_nat st ∧ lg_size g = Z.of_nat sz ∧ length (lg_block g) = 30%nat.

(** Abstract caches with no buffer in use. *)
Definition idle (D : list (list Z)) (P : gmap nat (list Z)) : cache := Cache D P ∅.

Lemma can_read_idle n D P :
  (n < length D)%nat → is_Some (P !! n) ∨ (size P < NBUF)%nat → can_read n (idle D P).
Proof. intros Hn Hr. split_and!; [done|set_solver|]. simpl. by rewrite map_size_empty. Qed.

Lemma can_read_second n m b D P :
  (n < length D)%nat → m ≠ n → is_Some (P !! n) ∨ (size P + 1 < NBUF)%nat →
  can_read n (c_hold b m (idle D P)).
Proof.
  intros Hn Hne Hr. split_and!; [done| |].
  - intros b' d. simpl. rewrite lookup_insert_Some. intros [[_ E]|[_ E]]; [congruence|set_solver].
  - simpl. rewrite map_size_insert_None, map_size_empty by done. naive_solver lia.
Qed.

(** Copying one pinned block to the log. *)
Lemma write_one_spec k0 k o D P tail hb d C :
  cst pid (idle D P) k0 k → log_at (k_log k0) →
  lh_block tail (k_log k0) = Z.of_nat hb → P !! hb = Some d → P !! (st + tail + 1)%nat = None →
  (st + tail + 1 < length D)%nat → (hb < length D)%nat → Z.of_nat (length D) < 2147483648 →
  (size P < NBUF)%nat → C D →
  cruns (write_one tail) o k
    (λ _ k', cst pid (idle (<[(st + tail + 1)%nat := d]> D) P) k0 k') C.
Proof.
  intros S (Hdev & Hst & _) Hhb HP HPl Hl Hbl Hlen Hsz HC. set (lt := (st + tail + 1)%nat) in *.
  unfold write_one. apply cruns_gets. rewrite (cst_log _ _ _ _ S), Hdev, Hst.
  replace (u32 (Z.of_nat st + Z.of_nat tail + 1)) with (Z.of_nat lt) by (rewrite u32_small; lia).
  cstep bread_spec; [exact S|by apply can_read_idle; auto|].
  intros to k1 [_ S1]. apply cruns_gets. rewrite (cst_log _ _ _ _ S1), Hdev, Hhb, u32_small by lia.
  cstep bread_spec; [exact S1|apply can_read_second; eauto; congruence|].
  intros from k2 [Hne S2]. simpl in Hne. apply lookup_insert_None in Hne as [_ Hne].
  assert (c_view hb (c_hold to lt (idle D P)) = d) as Ev by (unfold c_view; simpl; by rewrite HP).
  unfold c_hold at 1 in S2. rewrite Ev in S2. simpl in S2.
  eapply rd_buf_spec; [exact S2|apply lookup_insert_eq|]. simpl b_data.
  cstep upd_buf_spec; [exact S2|simpl; rewrite lookup_insert_ne by done; apply lookup_insert_eq|done|].
  intros [] k3 S3. cstep bwrite_spec; [exact S3|simpl|done|].
  { by rewrite lookup_alter_eq, lookup_insert_ne, lookup_insert_eq by done. }
  intros [] k4 S4. cstep brelse_spec; [exact S4|simpl|simpl|].
  { rewrite lookup_alter_ne by done. apply lookup_insert_eq. }
  { rewrite lookup_delete_ne by congruence. congruence. }
  intros [] k5 S5. cstep brelse_spec; [exact S5|simpl|simpl|].
  { by rewrite lookup_delete_ne, lookup_alter_eq, lookup_insert_ne, lookup_insert_eq by done. }
  { intros _. by apply list_lookup_insert_eq. }
  intros [] k6 S6. simpl in S6.
  assert (lt ≠ hb) as Hlb by congruence. unfold c_release, c_write, c_store in S6. simpl in S6.
  replace (Cache _ _ _) with (idle (<[lt := d]> D) P) in S6; [done|]. unfold idle. f_equal.
  - rewrite (delete_id P) by done. apply map_eq. intros i.
    destruct (decide (i = lt)) as [->|]; [|destruct (decide (i = hb)) as [->|]];
      rewrite ?lookup_alter_eq, ?lookup_alter_ne, ?lookup_alter_eq by done; [|by rewrite HP|done].
    by rewrite HPl.
  - apply map_eq. intros i. destruct (decide (i = to)) as [->|]; [by simplify_map_eq|].
    destruct (decide (i = from)) as [->|]; by simplify_map_eq.
Qed.

(** Copying one block of the log to its home. *)
Lemma install_one_spec k0 k o D P tail hb C :
  cst pid (idle D P) k0 k → log_at (k_log k0) →
  lh_block tail (k_log k0) = Z.of_nat hb → P !! (st + tail + 1)%nat = None → hb ≠ (st + tail + 1)%nat →
  (st + tail + 1 < length D)%nat → (hb < length D)%nat → Z.of_nat (length D) < 2147483648 →
  (size P < NBUF)%nat → is_Some (P !! hb) ∨ (size P + 1 < NBUF)%nat → C D →
  cruns (install_one tail) o k
    (λ _ k', cst pid (idle (<[hb := nth (st + tail + 1) D []]> D) (delete hb P)) k0 k') C.
Proof.
  intros S (Hdev & Hst & _) Hhb HPl Hlb Hl Hbl Hlen Hsz Hr HC. set (lt := (st + tail + 1)%nat) in *.
  unfold install_one. apply cruns_gets. rewrite (cst_log _ _ _ _ S), Hdev, Hst.
  replace (u32 (Z.of_nat st + Z.of_nat tail + 1)) with (Z.of_nat lt) by (rewrite u32_small; lia).
  cstep bread_spec; [exact S|by apply can_read_idle; auto|].
  intros lb k1 [_ S1]. apply cruns_gets. rewrite (cst_log _ _ _ _ S1), Hdev, Hhb, u32_small by lia.
  cstep bread_spec; [exact S1|by apply can_read_second; eauto|].
  intros db k2 [Hne S2]. simpl in Hne. apply lookup_insert_None in Hne as [_ Hne].
  assert (c_view lt (idle D P) = nth lt D []) as Ev by (unfold c_view; simpl; by rewrite HPl).
  unfold c_hold in S2. rewrite Ev in S2. simpl in S2. set (dl := nth lt D []) in *.
  eapply rd_buf_spec; [exact S2|simpl; rewrite lookup_insert_ne by done; apply lookup_insert_eq|]. simpl b_data.
  cstep upd_buf_spec; [exact S2|apply lookup_insert_eq|done|].
  intros [] k3 S3. cstep bwrite_spec; [exact S3|simpl; by rewrite lookup_alter_eq, lookup_insert_eq|done|].
  intros [] k4 S4. cstep brelse_spec; [exact S4|simpl|simpl|].
  { by rewrite lookup_alter_ne, lookup_insert_ne, lookup_insert_eq by done. }
  { intros _. rewrite list_lookup_insert_ne by done. destruct (lookup_lt_is_Some_2 D lt Hl) as [x Hx].
    unfold dl. by rewrite (nth_lookup_Some _ _ _ _ Hx). }
  intros [] k5 S5. cstep brelse_spec; [exact S5|simpl|simpl|].
  { by rewrite lookup_delete_ne, lookup_alter_eq, lookup_insert_eq by done. }
  { intros _. by apply list_lookup_insert_eq. }
  intros [] k6 S6. simpl in S6. unfold c_release, c_write, c_store in S6. simpl in S6.
  replace (Cache _ _ _) with (idle (<[hb := dl]> D) (delete hb P)) in S6; [done|]. unfold idle. f_equal.
  - apply map_eq. intros i. destruct (decide (i = lt)) as [->|]; [|destruct (decide (i = hb)) as [->|]];
      rewrite ?lookup_alter_eq, ?lookup_alter_ne, ?lookup_alter_eq, ?lookup_delete_ne, ?lookup_delete_eq by done; try done.
    by rewrite HPl.
  - apply map_eq. intros i. destruct (decide (i = lb)) as [->|]; [by simplify_map_eq|].
    destruct (decide (i = db)) as [->|]; by simplify_map_eq.
Qed.

(** The header block for a log in memory, over its previous contents. *)
Definition hdr_of (g : log_t) (l : list Z) : list Z :=
  foldl (λ l i, put32 l (4 + 4 * Z.of_nat i) (lh_block i g)) (put32 l 0 (lg_n g))
    (seq 0 (Z.to_nat (lg_n g))).

Lemma write_head_spec k0 k o D P C :
  cst pid (idle D P) k0 k → log_at (k_log k0) → P !! st = None →
  (st < length D)%nat → Z.of_nat (length D) < 2147483648 → (size P < NBUF)%nat → C D →
  cruns write_head o k
    (λ _ k', cst pid (idle (<[st := hdr_of (k_log k0) (nth st D [])]> D) P) k0 k') C.
Proof.
  intros S (Hdev & Hst & _) HPs Hl Hlen Hsz HC.
  unfold write_head. apply cruns_gets. rewrite (cst_log _ _ _ _ S), Hdev, Hst, u32_small by lia.
  cstep bread_spec; [exact S|by apply can_read_idle; auto|].
  intros b k1 [_ S1]. apply cruns_gets. rewrite (cst_log _ _ _ _ S1).
  assert (c_view st (idle D P) = nth st D []) as Ev by (unfold c_view; simpl; by rewrite HPs).
  unfold c_hold in S1. rewrite Ev in S1. simpl in S1. set (h0 := nth st D []) in *. set (g := k_log k0) in *.
  cstep upd_buf_spec; [exact S1|apply lookup_insert_eq|done|]. intros [] k2 S2. simpl b_data in S2.
  set (h := λ n, foldl (λ l i, put32 l (4 + 4 * Z.of_nat i) (lh_block i g)) (put32 h0 0 (lg_n g)) (seq 0 n)).
  set (c1 := λ x, Cache D P {[b := (st, x)]}).
  assert (∀ x y, c_store b y (c1 x) = c1 y) as Ec.
  { intros x y. unfold c_store, c1. simpl. by rewrite alter_singleton_eq. }
  apply cruns_bind.
  eapply cruns_mono; [apply (cruns_seq (λ n k', cst pid (c1 (h n)) k0 k'))| |done].
  - intros i k3 Hi S3. apply cruns_gets. rewrite (cst_log _ _ _ _ S3).
    eapply cruns_mono; [eapply upd_buf_spec; [exact S3|apply lookup_insert_eq|done]| |done].
    intros [] k4 S4. rewrite Ec in S4. assert (h (Datatypes.S i) = put32 (h i) (4 + 4 * Z.of_nat i) (lh_block i g)) as ->; [|done].
    unfold h. by rewrite seq_S, foldl_app.
  - change (cst pid (c_store b (put32 h0 0 (lg_n g)) (c1 h0)) k0 k2) in S2. by rewrite Ec in S2.
  - intros [] k3 S3. cstep bwrite_spec; [exact S3|apply lookup_insert_eq|done|].
    intros [] k4 S4. cstep brelse_spec; [exact S4|apply lookup_insert_eq|simpl|].
    { intros _. by apply list_lookup_insert_eq. }
    intros [] k5 S5. unfold c_release, c_write, c1 in S5. simpl in S5.
    rewrite (delete_id P), delete_singleton_eq in S5 by done.
    replace (alter _ st P) with P in S5; [done|]. apply map_eq. intros i.
    destruct (decide (i = st)) as [->|]; [by rewrite lookup_alter_eq, HPs|by rewrite lookup_alter_ne].
Qed.

(** ** The loops *)

(** Pinned blocks after the first [n] homes have been written. *)
Fixpoint unpin (D : list (list Z)) (n : nat) (P : gmap nat (list Z)) : gmap nat (list Z) :=
  match n with
  | O => P
  | S n' => delete (hdr_block st D n') (unpin D n' P)
  end.

Lemma unpin_lookup D n P b :
  unpin D n P !! b = if decide (Exists (λ j, hdr_block st D j = b) (seq 0 n)) then None else P !! b.
Proof.
  induction n as [|n IH].
  - rewrite decide_False; [done|]. intros H. by apply Exists_nil in H.
  - cbn [unpin]. destruct (decide (hdr_block st D n = b)) as [E|E].
    + rewrite E, lookup_delete_eq, decide_True; [done|]. rewrite seq_S, Exists_app. right. by constructor.
    + rewrite lookup_delete_ne, IH by done.
      assert (Exists (λ j, hdr_block st D j = b) (seq 0 (S n)) ↔
              Exists (λ j, hdr_block st D j = b) (seq 0 n)) as Hi.
      { rewrite seq_S, Exists_app, Exists_cons, Exists_nil. naive_solver. }
      by apply decide_ext.
Qed.
Lemma unpin_size D n P : (size (unpin D n P) ≤ size P)%nat.
Proof.
  induction n as [|n IH]; cbn [unpin]; [done|]. rewrite map_size_delete.
  destruct (unpin D n P !! _); simpl; lia.
Qed.

(** What the descriptor in memory and the header on the disk agree on. *)
Definition log_matches (g : log_t) (D : list (list Z)) : Prop :=
  Z.to_nat (lg_n g) = hdr_n st D ∧
  ∀ i, (i < hdr_n st D)%nat → lh_block i g = Z.of_nat (hdr_block st D i).

Lemma install_trans_spec k0 k o D P C :
  cst pid (idle D P) k0 k → log_at (k_log k0) → disk_ok st sz D → log_matches (k_log k0) D →
  (∀ b, (st ≤ b < st + sz)%nat → P !! b = None) → (size P < NBUF)%nat →
  (∀ i, (i < hdr_n st D)%nat → is_Some (P !! hdr_block st D i)) ∨ (size P + 1 < NBUF)%nat →
  (∀ i, (i ≤ hdr_n st D)%nat → C (install st i D)) →
  cruns install_trans o k
    (λ _ k', cst pid (idle (replay st D) (unpin D (hdr_n st D) P)) k0 k') C.
Proof.
  intros S Hg Hok [Hn Hb] HPl Hsz Hroom HC. unfold install_trans. apply cruns_gets.
  rewrite (cst_log _ _ _ _ S), Hn.
  apply (cruns_seq (λ i k', cst pid (idle (install st i D) (unpin D i P)) k0 k')); [|done].
  intros i k1 Hi S1. pose proof (dk_n _ _ _ Hok) as Hns. pose proof (dk_area _ _ _ Hok) as Ha.
  destruct (dk_home _ _ _ Hok i Hi) as (_ & Hbl & Hnl). pose proof (unpin_size D i P) as Hus.
  eapply cruns_mono; [apply (install_one_spec _ _ _ _ _ _ (hdr_block st D i) C S1 Hg)| |done].
  - by apply Hb.
  - rewrite unpin_lookup, HPl by lia. by case_decide.
  - lia.
  - rewrite length_install. lia.
  - by rewrite length_install.
  - rewrite length_install. apply (dk_len _ _ _ Hok).
  - lia.
  - destruct Hroom as [Hp|?]; [left|right; lia]. rewrite unpin_lookup, decide_False; [by apply Hp|].
    intros (j & Hj%elem_of_seq & E)%Exists_exists.
    apply (dk_nodup _ _ _ Hok) in E; lia.
  - apply HC. lia.
  - intros [] k2 S2. simpl in S2. by rewrite (install_log st sz) in S2 by (done || lia).
Qed.

(** ** The header block *)

Definition log_ranges (g : log_t) : Prop :=
  0 ≤ lg_n g ≤ 30 ∧ ∀ i, (i < Z.to_nat (lg_n g))%nat → 0 ≤ lh_block i g < 2147483648.

Lemma hdr_of_spec g l :
  length l = 512%nat → log_ranges g →
  length (hdr_of g l) = 512%nat ∧ i32 (get32 (hdr_of g l) 0) = lg_n g ∧
  ∀ i, (i < Z.to_nat (lg_n g))%nat → i32 (get32 (hdr_of g l) (4 + 4 * Z.of_nat i)) = lh_block i g.
Proof.
  intros Hl [Hn Hb]. unfold hdr_of.
  set (h := λ n, foldl (λ l i, put32 l (4 + 4 * Z.of_nat i) (lh_block i g)) (put32 l 0 (lg_n g)) (seq 0 n)).
  assert (∀ n, (n ≤ 30)%nat → length (h n) = 512%nat ∧ get32 (h n) 0 = u32 (lg_n g) ∧
    ∀ i, (i < n)%nat → get32 (h n) (4 + 4 * Z.of_nat i) = u32 (lh_block i g)) as H.
  { induction n as [|n IH]; intros Hle.
    - unfold h. cbn [seq foldl]. rewrite length_put32, get32_put32 by lia. split_and!; [done|done|lia].
    - destruct IH as (I1 & I2 & I3); [lia|].
      assert (h (S n) = put32 (h n) (4 + 4 * Z.of_nat n) (lh_block n g)) as ->
        by (unfold h; by rewrite seq_S, foldl_app).
      rewrite length_put32, get32_put32_other by lia. split_and!; [done|done|].
      intros i Hi. destruct (decide (i = n)) as [->|]; [by rewrite get32_put32 by lia|].
      rewrite get32_put32_other by lia. apply I3. lia. }
  destruct (H (Z.to_nat (lg_n g))) as (H1 & H2 & H3); [lia|]. fold (h (Z.to_nat (lg_n g))).
  split_and!; [done|rewrite H2, u32_small, i32_small; lia|].
  intros i Hi. specialize (Hb i Hi). rewrite H3, u32_small, i32_small by lia. done.
Qed.

(** Reading the header gives a descriptor that matches it. *)
Lemma read_head_spec k0 k o D P C :
  cst pid (idle D P) k0 k → log_at (k_log k0) → disk_ok st sz D → P !! st = None → (size P < NBUF)%nat →
  cruns read_head o k
    (λ _ k', ∃ g, log_at g ∧ log_matches g D ∧ cst pid (idle D P) (set_k_log g k0) k') C.
Proof.
  intros S Hg Hok HPs Hsz. pose proof (dk_n _ _ _ Hok) as Hn. pose proof (dk_sz _ _ _ Hok) as Hs30.
  pose proof (dk_area _ _ _ Hok) as Ha. pose proof (dk_len _ _ _ Hok) as Hlen.
  destruct Hg as (Hdev & Hst & Hsize & Hbl). unfold read_head. apply cruns_gets.
  rewrite (cst_log _ _ _ _ S), Hdev, Hst, u32_small by lia.
  cstep bread_spec; [exact S|apply can_read_idle; [lia|auto]|]. intros b k1 [_ S1].
  assert (c_view st (idle D P) = nth st D []) as Ev by (unfold c_view; simpl; by rewrite HPs).
  unfold c_hold in S1. rewrite Ev in S1. simpl in S1. set (h := nth st D []) in *.
  eapply rd_buf_spec; [exact S1|apply lookup_insert_eq|]. simpl b_data.
  set (n := i32 (get32 h 0)). set (c1 := Cache D P {[b := (st, h)]}) in *. set (g0 := k_log k0) in *.
  eapply cruns_step; [reflexivity|done|]. rewrite (cst_log _ _ _ _ S1). fold g0.
  apply (cst_upd_log _ _ _ _ (set_lg_n n g0)) in S1. apply cruns_gets. rewrite (cst_log _ _ _ _ S1).
  change (Z.to_nat (lg_n _)) with (hdr_n st D).
  set (k2 := set_k_log (set_lg_n n g0) k1) in *. clearbody k2. apply cruns_bind.
  eapply cruns_mono; [apply (cruns_seq (λ m k', ∃ g, log_at g ∧ lg_n g = n ∧
    (∀ i, (i < m)%nat → lh_block i g = Z.of_nat (hdr_block st D i)) ∧ cst pid c1 (set_k_log g k0) k') _ C)| |done].
  - intros i k3 Hi (g & (G1 & G2 & G3 & G4) & Gn & Gb & S3).
    eapply rd_buf_spec; [exact S3|apply lookup_insert_eq|]. simpl b_data.
    unfold set_lh_block. apply cruns_gets. rewrite (cst_log _ _ _ _ S3). kproj.
    rewrite (proj2 (Nat.ltb_lt _ _)) by lia. eapply cruns_ok; [reflexivity|done|].
    rewrite (cst_log _ _ _ _ S3). kproj. set (v := i32 _).
    exists (set_lg_block (<[i := v]> (lg_block g)) g). split_and!.
    + split_and!; [done..|]. simpl. by rewrite length_insert.
    + done.
    + intros j Hj. unfold lh_block. simpl. rewrite nth_lookup. destruct (decide (j = i)) as [->|].
      * rewrite list_lookup_insert_eq by lia. simpl. unfold hdr_block. fold h v.
        destruct (dk_home _ _ _ Hok i Hi) as (Hv & _). fold h v in Hv. lia.
      * rewrite list_lookup_insert_ne by done. specialize (Gb j ltac:(lia)).
        unfold lh_block in Gb. by rewrite nth_lookup in Gb.
    + apply (cst_upd_log _ _ _ _ (set_lg_block (<[i := v]> (lg_block g)) g)) in S3. by destruct k0.
  - exists (set_lg_n n g0). split_and!; [done..|lia|done].
  - intros [] k3 (g & Hg & Gn & Gb & S3).
    eapply cruns_mono; [eapply brelse_spec; [exact S3|apply lookup_insert_eq|]| |done].
    + intros _. simpl. unfold h. destruct (lookup_lt_is_Some_2 D st) as [x Hx]; [lia|].
      by rewrite (nth_lookup_Some _ _ _ _ Hx).
    + intros [] k4 S4. exists g. split_and!; [done| |].
      * split; [by rewrite Gn|done].
      * unfold c_release, c1 in S4. simpl in S4. rewrite delete_singleton_eq in S4.
        replace (alter _ st P) with P in S4; [done|]. apply map_eq. intros i.
        destruct (decide (i = st)) as [->|]; [by rewrite lookup_alter_eq, HPs|by rewrite lookup_alter_ne].
Qed.

(** ** Recovery *)

(** What recovery makes of a disk, home block by home block. *)
Definition means (D : list (list Z)) (f : nat → option (list Z)) : Prop :=
  ∀ b, ¬ (st ≤ b < st + sz)%nat → replay st D !! b = f b.

(** A header written over block [st]. *)
Lemma new_hdr (D : list (list Z)) h : (st < length D)%nat → nth st (<[st := h]> D) [] = h.
Proof. intros H. by rewrite nth_lookup, list_lookup_insert_eq. Qed.

(** An empty header: the disk means what is on it. *)
Lemma cleared D h :
  disk_ok st sz D → length h = 512%nat → i32 (get32 h 0) = 0 →
  disk_ok st sz (<[st := h]> D) ∧ hdr_n st (<[st := h]> D) = 0%nat ∧
  means (<[st := h]> D) (λ b, D !! b).
Proof.
  intros Hok Hl H0. pose proof (dk_n _ _ _ Hok) as Hn. pose proof (dk_area _ _ _ Hok) as Ha.
  assert (hdr_n st (<[st := h]> D) = 0%nat) as E.
  { unfold hdr_n. rewrite new_hdr by lia. by rewrite H0. }
  split_and!; [|done|].
  - split; rewrite ?E, ?length_insert, ?new_hdr; try lia; try apply Hok.
  - intros b Hb. unfold replay. rewrite E. simpl. apply list_lookup_insert_ne. lia.
Qed.

Lemma recover_spec k0 k o D :
  cst pid (idle D ∅) k0 k → log_at (k_log k0) → disk_ok st sz D →
  cruns recover_from_log o k
    (λ _ k', ∃ D' g, cst pid (idle D' ∅) (set_k_log g k0) k' ∧ log_at g ∧ lg_n g = 0 ∧
       disk_ok st sz D' ∧ hdr_n st D' = 0%nat ∧ same_files st sz D' D)
    (λ D', disk_ok st sz D' ∧ same_files st sz D' D).
Proof.
  intros S Hg Hok. pose proof (dk_n _ _ _ Hok) as Hn. pose proof (dk_area _ _ _ Hok) as Ha.
  pose proof NBUF_eq as HN. unfold recover_from_log.
  cstep read_head_spec; [exact S|done|done|done|rewrite map_size_empty; lia|].
  intros [] k1 (g & Hg1 & Hm & S1). apply cruns_bind.
  assert (∀ i, (i ≤ hdr_n st D)%nat → disk_ok st sz (install st i D) ∧ same_files st sz (install st i D) D) as HC.
  { intros i Hi. split; [by apply installed_ok|by apply installed_same]. }
  set (C := λ D', disk_ok st sz D' ∧ same_files st sz D' D).
  eapply (cruns_mono _ _ _ _ _ C); [apply (install_trans_spec _ _ _ _ _ C S1)| |done]; try done.
  { rewrite map_size_empty. lia. } { right. rewrite map_size_empty. lia. }
  intros [] k2 S2. assert (∀ n, unpin D n ∅ = ∅) as Eu.
  { induction n as [|n IH]; cbn [unpin]; [done|]. by rewrite IH, delete_empty. }
  rewrite Eu in S2. cstep upd_log_spec; [exact S2|]. intros [] k3 S3.
  destruct (HC (hdr_n st D)) as [Hok' Hsame]; [done|]. fold (replay st D) in Hok', Hsame.
  change (set_k_log _ (set_k_log _ k0)) with (set_k_log (set_lg_n 0 g) k0) in S3.
  assert (log_ranges (set_lg_n 0 g)) as Hr by (split; simpl; [lia|lia]).
  destruct (hdr_of_spec (set_lg_n 0 g) (nth st (replay st D) []) (dk_hdr _ _ _ Hok') Hr) as (L1 & L2 & _).
  destruct (cleared _ _ Hok' L1 L2) as (C1 & C2 & C3).
  eapply (cruns_mono _ _ _ _ _ C); [apply (write_head_spec _ _ _ _ _ C S3); [done|done|..]| |done].
  - unfold replay. rewrite length_install. lia.
  - apply (dk_len _ _ _ Hok').
  - rewrite map_size_empty. lia.
  - done.
  - intros [] k4 S4. eexists _, (set_lg_n 0 g). split_and!; [exact S4|done..|].
    intros b Hb. by apply C3.
Qed.

(** ** Commit *)

(** A transaction ready to commit: the log on the disk is empty, the descriptor
    lists each pinned block once. *)
Record txn (g : log_t) (D : list (list Z)) (P : gmap nat (list Z)) : Prop := {
  tx_at : log_at g;
  tx_disk : disk_ok st sz D;
  tx_empty : hdr_n st D = 0%nat;
  tx_n : 0 ≤ lg_n g < Z.of_nat sz;
  tx_home i : (i < Z.to_nat (lg_n g))%nat →
    0 ≤ lh_block i g < Z.of_nat (length D) ∧ ¬ (Z.of_nat st ≤ lh_block i g < Z.of_nat (st + sz));
  tx_nodup i j : (i < Z.to_nat (lg_n g))%nat → (j < Z.to_nat (lg_n g))%nat →
    lh_block i g = lh_block j g → i = j;
  tx_pins b : is_Some (P !! b) ↔ ∃ i, (i < Z.to_nat (lg_n g))%nat ∧ lh_block i g = Z.of_nat b
}.

(** The disk with the pinned blocks in place. *)
Definition overlay (P : gmap nat (list Z)) (D : list (list Z)) (b : nat) : option (list Z) :=
  match P !! b with Some d => Some d | None => D !! b end.

Section Commit.
Context (g : log_t) (D : list (list Z)) (P : gmap nat (list Z)) (Htx : txn g D P).
Local Notation n := (Z.to_nat (lg_n g)).
Local Notation hb i := (Z.to_nat (lh_block i g)).

Lemma tx_hb i : (i < n)%nat →
  lh_block i g = Z.of_nat (hb i) ∧ (hb i < length D)%nat ∧ ¬ (st ≤ hb i < st + sz)%nat ∧
  ∃ d, P !! hb i = Some d.
Proof.
  intros Hi. destruct (tx_home _ _ _ Htx i Hi) as [H1 H2]. split_and!; [lia|lia|lia|].
  apply (tx_pins _ _ _ Htx). exists i. split; [done|lia].
Qed.

(** The pinned blocks are the ones in the log header. *)
Lemma tx_count : (size P ≤ n)%nat.
Proof.
  pose proof (tx_n _ _ _ Htx).
  assert (length (elements (dom P)) ≤ length ((λ i, hb i) <$> seq 0 n))%nat as Hs.
  { apply submseteq_length, NoDup_submseteq; [apply NoDup_elements|].
    intros b (i & Hi & E)%elem_of_elements%elem_of_dom%(tx_pins _ _ _ Htx).
    apply list_elem_of_fmap. exists i. rewrite elem_of_seq. split; lia. }
  rewrite length_fmap, length_seq in Hs. change (length (elements (dom P))) with (size (dom P)) in Hs.
  by rewrite size_dom in Hs.
Qed.

Lemma tx_size : (size P < NBUF)%nat.
Proof.
  pose proof (tx_n _ _ _ Htx). pose proof (dk_sz _ _ _ (tx_disk _ _ _ Htx)). pose proof NBUF_eq.
  pose proof tx_count. lia.
Qed.

Lemma tx_not_log b : (st ≤ b < st + sz)%nat → P !! b = None.
Proof.
  intros Hb. destruct (P !! b) eqn:E; [|done]. destruct (proj1 (tx_pins _ _ _ Htx b)) as (i & Hi & Ei); [done|].
  destruct (tx_home _ _ _ Htx i Hi). lia.
Qed.

(** The disk after [i] blocks have been copied to the log. *)
Fixpoint logged (i : nat) : list (list Z) :=
  match i with
  | O => D
  | S j => <[(st + j + 1)%nat := default [] (P !! hb j)]> (logged j)
  end.

Lemma length_logged i : length (logged i) = length D.
Proof. induction i; simpl; [done|by rewrite length_insert]. Qed.
Lemma logged_other i b : (b ≤ st ∨ st + i < b)%nat → logged i !! b = D !! b.
Proof. induction i; simpl; intros; [done|]. rewrite list_lookup_insert_ne by lia. apply IHi. lia. Qed.
Lemma logged_at i j : (j < i)%nat → (i ≤ n)%nat → nth (st + j + 1) (logged i) [] = default [] (P !! hb j).
Proof.
  pose proof (tx_n _ _ _ Htx). pose proof (dk_area _ _ _ (tx_disk _ _ _ Htx)).
  induction i; simpl; intros; [lia|]. rewrite nth_lookup. destruct (decide (j = i)) as [->|].
  - rewrite list_lookup_insert_eq; [done|]. rewrite length_logged. lia.
  - rewrite list_lookup_insert_ne by lia. rewrite <- nth_lookup. apply IHi; lia.
Qed.
Lemma logged_hdr i : nth st (logged i) [] = nth st D [].
Proof. rewrite !nth_lookup, logged_other by lia. done. Qed.

(** Before the header is written the disk means what it meant. *)
Lemma logged_old i : (i ≤ n)%nat → disk_ok st sz (logged i) ∧ means (logged i) (λ b, D !! b).
Proof.
  intros Hi. pose proof (tx_empty _ _ _ Htx) as H0. pose proof (tx_n _ _ _ Htx).
  assert (hdr_n st (logged i) = 0%nat) as E by (unfold hdr_n; by rewrite logged_hdr).
  destruct (tx_disk _ _ _ Htx) as [H1 H2 H3 H4 H5 H6 H7].
  split; [split; rewrite ?E, ?length_logged, ?logged_hdr; try lia; assumption|].
  intros b Hb. unfold replay. rewrite E. simpl. apply logged_other. lia.
Qed.

(** Once it is written, the disk means the new contents. *)
Definition committed : list (list Z) := <[st := hdr_of g (nth st (logged n) [])]> (logged n).

Lemma committed_hdr :
  hdr_n st committed = n ∧ (∀ i, (i < n)%nat → hdr_block st committed i = hb i) ∧
  disk_ok st sz committed.
Proof.
  pose proof (tx_n _ _ _ Htx) as Hn. destruct (tx_disk _ _ _ Htx) as [H1 H2 H3 H4 H5 H6 H7].
  destruct (hdr_of_spec g (nth st (logged n) [])) as (L1 & L2 & L3).
  { by rewrite logged_hdr. }
  { split; [lia|]. intros i Hi. destruct (tx_home _ _ _ Htx i Hi). lia. }
  assert (nth st committed [] = hdr_of g (nth st (logged n) [])) as E
    by (apply new_hdr; rewrite length_logged; lia).
  assert (hdr_n st committed = n) as En by (unfold hdr_n; by rewrite E, L2).
  assert (∀ i, (i < n)%nat → hdr_block st committed i = hb i) as Eb.
  { intros i Hi. unfold hdr_block. by rewrite E, L3. }
  split_and!; [done|done|]. split; rewrite ?En, ?E; try lia.
  - unfold committed. rewrite length_insert, length_logged. lia.
  - unfold committed. by rewrite length_insert, length_logged.
  - intros i Hi. rewrite L3, Eb by done. destruct (tx_home _ _ _ Htx i Hi).
    destruct (tx_hb i Hi) as (? & ? & ? & _). unfold committed. rewrite length_insert, length_logged.
    split_and!; [lia|done..].
  - intros i j Hi Hj. rewrite !Eb by done. intros Eij. apply (tx_nodup _ _ _ Htx i j Hi Hj).
    destruct (tx_hb i Hi) as [-> _], (tx_hb j Hj) as [-> _]. by rewrite Eij.
Qed.

Lemma committed_new : means committed (overlay P D).
Proof.
  destruct committed_hdr as (En & Eb & Hok). intros b Hb. unfold replay, overlay.
  destruct (P !! b) as [d|] eqn:E.
  - destruct (proj1 (tx_pins _ _ _ Htx b)) as (i & Hi & Ei); [done|].
    assert (hb i = b) as Ehb by lia. rewrite <- Ehb, <- Eb by done.
    rewrite (install_at st sz) by (rewrite ?En; done). f_equal. unfold committed.
    rewrite nth_lookup, list_lookup_insert_ne, <- nth_lookup, logged_at by lia. by rewrite Ehb, E.
  - rewrite install_other.
    + unfold committed. rewrite list_lookup_insert_ne by (pose proof (tx_n _ _ _ Htx); lia).
      apply logged_other. pose proof (tx_n _ _ _ Htx). lia.
    + intros j. rewrite En. intros Hj. rewrite Eb by done. intros <-.
      destruct (tx_hb j Hj) as (_ & _ & _ & d & ?). congruence.
Qed.

Definition commit_crash (D' : list (list Z)) : Prop :=
  disk_ok st sz D' ∧ (means D' (λ b, D !! b) ∨ means D' (overlay P D)).

Lemma write_log_spec k0 k o :
  cst pid (idle D P) k0 k → k_log k0 = g →
  cruns write_log o k (λ _ k', cst pid (idle (logged n) P) k0 k') commit_crash.
Proof.
  intros S Eg. pose proof (tx_n _ _ _ Htx). pose proof (dk_area _ _ _ (tx_disk _ _ _ Htx)).
  unfold write_log. apply cruns_gets. rewrite (cst_log _ _ _ _ S), Eg.
  apply (cruns_seq (λ i k', cst pid (idle (logged i) P) k0 k')); [|done].
  intros i k1 Hi S1. destruct (tx_hb i Hi) as (E & Hl & Hno & d & Hd).
  eapply cruns_mono; [apply (write_one_spec _ _ _ _ _ _ (hb i) d commit_crash S1)| |done];
    rewrite ?length_logged, ?Eg; try assumption; try lia.
  - apply Htx.
  - apply tx_not_log. lia.
  - apply (dk_len _ _ _ (tx_disk _ _ _ Htx)).
  - apply tx_size.
  - destruct (logged_old i) as [A B]; [lia|]. split; [done|by left].
  - intros [] k2 S2. simpl. by rewrite Hd.
Qed.

Lemma means_ext D1 D2 f : same_files st sz D1 D2 → means D2 f → means D1 f.
Proof. intros H1 H2 b Hb. rewrite H1 by done. by apply H2. Qed.

Lemma unpin_all : unpin committed n P = ∅.
Proof.
  apply map_empty. intros b. rewrite unpin_lookup. case_decide as Hex; [done|].
  destruct (P !! b) eqn:E; [|done]. destruct Hex.
  destruct (proj1 (tx_pins _ _ _ Htx b)) as (i & Hi & Ei); [done|].
  apply Exists_exists. exists i. rewrite elem_of_seq. split; [lia|].
  rewrite (proj1 (proj2 committed_hdr)) by done. lia.
Qed.

Lemma commit_spec k0 k o :
  cst pid (idle D P) k0 k → k_log k0 = g →
  cruns commit o k
    (λ _ k', ∃ D' g', cst pid (idle D' ∅) (set_k_log g' k0) k' ∧ g' = set_lg_n 0 g ∧ log_at g' ∧ lg_n g' = 0 ∧
       disk_ok st sz D' ∧ hdr_n st D' = 0%nat ∧ means D' (overlay P D))
    commit_crash.
Proof.
  intros S Eg. pose proof (tx_n _ _ _ Htx) as Hn. destruct committed_hdr as (En & Eb & Hok).
  pose proof (dk_area _ _ _ (tx_disk _ _ _ Htx)) as Ha. pose proof tx_size as Hs.
  pose proof (dk_len _ _ _ (tx_disk _ _ _ Htx)) as Hlen. pose proof (tx_at _ _ _ Htx) as Hat.
  unfold commit. apply cruns_gets. rewrite (cst_log _ _ _ _ S), Eg.
  destruct (Z.ltb_spec 0 (lg_n g)) as [Hpos|Hz].
  2:{ assert (P = ∅) as EP.
      { apply map_empty. intros b. destruct (P !! b) eqn:E; [|done].
        destruct (proj1 (tx_pins _ _ _ Htx b)) as (i & Hi & _); [done|lia]. }
      rewrite EP in S. apply cruns_ret. exists D, g.
      assert (set_k_log g k0 = k0) as -> by (rewrite <- Eg; by destruct k0).
      split_and!; [exact S| |exact Hat|lia|exact (tx_disk _ _ _ Htx)|exact (tx_empty _ _ _ Htx)|].
      { assert (lg_n g = 0) as <- by lia. by destruct g. }
      intros b Hb. unfold replay, overlay. rewrite (tx_empty _ _ _ Htx), EP. done. }
  cbn [when]. cstep write_log_spec; [exact S|done|]. intros [] k1 S1.
  apply cruns_bind. eapply cruns_mono; [apply (write_head_spec _ _ _ _ _ commit_crash S1)| |done];
    rewrite ?length_logged, ?Eg; try assumption; try lia.
  { apply tx_not_log. lia. } { destruct (logged_old n) as [A B]; [lia|]. split; [done|by left]. }
  intros [] k2 S2. fold committed in S2. apply cruns_bind.
  assert (∀ i, (i ≤ n)%nat → commit_crash (install st i committed)) as HC.
  { intros i Hi. split; [apply installed_ok; [done|by rewrite En]|right].
    eapply means_ext; [apply installed_same; [done|by rewrite En]|apply committed_new]. }
  eapply cruns_mono; [apply (install_trans_spec _ _ _ _ _ commit_crash S2)| |done]; rewrite ?Eg; try assumption.
  { split; [by rewrite En|]. rewrite En. intros i Hi. rewrite Eb by done. by apply tx_hb. }
  { apply tx_not_log. }
  { left. rewrite En. intros i Hi. rewrite Eb by done. destruct (tx_hb i Hi) as (_ & _ & _ & d & ->). done. }
  { by rewrite En. }
  intros [] k3 S3. rewrite En, unpin_all in S3.
  cstep upd_log_spec; [exact S3|]. intros [] k4 S4. rewrite Eg in S4.
  assert (disk_ok st sz (replay st committed)) as Hok' by (apply installed_ok; [done|lia]).
  assert (log_ranges (set_lg_n 0 g)) as Hr by (split; simpl; [lia|lia]).
  destruct (hdr_of_spec (set_lg_n 0 g) (nth st (replay st committed) []) (dk_hdr _ _ _ Hok') Hr) as (L1 & L2 & _).
  destruct (cleared _ _ Hok' L1 L2) as (C1 & C2 & C3).
  eapply cruns_mono; [apply (write_head_spec _ _ _ _ _ commit_crash S4); [done|done|..]| |done].
  - unfold replay, committed. rewrite length_install, length_insert, length_logged. lia.
  - apply (dk_len _ _ _ Hok').
  - rewrite map_size_empty. pose proof NBUF_eq. lia.
  - unfold replay. rewrite En. apply HC. lia.
  - intros [] k5 S5. eexists _, (set_lg_n 0 g). split_and!; [exact S5|done..|].
    intros b Hb. rewrite C3 by done. by apply committed_new.
Qed.
End Commit.
End Runs.

(** ** Adding a block to the transaction *)

(** The first of the [n] listed blocks equal to [bno], or [n]. *)
Lemma log_scan_spec bno n bs i0 :
  (n ≤ length bs)%nat →
  (∃ j, (j < n)%nat ∧ log_scan bno n bs i0 = (i0 + j)%nat ∧ u32 (nth j bs 0) = bno) ∨
  log_scan bno n bs i0 = (i0 + n)%nat ∧ ∀ j, (j < n)%nat → u32 (nth j bs 0) ≠ bno.
Proof.
  revert bs i0. induction n as [|n IH]; intros bs i0 Hl.
  - right. destruct bs; simpl; (split; [lia|intros; lia]).
  - destruct bs as [|v bs]; simpl in Hl; [lia|]. simpl. destruct (Z.eqb_spec (u32 v) bno) as [E|E].
    + left. exists 0%nat. split_and!; [lia|lia|done].
    + destruct (IH bs (S i0)) as [(j & Hj & Es & Ev)|[Es Hno]]; [lia|..].
      * left. exists (S j). split_and!; [lia|rewrite Es; lia|done].
      * right. split; [rewrite Es; lia|]. intros [|j] Hj; [done|]. apply Hno. lia.
Qed.

Section LogWrite.
Context (pid : Z) (st sz : nat).

(** The descriptor after logging block [n]. *)
Definition log_add (n : nat) (P : gmap nat (list Z)) (g : log_t) : log_t :=
  match P !! n with
  | Some _ => g
  | None => set_lg_n (lg_n g + 1) (set_lg_block (<[Z.to_nat (lg_n g) := Z.of_nat n]> (lg_block g)) g)
  end.

Lemma txn_add g D P n d :
  txn st sz g D P → lg_n g < Z.of_nat sz - 1 → (n < length D)%nat → ¬ (st ≤ n < st + sz)%nat →
  txn st sz (log_add n P g) D (<[n := d]> P).
Proof.
  intros Htx Hlt Hn Hno. pose proof (tx_n _ _ _ _ _ Htx) as Hn0. pose proof (dk_sz _ _ _ (tx_disk _ _ _ _ _ Htx)) as Hsz.
  destruct Htx as [(A1 & A2 & A3 & A4) Hd He Hn1 Hh Hu Hp]. unfold log_add. destruct (P !! n) eqn:E.
  - split; [by split_and!|done..|]. intros b. rewrite <- Hp, lookup_insert_is_Some'. split; [|by right].
    intros [<-|?]; [by rewrite E|done].
  - set (m := Z.to_nat (lg_n g)) in *. simpl. replace (Z.to_nat (lg_n g + 1)) with (S m) by lia.
    set (g' := set_lg_n _ _).
    assert (∀ i, lh_block i g' = if decide (i = m) then Z.of_nat n else lh_block i g) as El.
    { intros i. unfold lh_block, g'. simpl. rewrite nth_lookup. case_decide as Ei.
      - subst. by rewrite list_lookup_insert_eq by lia.
      - by rewrite list_lookup_insert_ne, nth_lookup by done. }
    assert (∀ i, (i < m)%nat → lh_block i g ≠ Z.of_nat n) as Hne.
    { intros i Hi Ei. assert (is_Some (P !! n)) as [? ?]; [apply Hp; eauto|congruence]. }
    split; try done.
    + split_and!; [done..|]. simpl. by rewrite length_insert.
    + simpl. lia.
    + simpl. replace (Z.to_nat (lg_n g + 1)) with (S m) by lia. intros i Hi. rewrite El.
      case_decide; [lia|]. apply Hh. lia.
    + simpl. replace (Z.to_nat (lg_n g + 1)) with (S m) by lia. intros i j Hi Hj. rewrite !El.
      repeat case_decide; intros Eij; subst; try done.
      * symmetry in Eij. by apply Hne in Eij; [|lia].
      * by apply Hne in Eij; [|lia].
      * apply Hu; [lia..|done].
    + simpl. replace (Z.to_nat (lg_n g + 1)) with (S m) by lia. intros b.
      rewrite lookup_insert_is_Some', Hp. split.
      * intros [<-|(i & Hi & Ei)]; [exists m|exists i]; rewrite El;
          [by rewrite decide_True; [split; [lia|]|]|rewrite decide_False by lia; split; [lia|done]].
      * intros (i & Hi & Ei). rewrite El in Ei. case_decide; [left; lia|right]. exists i. split; [lia|done].
Qed.

Lemma log_write_eq k0 k o c b n d :
  cst pid c k0 k → txn st sz (k_log k0) (c_disk c) (c_dirty c) → c_held c !! b = Some (n, d) →
  1 ≤ lg_outstanding (k_log k0) → lg_n (k_log k0) < Z.of_nat sz - 1 →
  log_write b o k = Ok tt
    (set_k_bufs (<[b := held_buf pid (c_pin n d c) n d]> (k_bufs k))
      (set_k_log (log_add n (c_dirty c) (k_log k0)) k)) o.
Proof.
  intros S Htx Hh Ho Hlt. pose proof (tx_n _ _ _ _ _ Htx) as Hn0. pose proof (tx_disk _ _ _ _ _ Htx) as Hd.
  pose proof (dk_sz _ _ _ Hd). pose proof (dk_len _ _ _ Hd) as Hlen.
  pose proof (tx_at _ _ _ _ _ Htx) as (A1 & A2 & A3 & A4). pose proof (cs_inv _ _ _ _ S) as I.
  destruct (ci_held _ _ _ _ I _ _ _ Hh) as [_ Hnl]. pose proof (cinv_held _ _ _ _ _ _ _ I Hh) as Hx.
  pose proof (q_calm _ _ (cs_quiet _ _ _ _ S)) as Hc. pose proof (q_free _ _ (cs_quiet _ _ _ _ S) _ fl_log) as Hf.
  pose proof (cst_log _ _ _ _ S) as Eg. set (g := k_log k0) in *.
  assert (LOGSIZE = 30) as EL by done.
  unfold log_write. mrun. rewrite Eg, A3, EL. rewrite (proj2 (Z.leb_gt _ _)), (proj2 (Z.leb_gt _ _)) by lia.
  rewrite (proj2 (Z.ltb_ge _ _)) by lia. mrun. kacquire Hc Hf.
  erewrite bind_ok; [|apply rd_buf_eq; kproj; exact Hx]. mrun. kproj. rewrite Eg. simpl b_blockno.
  set (i := log_scan _ _ _ _).
  assert (i32 (Z.of_nat n) = Z.of_nat n) as -> by (apply i32_small; lia).
  assert ((i < 30)%nat ∧ (if Z.of_nat i =? lg_n g then set_lg_n (lg_n g + 1) else (λ x, x))
            (set_lg_block (<[i := Z.of_nat n]> (lg_block g)) g) = log_add n (c_dirty c) g) as [Hi Ega].
  { destruct (log_scan_spec (Z.of_nat n) (Z.to_nat (lg_n g)) (lg_block g) 0) as [(j & Hj & Es & Ev)|[Es Hno]]; [lia|..];
      fold i in Es; unfold log_add.
    - destruct (tx_home _ _ _ _ _ Htx j Hj) as [Hr _]. unfold lh_block in Hr. rewrite u32_small in Ev by lia.
      destruct (proj2 (tx_pins _ _ _ _ _ Htx n)) as [d' ->]; [by exists j|].
      rewrite Es. split; [lia|]. simpl. rewrite (proj2 (Z.eqb_neq _ _)) by lia.
      rewrite list_insert_id; [by destruct g|]. rewrite <- Ev. rewrite nth_lookup.
      destruct (lookup_lt_is_Some_2 (lg_block g) j) as [v ->]; [lia|done].
    - assert (c_dirty c !! n = None) as ->.
      { destruct (c_dirty c !! n) eqn:E; [|done].
        destruct (proj1 (tx_pins _ _ _ _ _ Htx n)) as (j & Hj & Ej); [done|]. unfold lh_block in Ej.
        destruct (Hno j Hj). rewrite Ej. apply u32_small. lia. }
      rewrite Es. split; [lia|]. simpl. rewrite (proj2 (Z.eqb_eq _ _)) by lia. done. }
  unfold set_lh_block. mrun. kproj. rewrite Eg, (proj2 (Nat.ltb_lt _ _)) by lia. unfold upd_log. mrun. kproj.
  assert (when (Z.of_nat i =? lg_n g) (modify (λ k, set_k_log ((λ g, set_lg_n (lg_n g + 1) g) (k_log k)) k)) o
            (set_k_log (set_lg_block (<[i := Z.of_nat n]> (lg_block g)) g) (set_k_lk (lk_acquire Llog (k_lk k)) k))
          = Ok tt (set_k_log (log_add n (c_dirty c) g) (set_k_lk (lk_acquire Llog (k_lk k)) k)) o) as Ew.
  { rewrite <- Ega. destruct (_ =? _); [|by rewrite when_false]. rewrite when_true. unfold modify. kproj. by destruct k. }
  rewrite Eg. erewrite bind_ok; [|exact Ew].
  erewrite bind_ok; [|apply upd_buf_eq; kproj; exact Hx]. kproj. krelease Hc Hf.
  assert (set_b_flags (Z.lor (b_flags (held_buf pid c n d)) B_DIRTY) (held_buf pid c n d)
          = held_buf pid (c_pin n d c) n d) as ->.
  { unfold held_buf, c_flags. simpl. rewrite lookup_insert_eq. by destruct (c_dirty c !! n). }
  by destruct k.
Qed.
End LogWrite.

(** ** Machines *)

(** A machine that has booted on disk [D], before recovery: nothing cached, the
    log found by initlog. *)
Record booted (pid : Z) (st sz : nat) (D : list (list Z)) (k : kernel) : Prop := {
  bt_quiet : quiet pid k;
  bt_bufs : k_bufs k = replicate NBUF buf0;
  bt_lru : k_lru k ≡ₚ seq 0 NBUF;
  bt_disk : k_disk k = D;
  bt_log : log_at st sz (k_log k)
}.

Lemma booted_cst pid st sz D k : booted pid st sz D k → cst pid (idle D ∅) k k.
Proof.
  intros [Q B L E _]. split; [done| |done|apply cframe_refl].
  rewrite B. split; simpl; [by rewrite length_replicate|done|..].
  - intros b x [-> _]%lookup_replicate. by apply bo_unused.
  - intros b1 b2 x1 x2 [-> _]%lookup_replicate. done.
  - intros n [? Hn]. by rewrite lookup_empty in Hn.
  - intros b n d Hb. by rewrite lookup_empty in Hb.
  - intros n [? Hn]. by rewrite lookup_empty in Hn.
Qed.

(** One boot whose recovery is cut short by a power failure. *)
Definition failed_boot (st sz : nat) (D D' : list (list Z)) : Prop :=
  ∃ pid k k', booted pid st sz D k ∧ recover_from_log [] k = Gone k' ∧ k_disk k' = D'.

Lemma failed_boot_same st sz D D' :
  disk_ok st sz D → failed_boot st sz D D' → disk_ok st sz D' ∧ same_files st sz D' D.
Proof.
  intros Hok (pid & k & k' & Hb & Hr & <-).
  pose proof (recover_spec pid st sz k k [] D (booted_cst _ _ _ _ _ Hb) (bt_log _ _ _ _ _ Hb) Hok) as H.
  unfold cruns in H. rewrite Hr in H. apply H.
Qed.

Lemma failed_boots_same st sz D D' :
  rtc (failed_boot st sz) D D' → disk_ok st sz D → disk_ok st sz D' ∧ same_files st sz D' D.
Proof.
  intros Hr. induction Hr as [D|D D1 D2 Hs _ IH]; intros Hok; [by split|].
  destruct (failed_boot_same _ _ _ _ Hok Hs) as [Hok1 H1]. destruct (IH Hok1) as [Hok2 H2].
  split; [done|]. intros b Hb. by rewrite H2, H1.
Qed.

(** ** Main theorems *)

(** log_write adds the block to the running transaction: the buffer is
    pinned with its contents, the block is listed exactly once however often it
    is written (the count grows only for a block not yet listed), and the
    transaction stays ready to commit; at the last slot of the log it panics. *)
Theorem log_write_absorbs pid st sz k0 k o c b n d :
  cst pid c k0 k → txn st sz (k_log k0) (c_disk c) (c_dirty c) → c_held c !! b = Some (n, d) →
  ¬ (st ≤ n < st + sz)%nat → 1 ≤ lg_outstanding (k_log k0) →
  if lg_n (k_log k0) <? Z.of_nat sz - 1 then
    ∃ k' g', log_write b o k = Ok tt k' o ∧ cst pid (c_pin n d c) (set_k_log g' k0) k' ∧
      txn st sz g' (c_disk c) (<[n := d]> (c_dirty c)) ∧
      lg_n g' = lg_n (k_log k0) + (if decide (is_Some (c_dirty c !! n)) then 0 else 1)
  else log_write b o k = Panic "too big a transaction" k.
Proof.
  intros S Htx Hh Hno Ho. destruct (ci_held _ _ _ _ (cs_inv _ _ _ _ S) _ _ _ Hh) as [_ Hnl].
  destruct (Z.ltb_spec (lg_n (k_log k0)) (Z.of_nat sz - 1)) as [Hlt|Hge].
  - eexists _, (log_add n (c_dirty c) (k_log k0)). split_and!; [by eapply log_write_eq| | |].
    + eapply (cst_bufs _ c); [|done|by apply cinv_pin, Hh; apply S]. by apply cst_upd_log.
    + by apply txn_add.
    + unfold log_add. destruct (c_dirty c !! n).
      * rewrite decide_True by done. lia.
      * rewrite decide_False; [done|]. by intros [? ?].
  - unfold log_write. mrun. rewrite (cst_log _ _ _ _ S).
    destruct (tx_at _ _ _ _ _ Htx) as (_ & _ & -> & _).
    by rewrite (proj2 (Z.leb_le (Z.of_nat sz - 1) _) Hge), orb_true_r.
Qed.

(** Booting from a disk, also after boots that failed, gives the home blocks that
    the disk means. *)
Lemma recovered st sz D1 D2 pid2 k2 o :
  disk_ok st sz D1 → rtc (failed_boot st sz) D1 D2 → booted pid2 st sz D2 k2 → k_power k2 = None →
  ∃ k3, recover_from_log o k2 = Ok tt k3 o ∧ disk_ok st sz (k_disk k3) ∧
    ∀ f, means st sz D1 f → ∀ b, ¬ (st ≤ b < st + sz)%nat → k_disk k3 !! b = f b.
Proof.
  intros Hok Hboots Hb Hp. destruct (failed_boots_same _ _ _ _ Hboots Hok) as [Hok2 Hsame].
  pose proof (recover_spec pid2 st sz k2 k2 o D2 (booted_cst _ _ _ _ _ Hb) (bt_log _ _ _ _ _ Hb) Hok2) as Hr.
  unfold cruns in Hr. destruct (recover_from_log o k2) as [[] k3 o3| | |k3|]; [|destruct Hr..].
  2:{ by destruct H. }
  destruct Hr as (-> & _ & D' & g & S' & _ & _ & Hok3 & H0 & Hs). exists k3. split; [done|].
  rewrite (cs_disk _ _ _ _ S'). simpl. split; [done|]. intros f Hf b Hb'. rewrite <- Hf, <- Hsame, <- Hs by done. unfold replay. by rewrite H0.
Qed.

(** [C1] Commit is atomic under power failures.  Start commit with the pinned
    blocks [P] in memory over disk [D], let the power fail before any of its
    disk writes or not at all, then boot any number of times with the power
    failing again during recovery, and finally let recovery finish: the home
    blocks are either all as on [D] or all as with every pinned block written,
    and always the latter if commit had returned. *)
Theorem commit_atomic pid st sz k D P o D2 pid2 k2 :
  cst pid (idle D P) k k → txn st sz (k_log k) D P →
  rtc (failed_boot st sz) (k_disk (final (commit o k))) D2 →
  booted pid2 st sz D2 k2 → k_power k2 = None →
  ∃ k3, recover_from_log o k2 = Ok tt k3 o ∧
    ((∀ b, ¬ (st ≤ b < st + sz)%nat → k_disk k3 !! b = D !! b) ∧ (∃ w, k_power k = Some w) ∧
       (∀ k1, commit o k ≠ Ok tt k1 o) ∨
     (∀ b, ¬ (st ≤ b < st + sz)%nat → k_disk k3 !! b = overlay P D b)).
Proof.
  intros S Htx Hboots Hb Hp.
  pose proof (commit_spec pid st sz _ D P Htx k k o S eq_refl) as Hc. unfold cruns in Hc.
  assert (disk_ok st sz (k_disk (final (commit o k))) ∧
    (means st sz (k_disk (final (commit o k))) (λ b, D !! b) ∧ (∃ w, k_power k = Some w) ∧
       (∀ k1, commit o k ≠ Ok tt k1 o) ∨
     means st sz (k_disk (final (commit o k))) (overlay P D))) as [Hok Hm].
  { destruct (commit o k) as [[] k1 o1| | |k1|]; [|destruct Hc..| |destruct Hc]; simpl.
    - destruct Hc as (_ & _ & D' & g' & S' & _ & _ & _ & Hok & _ & Hm). rewrite (cs_disk _ _ _ _ S'). auto.
    - destruct Hc as (Hw & Hok & Hm). split; [done|]. destruct Hm as [Hm|Hm]; [left|by right].
      split_and!; [done| |done]. destruct (k_power k); naive_solver. }
  destruct (recovered _ _ _ _ _ _ o Hok Hboots Hb Hp) as (k3 & E & _ & Hf). exists k3. split; [done|].
  destruct Hm as [(Hm & Hw & Hn)|Hm]; [left|right; exact (Hf _ Hm)].
  exact (conj (Hf _ Hm) (conj Hw Hn)).
Qed.

(** ** A concrete commit

    A disk of ten empty blocks with the log in blocks 2 to 5, block 7 pinned
    with new contents, and power for two disk writes. *)

Definition demo_disk : list (list Z) := replicate 10 (replicate 512 0).
Definition demo_new : list Z := replicate 512 1.
Definition demo_log : log_t := Log 2 4 0 1 1 1 (7 :: replicate 29 0).
Definition demo_commit : kernel :=
  set_k_power (Some 2%nat) (set_k_log demo_log (set_k_disk demo_disk
    (set_k_bufs (<[0%nat := Buf 6 1 7 sleeplock0 0 demo_new]> (replicate NBUF buf0)) demo_kernel))).
Definition demo_boot (D : list (list Z)) : kernel :=
  set_k_log (set_lg_n 0 demo_log) (set_k_disk D demo_kernel).

Lemma demo_boot_booted D : booted 1 2 4 D (demo_boot D).
Proof. split; [by apply (quiet_ext 1 demo_kernel), demo_kernel_quiet|done..]. Qed.

Lemma demo_commit_cst : cst 1 (idle demo_disk {[7%nat := demo_new]}) demo_commit demo_commit.
Proof.
  split; [by apply (quiet_ext 1 demo_kernel), demo_kernel_quiet| |done|apply cframe_refl].
  unfold demo_commit. kproj. split.
  - by rewrite length_insert, length_replicate.
  - done.
  - intros b x. rewrite list_lookup_insert_Some. intros [(<- & <- & _)|[_ [-> _]%lookup_replicate]].
    + by apply (bo_dirty _ _ _ 7%nat).
    + by apply bo_unused.
  - intros b1 b2 x1 x2. rewrite !list_lookup_insert_Some.
    intros [(<- & <- & _)|[_ [-> _]%lookup_replicate]] [(<- & <- & _)|[_ [-> _]%lookup_replicate]]; done.
  - intros n [d Hn]. simpl in Hn. apply lookup_singleton_Some in Hn as [<- _].
    exists 0%nat, (Buf 6 1 7 sleeplock0 0 demo_new). split; [|done].
    apply list_lookup_insert_eq. rewrite length_replicate, NBUF_eq. lia.
  - intros b n d Hb. simpl in Hb. by rewrite lookup_empty in Hb.
  - intros n [d Hn]. simpl in Hn. apply lookup_singleton_Some in Hn as [<- _]. simpl. lia.
Qed.

Lemma demo_commit_txn : txn 2 4 demo_log demo_disk {[7%nat := demo_new]}.
Proof.
  split; [done| |by vm_compute|vm_compute; done|..].
  - assert (hdr_n 2 demo_disk = 0%nat) as E by (by vm_compute).
    split; rewrite ?E; try lia; first [reflexivity | vm_compute; lia].
  - change (Z.to_nat _) with 1%nat. intros [|i] Hi; [|lia]. vm_compute. intuition discriminate.
  - change (Z.to_nat _) with 1%nat. lia.
  - change (Z.to_nat _) with 1%nat. intros b. split.
    + intros [d [<- _]%lookup_singleton_Some]. exists 0%nat. split; [lia|reflexivity].
    + intros ([|i] & Hi & E); [|lia]. change (7 = Z.of_nat b) in E.
      assert (b = 7%nat) as -> by lia. by rewrite lookup_singleton_eq.
Qed.

(** The pinned buffer in use, inside a transaction of one operation. *)
Definition demo_cache : cache := idle demo_disk {[7%nat := demo_new]}.
Definition demo_in_use : kernel :=
  set_k_log (set_lg_outstanding 1 demo_log)
    (set_k_bufs (<[0%nat := held_buf 1 demo_cache 7 (c_view 7 demo_cache)]> (k_bufs demo_commit)) demo_commit).

Lemma demo_in_use_cst : cst 1 (c_hold 0 7 demo_cache) (set_k_log (set_lg_outstanding 1 demo_log) demo_commit) demo_in_use.
Proof.
  apply cst_upd_log. apply (cst_bufs 1 demo_cache); [exact demo_commit_cst|done|].
  apply (cinv_hold _ _ _ _ _ (Buf 6 1 7 sleeplock0 0 demo_new)).
  - apply demo_commit_cst.
  - apply list_lookup_insert_eq. rewrite length_replicate, NBUF_eq. lia.
  - apply lookup_empty.
  - intros b' x' Hne. unfold demo_commit. kproj. rewrite list_lookup_insert_ne by done.
    by intros [-> _]%lookup_replicate.
  - simpl. intros m d _ _. lia.
  - simpl. lia.
Qed.

Lemma demo_in_use_txn : txn 2 4 (set_lg_outstanding 1 demo_log) demo_disk {[7%nat := demo_new]}.
Proof. destruct demo_commit_txn as [H1 H2 H3 H4 H5 H6 H7]. by split. Qed.

Lemma log_write_absorbs_witness :
  ∃ k' g', log_write 0 [] demo_in_use = Ok tt k' [] ∧ lg_n g' = 1 ∧
           txn 2 4 g' demo_disk (<[7%nat := demo_new]> {[7%nat := demo_new]}).
Proof.
  destruct (log_write_absorbs 1 2 4 (set_k_log (set_lg_outstanding 1 demo_log) demo_commit) demo_in_use []
              (c_hold 0 7 demo_cache) 0 7 (c_view 7 demo_cache) demo_in_use_cst
              demo_in_use_txn (lookup_insert_eq _ _ _) ltac:(lia) ltac:(simpl; lia))
    as (k' & g' & H & _ & Htx & Hn).
  exists k', g'. split; [exact H|]. split; [|exact Htx]. exact Hn.
Defined.

Lemma commit_atomic_witness :
  ∃ k3, recover_from_log [] (demo_boot (k_disk (final (commit [] demo_commit)))) = Ok tt k3 [] ∧
    (k_disk k3 !! 7%nat = Some (replicate 512 0) ∨ k_disk k3 !! 7%nat = Some demo_new).
Proof.
  destruct (commit_atomic 1 2 4 demo_commit demo_disk {[7%nat := demo_new]} [] _ 1 _
              demo_commit_cst demo_commit_txn (rtc_refl _ _) (demo_boot_booted _) eq_refl)
    as (k3 & H & [[Ho _]|Hn]).
  - exists k3. split; [exact H|left]. rewrite Ho by lia. reflexivity.
  - exists k3. split; [exact H|right]. rewrite Hn by lia. reflexivity.
Defined.
