(* ===== verification/Fs.v ===== *)
(** * The file system

    [fs.c]: block allocation, inodes, file contents, directories and path
    names.  Buffers and inodes are positions in their caches.  A destination
    or source that is a pointer is a function that stores or fetches a piece
    of the transfer ([readi], [writei]); a pointer below [KERNBASE] is a user
    address and goes through the current page table. *)

From S2P Require Import Prelude Defs Spinlock CString Kernel Cprintf Sched Kalloc Vm Sleeplock Bytes Bio Log.
Local Open Scope kernel_scope.

(** ** fs.h, stat.h *)
Definition ROOTINO : Z := 1.
Definition NDIRECT : nat := 12.
Definition NINDIRECT : Z := BSIZE / 4.
Definition MAXFILE : Z := Z.of_nat NDIRECT + NINDIRECT.
Definition IPB : Z := BSIZE / 64.
Definition BPB : Z := BSIZE * 8.
Definition DIRSIZ : nat := 14.
Definition IBLOCK (i : Z) (sb : superblock) : Z := u32 (i / IPB + sb_inodestart sb).
Definition BBLOCK (b : Z) (sb : superblock) : Z := u32 (b / BPB + sb_bmapstart sb).
Definition T_DIR : Z := 1.
Definition T_FILE : Z := 2.
Definition T_DEV : Z := 3.

(** ** Virtual addresses

    The kernel reads and writes user memory through the current page table. *)
Definition kaddr (a : Z) : KM Z :=
  if KERNBASE <=? a then ret a
  else
    let! k := get in
    let pgdir := P2V (k_cr3 k) in
    if Z.land (pte_val (k_mem k) pgdir a) PTE_P =? 0 then undef "page fault"
    else ret (user_byte (k_mem k) pgdir a).

Definition vread8 (a : Z) : KM Z := let! x := kaddr a in gets (λ k, k_mem k x).
Definition vwrite8 (a v : Z) : KM unit := let! x := kaddr a in upd_mem (λ m, st8 m x v).

Fixpoint vread (a : Z) (n : nat) : KM (list Z) :=
  match n with
  | O => ret []
  | S n' => let! x := vread8 a in let! l := vread (u32 (a + 1)) n' in ret (x :: l)
  end.
Fixpoint vwrite (a : Z) (l : list Z) : KM unit :=
  match l with
  | [] => ret tt
  | x :: l' => vwrite8 a x ;;; vwrite (u32 (a + 1)) l'
  end.

(** The translation of an address, if its page is present. *)
Definition addr_of (cr3 : Z) (m : memory) (a : Z) : option Z :=
  if KERNBASE <=? a then Some a
  else if Z.land (pte_val m (P2V cr3) a) PTE_P =? 0 then None
  else Some (user_byte m (P2V cr3) a).

Lemma kaddr_eq a o k x : addr_of (k_cr3 k) (k_mem k) a = Some x → kaddr a o k = Ok x k o.
Proof.
  unfold addr_of, kaddr. destruct (KERNBASE <=? a); [by intros [= ->]|]. mrun.
  destruct (_ =? 0); [done|by intros [= ->]].
Qed.

(** The [n] bytes at [addr] are the bytes [phys 0] to [phys (n - 1)] of memory,
    whatever is stored in them: no byte of the page table is among them. *)
Definition stays_mapped (cr3 : Z) (m : memory) (addr n : Z) (phys : Z → Z) : Prop :=
  ∀ m', (∀ x, (∀ j, 0 ≤ j < n → x ≠ phys j) → m' x = m x) →
  ∀ i, 0 ≤ i < n → addr_of cr3 m' (u32 (addr + i)) = Some (phys i).

Lemma vread8_eq a o k x : addr_of (k_cr3 k) (k_mem k) a = Some x → vread8 a o k = Ok (k_mem k x) k o.
Proof. intros H. unfold vread8. by rewrite (bind_ok _ _ _ _ _ _ _ (kaddr_eq _ _ _ _ H)). Qed.
Lemma vwrite8_eq a v o k x :
  addr_of (k_cr3 k) (k_mem k) a = Some x → vwrite8 a v o k = Ok tt (set_k_mem (st8 (k_mem k) x v) k) o.
Proof. intros H. unfold vwrite8. by rewrite (bind_ok _ _ _ _ _ _ _ (kaddr_eq _ _ _ _ H)). Qed.

(** ** Devices: devsw *)
Class DevSw := {
  dev_read : nat → (Z → list Z → KM unit) → Z → KM Z;   (* inode, destination, n *)
  dev_write : nat → (Z → Z → KM (list Z)) → Z → KM Z    (* inode, source, n *)
}.

(** [devsw[major].read != 0] *)
Definition has_dev (major : Z) (k : kernel) : bool := nth (Z.to_nat major) (k_devsw k) false.

(** ** Blocks *)

Definition upd_data (b : nat) (f : list Z → list Z) : KM unit :=
  upd_buf b (λ x, set_b_data (f (b_data x)) x).

Definition bzero (dev bno : Z) : KM unit :=
  let! bp := bread dev bno in
  upd_data bp (λ _, replicate (Z.to_nat BSIZE) 0) ;;;
  log_write bp ;;;
  brelse bp.

(** The bit of block [bi] in a bitmap block. *)
Definition bit_mask (bi : Z) : Z := Z.shiftl 1 (bi `mod` 8).
Definition set_byte (l : list Z) (i v : Z) : list Z := <[Z.to_nat i := u8 v]> l.

(** The inner loop of balloc: the first free bit from [bi] on. *)
Fixpoint free_bit (n : nat) (l : list Z) (b bi size : Z) : option Z :=
  match n with
  | O => None
  | S n' =>
      if b + bi <? size then
        if Z.land (byte_at l (bi / 8)) (bit_mask bi) =? 0 then Some bi
        else free_bit n' l b (bi + 1) size
      else None
  end.

Fixpoint balloc_loop (fuel : nat) (dev b : Z) : KM Z :=
  match fuel with
  | O => undef "loop bound"
  | S f =>
      let! sb := gets k_sb in
      if b <? sb_size sb then
        let! bp := bread dev (BBLOCK b sb) in
        let! x := rd_buf bp in
        match free_bit (Z.to_nat BPB) (b_data x) b 0 (sb_size sb) with
        | Some bi =>
            upd_data bp (λ l, set_byte l (bi / 8) (Z.lor (byte_at l (bi / 8)) (bit_mask bi))) ;;;
            log_write bp ;;;
            brelse bp ;;;
            bzero dev (b + bi) ;;;
            ret (u32 (b + bi))
        | None =>
            brelse bp ;;;
            balloc_loop f dev (b + BPB)
        end
      else panic "balloc: out of blocks"
  end.

(** A disk of 2^32 blocks has 2^20 bitmap blocks. *)
Definition balloc (dev : Z) : KM Z := balloc_loop (S NPAGES) dev 0.

Definition bfree (dev b : Z) : KM unit :=
  let! sb := readsb dev in
  modify (set_k_sb sb) ;;;
  let! bp := bread dev (BBLOCK b sb) in
  let bi := b `mod` BPB in
  let! x := rd_buf bp in
  if Z.land (byte_at (b_data x) (bi / 8)) (bit_mask bi) =? 0 then panic "freeing free block"
  else
    upd_data bp (λ l, set_byte l (bi / 8) (Z.land (byte_at l (bi / 8)) (Z.lnot (bit_mask bi)))) ;;;
    log_write bp ;;;
    brelse bp.

(** ** Inodes *)

Definition rd_inode (i : nat) : KM inode :=
  let! k := get in
  match k_icache k !! i with Some x => ret x | None => undef "inode pointer" end.
Definition upd_inode (i : nat) (f : inode → inode) : KM unit :=
  modify (λ k, set_k_icache (alter f i (k_icache k)) k).

(** struct dinode, at offset [off] of a block. *)
Definition dinode_type (l : list Z) (off : Z) : Z := i16 (get16 l off).
Definition dinode_addrs (l : list Z) (off : Z) : list Z :=
  (λ i, get32 l (off + 12 + 4 * Z.of_nat i)) <$> seq 0 (S NDIRECT).
Definition dinode_load (l : list Z) (off : Z) (ip : inode) : inode :=
  set_i_type (i16 (get16 l off)) (set_i_major (i16 (get16 l (off + 2)))
    (set_i_minor (i16 (get16 l (off + 4))) (set_i_nlink (i16 (get16 l (off + 6)))
      (set_i_size (get32 l (off + 8)) (set_i_addrs (dinode_addrs l off) ip))))).
Definition dinode_bytes (ip : inode) : list Z :=
  bytes16 (i_type ip) ++ bytes16 (i_major ip) ++ bytes16 (i_minor ip) ++ bytes16 (i_nlink ip)
  ++ bytes32 (i_size ip) ++ (i_addrs ip ≫= bytes32).

Definition iinit (dev : Z) : KM unit :=
  initlock Licache "icache" ;;;
  for_each (seq 0 NINODE) (λ i, initsleeplock (Linodesleep i) "inode") ;;;
  let! sb := readsb dev in
  modify (set_k_sb sb) ;;;
  cprintf
    (chars "sb: size %d nblocks %d ninodes %d nlog %d logstart %d inodestart %d bmap start %d" ++ [10])
    [Aint (sb_size sb); Aint (sb_nblocks sb); Aint (sb_ninodes sb); Aint (sb_nlog sb);
     Aint (sb_logstart sb); Aint (sb_inodestart sb); Aint (sb_bmapstart sb)].

(** The scan of iget: the cached entry, and the first empty one. *)
Fixpoint icache_scan (dev inum : Z) (l : list inode) (i : nat) (empty : option nat)
    : option nat * option nat :=
  match l with
  | [] => (None, empty)
  | x :: l' =>
      if (0 <? i_ref x) && (i_dev x =? dev) && (i_inum x =? inum) then (Some i, empty)
      else icache_scan dev inum l' (S i)
             (match empty with
              | None => if i_ref x =? 0 then Some i else None
              | Some e => Some e
              end)
  end.

Definition iget (dev inum : Z) : KM nat :=
  acquire Licache ;;;
  let! l := gets k_icache in
  match icache_scan dev inum l 0 None with
  | (Some i, _) =>
      upd_inode i (λ x, set_i_ref (i_ref x + 1) x) ;;;
      release Licache ;;;
      ret i
  | (None, None) => panic "iget: no inodes"
  | (None, Some i) =>
      upd_inode i (λ x, set_i_valid 0 (set_i_ref 1 (set_i_inum inum (set_i_dev dev x)))) ;;;
      release Licache ;;;
      ret i
  end.

Definition idup (i : nat) : KM nat :=
  acquire Licache ;;;
  upd_inode i (λ x, set_i_ref (i_ref x + 1) x) ;;;
  release Licache ;;;
  ret i.

Fixpoint ialloc_loop (fuel : nat) (dev type inum : Z) : KM nat :=
  match fuel with
  | O => undef "loop bound"
  | S f =>
      let! sb := gets k_sb in
      if inum <? sb_ninodes sb then
        let! bp := bread dev (IBLOCK inum sb) in
        let off := (inum `mod` IPB) * 64 in
        let! x := rd_buf bp in
        if dinode_type (b_data x) off =? 0 then
          upd_data bp (λ l, splice (splice l off (replicate 64 0)) off (bytes16 type)) ;;;
          log_write bp ;;;
          brelse bp ;;;
          iget dev inum
        else
          brelse bp ;;;
          ialloc_loop f dev type (inum + 1)
      else panic "ialloc: no inodes"
  end.
Definition ialloc (dev type : Z) : KM nat :=
  let! sb := gets k_sb in
  ialloc_loop (S (Z.to_nat (sb_ninodes sb))) dev type 1.

Definition iupdate (i : nat) : KM unit :=
  let! ip := rd_inode i in
  let! sb := gets k_sb in
  let! bp := bread (i_dev ip) (IBLOCK (i_inum ip) sb) in
  let! ip := rd_inode i in
  upd_data bp (λ l, splice l ((i_inum ip `mod` IPB) * 64) (dinode_bytes ip)) ;;;
  log_write bp ;;;
  brelse bp.

Definition ilock (i : option nat) : KM unit :=
  match i with
  | None => panic "ilock"
  | Some i =>
      let! ip := rd_inode i in
      if i_ref ip <? 1 then panic "ilock"
      else
        acquiresleep (Linodesleep i) ;;;
        let! ip := rd_inode i in
        if i_valid ip =? 0 then
          let! sb := gets k_sb in
          let! bp := bread (i_dev ip) (IBLOCK (i_inum ip) sb) in
          let! x := rd_buf bp in
          upd_inode i (dinode_load (b_data x) ((i_inum ip `mod` IPB) * 64)) ;;;
          brelse bp ;;;
          upd_inode i (set_i_valid 1) ;;;
          let! ip := rd_inode i in
          if i_type ip =? 0 then panic "ilock: no type" else ret tt
        else ret tt
  end.

Definition iunlock (i : option nat) : KM unit :=
  match i with
  | None => panic "iunlock"
  | Some i =>
      let! h := holdingsleep (Linodesleep i) in
      if negb h then panic "iunlock"
      else
        let! ip := rd_inode i in
        if i_ref ip <? 1 then panic "iunlock"
        else releasesleep (Linodesleep i)
  end.

Definition addr_at (i : nat) (ip : inode) : Z := nth i (i_addrs ip) 0.
Definition set_addr (i : nat) (v : Z) (ip : inode) : inode :=
  set_i_addrs (<[i := v]> (i_addrs ip)) ip.

Definition itrunc (i : nat) : KM unit :=
  for_each (seq 0 NDIRECT) (λ n,
    let! ip := rd_inode i in
    when (negb (addr_at n ip =? 0))
      (bfree (i_dev ip) (addr_at n ip) ;;; upd_inode i (set_addr n 0))) ;;;
  let! ip := rd_inode i in
  when (negb (addr_at NDIRECT ip =? 0))
    (let! bp := bread (i_dev ip) (addr_at NDIRECT ip) in
     for_each (seq 0 (Z.to_nat NINDIRECT)) (λ j,
       let! x := rd_buf bp in
       let a := get32 (b_data x) (4 * Z.of_nat j) in
       when (negb (a =? 0)) (bfree (i_dev ip) a)) ;;;
     brelse bp ;;;
     bfree (i_dev ip) (addr_at NDIRECT ip) ;;;
     upd_inode i (set_addr NDIRECT 0)) ;;;
  upd_inode i (set_i_size 0) ;;;
  iupdate i.

Definition iput (i : nat) : KM unit :=
  acquiresleep (Linodesleep i) ;;;
  let! ip := rd_inode i in
  when (negb (i_valid ip =? 0) && (i_nlink ip =? 0))
    (acquire Licache ;;;
     let! ip := rd_inode i in
     let r := i_ref ip in
     release Licache ;;;
     when (r =? 1)
       (itrunc i ;;;
        upd_inode i (set_i_type 0) ;;;
        iupdate i ;;;
        upd_inode i (set_i_valid 0))) ;;;
  releasesleep (Linodesleep i) ;;;
  acquire Licache ;;;
  upd_inode i (λ x, set_i_ref (i_ref x - 1) x) ;;;
  release Licache.

Definition iunlockput (i : nat) : KM unit := iunlock (Some i) ;;; iput i.

(** ** Contents *)

Definition bmap (i : nat) (bn : Z) : KM Z :=
  if bn <? Z.of_nat NDIRECT then
    let! ip := rd_inode i in
    if addr_at (Z.to_nat bn) ip =? 0 then
      let! addr := balloc (i_dev ip) in
      upd_inode i (set_addr (Z.to_nat bn) addr) ;;;
      ret addr
    else ret (addr_at (Z.to_nat bn) ip)
  else
    let bn := bn - Z.of_nat NDIRECT in
    if bn <? NINDIRECT then
      let! ip := rd_inode i in
      let! addr := (if addr_at NDIRECT ip =? 0 then
                      let! addr := balloc (i_dev ip) in
                      upd_inode i (set_addr NDIRECT addr) ;;;
                      ret addr
                    else ret (addr_at NDIRECT ip)) in
      let! bp := bread (i_dev ip) addr in
      let! x := rd_buf bp in
      let! addr := (if get32 (b_data x) (4 * bn) =? 0 then
                      let! addr := balloc (i_dev ip) in
                      upd_data bp (λ l, put32 l (4 * bn) addr) ;;;
                      log_write bp ;;;
                      ret addr
                    else ret (get32 (b_data x) (4 * bn))) in
      brelse bp ;;;
      ret addr
    else panic "bmap: out of range".

Record stat_t := Stat { st_type : Z; st_dev : Z; st_ino : Z; st_nlink : Z; st_size : Z }.
Definition stati (ip : inode) : stat_t :=
  Stat (i_type ip) (i_dev ip) (i_inum ip) (i_nlink ip) (i_size ip).

Section Contents.
Context {devsw : DevSw}.

(** The loop of readi: [tot] bytes done; [put d bs] stores [bs] at offset [d] of
    the destination.  Each round transfers at least one byte, so [n] rounds are
    enough. *)
Fixpoint readi_loop (fuel : nat) (put : Z → list Z → KM unit) (i : nat) (off tot n : Z)
    : KM (list Z) :=
  match fuel with
  | O => undef "loop bound"
  | S f =>
      if tot <? n then
        let! addr := bmap i (off / BSIZE) in
        let! ip := rd_inode i in
        let! bp := bread (i_dev ip) addr in
        let m := Z.min (n - tot) (BSIZE - off `mod` BSIZE) in
        let! x := rd_buf bp in
        let bs := sub_bytes (b_data x) (off `mod` BSIZE) m in
        put tot bs ;;;
        brelse bp ;;;
        let! rest := readi_loop f put i (off + m) (tot + m) n in
        ret (bs ++ rest)
      else ret []
  end.

(** The result and the bytes stored. *)
Definition readi (put : Z → list Z → KM unit) (i : nat) (off n : Z) : KM (Z * list Z) :=
  let! ip := rd_inode i in
  if i_type ip =? T_DEV then
    let! k := get in
    if (i_major ip <? 0) || (NDEV <=? i_major ip) || negb (has_dev (i_major ip) k) then ret (-1, [])
    else let! r := dev_read i put (i32 n) in ret (r, [])
  else if (i_size ip <? off) || (u32 (off + n) <? off) then ret (-1, [])
  else
    let n := if i_size ip <? u32 (off + n) then i_size ip - off else n in
    let! bs := readi_loop (S (Z.to_nat n)) put i off 0 n in
    ret (i32 n, bs).

(** [get d m] fetches [m] bytes at offset [d] of the source; the result is the
    offset after the last byte. *)
Fixpoint writei_loop (fuel : nat) (src : Z → Z → KM (list Z)) (i : nat) (off tot n : Z) : KM Z :=
  match fuel with
  | O => undef "loop bound"
  | S f =>
      if tot <? n then
        let! addr := bmap i (off / BSIZE) in
        let! ip := rd_inode i in
        let! bp := bread (i_dev ip) addr in
        let m := Z.min (n - tot) (BSIZE - off `mod` BSIZE) in
        let! bs := src tot m in
        upd_data bp (λ l, splice l (off `mod` BSIZE) bs) ;;;
        log_write bp ;;;
        brelse bp ;;;
        writei_loop f src i (off + m) (tot + m) n
      else ret off
  end.

Definition writei (src : Z → Z → KM (list Z)) (i : nat) (off n : Z) : KM Z :=
  let! ip := rd_inode i in
  if i_type ip =? T_DEV then
    let! k := get in
    if (i_major ip <? 0) || (NDEV <=? i_major ip) || negb (has_dev (i_major ip) k) then ret (-1)
    else dev_write i src (i32 n)
  else if (i_size ip <? off) || (u32 (off + n) <? off) then ret (-1)
  else if MAXFILE * BSIZE <? u32 (off + n) then ret (-1)
  else
    let! off := writei_loop (S (Z.to_nat n)) src i off 0 n in
    let! ip := rd_inode i in
    when ((0 <? n) && (i_size ip <? off))
      (upd_inode i (set_i_size off) ;;; iupdate i) ;;;
    ret (i32 n).

(** Destinations and sources: local variables of the kernel, and memory. *)
Definition to_local : Z → list Z → KM unit := λ _ _, ret tt.
Definition to_mem (a : Z) : Z → list Z → KM unit := λ d bs, vwrite (u32 (a + d)) bs.
Definition from_local (l : list Z) : Z → Z → KM (list Z) := λ d m, ret (sub_bytes l d m).
Definition from_mem (a : Z) : Z → Z → KM (list Z) := λ d m, vread (u32 (a + d)) (Z.to_nat m).

(** ** Directories *)

(** strncmp on names, which are byte lists; past the end is the NUL. *)
Fixpoint name_cmp (n : nat) (s t : list Z) : Z :=
  match n with
  | O => 0
  | S n' =>
      if negb (hd 0 s =? 0) && (hd 0 s =? hd 0 t) then name_cmp n' (tl s) (tl t)
      else hd 0 s - hd 0 t
  end.
Definition namecmp (s t : list Z) : Z := name_cmp DIRSIZ s t.

(** The name up to its NUL, padded to [DIRSIZ] bytes. *)
Fixpoint until_nul (s : list Z) : list Z :=
  match s with
  | [] => []
  | c :: s' => if c =? 0 then [] else c :: until_nul s'
  end.
Definition dir_name (s : list Z) : list Z :=
  let t := take DIRSIZ (until_nul s) in t ++ replicate (DIRSIZ - length t) 0.

(** struct dirent is 16 bytes: inum, name. *)
Definition DIRENT : Z := 16.
Definition de_inum (de : list Z) : Z := get16 de 0.
Definition de_name (de : list Z) : list Z := drop 2 de.

Fixpoint dirlookup_loop (fuel : nat) (dp : nat) (name : list Z) (off : Z)
    : KM (option (nat * Z)) :=
  match fuel with
  | O => undef "loop bound"
  | S f =>
      let! d := rd_inode dp in
      if off <? i_size d then
        let! r := readi to_local dp off DIRENT in
        if negb (fst r =? DIRENT) then panic "dirlookup read"
        else if de_inum (snd r) =? 0 then dirlookup_loop f dp name (off + DIRENT)
        else if namecmp name (de_name (snd r)) =? 0 then
          let! d := rd_inode dp in
          let! i := iget (i_dev d) (de_inum (snd r)) in
          ret (Some (i, off))
        else dirlookup_loop f dp name (off + DIRENT)
      else ret None
  end.

(** The inode and the offset of the entry; the loop runs once per entry. *)
Definition dirlookup (dp : nat) (name : list Z) : KM (option (nat * Z)) :=
  let! d := rd_inode dp in
  if negb (i_type d =? T_DIR) then panic "dirlookup not DIR"
  else dirlookup_loop (S (Z.to_nat (i_size d / DIRENT + 1))) dp name 0.

Fixpoint dirlink_slot (fuel : nat) (dp : nat) (off : Z) : KM Z :=
  match fuel with
  | O => undef "loop bound"
  | S f =>
      let! d := rd_inode dp in
      if off <? i_size d then
        let! r := readi to_local dp off DIRENT in
        if negb (fst r =? DIRENT) then panic "dirlink read"
        else if de_inum (snd r) =? 0 then ret off
        else dirlink_slot f dp (off + DIRENT)
      else ret off
  end.

Definition dirlink (dp : nat) (name : list Z) (inum : Z) : KM Z :=
  let! r := dirlookup dp name in
  match r with
  | Some (ip, _) => iput ip ;;; ret (-1)
  | None =>
      let! d := rd_inode dp in
      let! off := dirlink_slot (S (Z.to_nat (i_size d / DIRENT + 1))) dp 0 in
      let de := bytes16 inum ++ dir_name name in
      let! r := writei (from_local de) dp off DIRENT in
      if negb (r =? DIRENT) then panic "dirlink" else ret 0
  end.

(** ** Paths: a path is the list of its bytes up to the NUL *)

Definition SLASH : Z := 47.
Fixpoint skip_slashes (path : list Z) : list Z :=
  match path with
  | c :: path' => if c =? SLASH then skip_slashes path' else path
  | [] => []
  end.
Fixpoint elem_of_path (path : list Z) : list Z * list Z :=
  match path with
  | c :: path' =>
      if c =? SLASH then ([], path)
      else let '(e, rest) := elem_of_path path' in (c :: e, rest)
  | [] => ([], [])
  end.

(** The element, cut to [DIRSIZ] bytes, and the rest of the path. *)
Definition skipelem (path : list Z) : option (list Z * list Z) :=
  match skip_slashes path with
  | [] => None
  | path =>
      let '(e, rest) := elem_of_path path in
      Some (take DIRSIZ e, skip_slashes rest)
  end.

(** [fuel] bounds the number of elements of the path. *)
Fixpoint namex_loop (fuel : nat) (ip : nat) (path : list Z) (parent : bool) (name : list Z)
    : KM (option (nat * list Z)) :=
  match fuel with
  | O => undef "loop bound"
  | S f =>
      match skipelem path with
      | Some (name, path) =>
          ilock (Some ip) ;;;
          let! x := rd_inode ip in
          if negb (i_type x =? T_DIR) then iunlockput ip ;;; ret None
          else if parent && bool_decide (path = []) then
            iunlock (Some ip) ;;;
            ret (Some (ip, name))
          else
            let! r := dirlookup ip name in
            match r with
            | None => iunlockput ip ;;; ret None
            | Some (next, _) =>
                iunlockput ip ;;;
                namex_loop f next path parent name
            end
      | None =>
          if parent then iput ip ;;; ret None
          else ret (Some (ip, name))
      end
  end.

Definition namex (path : list Z) (parent : bool) : KM (option (nat * list Z)) :=
  let! ip := (if hd 0 path =? SLASH then iget ROOTDEV ROOTINO
              else
                let! p := myproc in
                let! p := deref p in
                let! pr := rd_proc p in
                let! cwd := deref (p_cwd pr) in
                idup cwd) in
  namex_loop (S (length path)) ip path parent [].

Definition namei (path : list Z) : KM (option nat) :=
  let! r := namex path false in ret (fst <$> r).
Definition nameiparent (path : list Z) : KM (option (nat * list Z)) := namex path true.

End Contents.
