(* ===== verification/Blocks.v ===== *)
(** * Blocks and inodes inside a transaction

    Theorems on [fs.c]: the block allocator and the copies of inodes on the
    disk.  Everything happens inside a transaction of [log.c], so what counts
    is the disk as a reader of the cache sees it: the blocks pinned by the
    transaction over the blocks on the disk. *)

From S2P Require Import Prelude Defs Spinlock Kernel Sched Kalloc Vm Sleeplock Bytes Bio Log Crash Cprintf Fs.
Local Open Scope kernel_scope.

(** What a reader sees of block [n]. *)
Definition lview (D : list (list Z)) (P : gmap nat (list Z)) (n : nat) : list Z :=
  default (nth n D []) (P !! n).

(** Inside a transaction, the buffers [H] in use, [room] blocks of the log left. *)
Record in_txn (pid : Z) (st sz : nat) (H : gmap nat (nat * list Z)) (room : Z) (D : list (list Z))
    (P : gmap nat (list Z)) (k0 k : kernel) : Prop := {
  it_cst : cst pid (Cache D P H) k0 k;
  it_txn : txn st sz (k_log k0) D P;
  it_out : 1 ≤ lg_outstanding (k_log k0);
  it_room : lg_n (k_log k0) + room < Z.of_nat sz;
  it_pos : 0 ≤ room
}.

(** The same operations are running. *)
Definition same_ops (g g' : log_t) : Prop :=
  lg_outstanding g = lg_outstanding g' ∧ lg_committing g = lg_committing g'.

(** What logging block [n] takes of the log: nothing if it is there already. *)
Definition fresh (P : gmap nat (list Z)) (n : nat) : Z := if P !! n is Some _ then 0 else 1.

Lemma fresh_range P n : 0 ≤ fresh P n ≤ 1.
Proof. unfold fresh. destruct (P !! n); lia. Qed.

Section Txn.
Context (pid : Z) (st sz : nat).

(** A block of the file system: on the disk, outside the log. *)
Definition fs_block (D : list (list Z)) (n : nat) : Prop :=
  (n < length D)%nat ∧ ¬ (st ≤ n < st + sz)%nat.

Lemma in_txn_weaken H room room' D P k0 k :
  in_txn pid st sz H room D P k0 k → 0 ≤ room' ≤ room → in_txn pid st sz H room' D P k0 k.
Proof. intros [S T O R Hp] Hr. split; [done..|lia|lia]. Qed.

Lemma in_txn_cst H H' room D P k0 k k1 :
  in_txn pid st sz H room D P k0 k → cst pid (Cache D P H') k0 k1 → in_txn pid st sz H' room D P k0 k1.
Proof. by intros [_ T O R Hp] S. Qed.

Lemma in_txn_size H room D P k0 k :
  in_txn pid st sz H room D P k0 k → Z.of_nat (size P) + room < Z.of_nat NBUF.
Proof.
  intros [_ T _ R Hp]. pose proof (tx_count _ _ _ _ _ T). pose proof (dk_sz _ _ _ (tx_disk _ _ _ _ _ T)).
  pose proof (tx_n _ _ _ _ _ T). pose proof NBUF_eq. lia.
Qed.

(** The cache with the buffer [b] of block [n] in use as well, contents [d]. *)
Definition in_use (D : list (list Z)) (P : gmap nat (list Z)) (H : gmap nat (nat * list Z)) (b n : nat) (d : list Z) : cache :=
  Cache D P (<[b := (n, d)]> H).

(** No buffer of [H] is one of block [n]. *)
Definition unheld (H : gmap nat (nat * list Z)) (n : nat) : Prop := ∀ b d, H !! b ≠ Some (n, d).

Lemma unheld_empty n : unheld ∅ n.
Proof. intros b d. by rewrite lookup_empty. Qed.

Lemma use_read H room D P k0 k o n C :
  in_txn pid st sz H room D P k0 k → fs_block D n → unheld H n → Z.of_nat (size H) ≤ room →
  cruns (bread 1 (Z.of_nat n)) o k (λ b k', H !! b = None ∧ cst pid (in_use D P H b n (lview D P n)) k0 k') C.
Proof.
  intros Ht [Hn _] Hu Hs. pose proof (in_txn_size _ _ _ _ _ _ Ht).
  eapply cruns_mono; [eapply bread_spec; [apply Ht|]| |done].
  - split_and!; [done|exact Hu|]. right. simpl. lia.
  - by intros b k' [Hb S].
Qed.

(** Reading with no other buffer in use. *)
Lemma use_read1 room D P k0 k o n C :
  in_txn pid st sz ∅ room D P k0 k → fs_block D n →
  cruns (bread 1 (Z.of_nat n)) o k (λ b k', cst pid (in_use D P ∅ b n (lview D P n)) k0 k') C.
Proof.
  intros Ht Hn. eapply cruns_mono; [apply (use_read ∅ room D P k0 k o n C Ht Hn (unheld_empty _))| |done].
  - rewrite map_size_empty. apply Ht.
  - by intros b k' [_ S].
Qed.

Lemma use_store D P H b n d f k0 k o C :
  cst pid (in_use D P H b n d) k0 k →
  cruns (upd_data b f) o k (λ _ k', cst pid (in_use D P H b n (f d)) k0 k') C.
Proof.
  intros S. eapply cruns_mono; [eapply upd_buf_spec; [exact S|apply lookup_insert_eq|done]| |done].
  intros [] k' S'. unfold c_store, in_use in S'. simpl in S'. by rewrite alter_insert_eq in S'.
Qed.

(** Giving back a buffer that was only read. *)
Lemma use_release D P H b n k0 k o C :
  cst pid (in_use D P H b n (lview D P n)) k0 k → H !! b = None → (n < length D)%nat →
  cruns (brelse b) o k (λ _ k', cst pid (Cache D P H) k0 k') C.
Proof.
  intros S Hb Hn. unfold lview in *. eapply cruns_mono; [eapply brelse_spec; [exact S|apply lookup_insert_eq|]| |done].
  - simpl. intros ->. simpl. destruct (lookup_lt_is_Some_2 D n Hn) as [x Hx].
    by rewrite (nth_lookup_Some _ _ _ _ Hx).
  - intros [] k' S'. unfold c_release, in_use in S'. simpl in S'. rewrite delete_insert_id in S' by done.
    replace (alter _ n P) with P in S'; [done|]. apply map_eq. intros i.
    destruct (decide (i = n)) as [->|]; [|by rewrite lookup_alter_ne].
    rewrite lookup_alter_eq. by destruct (P !! n).
Qed.

(** Logging a changed buffer and giving it back. *)
Lemma use_log H D P b n d k0 k o room C :
  cst pid (in_use D P H b n d) k0 k → H !! b = None → txn st sz (k_log k0) D P → 1 ≤ lg_outstanding (k_log k0) →
  lg_n (k_log k0) + room < Z.of_nat sz → 1 ≤ room → fs_block D n →
  cruns (log_write b ;;; brelse b)%K o k
    (λ _ k', ∃ g, same_ops g (k_log k0) ∧ in_txn pid st sz H (room - fresh P n) D (<[n := d]> P) (set_k_log g k0) k') C.
Proof.
  intros S Hb Htx Ho Hroom H1 [Hn Hno]. set (c := in_use D P H b n d) in *.
  pose proof (log_write_eq pid st sz k0 k o c b n d S Htx (lookup_insert_eq _ _ _) Ho ltac:(lia)) as E.
  set (g := log_add n P (k_log k0)) in *.
  assert (cst pid (c_pin n d c) (set_k_log g k0)
    (set_k_bufs (<[b := held_buf pid (c_pin n d c) n d]> (k_bufs k)) (set_k_log g k))) as S1.
  { eapply (cst_bufs _ c); [by apply cst_upd_log|done|].
    apply cinv_pin; [apply S|apply lookup_insert_eq]. }
  eapply cruns_step; [exact E|done|].
  eapply cruns_mono; [eapply brelse_spec; [exact S1|apply lookup_insert_eq|]| |done].
  - simpl. by rewrite lookup_insert_eq.
  - intros [] k' S2. exists g. unfold c_release, c_pin, c, in_use in S2. simpl in S2.
    rewrite delete_insert_id, alter_insert_eq in S2 by done. pose proof (fresh_range P n).
    split; [unfold same_ops, g, log_add; by destruct (P !! n)|]. split; [done|by apply txn_add; [done|lia|..]| | |lia].
    + simpl. unfold g, log_add. by destruct (P !! n).
    + simpl. unfold g, log_add, fresh in *. destruct (P !! n); simpl; lia.
Qed.
End Txn.

(** ** Bitmaps *)

Definition bit_of (l : list Z) (bi : Z) : bool := negb (Z.land (byte_at l (bi / 8)) (bit_mask bi) =? 0).

Lemma land_pow2 x j : 0 ≤ j → (Z.land x (Z.shiftl 1 j) =? 0) = negb (Z.testbit x j).
Proof.
  intros Hj. rewrite Z.shiftl_1_l. destruct (Z.testbit x j) eqn:E; simpl.
  - apply Z.eqb_neq. intros H. assert (Z.testbit (Z.land x (2 ^ j)) j = true) as H1.
    { by rewrite Z.land_spec, E, Z.pow2_bits_true. }
    by rewrite H, Z.bits_0 in H1.
  - apply Z.eqb_eq. apply Z.bits_inj_0. intros n. rewrite Z.land_spec. destruct (decide (n = j)) as [->|].
    + by rewrite E.
    + rewrite Z.pow2_bits_false by done. apply andb_false_r.
Qed.
Lemma bit_of_testbit l bi : bit_of l bi = Z.testbit (byte_at l (bi / 8)) (bi `mod` 8).
Proof. unfold bit_of, bit_mask. rewrite land_pow2 by dlia. apply negb_involutive. Qed.

Lemma testbit_u8 v j : 0 ≤ j < 8 → Z.testbit (u8 v) j = Z.testbit v j.
Proof. intros. unfold u8. change 256 with (2 ^ 8). apply Z.mod_pow2_bits_low. lia. Qed.

Lemma byte_at_set l i v j :
  0 ≤ i < Z.of_nat (length l) → 0 ≤ j → byte_at (set_byte l i v) j = if j =? i then u8 v else byte_at l j.
Proof.
  intros Hi Hj. unfold byte_at, set_byte. rewrite !nth_lookup. destruct (Z.eqb_spec j i) as [->|].
  - by rewrite list_lookup_insert_eq by lia.
  - by rewrite list_lookup_insert_ne by lia.
Qed.

(** Setting or clearing the bit [bi] of a bitmap block. *)
Lemma bit_of_update l bi bi' v b :
  length l = 512%nat → 0 ≤ bi < 4096 → 0 ≤ bi' < 4096 →
  (∀ j, 0 ≤ j < 8 → Z.testbit v j = if j =? bi `mod` 8 then b else Z.testbit (byte_at l (bi / 8)) j) →
  bit_of (set_byte l (bi / 8) v) bi' = if bi' =? bi then b else bit_of l bi'.
Proof.
  intros Hl Hb Hb' Hv. rewrite !bit_of_testbit, byte_at_set by (rewrite ?Hl; dlia).
  destruct (Z.eqb_spec (bi' / 8) (bi / 8)) as [E|E].
  - rewrite testbit_u8, Hv, E by dlia.
    destruct (Z.eqb_spec (bi' `mod` 8) (bi `mod` 8)), (Z.eqb_spec bi' bi); try done; exfalso; dlia.
  - destruct (Z.eqb_spec bi' bi); [exfalso; congruence|done].
Qed.

Definition set_bit (l : list Z) (bi : Z) : list Z :=
  set_byte l (bi / 8) (Z.lor (byte_at l (bi / 8)) (bit_mask bi)).
Definition clear_bit (l : list Z) (bi : Z) : list Z :=
  set_byte l (bi / 8) (Z.land (byte_at l (bi / 8)) (Z.lnot (bit_mask bi))).

Lemma testbit_mask bi j : 0 ≤ j → Z.testbit (bit_mask bi) j = (j =? bi `mod` 8).
Proof.
  intros. unfold bit_mask. rewrite Z.shiftl_1_l, Z.pow2_bits_eqb by dlia. apply Z.eqb_sym.
Qed.
Lemma bit_of_set l bi bi' :
  length l = 512%nat → 0 ≤ bi < 4096 → 0 ≤ bi' < 4096 →
  bit_of (set_bit l bi) bi' = if bi' =? bi then true else bit_of l bi'.
Proof.
  intros. apply bit_of_update; [done..|]. intros j Hj. rewrite Z.lor_spec, testbit_mask by lia.
  case_match; [apply orb_true_r|apply orb_false_r].
Qed.
Lemma bit_of_clear l bi bi' :
  length l = 512%nat → 0 ≤ bi < 4096 → 0 ≤ bi' < 4096 →
  bit_of (clear_bit l bi) bi' = if bi' =? bi then false else bit_of l bi'.
Proof.
  intros. apply bit_of_update; [done..|]. intros j Hj. rewrite Z.land_spec, Z.lnot_spec, testbit_mask by lia.
  case_match; [apply andb_false_r|apply andb_true_r].
Qed.
Lemma length_set_byte l i v : length (set_byte l i v) = length l.
Proof. apply length_insert. Qed.

Lemma free_bit_spec n l b bi size :
  match free_bit n l b bi size with
  | Some r => bi ≤ r < bi + Z.of_nat n ∧ b + r < size ∧ bit_of l r = false ∧
              ∀ j, bi ≤ j < r → bit_of l j = true
  | None => ∀ j, bi ≤ j < bi + Z.of_nat n → b + j < size → bit_of l j = true
  end.
Proof.
  revert bi. induction n as [|n IH]; intros bi; cbn [free_bit]; [lia|].
  destruct (Z.ltb_spec (b + bi) size); [|intros; lia].
  fold (bit_of l bi). unfold bit_of at 1. destruct (Z.eqb_spec (Z.land (byte_at l (bi / 8)) (bit_mask bi)) 0) as [E|E].
  - split_and!; [lia|lia|lia|unfold bit_of; by rewrite E|lia].
  - assert (bit_of l bi = true) as Hb by (unfold bit_of; by rewrite (proj2 (Z.eqb_neq _ _) E)).
    specialize (IH (bi + 1)). destruct (free_bit n l b (bi + 1) size).
    + destruct IH as (H1 & H2 & H3 & H4). split_and!; [lia|lia|lia|done|].
      intros j Hj. destruct (decide (j = bi)) as [->|]; [done|]. apply H4. lia.
    + intros j Hj. destruct (decide (j = bi)) as [->|]; [done|]. apply IH. lia.
Qed.

(** ** The block allocator *)

(** The bitmap block of block [b], and whether [b] is marked in use. *)
Definition bmap_block (sb : superblock) (b : Z) : nat := Z.to_nat (b / 4096 + sb_bmapstart sb).
Definition used (D : list (list Z)) (P : gmap nat (list Z)) (sb : superblock) (b : Z) : bool :=
  bit_of (lview D P (bmap_block sb b)) (b `mod` 4096).

(** The bitmap is where the super block says, and marks itself as in use. *)
Record bitmap_ok (st sz : nat) (D : list (list Z)) (P : gmap nat (list Z)) (sb : superblock) : Prop := {
  bm_size : 0 ≤ sb_size sb ≤ Z.of_nat (length D);
  bm_start : 0 ≤ sb_bmapstart sb;
  bm_block b : 0 ≤ b < sb_size sb →
    fs_block st sz D (bmap_block sb b) ∧ length (lview D P (bmap_block sb b)) = 512%nat;
  bm_self b : 0 ≤ b < sb_size sb → Z.of_nat (bmap_block sb b) < sb_size sb ∧
    used D P sb (Z.of_nat (bmap_block sb b)) = true;
  bm_free b : 0 ≤ b < sb_size sb → used D P sb b = false → fs_block st sz D (Z.to_nat b)
}.

(** The blocks after balloc returned [r]. *)
Record balloced (D : list (list Z)) (P P' : gmap nat (list Z)) (sb : superblock) (r : Z) : Prop := {
  ba_range : 0 ≤ r < sb_size sb;
  ba_was_free : used D P sb r = false;
  ba_first b : 0 ≤ b < r → used D P sb b = true;
  ba_used b : 0 ≤ b < sb_size sb → used D P' sb b = (b =? r) || used D P sb b;
  ba_zero : lview D P' (Z.to_nat r) = replicate 512 0;
  ba_other n : n ≠ Z.to_nat r → n ≠ bmap_block sb r → lview D P' n = lview D P n
}.

Lemma lview_insert D P n d m :
  lview D (<[n := d]> P) m = if decide (m = n) then d else lview D P m.
Proof.
  unfold lview. case_decide as E; [subst; by rewrite lookup_insert_eq|by rewrite lookup_insert_ne].
Qed.

Section Balloc.
Context (pid : Z) (st sz : nat).

Lemma bzero_spec H room D P k0 k o n C :
  in_txn pid st sz H room D P k0 k → fs_block st sz D n → unheld H n → Z.of_nat (size H) ≤ room → 1 ≤ room →
  cruns (bzero 1 (Z.of_nat n)) o k
    (λ _ k', ∃ g, same_ops g (k_log k0) ∧ in_txn pid st sz H (room - fresh P n) D (<[n := replicate 512 0]> P) (set_k_log g k0) k') C.
Proof.
  intros Ht Hn Hu Hs Hr. unfold bzero. apply cruns_bind.
  eapply cruns_mono; [by eapply use_read| |done]. intros b k1 [Hb S1]. apply cruns_bind.
  eapply cruns_mono; [eapply use_store; exact S1| |done]. intros [] k2 S2.
  eapply use_log; [exact S2|exact Hb|apply Ht|apply Ht|apply Ht|done|done].
Qed.

(** The bitmap after block [r] was marked and cleared. *)
Definition balloc_pins (D : list (list Z)) (P : gmap nat (list Z)) (sb : superblock) (r : Z) : gmap nat (list Z) :=
  <[Z.to_nat r := replicate 512 0]> (<[bmap_block sb r := set_bit (lview D P (bmap_block sb r)) (r `mod` 4096)]> P).

(** What it takes of the log. *)
Definition balloc_cost (P : gmap nat (list Z)) (sb : superblock) (r : Z) : Z :=
  fresh P (bmap_block sb r) + fresh (<[bmap_block sb r := []]> P) (Z.to_nat r).

Lemma balloced_intro D P sb r :
  bitmap_ok st sz D P sb → 0 ≤ r < sb_size sb → used D P sb r = false →
  (∀ b, 0 ≤ b < r → used D P sb b = true) →
  balloced D P (balloc_pins D P sb r) sb r.
Proof.
  intros Hok Hr Hf Hfirst. unfold balloc_pins.
  assert (∀ b, 0 ≤ b < sb_size sb → bmap_block sb b ≠ Z.to_nat r) as Hself.
  { intros b Hb E. destruct (bm_self _ _ _ _ _ Hok b Hb) as [_ Hu]. rewrite E, Z2Nat.id in Hu by lia. congruence. }
  split; [done..| | |].
  - intros b Hb. unfold used. rewrite !lview_insert, decide_False by auto.
    case_decide as E.
    + rewrite bit_of_set by (dlia || by apply (bm_block _ _ _ _ _ Hok)).
      pose proof (bm_start _ _ _ _ _ Hok). unfold bmap_block in E.
      destruct (Z.eqb_spec (b `mod` 4096) (r `mod` 4096)), (Z.eqb_spec b r); try (exfalso; dlia); [done|].
      simpl. unfold bmap_block. by rewrite E.
    + destruct (Z.eqb_spec b r); [by subst|done].
  - by rewrite lview_insert, decide_True.
  - intros n Hn Hb. by rewrite !lview_insert, !decide_False.
Qed.

Lemma fresh_insert P n d m : fresh (<[n := d]> P) m = if decide (m = n) then 0 else fresh P m.
Proof. unfold fresh. case_decide; [subst; by rewrite lookup_insert_eq|by rewrite lookup_insert_ne]. Qed.

(** The buffers [H] are in use while balloc runs: none of the bitmap, none of a
    free block. *)
Record balloc_ready (H : gmap nat (nat * list Z)) (room : Z) (D : list (list Z)) (P : gmap nat (list Z)) (sb : superblock) : Prop := {
  br_held : (size H ≤ 1)%nat;
  br_bitmap b : 0 ≤ b < sb_size sb → unheld H (bmap_block sb b);
  br_free b : 0 ≤ b < sb_size sb → used D P sb b = false → unheld H (Z.to_nat b);
  br_room b : 0 ≤ b < sb_size sb → 1 + fresh P (bmap_block sb b) ≤ room
}.

Lemma balloc_loop_spec fuel H room D P sb k0 k o j C :
  in_txn pid st sz H room D P k0 k → bitmap_ok st sz D P sb → k_sb k0 = sb → balloc_ready H room D P sb →
  0 ≤ j → sb_size sb < 4096 * (j + Z.of_nat fuel) →
  (∀ b, 0 ≤ b < 4096 * j → b < sb_size sb → used D P sb b = true) →
  (∃ b, 0 ≤ b < sb_size sb ∧ used D P sb b = false) →
  cruns (balloc_loop fuel 1 (4096 * j)) o k
    (λ r k', ∃ g, same_ops g (k_log k0) ∧ balloced D P (balloc_pins D P sb r) sb r ∧
       in_txn pid st sz H (room - balloc_cost P sb r) D (balloc_pins D P sb r) (set_k_log g k0) k') C.
Proof.
  revert k j. induction fuel as [|fuel IH]; intros k j Ht Hok Hsb [Hs Hub Huf Hr] Hj Hf Hlow Hex; [exfalso|].
  { destruct Hex as (b & Hb & Hu). rewrite Hlow in Hu by lia. done. }
  pose proof (dk_len _ _ _ (tx_disk _ _ _ _ _ (it_txn _ _ _ _ _ _ _ _ _ Ht))) as Hlen.
  pose proof (bm_size _ _ _ _ _ Hok) as Hsz. pose proof (bm_start _ _ _ _ _ Hok) as Hst.
  cbn [balloc_loop]. apply cruns_gets.
  assert (k_sb k = sb) as ->.
  { destruct (cs_frame _ _ _ _ (it_cst _ _ _ _ _ _ _ _ _ Ht)) as (? & ? & ? & ? & ? & ->). done. }
  destruct (Z.ltb_spec (4096 * j) (sb_size sb)) as [Hlt|Hge].
  2:{ exfalso. destruct Hex as (b & Hb & Hu). rewrite Hlow in Hu by lia. done. }
  destruct (bm_block _ _ _ _ _ Hok (4096 * j)) as [Hblk Hbl]; [lia|].
  set (bb := bmap_block sb (4096 * j)) in *.
  assert (BBLOCK (4096 * j) sb = Z.of_nat bb) as ->.
  { unfold BBLOCK. change BPB with 4096. unfold bb, bmap_block in *. destruct Hblk as [Hblk _].
    rewrite Z2Nat.id by dlia. apply u32_small. dlia. }
  pose proof (Hr (4096 * j) ltac:(lia)) as Hroom. fold bb in Hroom. pose proof (fresh_range P bb).
  apply cruns_bind. eapply cruns_mono; [eapply use_read; [exact Ht|exact Hblk|by apply Hub; lia|lia]| |done]. intros bp k1 [Hbp S1].
  eapply rd_buf_spec; [exact S1|apply lookup_insert_eq|]. simpl b_data.
  set (l := lview D P bb) in *.
  assert (∀ i, 0 ≤ i < 4096 → used D P sb (4096 * j + i) = bit_of l i) as Hbit.
  { intros i Hi. unfold used, l, bb, bmap_block.
    assert ((4096 * j + i) `mod` 4096 = i) as -> by dlia.
    by assert ((4096 * j + i) / 4096 = 4096 * j / 4096) as -> by dlia. }
  pose proof (free_bit_spec (Z.to_nat BPB) l (4096 * j) 0 (sb_size sb)) as Hfb.
  change (Z.of_nat (Z.to_nat BPB)) with 4096 in Hfb.
  destruct (free_bit _ _ _ _ _) as [bi|].
  - destruct Hfb as (H1 & H2 & H3 & H4). set (r := 4096 * j + bi).
    assert (r `mod` 4096 = bi ∧ bmap_block sb r = bb) as [Er Eb].
    { unfold r, bb, bmap_block. split; [dlia|]. f_equal. dlia. }
    assert (balloced D P (balloc_pins D P sb r) sb r) as Hba.
    { apply balloced_intro; [done|lia|unfold r; by rewrite Hbit by lia|].
      intros b Hb. destruct (decide (b < 4096 * j)); [apply Hlow; lia|].
      replace b with (4096 * j + (b - 4096 * j)) by lia. rewrite Hbit by (unfold r in Hb; lia).
      apply H4. unfold r in Hb. lia. }
    assert (balloc_pins D P sb r = <[Z.to_nat r := replicate 512 0]> (<[bb := set_bit l bi]> P)) as Epins.
    { unfold balloc_pins. by rewrite Er, Eb. }
    assert (Z.to_nat r ≠ bb) as Hne.
    { intros E. destruct (bm_self _ _ _ _ _ Hok (4096 * j)) as [_ Hu]; [lia|]. fold bb in Hu.
      rewrite <- E, Z2Nat.id, (ba_was_free _ _ _ _ _ Hba) in Hu by (unfold r; lia). done. }
    apply cruns_bind. eapply cruns_mono; [eapply use_store; exact S1| |done]. intros [] k2 S2.
    fold (set_bit l bi) in S2. apply (cruns_eq _ (let! _ := (let! _ := log_write bp in brelse bp) in
      bzero 1 r ;;; ret (u32 r))%K); [by rewrite bind_assoc|]. apply cruns_bind.
    eapply cruns_mono; [eapply use_log; [exact S2|exact Hbp|apply Ht|apply Ht|apply Ht|lia|done]| |done].
    intros [] k3 (g & Hg & H5). apply cruns_bind.
    replace r with (Z.of_nat (Z.to_nat r)) at 1 by (unfold r; lia).
    eapply cruns_mono; [eapply bzero_spec; [exact H5| | |lia|lia]| |done].
    { apply (bm_free _ _ _ _ _ Hok); [unfold r; lia|apply Hba]. }
    { apply Huf; [unfold r; lia|apply Hba]. }
    intros [] k4 (g' & Hg' & H6). apply cruns_ret. rewrite u32_small by (unfold r; lia).
    exists g'. split; [unfold same_ops in *; simpl in *; intuition congruence|]. split; [exact Hba|]. rewrite Epins. unfold balloc_cost. rewrite Eb, fresh_insert, decide_False by done.
    rewrite fresh_insert, decide_False in H6 by done.
    by replace (room - (fresh P bb + fresh P (Z.to_nat r))) with (room - fresh P bb - fresh P (Z.to_nat r)) by lia.
  - apply cruns_bind. eapply cruns_mono; [eapply use_release; [exact S1|exact Hbp|apply Hblk]| |done].
    intros [] k2 S2. change BPB with 4096. replace (4096 * j + 4096) with (4096 * (j + 1)) by lia.
    apply IH; [by eapply in_txn_cst|exact Hok|exact Hsb|by split|lia|lia| |exact Hex].
    + intros b Hb Hbs. destruct (decide (b < 4096 * j)); [apply Hlow; lia|].
      replace b with (4096 * j + (b - 4096 * j)) by lia. rewrite Hbit by lia. apply Hfb; lia.
Qed.

Lemma balloc_ready_empty room D P sb : 2 ≤ room → balloc_ready ∅ room D P sb.
Proof.
  intros Hr. split; [rewrite map_size_empty; lia|intros; apply unheld_empty|intros; apply unheld_empty|].
  intros b _. pose proof (fresh_range P (bmap_block sb b)). lia.
Qed.

Lemma balloc_cost_range P sb r : 0 ≤ balloc_cost P sb r ≤ 2.
Proof.
  unfold balloc_cost. pose proof (fresh_range P (bmap_block sb r)).
  pose proof (fresh_range (<[bmap_block sb r := []]> P) (Z.to_nat r)). lia.
Qed.
End Balloc.

(** A run that writes no block of the disk cannot be cut short. *)
Lemma cruns_total {A} (m : KM A) o k Q :
  cruns m o k Q (λ _, False) → ∃ a k', m o k = Ok a k' o ∧ Q a k'.
Proof.
  unfold cruns. destruct (m o k) as [a k' o'| | |k'|]; [|done|done|tauto|done].
  intros (-> & _ & H). eauto.
Qed.

Section Bfree.
Context (pid : Z) (st sz : nat).

Lemma in_txn_set_sb room D P k0 k sb :
  in_txn pid st sz ∅ room D P k0 k → in_txn pid st sz ∅ room D P (set_k_sb sb k0) (set_k_sb sb k).
Proof.
  intros [[Q I E (B & L & D' & T & W & F)] Ht Ho Hr Hp]. split; [|done..].
  split; [by apply (quiet_ext pid k)|done|done|]. exists B, L, D', T, W. rewrite F. by destruct k0.
Qed.

Lemma readsb_spec room D P k0 k o C :
  in_txn pid st sz ∅ room D P k0 k → fs_block st sz D 1 →
  cruns (readsb 1) o k (λ sb k', sb = sb_of_bytes (lview D P 1) ∧ in_txn pid st sz ∅ room D P k0 k') C.
Proof.
  intros H Hb. unfold readsb. apply cruns_bind.
  eapply cruns_mono; [apply (use_read1 pid st sz room D P k0 k o 1 C H Hb)| |done]. intros b k1 S1.
  eapply rd_buf_spec; [exact S1|apply lookup_insert_eq|]. simpl b_data.
  apply cruns_bind. eapply cruns_mono; [eapply use_release; [exact S1|done|apply Hb]| |done].
  intros [] k2 S2. apply cruns_ret. split; [done|]. by eapply in_txn_cst.
Qed.
End Bfree.

(** ** Inodes on the disk *)

Lemma nth_bytes32 l i r :
  (i < length l)%nat → (r < 4)%nat → nth (4 * i + r) (l ≫= bytes32) 0 = nth r (bytes32 (nth i l 0)) 0.
Proof.
  revert i. induction l as [|v l IH]; simpl length; intros i Hi Hr; [lia|].
  change ((v :: l) ≫= bytes32) with (bytes32 v ++ (l ≫= bytes32)). destruct i as [|i].
  - rewrite app_nth1 by (simpl; lia). done.
  - rewrite app_nth2 by (simpl; lia). simpl length.
    replace (4 * S i + r - 4)%nat with (4 * i + r)%nat by lia. apply IH; lia.
Qed.
Lemma length_bytes32 l : length (l ≫= bytes32) = (4 * length l)%nat.
Proof.
  induction l as [|v l IH]; [done|]. change ((v :: l) ≫= bytes32) with (bytes32 v ++ (l ≫= bytes32)).
  rewrite length_app, IH. simpl. lia.
Qed.

(** The fields of an inode that fit their types on the disk. *)
Record inode_fits (ip : inode) : Prop := {
  if_type : -32768 ≤ i_type ip < 32768;
  if_major : -32768 ≤ i_major ip < 32768;
  if_minor : -32768 ≤ i_minor ip < 32768;
  if_nlink : -32768 ≤ i_nlink ip < 32768;
  if_size : 0 ≤ i_size ip < 4294967296;
  if_addrs : length (i_addrs ip) = 13%nat ∧ Forall (λ a, 0 ≤ a < 4294967296) (i_addrs ip)
}.

(** The fields that are on the disk agree. *)
Definition same_dinode (ip ip' : inode) : Prop :=
  i_type ip' = i_type ip ∧ i_major ip' = i_major ip ∧ i_minor ip' = i_minor ip ∧
  i_nlink ip' = i_nlink ip ∧ i_size ip' = i_size ip ∧ i_addrs ip' = i_addrs ip.

Lemma length_dinode ip : length (i_addrs ip) = 13%nat → length (dinode_bytes ip) = 64%nat.
Proof.
  intros H. unfold dinode_bytes. rewrite !length_app, length_bytes32, H. done.
Qed.

Section Dinode.
Context (l : list Z) (off : Z) (ip : inode).
Context (Hl : length l = 512%nat) (Ho : 0 ≤ off ≤ 448) (Hf : inode_fits ip).
Let l' := splice l off (dinode_bytes ip).

Lemma dinode_byte (j : Z) :
  0 ≤ j < 64 → byte_at l' (off + j) = nth (Z.to_nat j) (dinode_bytes ip) 0.
Proof.
  intros Hj. unfold l'. pose proof (length_dinode ip (proj1 (if_addrs _ Hf))) as Hd.
  rewrite byte_at_splice by (rewrite ?Hd, ?Hl; lia). rewrite Hd.
  rewrite (proj2 (Z.leb_le _ _)), (proj2 (Z.ltb_lt _ _)) by lia. cbn [andb]. by replace (off + j - off) with j by lia.
Qed.

Lemma bytes_of_half v : u8 v + 256 * u8 (v / 256) = u16 v.
Proof. unfold u8, u16. dlia. Qed.
Lemma i16_u16 v : -32768 ≤ v < 32768 → i16 (u16 v) = v.
Proof. unfold i16, u16. intros. dlia. Qed.

(** A half word at offset [2 j], given the bytes of the record there. *)
Lemma dinode_half (j : Z) v :
  0 ≤ j → j + 1 < 64 → nth (Z.to_nat j) (dinode_bytes ip) 0 = u8 v →
  nth (Z.to_nat (j + 1)) (dinode_bytes ip) 0 = u8 (v / 256) → get16 l' (off + j) = u16 v.
Proof.
  intros H1 H2 E1 E2. unfold get16. rewrite <- bytes_of_half, <- E1, <- E2.
  rewrite dinode_byte by lia. replace (off + j + 1) with (off + (j + 1)) by lia. by rewrite dinode_byte by lia.
Qed.
Lemma dinode_word (j : Z) v :
  0 ≤ j → j + 3 < 64 →
  (∀ r, (r < 4)%nat → nth (Z.to_nat j + r) (dinode_bytes ip) 0 = nth r (bytes32 v) 0) → get32 l' (off + j) = u32 v.
Proof.
  intros H1 H2 E. unfold get32. rewrite <- bytes_of_word.
  replace (off + j + 1) with (off + (j + 1)) by lia. replace (off + j + 2) with (off + (j + 2)) by lia.
  replace (off + j + 3) with (off + (j + 3)) by lia. rewrite !dinode_byte by lia.
  rewrite !Z2Nat.inj_add by lia. change (Z.to_nat 1) with 1%nat. change (Z.to_nat 2) with 2%nat.
  change (Z.to_nat 3) with 3%nat. rewrite !E by lia. rewrite <- (Nat.add_0_r (Z.to_nat j)), E by lia. done.
Qed.

Lemma dinode_roundtrip ip' : same_dinode ip (dinode_load l' off ip').
Proof.
  destruct Hf as [F1 F2 F3 F4 F5 [F6 F7]]. unfold same_dinode, dinode_load. simpl. split_and!.
  - rewrite <- (Z.add_0_r off), (dinode_half 0 (i_type ip)) by (lia || done). by apply i16_u16.
  - rewrite (dinode_half 2 (i_major ip)) by (lia || done). by apply i16_u16.
  - rewrite (dinode_half 4 (i_minor ip)) by (lia || done). by apply i16_u16.
  - rewrite (dinode_half 6 (i_nlink ip)) by (lia || done). by apply i16_u16.
  - rewrite (dinode_word 8 (i_size ip)); [by apply u32_small|lia|lia|].
    intros [|[|[|[|r]]]] Hr; (done || lia).
  - unfold dinode_addrs. apply list_eq. intros i. rewrite list_lookup_fmap.
    change (S NDIRECT) with 13%nat. destruct (decide (i < 13)%nat) as [Hi|Hi].
    + rewrite lookup_seq_lt by lia. simpl.
      destruct (lookup_lt_is_Some_2 (i_addrs ip) i) as [a Ha]; [lia|]. rewrite Ha. f_equal.
      replace (off + 12 + 4 * Z.of_nat i) with (off + (12 + 4 * Z.of_nat i)) by lia.
      rewrite (dinode_word _ a); [apply u32_small; by apply (Forall_lookup_1 _ _ _ _ F7 Ha)|lia|lia|].
      intros r Hr. unfold dinode_bytes. do 5 rewrite app_nth2 by (simpl; lia). simpl length.
      replace (Z.to_nat (12 + 4 * Z.of_nat i) + r - 2 - 2 - 2 - 2 - 4)%nat with (4 * i + r)%nat by lia.
      rewrite nth_bytes32 by lia. by rewrite (nth_lookup_Some _ _ _ _ Ha).
    + rewrite lookup_seq_ge by lia. simpl. by rewrite lookup_ge_None_2 by lia.
Qed.
End Dinode.

Section InodeRuns.
Context (pid : Z) (st sz : nat).

Lemma rd_inode_eq i o k x : k_icache k !! i = Some x → rd_inode i o k = Ok x k o.
Proof. intros H. unfold rd_inode. mrun. by rewrite H. Qed.

Lemma cst_icache c k0 k : cst pid c k0 k → k_icache k = k_icache k0.
Proof. intros [_ _ _ (B & L & D & T & W & ->)]. done. Qed.
Lemma cst_sb c k0 k : cst pid c k0 k → k_sb k = k_sb k0.
Proof. intros [_ _ _ (B & L & D & T & W & ->)]. done. Qed.
Lemma cst_set_icache c k0 k I : cst pid c k0 k → cst pid c (set_k_icache I k0) (set_k_icache I k).
Proof.
  intros [Q V D (B & L & D' & T & W & F)]. split; [by apply (quiet_ext pid k)|done|done|].
  exists B, L, D', T, W. rewrite F. by destruct k0.
Qed.

(** The block and the offset of an inode. *)
Definition inode_block (sb : superblock) (inum : Z) : nat := Z.to_nat (IBLOCK inum sb).
Definition inode_off (inum : Z) : Z := (inum `mod` IPB) * 64.

Lemma inode_block_eq sb inum : IBLOCK inum sb = Z.of_nat (inode_block sb inum).
Proof. unfold inode_block. rewrite Z2Nat.id; [done|]. apply u32_range. Qed.
Lemma inode_off_range inum : 0 ≤ inode_off inum ≤ 448.
Proof. unfold inode_off. change IPB with 8. dlia. Qed.

Lemma iupdate_spec room D P k0 k o i ip C :
  in_txn pid st sz ∅ room D P k0 k → k_icache k0 !! i = Some ip → i_dev ip = 1 → 1 ≤ room →
  fs_block st sz D (inode_block (k_sb k0) (i_inum ip)) →
  cruns (iupdate i) o k (λ _ k', ∃ g, let n := inode_block (k_sb k0) (i_inum ip) in
    same_ops g (k_log k0) ∧ in_txn pid st sz ∅ (room - fresh P n) D
      (<[n := splice (lview D P n) (inode_off (i_inum ip)) (dinode_bytes ip)]> P) (set_k_log g k0) k') C.
Proof.
  intros H Hip Hdev Hr Hb. pose proof (it_cst _ _ _ _ _ _ _ _ _ H) as S. unfold iupdate.
  eapply cruns_step; [apply rd_inode_eq; rewrite (cst_icache _ _ _ S); exact Hip|done|].
  apply cruns_gets. rewrite (cst_sb _ _ _ S), Hdev, inode_block_eq. apply cruns_bind.
  eapply cruns_mono; [by eapply use_read1| |done]. intros b k1 S1.
  eapply cruns_step; [apply rd_inode_eq; rewrite (cst_icache _ _ _ S1); exact Hip|done|]. apply cruns_bind.
  eapply cruns_mono; [eapply use_store; exact S1| |done]. intros [] k2 S2.
  eapply use_log; [exact S2|done|apply H|apply H|apply H|done|done].
Qed.

Lemma ilock_spec room D P k0 k o j jp C :
  in_txn pid st sz ∅ room D P k0 k → k_icache k0 !! j = Some jp → i_dev jp = 1 → 1 ≤ i_ref jp →
  i_lock jp = sleeplock0 → i_valid jp = 0 → (j < NINODE)%nat →
  fs_block st sz D (inode_block (k_sb k0) (i_inum jp)) →
  let l := lview D P (inode_block (k_sb k0) (i_inum jp)) in
  let ip := set_i_valid 1 (dinode_load l (inode_off (i_inum jp)) (set_i_lock (Sleeplock 1 pid) jp)) in
  i_type ip ≠ 0 →
  cruns (ilock (Some j)) o k
    (λ _ k', in_txn pid st sz ∅ room D P (set_k_icache (<[j := ip]> (k_icache k0)) k0) k') C.
Proof.
  intros H Hjp Hdev Href Hlk Hval Hj Hb l ip Hty. pose proof (it_cst _ _ _ _ _ _ _ _ _ H) as S.
  pose proof (cst_icache _ _ _ S) as Ei. pose proof (lookup_lt_Some _ _ _ Hjp) as Hlt.
  unfold ilock. eapply cruns_step; [apply rd_inode_eq; rewrite Ei; exact Hjp|done|].
  rewrite (proj2 (Z.ltb_ge _ _)) by lia.
  set (jp1 := set_i_lock (Sleeplock 1 pid) jp). set (I1 := <[j := jp1]> (k_icache k0)).
  eapply (cruns_step _ _ _ _ _ (set_k_icache I1 k)); [|done|].
  { rewrite (acquiresleep_quiet _ _ _ pid sleeplock0); [|apply S|by constructor|simpl; by rewrite Ei, Hjp; simpl; rewrite Hlk|done].
    simpl. by rewrite Ei, (list_alter_at _ _ _ _ Hjp). }
  assert (in_txn pid st sz ∅ room D P (set_k_icache I1 k0) (set_k_icache I1 k)) as H1.
  { destruct H as [_ T O R Hp]. split; [by apply cst_set_icache|done..]. }
  eapply cruns_step; [apply rd_inode_eq; kproj; by apply list_lookup_insert_eq|done|].
  change (i_valid jp1) with (i_valid jp). rewrite Hval. change (0 =? 0) with true. cbn iota.
  apply cruns_gets. kproj. rewrite (cst_sb _ _ _ S). change (i_dev jp1) with (i_dev jp). rewrite Hdev.
  change (i_inum jp1) with (i_inum jp). rewrite inode_block_eq. apply cruns_bind.
  eapply cruns_mono; [by eapply use_read1| |done]. intros b k2 S2.
  eapply rd_buf_spec; [exact S2|apply lookup_insert_eq|]. simpl b_data. fold l.
  change (i_inum jp `mod` IPB * 64) with (inode_off (i_inum jp)).
  set (jp2 := dinode_load l (inode_off (i_inum jp)) jp1). set (I2 := <[j := jp2]> (k_icache k0)).
  eapply (cruns_step _ _ _ _ _ (set_k_icache I2 k2)); [|done|].
  { unfold upd_inode, modify. rewrite (cst_icache _ _ _ S2). kproj. unfold I1.
    rewrite (list_alter_at _ _ _ jp1) by (by apply list_lookup_insert_eq). by rewrite list_insert_insert_eq. }
  apply (cst_set_icache _ _ _ I2) in S2.
  replace (set_k_icache I2 (set_k_icache I1 k0)) with (set_k_icache I2 k0) in S2 by (by destruct k0).
  apply cruns_bind. eapply cruns_mono; [eapply use_release; [exact S2|done|apply Hb]| |done]. intros [] k3 S3.
  eapply (cruns_step _ _ _ _ _ (set_k_icache (<[j := ip]> (k_icache k0)) k3)); [|done|].
  { unfold upd_inode, modify. rewrite (cst_icache _ _ _ S3). kproj. unfold I2.
    rewrite (list_alter_at _ _ _ jp2) by (by apply list_lookup_insert_eq). by rewrite list_insert_insert_eq. }
  eapply cruns_step; [apply rd_inode_eq; kproj; by apply list_lookup_insert_eq|done|].
  rewrite (proj2 (Z.eqb_neq _ _) Hty). apply cruns_ret.
  apply (cst_set_icache _ _ _ (<[j := ip]> (k_icache k0))) in S3.
  replace (set_k_icache _ (set_k_icache I2 k0)) with (set_k_icache (<[j := ip]> (k_icache k0)) k0) in S3 by (by destruct k0).
  destruct H as [_ T O R Hp]. split; [exact S3|exact T|exact O|exact R|exact Hp].
Qed.
End InodeRuns.

(** ** Main theorems *)

(** balloc returns the lowest block that the bitmap marks as free, marks it
    and no other block, and hands it out filled with zeroes; every other block
    reads as before. *)
Theorem balloc_first_free pid st sz room D P k0 k o :
  in_txn pid st sz ∅ room D P k0 k → bitmap_ok st sz D P (k_sb k0) → 2 ≤ room →
  (∃ b, 0 ≤ b < sb_size (k_sb k0) ∧ used D P (k_sb k0) b = false) →
  ∃ r k' P' g, balloc 1 o k = Ok r k' o ∧ balloced D P P' (k_sb k0) r ∧
    in_txn pid st sz ∅ (room - 2) D P' (set_k_log g k0) k'.
Proof.
  intros H Hok Hr Hex. pose proof (dk_len _ _ _ (tx_disk _ _ _ _ _ (it_txn _ _ _ _ _ _ _ _ _ H))).
  pose proof (bm_size _ _ _ _ _ Hok). pose proof NPAGES_eq.
  destruct (cruns_total (balloc 1) o k _
    (balloc_loop_spec pid st sz (S NPAGES) ∅ room D P _ k0 k o 0 (λ _, False) H Hok eq_refl
       (balloc_ready_empty _ _ _ _ Hr) ltac:(lia) ltac:(lia) ltac:(lia) Hex)) as (r & k' & E & g & _ & Hba & H').
  exists r, k', (balloc_pins D P (k_sb k0) r), g. split_and!; [exact E|exact Hba|]. apply (in_txn_weaken _ _ _ _ _ _ _ _ _ _ H').
  pose proof (balloc_cost_range P (k_sb k0) r). lia.
Qed.

(** bfree of a block the bitmap marks as in use clears exactly that mark and
    changes no other block; bfree of a free block panics. *)
Theorem bfree_clears pid st sz room D P k0 k o b :
  let sb := sb_of_bytes (lview D P 1) in
  in_txn pid st sz ∅ room D P k0 k → bitmap_ok st sz D P sb → fs_block st sz D 1 → 1 ≤ room →
  0 ≤ b < sb_size sb →
  if used D P sb b then
    ∃ k' P' g, bfree 1 b o k = Ok tt k' o ∧ in_txn pid st sz ∅ (room - 1) D P' (set_k_log g (set_k_sb sb k0)) k' ∧
      (∀ b', 0 ≤ b' < sb_size sb → used D P' sb b' = negb (b' =? b) && used D P sb b') ∧
      (∀ n, n ≠ bmap_block sb b → lview D P' n = lview D P n)
  else ∃ k', bfree 1 b o k = Panic "freeing free block" k'.
Proof.
  intros sb H Hok Hb1 Hr Hb. pose proof (bm_size _ _ _ _ _ Hok) as Hsz. pose proof (bm_start _ _ _ _ _ Hok) as Hst.
  pose proof (dk_len _ _ _ (tx_disk _ _ _ _ _ (it_txn _ _ _ _ _ _ _ _ _ H))) as Hlen.
  destruct (bm_block _ _ _ _ _ Hok b Hb) as [Hblk Hbl]. set (bb := bmap_block sb b) in *.
  assert (BBLOCK b sb = Z.of_nat bb) as EB.
  { unfold BBLOCK. change BPB with 4096. unfold bb, bmap_block in *. destruct Hblk as [Hblk _].
    rewrite Z2Nat.id by dlia. apply u32_small. dlia. }
  unfold bfree.
  destruct (cruns_total _ _ _ _ (readsb_spec pid st sz room D P k0 k o _ H Hb1)) as (sb' & k1 & E1 & -> & H1).
  rewrite (bind_ok _ _ _ _ _ _ _ E1). fold sb. mrun.
  apply (in_txn_set_sb _ _ _ _ _ _ _ _ sb) in H1. rewrite EB.
  destruct (cruns_total _ _ _ _ (use_read1 pid st sz room D P _ _ o bb _ H1 Hblk)) as (bp & k2 & E2 & S2).
  rewrite (bind_ok _ _ _ _ _ _ _ E2). set (l := lview D P bb) in *.
  rewrite (bind_ok _ _ _ _ _ _ _ (rd_buf_eq _ _ _ _ (cinv_held _ _ _ _ _ _ _ (cs_inv _ _ _ _ S2) (lookup_insert_eq _ _ _)))).
  simpl b_data. change BPB with 4096. change (used D P sb b) with (bit_of l (b `mod` 4096)).
  unfold bit_of at 1. destruct (_ =? 0) eqn:Ebit; cbn [negb]; [by exists k2|].
  change (λ l : list Z, _) with (λ l, clear_bit l (b `mod` 4096)).
  destruct (cruns_total _ _ _ _ (use_store pid D P ∅ bp bb l (λ l, clear_bit l (b `mod` 4096)) _ _ o _ S2))
    as ([] & k3 & E3 & S3).
  rewrite (bind_ok _ _ _ _ _ _ _ E3).
  destruct (cruns_total _ _ _ _ (use_log pid st sz ∅ D P bp bb _ _ k3 o room _ S3 eq_refl (it_txn _ _ _ _ _ _ _ _ _ H1)
    (it_out _ _ _ _ _ _ _ _ _ H1) (it_room _ _ _ _ _ _ _ _ _ H1) Hr Hblk)) as ([] & k4 & E4 & g & _ & H4).
  exists k4, (<[bb := clear_bit l (b `mod` 4096)]> P), g. pose proof (fresh_range P bb).
  split_and!; [exact E4|apply (in_txn_weaken _ _ _ _ _ _ _ _ _ _ H4); lia| |].
  - intros b' Hb'. unfold used. rewrite lview_insert. case_decide as E.
    + rewrite bit_of_clear by (dlia || done). rewrite E. fold l.
      unfold bb, bmap_block in E. destruct (Z.eqb_spec (b' `mod` 4096) (b `mod` 4096)), (Z.eqb_spec b' b); try (exfalso; dlia); done.
    + destruct (Z.eqb_spec b' b) as [->|]; [by destruct E|done].
  - intros n Hn. by rewrite lview_insert, decide_False.
Qed.

(** An inode survives the trip to the disk: after iupdate of a cached inode,
    locking another, not yet loaded cache entry for the same inode number fills
    it with the same type, device numbers, link count, size and block addresses. *)
Theorem iupdate_ilock pid st sz room D P k0 k o i j ip jp :
  in_txn pid st sz ∅ room D P k0 k → 1 ≤ room →
  k_icache k0 !! i = Some ip → i_dev ip = 1 → inode_fits ip → i_type ip ≠ 0 →
  k_icache k0 !! j = Some jp → i_dev jp = 1 → i_inum jp = i_inum ip → 1 ≤ i_ref jp →
  i_lock jp = sleeplock0 → i_valid jp = 0 → (j < NINODE)%nat →
  let n := inode_block (k_sb k0) (i_inum ip) in
  fs_block st sz D n → length (lview D P n) = 512%nat →
  ∃ k' jp', (iupdate i ;;; ilock (Some j))%K o k = Ok tt k' o ∧ k_icache k' !! j = Some jp' ∧
    same_dinode ip jp' ∧ i_valid jp' = 1 ∧ i_lock jp' = Sleeplock 1 pid ∧
    ∀ j', j' ≠ j → k_icache k' !! j' = k_icache k0 !! j'.
Proof.
  intros H Hr Hip Hdev Hf Hty Hjp Hdev' Hinum Href Hlk Hval Hj n Hb Hl.
  pose proof (inode_off_range (i_inum ip)) as Hoff.
  destruct (cruns_total _ _ _ _ (iupdate_spec pid st sz room D P k0 k o i ip _ H Hip Hdev Hr Hb))
    as ([] & k1 & E1 & g & _ & H1). fold n in H1.
  rewrite (bind_ok _ _ _ _ _ _ _ E1).
  set (l := splice (lview D P n) (inode_off (i_inum ip)) (dinode_bytes ip)) in *.
  set (jp1 := set_i_lock (Sleeplock 1 pid) jp).
  pose proof (dinode_roundtrip _ _ _ Hl Hoff Hf jp1) as Hsame. fold l in Hsame.
  assert (lview D (<[n := l]> P) n = l) as Ev by (by rewrite lview_insert, decide_True).
  assert (i_type (set_i_valid 1 (dinode_load l (inode_off (i_inum ip)) jp1)) ≠ 0) as Hty1.
  { rewrite <- (proj1 Hsame) in Hty. exact Hty. }
  destruct (cruns_total _ _ _ _ (ilock_spec pid st sz (room - fresh P n) D (<[n := l]> P) (set_k_log g k0) k1 o j jp _
    H1 Hjp Hdev' Href Hlk Hval Hj ltac:(rewrite Hinum; exact Hb)
    ltac:(kproj; rewrite Hinum; fold n; rewrite Ev; fold jp1; exact Hty1)))
    as ([] & k2 & E2 & H2).
  revert H2. kproj. rewrite Hinum. fold n. rewrite Ev. fold jp1. set (jp' := set_i_valid 1 _). intros H2.
  exists k2, jp'. rewrite (cst_icache _ _ _ _ (it_cst _ _ _ _ _ _ _ _ _ H2)). kproj.
  split_and!; [exact E2|apply list_lookup_insert_eq; by eapply lookup_lt_Some|exact Hsame|done|done|].
  intros j' Hne. by rewrite list_lookup_insert_ne.
Qed.

(** ** A concrete file system

    Ten blocks: boot block, super block, four blocks of log from 2 on, a block
    of inodes, the bitmap in block 7, which marks the blocks below 8, and two
    free blocks; nothing cached and one operation running. *)

Lemma in_txn_boot pid st sz room D k :
  booted pid st sz D k → disk_ok st sz D → hdr_n st D = 0%nat → lg_n (k_log k) = 0 →
  1 ≤ lg_outstanding (k_log k) → 0 ≤ room < Z.of_nat sz → in_txn pid st sz ∅ room D ∅ k k.
Proof.
  intros Hb Hd H0 Hn Ho Hr. pose proof (dk_n _ _ _ Hd). split; [by eapply booted_cst| |done|lia|lia].
  split; [apply Hb|done|done|lia|rewrite Hn; simpl; lia|rewrite Hn; simpl; lia|].
  intros b. rewrite Hn, lookup_empty. split; [by intros []|]. simpl. intros (i & Hi & _). lia.
Qed.

Definition demo_sb : superblock := Superblock 10 2 8 4 2 6 7.
Definition demo_fs_disk : list (list Z) :=
  let zero := replicate 512 0 in
  let super := ([10; 2; 8; 4; 2; 6; 7] ≫= bytes32) ++ replicate 484 0 in
  [zero; super; zero; zero; zero; zero; zero; 255 :: replicate 511 0; zero; zero].
Definition demo_inode (ref valid : Z) : inode :=
  Inode 1 3 ref sleeplock0 valid 2 0 0 1 700 [8; 9; 0; 0; 0; 0; 0; 0; 0; 0; 0; 0; 0].
Definition demo_fs : kernel :=
  set_k_icache (demo_inode 1 1 :: Inode 1 3 1 sleeplock0 0 0 0 0 0 0 (replicate 13 0) :: replicate 48 inode0)
    (set_k_sb demo_sb (set_k_log (Log 2 4 1 0 1 0 (replicate 30 0)) (set_k_disk demo_fs_disk demo_kernel))).

Lemma demo_fs_booted : booted 1 2 4 demo_fs_disk demo_fs.
Proof. split; [by apply (quiet_ext 1 demo_kernel), demo_kernel_quiet|done..]. Qed.
Lemma demo_fs_disk_ok : disk_ok 2 4 demo_fs_disk ∧ hdr_n 2 demo_fs_disk = 0%nat.
Proof.
  assert (hdr_n 2 demo_fs_disk = 0%nat) as E by (by vm_compute). split; [|done].
  split; rewrite ?E; try lia; first [reflexivity | vm_compute; lia].
Qed.
Lemma demo_fs_txn : in_txn 1 2 4 ∅ 3 demo_fs_disk ∅ demo_fs demo_fs.
Proof.
  apply in_txn_boot; [exact demo_fs_booted|apply demo_fs_disk_ok|apply demo_fs_disk_ok|done|simpl; lia|lia].
Qed.

Lemma demo_fs_bitmap : bitmap_ok 2 4 demo_fs_disk ∅ demo_sb.
Proof.
  assert (∀ b, 0 ≤ b < 10 → bmap_block demo_sb b = 7%nat) as E.
  { intros b Hb. unfold bmap_block. simpl. rewrite Z.div_small by lia. done. }
  split; simpl sb_size; simpl sb_bmapstart.
  - change (length demo_fs_disk) with 10%nat. lia.
  - lia.
  - intros b Hb. rewrite E by done. split; [|by vm_compute]. split; [simpl; lia|lia].
  - intros b Hb. rewrite E by done. split; [lia|by vm_compute].
  - intros b Hb Hf. assert (b = 8 ∨ b = 9) as [->| ->].
    { unfold used in Hf. rewrite E, Z.mod_small in Hf by lia.
      assert (b = 0 ∨ b = 1 ∨ b = 2 ∨ b = 3 ∨ b = 4 ∨ b = 5 ∨ b = 6 ∨ b = 7 ∨ b = 8 ∨ b = 9) as Hc by lia.
      destruct Hc as [->|[->|[->|[->|[->|[->|[->|[->|[->| ->]]]]]]]]]; try (by vm_compute in Hf); lia. }
    + split; [simpl; lia|lia].
    + split; [simpl; lia|lia].
Qed.

Lemma balloc_first_free_witness : ∃ k', balloc 1 [] demo_fs = Ok 8 k' [].
Proof.
  destruct (balloc_first_free 1 2 4 3 demo_fs_disk ∅ demo_fs demo_fs [] demo_fs_txn demo_fs_bitmap ltac:(lia))
    as (r & k' & P' & g & E & Hba & _).
  - exists 9. split; [simpl; lia|by vm_compute].
  - assert (r = 8) as ->; [clear E|exists k'; exact E].
    pose proof (ba_range _ _ _ _ _ Hba) as Hr. pose proof (ba_was_free _ _ _ _ _ Hba) as Hf.
    destruct (Z.lt_trichotomy r 8) as [Hlt|[->|Hgt]]; [exfalso|done|exfalso].
    + destruct (bm_free _ _ _ _ _ demo_fs_bitmap r ltac:(simpl in *; lia) Hf) as [_ Hn].
      unfold used, bmap_block in Hf. simpl in Hf. rewrite Z.div_small, Z.mod_small in Hf by lia.
      assert (r = 0 ∨ r = 1 ∨ r = 2 ∨ r = 3 ∨ r = 4 ∨ r = 5 ∨ r = 6 ∨ r = 7) as Hc by lia.
      destruct Hc as [->|[->|[->|[->|[->|[->|[->| ->]]]]]]]; by vm_compute in Hf.
    + pose proof (ba_first _ _ _ _ _ Hba 8 ltac:(lia)) as H8. by vm_compute in H8.
Defined.

Lemma bfree_clears_witness :
  (∃ k', bfree 1 5 [] demo_fs = Ok tt k' []) ∧ (∃ k', bfree 1 8 [] demo_fs = Panic "freeing free block" k').
Proof.
  assert (sb_of_bytes (lview demo_fs_disk ∅ 1) = demo_sb) as E by (by vm_compute).
  split.
  - pose proof (bfree_clears 1 2 4 3 demo_fs_disk ∅ demo_fs demo_fs [] 5 demo_fs_txn) as H.
    rewrite E in H. destruct (H demo_fs_bitmap ltac:(split; simpl; lia) ltac:(lia) ltac:(simpl; lia))
      as (k' & P' & g & H1 & _). exists k'. exact H1.
  - pose proof (bfree_clears 1 2 4 3 demo_fs_disk ∅ demo_fs demo_fs [] 8 demo_fs_txn) as H.
    rewrite E in H. exact (H demo_fs_bitmap ltac:(split; simpl; lia) ltac:(lia) ltac:(simpl; lia)).
Defined.

Lemma iupdate_ilock_witness :
  ∃ k' jp', (iupdate 0 ;;; ilock (Some 1%nat))%K [] demo_fs = Ok tt k' [] ∧
            k_icache k' !! 1%nat = Some jp' ∧ i_size jp' = 700.
Proof.
  destruct (iupdate_ilock 1 2 4 3 demo_fs_disk ∅ demo_fs demo_fs [] 0 1 (demo_inode 1 1)
    (Inode 1 3 1 sleeplock0 0 0 0 0 0 0 (replicate 13 0)) demo_fs_txn ltac:(lia) eq_refl eq_refl
    ltac:(split; simpl; try lia; split; [done|repeat constructor; lia]) ltac:(done) eq_refl eq_refl eq_refl
    ltac:(simpl; lia) eq_refl eq_refl ltac:(rewrite NINODE_eq; lia) ltac:(vm_compute; lia) ltac:(by vm_compute))
    as (k' & jp' & H1 & H2 & (_ & _ & _ & _ & Hs & _) & _).
  exists k', jp'. split; [exact H1|]. split; [exact H2|exact Hs].
Defined.
