(* ===== verification/Contents.v ===== *)
(** * File contents

    Theorems on [bmap], [readi] and [writei] of [fs.c].  A file is an inode and the
    blocks its pointers name; [fbyte] is the byte a reader sees at an offset.  Inside
    a transaction writei changes exactly the bytes it is given, allocates the blocks
    that are missing, and touches no block of another file; readi returns the bytes.
    The log space of a write is counted too: a block takes a place in the log once,
    however often it is written in the transaction. *)

From S2P Require Import Prelude Defs Spinlock Kernel Sched Kalloc Vm Sleeplock Bytes Bio Log Crash Cprintf Fs Blocks.
Local Open Scope kernel_scope.

(** ** The pointers of an inode

    Pointers 0 to 11 are the direct ones, 12 is the indirect block, and from 13 on
    they are the entries of the indirect block. *)
Section Files.
Context (st sz : nat) (D : list (list Z)) (sb : superblock).
Implicit Types (P : gmap nat (list Z)) (ip jp : inode) (s : nat).

Definition slot P ip s : Z :=
  if (s <=? 12)%nat then addr_at s ip
  else if addr_at 12 ip =? 0 then 0
  else get32 (lview D P (Z.to_nat (addr_at 12 ip))) (4 * (Z.of_nat s - 13)).

(** The pointer of block [bn] of the file. *)
Definition slot_of (bn : Z) : nat := if bn <? 12 then Z.to_nat bn else Z.to_nat (bn + 1).

Definition fblock P ip (bn : Z) : list Z :=
  let b := slot P ip (slot_of bn) in if b =? 0 then replicate 512 0 else lview D P (Z.to_nat b).
Definition fbyte P ip (x : Z) : Z := byte_at (fblock P ip (x / 512)) (x `mod` 512).

(** A block in use that is not part of the bitmap. *)
Record kept P (b : Z) : Prop := {
  kp_range : 0 < b < sb_size sb;
  kp_used : used D P sb b = true;
  kp_block : fs_block st sz D (Z.to_nat b);
  kp_len : length (lview D P (Z.to_nat b)) = 512%nat;
  kp_bitmap b' : 0 ≤ b' < sb_size sb → bmap_block sb b' ≠ Z.to_nat b
}.

Record fs_ok P : Prop := {
  fk_bitmap : bitmap_ok st sz D P sb;
  fk_boot : used D P sb 0 = true;
  fk_size : 0 < sb_size sb;
  fk_disk : Z.of_nat (length D) < 2147483648
}.

(** The pointers of a file name different blocks, none of them that of the inode. *)
Record file_ok P ip : Prop := {
  fo_addrs : length (i_addrs ip) = 13%nat;
  fo_kept s : (s < 141)%nat → slot P ip s ≠ 0 → kept P (slot P ip s);
  fo_inj s s' : (s < 141)%nat → (s' < 141)%nat → slot P ip s ≠ 0 → slot P ip s = slot P ip s' → s = s';
  fo_inode : kept P (Z.of_nat (inode_block sb (i_inum ip)));
  fo_apart s : (s < 141)%nat → slot P ip s ≠ Z.of_nat (inode_block sb (i_inum ip))
}.

(** How a file may change: it keeps its blocks, what it gets was free, and the
    blocks in use that are not its own stay as they are. *)
Record grown P ip P' ip' : Prop := {
  gw_fs : fs_ok P';
  gw_file : file_ok P' ip';
  gw_ip : ip' = set_i_addrs (i_addrs ip') ip;
  gw_used b : 0 ≤ b < sb_size sb → used D P sb b = true → used D P' sb b = true;
  gw_slot s : (s < 141)%nat → slot P ip s ≠ 0 → slot P' ip' s = slot P ip s;
  gw_new s : (s < 141)%nat → slot P ip s = 0 → slot P' ip' s ≠ 0 → used D P sb (slot P' ip' s) = false;
  gw_other b : kept P b → (∀ s, (s < 141)%nat → slot P ip s ≠ b) → lview D P' (Z.to_nat b) = lview D P (Z.to_nat b)
}.

Lemma slot_of_lt bn : 0 ≤ bn < 140 → (slot_of bn < 141)%nat ∧ slot_of bn ≠ 12%nat.
Proof. unfold slot_of. case_match; lia. Qed.
Lemma slot_of_inj bn bn' : 0 ≤ bn → 0 ≤ bn' → slot_of bn = slot_of bn' → bn = bn'.
Proof. unfold slot_of. do 2 case_match; lia. Qed.

Lemma slot_low P ip s : (s ≤ 12)%nat → slot P ip s = addr_at s ip.
Proof. intros. unfold slot. by rewrite (proj2 (Nat.leb_le _ _)). Qed.
Lemma slot_high P ip s :
  (12 < s)%nat → addr_at 12 ip ≠ 0 →
  slot P ip s = get32 (lview D P (Z.to_nat (addr_at 12 ip))) (4 * (Z.of_nat s - 13)).
Proof. intros. unfold slot. by rewrite (proj2 (Nat.leb_gt _ _)), (proj2 (Z.eqb_neq _ _)). Qed.
Lemma slot_none P ip s : (12 < s)%nat → addr_at 12 ip = 0 → slot P ip s = 0.
Proof. intros ? E. unfold slot. by rewrite (proj2 (Nat.leb_gt _ _)), E. Qed.

(** Pointers depend on the addresses and on the indirect block. *)
Lemma slot_ext P P' ip ip' s :
  i_addrs ip' = i_addrs ip →
  (addr_at 12 ip ≠ 0 → lview D P' (Z.to_nat (addr_at 12 ip)) = lview D P (Z.to_nat (addr_at 12 ip))) →
  slot P' ip' s = slot P ip s.
Proof.
  intros E Hl. unfold slot, addr_at in *. rewrite E. repeat case_match; try done. by rewrite Hl by lia.
Qed.

Lemma kept_ext P P' b :
  kept P b → used D P' sb b = true → lview D P' (Z.to_nat b) = lview D P (Z.to_nat b) → kept P' b.
Proof. intros [K1 K2 K3 K4 K5] Hu E. split; [done|done|done|by rewrite E|done]. Qed.

Lemma grown_kept P ip P' ip' b :
  grown P ip P' ip' → kept P b → (∀ s, (s < 141)%nat → slot P ip s ≠ b) → kept P' b.
Proof.
  intros G K Hs. eapply kept_ext; [exact K| |by eapply gw_other].
  eapply gw_used; [exact G| |apply K]. pose proof (kp_range _ _ K). lia.
Qed.

Lemma grown_not_slot P ip P' ip' b :
  grown P ip P' ip' → kept P b → (∀ s, (s < 141)%nat → slot P ip s ≠ b) → ∀ s, (s < 141)%nat → slot P' ip' s ≠ b.
Proof.
  intros G K Hs s Hl E. destruct (decide (slot P ip s = 0)) as [E0|E0].
  - pose proof (kp_range _ _ K). pose proof (gw_new _ _ _ _ G s Hl E0 ltac:(lia)) as Hf. rewrite E, (kp_used _ _ K) in Hf. done.
  - rewrite (gw_slot _ _ _ _ G s Hl E0) in E. by apply (Hs s).
Qed.

Lemma grown_refl P ip : fs_ok P → file_ok P ip → grown P ip P ip.
Proof. intros F K. split; [done|done|by destruct ip|done|done|congruence|done]. Qed.

Lemma grown_trans P ip P1 ip1 P2 ip2 : grown P ip P1 ip1 → grown P1 ip1 P2 ip2 → grown P ip P2 ip2.
Proof.
  intros G1 G2. split; [apply G2|apply G2| | | | |].
  - rewrite (gw_ip _ _ _ _ G2), (gw_ip _ _ _ _ G1). by destruct ip.
  - intros b Hb Hu. by apply (gw_used _ _ _ _ G2), (gw_used _ _ _ _ G1).
  - intros s Hs H0. pose proof (gw_slot _ _ _ _ G1 s Hs H0) as E.
    rewrite (gw_slot _ _ _ _ G2 s Hs); [done|by rewrite E].
  - intros s Hs H0 Hn. destruct (decide (slot P1 ip1 s = 0)) as [E|E].
    + pose proof (gw_new _ _ _ _ G2 s Hs E Hn) as Hf.
      pose proof (kp_range _ _ (fo_kept _ _ (gw_file _ _ _ _ G2) s Hs Hn)).
      destruct (used D P sb (slot P2 ip2 s)) eqn:Hu; [|done].
      apply (gw_used _ _ _ _ G1) in Hu; [congruence|lia].
    + rewrite (gw_slot _ _ _ _ G2 s Hs E). by apply (gw_new _ _ _ _ G1).
  - intros b K Hb. rewrite (gw_other _ _ _ _ G2), (gw_other _ _ _ _ G1); try done.
    + by eapply grown_kept.
    + by eapply grown_not_slot.
Qed.

(** A file reads as before when its blocks are the same. *)
Lemma fblock_stays P P' ip :
  (∀ s, (s < 141)%nat → slot P ip s ≠ 0 → lview D P' (Z.to_nat (slot P ip s)) = lview D P (Z.to_nat (slot P ip s))) →
  ∀ bn, 0 ≤ bn < 140 → fblock P' ip bn = fblock P ip bn.
Proof.
  intros Hl bn Hbn. destruct (slot_of_lt bn Hbn) as [Hs _].
  unfold fblock. assert (slot P' ip (slot_of bn) = slot P ip (slot_of bn)) as ->.
  { apply slot_ext; [done|]. intros Ha. rewrite <- (slot_low P ip 12) in Ha |- * by lia. apply Hl; [lia|done]. }
  case_match; [done|]. apply Hl; [done|lia].
Qed.

(** ** Blocks that change *)

(** Storing into a block that is not part of the bitmap. *)
Section Store.
Context (P : gmap nat (list Z)) (b : Z) (d : list Z).
Context (F : fs_ok P) (K : kept P b) (Hd : length d = 512%nat).
Local Notation P' := (<[Z.to_nat b := d]> P).

Lemma store_used b' : 0 ≤ b' < sb_size sb → used D P' sb b' = used D P sb b'.
Proof.
  intros Hb. unfold used. rewrite lview_insert, decide_False; [done|]. by apply (kp_bitmap _ _ K).
Qed.
Lemma store_other b' : 0 ≤ b' → b' ≠ b → lview D P' (Z.to_nat b') = lview D P (Z.to_nat b').
Proof. intros ? ?. pose proof (kp_range _ _ K). rewrite lview_insert, decide_False; [done|lia]. Qed.
Lemma store_same : lview D P' (Z.to_nat b) = d.
Proof. by rewrite lview_insert, decide_True. Qed.

Lemma store_kept b' : kept P b' → kept P' b'.
Proof.
  intros [K1 K2 K3 K4 K5]. split; [done| |done| |done].
  - by rewrite store_used by lia.
  - destruct (decide (b' = b)) as [->|]; [by rewrite store_same|by rewrite store_other by lia].
Qed.
Lemma store_fs : fs_ok P'.
Proof.
  destruct F as [[B1 B2 B3 B4 B5] Hb Hs Hn]. split; [|by rewrite store_used by lia|done|done]. split; [done|done| | |].
  - intros b' Hb'. destruct (B3 b' Hb') as [? Hl]. split; [done|].
    rewrite lview_insert, decide_False; [done|by apply (kp_bitmap _ _ K)].
  - intros b' Hb'. destruct (B4 b' Hb') as [? Hu]. split; [done|]. by rewrite store_used by lia.
  - intros b' Hb' Hu. rewrite store_used in Hu by lia. by apply B5.
Qed.
End Store.

(** The block that balloc returns. *)
Section Alloc.
Context (P : gmap nat (list Z)) (r : Z) (F : fs_ok P) (A : balloced D P (balloc_pins D P sb r) sb r).
Local Notation P' := (balloc_pins D P sb r).

Lemma alloc_nonzero : r ≠ 0.
Proof. intros ->. pose proof (ba_was_free _ _ _ _ _ A). rewrite (fk_boot _ F) in *. done. Qed.
Lemma alloc_not_bitmap b : 0 ≤ b < sb_size sb → bmap_block sb b ≠ Z.to_nat r.
Proof.
  intros Hb E. pose proof (ba_range _ _ _ _ _ A). pose proof (ba_was_free _ _ _ _ _ A).
  destruct (bm_self _ _ _ _ _ (fk_bitmap _ F) b Hb) as [_ Hu]. rewrite E, Z2Nat.id in Hu by lia. congruence.
Qed.
Lemma alloc_used b : 0 ≤ b < sb_size sb → used D P sb b = true → used D P' sb b = true.
Proof. intros Hb Hu. rewrite (ba_used _ _ _ _ _ A), Hu by done. apply orb_true_r. Qed.

Lemma alloc_fs : fs_ok P'.
Proof.
  destruct F as [[B1 B2 B3 B4 B5] Hb Hs Hn]. pose proof (ba_range _ _ _ _ _ A).
  split; [|apply alloc_used; [lia|done]|done|done]. split; [done|done| | |].
  - intros b Hb'. destruct (B3 b Hb') as [? Hl]. split; [done|]. unfold balloc_pins.
    rewrite lview_insert, decide_False by (by apply alloc_not_bitmap). rewrite lview_insert. case_decide as E; [|done].
    unfold set_bit. rewrite length_set_byte. by rewrite <- E.
  - intros b Hb'. destruct (B4 b Hb') as [? Hu]. split; [done|]. apply alloc_used; [lia|done].
  - intros b Hb' Hu. rewrite (ba_used _ _ _ _ _ A) in Hu by done. apply orb_false_iff in Hu as [_ Hu]. by apply B5.
Qed.
Lemma alloc_new : kept P' r.
Proof.
  pose proof (ba_range _ _ _ _ _ A). pose proof alloc_nonzero. split; [lia| | | |apply alloc_not_bitmap].
  - by rewrite (ba_used _ _ _ _ _ A), Z.eqb_refl.
  - apply (bm_free _ _ _ _ _ (fk_bitmap _ F)); [done|apply A].
  - rewrite (ba_zero _ _ _ _ _ A). apply length_replicate.
Qed.
Lemma alloc_old b : kept P b → b ≠ r ∧ lview D P' (Z.to_nat b) = lview D P (Z.to_nat b).
Proof.
  intros K. pose proof (ba_range _ _ _ _ _ A). pose proof (kp_range _ _ K).
  assert (b ≠ r). { intros ->. pose proof (ba_was_free _ _ _ _ _ A). rewrite (kp_used _ _ K) in *. done. }
  split; [done|]. apply (ba_other _ _ _ _ _ A); [lia|]. intros E. by apply (kp_bitmap _ _ K r).
Qed.
Lemma alloc_kept b : kept P b → kept P' b.
Proof.
  intros K. eapply kept_ext; [exact K| |by apply alloc_old]. pose proof (kp_range _ _ K). apply alloc_used; [lia|apply K].
Qed.
End Alloc.

(** ** Giving a file a block *)

Section Link.
Context (P : gmap nat (list Z)) (ip : inode) (r : Z) (s : nat).
Context (F : fs_ok P) (A : balloced D P (balloc_pins D P sb r) sb r) (K : file_ok P ip).
Context (Hs : (s < 141)%nat) (H0 : slot P ip s = 0).
Local Notation P' := (balloc_pins D P sb r).

(** Pointer [s] of the file now is the new block [r], and its contents are the same. *)
Record linked P2 ip2 : Prop := {
  lk_grown : grown P ip P2 ip2;
  lk_same bn : 0 ≤ bn < 140 → fblock P2 ip2 bn = fblock P ip bn;
  lk_slot s' : (s' < 141)%nat → slot P2 ip2 s' = if decide (s' = s) then r else slot P ip s';
  lk_used b : 0 ≤ b < sb_size sb → used D P2 sb b = (b =? r) || used D P sb b
}.

(** [P2] and [ip2] are what [P'] and [ip] become when pointer [s] is set to [r]:
    of the old blocks only the indirect one may change. *)
Lemma linked_intro P2 ip2 :
  length (i_addrs ip2) = 13%nat → ip2 = set_i_addrs (i_addrs ip2) ip → fs_ok P2 →
  (∀ b, kept P' b → kept P2 b) → (∀ b, 0 ≤ b < sb_size sb → used D P2 sb b = used D P' sb b) →
  (∀ s', (s' < 141)%nat → slot P2 ip2 s' = if decide (s' = s) then r else slot P ip s') →
  (∀ b, kept P' b → b ≠ addr_at 12 ip → lview D P2 (Z.to_nat b) = lview D P' (Z.to_nat b)) →
  linked P2 ip2.
Proof.
  intros Ha Hip F2 Hk Hu Hsl Hl.
  assert (∀ b, kept P b → kept P2 b) as Hkk by (intros; by apply Hk, alloc_kept).
  assert (i_inum ip2 = i_inum ip) as Ei by (by rewrite Hip).
  assert (∀ s', (s' < 141)%nat → slot P ip s' ≠ r) as Hr.
  { intros s' Hs' E. pose proof (alloc_nonzero _ _ F A).
    destruct (alloc_old _ _ A (slot P ip s')) as [? _]; [apply (fo_kept _ _ K); [done|congruence]|done]. }
  split; [split; [exact F2| |exact Hip| | | |]| |exact Hsl|intros; rewrite Hu by done; by apply (ba_used _ _ _ _ _ A)].
  - split; [done| | | |].
    + intros s' Hs'. rewrite Hsl by done. case_decide; [intros _; by apply Hk, alloc_new|intros; by apply Hkk, (fo_kept _ _ K)].
    + intros s1 s2 H1 H2. rewrite !Hsl by done. do 2 case_decide; subst; try done.
      * intros _ E. by destruct (Hr s2).
      * intros _ E. by destruct (Hr s1).
      * by apply (fo_inj _ _ K).
    + rewrite Ei. apply Hkk, K.
    + intros s' Hs'. rewrite Ei, Hsl by done. case_decide; [|by apply (fo_apart _ _ K)].
      intros E. destruct (alloc_old _ _ A _ (fo_inode _ _ K)). congruence.
  - intros b Hb Hub. rewrite Hu by done. by apply alloc_used.
  - intros s' Hs' Hne. rewrite Hsl by done. rewrite decide_False; [done|]. intros ->. done.
  - intros s' Hs' E. rewrite Hsl by done. case_decide; [intros _; apply A|by rewrite E].
  - intros b Kb Hb. destruct (alloc_old _ _ A b Kb) as [_ E]. rewrite <- E. apply Hl; [by apply alloc_kept|].
    intros Eb. apply (Hb 12%nat); [lia|]. by rewrite slot_low.
  - intros bn Hbn. destruct (slot_of_lt bn Hbn) as [Hlt H12]. unfold fblock. rewrite Hsl by done. case_decide as E.
    + rewrite E, H0. rewrite (proj2 (Z.eqb_neq _ _)) by (by apply (alloc_nonzero P)). simpl.
      rewrite Hl, (ba_zero _ _ _ _ _ A); [done|by apply alloc_new|]. rewrite <- (slot_low P ip 12) by lia.
      intros Er. by apply (Hr 12%nat); [lia|].
    + destruct (Z.eqb_spec (slot P ip (slot_of bn)) 0) as [|Hne]; [done|].
      pose proof (fo_kept _ _ K _ Hlt Hne) as Kb. destruct (alloc_old _ _ A _ Kb) as [_ El]. rewrite <- El.
      apply Hl; [by apply alloc_kept|]. rewrite <- (slot_low P ip 12) by lia. intros Eq.
      apply H12, (fo_inj _ _ K _ _ Hlt); [lia|done|done].
Qed.

Lemma get32_zero off : 0 ≤ off → get32 (replicate 512 0) off = 0.
Proof.
  intros. unfold get32, byte_at. assert (∀ j, nth j (replicate 512 0) 0 = 0) as E.
  { intros j. rewrite nth_lookup. destruct (replicate 512 0 !! j) eqn:E; [|done]. by apply lookup_replicate in E as [-> _]. }
  by rewrite !E.
Qed.

(** The block becomes a direct block, or the indirect one. *)
Lemma linked_addr : (s ≤ 12)%nat → linked P' (set_addr s r ip).
Proof.
  intros Hlow. pose proof (fo_addrs _ _ K) as Hlen.
  assert (∀ s', addr_at s' (set_addr s r ip) = if decide (s' = s) then r else addr_at s' ip) as Ha.
  { intros s'. unfold addr_at, set_addr. simpl. rewrite !nth_lookup. case_decide.
    - subst. by rewrite list_lookup_insert_eq by lia.
    - by rewrite list_lookup_insert_ne. }
  apply linked_intro; try done.
  - simpl. by rewrite length_insert.
  - by eapply alloc_fs.
  - intros s' Hs'. destruct (decide (s' ≤ 12)%nat) as [Hle|Hgt].
    { rewrite !slot_low, Ha by done. done. }
    rewrite (decide_False (P := s' = s)) by lia. destruct (decide (s = 12%nat)) as [->|Hne].
    + rewrite slot_low in H0 by lia. rewrite (slot_none P) by (done || lia).
      rewrite slot_high; [|lia|rewrite Ha, decide_True by done; by eapply alloc_nonzero].
      rewrite Ha, decide_True, (ba_zero _ _ _ _ _ A) by done. apply get32_zero. lia.
    + destruct (decide (addr_at 12 ip = 0)) as [E|E].
      * rewrite !slot_none; [done|lia|done|lia|]. rewrite Ha, decide_False by done. done.
      * rewrite !slot_high; [|lia|done|lia|by rewrite Ha, decide_False by done].
        rewrite Ha, decide_False by done. destruct (alloc_old _ _ A (addr_at 12 ip)) as [_ ->]; [|done].
        rewrite <- (slot_low P ip 12) in E |- * by lia. by apply (fo_kept _ _ K); [lia|].
Qed.

(** The block becomes an entry of the indirect block. *)
Lemma linked_entry :
  (12 < s)%nat → addr_at 12 ip ≠ 0 →
  let ind := Z.to_nat (addr_at 12 ip) in
  let P2 := <[ind := put32 (lview D P' ind) (4 * (Z.of_nat s - 13)) r]> P' in
  linked P2 ip.
Proof.
  intros Hhigh Hind ind P2. pose proof (ba_range _ _ _ _ _ A) as Hr.
  assert (kept P (addr_at 12 ip)) as Kind.
  { rewrite <- (slot_low P ip 12) in Hind |- * by lia. by apply (fo_kept _ _ K); [lia|]. }
  pose proof (alloc_kept _ _ A _ Kind) as Kind'. pose proof (kp_len _ _ Kind') as Hlen. fold ind in Hlen.
  destruct (alloc_old _ _ A _ Kind) as [_ El]. fold ind in El.
  pose proof (alloc_fs _ _ F A) as F'.
  assert (length (put32 (lview D P' ind) (4 * (Z.of_nat s - 13)) r) = 512%nat) as Hput.
  { rewrite length_put32; [done|lia|rewrite Hlen; lia]. }
  assert (∀ s', (s' < 141)%nat → slot P2 ip s' = if decide (s' = s) then r else slot P ip s') as Hsl.
  { intros s' Hs'. destruct (decide (s' ≤ 12)%nat) as [Hle|Hgt].
    - rewrite decide_False by lia. by rewrite !slot_low.
    - rewrite (slot_high P2), (slot_high P) by (done || lia). fold ind. unfold P2. rewrite lview_insert, decide_True by done.
      case_decide as E.
      + subst. rewrite get32_put32; [|lia|rewrite Hlen; lia]. pose proof (bm_size _ _ _ _ _ (fk_bitmap _ F)).
        pose proof (fk_disk _ F). apply u32_small. lia.
      + rewrite get32_put32_other, El; [done|lia|rewrite Hlen; lia|lia|lia]. }
  apply linked_intro; try done.
  - apply K.
  - by destruct ip.
  - by apply store_fs.
  - intros b Kb. by apply store_kept.
  - intros b Hb. by apply store_used.
  - intros b Kb Hne. pose proof (kp_range _ _ Kb). apply store_other; [exact Kind'|done|lia|done].
Qed.
End Link.

(** Storing into a data block of the file. *)
Lemma grown_write P ip bn d :
  fs_ok P → file_ok P ip → 0 ≤ bn < 140 → slot P ip (slot_of bn) ≠ 0 → length d = 512%nat →
  let P' := <[Z.to_nat (slot P ip (slot_of bn)) := d]> P in
  grown P ip P' ip ∧ (∀ s, slot P' ip s = slot P ip s) ∧
  ∀ bn', 0 ≤ bn' < 140 → fblock P' ip bn' = if decide (bn' = bn) then d else fblock P ip bn'.
Proof.
  intros F K Hbn H0 Hd P'. destruct (slot_of_lt bn Hbn) as [Hlt H12].
  pose proof (fo_kept _ _ K _ Hlt H0) as Kb.
  assert (∀ s, (s < 141)%nat → s ≠ slot_of bn → slot P ip s ≠ 0 →
    lview D P' (Z.to_nat (slot P ip s)) = lview D P (Z.to_nat (slot P ip s))) as Hl.
  { intros s Hs Hne Hz. pose proof (kp_range _ _ (fo_kept _ _ K s Hs Hz)).
    apply store_other; [done|done|lia|]. intros E. apply Hne. by apply (fo_inj _ _ K). }
  assert (∀ s, slot P' ip s = slot P ip s) as Hsl.
  { intros s. apply slot_ext; [done|]. rewrite <- (slot_low P ip 12) by lia. apply Hl; [lia|done]. }
  split_and!; [|done|].
  - split; [by apply store_fs| |by destruct ip|intros; unfold P'; by rewrite store_used| |intros s _; rewrite Hsl; congruence|].
    + split; [apply K| | | |].
      * intros s Hs. rewrite Hsl. intros Hz. by apply store_kept, (fo_kept _ _ K).
      * intros s s' Hs Hs'. rewrite !Hsl. by apply (fo_inj _ _ K).
      * apply store_kept; [done|done|apply K].
      * intros s Hs. rewrite Hsl. by apply (fo_apart _ _ K).
    + intros s _ _. apply Hsl.
    + intros b Kb' Hne. pose proof (kp_range _ _ Kb'). apply store_other; [done|done|lia|]. intros E. by apply (Hne (slot_of bn)).
  - intros bn' Hbn'. unfold fblock. rewrite Hsl. case_decide as E.
    + subst. rewrite (proj2 (Z.eqb_neq _ _)) by done. unfold P'. by rewrite store_same.
    + case_match; [done|]. destruct (slot_of_lt bn' Hbn') as [? _]. apply Hl; [done| |lia].
      intros Es. apply E, slot_of_inj; [lia|lia|done].
Qed.

(** ** Free blocks

    [space] says that there are as many free blocks as writing the blocks [b0] to
    [b1 - 1] of the file can need. *)

Definition free_blocks P : gset Z := filter (λ b, used D P sb b = false) (list_to_set (seqZ 0 (sb_size sb))).

(** Pointer [s] is used for one of these blocks. *)
Definition touched (b0 b1 : Z) s : bool :=
  if (s =? 12)%nat then (12 <? b1) && (b0 <? b1)
  else let bn := if (s <? 12)%nat then Z.of_nat s else Z.of_nat s - 1 in (b0 <=? bn) && (bn <? b1).

Definition missing P ip (b0 b1 : Z) : gset nat :=
  filter (λ s, slot P ip s = 0 ∧ touched b0 b1 s = true) (set_seq 0 141).
Definition space P ip (b0 b1 : Z) : Prop := (size (missing P ip b0 b1) ≤ size (free_blocks P))%nat.

Lemma elem_free P b : b ∈ free_blocks P ↔ 0 ≤ b < sb_size sb ∧ used D P sb b = false.
Proof. unfold free_blocks. rewrite elem_of_filter, elem_of_list_to_set, elem_of_seqZ. naive_solver lia. Qed.
Lemma elem_missing P ip b0 b1 s :
  s ∈ missing P ip b0 b1 ↔ (s < 141)%nat ∧ slot P ip s = 0 ∧ touched b0 b1 s = true.
Proof. unfold missing. rewrite elem_of_filter, elem_of_set_seq. naive_solver lia. Qed.

Lemma touched_slot b0 b1 bn : 0 ≤ bn → b0 ≤ bn < b1 → touched b0 b1 (slot_of bn) = true.
Proof.
  unfold touched, slot_of. intros. destruct (Z.ltb_spec bn 12).
  - rewrite (proj2 (Nat.eqb_neq _ _)), (proj2 (Nat.ltb_lt _ _)) by lia. cbv zeta. rewrite Z2Nat.id by lia. apply andb_true_intro. rewrite Z.leb_le, Z.ltb_lt. lia.
  - rewrite (proj2 (Nat.eqb_neq _ _)), (proj2 (Nat.ltb_ge _ _)) by lia. cbv zeta. rewrite Z2Nat.id by lia. apply andb_true_intro. rewrite Z.leb_le, Z.ltb_lt. lia.
Qed.
Lemma touched_indirect b0 b1 bn : 12 ≤ bn → b0 ≤ bn < b1 → touched b0 b1 12 = true.
Proof. unfold touched. intros. simpl. lia. Qed.
Lemma touched_next b0 b1 s : touched (b0 + 1) b1 s = true → touched b0 b1 s = true.
Proof. unfold touched. repeat case_match; lia. Qed.

Lemma space_next P ip b0 b1 : space P ip b0 b1 → space P ip (b0 + 1) b1.
Proof.
  unfold space. intros H. etrans; [|exact H]. apply subseteq_size. intros s.
  rewrite !elem_missing. intros (? & ? & ?). split_and!; [done..|by apply touched_next].
Qed.

Lemma space_some P ip b0 b1 s :
  space P ip b0 b1 → (s < 141)%nat → slot P ip s = 0 → touched b0 b1 s = true →
  ∃ b, 0 ≤ b < sb_size sb ∧ used D P sb b = false.
Proof.
  intros H Hs H0 Ht. destruct (decide (free_blocks P = ∅)) as [E|Hne].
  - exfalso. unfold space in H. rewrite E, size_empty in H.
    assert (s ∈ missing P ip b0 b1) as Hin by (by apply elem_missing).
    assert (size (missing P ip b0 b1) ≠ 0%nat); [|lia]. intros Es%size_empty_inv. by apply Es, not_elem_of_empty in Hin.
  - apply set_choose_L in Hne as [b Hb%elem_free]. by exists b.
Qed.

Lemma space_ext P ip P' ip' b0 b1 :
  space P ip b0 b1 → (∀ b, 0 ≤ b < sb_size sb → used D P' sb b = used D P sb b) →
  (∀ s, (s < 141)%nat → slot P' ip' s = slot P ip s) → space P' ip' b0 b1.
Proof.
  unfold space. intros H Hu Hs. replace (missing P' ip' b0 b1) with (missing P ip b0 b1).
  - replace (free_blocks P') with (free_blocks P); [done|]. apply set_eq. intros b. rewrite !elem_free. split; intros [? E]; (split; [done|]); by rewrite Hu in *.
  - apply set_eq. intros s. rewrite !elem_missing. split; intros (Hlt & E & ?); split_and!; try done; by rewrite Hs in *.
Qed.

(** A missing block takes one free block. *)
Lemma space_linked P ip P' ip' b0 b1 s r :
  space P ip b0 b1 → (s < 141)%nat → slot P ip s = 0 → touched b0 b1 s = true → r ∈ free_blocks P → r ≠ 0 →
  linked P ip r s P' ip' → space P' ip' b0 b1.
Proof.
  unfold space. intros H Hs H0 Ht Hr Hrz [_ _ Hsl Hu].
  replace (missing P' ip' b0 b1) with (missing P ip b0 b1 ∖ {[s]}).
  - replace (free_blocks P') with (free_blocks P ∖ {[r]}).
    + rewrite !size_difference by (apply singleton_subseteq_l; first [done|by apply elem_missing]).
      rewrite !size_singleton. lia.
    + apply set_eq. intros b. rewrite elem_of_difference, elem_of_singleton, !elem_free.
      split; [intros [[? E] ?]; split; [done|]; rewrite Hu by done; by rewrite E, (proj2 (Z.eqb_neq _ _))|].
      intros [? E]. rewrite Hu in E by done. apply orb_false_iff in E as [E%Z.eqb_neq ?]. done.
  - apply set_eq. intros s'. rewrite elem_of_difference, elem_of_singleton, !elem_missing. split.
    + intros [(? & E & ?) ?]. split_and!; [done| |done]. by rewrite Hsl, decide_False.
    + intros (? & E & ?). rewrite Hsl in E by done. by case_decide.
Qed.

(** ** Space in the log

    The blocks that every write may change are the bitmap and the block of the
    inode; [budget] has a place in the log for each of them that is not logged yet,
    one for the indirect block, [r] more, and one to spare, which log_write wants. *)

Definition meta ip : gset nat :=
  {[inode_block sb (i_inum ip)]} ∪ list_to_set (bmap_block sb <$> seqZ 0 (sb_size sb)).
Definition ind_fresh P ip : Z := if addr_at 12 ip =? 0 then 1 else fresh P (Z.to_nat (addr_at 12 ip)).
Definition log_left P ip : Z := ind_fresh P ip + Z.of_nat (size (meta ip ∖ dom P)).
Definition budget P ip (r room : Z) : Prop := 1 + r + log_left P ip ≤ room.

Lemma bmap_meta ip b : 0 ≤ b < sb_size sb → bmap_block sb b ∈ meta ip.
Proof.
  intros Hb. unfold meta. apply elem_of_union_r, elem_of_list_to_set, list_elem_of_fmap.
  exists b. split; [done|]. apply elem_of_seqZ. lia.
Qed.

Lemma log_left_pos P ip : 0 ≤ log_left P ip.
Proof. unfold log_left, ind_fresh. pose proof (fresh_range P (Z.to_nat (addr_at 12 ip))). case_match; lia. Qed.

Lemma fresh_dom P n : fresh P n = if decide (n ∈ dom P) then 0 else 1.
Proof.
  unfold fresh. destruct (P !! n) eqn:E.
  - by rewrite decide_True by (by apply elem_of_dom_2 in E).
  - by rewrite decide_False by (by apply not_elem_of_dom).
Qed.
Lemma fresh_mono P n d m : fresh (<[n := d]> P) m ≤ fresh P m.
Proof. rewrite fresh_insert. case_decide; [|lia]. apply fresh_range. Qed.
Lemma ind_fresh_range P ip : 0 ≤ ind_fresh P ip ≤ 1.
Proof. unfold ind_fresh. case_match; [lia|apply fresh_range]. Qed.
Lemma ind_fresh_mono P ip n d : ind_fresh (<[n := d]> P) ip ≤ ind_fresh P ip.
Proof. unfold ind_fresh. case_match; [lia|apply fresh_mono]. Qed.

Lemma meta_left (X : gset nat) P n d :
  Z.of_nat (size (X ∖ dom (<[n := d]> P))) = Z.of_nat (size (X ∖ dom P)) - (if decide (n ∈ X) then fresh P n else 0).
Proof.
  rewrite dom_insert_L, fresh_dom. replace (X ∖ ({[n]} ∪ dom P)) with ((X ∖ dom P) ∖ {[n]}) by set_solver.
  case_decide; [case_decide|].
  - replace ((X ∖ dom P) ∖ {[n]}) with (X ∖ dom P) by set_solver. lia.
  - assert (n ∈ X ∖ dom P) as Hin by set_solver. rewrite size_difference by set_solver. rewrite size_singleton.
    assert (size (X ∖ dom P) ≠ 0%nat); [|lia]. intros Es%size_empty_inv. set_solver.
  - replace ((X ∖ dom P) ∖ {[n]}) with (X ∖ dom P) by set_solver. lia.
Qed.

(** Logging a block costs one of the [r], unless it has its own place. *)
Lemma budget_pay P ip n d r room :
  budget P ip (r + fresh P n) room → budget (<[n := d]> P) ip r (room - fresh P n).
Proof.
  unfold budget, log_left. intros H. rewrite meta_left. pose proof (ind_fresh_mono P ip n d). pose proof (fresh_range P n).
  case_decide; lia.
Qed.
Lemma budget_meta P ip n d r room :
  n ∈ meta ip → budget P ip r room → budget (<[n := d]> P) ip r (room - fresh P n).
Proof.
  unfold budget, log_left. intros Hn H. rewrite meta_left, decide_True by done. pose proof (ind_fresh_mono P ip n d). lia.
Qed.
Lemma budget_indirect P ip d r room :
  addr_at 12 ip ≠ 0 → let n := Z.to_nat (addr_at 12 ip) in
  budget P ip r room → budget (<[n := d]> P) ip r (room - fresh P n).
Proof.
  unfold budget, log_left, ind_fresh. intros Hn. rewrite (proj2 (Z.eqb_neq _ _)) by done.
  rewrite meta_left, fresh_insert, decide_True by done. pose proof (fresh_range P (Z.to_nat (addr_at 12 ip))).
  case_decide; lia.
Qed.

Lemma budget_alloc P ip b r room :
  0 ≤ b < sb_size sb → budget P ip r room → 1 ≤ r →
  budget (balloc_pins D P sb b) ip (r - 1) (room - balloc_cost P sb b).
Proof.
  intros Hb Hbu Hr. unfold balloc_pins, balloc_cost. set (P1 := <[bmap_block sb b := set_bit _ _]> P).
  assert (fresh P1 (Z.to_nat b) = fresh (<[bmap_block sb b := []]> P) (Z.to_nat b)) as E by (unfold P1; by rewrite !fresh_insert).
  rewrite <- E. rewrite Z.sub_add_distr. apply budget_pay. pose proof (fresh_range P1 (Z.to_nat b)).
  assert (budget P1 ip r (room - fresh P (bmap_block sb b))) as H1 by (by apply budget_meta; [apply bmap_meta|]).
  unfold budget in *. lia.
Qed.

(** The place for the indirect block pays for allocating it. *)
Lemma budget_alloc_indirect P ip b r room :
  0 ≤ b < sb_size sb → length (i_addrs ip) = 13%nat → addr_at 12 ip = 0 → b ≠ 0 → budget P ip r room →
  budget (balloc_pins D P sb b) (set_addr 12 b ip) r (room - balloc_cost P sb b).
Proof.
  intros Hb Hlen H12 Hb0 Hbu. unfold balloc_pins, balloc_cost. set (P1 := <[bmap_block sb b := set_bit _ _]> P).
  assert (fresh P1 (Z.to_nat b) = fresh (<[bmap_block sb b := []]> P) (Z.to_nat b)) as E by (unfold P1; by rewrite !fresh_insert).
  rewrite <- E. pose proof (fresh_range P1 (Z.to_nat b)).
  assert (budget P1 ip r (room - fresh P (bmap_block sb b))) as H1 by (by apply budget_meta; [apply bmap_meta|]).
  assert (addr_at 12 (set_addr 12 b ip) = b) as Ea.
  { unfold addr_at, set_addr. simpl. by rewrite nth_lookup, list_lookup_insert_eq by lia. }
  revert H1. unfold budget, log_left, ind_fresh. rewrite Ea, H12, (proj2 (Z.eqb_neq b 0) Hb0). simpl.
  rewrite meta_left, fresh_insert, decide_True by done. change (meta (set_addr 12 b ip)) with (meta ip).
  case_decide; lia.
Qed.
End Files.

(** ** Runs

    The inode of the file is entry [i] of the inode cache. *)
Section Runs.
Context (pid : Z) (st sz : nat) (D : list (list Z)) (i : nat) (k0 : kernel).
Context (Hi : (i < length (k_icache k0))%nat).
Local Notation sb := (k_sb k0).
Implicit Types (P : gmap nat (list Z)) (ip jp : inode) (s : nat) (H : gmap nat (nat * list Z)).

Definition with_inode ip (g : log_t) : kernel := set_k_icache (<[i := ip]> (k_icache k0)) (set_k_log g k0).

(** In a transaction with the buffers [H] in use, the inode being [ip]. *)
Definition wst H (room : Z) P ip (k : kernel) : Prop :=
  ∃ g, same_ops g (k_log k0) ∧ in_txn pid st sz H room D P (with_inode ip g) k.

Lemma with_inode_log ip g g' : set_k_log g' (with_inode ip g) = with_inode ip g'.
Proof. unfold with_inode. by destruct k0. Qed.
Lemma with_inode_icache ip ip' g : set_k_icache (<[i := ip']> (k_icache k0)) (with_inode ip g) = with_inode ip' g.
Proof. unfold with_inode. by destruct k0. Qed.

Lemma wst_frame H room P ip k : wst H room P ip k → ∃ g, cframe (with_inode ip g) k.
Proof. intros (g & _ & T). exists g. apply T. Qed.
Lemma wst_pos H room P ip k : wst H room P ip k → 0 ≤ room.
Proof. intros (g & _ & T). apply T. Qed.
Lemma wst_weaken H room room' P ip k : wst H room P ip k → 0 ≤ room' ≤ room → wst H room' P ip k.
Proof. intros (g & Hg & T) Hr. exists g. split; [done|]. by eapply in_txn_weaken. Qed.
Lemma wst_sb H room P ip k : wst H room P ip k → k_sb k = sb.
Proof. intros (g & _ & T). rewrite (cst_sb _ _ _ _ (it_cst _ _ _ _ _ _ _ _ _ T)). done. Qed.

Lemma wst_inode H room P ip k o : wst H room P ip k → rd_inode i o k = Ok ip k o.
Proof.
  intros (g & _ & T). apply rd_inode_eq. rewrite (cst_icache _ _ _ _ (it_cst _ _ _ _ _ _ _ _ _ T)).
  unfold with_inode. kproj. by apply list_lookup_insert_eq.
Qed.

Lemma wst_upd_inode H room P ip k o f :
  wst H room P ip k → ∃ k', upd_inode i f o k = Ok tt k' o ∧ k_power k' = k_power k ∧ wst H room P (f ip) k'.
Proof.
  intros (g & Hg & T). pose proof (cst_icache _ _ _ _ (it_cst _ _ _ _ _ _ _ _ _ T)) as E.
  set (I := <[i := f ip]> (k_icache k0)). exists (set_k_icache I k). split_and!; [|done|].
  - unfold upd_inode, modify. rewrite E. unfold with_inode. kproj.
    rewrite (list_alter_at _ _ _ ip) by (by apply list_lookup_insert_eq). by rewrite list_insert_insert_eq.
  - exists g. split; [done|]. rewrite <- (with_inode_icache ip). destruct T as [S T O R Hp]. split; [by apply cst_set_icache|done..].
Qed.

Lemma wst_bread H room P ip k o n C :
  wst H room P ip k → fs_block st sz D n → unheld H n → Z.of_nat (size H) ≤ room →
  cruns (bread 1 (Z.of_nat n)) o k (λ b k', H !! b = None ∧ wst (<[b := (n, lview D P n)]> H) room P ip k') C.
Proof.
  intros (g & Hg & T) Hn Hu Hs. eapply cruns_mono; [by eapply use_read| |done].
  intros b k' [Hb S]. split; [done|]. exists g. split; [done|]. by eapply in_txn_cst.
Qed.

Lemma wst_rd_buf {A} H room P ip k o b n d (f : buf → KM A) Q C :
  wst (<[b := (n, d)]> H) room P ip k →
  (∀ x, b_data x = d → cruns (f x) o k Q C) → cruns (bind (rd_buf b) f) o k Q C.
Proof.
  intros (g & _ & T) Hf. eapply rd_buf_spec; [apply T|apply lookup_insert_eq|]. by apply Hf.
Qed.

Lemma wst_store H room P ip k o b n d f C :
  wst (<[b := (n, d)]> H) room P ip k →
  cruns (upd_data b f) o k (λ _ k', wst (<[b := (n, f d)]> H) room P ip k') C.
Proof.
  intros (g & Hg & T). eapply cruns_mono; [eapply use_store; apply T| |done].
  intros [] k' S. exists g. split; [done|]. by eapply in_txn_cst.
Qed.

Lemma wst_release H room P ip k o b n C :
  wst (<[b := (n, lview D P n)]> H) room P ip k → H !! b = None → (n < length D)%nat →
  cruns (brelse b) o k (λ _ k', wst H room P ip k') C.
Proof.
  intros (g & Hg & T) Hb Hn. eapply cruns_mono; [eapply use_release; [apply T|done|done]| |done].
  intros [] k' S. exists g. split; [done|]. by eapply in_txn_cst.
Qed.

Lemma wst_log H room P ip k o b n d C :
  wst (<[b := (n, d)]> H) room P ip k → H !! b = None → 1 ≤ room → fs_block st sz D n →
  cruns (log_write b ;;; brelse b)%K o k (λ _ k', wst H (room - fresh P n) (<[n := d]> P) ip k') C.
Proof.
  intros (g & Hg & T) Hb Hr Hn. eapply cruns_mono; [eapply use_log; [apply T|done|apply T|apply T|apply T|done|done]| |done].
  intros [] k' (g' & Hg' & T'). exists g'. split; [unfold same_ops in *; simpl in *; intuition congruence|]. by rewrite with_inode_log in T'.
Qed.

Lemma wst_balloc H room P ip k o C :
  wst H room P ip k → fs_ok st sz D sb P → balloc_ready H room D P sb →
  (∃ b, 0 ≤ b < sb_size sb ∧ used D P sb b = false) →
  cruns (balloc 1) o k (λ r k', balloced D P (balloc_pins D P sb r) sb r ∧
    wst H (room - balloc_cost P sb r) (balloc_pins D P sb r) ip k') C.
Proof.
  intros (g & Hg & T) F Hr Hex. pose proof (fk_bitmap _ _ _ _ _ F) as B. pose proof (bm_size _ _ _ _ _ B). pose proof (fk_disk _ _ _ _ _ F).
  pose proof NPAGES_eq. eapply (cruns_mono (balloc 1)); [|intros r k'|done].
  - exact (balloc_loop_spec pid st sz (S NPAGES) H room D P sb (with_inode ip g) k o 0 C T B eq_refl Hr
      ltac:(lia) ltac:(lia) ltac:(lia) Hex).
  - intros (g' & Hg' & A & T'). split; [done|]. exists g'. split; [unfold same_ops in *; simpl in *; intuition congruence|]. by rewrite with_inode_log in T'.
Qed.

Lemma cruns_assoc {A B E} (m : KM A) (f : A → KM B) (g : B → KM E) o k Q C :
  cruns (bind (bind m f) g) o k Q C ↔ cruns (bind m (λ a, bind (f a) g)) o k Q C.
Proof. unfold cruns. by rewrite bind_assoc. Qed.

Local Notation grown := (grown st sz D sb).
Local Notation slot := (slot D).
Local Notation fblock := (fblock D).
Local Notation file_ok := (file_ok st sz D sb).
Local Notation fs_ok := (fs_ok st sz D sb).
Local Notation budget := (budget sb).
Local Notation space := (space D sb).

Lemma budget_ready H P ip r room :
  fs_ok P → budget P ip r room → 0 ≤ r → (size H ≤ 1)%nat →
  (∀ b n d, H !! b = Some (n, d) → kept st sz D sb P (Z.of_nat n)) → balloc_ready H room D P sb.
Proof.
  intros F Hbu Hr Hs Hk. split; [done| | |].
  - intros b Hb b' d E. pose proof (kp_bitmap _ _ _ _ _ _ (Hk _ _ _ E) b Hb). rewrite Nat2Z.id in *. done.
  - intros b Hb Hu b' d E. pose proof (kp_used _ _ _ _ _ _ (Hk _ _ _ E)) as Hu'. rewrite Z2Nat.id in Hu' by lia. congruence.
  - intros b Hb. unfold budget, log_left in Hbu. pose proof (ind_fresh_range P ip).
    pose proof (meta_left (meta sb ip) P (bmap_block sb b) []) as E. rewrite decide_True in E by (by apply bmap_meta). lia.
Qed.

(** What bmap does for block [bn] of a file that is written up to block [b1 - 1]. *)
Record bmapped P ip (bn b1 r a : Z) P' ip' (room' : Z) : Prop := {
  bp_grown : grown P ip P' ip';
  bp_addr : slot P' ip' (slot_of bn) = a;
  bp_nonzero : a ≠ 0;
  bp_same bn' : 0 ≤ bn' < 140 → fblock P' ip' bn' = fblock P ip bn';
  bp_budget : budget P' ip' (r - 1 + fresh P' (Z.to_nat a)) room';
  bp_space : space P' ip' bn b1;
  bp_idle : slot P ip (slot_of bn) ≠ 0 → P' = P ∧ ip' = ip
}.

Lemma bmapped_found P ip bn b1 r room :
  fs_ok P → file_ok P ip → budget P ip r room → space P ip bn b1 → slot P ip (slot_of bn) ≠ 0 →
  bmapped P ip bn b1 r (slot P ip (slot_of bn)) P ip room.
Proof.
  intros F K Hbu Hsp Hne. split; [by apply grown_refl|done|done|done| |done|done].
  unfold budget in *. pose proof (fresh_range P (Z.to_nat (slot P ip (slot_of bn)))). lia.
Qed.

Lemma fresh_pins P b : fresh (balloc_pins D P sb b) (Z.to_nat b) = 0.
Proof. unfold balloc_pins. by rewrite fresh_insert, decide_True. Qed.

Lemma bmapped_linked P ip bn b1 r s P' ip' room' a :
  0 ≤ bn < 140 → s = slot_of bn → slot P ip s = 0 → touched bn b1 s = true → space P ip bn b1 → a ∈ free_blocks D sb P → a ≠ 0 →
  linked st sz D sb P ip a s P' ip' → budget P' ip' (r - 1 + fresh P' (Z.to_nat a)) room' →
  bmapped P ip bn b1 r a P' ip' room'.
Proof.
  intros Hbn -> E0 Ht Hsp Ha Ha0 L Hbu. destruct (slot_of_lt bn Hbn) as [Hlt _].
  split; [apply L| |done|apply L|done| |congruence].
  - by rewrite (lk_slot _ _ _ _ _ _ _ _ _ _ L), decide_True.
  - by eapply space_linked.
Qed.

(** The indirect block was missing: then so was the block. *)
Lemma bmapped_after P ip P1 ip1 bn b1 r a P' ip' room' :
  12 ≤ bn < 140 → addr_at 12 ip = 0 → grown P ip P1 ip1 → (∀ bn', 0 ≤ bn' < 140 → fblock P1 ip1 bn' = fblock P ip bn') →
  bmapped P1 ip1 bn b1 r a P' ip' room' → bmapped P ip bn b1 r a P' ip' room'.
Proof.
  intros Hbn E0 G Hf [B1 B2 B3 B4 B5 B6 _]. split; try done.
  - by eapply grown_trans.
  - intros bn' Hbn'. by rewrite B4, Hf.
  - intros []. apply slot_none; [|done]. unfold slot_of. case_match; lia.
Qed.

Lemma budget_set_addr P ip s a r room : s ≠ 12%nat → budget P ip r room → budget P (set_addr s a ip) r room.
Proof.
  intros Hs. unfold budget, log_left, ind_fresh, addr_at. simpl. by rewrite !nth_lookup, list_lookup_insert_ne.
Qed.

(** The indirect case, once there is an indirect block. *)
Definition bmap_entry (dev addr bn : Z) : KM Z :=
  let! bp := bread dev addr in
  let! x := rd_buf bp in
  let! addr := (if get32 (b_data x) (4 * bn) =? 0 then
                  let! addr := balloc dev in
                  upd_data bp (λ l, put32 l (4 * bn) addr) ;;;
                  log_write bp ;;;
                  ret addr
                else ret (get32 (b_data x) (4 * bn))) in
  brelse bp ;;;
  ret addr.

Lemma bmap_entry_spec P ip k o bn b1 r room C :
  wst ∅ room P ip k → fs_ok P → file_ok P ip → budget P ip r room → 1 ≤ r → space P ip bn b1 →
  12 ≤ bn < 140 → bn < b1 → addr_at 12 ip ≠ 0 →
  cruns (bmap_entry 1 (addr_at 12 ip) (bn - 12)) o k
    (λ a k', ∃ P' ip' room', wst ∅ room' P' ip' k' ∧ bmapped P ip bn b1 r a P' ip' room') C.
Proof.
  intros W F K Hbu Hr Hsp Hbn Hb1 Hind. pose proof (wst_pos _ _ _ _ _ W) as Hpos.
  assert (kept st sz D sb P (addr_at 12 ip)) as Kind.
  { rewrite <- (slot_low D P ip 12) in Hind |- * by lia. by apply (fo_kept _ _ _ _ _ _ K); [lia|]. }
  assert (slot_of bn = Z.to_nat (bn + 1)) as Es by (unfold slot_of; by rewrite (proj2 (Z.ltb_ge _ _)) by lia).
  assert (slot P ip (slot_of bn) = get32 (lview D P (Z.to_nat (addr_at 12 ip))) (4 * (bn - 12))) as Ee.
  { rewrite Es, slot_high by (done || lia). f_equal. lia. }
  pose proof (kp_range _ _ _ _ _ _ Kind) as Hrg. pose proof (kp_block _ _ _ _ _ _ Kind) as Hblk.
  set (ind := Z.to_nat (addr_at 12 ip)) in *. unfold bmap_entry.
  replace (addr_at 12 ip) with (Z.of_nat ind) by (unfold ind; lia). apply cruns_bind.
  eapply cruns_mono; [eapply wst_bread; [exact W|done|apply unheld_empty|by rewrite map_size_empty]| |done].
  intros bp k1 [_ W1]. eapply wst_rd_buf; [exact W1|]. intros x ->. rewrite <- Ee.
  destruct (Z.eqb_spec (slot P ip (slot_of bn)) 0) as [E0|E0].
  2:{ apply (cruns_eq _ (let! _ := brelse bp in ret (slot P ip (slot_of bn)))%K); [done|]. apply cruns_bind.
      eapply cruns_mono; [eapply wst_release; [exact W1|done|apply Hblk]| |done].
      intros [] k2 W2. apply cruns_ret. exists P, ip, room. split; [done|]. by apply bmapped_found. }
  assert (touched bn b1 (slot_of bn) = true) as Ht by (apply touched_slot; lia).
  destruct (slot_of_lt bn ltac:(lia)) as [Hlt _].
  set (H := <[bp := (ind, lview D P ind)]> (∅ : gmap nat (nat * list Z))) in *.
  rewrite (cruns_assoc (balloc 1)). apply cruns_bind. eapply cruns_mono; [eapply wst_balloc; [exact W1|done| |]| |done].
  { apply (budget_ready _ _ ip r); [done|done|lia| |].
    - unfold H. rewrite insert_empty, map_size_singleton. lia.
    - intros b n d Hb. unfold H in Hb. rewrite insert_empty in Hb. apply lookup_singleton_Some in Hb as [_ [= <- _]].
      replace (Z.of_nat ind) with (addr_at 12 ip) by (unfold ind; lia). done. }
  { by apply (space_some _ _ _ ip bn b1 (slot_of bn)). }
  intros a k2 [A W2].
  rewrite cruns_assoc. apply cruns_bind. eapply cruns_mono; [eapply wst_store; exact W2| |done]. intros [] k3 W3.
  pose proof (ba_range _ _ _ _ _ A) as Ha. pose proof (budget_alloc D sb P ip a r room Ha Hbu Hr) as Hbu1.
  pose proof (log_left_pos sb (balloc_pins D P sb a) ip).
  apply (cruns_eq _ (let! _ := (log_write bp ;;; brelse bp) in ret a)%K); [by rewrite !bind_assoc|]. apply cruns_bind.
  eapply cruns_mono; [eapply wst_log; [exact W3|done|unfold budget in Hbu1; lia|done]| |done].
  intros [] k4 W4. apply cruns_ret. eexists _, ip, _. split; [exact W4|].
  destruct (alloc_old _ _ _ _ _ _ A _ Kind) as [_ El]. fold ind in El. rewrite <- El.
  replace (4 * (bn - 12)) with (4 * (Z.of_nat (slot_of bn) - 13)) by lia.
  pose proof (linked_entry st sz D sb P ip a (slot_of bn) F A K Hlt E0 ltac:(lia) Hind) as Hlk. fold ind in Hlk.
  apply (bmapped_linked P ip bn b1 r (slot_of bn)); try done.
  - lia.
  - apply elem_free. split; [done|apply A].
  - by eapply alloc_nonzero.
  - rewrite fresh_insert, fresh_pins. destruct (decide _); rewrite Z.add_0_r; by apply budget_indirect.
Qed.

Lemma bmap_spec P ip k o bn b1 r room C :
  wst ∅ room P ip k → fs_ok P → file_ok P ip → i_dev ip = 1 → budget P ip r room → 1 ≤ r → space P ip bn b1 →
  0 ≤ bn < 140 → bn < b1 →
  cruns (bmap i bn) o k (λ a k', ∃ P' ip' room', wst ∅ room' P' ip' k' ∧ bmapped P ip bn b1 r a P' ip' room') C.
Proof.
  intros W F K Hdev Hbu Hr Hsp Hbn Hb1. pose proof (wst_pos _ _ _ _ _ W) as Hpos.
  assert (∀ s, (s < 141)%nat → slot P ip s = 0 → touched bn b1 s = true →
    cruns (balloc 1) o k (λ a k', a ≠ 0 ∧ a ∈ free_blocks D sb P ∧ balloced D P (balloc_pins D P sb a) sb a ∧
      wst ∅ (room - balloc_cost P sb a) (balloc_pins D P sb a) ip k') C) as Hba.
  { intros s Hs H0 Ht. eapply cruns_mono; [eapply wst_balloc; [exact W|done| |]| |done].
    - apply (budget_ready _ _ ip r); [done|done|lia|rewrite map_size_empty; lia|]. intros b n d Hb. by rewrite lookup_empty in Hb.
    - by apply (space_some _ _ _ ip bn b1 s).
    - intros a k' [A W']. split_and!; [by eapply alloc_nonzero| |done|done]. apply elem_free. split; apply A. }
  unfold bmap. change (Z.of_nat NDIRECT) with 12. change NDIRECT with 12%nat. change NINDIRECT with 128.
  destruct (Z.ltb_spec bn 12) as [Hlow|Hhigh].
  - assert (slot_of bn = Z.to_nat bn) as Es by (unfold slot_of; by rewrite (proj2 (Z.ltb_lt _ _))).
    assert (slot P ip (slot_of bn) = addr_at (Z.to_nat bn) ip) as Ea by (rewrite Es; apply slot_low; lia).
    eapply cruns_step; [by eapply wst_inode|done|]. rewrite <- Ea.
    destruct (Z.eqb_spec (slot P ip (slot_of bn)) 0) as [E0|E0].
    2:{ apply cruns_ret. exists P, ip, room. split; [done|]. by apply bmapped_found. }
    rewrite Hdev. apply cruns_bind. destruct (slot_of_lt bn ltac:(lia)) as [Hlt H12].
    assert (touched bn b1 (slot_of bn) = true) as Ht by (apply touched_slot; lia).
    eapply cruns_mono; [by apply (Hba (slot_of bn))| |done]. intros a k1 (Ha0 & Ha & A & W1). rewrite <- Es.
    destruct (wst_upd_inode _ _ _ _ _ o (set_addr (slot_of bn) a) W1) as (k2 & E2 & P2 & W2).
    eapply cruns_step; [exact E2|exact P2|]. apply cruns_ret. eexists _, _, _. split; [exact W2|].
    apply (bmapped_linked P ip bn b1 r (slot_of bn)); try done.
    + apply linked_addr; try done. lia.
    + rewrite fresh_pins, Z.add_0_r. apply budget_set_addr; [done|]. apply budget_alloc; [apply A|done|done].
  - destruct (Z.ltb_spec (bn - 12) 128) as [_|]; [|lia].
    eapply cruns_step; [by eapply wst_inode|done|]. rewrite Hdev.
    destruct (Z.eqb_spec (addr_at 12 ip) 0) as [E0|E0].
    2:{ apply (bmap_entry_spec P ip k o bn b1 r room); try done; lia. }
    assert (slot P ip 12 = 0) as E12 by (by rewrite slot_low by lia).
    assert (touched bn b1 12 = true) as Ht by (apply (touched_indirect _ _ bn); lia).
    rewrite cruns_assoc. apply cruns_bind. eapply cruns_mono; [apply (Hba 12%nat); [lia|done|done]| |done].
    intros a k1 (Ha0 & Ha & A & W1).
    destruct (wst_upd_inode _ _ _ _ _ o (set_addr 12 a) W1) as (k2 & E2 & P2 & W2). rewrite cruns_assoc.
    eapply cruns_step; [exact E2|exact P2|].
    set (ip1 := set_addr 12 a ip) in *. set (P1 := balloc_pins D P sb a) in *.
    pose proof (linked_addr st sz D sb P ip a 12 F A K ltac:(lia) E12 ltac:(lia)) as L.
    pose proof (lk_grown _ _ _ _ _ _ _ _ _ _ L) as G.
    assert (addr_at 12 ip1 = a) as Ea1.
    { rewrite <- (slot_low D P1 ip1 12) by lia. by rewrite (lk_slot _ _ _ _ _ _ _ _ _ _ L), decide_True by lia. }
    pose proof (budget_alloc_indirect D sb P ip a r room (ba_range _ _ _ _ _ A) (fo_addrs _ _ _ _ _ _ K) E0 Ha0 Hbu) as Hbu1.
    fold ip1 P1 in Hbu1. eapply cruns_mono; [|intros a' k' H'|done].
    + rewrite <- Ea1. apply (bmap_entry_spec P1 ip1 k2 o bn b1 r _ _ W2); try done; [apply G|apply G| |lia|by rewrite Ea1].
      apply (space_linked st sz D sb P ip _ _ _ _ 12 a); try done. lia.
    + destruct H' as (P' & ip' & room' & W' & B). exists P', ip', room'. split; [done|]. eapply (bmapped_after P ip P1 ip1); [lia|done|exact G|apply L|exact B].
Qed.

(** ** Writing *)

(** Block [bn] has some of the [n] bytes at [off]. *)
Definition hits (off n bn : Z) : Prop := 0 < n ∧ 0 ≤ bn < 140 ∧ off / 512 ≤ bn ∧ bn * 512 < off + n.

Lemma hits_app off m n bn : 0 ≤ off → 0 ≤ m → 0 ≤ n → hits off (m + n) bn ↔ hits off m bn ∨ hits (off + m) n bn.
Proof. unfold hits. intros. split; [intros; destruct (decide (bn * 512 < off + m))|intros [?|?]]; dlia. Qed.

(** The bytes [l] are written at [off]. *)
Record written P ip (off : Z) (l : list Z) P' ip' : Prop := {
  wr_grown : grown P ip P' ip';
  wr_bytes x : 0 ≤ x < 71680 → fbyte D P' ip' x =
    if (off <=? x) && (x <? off + Z.of_nat (length l)) then byte_at l (x - off) else fbyte D P ip x;
  wr_present bn : hits off (Z.of_nat (length l)) bn → slot P' ip' (slot_of bn) ≠ 0;
  wr_idle : (∀ bn, hits off (Z.of_nat (length l)) bn → slot P ip (slot_of bn) ≠ 0) → ip' = ip
}.

Lemma written_nil P ip off : 0 ≤ off → fs_ok P → file_ok P ip → written P ip off [] P ip.
Proof.
  intros Ho F K. split; [by apply grown_refl| | |done].
  - intros x Hx. simpl. by rewrite range_out by lia.
  - simpl. intros bn Hbn. unfold hits in Hbn. lia.
Qed.

(** One block, then the rest. *)
Lemma written_block P ip P1 ip1 off l bn :
  0 ≤ off → bn = off / 512 → 0 ≤ bn < 140 → (0 < length l)%nat → off `mod` 512 + Z.of_nat (length l) ≤ 512 →
  grown P ip P1 ip1 → (∀ bn', 0 ≤ bn' < 140 → fblock P1 ip1 bn' = fblock P ip bn') → slot P1 ip1 (slot_of bn) ≠ 0 →
  (slot P ip (slot_of bn) ≠ 0 → ip1 = ip) →
  let a := Z.to_nat (slot P1 ip1 (slot_of bn)) in
  let P2 := <[a := splice (lview D P1 a) (off `mod` 512) l]> P1 in
  written P ip off l P2 ip1 ∧ (∀ b, 0 ≤ b < sb_size sb → used D P2 sb b = used D P1 sb b) ∧ ∀ s, slot P2 ip1 s = slot P1 ip1 s.
Proof.
  intros Ho Ebn Hbn Hl Hfit G Hsame H0 Hidle a. pose proof (gw_fs _ _ _ _ _ _ _ _ G) as F1. pose proof (gw_file _ _ _ _ _ _ _ _ G) as K1.
  destruct (slot_of_lt bn Hbn) as [Hs _]. pose proof (kp_len _ _ _ _ _ _ (fo_kept _ _ _ _ _ _ K1 _ Hs H0)) as Hlen. fold a in Hlen.
  destruct (grown_write st sz D sb P1 ip1 bn (splice (lview D P1 a) (off `mod` 512) l) F1 K1 Hbn H0) as (G2 & Hsl & Hf).
  { rewrite length_splice; [done|dlia|rewrite Hlen; lia]. }
  fold a in G2, Hsl, Hf. split_and!; [split| |exact Hsl].
  - by eapply grown_trans.
  - intros x Hx. unfold fbyte. rewrite Hf by dlia. case_decide as E.
    + rewrite byte_at_splice; [|dlia|rewrite Hlen; dlia|dlia].
      destruct (decide (off ≤ x < off + Z.of_nat (length l))).
      * rewrite !range_in by dlia. unfold byte_at. do 2 f_equal. dlia.
      * rewrite !range_out by dlia. rewrite <- Hsame by dlia. unfold fblock. by rewrite E, (proj2 (Z.eqb_neq _ _)).
    + rewrite Hsame by dlia. by rewrite range_out by dlia.
  - intros bn' Hbn'. assert (bn' = bn) as -> by (unfold hits in Hbn'; dlia). by rewrite Hsl.
  - intros Hp. apply Hidle, Hp. unfold hits. dlia.
  - intros b Hb. apply (store_used st sz D sb P1 _ _ (fo_kept _ _ _ _ _ _ K1 _ Hs H0)). done.
Qed.

Lemma written_app P ip P1 ip1 P2 ip2 off l l' :
  0 ≤ off → written P ip off l P1 ip1 → written P1 ip1 (off + Z.of_nat (length l)) l' P2 ip2 → written P ip off (l ++ l') P2 ip2.
Proof.
  intros Ho [G1 B1 R1 I1] [G2 B2 R2 I2]. split.
  - by eapply grown_trans.
  - intros x Hx. rewrite B2, length_app, Nat2Z.inj_add by done. unfold byte_at.
    destruct (decide (off + Z.of_nat (length l) ≤ x < off + Z.of_nat (length l) + Z.of_nat (length l'))).
    + rewrite !range_in by lia. rewrite app_nth2 by lia. f_equal. lia.
    + rewrite (range_out (off + _)), B1 by lia. destruct (decide (off ≤ x < off + Z.of_nat (length l))).
      * rewrite !range_in by lia. unfold byte_at. by rewrite app_nth1 by lia.
      * by rewrite !range_out by lia.
  - rewrite length_app, Nat2Z.inj_add. intros bn [H1|H2]%hits_app; [|by apply R2|lia..].
    destruct (slot_of_lt bn ltac:(apply H1)) as [Hs _]. rewrite (gw_slot _ _ _ _ _ _ _ _ G2); [by apply R1|done|by apply R1].
  - rewrite length_app, Nat2Z.inj_add. intros Hp.
    assert (ip1 = ip) as E1 by (apply I1; intros bn Hbn; apply Hp, hits_app; [lia..|by left]).
    rewrite I2, E1; [done|]. intros bn H2. destruct (slot_of_lt bn ltac:(apply H2)) as [Hs _].
    assert (slot P ip (slot_of bn) ≠ 0) as E by (apply Hp, hits_app; [lia..|by right]).
    by rewrite (gw_slot _ _ _ _ _ _ _ _ G1).
Qed.

(** The source gives the bytes [bs], whatever the file system does in between. *)
Definition fetches (src : Z → Z → KM (list Z)) (bs : list Z) : Prop :=
  ∀ d m o k ip g, 0 ≤ d → 0 ≤ m → d + m ≤ Z.of_nat (length bs) → cframe (with_inode ip g) k →
    src d m o k = Ok (sub_bytes bs d m) k o.

Lemma writei_loop_spec src bs n fuel tot off e b1 b2 P ip r room k o C :
  fetches src bs → n = Z.of_nat (length bs) → b1 = (e + 511) / 512 → e ≤ 71680 → b1 ≤ b2 →
  wst ∅ room P ip k → fs_ok P → file_ok P ip → i_dev ip = 1 →
  0 ≤ tot ≤ n → (Z.to_nat (n - tot) < fuel)%nat → 0 ≤ off → e = off + (n - tot) →
  budget P ip r room → 0 ≤ r → (off < e → b1 - off / 512 ≤ r) → space P ip (off / 512) b2 →
  cruns (writei_loop fuel src i off tot n) o k (λ off' k', off' = e ∧ ∃ P' ip' room',
    wst ∅ room' P' ip' k' ∧ written P ip off (sub_bytes bs tot (n - tot)) P' ip' ∧ budget P' ip' 0 room' ∧
    space P' ip' (e / 512) b2) C.
Proof.
  intros Hsrc Hn Eb1 He Hb2. revert tot off P ip r room k.
  induction fuel as [|fuel IH]; intros tot off P ip r room k W F K Hdev Ht Hf Ho Ee Hbu Hr Hr1 Hsp; [lia|].
  cbn [writei_loop]. destruct (Z.ltb_spec tot n) as [Hlt|Hge].
  2:{ apply cruns_ret. split; [lia|]. exists P, ip, room. split_and!; [done| |unfold budget in *; lia|by replace e with off by lia].
      replace (n - tot) with 0 by lia. by apply written_nil. }
  change BSIZE with 512. set (bn := off / 512) in *. set (m := Z.min (n - tot) (512 - off `mod` 512)).
  assert (0 < m ≤ n - tot ∧ off `mod` 512 + m ≤ 512 ∧ 0 ≤ bn < 140 ∧ bn < b1) as (Hm & Hm' & Hbn & Hb1) by (subst b1; unfold m, bn; dlia).
  specialize (Hr1 ltac:(lia)).
  apply cruns_bind. eapply cruns_mono; [by apply (bmap_spec P ip k o bn b2 r room); try done; lia| |done].
  intros a k1 (P1 & ip1 & room1 & W1 & [G Ea Ha Hsame Hbu1 Hsp1 Hid]).
  pose proof (gw_fs _ _ _ _ _ _ _ _ G) as F1. pose proof (gw_file _ _ _ _ _ _ _ _ G) as K1. pose proof (gw_ip _ _ _ _ _ _ _ _ G) as Eip.
  assert (i_dev ip1 = 1) as Hdev1 by (by rewrite Eip).
  eapply cruns_step; [by eapply wst_inode|done|]. rewrite Hdev1.
  destruct (slot_of_lt bn Hbn) as [Hs _].
  assert (kept st sz D sb P1 a) as Ka by (rewrite <- Ea; apply (fo_kept _ _ _ _ _ _ K1); [done|by rewrite Ea]).
  pose proof (kp_range _ _ _ _ _ _ Ka) as Hrg. pose proof (wst_pos _ _ _ _ _ W1) as Hpos1.
  replace a with (Z.of_nat (Z.to_nat a)) at 1 by lia. apply cruns_bind.
  eapply cruns_mono; [eapply wst_bread; [exact W1|apply Ka|apply unheld_empty|by rewrite map_size_empty]| |done].
  intros bp k2 [_ W2]. destruct (wst_frame _ _ _ _ _ W2) as [g Hg].
  eapply cruns_step; [by apply (Hsrc tot m o k2 ip1 g); [lia|lia|lia|]|done|].
  set (l := sub_bytes bs tot m). assert (Z.of_nat (length l) = m) as Hl by (apply length_sub_bytes; lia).
  apply cruns_bind. eapply cruns_mono; [eapply wst_store; exact W2| |done]. intros [] k3 W3.
  assert (1 ≤ room1) as Hroom1.
  { pose proof (log_left_pos sb P1 ip1). pose proof (fresh_range P1 (Z.to_nat a)). unfold budget in Hbu1. lia. }
  apply (cruns_eq _ (let! _ := (log_write bp ;;; brelse bp) in writei_loop fuel src i (off + m) (tot + m) n)%K); [by rewrite bind_assoc|].
  apply cruns_bind. eapply cruns_mono; [eapply wst_log; [exact W3|done|done|apply Ka]| |done]. intros [] k4 W4.
  rewrite <- Ea in W4, Hbu1.
  pose proof (written_block P ip P1 ip1 off l bn Ho eq_refl Hbn ltac:(lia) ltac:(lia) G Hsame ltac:(by rewrite Ea)
    ltac:(intros Hx; by apply Hid)) as Hw. cbv zeta in Hw. destruct Hw as (Hw & Hu2 & Hs2).
  set (P2 := <[Z.to_nat (slot P1 ip1 (slot_of bn)) := _]> P1) in *.
  assert (budget P2 ip1 (r - 1) (room1 - fresh P1 (Z.to_nat (slot P1 ip1 (slot_of bn))))) as Hbu2 by (by apply budget_pay).
  pose proof (wr_grown _ _ _ _ _ _ Hw) as G2.
  eapply cruns_mono; [apply (IH (tot + m) (off + m) P2 ip1 (r - 1) _ _ W4); try done; try lia| |done].
  - apply G2.
  - apply G2.
  - intros Hlt'. assert ((off + m) / 512 = bn + 1) by (unfold m, bn in *; dlia). lia.
  - assert (space P2 ip1 bn b2) as Hsp2 by (by apply (space_ext _ _ P1 ip1)).
    assert ((off + m) / 512 = bn ∨ (off + m) / 512 = bn + 1) as [->| ->] by (unfold m, bn in *; dlia); [done|by apply space_next].
  - intros off' k5 (-> & P3 & ip3 & room3 & W5 & Hw' & Hbu3 & Hsp3). split; [done|]. exists P3, ip3, room3. split_and!; [done| |done|done].
    rewrite (sub_bytes_app bs tot m) by lia. fold l. eapply written_app; [done|exact Hw|].
    rewrite Hl. by replace (n - tot - m) with (n - (tot + m)) by lia.
Qed.

(** ** The invariant of a file *)

(** The copy of the inode on the disk. *)
Definition on_disk P ip : Prop :=
  ∀ jp, same_dinode ip (dinode_load (lview D P (inode_block sb (i_inum ip))) (inode_off (i_inum ip)) jp).

(** All blocks up to the size are there, and the disk has the inode as it is. *)
Record file_inv P ip : Prop := {
  fi_fs : fs_ok P;
  fi_file : file_ok P ip;
  fi_size : 0 ≤ i_size ip ≤ 71680;
  fi_full bn : 0 ≤ bn → bn * 512 < i_size ip → slot P ip (slot_of bn) ≠ 0;
  fi_fits : inode_fits ip;
  fi_disk : on_disk P ip
}.

(** The blocks of [jp] are neither blocks of [ip] nor the block of its inode. *)
Definition apart P ip jp : Prop := ∀ s, (s < 141)%nat → slot P jp s ≠ 0 →
  slot P jp s ≠ Z.of_nat (inode_block sb (i_inum ip)) ∧ ∀ s', (s' < 141)%nat → slot P ip s' ≠ slot P jp s.

(** What writei leaves: the bytes, the size, a file again, and the other files. *)
Record wrote P ip (off : Z) (l : list Z) P' ip' : Prop := {
  wo_inv : file_inv P' ip';
  wo_ip : ip' = set_i_size (Z.max (i_size ip) (off + Z.of_nat (length l))) (set_i_addrs (i_addrs ip') ip);
  wo_bytes x : 0 ≤ x < 71680 → fbyte D P' ip' x =
    if (off <=? x) && (x <? off + Z.of_nat (length l)) then byte_at l (x - off) else fbyte D P ip x;
  wo_other jp x : file_ok P jp → apart P ip jp → 0 ≤ x < 71680 → fbyte D P' jp x = fbyte D P jp x
}.

Lemma grown_fits P ip P' ip' z : grown P ip P' ip' → inode_fits ip → 0 ≤ z < 4294967296 → inode_fits (set_i_size z ip').
Proof.
  intros G [F1 F2 F3 F4 F5 F6] Hz. pose proof (gw_file _ _ _ _ _ _ _ _ G) as K. pose proof (gw_fs _ _ _ _ _ _ _ _ G) as F.
  rewrite (gw_ip _ _ _ _ _ _ _ _ G). split; simpl; try done. split; [apply K|]. apply Forall_forall. intros a Ha.
  apply list_elem_of_lookup in Ha as [s Hs]. pose proof (lookup_lt_Some _ _ _ Hs) as Hlt. rewrite (fo_addrs _ _ _ _ _ _ K) in Hlt.
  assert (slot P' ip' s = a) as E by (rewrite slot_low by lia; unfold addr_at; by rewrite nth_lookup, Hs).
  destruct (decide (a = 0)); [lia|]. pose proof (bm_size _ _ _ _ _ (fk_bitmap _ _ _ _ _ F)). pose proof (fk_disk _ _ _ _ _ F).
  pose proof (kp_range _ _ _ _ _ _ (fo_kept _ _ _ _ _ _ K s ltac:(lia) ltac:(congruence))). lia.
Qed.

(** Writing the inode to its block. *)
Lemma grown_inode P ip d :
  fs_ok P → file_ok P ip → length d = 512%nat → let P' := <[inode_block sb (i_inum ip) := d]> P in
  fs_ok P' ∧ file_ok P' ip ∧ (∀ b, kept st sz D sb P b → b ≠ Z.of_nat (inode_block sb (i_inum ip)) → lview D P' (Z.to_nat b) = lview D P (Z.to_nat b)) ∧
  (∀ s, (s < 141)%nat → slot P' ip s = slot P ip s) ∧ ∀ bn, 0 ≤ bn < 140 → fblock P' ip bn = fblock P ip bn.
Proof.
  intros F K Hd P'. pose proof (fo_inode _ _ _ _ _ _ K) as Kn. set (nb := Z.of_nat (inode_block sb (i_inum ip))) in *.
  assert (P' = <[Z.to_nat nb := d]> P) as -> by (unfold P', nb; by rewrite Nat2Z.id).
  assert (∀ b, kept st sz D sb P b → b ≠ nb → lview D (<[Z.to_nat nb := d]> P) (Z.to_nat b) = lview D P (Z.to_nat b)) as Hl.
  { intros b Kb Hne. pose proof (kp_range _ _ _ _ _ _ Kb). apply (store_other st sz D sb); [done|done|lia|done]. }
  assert (∀ s, (s < 141)%nat → slot P ip s ≠ 0 →
    lview D (<[Z.to_nat nb := d]> P) (Z.to_nat (slot P ip s)) = lview D P (Z.to_nat (slot P ip s))) as Hsl.
  { intros s Hs H0. apply Hl; [by apply (fo_kept _ _ _ _ _ _ K)|by apply (fo_apart _ _ _ _ _ _ K)]. }
  assert (∀ s, (s < 141)%nat → slot (<[Z.to_nat nb := d]> P) ip s = slot P ip s) as Es.
  { intros s Hs. apply slot_ext; [done|]. rewrite <- (slot_low D P ip 12) by lia. apply Hsl. lia. }
  split_and!; [by apply (store_fs st sz D sb)| |done|done|].
  - split; [apply K| | | |].
    + intros s Hs. rewrite Es by done. intros H0. by apply (store_kept st sz D sb), (fo_kept _ _ _ _ _ _ K).
    + intros s s' Hs Hs'. rewrite !Es by done. by apply (fo_inj _ _ _ _ _ _ K).
    + by apply (store_kept st sz D sb).
    + intros s Hs. rewrite Es by done. by apply (fo_apart _ _ _ _ _ _ K).
  - intros bn Hbn. destruct (slot_of_lt bn Hbn) as [Hs _]. unfold fblock. rewrite Es by done. case_match; [done|]. apply Hsl; [done|lia].
Qed.

Lemma wst_iupdate P ip k o room C :
  wst ∅ room P ip k → file_ok P ip → i_dev ip = 1 → 1 ≤ room → let n := inode_block sb (i_inum ip) in
  cruns (iupdate i) o k (λ _ k', wst ∅ (room - fresh P n)
    (<[n := splice (lview D P n) (inode_off (i_inum ip)) (dinode_bytes ip)]> P) ip k') C.
Proof.
  intros (g & Hg & T) K Hdev Hr n. pose proof (kp_block _ _ _ _ _ _ (fo_inode _ _ _ _ _ _ K)) as Hb. rewrite Nat2Z.id in Hb.
  eapply cruns_mono; [eapply (iupdate_spec pid st sz room D P (with_inode ip g) k o i ip); try done| |done].
  - unfold with_inode. kproj. by apply list_lookup_insert_eq.
  - intros [] k' (g' & Hg' & T'). exists g'. split; [unfold same_ops in *; simpl in *; intuition congruence|]. by rewrite with_inode_log in T'.
Qed.

Lemma on_disk_ext P ip P' ip' :
  on_disk P ip → grown P ip P' ip → file_ok P ip → ip' = ip → on_disk P' ip'.
Proof.
  intros Hd G K -> jp. specialize (Hd jp).
  pose proof (gw_other _ _ _ _ _ _ _ _ G _ (fo_inode _ _ _ _ _ _ K)) as E. rewrite Nat2Z.id in E.
  rewrite E; [done|]. apply K.
Qed.

Lemma fbyte_ext P ip P' ip' x :
  (∀ bn, 0 ≤ bn < 140 → fblock P' ip' bn = fblock P ip bn) → 0 ≤ x < 71680 → fbyte D P' ip' x = fbyte D P ip x.
Proof. intros H Hx. unfold fbyte. rewrite H by dlia. done. Qed.

(** Another file, when the block of the inode changes too. *)
Lemma grown_other P ip P' ip' P2 jp x :
  grown P ip P' ip' → file_ok P jp → apart P ip jp →
  (∀ b, kept st sz D sb P' b → b ≠ Z.of_nat (inode_block sb (i_inum ip)) → lview D P2 (Z.to_nat b) = lview D P' (Z.to_nat b)) →
  0 ≤ x < 71680 → fbyte D P2 jp x = fbyte D P jp x.
Proof.
  intros G K Ha Hl. apply fbyte_ext, fblock_stays. intros s Hs H0.
  destruct (Ha s Hs H0) as [Hn Hd]. pose proof (fo_kept _ _ _ _ _ _ K s Hs H0) as Kb.
  rewrite Hl; [by apply (gw_other _ _ _ _ _ _ _ _ G)|by eapply grown_kept|done].
Qed.

(** A write inside the file leaves the inode as it is. *)
Lemma wrote_inside P ip off l P' ip' :
  file_inv P ip → 0 ≤ off ≤ i_size ip → off + Z.of_nat (length l) ≤ i_size ip → written P ip off l P' ip' → wrote P ip off l P' ip'.
Proof.
  intros [F K Hs Hfull Hfit Hd] Ho Hin Hw.
  assert (ip' = ip) as ->. { apply Hw. intros bn (? & ? & ? & ?). apply Hfull; lia. }
  destruct Hw as [G Hb _ _]. split; [split| |exact Hb|].
  - apply G.
  - apply G.
  - done.
  - intros bn H0 H1. destruct (slot_of_lt bn ltac:(lia)) as [Hlt _].
    rewrite (gw_slot _ _ _ _ _ _ _ _ G); [by apply Hfull|done|by apply Hfull].
  - done.
  - by eapply on_disk_ext.
  - rewrite Z.max_l by lia. by destruct ip.
  - intros jp x Kj Ha. by apply (grown_other P ip P' ip).
Qed.

(** A write past the end gives the file its new size. *)
Lemma wrote_more P ip off l P' ip' :
  file_inv P ip → 0 ≤ off ≤ i_size ip → i_size ip < off + Z.of_nat (length l) → off + Z.of_nat (length l) ≤ 71680 →
  written P ip off l P' ip' →
  let ip2 := set_i_size (off + Z.of_nat (length l)) ip' in let n := inode_block sb (i_inum ip2) in
  let P2 := <[n := splice (lview D P' n) (inode_off (i_inum ip2)) (dinode_bytes ip2)]> P' in
  wrote P ip off l P2 ip2 ∧ ∀ b0 b2, space P' ip' b0 b2 → space P2 ip2 b0 b2.
Proof.
  intros [F K Hs Hfull Hfit Hd] Ho Hout Hmax [G Hb Hp _] ip2 n.
  pose proof (gw_fs _ _ _ _ _ _ _ _ G) as F'. pose proof (gw_file _ _ _ _ _ _ _ _ G) as K'.
  assert (file_ok P' ip2) as K2 by (destruct K'; by split).
  assert (inode_fits ip2) as Hfit2 by (apply (grown_fits P ip P' ip'); [done|done|lia]).
  pose proof (kp_len _ _ _ _ _ _ (fo_inode _ _ _ _ _ _ K2)) as Hlen. rewrite Nat2Z.id in Hlen. fold n in Hlen.
  pose proof (inode_off_range (i_inum ip2)) as Hoff.
  set (d := splice (lview D P' n) (inode_off (i_inum ip2)) (dinode_bytes ip2)).
  assert (length d = 512%nat) as Hd512.
  { unfold d. rewrite length_splice; [done|lia|]. rewrite length_dinode, Hlen by apply Hfit2. lia. }
  destruct (grown_inode P' ip2 d F' K2 Hd512) as (F2 & K3 & Hl & Es & Ef). fold n in F2, K3, Hl, Es, Ef.
  assert (∀ bn, 0 ≤ bn → bn * 512 < off + Z.of_nat (length l) → slot P' ip' (slot_of bn) ≠ 0) as Hfull'.
  { intros bn H0 H1. destruct (slot_of_lt bn ltac:(lia)) as [Hlt _].
    destruct (decide (bn * 512 < i_size ip)).
    - rewrite (gw_slot _ _ _ _ _ _ _ _ G); [by apply Hfull|done|by apply Hfull].
    - apply Hp. unfold hits. dlia. }
  assert (∀ b, 0 ≤ b < sb_size sb → used D (<[n := d]> P') sb b = used D P' sb b) as Hu.
  { intros b Hbr. rewrite <- (Nat2Z.id n). apply (store_used st sz); [apply K2|done]. }
  split; [|intros b0 b2 Hsp; by apply (space_ext _ _ P' ip')]. split; [split| | |].
  - done.
  - done.
  - simpl. lia.
  - intros bn H0 H1. simpl in H1. destruct (slot_of_lt bn ltac:(lia)) as [Hlt _]. rewrite Es by done. by apply Hfull'.
  - done.
  - intros jp. fold n. rewrite lview_insert, decide_True by done. by apply dinode_roundtrip.
  - rewrite Z.max_r by lia. unfold ip2. rewrite (gw_ip _ _ _ _ _ _ _ _ G). by destruct ip.
  - intros x Hx. rewrite <- Hb by done. by apply fbyte_ext.
  - intros jp x Kj Ha. apply (grown_other P ip P' ip'); [done..|]. intros b Kb Hb'. apply Hl; [done|].
    unfold n, ip2. simpl. by rewrite (gw_ip _ _ _ _ _ _ _ _ G).
Qed.

Lemma writei_spec {devsw : DevSw} src bs off n b2 room P ip k o C :
  fetches src bs → n = Z.of_nat (length bs) → wst ∅ room P ip k → file_inv P ip → i_dev ip = 1 → i_type ip ≠ T_DEV →
  0 ≤ off ≤ i_size ip → off + n ≤ 71680 → (off + n + 511) / 512 ≤ b2 → space P ip (off / 512) b2 →
  budget P ip ((off + n + 511) / 512 - off / 512) room →
  cruns (writei src i off n) o k (λ r k', r = n ∧ ∃ P' ip' room',
    wst ∅ room' P' ip' k' ∧ wrote P ip off bs P' ip' ∧ space P' ip' ((off + n) / 512) b2) C.
Proof.
  intros Hsrc Hn W I Hdev Hty Ho He Hb2 Hsp Hbu. pose proof (fi_size _ _ I) as Hsz.
  unfold writei. eapply cruns_step; [by eapply wst_inode|done|]. rewrite (proj2 (Z.eqb_neq _ _)) by done.
  rewrite u32_small by lia. rewrite (proj2 (Z.ltb_ge (i_size ip) off)), (proj2 (Z.ltb_ge (off + n) off)) by lia.
  change (MAXFILE * BSIZE) with 71680. rewrite (proj2 (Z.ltb_ge 71680 (off + n))) by lia. cbn [orb].
  apply cruns_bind. eapply cruns_mono; [apply (writei_loop_spec src bs n (S (Z.to_nat n)) 0 off (off + n) ((off + n + 511) / 512) b2 P ip
    ((off + n + 511) / 512 - off / 512) room); try done; try lia; try apply I; dlia| |done].
  intros off' k1 (-> & P1 & ip1 & room1 & W1 & Hw & Hbu1 & Hsp1). rewrite Z.sub_0_r in Hw.
  assert (sub_bytes bs 0 n = bs) as Ebs. { unfold sub_bytes. rewrite drop_0. apply take_ge. lia. }
  rewrite Ebs in Hw. eapply cruns_step; [by eapply wst_inode|done|].
  pose proof (gw_ip _ _ _ _ _ _ _ _ (wr_grown _ _ _ _ _ _ Hw)) as Eip.
  assert (i_size ip1 = i_size ip) as -> by (by rewrite Eip).
  assert (i32 n = n) as -> by (apply i32_small; lia).
  destruct (Z.ltb_spec (i_size ip) (off + n)) as [Hout|Hin].
  - rewrite (proj2 (Z.ltb_lt 0 n)) by lia. unfold when. cbn [andb]. rewrite cruns_assoc.
    destruct (wst_upd_inode _ _ _ _ _ o (set_i_size (off + n)) W1) as (k2 & E2 & P2 & W2).
    eapply cruns_step; [exact E2|exact P2|]. apply cruns_bind.
    eapply cruns_mono; [apply (wst_iupdate _ _ _ _ _ _ W2)| |done].
    + pose proof (gw_file _ _ _ _ _ _ _ _ (wr_grown _ _ _ _ _ _ Hw)) as K1. destruct K1. by split.
    + by rewrite Eip.
    + pose proof (log_left_pos sb P1 ip1). unfold budget in Hbu1. lia.
    + intros [] k3 W3. apply cruns_ret. split; [done|]. eexists _, _, _. split; [exact W3|]. subst n.
      destruct (wrote_more P ip off bs P1 ip1 I Ho Hout He Hw) as [Hwr Hspr]. split; [exact Hwr|by apply Hspr].
  - rewrite andb_false_r. unfold when. eapply cruns_step; [done|done|]. apply cruns_ret. split; [done|].
    exists P1, ip1, room1. split_and!; [done|apply wrote_inside; [done|done|lia|done]|done].
Qed.
End Runs.

(** ** Reading

    A destination is a function that puts a piece of the data at an offset; [f] is
    what it does to memory, [Iv] what it needs of memory. *)

Record stores (put : Z → list Z → KM unit) (f : Z → list Z → memory → memory) (Iv : memory → Prop)
    (cr3 n : Z) : Prop := {
  so_put d bs o k : 0 ≤ d → d + Z.of_nat (length bs) ≤ n → k_cr3 k = cr3 → Iv (k_mem k) →
    put d bs o k = Ok tt (set_k_mem (f d bs (k_mem k)) k) o;
  so_keep d bs m : 0 ≤ d → d + Z.of_nat (length bs) ≤ n → Iv m → Iv (f d bs m);
  so_nil d m : f d [] m = m;
  so_app d l l' m : f d (l ++ l') m = f (d + Z.of_nat (length l)) l' (f d l m)
}.

(** Local variables of the kernel are not part of memory. *)
Lemma stores_local cr3 n : stores to_local (λ _ _ m, m) (λ _, True) cr3 n.
Proof. split; try done. intros d bs o k _ _ _ _. unfold to_local, ret. f_equal. by destruct k. Qed.

(** The bytes of a file from [off] on. *)
Definition fbytes (D : list (list Z)) (P : gmap nat (list Z)) (ip : inode) (off n : Z) : list Z :=
  (λ j, fbyte D P ip (off + j)) <$> seqZ 0 n.

Lemma length_fbytes D P ip off n : 0 ≤ n → Z.of_nat (length (fbytes D P ip off n)) = n.
Proof. intros. unfold fbytes. rewrite length_fmap, length_seqZ. lia. Qed.
Lemma fbytes_none D P ip off n : n ≤ 0 → fbytes D P ip off n = [].
Proof. intros. unfold fbytes. by rewrite seqZ_nil. Qed.
Lemma fbytes_app D P ip off m n :
  0 ≤ m ≤ n → fbytes D P ip off n = fbytes D P ip off m ++ fbytes D P ip (off + m) (n - m).
Proof.
  intros. unfold fbytes. replace n with (m + (n - m)) at 1 by lia. rewrite seqZ_app, fmap_app by lia. f_equal.
  apply list_eq. intros j. rewrite !list_lookup_fmap. destruct (decide (Z.of_nat j < n - m)).
  - rewrite !lookup_seqZ_lt by lia. simpl. do 2 f_equal. lia.
  - by rewrite !lookup_seqZ_ge by lia.
Qed.

(** A piece of one block. *)
Lemma fbytes_block D P ip off m :
  0 ≤ off → 0 ≤ m ≤ 512 - off `mod` 512 → length (fblock D P ip (off / 512)) = 512%nat →
  fbytes D P ip off m = sub_bytes (fblock D P ip (off / 512)) (off `mod` 512) m.
Proof.
  intros Ho Hm Hl. unfold fbytes, sub_bytes. apply list_eq. intros j. rewrite list_lookup_fmap.
  destruct (decide (Z.of_nat j < m)).
  - rewrite lookup_seqZ_lt, lookup_take_lt, lookup_drop by lia. simpl. unfold fbyte, byte_at.
    rewrite Z.add_0_l. assert ((off + Z.of_nat j) / 512 = off / 512 ∧ (off + Z.of_nat j) `mod` 512 = off `mod` 512 + Z.of_nat j) as [-> ->] by dlia.
    rewrite nth_lookup. destruct (lookup_lt_is_Some_2 (fblock D P ip (off / 512)) (Z.to_nat (off `mod` 512) + j)) as [v Hv]; [dlia|].
    replace (Z.to_nat (off `mod` 512 + Z.of_nat j)) with (Z.to_nat (off `mod` 512) + j)%nat by dlia. by rewrite Hv.
  - rewrite lookup_seqZ_ge, lookup_take_ge by lia. done.
Qed.

Section Reads.
Context (pid : Z) (st sz : nat) (D : list (list Z)) (P : gmap nat (list Z)) (sb : superblock) (i : nat) (ip : inode).
Context (HP : (size P < NBUF)%nat) (K : file_ok st sz D sb P ip) (Hdev : i_dev ip = 1).

(** The cache with nothing in use, and the inode in its place. *)
Definition rst (k0 k : kernel) : Prop := cst pid (Cache D P ∅) k0 k ∧ k_icache k0 !! i = Some ip.

Lemma rst_inode k0 k o : rst k0 k → rd_inode i o k = Ok ip k o.
Proof. intros [S E]. apply rd_inode_eq. by rewrite (cst_icache _ _ _ _ S). Qed.

(** Reading a block for as long as [f] looks at it. *)
Lemma rst_peek {A} k0 k o b (f : nat → KM A) Q C :
  rst k0 k → kept st sz D sb P b →
  (∀ bp k1, cst pid (in_use D P ∅ bp (Z.to_nat b) (lview D P (Z.to_nat b))) k0 k1 → cruns (f bp) o k1 Q C) →
  cruns (bind (bread 1 b) f) o k Q C.
Proof.
  intros [S _] Kb Hf. pose proof (kp_range _ _ _ _ _ _ Kb). replace b with (Z.of_nat (Z.to_nat b)) at 1 by lia.
  apply cruns_bind. eapply cruns_mono; [eapply bread_spec; [exact S|]| |done].
  - apply can_read_idle; [apply Kb|by right].
  - intros bp k1 [_ S1]. by apply Hf.
Qed.

Lemma bmap_found k0 k o bn C :
  rst k0 k → 0 ≤ bn < 140 → slot D P ip (slot_of bn) ≠ 0 →
  cruns (bmap i bn) o k (λ a k', a = slot D P ip (slot_of bn) ∧ rst k0 k') C.
Proof.
  intros R Hbn H0. unfold bmap. change (Z.of_nat NDIRECT) with 12. change NDIRECT with 12%nat. change NINDIRECT with 128.
  destruct (Z.ltb_spec bn 12) as [Hlow|Hhigh].
  - assert (slot_of bn = Z.to_nat bn) as Es by (unfold slot_of; by rewrite (proj2 (Z.ltb_lt _ _))).
    rewrite Es, slot_low in H0 |- * by lia. eapply cruns_step; [by eapply rst_inode|done|].
    rewrite (proj2 (Z.eqb_neq _ _)) by done. by apply cruns_ret.
  - assert (slot_of bn = Z.to_nat (bn + 1)) as Es by (unfold slot_of; by rewrite (proj2 (Z.ltb_ge _ _)) by lia).
    assert (addr_at 12 ip ≠ 0) as Hind by (intros E; apply H0; rewrite Es; apply slot_none; [lia|done]).
    assert (kept st sz D sb P (addr_at 12 ip)) as Kind.
    { rewrite <- (slot_low D P ip 12) in Hind |- * by lia. by apply (fo_kept _ _ _ _ _ _ K); [lia|]. }
    destruct (Z.ltb_spec (bn - 12) 128) as [_|]; [|lia].
    eapply cruns_step; [by eapply rst_inode|done|]. rewrite (proj2 (Z.eqb_neq _ _)), Hdev by done.
    eapply (cruns_step (ret (addr_at 12 ip))); [done|done|].
    eapply rst_peek; [done|done|]. intros bp k1 S1. eapply rd_buf_spec; [exact S1|apply lookup_insert_eq|]. simpl b_data.
    rewrite Es, slot_high in H0 |- * by (done || lia). replace (4 * (bn - 12)) with (4 * (Z.of_nat (Z.to_nat (bn + 1)) - 13)) by lia.
    rewrite (proj2 (Z.eqb_neq _ _)) by done. eapply cruns_step; [done|done|]. apply cruns_bind.
    eapply cruns_mono; [eapply use_release; [exact S1|done|apply Kind]| |done].
    intros [] k2 S2. apply cruns_ret. split; [done|]. split; [done|apply R].
Qed.

Lemma cst_set_mem c k0 k m : cst pid c k0 k → cst pid c (set_k_mem m k0) (set_k_mem m k).
Proof.
  intros [Q I E (B & L & D' & T & W & F)]. split; [by apply (quiet_ext pid k)|done|done|].
  exists B, L, D', T, W. rewrite F. by destruct k0.
Qed.
Lemma cst_mem c k0 k : cst pid c k0 k → k_mem k = k_mem k0 ∧ k_cr3 k = k_cr3 k0.
Proof. intros [_ _ _ (B & L & D' & T & W & ->)]. done. Qed.

(** Every block of the file from [off] to [e - 1] is there. *)
Definition present (off e : Z) : Prop := ∀ bn, off / 512 ≤ bn → bn * 512 < e → slot D P ip (slot_of bn) ≠ 0.

Lemma readi_loop_spec put f Iv cr3 n fuel tot off k0 k o C :
  stores put f Iv cr3 n → rst k0 k → k_cr3 k0 = cr3 → Iv (k_mem k0) →
  0 ≤ tot ≤ n → (Z.to_nat (n - tot) < fuel)%nat → 0 ≤ off → off + (n - tot) ≤ 71680 → present off (off + (n - tot)) →
  cruns (readi_loop fuel put i off tot n) o k
    (λ bs k', bs = fbytes D P ip off (n - tot) ∧ rst (set_k_mem (f tot bs (k_mem k0)) k0) k') C.
Proof.
  intros So. revert tot off k0 k. induction fuel as [|fuel IH]; intros tot off k0 k R Hcr HI Ht Hf Ho He Hp; [lia|].
  cbn [readi_loop]. destruct (Z.ltb_spec tot n) as [Hlt|Hge].
  2:{ apply cruns_ret. rewrite fbytes_none, (so_nil _ _ _ _ _ So) by lia. split; [done|]. by destruct k0. }
  change BSIZE with 512. set (bn := off / 512). set (m := Z.min (n - tot) (512 - off `mod` 512)).
  assert (0 < m ≤ n - tot ∧ m ≤ 512 - off `mod` 512 ∧ 0 ≤ bn < 140) as (Hm & Hm' & Hbn) by (unfold m, bn; dlia).
  assert (slot D P ip (slot_of bn) ≠ 0) as H0 by (apply Hp; unfold bn; dlia).
  destruct (slot_of_lt bn Hbn) as [Hs _]. pose proof (fo_kept _ _ _ _ _ _ K _ Hs H0) as Kb.
  apply cruns_bind. eapply cruns_mono; [by apply bmap_found| |done]. intros a k1 [-> R1].
  eapply cruns_step; [by eapply rst_inode|done|]. rewrite Hdev. eapply rst_peek; [done|done|]. intros bp k2 S2.
  eapply rd_buf_spec; [exact S2|apply lookup_insert_eq|]. simpl b_data.
  assert (fblock D P ip bn = lview D P (Z.to_nat (slot D P ip (slot_of bn)))) as Ef.
  { unfold fblock. by rewrite (proj2 (Z.eqb_neq _ _)). }
  rewrite <- Ef. assert (length (fblock D P ip bn) = 512%nat) as Hl by (rewrite Ef; apply Kb).
  assert (sub_bytes (fblock D P ip bn) (off `mod` 512) m = fbytes D P ip off m) as ->.
  { symmetry. by apply fbytes_block; [lia|lia|]. }
  set (bs := fbytes D P ip off m).
  pose proof (length_fbytes D P ip off m ltac:(lia)) as Hlen. fold bs in Hlen.
  destruct (cst_mem _ _ _ S2) as [Em Ec]. eapply cruns_step.
  { apply (so_put _ _ _ _ _ So); [lia|lia|congruence|by rewrite Em]. }
  { done. }
  rewrite Em. apply (cst_set_mem _ _ _ (f tot bs (k_mem k0))) in S2. apply cruns_bind.
  eapply cruns_mono; [eapply use_release; [exact S2|done|apply Kb]| |done]. intros [] k3 S3. apply cruns_bind.
  eapply cruns_mono; [apply (IH (tot + m) (off + m) (set_k_mem (f tot bs (k_mem k0)) k0))| |done]; try done; try lia.
  - split; [done|apply R].
  - apply (so_keep _ _ _ _ _ So); [lia|lia|done].
  - intros bn' H1 H2. apply Hp; [unfold m in *; dlia|lia].
  - intros bs' k4 [-> R4]. apply cruns_ret. split.
    + rewrite (fbytes_app D P ip off m (n - tot)) by lia. unfold bs. do 2 f_equal. lia.
    + rewrite (so_app _ _ _ _ _ So), Hlen. revert R4. by destruct k0.
Qed.
End Reads.

(** ** Sources and destinations in memory *)

(** The [n] bytes at [a] are the bytes [phys 0] to [phys (n - 1)]. *)
Definition bytes_in (m : memory) (phys : Z → Z) (n : Z) : list Z := (λ j, m (phys j)) <$> seqZ 0 n.

Lemma vread_eq a n o k phys d :
  (∀ j, 0 ≤ j < Z.of_nat n → addr_of (k_cr3 k) (k_mem k) (u32 (a + (d + j))) = Some (phys (d + j))) →
  vread (u32 (a + d)) n o k = Ok ((λ j, k_mem k (phys (d + j))) <$> seqZ 0 (Z.of_nat n)) k o.
Proof.
  revert d. induction n as [|n IH]; intros d Hm; [done|]. cbn [vread].
  rewrite (bind_ok _ _ _ _ _ _ _ (vread8_eq (u32 (a + d)) o k (phys d) ltac:(rewrite <- (Z.add_0_r d) at 2; rewrite <- (Hm 0) by lia; by rewrite Z.add_0_r))).
  assert (u32 (u32 (a + d) + 1) = u32 (a + (d + 1))) as ->.
  { unfold u32. rewrite Zplus_mod_idemp_l. f_equal. lia. }
  rewrite (bind_ok _ _ _ _ _ _ _ (IH (d + 1) ltac:(intros j Hj; rewrite <- Z.add_assoc; apply Hm; lia))). unfold ret. f_equal.
  rewrite (seqZ_cons 0 (Z.of_nat (S n))) by lia. simpl. rewrite Z.add_0_r. f_equal.
  replace (Z.pred (Z.of_nat (S n))) with (Z.of_nat n) by lia. apply list_eq. intros j. rewrite !list_lookup_fmap.
  destruct (decide (j < n)%nat).
  - rewrite !lookup_seqZ_lt by lia. simpl. do 3 f_equal. lia.
  - by rewrite !lookup_seqZ_ge by lia.
Qed.

Lemma fetches_mem i k0 a n phys :
  0 ≤ n → (∀ j, 0 ≤ j < n → addr_of (k_cr3 k0) (k_mem k0) (u32 (a + j)) = Some (phys j)) →
  fetches i k0 (from_mem a) (bytes_in (k_mem k0) phys n).
Proof.
  intros Hn Hm d m o k ip g Hd Hm0 Hle (B & L & D' & T & W & ->). unfold bytes_in in Hle. rewrite length_fmap, length_seqZ in Hle.
  unfold from_mem. rewrite (vread_eq a (Z.to_nat m) o _ phys d).
  2:{ intros j Hj. apply Hm. lia. }
  f_equal. change (k_mem (set_k_bufs _ _)) with (k_mem k0). unfold sub_bytes, bytes_in. apply list_eq. intros j. rewrite !list_lookup_fmap.
  destruct (decide (Z.of_nat j < m)).
  - rewrite lookup_seqZ_lt, lookup_take_lt, lookup_drop, list_lookup_fmap, lookup_seqZ_lt by lia. simpl. do 3 f_equal. lia.
  - rewrite lookup_seqZ_ge, lookup_take_ge by lia. done.
Qed.

Lemma fetches_local i k0 l : fetches i k0 (from_local l) l.
Proof. by intros d m o k ip g. Qed.

Fixpoint put_bytes (phys : Z → Z) (d : Z) (l : list Z) (m : memory) : memory :=
  match l with [] => m | x :: l' => put_bytes phys (d + 1) l' (st8 m (phys d) x) end.

Lemma vwrite_eq a l o k phys d :
  (∀ m', (∀ x, (∀ j, 0 ≤ j < Z.of_nat (length l) → x ≠ phys (d + j)) → m' x = k_mem k x) →
     ∀ j, 0 ≤ j < Z.of_nat (length l) → addr_of (k_cr3 k) m' (u32 (a + (d + j))) = Some (phys (d + j))) →
  vwrite (u32 (a + d)) l o k = Ok tt (set_k_mem (put_bytes phys d l (k_mem k)) k) o.
Proof.
  revert d k. induction l as [|x l IH]; intros d k Hm; cbn [vwrite put_bytes length] in *.
  { unfold ret. f_equal. by destruct k. }
  rewrite (bind_ok _ _ _ _ _ _ _ (vwrite8_eq (u32 (a + d)) x o k (phys d)
    ltac:(pose proof (Hm (k_mem k) ltac:(done) 0 ltac:(lia)) as E; by rewrite Z.add_0_r in E))).
  assert (u32 (u32 (a + d) + 1) = u32 (a + (d + 1))) as ->.
  { unfold u32. rewrite Zplus_mod_idemp_l. f_equal. lia. }
  rewrite IH; [by destruct k|]. kproj. intros m' Hm' j Hj. rewrite <- Z.add_assoc. apply Hm; [|lia].
  intros y Hy. rewrite Hm'.
  - unfold st8. destruct (Z.eqb_spec y (phys d)) as [->|]; [|done]. exfalso. apply (Hy 0); [lia|]. by rewrite Z.add_0_r.
  - intros j' Hj'. rewrite <- Z.add_assoc. apply Hy. lia.
Qed.

Lemma put_bytes_other phys d l m x : (∀ j, 0 ≤ j < Z.of_nat (length l) → x ≠ phys (d + j)) → put_bytes phys d l m x = m x.
Proof.
  revert d m. induction l as [|y l IH]; intros d m Hx; [done|]. cbn [put_bytes length] in *. rewrite IH.
  - unfold st8. destruct (Z.eqb_spec x (phys d)) as [->|]; [|done]. exfalso. apply (Hx 0); [lia|]. by rewrite Z.add_0_r.
  - intros j Hj. rewrite <- Z.add_assoc. apply Hx. lia.
Qed.

(** A destination in memory of which no byte belongs to the page table. *)
Lemma stores_mem cr3 m a n phys :
  stays_mapped cr3 m a n phys →
  stores (to_mem a) (put_bytes phys) (λ m', ∀ x, (∀ j, 0 ≤ j < n → x ≠ phys j) → m' x = m x) cr3 n.
Proof.
  intros Hs. split.
  - intros d bs o k Hd Hle <- HI. unfold to_mem. apply vwrite_eq. intros m' Hm' j Hj. apply Hs; [|lia].
    intros x Hx. rewrite Hm', HI; [done|done|]. intros j' Hj'. apply Hx. lia.
  - intros d bs m' Hd Hle HI x Hx. rewrite put_bytes_other, HI; [done|done|]. intros j Hj. apply Hx. lia.
  - done.
  - intros d l. revert d. induction l as [|y l IH]; intros d l' m'; simpl; [by rewrite Z.add_0_r|].
    rewrite IH. f_equal. lia.
Qed.

(** ** Main theorems *)

Section Main.
Context {devsw : DevSw}.

Lemma with_inode_id i k0 ip : k_icache k0 !! i = Some ip → with_inode i k0 ip (k_log k0) = k0.
Proof. intros E. unfold with_inode. rewrite list_insert_id by done. by destruct k0. Qed.

(** [C3] Writing a file.  In a transaction with room in the log for the blocks of
    the write, the bitmap, the indirect block and the inode, and with enough free
    blocks, writei of the bytes [bs] at [off] returns their number; afterwards the
    file reads as before except for these bytes, its size is the old one or the end
    of the write, its invariant holds (every block up to the size present, pointers
    distinct and in use, the inode on the disk the same as in the cache), and every
    file that shares no block with it reads as before.  A write that would begin past
    the end or go past the largest size returns -1 and changes nothing. *)
Theorem writei_contents pid st sz room D P i ip k0 k o src bs off :
  let n := Z.of_nat (length bs) in
  in_txn pid st sz ∅ room D P k0 k → k_icache k0 !! i = Some ip → file_inv st sz D k0 P ip → i_dev ip = 1 →
  i_type ip ≠ T_DEV → 0 ≤ off → off + n < 4294967296 → fetches i k0 src bs →
  space D (k_sb k0) P ip (off / 512) ((off + n + 511) / 512) →
  budget (k_sb k0) P ip ((off + n + 511) / 512 - off / 512) room →
  if (off <=? i_size ip) && (off + n <=? 71680) then
    ∃ k' P' ip' room' g, writei src i off n o k = Ok n k' o ∧ same_ops g (k_log k0) ∧ in_txn pid st sz ∅ room' D P' (with_inode i k0 ip' g) k' ∧
      wrote st sz D k0 P ip off bs P' ip'
  else writei src i off n o k = Ok (-1) k o.
Proof.
  intros n T Hi I Hdev Hty Ho Hov Hsrc Hsp Hbu.
  assert (wst pid st sz D i k0 ∅ room P ip k) as W by (exists (k_log k0); by rewrite with_inode_id).
  destruct (Z.leb_spec off (i_size ip)), (Z.leb_spec (off + n) 71680); cbn [andb].
  1: destruct (cruns_total _ _ _ _ (writei_spec pid st sz D i k0 (lookup_lt_Some _ _ _ Hi) src bs off n _ room P ip k o _
      Hsrc eq_refl W I Hdev Hty ltac:(lia) ltac:(lia) (Z.le_refl _) Hsp Hbu)) as (r & k' & E & -> & P' & ip' & room' & (g & Hg & T') & Hw & _).
  1: exists k', P', ip', room', g; by split_and!.
  all: unfold writei; rewrite (bind_ok _ _ _ _ _ _ _ (wst_inode _ _ _ _ _ _ (lookup_lt_Some _ _ _ Hi) _ _ _ _ _ o W)).
  all: rewrite (proj2 (Z.eqb_neq _ _)) by done; rewrite u32_small by lia.
  - rewrite (proj2 (Z.ltb_ge (i_size ip) off)), (proj2 (Z.ltb_ge (off + n) off)) by lia. cbn [orb].
    change (MAXFILE * BSIZE) with 71680. by rewrite (proj2 (Z.ltb_lt 71680 (off + n))) by lia.
  - by rewrite (proj2 (Z.ltb_lt (i_size ip) off)) by lia.
  - by rewrite (proj2 (Z.ltb_lt (i_size ip) off)) by lia.
Qed.

Lemma readi_reads pid st sz D P i ip k0 k o put f Iv off n :
  let cnt := Z.min n (i_size ip - off) in
  cst pid (Cache D P ∅) k0 k → k_icache k0 !! i = Some ip → (size P < NBUF)%nat → file_inv st sz D k0 P ip → i_dev ip = 1 →
  i_type ip ≠ T_DEV → 0 ≤ off ≤ i_size ip → 0 ≤ n → off + n < 4294967296 → stores put f Iv (k_cr3 k0) cnt → Iv (k_mem k0) →
  cruns (readi put i off n) o k (λ r k', r = (cnt, fbytes D P ip off cnt) ∧
    cst pid (Cache D P ∅) (set_k_mem (f 0 (fbytes D P ip off cnt) (k_mem k0)) k0) k') (λ _, False).
Proof.
  intros cnt S Hi HP I Hdev Hty Ho Hn Hov So HI. assert (rst pid D P i ip k0 k) as R by done.
  pose proof (fi_size _ _ _ _ _ _ I) as Hsz.
  unfold readi. eapply cruns_step; [exact (rst_inode _ _ _ _ _ _ _ o R)|done|]. rewrite (proj2 (Z.eqb_neq _ _)) by done.
  rewrite u32_small by lia. rewrite (proj2 (Z.ltb_ge (i_size ip) off)), (proj2 (Z.ltb_ge (off + n) off)) by lia. cbn [orb].
  assert ((if i_size ip <? off + n then i_size ip - off else n) = cnt) as -> by (unfold cnt; case_match; lia).
  apply cruns_bind. eapply cruns_mono; [apply (readi_loop_spec pid st sz D P (k_sb k0) i ip HP (fi_file _ _ _ _ _ _ I) Hdev put f Iv (k_cr3 k0) cnt
    (Datatypes.S (Z.to_nat cnt)) 0 off k0 k o (λ _, False) So R eq_refl HI ltac:(lia) ltac:(lia) ltac:(lia) ltac:(lia)
    ltac:(intros bn H1 H2; apply (fi_full _ _ _ _ _ _ I); dlia))| |done].
  intros bs k' [-> [S' _]]. apply cruns_ret. rewrite Z.sub_0_r in *. split; [|done]. f_equal. apply i32_small. lia.
Qed.

(** [C9] Reading a file.  readi returns the number of bytes between [off] and the
    end of the file, at most [n], and stores exactly those bytes of the file, in
    order, at the destination; nothing else of memory and nothing of the disk or of
    the cached blocks changes.  Beginning past the end, or a range that wraps around,
    gives -1.  It holds inside and outside a transaction. *)
Theorem readi_contents pid st sz D P i ip k0 k o put f Iv off n :
  let cnt := Z.min n (i_size ip - off) in
  cst pid (Cache D P ∅) k0 k → k_icache k0 !! i = Some ip → (size P < NBUF)%nat → file_inv st sz D k0 P ip → i_dev ip = 1 →
  i_type ip ≠ T_DEV → 0 ≤ off < 4294967296 → 0 ≤ n < 4294967296 → stores put f Iv (k_cr3 k0) cnt → Iv (k_mem k0) →
  if (off <=? i_size ip) && (off + n <? 4294967296) then
    ∃ k', readi put i off n o k = Ok (cnt, fbytes D P ip off cnt) k' o ∧
      cst pid (Cache D P ∅) (set_k_mem (f 0 (fbytes D P ip off cnt) (k_mem k0)) k0) k'
  else readi put i off n o k = Ok (-1, []) k o.
Proof.
  intros cnt S Hi HP I Hdev Hty Ho Hn So HI. assert (rst pid D P i ip k0 k) as R by done.
  destruct (Z.leb_spec off (i_size ip)), (Z.ltb_spec (off + n) 4294967296); cbn [andb].
  1:{ destruct (cruns_total _ _ _ _ (readi_reads _ _ _ _ _ _ _ _ _ o _ _ _ _ _ S Hi HP I Hdev Hty (conj (proj1 Ho) H) (proj1 Hn) H0 So HI))
        as (r & k' & E & -> & S'). by exists k'. }
  all: unfold readi; rewrite (bind_ok _ _ _ _ _ _ _ (rst_inode _ _ _ _ _ _ _ o R)), (proj2 (Z.eqb_neq _ _)) by done.
  - rewrite (proj2 (Z.ltb_ge (i_size ip) off)) by lia. by rewrite (proj2 (Z.ltb_lt (u32 (off + n)) off)) by (unfold u32; dlia).
  - by rewrite (proj2 (Z.ltb_lt (i_size ip) off)) by lia.
  - by rewrite (proj2 (Z.ltb_lt (i_size ip) off)) by lia.
Qed.
End Main.

(** ** A concrete file

    Forty blocks: the log in the blocks 2 to 31, the inodes in 32, the bitmap in 33;
    inode 3 is a file of 700 bytes in the blocks 34 and 35, and 36 to 39 are free. *)

Definition demo_file_sb : superblock := Superblock 40 6 8 30 2 32 33.
Definition demo_file_ip : inode := Inode 1 3 1 sleeplock0 1 2 0 0 1 700 [34; 35; 0; 0; 0; 0; 0; 0; 0; 0; 0; 0; 0].
Definition demo_file_disk : list (list Z) :=
  replicate 32 (replicate 512 0) ++
  [splice (replicate 512 0) 192 (dinode_bytes demo_file_ip);
   [255; 255; 255; 255; 15] ++ replicate 507 0; replicate 512 1; replicate 512 2] ++ replicate 4 (replicate 512 0).
Definition demo_file : kernel :=
  set_k_icache (demo_file_ip :: replicate 49 inode0)
    (set_k_sb demo_file_sb (set_k_log (Log 2 30 1 0 1 0 (replicate 30 0)) (set_k_disk demo_file_disk demo_kernel))).

Lemma demo_file_booted : booted 1 2 30 demo_file_disk demo_file.
Proof. split; [by apply (quiet_ext 1 demo_kernel), demo_kernel_quiet|done..]. Qed.
Lemma demo_file_txn : in_txn 1 2 30 ∅ 9 demo_file_disk ∅ demo_file demo_file.
Proof.
  assert (hdr_n 2 demo_file_disk = 0%nat) as E by (by vm_compute).
  apply in_txn_boot; [exact demo_file_booted| |exact E|done|simpl; lia|lia].
  split; rewrite ?E; try lia; first [reflexivity | vm_compute; lia].
Qed.

Lemma demo_file_bitmap b : 0 ≤ b < 40 → bmap_block demo_file_sb b = 33%nat.
Proof. intros. unfold bmap_block. simpl. by rewrite Z.div_small by lia. Qed.
Lemma demo_file_used b : 0 ≤ b < 40 → used demo_file_disk ∅ demo_file_sb b = (b <? 36).
Proof.
  intros Hb. unfold used. rewrite demo_file_bitmap, Z.mod_small by lia.
  assert (forallb (λ j, Bool.eqb (bit_of (lview demo_file_disk ∅ 33) (Z.of_nat j)) (Z.of_nat j <? 36)) (seq 0 40) = true) as H by (by vm_compute).
  rewrite forallb_forall in H. specialize (H (Z.to_nat b) ltac:(apply in_seq; lia)).
  rewrite Z2Nat.id in H by lia. by apply eqb_prop in H.
Qed.
Lemma demo_file_slot s : (s < 141)%nat →
  slot demo_file_disk ∅ demo_file_ip s = if decide (s = 0%nat) then 34 else if decide (s = 1%nat) then 35 else 0.
Proof.
  intros Hs. destruct (decide (s ≤ 12)%nat) as [Hle|]; [|rewrite slot_none, !decide_False by (done || lia); done].
  rewrite slot_low by done. do 13 (destruct s as [|s]; [done|]). lia.
Qed.

Lemma demo_file_inv : file_inv 2 30 demo_file_disk demo_file ∅ demo_file_ip.
Proof.
  assert (∀ b, 32 ≤ b < 40 → b ≠ 33 → b < 36 → kept 2 30 demo_file_disk demo_file_sb ∅ b) as Hk.
  { intros b Hb Hn Hu. split; [simpl; lia|rewrite demo_file_used by lia; lia|split; [|lia]| |].
    - change (length demo_file_disk) with 40%nat. lia.
    - assert (b = 32 ∨ b = 34 ∨ b = 35) as [->|[->| ->]] by lia; by vm_compute.
    - intros b' Hb'. rewrite demo_file_bitmap by done. lia. }
  change (inode_block (k_sb demo_file) (i_inum demo_file_ip)) with 32%nat in *.
  split.
  - split; [|by rewrite demo_file_used|done|done]. split.
    + simpl. lia.
    + done.
    + intros b Hb. rewrite demo_file_bitmap by done. split; [split; [change (length demo_file_disk) with 40%nat|]; lia|by vm_compute].
    + intros b Hb. rewrite demo_file_bitmap by done. split; [simpl; lia|]. by rewrite demo_file_used by lia.
    + intros b Hb. rewrite demo_file_used by done. intros Hu%Z.ltb_ge. simpl in Hb. split; [change (length demo_file_disk) with 40%nat|]; lia.
  - split.
    + done.
    + intros s Hs. rewrite demo_file_slot by done. repeat case_decide; intros ?; [apply Hk; lia..|done].
    + intros s s' Hs Hs'. rewrite !demo_file_slot by done. repeat case_decide; intros ? ?; congruence || lia.
    + apply Hk; vm_compute; done.
    + intros s Hs. rewrite demo_file_slot by done. change (inode_block _ _) with 32%nat. repeat case_decide; lia.
  - simpl. lia.
  - intros bn Hbn Hlt. simpl in Hlt. assert (bn = 0 ∨ bn = 1) as [->| ->] by lia; done.
  - split; simpl; try lia. split; [done|]. repeat constructor; lia.
  - intros jp. unfold same_dinode. split_and!; by vm_compute.
Qed.

Lemma demo_file_space : space demo_file_disk demo_file_sb ∅ demo_file_ip (500 / 512) ((500 + 600 + 511) / 512).
Proof. unfold space. apply Nat.leb_le. by vm_compute. Qed.
Lemma demo_file_budget : budget demo_file_sb ∅ demo_file_ip ((500 + 600 + 511) / 512 - 500 / 512) 9.
Proof. unfold budget, log_left. apply Z.leb_le. by vm_compute. Qed.

#[local] Instance demo_devsw : DevSw := {| dev_read := λ _ _ _, ret 0; dev_write := λ _ _ _, ret 0 |}.

Lemma writei_contents_witness :
  ∃ k' P' ip', writei (from_local (replicate 600 7)) 0 500 600 [] demo_file = Ok 600 k' [] ∧
    i_size ip' = 1100 ∧ fbyte demo_file_disk P' ip' 499 = 1 ∧ fbyte demo_file_disk P' ip' 1099 = 7.
Proof.
  destruct (writei_contents 1 2 30 9 demo_file_disk ∅ 0 demo_file_ip demo_file demo_file [] _ (replicate 600 7) 500
    demo_file_txn eq_refl demo_file_inv eq_refl ltac:(done) ltac:(lia) ltac:(simpl; lia) (fetches_local _ _ _)
    demo_file_space demo_file_budget) as (k' & P' & ip' & room' & g & E & _ & _ & Hw).
  exists k', P', ip'. split_and!; [exact E|by rewrite (wo_ip _ _ _ _ _ _ _ _ _ _ Hw)|..].
  - rewrite (wo_bytes _ _ _ _ _ _ _ _ _ _ Hw 499) by lia. by vm_compute.
  - rewrite (wo_bytes _ _ _ _ _ _ _ _ _ _ Hw 1099) by lia. by vm_compute.
Defined.

Lemma readi_contents_witness :
  ∃ k', readi to_local 0 500 400 [] demo_file = Ok (200, replicate 12 1 ++ replicate 188 2) k' [].
Proof.
  destruct (readi_contents 1 2 30 demo_file_disk ∅ 0 demo_file_ip demo_file demo_file [] to_local (λ _ _ m, m) (λ _, True) 500 400
    (it_cst _ _ _ _ _ _ _ _ _ demo_file_txn) eq_refl ltac:(rewrite map_size_empty, NBUF_eq; lia) demo_file_inv eq_refl ltac:(done) ltac:(lia) ltac:(lia)
    (stores_local _ _) I) as (k' & E & _).
  exists k'. rewrite E. f_equal.
Defined.
