(* ===== verification/Mkfs.v ===== *)
(** * The file system image

    [mkfs.c], the program that builds the disk image the kernel starts from.
    The image file is the list of its blocks; the host's files are the pieces
    in which [read] returns them.  [mk_faults] says for the host's calls on the
    image, one after the other, whether they fail; when it is used up they
    succeed.  A run that exits with an error is [Gone], a failed assertion is
    [Panic].  The theorems use the definitions with which the kernel reads the
    image: the super block, the layout of inodes and the bitmap of [fs.h]. *)

From S2P Require Import Prelude Defs Kernel Bytes Bio Log Fs Blocks.
Local Open Scope kernel_scope.

(** ** Layout *)

Definition NINODES : Z := 200.

(** Four bytes in the order of the disk, as a little-endian host reads them. *)
Definition xshort (x : Z) : Z := u8 x + 256 * u8 (Z.shiftr x 8).
Definition xint (x : Z) : Z :=
  u8 x + 256 * u8 (Z.shiftr x 8) + 65536 * u8 (Z.shiftr x 16) + 16777216 * u8 (Z.shiftr x 24).

Definition nbitmap : Z := FSSIZE / (BSIZE * 8) + 1.
Definition ninodeblocks : Z := NINODES / IPB + 1.
Definition nlog : Z := LOGSIZE.
Definition nmeta : Z := 2 + nlog + ninodeblocks + nbitmap.
Definition nblocks : Z := FSSIZE - nmeta.

Definition mk_sb : superblock :=
  Superblock (xint FSSIZE) (xint nblocks) (xint NINODES) (xint nlog) (xint 2)
    (xint (2 + nlog)) (xint (2 + nlog + ninodeblocks)).
Definition sb_bytes (sb : superblock) : list Z :=
  bytes32 (sb_size sb) ++ bytes32 (sb_nblocks sb) ++ bytes32 (sb_ninodes sb) ++ bytes32 (sb_nlog sb)
  ++ bytes32 (sb_logstart sb) ++ bytes32 (sb_inodestart sb) ++ bytes32 (sb_bmapstart sb).

(** ** The state of a run *)

Record mkst := Mkst {
  mk_img : list (list Z);  (* fs.img, by blocks *)
  mk_freeinode : Z;
  mk_freeblock : Z;
  mk_faults : list bool
}.
Definition MK (A : Type) : Type := M mkst A.

Definition set_img (x : list (list Z)) (s : mkst) : mkst := Mkst x (mk_freeinode s) (mk_freeblock s) (mk_faults s).
Definition set_freeinode (x : Z) (s : mkst) : mkst := Mkst (mk_img s) x (mk_freeblock s) (mk_faults s).
Definition set_freeblock (x : Z) (s : mkst) : mkst := Mkst (mk_img s) (mk_freeinode s) x (mk_faults s).
Definition set_faults (x : list bool) (s : mkst) : mkst := Mkst (mk_img s) (mk_freeinode s) (mk_freeblock s) x.

Definition zeroes : list Z := replicate (Z.to_nat BSIZE) 0.

(** A call of the host on the image: does it fail? *)
Definition host_fails : MK bool := λ o s,
  match mk_faults s with
  | [] => Ok false s o
  | b :: l => Ok b (set_faults l s) o
  end.

(** [sec * BSIZE] is a [uint]. *)
Definition sector (sec : Z) : nat := Z.to_nat (u32 (sec * BSIZE) / BSIZE).

(** Writing behind the end of a file leaves a hole of zero bytes. *)
Definition write_block (n : nat) (b : list Z) (img : list (list Z)) : list (list Z) :=
  if (n <? length img)%nat then <[n := b]> img
  else img ++ replicate (n - length img) zeroes ++ [b].

Definition wsect (sec : Z) (buf : list Z) : MK unit :=
  let! e := host_fails in
  if e then gone else
  let! e := host_fails in
  if e then gone else
  modify (λ s, set_img (write_block (sector sec) buf (mk_img s)) s).

Definition rsect (sec : Z) : MK (list Z) :=
  let! e := host_fails in
  if e then gone else
  let! e := host_fails in
  if e then gone else
  let! img := gets mk_img in
  match img !! sector sec with
  | Some b => ret b
  | None => gone
  end.

(** ** Inodes: a struct dinode is its 64 bytes *)

Definition winode (inum : Z) (ip : list Z) : MK unit :=
  let bn := IBLOCK inum mk_sb in
  let! buf := rsect bn in
  wsect bn (splice buf (inum `mod` IPB * 64) ip).

Definition rinode (inum : Z) : MK (list Z) :=
  let bn := IBLOCK inum mk_sb in
  let! buf := rsect bn in
  ret (sub_bytes buf (inum `mod` IPB * 64) 64).

Definition put16 (l : list Z) (off v : Z) : list Z := splice l off (bytes16 v).

Definition mk_ialloc (type : Z) : MK Z :=
  let! inum := gets mk_freeinode in
  modify (set_freeinode (u32 (inum + 1))) ;;;
  let din := replicate 64 0 in
  let din := put16 din 0 (xshort type) in
  let din := put16 din 6 (xshort 1) in
  let din := put32 din 8 (xint 0) in
  winode inum din ;;;
  ret inum.

Definition mk_balloc (used : Z) : MK unit :=
  if negb (used <? BSIZE * 8) then panic "assertion"
  else
    let buf := foldl (λ l i, set_byte l (Z.of_nat i / 8) (Z.lor (byte_at l (Z.of_nat i / 8)) (bit_mask (Z.of_nat i))))
                 (replicate (Z.to_nat BSIZE) 0) (seq 0 (Z.to_nat used)) in
    wsect (sb_bmapstart mk_sb) buf.

(** [freeblock++] *)
Definition next_block : MK Z :=
  let! b := gets mk_freeblock in
  modify (set_freeblock (u32 (b + 1))) ;;;
  ret b.

(** [din.addrs[i]] *)
Definition mk_addr (din : list Z) (i : Z) : Z := get32 din (12 + 4 * i).

(** [if(xint(din.addrs[i]) == 0) din.addrs[i] = xint(freeblock++);] *)
Definition mk_direct (din : list Z) (i : Z) : MK (list Z) :=
  if xint (mk_addr din i) =? 0 then
    let! b := next_block in ret (put32 din (12 + 4 * i) (xint b))
  else ret din.

(** The block of the file block [fbn], allocated where it is missing. *)
Definition iappend_block (din : list Z) (fbn : Z) : MK (list Z * Z) :=
  if fbn <? Z.of_nat NDIRECT then
    let! din := mk_direct din fbn in
    ret (din, xint (mk_addr din fbn))
  else
    let! din := mk_direct din (Z.of_nat NDIRECT) in
    let! indirect := rsect (xint (mk_addr din (Z.of_nat NDIRECT))) in
    let i := 4 * (fbn - Z.of_nat NDIRECT) in
    let! indirect :=
      (if get32 indirect i =? 0 then
         let! b := next_block in
         let indirect := put32 indirect i (xint b) in
         wsect (xint (mk_addr din (Z.of_nat NDIRECT))) indirect ;;;
         ret indirect
       else ret indirect) in
    ret (din, xint (get32 indirect i)).

(** Every round appends at least one byte. *)
Fixpoint iappend_loop (fuel : nat) (din : list Z) (off : Z) (p : list Z) : MK (list Z * Z) :=
  match fuel with
  | O => undef "loop bound"
  | S f =>
      let n := Z.of_nat (length p) in
      if 0 <? n then
        let fbn := off / BSIZE in
        if negb (fbn <? MAXFILE) then panic "assertion"
        else
          let! r := iappend_block din fbn in
          let '(din, x) := r in
          let n1 := Z.min n (u32 ((fbn + 1) * BSIZE - off)) in
          let! buf := rsect x in
          wsect x (splice buf (off - fbn * BSIZE) (take (Z.to_nat n1) p)) ;;;
          iappend_loop f din (u32 (off + n1)) (drop (Z.to_nat n1) p)
      else ret (din, off)
  end.

Definition iappend (inum : Z) (p : list Z) : MK unit :=
  let! din := rinode inum in
  let off := xint (get32 din 8) in
  let! r := iappend_loop (S (length p)) din off p in
  let '(din, off) := r in
  winode inum (put32 din 8 (xint off)).

(** ** main *)

(** struct dirent, zeroed, with [strncpy] or [strcpy] of a shorter name. *)
Definition dirent_bytes (inum : Z) (name : list Z) : list Z :=
  bytes16 (xshort inum) ++ take DIRSIZ (name ++ replicate DIRSIZ 0).

(** The name without a leading underscore. *)
Definition skip_underscore (name : list Z) : list Z :=
  match name with c :: r => if c =? 95 then r else name | [] => name end.

(** One argument: its name, and the pieces in which the host reads the file, if
    it can be opened. *)
Definition mkfs_file (rootino : Z) (arg : list Z * option (list (list Z))) : MK unit :=
  let '(name, file) := arg in
  if existsb (Z.eqb 47) name then panic "assertion"
  else
    match file with
    | None => gone
    | Some chunks =>
        let! inum := mk_ialloc T_FILE in
        iappend rootino (dirent_bytes inum (skip_underscore name)) ;;;
        for_each chunks (iappend inum)
    end.

(** The size of the root directory is rounded up, and the bitmap is written. *)
Definition mkfs_end (rootino : Z) : MK unit :=
  let! din := rinode rootino in
  let off := xint (get32 din 8) in
  let off := u32 ((off / BSIZE + 1) * BSIZE) in
  winode rootino (put32 din 8 (xint off)) ;;;
  let! used := gets mk_freeblock in
  mk_balloc (i32 used).

(** The arguments: whether the image file can be created, if it is named at
    all, and the files. *)
Definition mkfs_main (image : option bool) (args : list (list Z * option (list (list Z)))) : MK unit :=
  if negb (default false image) then gone else
  modify (set_freeblock nmeta) ;;;
  for_each (seq 0 (Z.to_nat FSSIZE)) (λ i, wsect (Z.of_nat i) zeroes) ;;;
  wsect 1 (splice zeroes 0 (sb_bytes mk_sb)) ;;;
  let! rootino := mk_ialloc T_DIR in
  if negb (rootino =? ROOTINO) then panic "assertion"
  else
    iappend rootino (dirent_bytes rootino [46]) ;;;
    iappend rootino (dirent_bytes rootino [46; 46]) ;;;
    for_each args (mkfs_file rootino) ;;;
    mkfs_end rootino.

(** ** Blocks of the image *)

Definition blk (img : list (list Z)) (n : Z) : list Z := nth (Z.to_nat n) img [].

Record img_ok (img : list (list Z)) : Prop := {
  io_blocks : length img = 1000%nat;
  io_bytes : Forall (λ b, length b = 512%nat) img
}.

Lemma xint_u32 x : xint x = u32 x.
Proof. unfold xint. rewrite !Z.shiftr_div_pow2 by lia. apply bytes_of_word. Qed.
Lemma xint_small x : 0 ≤ x < 4294967296 → xint x = x.
Proof. rewrite xint_u32. apply u32_small. Qed.
Lemma xshort_small x : 0 ≤ x < 65536 → xshort x = x.
Proof. intros. unfold xshort, u8. rewrite Z.shiftr_div_pow2 by lia. change (2 ^ 8) with 256. dlia. Qed.

Lemma sector_small sec : 0 ≤ sec < 1000 → sector sec = Z.to_nat sec.
Proof. intros. unfold sector. rewrite u32_small by (unfold BSIZE; lia). f_equal. unfold BSIZE. dlia. Qed.

Lemma blk_insert img i b j :
  0 ≤ i < Z.of_nat (length img) → 0 ≤ j → blk (<[Z.to_nat i := b]> img) j = if j =? i then b else blk img j.
Proof.
  intros Hi Hj. unfold blk. rewrite !nth_lookup. destruct (Z.eqb_spec j i) as [->|].
  - by rewrite list_lookup_insert_eq by lia.
  - by rewrite list_lookup_insert_ne by lia.
Qed.
Lemma blk_length img n : img_ok img → 0 ≤ n < 1000 → length (blk img n) = 512%nat.
Proof.
  intros [Hl Hb] Hn. unfold blk. rewrite nth_lookup.
  destruct (lookup_lt_is_Some_2 img (Z.to_nat n)) as [b E]; [lia|]. rewrite E. by apply (Forall_lookup_1 _ _ _ _ Hb E).
Qed.
Lemma img_ok_insert img i b : img_ok img → length b = 512%nat → img_ok (<[Z.to_nat i := b]> img).
Proof. intros [Hl Hb] E. split; [by rewrite length_insert|by apply Forall_insert]. Qed.

(** The calls on an image file of full size, when the host does not fail. *)
Lemma wsect_eq sec b o img fi fb :
  0 ≤ sec < 1000 → img_ok img →
  wsect sec b o (Mkst img fi fb []) = Ok tt (Mkst (<[Z.to_nat sec := b]> img) fi fb []) o.
Proof.
  intros Hs [Hl _]. unfold wsect, bind, host_fails, modify, set_img, write_block. cbn [mk_faults mk_img mk_freeinode mk_freeblock].
  rewrite sector_small by done. by rewrite (proj2 (Nat.ltb_lt _ _)) by lia.
Qed.
Lemma rsect_eq sec o img fi fb :
  0 ≤ sec < 1000 → img_ok img → rsect sec o (Mkst img fi fb []) = Ok (blk img sec) (Mkst img fi fb []) o.
Proof.
  intros Hs [Hl _]. unfold rsect, bind, host_fails, gets. cbn [mk_faults mk_img].
  rewrite sector_small by done. unfold blk. rewrite nth_lookup.
  destruct (lookup_lt_is_Some_2 img (Z.to_nat sec)) as [b E]; [lia|]. by rewrite E.
Qed.
Lemma next_block_eq o img fi fb :
  0 ≤ fb < 1000 → next_block o (Mkst img fi fb []) = Ok fb (Mkst img fi (fb + 1) []) o.
Proof. intros. unfold next_block. mrun. unfold set_freeblock. cbn. by rewrite u32_small by lia. Qed.

(** ** The block map of a file

    A file owns its data blocks [blks] and its indirect block [ind]. *)

Record blockmap (img : list (list Z)) (din blks : list Z) (ind : option Z) : Prop := {
  fm_din : length din = 64%nat;
  fm_dir : ∀ j, 0 ≤ j < 12 → mk_addr din j = nth (Z.to_nat j) blks 0;
  fm_ind : mk_addr din 12 = default 0 ind;
  fm_has : match ind with Some _ => 12 ≤ length blks | None => length blks ≤ 12 end%nat;
  fm_ent : ∀ x j, ind = Some x → 0 ≤ j < 128 → get32 (blk img x) (4 * j) = nth (Z.to_nat (12 + j)) blks 0
}.

Definition own (blks : list Z) (ind : option Z) : list Z := blks ++ option_list ind.

(** The blocks from [fb] on are unused and zero; those in [used] are different. *)
Record space (img : list (list Z)) (fb : Z) (used : list Z) : Prop := {
  sp_img : img_ok img;
  sp_nodup : NoDup used;
  sp_range : Forall (λ b, nmeta ≤ b < fb) used;
  sp_zero : ∀ b, fb ≤ b < 1000 → blk img b = zeroes;
  sp_top : nmeta ≤ fb ≤ 1000
}.

(** What an append to a file leaves alone. *)
Definition keeps (img img' : list (list Z)) (oth : list Z) : Prop :=
  ∀ b, 0 ≤ b → b < nmeta ∨ b ∈ oth → blk img' b = blk img b.

Lemma nmeta_eq : nmeta = 59.
Proof. reflexivity. Qed.
Lemma get32_zeroes off : get32 zeroes off = 0.
Proof.
  assert (∀ j, byte_at zeroes j = 0) as H; [|unfold get32; by rewrite !H].
  intros j. unfold byte_at, zeroes. rewrite nth_lookup. destruct (_ !! _) eqn:E; [|done]. by apply lookup_replicate in E as [-> _].
Qed.

Lemma nth_snoc (l : list Z) b j : nth j (l ++ [b]) 0 = if (j =? length l)%nat then b else nth j l 0.
Proof.
  rewrite !nth_lookup. destruct (Nat.eqb_spec j (length l)) as [->|Hj].
  - by rewrite list_lookup_middle.
  - destruct (decide (j < length l)%nat); [by rewrite lookup_app_l|].
    rewrite lookup_app_r, (lookup_ge_None_2 l) by lia. by rewrite lookup_ge_None_2 by (simpl; lia).
Qed.
Lemma nth_big (l : list Z) j : (length l ≤ j)%nat → nth j l 0 = 0.
Proof. intros. by rewrite nth_overflow. Qed.

Lemma mk_addr_put din i v j :
  length din = 64%nat → 0 ≤ i ≤ 12 → 0 ≤ j ≤ 12 → 0 ≤ v < 4294967296 →
  mk_addr (put32 din (12 + 4 * i) v) j = if j =? i then v else mk_addr din j.
Proof.
  intros Hl Hi Hj Hv. unfold mk_addr. destruct (Z.eqb_spec j i) as [->|].
  - rewrite get32_put32 by lia. by apply u32_small.
  - apply get32_put32_other; lia.
Qed.

(** A direct block, the indirect block and an entry of it are added. *)
Lemma blockmap_direct img din blks b :
  blockmap img din blks None → (length blks < 12)%nat → 0 ≤ b < 4294967296 →
  blockmap img (put32 din (12 + 4 * Z.of_nat (length blks)) b) (blks ++ [b]) None.
Proof.
  intros [H1 H2 H3 H4 H5] Hn Hb. split; [by rewrite length_put32 by lia| | |rewrite length_app; simpl; lia|done].
  - intros j Hj. rewrite mk_addr_put, nth_snoc by lia.
    destruct (Z.eqb_spec j (Z.of_nat (length blks))), (Nat.eqb_spec (Z.to_nat j) (length blks)); try lia. by apply H2.
  - rewrite mk_addr_put by lia. by rewrite (proj2 (Z.eqb_neq _ _)) by lia.
Qed.
Lemma blockmap_indirect img din blks b :
  blockmap img din blks None → length blks = 12%nat → 0 ≤ b < 4294967296 → blk img b = zeroes →
  blockmap img (put32 din (12 + 4 * 12) b) blks (Some b).
Proof.
  intros [H1 H2 H3 H4 H5] Hn Hb Hz. split; [by rewrite length_put32 by lia| | |lia|].
  - intros j Hj. rewrite mk_addr_put by lia. rewrite (proj2 (Z.eqb_neq _ _)) by lia. by apply H2.
  - by rewrite mk_addr_put by lia.
  - intros x j [= <-] Hj. rewrite Hz, get32_zeroes, nth_big by lia. done.
Qed.
Lemma blockmap_entry img din blks x b :
  blockmap img din blks (Some x) → (length blks < 140)%nat → 0 ≤ b < 4294967296 → img_ok img → 0 ≤ x < 1000 →
  blockmap (<[Z.to_nat x := put32 (blk img x) (4 * (Z.of_nat (length blks) - 12)) b]> img) din (blks ++ [b]) (Some x).
Proof.
  intros [H1 H2 H3 H4 H5] Hn Hb Hi Hx. split; [done| |done|rewrite length_app; lia|].
  - intros j Hj. rewrite H2, nth_snoc by done. by rewrite (proj2 (Nat.eqb_neq _ _)) by lia.
  - intros x' j [= <-] Hj. rewrite blk_insert, Z.eqb_refl, nth_snoc by (rewrite ?(io_blocks _ Hi); lia).
    pose proof (blk_length img x Hi Hx).
    destruct (Nat.eqb_spec (Z.to_nat (12 + j)) (length blks)).
    + replace (Z.of_nat (length blks) - 12) with j by lia. rewrite get32_put32 by lia. by apply u32_small.
    + rewrite get32_put32_other by lia. by apply H5.
Qed.

(** Taking the next free block, writing a used one. *)
Lemma space_take img fb used used' :
  space img fb used → fb < 1000 → used' ≡ₚ fb :: used → space img (fb + 1) used'.
Proof.
  intros [H1 H2 H3 H4 H5] Hf Hp. split; [done| | | |lia].
  - rewrite Hp. constructor; [|done]. intros Hin. rewrite Forall_forall in H3. specialize (H3 _ Hin). lia.
  - rewrite Hp. constructor; [lia|]. eapply Forall_impl; [done|]. simpl. lia.
  - intros b Hb. apply H4. lia.
Qed.
Lemma space_write img fb used b l :
  space img fb used → b ∈ used → length l = 512%nat → space (<[Z.to_nat b := l]> img) fb used.
Proof.
  intros [H1 H2 H3 H4 H5] Hb Hl. split; [by apply img_ok_insert|done..| |done].
  rewrite Forall_forall in H3. specialize (H3 _ Hb). rewrite nmeta_eq in *. intros c Hc.
  rewrite blk_insert by (rewrite ?(io_blocks _ H1); lia). rewrite (proj2 (Z.eqb_neq _ _)) by lia. by apply H4.
Qed.
Lemma keeps_write img used oth b l fb :
  space img fb (used ++ oth) → b ∈ used → keeps img (<[Z.to_nat b := l]> img) oth.
Proof.
  intros [H1 H2 H3 H4 H5] Hb c Hc Hin. rewrite Forall_forall in H3.
  assert (b ∈ used ++ oth) as Hb' by set_solver. pose proof (H3 _ Hb').
  rewrite nmeta_eq in *. rewrite blk_insert by (rewrite ?(io_blocks _ H1); lia).
  rewrite (proj2 (Z.eqb_neq _ _)); [done|]. intros ->. destruct Hin as [|Hin]; [lia|].
  apply NoDup_app in H2 as (_ & H2 & _). by apply (H2 b).
Qed.

Definition tight (blks : list Z) (ind : option Z) : Prop :=
  match ind with Some _ => 12 < length blks | None => length blks ≤ 12 end%nat.
(** The blocks a file of [n] data blocks takes. *)
Definition cost (n : nat) : Z := Z.of_nat n + (if (12 <? n)%nat then 1 else 0).

Lemma own_length blks ind : tight blks ind → Z.of_nat (length (own blks ind)) = cost (length blks).
Proof.
  unfold tight, cost, own. rewrite length_app. intros Ht.
  destruct ind as [x|]; destruct (Nat.ltb_spec 12 (length blks)); simpl; lia.
Qed.

Lemma take_put32 din off v : (length din = 64)%nat → 12 ≤ off ≤ 60 → take 12 (put32 din off v) = take 12 din.
Proof.
  intros Hl Ho. unfold put32, splice. rewrite take_app_le by (rewrite length_take; lia).
  rewrite take_take. f_equal. lia.
Qed.

Lemma mk_direct_has din i o s : 0 < mk_addr din i < 4294967296 → mk_direct din i o s = Ok din s o.
Proof. intros. unfold mk_direct. rewrite xint_small by lia. by rewrite (proj2 (Z.eqb_neq _ _)) by lia. Qed.
Lemma mk_direct_new din i o img fi fb :
  mk_addr din i = 0 → 0 ≤ fb < 1000 →
  mk_direct din i o (Mkst img fi fb []) = Ok (put32 din (12 + 4 * i) fb) (Mkst img fi (fb + 1) []) o.
Proof.
  intros E Hf. unfold mk_direct. rewrite E. change (xint 0 =? 0) with true. cbn match.
  rewrite (bind_ok _ _ _ _ _ _ _ (next_block_eq o img fi fb Hf)). unfold ret. by rewrite xint_small by lia.
Qed.

(** The state after a block was found or added. *)
Record added (img img' : list (list Z)) (din din' blks blks' : list Z) (ind' : option Z) (oth : list Z) (fb' : Z) : Prop := {
  ad_map : blockmap img' din' blks' ind';
  ad_tight : tight blks' ind';
  ad_space : space img' fb' (own blks' ind' ++ oth);
  ad_keeps : keeps img img' (blks ++ oth);
  ad_head : take 12 din' = take 12 din;
  ad_more : blks `prefix_of` blks'
}.

Lemma own_in blks ind oth fb img b :
  space img fb (own blks ind ++ oth) → b ∈ own blks ind → 59 ≤ b < fb.
Proof. intros H Hb. pose proof (sp_range _ _ _ H) as Hr. rewrite Forall_forall in Hr. apply (Hr b). set_solver. Qed.
Lemma nth_own blks ind n : (n < length blks)%nat → nth n blks 0 ∈ own blks ind.
Proof. intros. unfold own. apply elem_of_app. left. rewrite nth_lookup. destruct (lookup_lt_is_Some_2 blks n) as [x E]; [done|]. rewrite E. by apply list_elem_of_lookup_2 in E. Qed.

(** The entry of the indirect block [x]. *)
Lemma iappend_entry_ok img fi fb din blks x oth o :
  blockmap img din blks (Some x) → space img fb (own blks (Some x) ++ oth) → (length blks < 140)%nat → fb < 1000 →
  let i := 4 * (Z.of_nat (length blks) - 12) in
  let img' := <[Z.to_nat x := put32 (blk img x) i fb]> img in
  bind (rsect (xint (mk_addr din 12))) (λ indirect,
    bind (if get32 indirect i =? 0 then
            bind next_block (λ b, bind (wsect (xint (mk_addr din 12)) (put32 indirect i (xint b))) (λ _, ret (put32 indirect i (xint b))))
          else ret indirect) (λ indirect, ret (din, xint (get32 indirect i)))) o (Mkst img fi fb [])
  = Ok (din, fb) (Mkst img' fi (fb + 1) []) o ∧
  added img img' din din blks (blks ++ [fb]) (Some x) oth (fb + 1).
Proof.
  intros Hm Hs Hn Hf i img'.
  assert (59 ≤ x < fb) as Hx by (eapply own_in; [done|]; unfold own; set_solver).
  pose proof (sp_top _ _ _ Hs). pose proof (sp_img _ _ _ Hs) as Hi. pose proof (blk_length img x Hi ltac:(lia)) as Hlen.
  pose proof (fm_has _ _ _ _ Hm) as Hh. simpl in Hh. rewrite nmeta_eq in *. split.
  - rewrite (fm_ind _ _ _ _ Hm). simpl default. rewrite xint_small by lia.
    rewrite (bind_ok _ _ _ _ _ _ _ (rsect_eq x o img fi fb ltac:(lia) Hi)).
    assert (get32 (blk img x) i = 0) as ->.
    { unfold i. rewrite (fm_ent _ _ _ _ Hm x) by (done || lia). apply nth_big. lia. }
    rewrite Z.eqb_refl, bind_assoc, (bind_ok _ _ _ _ _ _ _ (next_block_eq o img fi fb ltac:(lia))), bind_assoc.
    rewrite (xint_small fb) by lia. rewrite (bind_ok _ _ _ _ _ _ _ (wsect_eq x _ o img fi _ ltac:(lia) Hi)). mrun.
    unfold ret. rewrite get32_put32 by lia. by rewrite xint_small, u32_small by auto with xv6 lia.
  - assert (x ∈ own blks (Some x)) by (unfold own; set_solver). assert (length (put32 (blk img x) i fb) = 512%nat) by (by rewrite length_put32 by lia).
    split; [apply blockmap_entry; (done || lia)|unfold tight; rewrite length_app; simpl; lia| | |done|by eexists].
    + apply (space_take _ _ (own blks (Some x) ++ oth)); [|done|unfold own; solve_Permutation].
      apply space_write; [done|set_solver|done].
    + eapply (keeps_write _ [x]); [|set_solver]. unfold own in Hs. simpl in Hs.
      replace ([x] ++ blks ++ oth) with (([x] ++ blks) ++ oth) by done.
      destruct Hs as [S1 S2 S3 S4 S5]. split; [done| | |done..].
      * by rewrite (Permutation_app_comm [x] blks).
      * by rewrite (Permutation_app_comm [x] blks).
Qed.

Lemma keeps_refl img oth : keeps img img oth.
Proof. by intros b. Qed.
Lemma keeps_trans img img' img'' oth : keeps img img' oth → keeps img' img'' oth → keeps img img'' oth.
Proof. intros H1 H2 b Hb Hin. rewrite H2, H1; done. Qed.

(** The block is there already. *)
Lemma iappend_block_has img fi fb din blks ind oth n o :
  blockmap img din blks ind → tight blks ind → space img fb (own blks ind ++ oth) →
  (n < 140)%nat → length blks = S n →
  iappend_block din (Z.of_nat n) o (Mkst img fi fb []) = Ok (din, nth n blks 0) (Mkst img fi fb []) o ∧
  added img img din din blks blks ind oth fb.
Proof.
  intros Hm Ht Hs Hn Hl. pose proof (own_in _ _ _ _ _ _ Hs (nth_own blks ind n ltac:(lia))) as Hb.
  pose proof (sp_top _ _ _ Hs). rewrite nmeta_eq in *. split; [|split; [done..|apply keeps_refl|done|done]].
  unfold iappend_block. change (Z.of_nat NDIRECT) with 12. destruct (Z.ltb_spec (Z.of_nat n) 12).
  - pose proof (fm_dir _ _ _ _ Hm (Z.of_nat n) ltac:(lia)) as E. rewrite Nat2Z.id in E.
    rewrite (bind_ok _ _ _ _ _ _ _ (mk_direct_has din (Z.of_nat n) o _ ltac:(lia))), E. unfold ret. by rewrite xint_small by lia.
  - unfold tight in Ht. destruct ind as [x|]; [|lia].
    assert (59 ≤ x < fb) as Hx by (eapply own_in; [done|]; unfold own; set_solver).
    pose proof (fm_ind _ _ _ _ Hm) as E. simpl in E.
    rewrite (bind_ok _ _ _ _ _ _ _ (mk_direct_has din 12 o _ ltac:(lia))), E, xint_small by lia.
    rewrite (bind_ok _ _ _ _ _ _ _ (rsect_eq x o img fi fb ltac:(lia) (sp_img _ _ _ Hs))).
    rewrite (fm_ent _ _ _ _ Hm x) by (done || lia). replace (Z.to_nat (12 + (Z.of_nat n - 12))) with n by lia.
    rewrite (proj2 (Z.eqb_neq _ _)) by lia. mrun.
    rewrite (fm_ent _ _ _ _ Hm x) by (done || lia). replace (Z.to_nat (12 + (Z.of_nat n - 12))) with n by lia.
    unfold ret. by rewrite xint_small by lia.
Qed.

(** The block is added. *)
Lemma iappend_block_new img fi fb din blks ind oth n o :
  blockmap img din blks ind → tight blks ind → space img fb (own blks ind ++ oth) →
  (n < 140)%nat → length blks = n → fb + cost (S n) - cost n ≤ 1000 →
  ∃ img' din' b ind', let fb' := fb + cost (S n) - cost n in
  iappend_block din (Z.of_nat n) o (Mkst img fi fb []) = Ok (din', b) (Mkst img' fi fb' []) o ∧
  added img img' din din' blks (blks ++ [b]) ind' oth fb'.
Proof.
  intros Hm Ht Hs Hn Hl Hroom. pose proof (sp_top _ _ _ Hs). rewrite nmeta_eq in *.
  unfold iappend_block. change (Z.of_nat NDIRECT) with 12. unfold cost in *. destruct (Z.ltb_spec (Z.of_nat n) 12).
  - unfold tight in Ht. destruct ind as [x|]; [lia|]. rewrite !(proj2 (Nat.ltb_ge _ _)) in * by lia.
    assert (mk_addr din (Z.of_nat n) = 0) as E by (rewrite (fm_dir _ _ _ _ Hm), nth_big by lia; done).
    exists img, (put32 din (12 + 4 * Z.of_nat n) fb), fb, None. cbn zeta.
    replace (fb + (Z.of_nat (S n) + 0) - (Z.of_nat n + 0)) with (fb + 1) by lia.
    rewrite (bind_ok _ _ _ _ _ _ _ (mk_direct_new din _ o img fi fb E ltac:(lia))).
    rewrite mk_addr_put, Z.eqb_refl, xint_small by (rewrite ?(fm_din _ _ _ _ Hm); lia). split; [done|]. subst n. split.
    + apply blockmap_direct; (done || lia).
    + unfold tight. rewrite length_app. simpl. lia.
    + apply (space_take _ _ _ _ Hs); [lia|]. unfold own. solve_Permutation.
    + apply keeps_refl.
    + apply take_put32; [apply (fm_din _ _ _ _ Hm)|lia].
    + by eexists.
  - destruct ind as [x|]; unfold tight in Ht.
    + assert (59 ≤ x < fb) as Hx by (eapply own_in; [done|]; unfold own; set_solver).
      rewrite !(proj2 (Nat.ltb_lt _ _)) in * by lia.
      destruct (iappend_entry_ok img fi fb din blks x oth o Hm Hs ltac:(lia) ltac:(lia)) as [E Ha]. rewrite Hl in E, Ha.
      eexists _, din, fb, (Some x). cbn zeta. replace (fb + (Z.of_nat (S n) + 1) - (Z.of_nat n + 1)) with (fb + 1) by lia.
      split; [|apply Ha]. pose proof (fm_ind _ _ _ _ Hm) as E2. simpl in E2.
      rewrite (bind_ok _ _ _ _ _ _ _ (mk_direct_has din 12 o _ ltac:(lia))). exact E.
    + assert (length blks = 12%nat) as Hl12 by lia. rewrite (proj2 (Nat.ltb_lt 12 (S n))), (proj2 (Nat.ltb_ge 12 n)) in * by lia.
      pose proof (blockmap_indirect img din blks fb Hm Hl12 ltac:(lia) (sp_zero _ _ _ Hs fb ltac:(lia))) as Hm'.
      assert (space img (fb + 1) (own blks (Some fb) ++ oth)) as Hs' by (apply (space_take _ _ _ _ Hs); [lia|unfold own; solve_Permutation]).
      destruct (iappend_entry_ok img fi (fb + 1) _ blks fb oth o Hm' Hs' ltac:(lia) ltac:(lia)) as [E Ha]. rewrite Hl in E, Ha.
      eexists _, _, (fb + 1), (Some fb). cbn zeta. replace (fb + (Z.of_nat (S n) + 1) - (Z.of_nat n + 0)) with (fb + 1 + 1) by lia.
      split; [|destruct Ha as [A1 A2 A3 A4 A5 A6]; split; [done..| |done]].
      * pose proof (fm_ind _ _ _ _ Hm) as E2. simpl in E2.
        rewrite (bind_ok _ _ _ _ _ _ _ (mk_direct_new din 12 o img fi fb E2 ltac:(lia))). exact E.
      * apply take_put32; [apply (fm_din _ _ _ _ Hm)|lia].
Qed.

(** ** Contents *)

Definition nblk (n : nat) : nat := ((n + 511) / 512)%nat.

Record data_ok (img : list (list Z)) (blks data : list Z) : Prop := {
  da_blks : length blks = nblk (length data);
  da_bytes : ∀ i, (i < length data)%nat → byte_at (blk img (nth (i / 512) blks 0)) (Z.of_nat (i `mod` 512)) = nth i data 0
}.

Lemma iappend_block_ok img fi fb din blks ind oth (data : list Z) o :
  let n := (length data / 512)%nat in
  blockmap img din blks ind → tight blks ind → space img fb (own blks ind ++ oth) → length blks = nblk (length data) →
  (n < 140)%nat → fb + cost (S n) - cost (nblk (length data)) ≤ 1000 →
  ∃ img' din' blks' ind', let fb' := fb + cost (S n) - cost (nblk (length data)) in
  iappend_block din (Z.of_nat n) o (Mkst img fi fb []) = Ok (din', nth n blks' 0) (Mkst img' fi fb' []) o ∧
  length blks' = S n ∧ added img img' din din' blks blks' ind' oth fb'.
Proof.
  intros n Hm Ht Hs Hl Hn Hroom. unfold nblk in *. assert (length blks = n ∨ length blks = S n) as [E|E].
  { subst n. rewrite Hl. clear. set (m := length data). assert (m = 512 * (m / 512) + m `mod` 512)%nat by (apply Nat.div_mod; lia).
    assert (m `mod` 512 < 512)%nat by (apply Nat.mod_upper_bound; lia). 
    destruct (decide (m `mod` 512 = 0)%nat); [left|right]; symmetry; [apply (Nat.div_unique _ _ _ 511)|apply (Nat.div_unique _ _ _ (m `mod` 512 - 1))]; lia. }
  - rewrite <- Hl, E in *. destruct (iappend_block_new img fi fb din blks ind oth n o Hm Ht Hs Hn E Hroom) as (img' & din' & b & ind' & H1 & H2).
    exists img', din', (blks ++ [b]), ind'. rewrite nth_snoc, E, Nat.eqb_refl, length_app, E. split_and!; [exact H1|simpl; lia|exact H2].
  - rewrite <- Hl, E in *. replace (fb + cost (S n) - cost (S n)) with fb in * by lia.
    destruct (iappend_block_has img fi fb din blks ind oth n o Hm Ht Hs Hn E) as [H1 H2]. by exists img, din, blks, ind.
Qed.

Lemma blockmap_write img din blks ind x l fb oth :
  blockmap img din blks ind → space img fb (own blks ind ++ oth) → x ∈ blks → blockmap (<[Z.to_nat x := l]> img) din blks ind.
Proof.
  intros [H1 H2 H3 H4 H5] Hs Hx. split; [done..|]. intros y j -> Hj. rewrite <- (H5 y j eq_refl Hj). f_equal.
  assert (59 ≤ x < fb) by (eapply own_in; [done|]; unfold own; set_solver).
  assert (59 ≤ y < fb) by (eapply own_in; [done|]; unfold own; set_solver).
  pose proof (sp_top _ _ _ Hs). rewrite nmeta_eq in *. rewrite blk_insert by (rewrite ?(io_blocks _ (sp_img _ _ _ Hs)); lia).
  rewrite (proj2 (Z.eqb_neq _ _)); [done|]. intros ->. pose proof (sp_nodup _ _ _ Hs) as Hn. unfold own in Hn. simpl in Hn.
  rewrite <- app_assoc in Hn. apply NoDup_app in Hn as (_ & Hn & _). apply (Hn x Hx). set_solver.
Qed.

(** A piece of a block is written behind the data. *)
Lemma data_write img blks (data c : list Z) n x :
  length blks = S n → n = (length data / 512)%nat → x = nth n blks 0 → NoDup blks → Forall (λ b, 0 ≤ b < 1000) blks → img_ok img →
  (∀ i, (i < length data)%nat → byte_at (blk img (nth (i / 512) blks 0)) (Z.of_nat (i `mod` 512)) = nth i data 0) →
  (0 < length c)%nat → (length data `mod` 512 + length c ≤ 512)%nat →
  data_ok (<[Z.to_nat x := splice (blk img x) (Z.of_nat (length data `mod` 512)) c]> img) blks (data ++ c).
Proof.
  intros Hl -> -> Hnd Hr Hi Hd Hc Hfit. set (n := (length data / 512)%nat) in *. set (r := (length data `mod` 512)%nat) in *.
  assert (length data = 512 * n + r)%nat as Hlen by (apply Nat.div_mod; lia).
  assert (∀ i, (i < length data + length c)%nat → (i / 512 < S n)%nat) as Hdiv by (intros; apply Nat.Div0.div_lt_upper_bound; lia).
  assert (∀ i, (i < S n)%nat → 0 ≤ nth i blks 0 < 1000) as Hin.
  { intros i Hin. rewrite Forall_forall in Hr. apply Hr. rewrite nth_lookup. destruct (lookup_lt_is_Some_2 blks i) as [y E]; [lia|].
    rewrite E. by apply list_elem_of_lookup_2 in E. }
  split; [rewrite Hl, length_app; unfold nblk; apply (Nat.div_unique _ _ _ (r + length c - 1)); lia|].
  intros i. rewrite length_app. intros Hlt. pose proof (Hin _ (Hdiv i Hlt)) as Hbi. pose proof (Hin n ltac:(lia)) as Hbn.
  rewrite blk_insert by (rewrite ?(io_blocks _ Hi); lia).
  assert (i = 512 * (i / 512) + i `mod` 512)%nat as Edm by (apply Nat.div_mod; lia).
  assert (i `mod` 512 < 512)%nat by (apply Nat.mod_upper_bound; lia).
  pose proof (blk_length img _ Hi Hbn) as Hbl.
  destruct (Z.eqb_spec (nth (i / 512) blks 0) (nth n blks 0)) as [E|E].
  - assert (i / 512 = n)%nat as Ei.
    { apply (NoDup_lookup blks _ _ (nth n blks 0)); [done| |]; rewrite ?nth_lookup in *.
      - destruct (lookup_lt_is_Some_2 blks (i / 512)) as [y Ey]; [specialize (Hdiv i Hlt); lia|]. rewrite Ey in *. simpl in E. congruence.
      - destruct (lookup_lt_is_Some_2 blks n) as [y Ey]; [lia|]. by rewrite Ey. }
    rewrite byte_at_splice by (rewrite ?Hbl; lia).
    destruct (decide (i < length data)%nat).
    + rewrite (proj2 (Z.leb_gt _ _)) by lia. cbn [andb]. rewrite app_nth1 by done. rewrite <- Hd by done. by rewrite Ei.
    + rewrite (proj2 (Z.leb_le _ _)), (proj2 (Z.ltb_lt _ _)) by lia. cbn [andb]. rewrite app_nth2 by lia. f_equal. lia.
  - assert (i / 512 < n)%nat by (destruct (decide (i / 512 = n)%nat) as [Ei|]; [by rewrite Ei in E|specialize (Hdiv i Hlt); lia]).
    rewrite app_nth1 by lia. apply Hd. lia.
Qed.

Lemma cost_mono n m : (n ≤ m)%nat → cost n ≤ cost m.
Proof. intros. unfold cost. destruct (Nat.ltb_spec 12 n), (Nat.ltb_spec 12 m); lia. Qed.
Lemma nblk_mono n m : (n ≤ m)%nat → (nblk n ≤ nblk m)%nat.
Proof. intros. unfold nblk. apply Nat.Div0.div_le_mono. lia. Qed.
Lemma nblk_next n c : (0 < c)%nat → (n `mod` 512 + c ≤ 512)%nat → nblk (n + c) = S (n / 512).
Proof.
  intros. unfold nblk. assert (n = 512 * (n / 512) + n `mod` 512)%nat by (apply Nat.div_mod; lia).
  symmetry. apply (Nat.div_unique _ _ _ (n `mod` 512 + c - 1)); lia.
Qed.

(** A file with its contents: its inode in memory, its blocks in the image. *)
Record stored (img : list (list Z)) (din blks : list Z) (ind : option Z) (data : list Z) : Prop := {
  st_map : blockmap img din blks ind;
  st_tight : tight blks ind;
  st_data : data_ok img blks data
}.

Lemma space_own_nodup img fb blks ind oth :
  space img fb (own blks ind ++ oth) → NoDup blks ∧ Forall (λ b, 0 ≤ b < 1000) blks.
Proof.
  intros Hs. split.
  - pose proof (sp_nodup _ _ _ Hs) as Hn. unfold own in Hn. rewrite <- app_assoc in Hn. by apply NoDup_app in Hn as (? & _).
  - apply Forall_forall. intros b Hb. assert (59 ≤ b < fb) by (eapply own_in; [done|]; unfold own; set_solver).
    pose proof (sp_top _ _ _ Hs). lia.
Qed.

(** One round of the loop of iappend: a piece [c] that fits in the last block. *)
Lemma iappend_round img fi fb din blks ind oth data (c : list Z) o :
  let n := (length data / 512)%nat in let r := (length data `mod` 512)%nat in
  stored img din blks ind data → space img fb (own blks ind ++ oth) → (n < 140)%nat →
  (0 < length c)%nat → (r + length c ≤ 512)%nat → fb + cost (S n) - cost (nblk (length data)) ≤ 1000 →
  ∃ img' din' x blks' ind', let fb' := fb + cost (S n) - cost (nblk (length data)) in
  bind (iappend_block din (Z.of_nat n)) (λ q : list Z * Z, let '(din, x) := q in
    bind (rsect x) (λ buf, bind (wsect x (splice buf (Z.of_nat r) c)) (λ _, ret (din, x)))) o (Mkst img fi fb [])
  = Ok (din', x) (Mkst img' fi fb' []) o ∧
  stored img' din' blks' ind' (data ++ c) ∧ space img' fb' (own blks' ind' ++ oth) ∧ keeps img img' oth ∧ take 12 din' = take 12 din.
Proof.
  intros n r [Hm Ht [Hl Hd]] Hs Hn Hc Hfit Hroom.
  destruct (iappend_block_ok img fi fb din blks ind oth data o Hm Ht Hs Hl Hn Hroom) as (img1 & din1 & blks1 & ind1 & E & Hl1 & [A1 A2 A3 A4 A5 A6]).
  set (fb' := fb + cost (S n) - cost (nblk (length data))) in *. cbn zeta. set (x := nth n blks1 0) in *.
  assert (x ∈ own blks1 ind1) as Hx by (apply nth_own; lia). pose proof (own_in _ _ _ _ _ _ A3 Hx) as Hxr.
  assert (x ∈ blks1) as Hxb by (unfold x; rewrite nth_lookup; destruct (lookup_lt_is_Some_2 blks1 n) as [y Ey]; [lia|]; rewrite Ey; by apply list_elem_of_lookup_2 in Ey).
  pose proof (sp_top _ _ _ A3). pose proof (sp_img _ _ _ A3) as Hi. pose proof (blk_length img1 x Hi ltac:(lia)) as Hbl.
  destruct (space_own_nodup _ _ _ _ _ A3) as [Hnd Hrg].
  exists (<[Z.to_nat x := splice (blk img1 x) (Z.of_nat r) c]> img1), din1, x, blks1, ind1. split_and!.
  - rewrite (bind_ok _ _ _ _ _ _ _ E). cbv beta iota. rewrite (bind_ok _ _ _ _ _ _ _ (rsect_eq x o img1 fi fb' ltac:(lia) Hi)).
    by rewrite (bind_ok _ _ _ _ _ _ _ (wsect_eq x _ o img1 fi fb' ltac:(lia) Hi)).
  - split; [by apply (blockmap_write _ _ _ _ _ _ _ _ A1 A3)|done|]. apply (data_write img1 blks1 data c n x); try done.
    intros i Hlt. rewrite <- Hd by done. destruct A6 as [t ->].
    assert (i / 512 < length blks)%nat as Hib.
    { rewrite Hl. unfold nblk. assert (i = 512 * (i / 512) + i `mod` 512)%nat by (apply Nat.div_mod; lia).
      apply Nat.div_le_lower_bound; lia. }
    rewrite app_nth1 by done. f_equal. destruct (space_own_nodup _ _ _ _ _ Hs) as [_ Hr]. rewrite Forall_forall in Hr.
    assert (nth (i / 512) blks 0 ∈ blks) as Hib2 by (rewrite nth_lookup; destruct (lookup_lt_is_Some_2 blks (i / 512)) as [y Ey]; [lia|]; rewrite Ey; by apply list_elem_of_lookup_2 in Ey).
    apply A4; [apply Hr; done|right; apply elem_of_app; by left].
  - apply space_write; [done|apply elem_of_app; by left|]. rewrite length_splice; lia.
  - eapply keeps_trans; [|by eapply keeps_write]. intros b Hb [Hin|Hin]; apply A4; [done|by left|done|right; apply elem_of_app; by right].
  - done.
Qed.

Lemma iappend_loop_ok fuel p img fi fb din blks ind oth data o :
  stored img din blks ind data → space img fb (own blks ind ++ oth) → (length p < fuel)%nat →
  (nblk (length data + length p) ≤ 140)%nat → fb + cost (nblk (length data + length p)) - cost (nblk (length data)) ≤ 1000 →
  ∃ img' din' blks' ind', let fb' := fb + cost (nblk (length data + length p)) - cost (nblk (length data)) in
  iappend_loop fuel din (Z.of_nat (length data)) p o (Mkst img fi fb []) = Ok (din', Z.of_nat (length (data ++ p))) (Mkst img' fi fb' []) o ∧
  stored img' din' blks' ind' (data ++ p) ∧ space img' fb' (own blks' ind' ++ oth) ∧ keeps img img' oth ∧ take 12 din' = take 12 din.
Proof.
  revert p img fb din blks ind data. induction fuel as [|fuel IH]; intros p img fb din blks ind data Hst Hs Hf Hmax Hroom; [lia|].
  cbn [iappend_loop]. destruct (Z.ltb_spec 0 (Z.of_nat (length p))) as [Hp|Hp]; cycle 1.
  { assert (p = []) as -> by (destruct p; [done|simpl in Hp; lia]). exists img, din, blks, ind. cbn zeta. rewrite app_nil_r. simpl length.
    rewrite Nat.add_0_r. replace (fb + cost (nblk (length data)) - cost (nblk (length data))) with fb by lia.
    split_and!; [done|done|done|apply keeps_refl|done]. }
  set (n := (length data / 512)%nat) in *. set (r := (length data `mod` 512)%nat) in *.
  assert (length data = 512 * n + r)%nat as Edm by (apply Nat.div_mod; lia). assert (r < 512)%nat by (apply Nat.mod_upper_bound; lia).
  assert (∃ k, k = Nat.min (length p) (512 - r)) as [k Ek] by eauto. assert (length (take k p) = k) as Hk by (rewrite length_take; lia).
  assert (nblk (length data + k) = S n) as Enb by (apply nblk_next; lia).
  assert (nblk (length data + k) ≤ nblk (length data + length p))%nat as Hmono by (apply nblk_mono; lia). pose proof (cost_mono _ _ Hmono) as Hcm.
  rewrite Enb in Hmono, Hcm. change BSIZE with 512. replace (Z.of_nat (length data) / 512) with (Z.of_nat n) by (unfold n; rewrite Nat2Z.inj_div; done).
  change MAXFILE with 140. rewrite (proj2 (Z.ltb_lt _ _)) by lia. cbn [negb].
  destruct (iappend_round img fi fb din blks ind oth data (take k p) o Hst Hs ltac:(fold n; lia) ltac:(lia) ltac:(fold r; lia) ltac:(fold n; lia)) as (img1 & din1 & x & blks1 & ind1 & E & S1 & P1 & K1 & T1).
  fold n r in E. set (fb1 := fb + cost (S n) - cost (nblk (length data))) in *.
  destruct (IH (drop k p) img1 fb1 din1 blks1 ind1 (data ++ take k p) S1 P1) as (img2 & din2 & blks2 & ind2 & E2 & S2 & P2 & K2 & T2).
  { rewrite length_drop. lia. }
  { rewrite length_app, length_drop, Hk. by replace (length data + k + (length p - k))%nat with (length data + length p)%nat by lia. }
  { rewrite length_app, length_drop, Hk, Enb. replace (length data + k + (length p - k))%nat with (length data + length p)%nat by lia. unfold fb1. lia. }
  cbn zeta in E2. rewrite <- app_assoc, take_drop, length_app, length_drop, Hk, Enb in *.
  replace (length data + k + (length p - k))%nat with (length data + length p)%nat in * by lia.
  replace (fb1 + cost (nblk (length data + length p)) - cost (S n)) with (fb + cost (nblk (length data + length p)) - cost (nblk (length data))) in * by (unfold fb1; lia).
  exists img2, din2, blks2, ind2. cbn zeta. split_and!; [|done|done|by eapply keeps_trans|congruence].
  rewrite u32_small by lia. replace (Z.min (Z.of_nat (length p)) ((Z.of_nat n + 1) * 512 - Z.of_nat (length data))) with (Z.of_nat k) by lia.
  rewrite Nat2Z.id, u32_small by lia. replace (Z.of_nat (length data) - Z.of_nat n * 512) with (Z.of_nat r) by lia.
  replace (Z.of_nat (length data) + Z.of_nat k) with (Z.of_nat (length data + k)) by lia. rewrite (length_app data p) in E2. rewrite <- E2. clear E2.
  pose proof (bind_ok _ (λ q : list Z * Z, iappend_loop fuel q.1 (Z.of_nat (length data + k)) (drop k p)) _ _ _ _ _ E) as E'.
  cbn [fst] in E'. rewrite <- E'. rewrite bind_assoc. apply bind_ext. intros [din3 x3] s3 o3 _. rewrite bind_assoc. apply bind_ext. intros buf s4 o4 _.
  rewrite bind_assoc. by apply bind_ext.
Qed.

(** ** The files of an image *)

Record afile := AFile { a_type : Z; a_data : list Z; a_blks : list Z; a_ind : option Z }.
Definition owned (fs : list afile) : list Z := concat (map (λ f, own (a_blks f) (a_ind f)) fs).

(** The bytes of an inode. *)
Definition idata (img : list (list Z)) (inum : Z) : list Z :=
  sub_bytes (blk img (IBLOCK inum mk_sb)) (inum `mod` IPB * 64) 64.

Record holds_file (img : list (list Z)) (inum : Z) (f : afile) : Prop := {
  hf_stored : stored img (idata img inum) (a_blks f) (a_ind f) (a_data f);
  hf_type : get16 (idata img inum) 0 = a_type f;
  hf_nlink : get16 (idata img inum) 6 = 1;
  hf_size : get32 (idata img inum) 8 = Z.of_nat (length (a_data f))
}.

Record disk (s : mkst) (fs : list afile) : Prop := {
  dk_faults : mk_faults s = [];
  dk_freeinode : mk_freeinode s = 1 + Z.of_nat (length fs);
  dk_freeblock : mk_freeblock s = nmeta + Z.of_nat (length (owned fs));
  dk_space : space (mk_img s) (mk_freeblock s) (owned fs);
  dk_file : ∀ k f, fs !! k = Some f → holds_file (mk_img s) (1 + Z.of_nat k) f
}.

Lemma IBLOCK_mk inum : 0 ≤ inum < 200 → IBLOCK inum mk_sb = 32 + inum / 8 ∧ 32 ≤ IBLOCK inum mk_sb < 58.
Proof.
  intros. assert (IBLOCK inum mk_sb = 32 + inum / 8) as ->; [|dlia].
  unfold IBLOCK. change (sb_inodestart mk_sb) with 32. change IPB with 8. rewrite u32_small by dlia. lia.
Qed.

Lemma sub_splice_same l off bs :
  0 ≤ off → off + Z.of_nat (length bs) ≤ Z.of_nat (length l) → sub_bytes (splice l off bs) off (Z.of_nat (length bs)) = bs.
Proof.
  intros. unfold sub_bytes, splice. rewrite drop_app_length' by (rewrite length_take; lia).
  by rewrite Nat2Z.id, take_app_length.
Qed.
Lemma sub_splice_other l off bs off' n :
  0 ≤ off → off + Z.of_nat (length bs) ≤ Z.of_nat (length l) → 0 ≤ off' → 0 ≤ n → off' + n ≤ off ∨ off + Z.of_nat (length bs) ≤ off' →
  sub_bytes (splice l off bs) off' n = sub_bytes l off' n.
Proof.
  intros H1 H2 H3 H4 H5. unfold sub_bytes, splice. apply list_eq. intros i.
  destruct (decide (i < Z.to_nat n)%nat); [|by rewrite !lookup_take_ge by lia].
  rewrite !lookup_take_lt, !lookup_drop by lia. assert (length (take (Z.to_nat off) l) = Z.to_nat off) as Ht by (rewrite length_take; lia).
  destruct H5.
  - rewrite lookup_app_l, lookup_take_lt by lia. done.
  - rewrite lookup_app_r, lookup_app_r, lookup_drop by lia. f_equal. lia.
Qed.

Definition put_inode (img : list (list Z)) (inum : Z) (ip : list Z) : list (list Z) :=
  <[Z.to_nat (IBLOCK inum mk_sb) := splice (blk img (IBLOCK inum mk_sb)) (inum `mod` IPB * 64) ip]> img.

Lemma iblk_length img inum : img_ok img → 0 ≤ inum < 200 → length (blk img (IBLOCK inum mk_sb)) = 512%nat.
Proof. intros Hok Hi. destruct (IBLOCK_mk inum Hi) as [_ Hb]. apply blk_length; [done|lia]. Qed.

Lemma winode_eq inum ip o img fi fb :
  0 ≤ inum < 200 → img_ok img → winode inum ip o (Mkst img fi fb []) = Ok tt (Mkst (put_inode img inum ip) fi fb []) o.
Proof.
  intros Hi Hok. destruct (IBLOCK_mk inum Hi) as [_ Hb]. unfold winode.
  rewrite (bind_ok _ _ _ _ _ _ _ (rsect_eq (IBLOCK inum mk_sb) o img fi fb ltac:(lia) Hok)). by apply wsect_eq; [lia|].
Qed.
Lemma rinode_eq inum o img fi fb :
  0 ≤ inum < 200 → img_ok img → rinode inum o (Mkst img fi fb []) = Ok (idata img inum) (Mkst img fi fb []) o.
Proof.
  intros Hi Hok. destruct (IBLOCK_mk inum Hi) as [_ Hb]. unfold rinode.
  by rewrite (bind_ok _ _ _ _ _ _ _ (rsect_eq (IBLOCK inum mk_sb) o img fi fb ltac:(lia) Hok)).
Qed.

Lemma idata_put img inum ip inum' :
  0 ≤ inum < 200 → 0 ≤ inum' < 200 → img_ok img → length ip = 64%nat →
  idata (put_inode img inum ip) inum' = if inum' =? inum then ip else idata img inum'.
Proof.
  intros Hi Hi' Hok Hl. unfold idata, put_inode. destruct (IBLOCK_mk inum Hi) as [E Hb], (IBLOCK_mk inum' Hi') as [E' Hb'].
  rewrite blk_insert by (rewrite ?(io_blocks _ Hok); lia). pose proof (iblk_length img inum Hok Hi) as Hlen.
  change IPB with 8. destruct (Z.eqb_spec inum' inum) as [->|Hne].
  - rewrite Z.eqb_refl. pose proof (sub_splice_same (blk img (IBLOCK inum mk_sb)) (inum `mod` 8 * 64) ip) as E2. rewrite Hl, Hlen in E2. apply E2; dlia.
  - destruct (Z.eqb_spec (IBLOCK inum' mk_sb) (IBLOCK inum mk_sb)) as [Eb|]; [|done]. rewrite Eb.
    apply sub_splice_other; rewrite ?Hlen, ?Hl; dlia.
Qed.
Lemma blk_put img inum ip b :
  0 ≤ inum < 200 → img_ok img → 0 ≤ b → b < 32 ∨ 58 ≤ b → blk (put_inode img inum ip) b = blk img b.
Proof.
  intros Hi Hok Hb Hr. destruct (IBLOCK_mk inum Hi) as [_ Hbl]. unfold put_inode.
  rewrite blk_insert by (rewrite ?(io_blocks _ Hok); lia). by rewrite (proj2 (Z.eqb_neq _ _)) by lia.
Qed.
Lemma img_ok_put img inum ip : 0 ≤ inum < 200 → img_ok img → length ip = 64%nat → img_ok (put_inode img inum ip).
Proof.
  intros Hi Hok Hl. destruct (IBLOCK_mk inum Hi) as [_ Hb]. apply img_ok_insert; [done|].
  pose proof (iblk_length img inum Hok Hi) as Hlen. change IPB with 8. rewrite length_splice; rewrite ?Hlen, ?Hl; dlia.
Qed.

Lemma space_perm img fb used used' : used ≡ₚ used' → space img fb used → space img fb used'.
Proof. intros Hp [H1 H2 H3 H4 H5]. split; [done|by rewrite <- Hp|by rewrite <- Hp|done..]. Qed.
Lemma space_put img fb used inum ip :
  0 ≤ inum < 200 → length ip = 64%nat → space img fb used → space (put_inode img inum ip) fb used.
Proof.
  intros Hi Hl [H1 H2 H3 H4 H5]. split; [by apply img_ok_put|done..| |done].
  intros b Hb. rewrite nmeta_eq in *. rewrite blk_put by (done || lia). by apply H4.
Qed.
Lemma stored_ext img img' din blks ind data fb oth :
  stored img din blks ind data → space img fb (own blks ind ++ oth) → (∀ b, 59 ≤ b → b ∈ own blks ind → blk img' b = blk img b) →
  stored img' din blks ind data.
Proof.
  intros [[M1 M2 M3 M4 M5] H2 [D1 D2]] Hs He.
  assert (∀ b, b ∈ own blks ind → blk img' b = blk img b) as He' by (intros b Hb; apply He; [by apply (own_in _ _ _ _ _ _ Hs Hb)|done]).
  split; [split; [done..|]|done|split; [done|]].
  - intros x j -> Hj. rewrite He' by (unfold own; apply elem_of_app; right; set_solver). by apply M5.
  - intros i Hlt. rewrite He'; [by apply D2|]. apply nth_own. rewrite D1. unfold nblk.
    assert (i = 512 * (i / 512) + i `mod` 512)%nat by (apply Nat.div_mod; lia). apply Nat.div_le_lower_bound; lia.
Qed.

Lemma owned_split fs k f f' :
  fs !! k = Some f →
  owned fs ≡ₚ own (a_blks f) (a_ind f) ++ owned (delete k fs) ∧
  owned (<[k := f']> fs) ≡ₚ own (a_blks f') (a_ind f') ++ owned (delete k fs).
Proof.
  assert (∀ l l', l ≡ₚ l' → owned l ≡ₚ owned l') as Hp.
  { intros l l'. induction 1; unfold owned in *; cbn [map concat]; [done|by apply Permutation_app_head| |by etransitivity].
    rewrite !app_assoc. by apply Permutation_app_tail, Permutation_app_comm. }
  intros E. pose proof (lookup_lt_Some _ _ _ E) as Hlt. split.
  - by rewrite (Hp _ _ (delete_Permutation _ _ _ E)).
  - rewrite (Hp _ _ (delete_Permutation _ k f' (list_lookup_insert_eq _ _ _ Hlt))).
    assert (delete k (<[k := f']> fs) = delete k fs) as ->; [|done]. clear. revert k. induction fs as [|x l IH]; intros [|k]; cbn; [done..|]. f_equal. apply IH.
Qed.

(** The other bytes of an inode stay when its size is set. *)
Lemma head_byte (l l' : list Z) j : take 12 l = take 12 l' → 0 ≤ j < 12 → byte_at l j = byte_at l' j.
Proof.
  intros E Hj. unfold byte_at. rewrite !nth_lookup. assert (take 12 l !! Z.to_nat j = take 12 l' !! Z.to_nat j) as H by (by rewrite E).
  rewrite !lookup_take_lt in H by lia. by rewrite H.
Qed.
Lemma get16_put32_other l off off' v :
  0 ≤ off → off + 4 ≤ Z.of_nat (length l) → 0 ≤ off' → off' + 2 ≤ off ∨ off + 4 ≤ off' → get16 (put32 l off v) off' = get16 l off'.
Proof. intros. unfold get16, put32. rewrite !byte_at_splice by (simpl; lia). simpl length. repeat (case_test; to_prop; try lia). Qed.

Lemma stored_size img din blks ind data v : stored img din blks ind data → stored img (put32 din 8 v) blks ind data.
Proof.
  intros [[M1 M2 M3 M4 M5] H2 H3]. split; [|done..]. split; [by rewrite length_put32 by lia| | |done..].
  - intros j Hj. rewrite <- M2 by done. apply get32_put32_other; lia.
  - rewrite <- M3. apply get32_put32_other; lia.
Qed.
Lemma stored_din img din blks ind data : stored img din blks ind data → length din = 64%nat.
Proof. intros H. apply (fm_din _ _ _ _ (st_map _ _ _ _ _ H)). Qed.

Lemma nblk_bound n : (nblk n ≤ 140)%nat → Z.of_nat n ≤ 71680.
Proof.
  unfold nblk. intros H. assert (n + 511 = 512 * ((n + 511) / 512) + (n + 511) `mod` 512)%nat by (apply Nat.div_mod; lia).
  assert ((n + 511) `mod` 512 < 512)%nat by (apply Nat.mod_upper_bound; lia). lia.
Qed.

(** The inode that is written, and the other files of the image. *)
Lemma holds_put img din0 din blks ind data ty inum fb oth :
  0 ≤ inum < 200 → stored img din blks ind data → space img fb (own blks ind ++ oth) → Z.of_nat (length data) ≤ 71680 →
  take 12 din = take 12 din0 → get16 din0 0 = ty → get16 din0 6 = 1 →
  holds_file (put_inode img inum (put32 din 8 (Z.of_nat (length data)))) inum (AFile ty data blks ind).
Proof.
  intros Hi Hst Hs Hd Ht H0 H6. pose proof (stored_din _ _ _ _ _ Hst) as Hl. pose proof (sp_img _ _ _ Hs) as Hok.
  set (din2 := put32 din 8 (Z.of_nat (length data))). assert (length din2 = 64%nat) as Hl2 by (unfold din2; rewrite length_put32; lia).
  assert (idata (put_inode img inum din2) inum = din2) as Eid by (rewrite idata_put, Z.eqb_refl by done; done).
  assert (∀ j, 0 ≤ j < 12 → byte_at din j = byte_at din0 j) as Hh by (intros; by apply head_byte).
  split; rewrite Eid; cbn [a_blks a_ind a_data a_type].
  - apply (stored_ext img _ _ _ _ _ fb oth); [by apply stored_size|done|]. intros b Hb _. apply blk_put; (done || lia).
  - unfold din2. rewrite get16_put32_other by lia. unfold get16 in *. rewrite !Hh by lia. exact H0.
  - unfold din2. rewrite get16_put32_other by lia. unfold get16 in *. rewrite !Hh by lia. exact H6.
  - unfold din2. rewrite get32_put32 by lia. apply u32_small. lia.
Qed.

Lemma holds_frame img img1 din2 inum inum' g fb rest oth :
  0 ≤ inum < 200 → 0 ≤ inum' < 200 → inum' ≠ inum → length din2 = 64%nat → img_ok img1 →
  holds_file img inum' g → space img fb (own (a_blks g) (a_ind g) ++ rest) → keeps img img1 oth →
  (∀ b, b ∈ own (a_blks g) (a_ind g) → b ∈ oth) → holds_file (put_inode img1 inum din2) inum' g.
Proof.
  intros Hi Hi' Hne Hl Hok [G1 G2 G3 G4] Hs Hk Hsub.
  assert (idata (put_inode img1 inum din2) inum' = idata img inum') as Eid.
  { rewrite idata_put by done. rewrite (proj2 (Z.eqb_neq _ _)) by done. unfold idata. destruct (IBLOCK_mk _ Hi') as [_ Hb].
    rewrite Hk; [done|lia|left; rewrite nmeta_eq; lia]. }
  split; rewrite Eid; [|done..]. apply (stored_ext img _ _ _ _ _ fb rest); [done..|].
  intros b Hb Hin. rewrite blk_put by (done || lia). apply Hk; [lia|right; by apply Hsub].
Qed.

Lemma owned_other fs k k' g b :
  fs !! k' = Some g → k' ≠ k → b ∈ own (a_blks g) (a_ind g) → b ∈ owned (delete k fs).
Proof.
  intros Eg Hne Hb. unfold owned. apply list_elem_of_In, in_concat. exists (own (a_blks g) (a_ind g)). split; [|by apply list_elem_of_In].
  apply in_map_iff. exists g. split; [done|]. apply list_elem_of_In. destruct (decide (k' < k)%nat).
  - apply (list_elem_of_lookup_2 _ k'). by rewrite list_lookup_delete_lt.
  - apply (list_elem_of_lookup_2 _ (k' - 1)). rewrite list_lookup_delete_ge by lia. rewrite <- Eg. f_equal. lia.
Qed.

Lemma iappend_ok s fs k f p o :
  disk s fs → fs !! k = Some f → (length fs < 200)%nat → (nblk (length (a_data f) + length p) ≤ 140)%nat →
  mk_freeblock s + cost (nblk (length (a_data f) + length p)) - cost (nblk (length (a_data f))) ≤ 1000 →
  ∃ s' blks ind, iappend (1 + Z.of_nat k) p o s = Ok tt s' o ∧
    disk s' (<[k := AFile (a_type f) (a_data f ++ p) blks ind]> fs) ∧
    (∀ b, 0 ≤ b < 32 → blk (mk_img s') b = blk (mk_img s) b).
Proof.
  intros [D1 D2 D3 D4 D5] Ek Hlen Hmax Hroom. destruct s as [img fi fb fl]. cbn [mk_img mk_freeinode mk_freeblock mk_faults] in *. subst fl.
  pose proof (lookup_lt_Some _ _ _ Ek) as Hk. assert (0 ≤ 1 + Z.of_nat k < 200) as Hi by lia.
  pose proof (sp_img _ _ _ D4) as Hok. destruct (D5 k f Ek) as [F1 F2 F3 F4]. pose proof (nblk_bound _ Hmax) as Hsz.
  set (oth := owned (delete k fs)). pose proof (space_perm _ _ _ _ (proj1 (owned_split fs k f f Ek)) D4) as Hs. fold oth in Hs.
  destruct (iappend_loop_ok (S (length p)) p img fi fb _ _ _ oth _ o F1 Hs ltac:(lia) Hmax Hroom) as (img1 & din1 & blks1 & ind1 & E & S1 & P1 & K1 & T1).
  cbn zeta in E, P1. set (fb1 := fb + cost (nblk (length (a_data f) + length p)) - cost (nblk (length (a_data f)))) in *.
  set (din2 := put32 din1 8 (Z.of_nat (length (a_data f ++ p)))).
  assert (length din2 = 64%nat) as Hd2 by (unfold din2; rewrite length_put32; rewrite ?(stored_din _ _ _ _ _ S1); lia).
  pose proof (sp_img _ _ _ P1) as Hok1. assert (Z.of_nat (length (a_data f ++ p)) ≤ 71680) as Hbig by (rewrite length_app; lia).
  exists (Mkst (put_inode img1 (1 + Z.of_nat k) din2) fi fb1 []), blks1, ind1. split_and!.
  - unfold iappend. rewrite (bind_ok _ _ _ _ _ _ _ (rinode_eq _ o img fi fb Hi Hok)), F4, xint_small by lia.
    rewrite (bind_ok _ _ _ _ _ _ _ E). cbv beta iota. rewrite xint_small by lia. by apply winode_eq.
  - pose proof (space_put _ _ _ (1 + Z.of_nat k) din2 Hi Hd2 P1) as P2.
    destruct (owned_split fs k f (AFile (a_type f) (a_data f ++ p) blks1 ind1) Ek) as [O1 O2].
    split; cbn [mk_img mk_freeinode mk_freeblock mk_faults]; [done|by rewrite length_insert| |by eapply space_perm|].
    + rewrite (Permutation_length O2). rewrite (Permutation_length O1) in D3. cbn [a_blks a_ind] in *.
      rewrite length_app, Nat2Z.inj_add in *. rewrite (own_length _ _ (st_tight _ _ _ _ _ S1)), (da_blks _ _ _ (st_data _ _ _ _ _ S1)), length_app.
      rewrite (own_length _ _ (st_tight _ _ _ _ _ F1)), (da_blks _ _ _ (st_data _ _ _ _ _ F1)) in D3. unfold fb1, oth in *. lia.
    + intros k' g Eg. destruct (decide (k' = k)) as [->|Hne].
      * rewrite list_lookup_insert_eq in Eg by done. injection Eg as <-. by apply (holds_put img1 (idata img (1 + Z.of_nat k)) _ _ _ _ _ _ fb1 oth).
      * rewrite list_lookup_insert_ne in Eg by done. pose proof (lookup_lt_Some _ _ _ Eg) as Hk'.
        apply (holds_frame img _ _ _ _ _ fb (owned (delete k' fs)) oth); [done|lia|lia|done|done|by apply D5| |done|].
        -- apply (space_perm _ _ _ _ (proj1 (owned_split fs k' g g Eg)) D4).
        -- intros b Hb. by apply (owned_other fs k k' g).
  - intros b Hb. cbn [mk_img]. rewrite blk_put by (done || lia). apply K1; [lia|left; rewrite nmeta_eq; lia].
Qed.

(** ** A new inode *)

Definition new_dinode (ty : Z) : list Z := [u8 ty; u8 (ty / 256); 0; 0; 0; 0; 1; 0] ++ replicate 56 0.

Lemma new_dinode_eq ty : put32 (put16 (put16 (replicate 64 0) 0 ty) 6 1) 8 0 = new_dinode ty.
Proof. reflexivity. Qed.
Lemma new_dinode_zero ty j : 8 ≤ j → byte_at (new_dinode ty) j = 0.
Proof.
  intros Hj. unfold byte_at, new_dinode. rewrite nth_lookup, lookup_app_r by (simpl; lia).
  destruct (_ !! _) eqn:E; [|done]. by apply lookup_replicate in E as [-> _].
Qed.
Lemma new_dinode_stored img ty : stored img (new_dinode ty) [] None [].
Proof.
  assert (∀ j, 0 ≤ j → mk_addr (new_dinode ty) j = 0) as H by (intros; unfold mk_addr, get32; by rewrite !new_dinode_zero by lia).
  split; [split; [done| | |simpl; lia|done]|simpl; lia|split; [done|simpl; lia]].
  - intros j Hj. rewrite H by lia. by destruct (Z.to_nat j).
  - by rewrite H by lia.
Qed.

Lemma owned_app fs fs' : owned (fs ++ fs') = owned fs ++ owned fs'.
Proof. unfold owned. by rewrite map_app, concat_app. Qed.

Lemma disk_own s fs k f : disk s fs → fs !! k = Some f → space (mk_img s) (mk_freeblock s) (own (a_blks f) (a_ind f) ++ owned (delete k fs)).
Proof. intros D E. apply (space_perm _ _ _ _ (proj1 (owned_split fs k f f E)) (dk_space _ _ D)). Qed.

Lemma elem_of_owned fs k f b : fs !! k = Some f → b ∈ own (a_blks f) (a_ind f) → b ∈ owned fs.
Proof. intros E Hb. rewrite (proj1 (owned_split fs k f f E)). apply elem_of_app. by left. Qed.

Lemma mk_ialloc_ok s fs ty o :
  disk s fs → (S (length fs) < 200)%nat → 0 ≤ ty < 65536 →
  ∃ s', mk_ialloc ty o s = Ok (1 + Z.of_nat (length fs)) s' o ∧ disk s' (fs ++ [AFile ty [] [] None]) ∧
    mk_freeblock s' = mk_freeblock s ∧ (∀ b, 0 ≤ b < 32 → blk (mk_img s') b = blk (mk_img s) b).
Proof.
  intros D Hn Hty. pose proof (dk_space _ _ D) as Hs. pose proof (sp_img _ _ _ Hs) as Hok.
  assert (∀ k f, fs !! k = Some f → space (mk_img s) (mk_freeblock s) (own (a_blks f) (a_ind f) ++ owned (delete k fs))) as Hown by (intros; by apply disk_own).
  destruct D as [D1 D2 D3 D4 D5]. destruct s as [img fi fb fl]. cbn [mk_img mk_freeinode mk_freeblock mk_faults] in *. subst fl fi.
  set (inum := 1 + Z.of_nat (length fs)) in *. assert (0 ≤ inum < 200) as Hi by lia.
  exists (Mkst (put_inode img inum (new_dinode ty)) (inum + 1) fb []). split_and!.
  - unfold mk_ialloc. mrun. unfold set_freeinode. cbn [mk_img mk_freeinode mk_freeblock mk_faults].
    rewrite u32_small by lia. rewrite xshort_small by done. change (xshort 1) with 1. change (xint 0) with 0. rewrite new_dinode_eq.
    by rewrite (bind_ok _ _ _ _ _ _ _ (winode_eq inum _ o img _ fb Hi Hok)).
  - split; cbn [mk_img mk_freeinode mk_freeblock mk_faults]; [done|rewrite length_app; simpl; lia|by rewrite owned_app, app_nil_r|by rewrite owned_app, app_nil_r; apply space_put|].
    intros k f Ef. destruct (decide (k = length fs)) as [->|Hk].
    + rewrite list_lookup_middle in Ef by done. injection Ef as <-.
      assert (idata (put_inode img inum (new_dinode ty)) inum = new_dinode ty) as Eid by (rewrite idata_put, Z.eqb_refl by done; done).
      split; fold inum; rewrite Eid; [apply new_dinode_stored| |done|done].
      change (get16 (new_dinode ty) 0) with (u8 ty + 256 * u8 (ty / 256)). cbn [a_type]. unfold u8. dlia.
    + assert (k < length fs)%nat by (apply lookup_lt_Some in Ef; rewrite length_app in Ef; simpl in Ef; lia). rewrite lookup_app_l in Ef by done.
      apply (holds_frame img _ _ _ _ _ fb (owned (delete k fs)) (owned fs)); [done|lia|lia|done|done|by apply D5|by apply Hown|apply keeps_refl|].
      intros b Hb. by apply (elem_of_owned fs k f).
  - done.
  - intros b Hb. cbn [mk_img]. apply blk_put; (done || lia).
Qed.

(** ** Files and the directory *)

Fixpoint needs (fs : list (list Z)) : Z :=
  match fs with [] => 0 | d :: fs' => cost (nblk (length d)) + needs fs' end.

Lemma disk_needs s fs : disk s fs → mk_freeblock s = nmeta + needs (a_data <$> fs).
Proof.
  intros D. rewrite (dk_freeblock _ _ D). f_equal.
  assert (∀ f, f ∈ fs → Z.of_nat (length (own (a_blks f) (a_ind f))) = cost (nblk (length (a_data f)))) as H.
  { intros f Hf. apply list_elem_of_lookup_1 in Hf as [k Ef]. destruct (dk_file _ _ D k f Ef) as [[_ Ht Hd] _ _ _].
    by rewrite (own_length _ _ Ht), (da_blks _ _ _ Hd). }
  clear D. induction fs as [|f fs IH]; [done|]. unfold owned in *. change (a_data <$> f :: fs) with (a_data f :: (a_data <$> fs)). cbn [map concat needs]. rewrite length_app, Nat2Z.inj_add, H by set_solver.
  f_equal. apply IH. intros g Hg. apply H. set_solver.
Qed.

Lemma needs_app a b : needs (a ++ b) = needs a + needs b.
Proof. induction a as [|x a IH]; [done|]. cbn [app needs]. rewrite IH. lia. Qed.
Lemma cost_nonneg n : 0 ≤ cost n.
Proof. unfold cost. destruct (_ <? _)%nat; lia. Qed.
Lemma needs_nonneg l : 0 ≤ needs l.
Proof. induction l as [|x l IH]; cbn [needs]; [done|]. pose proof (cost_nonneg (nblk (length x))). lia. Qed.

Lemma needs_insert fs k (f : list Z) g : fs !! k = Some f → needs (<[k := g]> fs) = needs fs - cost (nblk (length f)) + cost (nblk (length g)).
Proof.
  revert k. induction fs as [|x fs IH]; intros [|k] E; [done..| |]; cbn [lookup list_lookup] in E.
  - injection E as ->. cbn [insert list_insert needs]. lia.
  - cbn [insert list_insert needs]. change (list_insert k g fs) with (<[k := g]> fs). rewrite IH by done. lia.
Qed.

(** Appending the pieces of a file one after the other. *)
Lemma iappend_chunks chunks s fs k f o :
  disk s fs → fs !! k = Some f → (length fs < 200)%nat → (nblk (length (a_data f ++ concat chunks)) ≤ 140)%nat →
  nmeta + needs (<[k := a_data f ++ concat chunks]> (a_data <$> fs)) ≤ 1000 →
  ∃ s' blks ind, for_each chunks (iappend (1 + Z.of_nat k)) o s = Ok tt s' o ∧
    disk s' (<[k := AFile (a_type f) (a_data f ++ concat chunks) blks ind]> fs) ∧
    (∀ b, 0 ≤ b < 32 → blk (mk_img s') b = blk (mk_img s) b).
Proof.
  revert s fs f. induction chunks as [|c chunks IH]; intros s fs f D Ef Hlen Hmax Hroom.
  { exists s, (a_blks f), (a_ind f). cbn [concat]. rewrite app_nil_r. destruct f. by rewrite list_insert_id. }
  pose proof (disk_needs _ _ D) as Hfb. cbn [concat] in *.
  assert ((a_data <$> fs) !! k = Some (a_data f)) as Em by (by rewrite list_lookup_fmap, Ef).
  rewrite (needs_insert _ _ _ _ Em) in Hroom. rewrite app_assoc, length_app in Hmax, Hroom.
  assert (nblk (length (a_data f) + length c) ≤ nblk (length (a_data f ++ c) + length (concat chunks)))%nat as Hmono by (apply nblk_mono; rewrite length_app; lia).
  pose proof (cost_mono _ _ Hmono).
  destruct (iappend_ok s fs k f c o D Ef Hlen ltac:(lia) ltac:(lia)) as (s1 & blks1 & ind1 & E1 & D1 & K1).
  set (f1 := AFile (a_type f) (a_data f ++ c) blks1 ind1) in *. pose proof (lookup_lt_Some _ _ _ Ef).
  destruct (IH s1 (<[k := f1]> fs) f1 D1) as (s2 & blks2 & ind2 & E2 & D2 & K2).
  - by rewrite list_lookup_insert_eq.
  - by rewrite length_insert.
  - cbn [a_data f1]. rewrite length_app. exact Hmax.
  - rewrite list_fmap_insert, list_insert_insert_eq. cbn [a_data f1].
    rewrite (needs_insert _ _ _ _ Em), length_app. exact Hroom.
  - exists s2, blks2, ind2. cbn [for_each]. rewrite (bind_ok _ _ _ _ _ _ _ E1). split_and!; [done| |intros; rewrite K2, K1; done].
    rewrite list_insert_insert_eq in D2. cbn [a_type a_data f1] in D2. by rewrite <- app_assoc in D2.
Qed.

(** The directory entries of the files, the first with inode [n]. *)
Fixpoint dirents (n : Z) (args : list (list Z * list (list Z))) : list Z :=
  match args with
  | [] => []
  | a :: args' => dirent_bytes n (skip_underscore (fst a)) ++ dirents (n + 1) args'
  end.
Lemma length_dirent n name : length (dirent_bytes n name) = 16%nat.
Proof. unfold dirent_bytes. rewrite length_app, length_take, length_app, length_replicate. unfold DIRSIZ. simpl length. lia. Qed.
Lemma length_dirents n args : length (dirents n args) = (16 * length args)%nat.
Proof. revert n. induction args as [|a args IH]; intros n; [done|]. cbn [dirents length]. rewrite length_app, length_dirent, IH. lia. Qed.

Definition arg_ok (a : list Z * list (list Z)) : Prop :=
  Forall (λ c, c ≠ 47) (fst a) ∧ (nblk (length (concat (snd a))) ≤ 140)%nat.
Definition as_arg (a : list Z * list (list Z)) : list Z * option (list (list Z)) := (fst a, Some (snd a)).

Lemma insert_last {A} (x : A) (l : list A) y z : <[S (length l) := z]> (x :: l ++ [y]) = x :: l ++ [z].
Proof. cbn. f_equal. induction l as [|w l IH]; cbn; [done|]. by f_equal. Qed.

Lemma no_slash name : Forall (λ c, c ≠ 47) name → existsb (Z.eqb 47) name = false.
Proof. induction 1 as [|c l H _ IH]; [done|]. cbn [existsb]. rewrite IH, (proj2 (Z.eqb_neq 47 c)) by done. done. Qed.

Lemma mkfs_file_ok a s root fs o :
  disk s (root :: fs) → (S (S (length fs)) < 200)%nat → arg_ok a → (nblk (length (a_data root) + 16) ≤ 140)%nat →
  nmeta + cost (nblk (length (a_data root) + 16)) + needs (a_data <$> fs) + cost (nblk (length (concat (snd a)))) ≤ 1000 →
  ∃ s' b i b' i', mkfs_file 1 (as_arg a) o s = Ok tt s' o ∧
    disk s' (AFile (a_type root) (a_data root ++ dirent_bytes (2 + Z.of_nat (length fs)) (skip_underscore (fst a))) b i
             :: fs ++ [AFile T_FILE (concat (snd a)) b' i']) ∧
    (∀ b, 0 ≤ b < 32 → blk (mk_img s') b = blk (mk_img s) b).
Proof.
  intros D Hn [Hname Hmax] Hroot Hroom. destruct a as [name chunks]. cbn [fst snd] in *. unfold mkfs_file, as_arg. cbn [fst snd]. rewrite (no_slash _ Hname).
  destruct (mk_ialloc_ok s (root :: fs) T_FILE o D ltac:(simpl; lia) ltac:(unfold T_FILE; lia)) as (s1 & E1 & D1 & F1 & K1).
  cbn [length] in E1. replace (1 + Z.of_nat (S (length fs))) with (2 + Z.of_nat (length fs)) in E1 by lia. cbn [app] in D1.
  rewrite (bind_ok _ _ _ _ _ _ _ E1). pose proof (disk_needs _ _ D) as N0. change (a_data <$> root :: fs) with (a_data root :: (a_data <$> fs)) in N0. cbn [needs] in N0.
  set (de := dirent_bytes (2 + Z.of_nat (length fs)) (skip_underscore name)). assert (length de = 16%nat) as Hde by apply length_dirent.
  pose proof (cost_nonneg (nblk (length (concat chunks)))) as Hc0.
  destruct (iappend_ok s1 _ 0 root de o D1 eq_refl) as (s2 & b & i & E2 & D2 & K2).
  { cbn [length]. rewrite length_app. simpl. lia. } { by rewrite Hde. } { rewrite Hde, F1, N0. lia. }
  change (1 + Z.of_nat 0) with 1 in E2. rewrite (bind_ok _ _ _ _ _ _ _ E2). cbn [insert list_insert] in D2.
  set (root' := AFile (a_type root) (a_data root ++ de) b i) in *. set (new := AFile T_FILE [] [] None) in *.
  destruct (iappend_chunks chunks s2 (root' :: fs ++ [new]) (S (length fs)) new o D2) as (s3 & b' & i' & E3 & D3 & K3).
  - cbn. by apply list_lookup_middle.
  - cbn [length]. rewrite length_app. simpl. lia.
  - exact Hmax.
  - change (a_data <$> root' :: fs ++ [new]) with ((a_data root ++ de) :: (a_data <$> (fs ++ [new]))). rewrite fmap_app.
    change (a_data <$> [new]) with [@nil Z]. replace (S (length fs)) with (S (length (a_data <$> fs))) by (by rewrite length_fmap).
    rewrite insert_last. cbn [needs a_data new]. rewrite needs_app. cbn [needs app]. rewrite length_app, Hde. lia.
  - rewrite insert_last in D3. replace (1 + Z.of_nat (S (length fs))) with (2 + Z.of_nat (length fs)) in E3 by lia.
    exists s3, b, i, b', i'. split_and!; [exact E3|exact D3|]. intros c Hc. rewrite K3, K2, K1; done.
Qed.

Lemma mkfs_files_ok args s root fs o :
  disk s (root :: fs) → (S (length fs) + length args < 200)%nat → Forall arg_ok args →
  (nblk (length (a_data root) + 16 * length args) ≤ 140)%nat →
  nmeta + cost (nblk (length (a_data root) + 16 * length args)) + needs (a_data <$> fs) + needs ((λ a, concat (snd a)) <$> args) ≤ 1000 →
  ∃ s' b i fs', for_each (as_arg <$> args) (mkfs_file 1) o s = Ok tt s' o ∧
    disk s' (AFile (a_type root) (a_data root ++ dirents (2 + Z.of_nat (length fs)) args) b i :: fs ++ fs') ∧
    (λ f, (a_type f, a_data f)) <$> fs' = (λ a, (T_FILE, concat (snd a))) <$> args ∧
    (∀ b, 0 ≤ b < 32 → blk (mk_img s') b = blk (mk_img s) b).
Proof.
  revert s root fs. induction args as [|a args IH]; intros s root fs D Hn Hok Hroot Hroom.
  { exists s, (a_blks root), (a_ind root), []. cbn [dirents]. rewrite !app_nil_r. by destruct root. }
  apply Forall_cons in Hok as [Ha Hok]. cbn [length] in *.
  change ((λ a, concat (snd a)) <$> a :: args) with (concat (snd a) :: ((λ a, concat (snd a)) <$> args)) in Hroom. cbn [needs] in Hroom.
  assert (nblk (length (a_data root) + 16) ≤ nblk (length (a_data root) + 16 * S (length args)))%nat as Hm by (apply nblk_mono; lia).
  pose proof (cost_mono _ _ Hm). pose proof (needs_nonneg ((λ a, concat (snd a)) <$> args)).
  destruct (mkfs_file_ok a s root fs o D ltac:(lia) Ha ltac:(lia) ltac:(lia)) as (s1 & b & i & b' & i' & E1 & D1 & K1).
  set (de := dirent_bytes (2 + Z.of_nat (length fs)) (skip_underscore (fst a))) in *. assert (length de = 16%nat) as Hde by apply length_dirent.
  destruct (IH s1 _ _ D1) as (s2 & b2 & i2 & fs2 & E2 & D2 & F2 & K2).
  - rewrite length_app. simpl. lia.
  - done.
  - cbn [a_data]. rewrite length_app, Hde. by replace (length (a_data root) + 16 + 16 * length args)%nat with (length (a_data root) + 16 * S (length args))%nat by lia.
  - cbn [a_data]. rewrite length_app, Hde, fmap_app, needs_app. change (a_data <$> [AFile T_FILE (concat (snd a)) b' i']) with [concat (snd a)].
    cbn [needs]. replace (length (a_data root) + 16 + 16 * length args)%nat with (length (a_data root) + 16 * S (length args))%nat by lia. lia.
  - exists s2, b2, i2, (AFile T_FILE (concat (snd a)) b' i' :: fs2). split_and!.
    + change (as_arg <$> a :: args) with (as_arg a :: (as_arg <$> args)). cbn [for_each]. by rewrite (bind_ok _ _ _ _ _ _ _ E1).
    + cbn [a_type a_data] in D2. rewrite <- !app_assoc in D2. cbn [dirents]. fold de. rewrite length_app in D2. cbn [length app] in D2.
      replace (2 + Z.of_nat (length fs + 1)) with (2 + Z.of_nat (length fs) + 1) in D2 by lia. exact D2.
    + rewrite !fmap_cons. by rewrite F2.
    + intros c Hc. rewrite K2, K1; done.
Qed.

(** ** The empty image and the bitmap *)

Lemma wsect_fill n img fi fb o :
  (length img + n ≤ Z.to_nat 1000)%nat →
  for_each (seq (length img) n) (λ i, wsect (Z.of_nat i) zeroes) o (Mkst img fi fb []) = Ok tt (Mkst (img ++ replicate n zeroes) fi fb []) o.
Proof.
  revert img. induction n as [|n IH]; intros img Hn; [by rewrite app_nil_r|]. cbn [seq for_each].
  assert (wsect (Z.of_nat (length img)) zeroes o (Mkst img fi fb []) = Ok tt (Mkst (img ++ [zeroes]) fi fb []) o) as E.
  { unfold wsect, bind, host_fails, modify, set_img, write_block. cbn [mk_faults mk_img mk_freeinode mk_freeblock].
    rewrite sector_small by lia. by rewrite Nat2Z.id, Nat.ltb_irrefl, Nat.sub_diag. }
  rewrite (bind_ok _ _ _ _ _ _ _ E). specialize (IH (img ++ [zeroes])). rewrite length_app in IH. cbn [length] in IH.
  replace (length img + 1)%nat with (S (length img)) in IH by lia. rewrite IH by lia. by rewrite <- app_assoc.
Qed.

Definition empty_image : list (list Z) := <[1%nat := splice zeroes 0 (sb_bytes mk_sb)]> (replicate (Z.to_nat 1000) zeroes).

Lemma empty_image_ok : img_ok empty_image.
Proof.
  split; [unfold empty_image; by rewrite length_insert, length_replicate|].
  apply Forall_insert; [|reflexivity]. apply Forall_replicate. reflexivity.
Qed.
Lemma empty_image_zero b : 2 ≤ b < 1000 → blk empty_image b = zeroes.
Proof.
  intros Hb. unfold empty_image. change 1%nat with (Z.to_nat 1). rewrite blk_insert by (rewrite ?length_replicate; lia).
  rewrite (proj2 (Z.eqb_neq _ _)) by lia. unfold blk. rewrite nth_lookup, lookup_replicate_2 by lia. done.
Qed.
Lemma empty_disk : disk (Mkst empty_image 1 nmeta []) [].
Proof.
  split; cbn [mk_img mk_freeinode mk_freeblock mk_faults]; [done|done|done| |done].
  split; [apply empty_image_ok|constructor|constructor| |rewrite nmeta_eq; lia]. intros b Hb. rewrite nmeta_eq in Hb. apply empty_image_zero. lia.
Qed.

Lemma bitmap_bits used b :
  0 ≤ b < 4096 → (used ≤ Z.to_nat 4096)%nat →
  let bm := foldl (λ l i, set_byte l (Z.of_nat i / 8) (Z.lor (byte_at l (Z.of_nat i / 8)) (bit_mask (Z.of_nat i))))
              (replicate (Z.to_nat BSIZE) 0) (seq 0 used) in
  length bm = 512%nat ∧ bit_of bm b = (b <? Z.of_nat used).
Proof.
  intros Hb Hu. induction used as [|used IH].
  - split; [reflexivity|]. cbn [seq foldl]. rewrite bit_of_testbit. unfold byte_at. rewrite nth_lookup, lookup_replicate_2 by (unfold BSIZE; dlia).
    cbn. rewrite Z.testbit_0_l. symmetry. apply Z.ltb_ge. lia.
  - cbn zeta in *. rewrite seq_S, foldl_app. destruct (IH ltac:(lia)) as [L E]. cbn [foldl Nat.add] in *. set (bm := foldl _ _ _) in *. split; [by rewrite length_set_byte|].
    fold (set_bit bm (Z.of_nat used)). rewrite bit_of_set, E by (done || lia).
    destruct (Z.eqb_spec b (Z.of_nat used)), (Z.ltb_spec b (Z.of_nat used)), (Z.ltb_spec b (Z.of_nat (S used))); (done || lia).
Qed.

(** ** The image as the kernel reads it *)

Definition disk_inode (img : list (list Z)) (sb : superblock) (inum : Z) : inode :=
  dinode_load (blk img (IBLOCK inum sb)) (inum `mod` IPB * 64) (Inode 0 0 0 (Sleeplock 0 0) 0 0 0 0 0 0 []).
(** The block that bmap finds for the block [bn] of a file. *)
Definition file_block (img : list (list Z)) (ip : inode) (bn : nat) : Z :=
  if (bn <? NDIRECT)%nat then addr_at bn ip
  else get32 (blk img (addr_at NDIRECT ip)) (4 * Z.of_nat (bn - NDIRECT)).

(** Inode [inum] is a file of the given type and size that starts with [data]. *)
Record reads_as (img : list (list Z)) (sb : superblock) (inum ty size : Z) (data : list Z) : Prop := {
  ra_type : i_type (disk_inode img sb inum) = ty;
  ra_nlink : i_nlink (disk_inode img sb inum) = 1;
  ra_size : i_size (disk_inode img sb inum) = size;
  ra_data : ∀ i, (i < length data)%nat →
    byte_at (blk img (file_block img (disk_inode img sb inum) (i / 512))) (Z.of_nat (i `mod` 512)) = nth i data 0
}.

(** An image of the files [files], type, size and contents, from inode 1 on,
    that uses the blocks below [used]: no two file blocks are the same block. *)
Record good_image (img : list (list Z)) (files : list (Z * Z * list Z)) (used : Z) : Prop := {
  gi_sb : sb_of_bytes (blk img 1) = mk_sb;
  gi_size : Z.of_nat (length img) = sb_size mk_sb;
  gi_files : ∀ k ty size data, files !! k = Some (ty, size, data) → reads_as img mk_sb (1 + Z.of_nat k) ty size data;
  gi_blocks : ∀ k f j, files !! k = Some f → (j < nblk (length (snd f)))%nat →
    nmeta ≤ file_block img (disk_inode img mk_sb (1 + Z.of_nat k)) j < used;
  gi_apart : ∀ k k' f f' j j', files !! k = Some f → files !! k' = Some f' →
    (j < nblk (length (snd f)))%nat → (j' < nblk (length (snd f')))%nat →
    file_block img (disk_inode img mk_sb (1 + Z.of_nat k)) j = file_block img (disk_inode img mk_sb (1 + Z.of_nat k')) j' → k = k' ∧ j = j';
  gi_bitmap : ∀ b, 0 ≤ b < sb_size mk_sb → bit_of (blk img (BBLOCK b mk_sb)) (b `mod` BPB) = (b <? used)
}.

Lemma byte_at_sub l off n j : 0 ≤ off → 0 ≤ j < n → byte_at (sub_bytes l off n) j = byte_at l (off + j).
Proof.
  intros. unfold byte_at, sub_bytes. rewrite !nth_lookup, lookup_take_lt, lookup_drop by lia. do 2 f_equal. lia.
Qed.
Lemma idata_get32 img inum j :
  0 ≤ j ≤ 60 → get32 (idata img inum) j = get32 (blk img (IBLOCK inum mk_sb)) (inum `mod` IPB * 64 + j).
Proof. intros. unfold get32, idata. change IPB with 8. rewrite !byte_at_sub by dlia. by rewrite !Z.add_assoc. Qed.
Lemma idata_get16 img inum j :
  0 ≤ j ≤ 62 → get16 (idata img inum) j = get16 (blk img (IBLOCK inum mk_sb)) (inum `mod` IPB * 64 + j).
Proof. intros. unfold get16, idata. change IPB with 8. rewrite !byte_at_sub by dlia. by rewrite !Z.add_assoc. Qed.

Lemma addr_at_mk img inum j : (j ≤ 12)%nat → addr_at j (disk_inode img mk_sb inum) = mk_addr (idata img inum) (Z.of_nat j).
Proof.
  intros Hj. unfold addr_at, disk_inode, dinode_load, mk_addr. cbn [i_addrs set_i_type set_i_major set_i_minor set_i_nlink set_i_size set_i_addrs].
  unfold dinode_addrs. rewrite idata_get32 by lia. rewrite nth_lookup, list_lookup_fmap, lookup_seq_lt by (unfold NDIRECT; lia).
  cbn. f_equal. lia.
Qed.

Lemma stored_block img inum blks ind data j :
  stored img (idata img inum) blks ind data → (j < length blks ≤ 140)%nat → file_block img (disk_inode img mk_sb inum) j = nth j blks 0.
Proof.
  intros [Hm Ht _] [Hj Hmax]. unfold file_block, NDIRECT in *.
  destruct (Nat.ltb_spec j 12); rewrite addr_at_mk by lia.
  - rewrite (fm_dir _ _ _ _ Hm) by lia. by rewrite Nat2Z.id.
  - unfold tight in Ht. destruct ind as [x|]; [|lia]. change (Z.of_nat 12) with 12. rewrite (fm_ind _ _ _ _ Hm). cbn [default].
    rewrite (fm_ent _ _ _ _ Hm x) by (done || lia). f_equal. lia.
Qed.

(** Blocks of different files, or different blocks of a file. *)
Lemma owned_apart fs k k' f f' j j' :
  NoDup (owned fs) → fs !! k = Some f → fs !! k' = Some f' → (j < length (a_blks f))%nat → (j' < length (a_blks f'))%nat →
  nth j (a_blks f) 0 = nth j' (a_blks f') 0 → k = k' ∧ j = j'.
Proof.
  intros Hnd Ef Ef' Hj Hj' E. rewrite (proj1 (owned_split fs k f f Ef)) in Hnd. apply NoDup_app in Hnd as (H1 & H2 & _).
  destruct (decide (k' = k)) as [->|Hne].
  - rewrite Ef in Ef'. injection Ef' as <-. split; [done|]. unfold own in H1. apply NoDup_app in H1 as (H1 & _).
    rewrite !nth_lookup in E. destruct (lookup_lt_is_Some_2 _ _ Hj) as [x Ex], (lookup_lt_is_Some_2 _ _ Hj') as [y Ey].
    rewrite Ex, Ey in E. cbn in E. subst y. by apply (NoDup_lookup _ _ _ x H1).
  - exfalso. apply (H2 (nth j (a_blks f) 0)); [by apply nth_own|]. rewrite E. apply (owned_other fs k k' f'); [done..|by apply nth_own].
Qed.

(** The image of [s] after the size of the root directory and the bitmap are
    written. *)
Section Finish.
Context (s : mkst) (root : afile) (fs : list afile) (size : Z) (bm : list Z).
Hypothesis (D : disk s (root :: fs)) (Hn : (S (length fs) < 200)%nat).
Hypothesis (Hmax : Forall (λ f, nblk (length (a_data f)) ≤ 140)%nat (root :: fs)).
Hypothesis (Hty : Forall (λ f, 0 ≤ a_type f < 32768) (root :: fs)) (Hsize : 0 ≤ size < 4294967296).
Hypothesis (Hsb : sb_of_bytes (blk (mk_img s) 1) = mk_sb).
Hypothesis (Hbm : ∀ b, 0 ≤ b < 1000 → bit_of bm b = (b <? mk_freeblock s)).

Let din1 : list Z := put32 (idata (mk_img s) 1) 8 size.
Let img1 : list (list Z) := put_inode (mk_img s) 1 din1.
Let img : list (list Z) := <[Z.to_nat 58 := bm]> img1.
Let file_of (f : afile) : Z * Z * list Z := (a_type f, Z.of_nat (length (a_data f)), a_data f).

Lemma fin_root : length (idata (mk_img s) 1) = 64%nat.
Proof. destruct (dk_file _ _ D 0 root eq_refl) as [R1 _ _ _]. apply (stored_din _ _ _ _ _ R1). Qed.
Lemma fin_din : length din1 = 64%nat.
Proof. unfold din1. rewrite length_put32; rewrite ?fin_root; lia. Qed.
Lemma fin_img1 : img_ok img1.
Proof. apply img_ok_put; [lia|apply (sp_img _ _ _ (dk_space _ _ D))|apply fin_din]. Qed.
Lemma fin_low b : 0 ≤ b → b ≠ 58 → blk img b = blk img1 b.
Proof.
  intros Hb Hne. unfold img. rewrite blk_insert by (rewrite ?(io_blocks _ fin_img1); lia). by rewrite (proj2 (Z.eqb_neq _ _)).
Qed.
Lemma fin_high b : 59 ≤ b → blk img b = blk (mk_img s) b.
Proof. intros. rewrite fin_low by lia. apply blk_put; [lia|apply (sp_img _ _ _ (dk_space _ _ D))|lia|lia]. Qed.
Lemma fin_idata inum : 0 ≤ inum < 200 → idata img inum = if inum =? 1 then din1 else idata (mk_img s) inum.
Proof.
  intros Hi. rewrite <- (idata_put (mk_img s) 1 din1 inum); [|lia|done|apply (sp_img _ _ _ (dk_space _ _ D))|apply fin_din].
  unfold idata. destruct (IBLOCK_mk inum Hi) as [_ Hb]. by rewrite fin_low by lia.
Qed.

(** Every file is stored in the new image. *)
Lemma fin_stored k f : (root :: fs) !! k = Some f → stored img (idata img (1 + Z.of_nat k)) (a_blks f) (a_ind f) (a_data f).
Proof.
  intros Ef. pose proof (lookup_lt_Some _ _ _ Ef) as Hk. cbn [length] in Hk. destruct (dk_file _ _ D k f Ef) as [F1 _ _ _].
  eapply stored_ext; [|apply (disk_own _ _ _ _ D Ef)|intros b Hb _; by apply fin_high].
  rewrite fin_idata by lia. destruct (Z.eqb_spec (1 + Z.of_nat k) 1) as [E|]; [|exact F1]. unfold din1. rewrite <- E. by apply stored_size.
Qed.
Lemma fin_blocks k f j :
  (root :: fs) !! k = Some f → (j < nblk (length (a_data f)))%nat →
  (j < length (a_blks f))%nat ∧ file_block img (disk_inode img mk_sb (1 + Z.of_nat k)) j = nth j (a_blks f) 0.
Proof.
  intros Ef Hj. pose proof (fin_stored k f Ef) as Hst. rewrite (da_blks _ _ _ (st_data _ _ _ _ _ Hst)). split; [done|].
  apply (stored_block _ _ _ _ _ _ Hst). rewrite (da_blks _ _ _ (st_data _ _ _ _ _ Hst)). split; [done|].
  by apply (Forall_lookup_1 _ _ _ _ Hmax Ef).
Qed.

Lemma fin_reads k f :
  (root :: fs) !! k = Some f →
  reads_as img mk_sb (1 + Z.of_nat k) (a_type f) (if (k =? 0)%nat then size else Z.of_nat (length (a_data f))) (a_data f).
Proof.
  intros Ef. pose proof (lookup_lt_Some _ _ _ Ef) as Hk. cbn [length] in Hk. destruct (dk_file _ _ D k f Ef) as [_ F2 F3 F4].
  pose proof (Forall_lookup_1 _ _ _ _ Hty Ef) as Ht. cbn beta in Ht. pose proof fin_root as Hl.
  assert (∀ j, 0 ≤ j ≤ 6 → get16 (idata img (1 + Z.of_nat k)) j = get16 (idata (mk_img s) (1 + Z.of_nat k)) j) as H16.
  { intros j Hj. rewrite fin_idata by lia. destruct (Z.eqb_spec (1 + Z.of_nat k) 1) as [E|]; [|done]. unfold din1. rewrite E. apply get16_put32_other; lia. }
  split; [unfold disk_inode, dinode_load; cbn [i_type i_nlink i_size set_i_type set_i_major set_i_minor set_i_nlink set_i_size set_i_addrs] ..|].
  - rewrite <- (Z.add_0_r (_ `mod` IPB * 64)), <- idata_get16, H16, F2 by lia. unfold i16. dlia.
  - rewrite <- idata_get16, H16, F3 by lia. reflexivity.
  - rewrite <- idata_get32, fin_idata by lia. destruct (Nat.eqb_spec k 0) as [->|Hk0].
    + change (1 + Z.of_nat 0 =? 1) with true. cbv match. unfold din1. rewrite get32_put32 by lia. by apply u32_small.
    + rewrite (proj2 (Z.eqb_neq _ _)) by lia. exact F4.
  - intros i Hi. destruct (fin_blocks k f (i / 512) Ef) as [_ E].
    { unfold nblk. assert (i = 512 * (i / 512) + i `mod` 512)%nat by (apply Nat.div_mod; lia). apply Nat.div_le_lower_bound; lia. }
    rewrite E. by apply (da_bytes _ _ _ (st_data _ _ _ _ _ (fin_stored k f Ef))).
Qed.

Lemma good_image_of : good_image img ((a_type root, size, a_data root) :: (file_of <$> fs)) (mk_freeblock s).
Proof.
  set (files := _ :: _).
  assert (∀ k x, files !! k = Some x → ∃ f, (root :: fs) !! k = Some f ∧ x = (a_type f, if (k =? 0)%nat then size else Z.of_nat (length (a_data f)), a_data f)) as Hf.
  { intros [|k] x E; [injection E as <-; by exists root|]. change ((file_of <$> fs) !! k = Some x) in E.
    apply list_lookup_fmap_Some in E as (f & -> & Ef). by exists f. }
  pose proof (dk_space _ _ D) as Hs. split.
  - rewrite fin_low by lia. unfold img1. rewrite blk_put; [exact Hsb|lia|apply (sp_img _ _ _ Hs)|lia|lia].
  - unfold img. rewrite length_insert, (io_blocks _ fin_img1). reflexivity.
  - intros k ty sz d E. destruct (Hf _ _ E) as (f & Ef & [= -> -> ->]). by apply fin_reads.
  - intros k x j E Hj. destruct (Hf _ _ E) as (f & Ef & ->). cbn [snd] in Hj. destruct (fin_blocks k f j Ef Hj) as [Hl ->].
    pose proof (sp_range _ _ _ Hs) as Hr. rewrite Forall_forall in Hr. apply (Hr _ (elem_of_owned _ _ _ _ Ef (nth_own _ _ _ Hl))).
  - intros k k' x x' j j' E E' Hj Hj'. destruct (Hf _ _ E) as (f & Ef & ->), (Hf _ _ E') as (f' & Ef' & ->). cbn [snd] in *.
    destruct (fin_blocks k f j Ef Hj) as [Hl ->], (fin_blocks k' f' j' Ef' Hj') as [Hl' ->].
    by apply (owned_apart (root :: fs) k k' f f'); [apply (sp_nodup _ _ _ Hs)|..].
  - intros b Hb. change (sb_size mk_sb) with 1000 in Hb. unfold BBLOCK. change (sb_bmapstart mk_sb) with 58. change BPB with 4096.
    rewrite Z.div_small, Z.mod_small by lia. change (u32 (0 + 58)) with 58. unfold img. rewrite blk_insert, Z.eqb_refl by (rewrite ?(io_blocks _ fin_img1); lia). by apply Hbm.
Qed.
End Finish.

Definition root_data (args : list (list Z * list (list Z))) : list Z :=
  dirent_bytes ROOTINO [46] ++ dirent_bytes ROOTINO [46; 46] ++ dirents 2 args.
Lemma length_root args : length (root_data args) = (32 + 16 * length args)%nat.
Proof. unfold root_data. rewrite !length_app, !length_dirent, length_dirents. lia. Qed.

Lemma root_blocks n : (n ≤ 198)%nat → (nblk (32 + 16 * n) ≤ 140)%nat.
Proof. intros. etransitivity; [apply (nblk_mono _ 3200); lia|]. reflexivity || (vm_compute; lia). Qed.

(** Writing the size and the bitmap. *)
Lemma mkfs_finish s root fs o :
  disk s (root :: fs) → (S (length fs) < 200)%nat → Forall (λ f, nblk (length (a_data f)) ≤ 140)%nat (root :: fs) →
  Forall (λ f, 0 ≤ a_type f < 32768) (root :: fs) → sb_of_bytes (blk (mk_img s) 1) = mk_sb →
  let size := (Z.of_nat (length (a_data root)) / 512 + 1) * 512 in
  ∃ s', mkfs_end ROOTINO o s = Ok tt s' o ∧
    good_image (mk_img s') ((a_type root, size, a_data root) :: ((λ f, (a_type f, Z.of_nat (length (a_data f)), a_data f)) <$> fs)) (mk_freeblock s').
Proof.
  intros D Hn Hmax Hty Hsb size. pose proof (dk_space _ _ D) as Hs. pose proof (sp_img _ _ _ Hs) as Hok. pose proof (sp_top _ _ _ Hs) as Htop.
  destruct (dk_file _ _ D 0 root eq_refl) as [R1 _ _ R4]. change (1 + Z.of_nat 0) with 1 in *.
  pose proof (nblk_bound _ (Forall_inv Hmax)) as Hb. assert (0 ≤ size < 4294967296) as Hsize by (unfold size; dlia).
  pose proof (stored_din _ _ _ _ _ R1) as Hl. rewrite nmeta_eq in Htop.
  set (used := Z.to_nat (mk_freeblock s)).
  set (bm := foldl (λ l i, set_byte l (Z.of_nat i / 8) (Z.lor (byte_at l (Z.of_nat i / 8)) (bit_mask (Z.of_nat i)))) (replicate (Z.to_nat BSIZE) 0) (seq 0 used)).
  assert (∀ b, 0 ≤ b < 1000 → bit_of bm b = (b <? mk_freeblock s)) as Hbm.
  { intros b Hb'. destruct (bitmap_bits used b ltac:(lia) ltac:(lia)) as [_ E]. fold bm in E. rewrite E. f_equal. unfold used. lia. }
  pose proof (good_image_of s root fs size bm D Hn Hmax Hty Hsize Hsb Hbm) as Hg.
  pose proof (dk_faults _ _ D) as Hfl. destruct s as [img fi fb fl]. cbn [mk_img mk_freeinode mk_freeblock mk_faults] in *. subst fl.
  set (img1 := put_inode img 1 (put32 (idata img 1) 8 size)) in *.
  assert (img_ok img1) as Hok1 by (apply img_ok_put; [lia|done|by rewrite length_put32 by lia]).
  exists (Mkst (<[Z.to_nat 58 := bm]> img1) fi fb []). split; [|exact Hg]. unfold mkfs_end. change ROOTINO with 1.
  rewrite (bind_ok _ _ _ _ _ _ _ (rinode_eq 1 o img fi fb ltac:(lia) Hok)), R4. change BSIZE with 512 at 1 2.
  rewrite (xint_small (Z.of_nat _)) by lia. fold size. rewrite (u32_small size), xint_small by done.
  rewrite (bind_ok _ _ _ _ _ _ _ (winode_eq 1 _ o img fi fb ltac:(lia) Hok)). mrun. cbn [mk_freeblock]. unfold mk_balloc.
  rewrite i32_small by lia. rewrite (proj2 (Z.ltb_lt _ _)) by (unfold BSIZE; lia). cbn [negb].
  change (sb_bmapstart mk_sb) with 58. by apply wsect_eq; [lia|].
Qed.

(** What the loop over the files stored, read off the arguments. *)
Lemma files_fit (args : list (list Z * list (list Z))) (fs : list afile) :
  Forall arg_ok args → (λ f, (a_type f, a_data f)) <$> fs = (λ a, (T_FILE, concat (snd a))) <$> args →
  ∀ f, f ∈ fs → a_type f = T_FILE ∧ (nblk (length (a_data f)) ≤ 140)%nat.
Proof.
  intros Hok F f Hf. pose proof (list_elem_of_fmap_2 (λ f, (a_type f, a_data f)) fs f Hf) as H.
  rewrite F in H. apply list_elem_of_fmap in H as (a & [= -> ->] & Ha). rewrite Forall_forall in Hok. by destruct (Hok a Ha).
Qed.
Lemma files_same (args : list (list Z * list (list Z))) (fs : list afile) :
  (λ f, (a_type f, a_data f)) <$> fs = (λ a, (T_FILE, concat (snd a))) <$> args →
  (λ f, (a_type f, Z.of_nat (length (a_data f)), a_data f)) <$> fs = (λ a, (T_FILE, Z.of_nat (length (concat (snd a))), concat (snd a))) <$> args.
Proof.
  revert args. induction fs as [|f fs IH]; intros [|a args] F; [done..|].
  rewrite !fmap_cons in *. injection F as E1 E2 F. rewrite E1, E2. f_equal. by apply IH.
Qed.

(** The part of main before the files. *)
Lemma mkfs_start args o :
  ∃ s b i, mkfs_main (Some true) args o (Mkst [] 1 0 []) = (for_each args (mkfs_file 1) ;;; mkfs_end 1) o s ∧
    disk s [AFile T_DIR (dirent_bytes 1 [46] ++ dirent_bytes 1 [46; 46]) b i] ∧ blk (mk_img s) 1 = blk empty_image 1.
Proof.
  destruct (mk_ialloc_ok _ [] T_DIR o empty_disk ltac:(simpl; lia) ltac:(unfold T_DIR; lia)) as (s1 & E1 & D1 & F1 & K1).
  cbn [length app] in *. change (1 + Z.of_nat 0) with 1 in E1. cbn [mk_freeblock mk_img] in F1, K1.
  destruct (iappend_ok s1 _ 0 _ (dirent_bytes 1 [46]) o D1 eq_refl ltac:(simpl; lia)) as (s2 & b2 & i2 & E2 & D2 & K2).
  { cbn [a_data length]. rewrite length_dirent. vm_compute. lia. } { cbn [a_data length]. rewrite length_dirent, F1. done. }
  cbn [insert list_insert a_data a_type app] in *. change (1 + Z.of_nat 0) with 1 in E2.
  pose proof (disk_needs _ _ D2) as N2. cbn [fmap list_fmap a_data needs] in N2. rewrite length_dirent in N2.
  destruct (iappend_ok s2 _ 0 _ (dirent_bytes 1 [46; 46]) o D2 eq_refl ltac:(simpl; lia)) as (s3 & b3 & i3 & E3 & D3 & K3).
  { cbn [a_data]. rewrite !length_dirent. vm_compute. lia. } { cbn [a_data]. rewrite !length_dirent, N2. done. }
  cbn [insert list_insert a_data a_type] in *. change (1 + Z.of_nat 0) with 1 in E3.
  exists s3, b3, i3. split_and!; [|exact D3|by rewrite K3, K2, K1 by lia].
  unfold mkfs_main. change (negb (default false (Some true))) with false. cbv match. mrun. unfold set_freeblock. cbn [mk_img mk_freeinode mk_faults].
  pose proof (wsect_fill (Z.to_nat 1000) [] 1 nmeta o ltac:(simpl length; lia)) as E0. change (length (@nil (list Z))) with 0%nat in E0.
  change (Z.to_nat FSSIZE) with (Z.to_nat 1000). rewrite (bind_ok _ _ _ _ _ _ _ E0). cbn [app].
  assert (img_ok (replicate (Z.to_nat 1000) zeroes)) as Hb by (split; [by rewrite length_replicate|apply Forall_replicate; reflexivity]).
  rewrite (bind_ok _ _ _ _ _ _ _ (wsect_eq 1 (splice zeroes 0 (sb_bytes mk_sb)) o _ 1 nmeta ltac:(lia) Hb)).
  change (Z.to_nat 1) with 1%nat. fold empty_image. rewrite (bind_ok _ _ _ _ _ _ _ E1). change (negb (1 =? ROOTINO)) with false. cbv match.
  by rewrite (bind_ok _ _ _ _ _ _ _ E2), (bind_ok _ _ _ _ _ _ _ E3).
Qed.

(** [C4] mkfs: when the files fit, the image it writes is read by the kernel as
    the file system it is meant to be.  Inode 1 is a directory with the entries
    for the files, inode 2 and the following ones are regular files with the
    bytes of the host's files, however those were read; every block of a file
    is in the data area, no two of them are the same block, and the bitmap
    marks exactly the blocks up to the last one used. *)
Theorem mkfs_image (args : list (list Z * list (list Z))) o :
  (length args ≤ 198)%nat → Forall arg_ok args →
  nmeta + cost (nblk (length (root_data args))) + needs ((λ a, concat (snd a)) <$> args) ≤ FSSIZE →
  ∃ s, mkfs_main (Some true) (as_arg <$> args) o (Mkst [] 1 0 []) = Ok tt s o ∧
    good_image (mk_img s)
      ((T_DIR, (Z.of_nat (length (root_data args)) / BSIZE + 1) * BSIZE, root_data args)
       :: ((λ a, (T_FILE, Z.of_nat (length (concat (snd a))), concat (snd a))) <$> args))
      (mk_freeblock s).
Proof.
  intros Hn Hok Hroom. rewrite length_root in Hroom. change FSSIZE with 1000 in Hroom. rewrite nmeta_eq in Hroom.
  pose proof (root_blocks _ Hn) as Hrb. destruct (mkfs_start (as_arg <$> args) o) as (s3 & b3 & i3 & E3 & D3 & K3).
  destruct (mkfs_files_ok args s3 _ [] o D3) as (s4 & b4 & i4 & fs & E4 & D4 & F4 & K4); [simpl; lia|done|..].
  { cbn [a_data]. rewrite length_app, !length_dirent. exact Hrb. }
  { cbn [a_data]. rewrite length_app, !length_dirent. cbn [fmap list_fmap needs]. rewrite nmeta_eq. simpl Nat.add in *. lia. }
  cbn [a_data a_type app length] in D4. rewrite <- app_assoc in D4. change (2 + Z.of_nat 0) with 2 in D4.
  change (dirent_bytes 1 [46] ++ dirent_bytes 1 [46; 46] ++ dirents 2 args) with (root_data args) in D4.
  assert (length fs = length args) as Hlf by (apply (f_equal length) in F4; by rewrite !length_fmap in F4).
  pose proof (files_fit args fs Hok F4) as Hfs.
  destruct (mkfs_finish s4 _ fs o D4) as (s5 & E5 & G5).
  { lia. } { constructor; [cbn [a_data]; by rewrite length_root|]. apply Forall_forall. intros f Hf. by apply Hfs. }
  { constructor; [cbn [a_type]; unfold T_DIR; lia|]. apply Forall_forall. intros f Hf. rewrite (proj1 (Hfs f Hf)). unfold T_FILE. lia. }
  { rewrite K4, K3 by lia. vm_compute. reflexivity. }
  exists s5. split; [by rewrite E3, (bind_ok _ _ _ _ _ _ _ E4)|]. cbn [a_type a_data] in G5.
  rewrite (files_same _ _ F4) in G5. exact G5.
Qed.

(** Two files, the first of them read in two pieces. *)
Definition demo_args : list (list Z * list (list Z)) :=
  [([95; 99; 97; 116], [[1; 2; 3]; [4; 5]]); ([82; 69; 65; 68; 77; 69], [replicate (Z.to_nat 512) 7])].

Lemma mkfs_image_witness :
  ∃ s, mkfs_main (Some true) (as_arg <$> demo_args) [] (Mkst [] 1 0 []) = Ok tt s [] ∧
    reads_as (mk_img s) (sb_of_bytes (blk (mk_img s) 1)) 2 T_FILE 5 [1; 2; 3; 4; 5].
Proof.
  destruct (mkfs_image demo_args []) as (s & E & G).
  - cbn. lia.
  - repeat constructor; cbn; lia.
  - vm_compute. discriminate.
  - exists s. split; [exact E|]. rewrite (gi_sb _ _ _ G). apply (gi_files _ _ _ G 1). reflexivity.
Defined.
