(* ===== verification/Paths.v ===== *)
(** * Path names

    Theorems on the parsing of paths in [fs.c]: [skipelem], applied again and
    again as [namex] does, takes a path apart into the pieces between its
    slashes, and so the loop of [namex] ends after at most one round per byte of
    the path. *)

From S2P Require Import Prelude Defs Spinlock Kernel Sched Sleeplock Bytes Bio Log Fs.
Local Open Scope kernel_scope.

(** The pieces of a path between its slashes, empty ones included. *)
Fixpoint split_slash (path : list Z) : list (list Z) :=
  match path with
  | [] => [[]]
  | c :: path' =>
      if c =? SLASH then [] :: split_slash path'
      else match split_slash path' with
           | e :: es => (c :: e) :: es
           | [] => [[c]]
           end
  end.

(** The names in a path. *)
Definition pieces (path : list Z) : list (list Z) := filter (λ e, e ≠ []) (split_slash path).

Lemma pieces_slash path : pieces (SLASH :: path) = pieces path.
Proof. done. Qed.
Lemma split_slash_cons path : ∃ e es, split_slash path = e :: es.
Proof.
  destruct path as [|c path]; simpl; [eauto|]. destruct (c =? SLASH); [eauto|].
  destruct (split_slash path); eauto.
Qed.

Lemma pieces_skip path : pieces (skip_slashes path) = pieces path.
Proof.
  induction path as [|c path IH]; [done|]. simpl. destruct (Z.eqb_spec c SLASH) as [->|]; [|done].
  by rewrite IH, pieces_slash.
Qed.
Lemma skip_slashes_hd path : hd 0 (skip_slashes path) ≠ SLASH.
Proof.
  induction path as [|c path IH]; [done|]. simpl. by destruct (Z.eqb_spec c SLASH).
Qed.
Lemma length_skip path : (length (skip_slashes path) ≤ length path)%nat.
Proof. induction path as [|c path IH]; simpl; [done|]. destruct (c =? SLASH); simpl; lia. Qed.

(** The element at the front of a path and what follows it. *)
Lemma elem_of_path_split path :
  let '(e, rest) := elem_of_path path in
  path = e ++ rest ∧ (SLASH ∉ e) ∧ (rest = [] ∨ hd 0 rest = SLASH) ∧
  split_slash path = e :: tail (split_slash rest).
Proof.
  induction path as [|c path IH]; [simpl; split_and!; [done|set_solver|by left|done]|]. simpl.
  destruct (Z.eqb_spec c SLASH) as [->|Hc]; [split_and!; [done|set_solver|by right|done]|].
  destruct (elem_of_path path) as [e rest]. destruct IH as (E & Hn & Hr & Hs). split_and!.
  - simpl. by rewrite E.
  - by rewrite not_elem_of_cons.
  - done.
  - by rewrite Hs.
Qed.

Lemma pieces_rest rest : rest = [] ∨ hd 0 rest = SLASH → filter (λ e, e ≠ []) (tail (split_slash rest)) = pieces rest.
Proof.
  intros [->|Hr]; [done|]. destruct rest as [|c rest]; [done|]. simpl in Hr. by subst.
Qed.

Lemma skipelem_shorter path name rest :
  skipelem path = Some (name, rest) → (length rest < length path)%nat.
Proof.
  unfold skipelem. pose proof (length_skip path) as Hl. pose proof (skip_slashes_hd path) as Hh.
  destruct (skip_slashes path) as [|c p]; [done|].
  pose proof (elem_of_path_split (c :: p)) as He. destruct (elem_of_path (c :: p)) as [e r].
  intros [= <- <-]. destruct He as (E & _ & Hr & _). pose proof (length_skip r).
  destruct e as [|c' e]; [|apply (f_equal length) in E; rewrite length_app in E; simpl in *; lia].
  simpl in E. subst r. destruct Hr as [?|Hr]; [done|]. by simpl in Hr.
Qed.

(** ** Main theorems *)

(** skipelem returns 0 exactly for a path without names; otherwise it yields
    the first name, cut to [DIRSIZ] bytes, and a shorter path that does not
    start with a slash and has exactly the remaining names. *)
Theorem skipelem_pieces path :
  match skipelem path with
  | None => pieces path = []
  | Some (name, rest) => ∃ e, pieces path = e :: pieces rest ∧ name = take DIRSIZ e ∧
      hd 0 rest ≠ SLASH ∧ (length rest < length path)%nat
  end.
Proof.
  unfold skipelem. pose proof (pieces_skip path) as Hp. pose proof (skip_slashes_hd path) as Hh.
  pose proof (length_skip path) as Hl. destruct (skip_slashes path) as [|c p]; [by rewrite <- Hp|].
  pose proof (elem_of_path_split (c :: p)) as He. destruct (elem_of_path (c :: p)) as [e rest].
  destruct He as (E & Hn & Hr & Hs). assert (e ≠ []) as Hne.
  { intros ->. simpl in *. subst rest. destruct Hr as [?|Hr]; [done|]. by simpl in Hr. }
  exists e. split_and!; [|done|apply skip_slashes_hd|].
  - rewrite <- Hp, pieces_skip. unfold pieces at 1. rewrite Hs, filter_cons_True by done. f_equal.
    by apply pieces_rest.
  - pose proof (length_skip rest). apply (f_equal length) in E. rewrite length_app in E.
    destruct e; [done|]. simpl in *. lia.
Qed.

Section Namex.
Context {devsw : DevSw}.

(** The walk along a path ends: beyond the length of the path the bound on
    the rounds of namex's loop does not matter, so the loop as the model runs it
    never stops for want of rounds. *)
Theorem namex_terminates f1 f2 ip path parent name o k :
  (length path < f1)%nat → (length path < f2)%nat →
  namex_loop f1 ip path parent name o k = namex_loop f2 ip path parent name o k.
Proof.
  revert f2 ip path name o k. induction f1 as [|f1 IH]; intros [|f2] ip path name o k H1 H2; try lia.
  cbn [namex_loop]. destruct (skipelem path) as [[e rest]|] eqn:E; [|done].
  apply skipelem_shorter in E. apply bind_ext. intros [] s1 o1 _. apply bind_ext. intros x s2 o2 _.
  destruct (negb (i_type x =? T_DIR)); [done|]. destruct (parent && _); [done|].
  apply bind_ext. intros [[next off]|] s3 o3 _; [|done]. apply bind_ext. intros [] s4 o4 _.
  apply IH; lia.
Qed.
End Namex.

(** A walk along [a//b] from an inode, without devices. *)
Definition no_devices : DevSw := {| dev_read := λ _ _ _, ret (-1); dev_write := λ _ _ _, ret (-1) |}.

Lemma namex_terminates_witness :
  namex_loop (devsw := no_devices) 5 0 [97; 47; 47; 98] false [] [] boot_kernel
  = namex_loop (devsw := no_devices) 500 0 [97; 47; 47; 98] false [] [] boot_kernel.
Proof. apply (namex_terminates (devsw := no_devices)); simpl; lia. Defined.
