(* ===== verification/Pipe.v ===== *)
(** * Pipes

    [pipe.c] but for [pipealloc], which is with the file table.  A pipe lives
    in a page of its own; the structure is the entry of that page in
    [k_pipes], and its bytes go back to the page allocator when both ends are
    closed. *)

From S2P Require Import Prelude Defs Spinlock CString Kernel Sched Kalloc Vm Sleeplock Bytes Bio Log Fs.
Local Open Scope kernel_scope.

Definition PIPESIZE : Z := 512.

Definition rd_pipe (p : Z) : KM pipe :=
  let! k := get in
  match k_pipes k !! p with Some x => ret x | None => undef "pipe pointer" end.
Definition upd_pipe (p : Z) (f : pipe → pipe) : KM unit :=
  modify (λ k, set_k_pipes (alter f p (k_pipes k)) k).

(** [kfree((char* )p)]: the structure is gone. *)
Definition free_pipe (p : Z) : KM unit :=
  modify (λ k, set_k_pipes (delete p (k_pipes k)) k) ;;;
  kfree p.

Definition pipeclose (p : Z) (writable : Z) : KM unit :=
  acquire (Lpipe p) ;;;
  (if negb (writable =? 0) then
     upd_pipe p (set_pi_writeopen 0) ;;;
     wakeup (ChPipeRead p)
   else
     upd_pipe p (set_pi_readopen 0) ;;;
     wakeup (ChPipeWrite p)) ;;;
  let! pi := rd_pipe p in
  if (pi_readopen pi =? 0) && (pi_writeopen pi =? 0) then
    release (Lpipe p) ;;;
    free_pipe p
  else release (Lpipe p).

(** [myproc()->killed] *)
Definition my_killed : KM bool :=
  let! c := myproc in
  let! c := deref c in
  let! pr := rd_proc c in
  ret (negb (p_killed pr =? 0)).

Definition pipe_full (pi : pipe) : bool := pi_nwrite pi =? u32 (pi_nread pi + PIPESIZE).
Definition pipe_empty (pi : pipe) : bool := pi_nread pi =? pi_nwrite pi.

(** [p->data[p->nwrite++ % PIPESIZE] = c] and [c = p->data[p->nread++ % PIPESIZE]] *)
Definition pipe_put (c : Z) (pi : pipe) : pipe :=
  set_pi_nwrite (u32 (pi_nwrite pi + 1))
    (set_pi_data (<[Z.to_nat (pi_nwrite pi `mod` PIPESIZE) := u8 c]> (pi_data pi)) pi).
Definition pipe_head (pi : pipe) : Z := nth (Z.to_nat (pi_nread pi `mod` PIPESIZE)) (pi_data pi) 0.
Definition pipe_take (pi : pipe) : pipe := set_pi_nread (u32 (pi_nread pi + 1)) pi.

(** The test of the inner loop of pipewrite, and of its early return: the
    loop sleeps again while the pipe is full and someone may still read it. *)
Definition pipewrite_wait (p : Z) : KM bool :=
  let! pi := rd_pipe p in
  if pipe_full pi then
    if pi_readopen pi =? 0 then ret false
    else let! kd := my_killed in ret (negb kd)
  else ret false.

(** The bytes from [i] on; false when the writer gives up. *)
Fixpoint pipewrite_loop (m : nat) (p addr i : Z) : KM bool :=
  match m with
  | O => ret true
  | S m' =>
      while_wait (pipewrite_wait p)
        (wakeup (ChPipeRead p) ;;; sleep (ChPipeWrite p) (Lpipe p)) ;;;
      let! pi := rd_pipe p in
      if pipe_full pi then ret false
      else
        let! c := vread8 (u32 (addr + i)) in
        upd_pipe p (pipe_put c) ;;;
        pipewrite_loop m' p addr (i + 1)
  end.

Definition pipewrite (p addr n : Z) : KM Z :=
  acquire (Lpipe p) ;;;
  let! ok := pipewrite_loop (Z.to_nat n) p addr 0 in
  if negb ok then release (Lpipe p) ;;; ret (-1)
  else
    wakeup (ChPipeRead p) ;;;
    release (Lpipe p) ;;;
    ret n.

(** The reader sleeps while the pipe is empty, has a writer, and the process
    is not killed. *)
Definition piperead_wait (p : Z) : KM bool :=
  let! pi := rd_pipe p in
  if pipe_empty pi && negb (pi_writeopen pi =? 0) then
    let! kd := my_killed in ret (negb kd)
  else ret false.

Fixpoint piperead_loop (m : nat) (p addr i : Z) : KM Z :=
  match m with
  | O => ret i
  | S m' =>
      let! pi := rd_pipe p in
      if pipe_empty pi then ret i
      else
        upd_pipe p pipe_take ;;;
        vwrite8 (u32 (addr + i)) (pipe_head pi) ;;;
        piperead_loop m' p addr (i + 1)
  end.

Definition piperead (p addr n : Z) : KM Z :=
  acquire (Lpipe p) ;;;
  while_wait (piperead_wait p) (sleep (ChPipeRead p) (Lpipe p)) ;;;
  let! pi := rd_pipe p in
  if pipe_empty pi && negb (pi_writeopen pi =? 0) then
    (* killed while waiting *)
    release (Lpipe p) ;;;
    ret (-1)
  else
    let! i := piperead_loop (Z.to_nat n) p addr 0 in
    wakeup (ChPipeWrite p) ;;;
    release (Lpipe p) ;;;
    ret i.

(** ** The queue in a pipe

    [queued q pi]: the bytes [q] are in the buffer, oldest first.  The counters
    run modulo 2^32, a multiple of the buffer size. *)
Record queued (q : list Z) (pi : pipe) : Prop := {
  qd_len : length (pi_data pi) = 512%nat;
  qd_read : 0 ≤ pi_nread pi < 4294967296;
  qd_write : pi_nwrite pi = u32 (pi_nread pi + Z.of_nat (length q));
  qd_fit : (length q ≤ 512)%nat;
  qd_at i c : q !! i = Some c →
    pi_data pi !! Z.to_nat ((pi_nread pi + Z.of_nat i) `mod` 512) = Some c
}.

Lemma u32_mod_512 z : u32 z `mod` 512 = z `mod` 512.
Proof. unfold u32. dlia. Qed.

Lemma queued_full q pi : queued q pi → pipe_full pi = bool_decide (length q = 512%nat).
Proof.
  intros [_ Hr Hw Hf _]. unfold pipe_full, PIPESIZE. rewrite Hw. unfold u32.
  case_bool_decide as E; [rewrite E; by apply Z.eqb_eq|apply Z.eqb_neq; dlia].
Qed.
Lemma queued_empty q pi : queued q pi → pipe_empty pi = bool_decide (q = []).
Proof.
  intros [_ Hr Hw Hf _]. unfold pipe_empty. rewrite Hw. unfold u32.
  destruct q; simpl length in *; [apply Z.eqb_eq|apply Z.eqb_neq]; dlia.
Qed.

Lemma queued_put q pi c : queued q pi → (length q < 512)%nat → queued (q ++ [u8 c]) (pipe_put c pi).
Proof.
  intros [Hl Hr Hw Hf Hat] Hroom. unfold pipe_put, PIPESIZE. split; simpl.
  - by rewrite length_insert.
  - done.
  - rewrite Hw, length_app. simpl. unfold u32. dlia.
  - rewrite length_app. simpl. lia.
  - intros i x Hi. rewrite Hw, u32_mod_512. apply lookup_app_Some in Hi as [Hi|[Hge Hi]].
    + pose proof (lookup_lt_Some _ _ _ Hi). rewrite list_lookup_insert_ne by dlia. by apply Hat.
    + pose proof (lookup_lt_Some _ _ _ Hi) as Hlt. simpl in Hlt. assert (i = length q) as -> by lia.
      rewrite Nat.sub_diag in Hi. simplify_eq/=. apply list_lookup_insert_eq. rewrite Hl. dlia.
Qed.

Lemma queued_take c q pi : queued (c :: q) pi → pipe_head pi = c ∧ queued q (pipe_take pi).
Proof.
  intros [Hl Hr Hw Hf Hat]. unfold pipe_head, pipe_take, PIPESIZE. split.
  - rewrite nth_lookup. pose proof (Hat 0%nat c eq_refl) as H. rewrite Z.add_0_r in H. by rewrite H.
  - split; simpl in *; [done|apply u32_range| |lia|].
    + rewrite Hw. unfold u32. dlia.
    + intros i x Hi. rewrite <- (Hat (S i) x Hi). do 2 f_equal. unfold u32. dlia.
Qed.

(** ** Runs *)

Section PipeRuns.
Context (p : Z) (K : lkstate).

Lemma rd_pipe_eq o k pi : k_pipes k !! p = Some pi → rd_pipe p o k = Ok pi k o.
Proof. intros H. unfold rd_pipe. mrun. by rewrite H. Qed.

(** The bytes that pipewrite reads, one by one. *)
Definition mem_bytes (k : kernel) (addr i : Z) (m : nat) (bs : list Z) : Prop :=
  length bs = m ∧
  ∀ j b, bs !! j = Some b → ∃ x, addr_of (k_cr3 k) (k_mem k) (u32 (addr + (i + Z.of_nat j))) = Some x ∧ k_mem k x = b.

Lemma pipewrite_loop_eq m addr i q pi bs o k :
  k_pipes k !! p = Some pi → queued q pi → (length q + m ≤ 512)%nat → mem_bytes k addr i m bs →
  ∃ pi', pipewrite_loop m p addr i o k = Ok true (set_k_pipes (<[p := pi']> (k_pipes k)) k) o ∧
    queued (q ++ (u8 <$> bs)) pi' ∧ pi_readopen pi' = pi_readopen pi ∧ pi_writeopen pi' = pi_writeopen pi.
Proof.
  revert i q pi bs k. induction m as [|m IH]; intros i q pi bs k Hp Hq Hroom [Hlen Hbs].
  - destruct bs; [|done]. exists pi. rewrite insert_id by done. rewrite app_nil_r. by destruct k.
  - destruct bs as [|b bs]; simpl in Hlen; [lia|]. simpl.
    assert (pipe_full pi = false) as Hnf.
    { rewrite (queued_full _ _ Hq). apply bool_decide_eq_false. lia. }
    rewrite (bind_ok _ _ o k tt o k).
    2:{ rewrite while_wait_unfold.
        - unfold pipewrite_wait. rewrite bind_assoc, (bind_ok _ _ _ _ _ _ _ (rd_pipe_eq _ _ _ Hp)), Hnf. done.
        - unfold pipewrite_wait, rd_pipe, my_killed, rd_proc, deref. shrink.
        - intros. eapply waits_bind_r; [|intros; apply waits_sleep|done]. auto with xv6. }
    rewrite (bind_ok _ _ _ _ _ _ _ (rd_pipe_eq _ _ _ Hp)), Hnf.
    destruct (Hbs 0%nat b eq_refl) as (x & Hx & Hb). rewrite Z.add_0_r in Hx.
    rewrite (bind_ok _ _ _ _ _ _ _ (vread8_eq _ _ _ _ Hx)), Hb. unfold upd_pipe. mrun.
    destruct (IH (i + 1) (q ++ [u8 b]) (pipe_put b pi) bs
      (set_k_pipes (alter (pipe_put b) p (k_pipes k)) k)) as (pi' & H1 & H2 & H3 & H4).
    + kproj. by rewrite lookup_alter_eq, Hp.
    + apply queued_put; [done|lia].
    + rewrite length_app. simpl. lia.
    + split; [lia|]. intros j c Hj. destruct (Hbs (S j) c Hj) as (y & Hy & Hc). exists y. split; [|done].
      kproj. rewrite <- Hy. do 2 f_equal. lia.
    + exists pi'. rewrite H1. kproj. split_and!; [|by rewrite <- app_assoc in H2|done|done].
      f_equal. assert (<[p := pi']> (alter (pipe_put b) p (k_pipes k)) = <[p := pi']> (k_pipes k)) as ->
        by (apply map_eq; intros j; destruct (decide (p = j)) as [->|];
            rewrite ?lookup_insert_eq, ?lookup_insert_ne, ?lookup_alter_ne by done; done).
      by destruct k.
Qed.

(** The bytes piperead stores at [phys i], [phys (i + 1)], ... *)
Record stored (phys : Z → Z) (i : Z) (bs : list Z) (m m' : memory) : Prop := {
  sd_at j c : bs !! j = Some c → m' (phys (i + Z.of_nat j)) = u8 c;
  sd_other x : (∀ j, i ≤ j < i + Z.of_nat (length bs) → x ≠ phys j) → m' x = m x
}.

Lemma piperead_loop_eq m addr i n phys m0 q pi o k :
  k_pipes k !! p = Some pi → queued q pi → 0 ≤ i → i + Z.of_nat m = n →
  stays_mapped (k_cr3 k) m0 addr n phys →
  (∀ x, (∀ j, 0 ≤ j < n → x ≠ phys j) → k_mem k x = m0 x) →
  (∀ j j', 0 ≤ j < n → 0 ≤ j' < n → phys j = phys j' → j = j') →
  ∃ pi' m', piperead_loop m p addr i o k =
      Ok (i + Z.of_nat (length (take m q))) (set_k_mem m' (set_k_pipes (<[p := pi']> (k_pipes k)) k)) o ∧
    queued (drop m q) pi' ∧ stored phys i (take m q) (k_mem k) m' ∧
    pi_readopen pi' = pi_readopen pi ∧ pi_writeopen pi' = pi_writeopen pi.
Proof.
  revert i q pi k. induction m as [|m IH]; intros i q pi k Hp Hq Hi Hn Hmap Hag Hinj; simpl piperead_loop.
  - exists pi, (k_mem k). rewrite insert_id by done. split_and!; [|done| |done|done].
    + simpl. rewrite Z.add_0_r. by destruct k.
    + by split.
  - rewrite (bind_ok _ _ _ _ _ _ _ (rd_pipe_eq _ _ _ Hp)), (queued_empty _ _ Hq). destruct q as [|c q].
    { exists pi, (k_mem k). rewrite insert_id by done. split_and!; [|done| |done|done].
      - simpl. rewrite Z.add_0_r. by destruct k.
      - by split. }
    rewrite bool_decide_false by done. destruct (queued_take _ _ _ Hq) as [Hh Hq']. unfold upd_pipe. mrun.
    set (k1 := set_k_pipes (alter pipe_take p (k_pipes k)) k).
    rewrite (bind_ok _ _ _ _ _ _ _ (vwrite8_eq _ (pipe_head pi) o k1 _ (Hmap _ Hag i ltac:(lia)))), Hh.
    destruct (IH (i + 1) q (pipe_take pi) (set_k_mem (st8 (k_mem k1) (phys i) c) k1)) as (pi' & m' & H1 & H2 & [H3 H4] & H5 & H6);
      [unfold k1; kproj; by rewrite lookup_alter_eq, Hp|done|lia|lia|done| |done|].
    + intros x Hx. unfold k1. kproj. rewrite st8_other by (apply Hx; lia). by apply Hag.
    + exists pi', m'. rewrite H1. unfold k1 in *. kproj. simpl take. simpl length. simpl drop.
      split_and!; [|done| |done|done].
      * replace (i + Z.of_nat (S (length (take m q)))) with (i + 1 + Z.of_nat (length (take m q))) by lia.
        f_equal. assert (<[p := pi']> (alter pipe_take p (k_pipes k)) = <[p := pi']> (k_pipes k)) as ->
          by (apply map_eq; intros j; destruct (decide (p = j)) as [->|];
              rewrite ?lookup_insert_eq, ?lookup_insert_ne, ?lookup_alter_ne by done; done).
        by destruct k.
      * revert H3 H4. unfold k1. kproj. intros H3 H4. split.
        -- intros [|j] d Hj; simplify_eq/=.
           ++ rewrite Z.add_0_r, H4, st8_same; [done|]. intros j' Hj' E.
              assert (length (take m q) ≤ m)%nat by (rewrite length_take; lia).
              apply Hinj in E; lia.
           ++ replace (i + Z.of_nat (S j)) with (i + 1 + Z.of_nat j) by lia. by apply H3.
        -- intros x Hx. simpl length in Hx. rewrite H4 by (intros; apply Hx; lia).
           apply st8_other, Hx. lia.
Qed.
End PipeRuns.


(** The rest of piperead once it need not wait. *)
Lemma piperead_ready p addr n phys q pi o k K c :
  ptable_wf k → calm K c → c < 999999 → lock_free Lptable K → lock_free (Lpipe p) K →
  k_lk k = lk_acquire (Lpipe p) K → k_pipes k !! p = Some pi → queued q pi →
  q ≠ [] ∨ pi_writeopen pi = 0 → 0 ≤ n → stays_mapped (k_cr3 k) (k_mem k) addr n phys →
  (∀ j j', 0 ≤ j < n → 0 ≤ j' < n → phys j = phys j' → j = j') →
  let got := take (Z.to_nat n) q in
  ∃ pi' m', (while_wait (piperead_wait p) (sleep (ChPipeRead p) (Lpipe p)) ;;;
    let! pi := rd_pipe p in
    if pipe_empty pi && negb (pi_writeopen pi =? 0) then release (Lpipe p) ;;; ret (-1)
    else
      let! i := piperead_loop (Z.to_nat n) p addr 0 in
      wakeup (ChPipeWrite p) ;;; release (Lpipe p) ;;; ret i)%K o k =
      Ok (Z.of_nat (length got)) (wake_all (ChPipeWrite p)
        (set_k_mem m' (set_k_pipes (<[p := pi']> (k_pipes k)) (set_k_lk K k)))) o ∧
    queued (drop (Z.to_nat n) q) pi' ∧ stored phys 0 got (k_mem k) m' ∧
    pi_readopen pi' = pi_readopen pi ∧ pi_writeopen pi' = pi_writeopen pi.
Proof.
  intros Hwf Hc Hcn Hf Hfp Hk Hp Hq Hgo Hn Hmap Hinj got.
  assert (pipe_empty pi && negb (pi_writeopen pi =? 0) = false) as Hne.
  { rewrite (queued_empty _ _ Hq). destruct Hgo as [Hgo| ->]; [by rewrite bool_decide_false|by rewrite andb_false_r]. }
  rewrite (bind_ok _ _ o k tt o k).
  2:{ rewrite while_wait_unfold; [|unfold piperead_wait, rd_pipe, my_killed; shrink|intros; by eapply waits_sleep].
      unfold piperead_wait. rewrite bind_assoc, (bind_ok _ _ _ _ _ _ _ (rd_pipe_eq _ _ _ _ Hp)), Hne. done. }
  rewrite (bind_ok _ _ _ _ _ _ _ (rd_pipe_eq _ _ _ _ Hp)), Hne.
  destruct (piperead_loop_eq p (Z.to_nat n) addr 0 n phys (k_mem k) q pi o k)
    as (pi' & m' & H1 & H2 & H3 & H4 & H5); [done|done|lia|lia|done|done|done|].
  exists pi', m'. rewrite (bind_ok _ _ _ _ _ _ _ H1). split; [|done].
  set (k1 := set_k_mem m' _). rewrite (bind_ok _ _ _ _ _ _ _ (wakeup_eq _ o k1 (c + 1)
    ltac:(by apply (ptable_wf_ext k)) ltac:(unfold k1; kproj; rewrite Hk; by apply calm_acquire)
    ltac:(unfold k1; kproj; rewrite Hk; by apply lock_free_acquire_ne))).
  erewrite bind_ok; [|apply (release_k (Lpipe p) o (wake_all _ k1) K c Hc Hfp); by rewrite wake_all_lk].
  rewrite <- wake_all_set_lk. unfold k1. simpl. by destruct k.
Qed.

(** ** Main theorems *)

(** [C22] A pipe is a queue of bytes: pipewrite of [n] bytes that fit appends them
    in order behind those already there, whatever the position of the counters,
    wakes the waiting readers and returns [n] with nothing else changed. *)
Theorem pipewrite_enqueues p addr n q pi bs o k c :
  ptable_wf k → calm (k_lk k) c → c < 999999 → lock_free Lptable (k_lk k) → lock_free (Lpipe p) (k_lk k) →
  k_pipes k !! p = Some pi → queued q pi → 0 ≤ n → Z.of_nat (length q) + n ≤ 512 →
  mem_bytes k addr 0 (Z.to_nat n) bs →
  ∃ pi', pipewrite p addr n o k =
      Ok n (wake_all (ChPipeRead p) (set_k_pipes (<[p := pi']> (k_pipes k)) k)) o ∧
    queued (q ++ (u8 <$> bs)) pi' ∧
    pi_readopen pi' = pi_readopen pi ∧ pi_writeopen pi' = pi_writeopen pi.
Proof.
  intros Hwf Hc Hcn Hf Hfp Hp Hq Hn Hroom Hbs. unfold pipewrite. kacquire Hc Hfp.
  set (k1 := set_k_lk _ k).
  destruct (pipewrite_loop_eq p (Z.to_nat n) addr 0 q pi bs o k1) as (pi' & H1 & H2 & H3 & H4);
    [done|done|lia|done|].
  exists pi'. rewrite (bind_ok _ _ _ _ _ _ _ H1). cbn [negb]. split; [|done].
  set (k2 := set_k_pipes _ k1). rewrite (bind_ok _ _ _ _ _ _ _ (wakeup_eq _ o k2 (c + 1)
    ltac:(by apply (ptable_wf_ext k)) ltac:(by apply calm_acquire) ltac:(by apply lock_free_acquire_ne))).
  erewrite bind_ok; [|apply (release_k (Lpipe p) o (wake_all _ k2) (k_lk k) c Hc Hfp); by rewrite wake_all_lk].
  rewrite <- wake_all_set_lk. unfold k2, k1. by destruct k.
Qed.

(** [C23] piperead takes the oldest bytes out of the queue: when there are bytes,
    or no writer is left, it stores the first [n] (or all, if fewer) at the
    caller's address, removes exactly those, returns their number and wakes the
    waiting writers; no other byte of memory changes. *)
Theorem piperead_dequeues p addr n phys q pi o k c :
  ptable_wf k → calm (k_lk k) c → c < 999999 → lock_free Lptable (k_lk k) → lock_free (Lpipe p) (k_lk k) →
  k_pipes k !! p = Some pi → queued q pi → q ≠ [] ∨ pi_writeopen pi = 0 → 0 ≤ n →
  stays_mapped (k_cr3 k) (k_mem k) addr n phys →
  (∀ j j', 0 ≤ j < n → 0 ≤ j' < n → phys j = phys j' → j = j') →
  ∃ pi' m', piperead p addr n o k =
      Ok (Z.of_nat (length (take (Z.to_nat n) q))) (wake_all (ChPipeWrite p)
        (set_k_mem m' (set_k_pipes (<[p := pi']> (k_pipes k)) k))) o ∧
    queued (drop (Z.to_nat n) q) pi' ∧ stored phys 0 (take (Z.to_nat n) q) (k_mem k) m' ∧
    pi_readopen pi' = pi_readopen pi ∧ pi_writeopen pi' = pi_writeopen pi.
Proof.
  intros Hwf Hc Hcn Hf Hfp Hp Hq Hgo Hn Hmap Hinj. unfold piperead. kacquire Hc Hfp.
  destruct (piperead_ready p addr n phys q pi o (set_k_lk (lk_acquire (Lpipe p) (k_lk k)) k) (k_lk k) c)
    as (pi' & m' & H1 & H2); [by apply ptable_wf_set_lk|done..|].
  exists pi', m'. split; [|exact H2]. rewrite H1. by destruct k.
Qed.

(** What the others do when a writer fills the pipe while we sleep. *)
Definition others_put (p : Z) (pi' : pipe) (k : kernel) : kernel :=
  wake_all (ChPipeRead p) (set_k_pipes (<[p := pi']> (k_pipes k)) k).

Definition piperead_body (p addr n : Z) : KM Z :=
  while_wait (piperead_wait p) (sleep (ChPipeRead p) (Lpipe p)) ;;;
  let! pi := rd_pipe p in
  if pipe_empty pi && negb (pi_writeopen pi =? 0) then release (Lpipe p) ;;; ret (-1)
  else
    let! i := piperead_loop (Z.to_nat n) p addr 0 in
    wakeup (ChPipeWrite p) ;;; release (Lpipe p) ;;; ret i.

(** One round of the wait loop on an empty pipe that has a writer. *)
Lemma piperead_sleeps p addr n o o' k k' i pr c :
  (∃ pi, k_pipes k !! p = Some pi ∧ queued [] pi ∧ pi_writeopen pi ≠ 0) →
  calm (k_lk k) c → k_proc k = Some i → k_procs k !! i = Some pr → p_killed pr = 0 →
  sleep (ChPipeRead p) (Lpipe p) o k = Ok tt k' o' →
  piperead_body p addr n o k = piperead_body p addr n o' k'.
Proof.
  intros (pi & Hp & Hq & Hw) Hc Hpr Hi Hk Hs. unfold piperead_body. unfold bind at 1.
  rewrite while_wait_unfold; [|unfold piperead_wait, rd_pipe, my_killed; shrink|intros; by eapply waits_sleep].
  assert (piperead_wait p o k = Ok true k o) as Hwait.
  { unfold piperead_wait. rewrite (bind_ok _ _ _ _ _ _ _ (rd_pipe_eq _ _ _ _ Hp)), (queued_empty _ _ Hq).
    rewrite bool_decide_true, (proj2 (Z.eqb_neq _ _) Hw) by done. cbn [andb negb]. unfold my_killed.
    rewrite bind_assoc, (bind_ok _ _ _ _ _ _ _ (myproc_calm _ _ _ Hc)), Hpr. unfold deref. mrun.
    rewrite (bind_ok _ _ _ _ _ _ _ (rd_proc_eq _ _ _ _ Hi)). mrun. by rewrite Hk. }
  rewrite (bind_ok _ _ _ _ _ _ _ Hwait). by rewrite (bind_ok _ _ _ _ _ _ _ Hs).
Qed.

(** A reader of an empty pipe waits for a writer: piperead sleeps, and when
    a writer has put bytes into the pipe and called wakeup it returns them, up
    to [n] of them, with the pipe's lock given back. *)
Theorem piperead_waits p addr n phys q pi pi' t th pr o k :
  ptable_wf k → calm (k_lk k) 0 → lock_free Lptable (k_lk k) → lock_free (Lpipe p) (k_lk k) →
  k_pipes k !! p = Some pi → queued [] pi → pi_writeopen pi ≠ 0 → queued q pi' → q ≠ [] → 0 ≤ n →
  k_thread k = Some t → thread_at t k = Some th → t_kstack th ≠ 0 → k_proc k = Some (fst t) →
  k_procs k !! fst t = Some pr → p_state pr = USED → p_pgdir pr ≠ 0 → p_killed pr = 0 →
  stays_mapped (V2P (p_pgdir pr)) (k_mem k) addr n phys →
  (∀ j j', 0 ≤ j < n → 0 ≤ j' < n → phys j = phys j' → j = j') →
  ∃ k' pi2, piperead p addr n (others_put p pi' :: o) k =
      Ok (Z.of_nat (length (take (Z.to_nat n) q))) k' o ∧
    k_pipes k' !! p = Some pi2 ∧ queued (drop (Z.to_nat n) q) pi2 ∧
    stored phys 0 (take (Z.to_nat n) q) (k_mem k) (k_mem k') ∧ k_lk k' = k_lk k ∧ k_thread k' = Some t.
Proof.
  intros Hwf Hc Hf Hfp Hp Hq0 Hw Hq Hne Hn Ht Hth Hks Hpr Hi Hps Hpg Hkl Hmap Hinj.
  unfold piperead. kacquire Hc Hfp. set (K := k_lk k) in *. set (k1 := set_k_lk _ k).
  set (ch := ChPipeRead p). set (k2 := asleep ch t K k1).
  assert (thread_at t k2 = Some (set_t_state SLEEPING (set_t_chan (Some ch) th))) as Hth2.
  { unfold k2. rewrite thread_at_asleep, decide_True by done. unfold k1. by rewrite thread_at_set_k_lk, Hth. }
  assert (ptable_wf k2) as Hwf2 by (apply ptable_wf_asleep; by apply (ptable_wf_ext k)).
  set (th3 := set_t_state RUNNABLE (set_t_chan (Some ch) th)).
  assert (thread_at t (others_put p pi' k2) = Some th3) as Hth3.
  { unfold others_put. rewrite wake_all_at by (by apply (ptable_wf_ext k2)).
    change (k_procs (set_k_pipes _ k2)) with (k_procs k). rewrite Hi, decide_False by (by rewrite Hps).
    rewrite thread_at_set_pipes, Hth2. simpl. unfold wake_thread, sleeping_on. simpl.
    by rewrite !bool_decide_true. }
  set (k3 := resumed t (Lpipe p) K th3 pr (others_put p pi' k2)).
  assert (piperead_body p addr n (others_put p pi' :: o) k1 = piperead_body p addr n o k3) as E.
  { apply (piperead_sleeps p addr n _ _ _ _ (fst t) pr 1); try done.
    - by exists pi.
    - by apply (calm_acquire _ _ 0).
    - apply (sleep_resumes _ _ _ _ k1 K t th); try done.
      + unfold others_put. by rewrite wake_all_lk.
      + unfold others_put. by rewrite wake_all_procs. }
  assert (k_mem k3 = k_mem k ∧ k_pipes k3 = <[p := pi']> (k_pipes k)) as [Em Ep].
  { unfold k3, others_put. rewrite (wake_all_frame _ (set_k_pipes _ k2)). done. }
  assert (ptable_wf k3) as Hwf3.
  { unfold k3, resumed, dispatched. apply ptable_wf_set_lk, ptable_wf_alter_thread, ptable_wf_alter_thread.
    apply (ptable_wf_ext (others_put p pi' k2)); [done..|]. apply wake_all_wf. by apply (ptable_wf_ext k2). }
  destruct (piperead_ready p addr n phys q pi' o k3 K 0) as (pi2 & m' & H1 & H2 & H3 & _); try done.
  { by rewrite Ep, lookup_insert_eq. } { by left. } { by rewrite Em. }
  eexists _, pi2. split_and!; [etransitivity; [exact E|exact H1]| |done| | |].
  - rewrite wake_all_frame. kproj. apply lookup_insert_eq.
  - rewrite wake_all_frame. kproj. by rewrite <- Em.
  - by rewrite wake_all_lk.
  - by rewrite wake_all_frame.
Qed.

(** ** Concrete states: a pipe whose counters are about to wrap around *)

Definition demo_pipe : pipe := Pipe (replicate 512 0) 4294967294 4294967294 1 1.
Definition demo_pipes : kernel :=
  set_k_mem (λ a, if a =? 0x80200001 then 42 else 7)
    (set_k_pipes {[0x80300000 := demo_pipe]}
    (set_k_lk (setlock (Lpipe 0x80300000) (Spinlock 0 None "pipe") boot_lks) demo_kernel)).

Lemma demo_pipe_queued : queued [] demo_pipe.
Proof. split; simpl; [done|lia|done|lia|done]. Qed.

(** Kernel addresses map to themselves. *)
Lemma kernel_mapped cr3 m addr n :
  KERNBASE ≤ addr → addr + n ≤ 4294967296 → stays_mapped cr3 m addr n (λ i, addr + i).
Proof.
  unfold KERNBASE. intros H1 H2 m' _ i Hi. unfold addr_of. rewrite u32_small by lia.
  by rewrite (proj2 (Z.leb_le _ _)) by (unfold KERNBASE; lia).
Qed.

Lemma demo_pipes_calm : calm (k_lk demo_pipes) 0.
Proof.
  exists 0%nat, (Cpu 0 0 FL_IF), true. split_and!; try done. split_and!; try done. intros j c' _ Hj. lia.
Qed.
Lemma demo_pipes_free : lock_free Lptable (k_lk demo_pipes) ∧ lock_free (Lpipe 0x80300000) (k_lk demo_pipes).
Proof. split; vm_compute; reflexivity. Qed.
Lemma demo_pipes_wf : ptable_wf demo_pipes.
Proof. apply (ptable_wf_ext demo_kernel); [done..|exact demo_kernel_wf]. Qed.

Lemma pipewrite_enqueues_witness :
  ∃ k' pi', pipewrite 0x80300000 0x80200000 3 [] demo_pipes = Ok 3 k' [] ∧ queued [7; 42; 7] pi'.
Proof.
  destruct (pipewrite_enqueues 0x80300000 0x80200000 3 [] demo_pipe [7; 42; 7] [] demo_pipes 0
              demo_pipes_wf demo_pipes_calm ltac:(lia) (proj1 demo_pipes_free) (proj2 demo_pipes_free)
              (lookup_singleton_eq _ _) demo_pipe_queued ltac:(lia) ltac:(simpl; lia))
    as (pi' & H1 & H2 & _).
  - split; [reflexivity|]. intros [|[|[|j]]] b Hb; simplify_eq/=; eexists; (split; [reflexivity|reflexivity]).
  - eexists _, pi'. split; [exact H1|exact H2].
Defined.

(** The same pipe with three bytes in it. *)
Definition demo_filled : pipe := pipe_put 9 (pipe_put 8 (pipe_put 7 demo_pipe)).
Lemma demo_filled_queued : queued [7; 8; 9] demo_filled.
Proof.
  apply (queued_put [7; 8] _ 9); [|simpl; lia]. apply (queued_put [7] _ 8); [|simpl; lia].
  apply (queued_put [] _ 7); [apply demo_pipe_queued|simpl; lia].
Qed.

Definition demo_filled_pipes : kernel := set_k_pipes {[0x80300000 := demo_filled]} demo_pipes.
Lemma demo_filled_wf : ptable_wf demo_filled_pipes.
Proof. apply (ptable_wf_ext demo_pipes); [done..|exact demo_pipes_wf]. Qed.
Lemma demo_filled_at : k_pipes demo_filled_pipes !! 0x80300000 = Some demo_filled.
Proof. apply lookup_singleton_eq. Qed.

Lemma piperead_dequeues_witness :
  ∃ k', piperead 0x80300000 0x80200000 2 [] demo_filled_pipes = Ok 2 k' [].
Proof.
  destruct (piperead_dequeues 0x80300000 0x80200000 2 (λ i, 0x80200000 + i) [7; 8; 9] demo_filled []
              demo_filled_pipes 0 demo_filled_wf demo_pipes_calm ltac:(lia)
              (proj1 demo_pipes_free) (proj2 demo_pipes_free) demo_filled_at demo_filled_queued
              ltac:(by left) ltac:(lia) ltac:(apply kernel_mapped; unfold KERNBASE; lia) ltac:(cbv beta; intros; lia))
    as (pi' & m' & H1 & _).
  eexists. exact H1.
Defined.

Lemma piperead_waits_witness :
  ∃ k', piperead 0x80300000 0x80200000 2 [others_put 0x80300000 demo_filled] demo_pipes = Ok 2 k' [] ∧
        k_mem k' (0x80200000 + 1) = 8.
Proof.
  destruct (piperead_waits 0x80300000 0x80200000 2 (λ i, 0x80200000 + i) [7; 8; 9] demo_pipe demo_filled
              (0, 0)%nat (demo_thread 1 0 RUNNING None) (demo_proc 1 0) [] demo_pipes
              demo_pipes_wf demo_pipes_calm (proj1 demo_pipes_free) (proj2 demo_pipes_free)
              (lookup_singleton_eq _ _) demo_pipe_queued ltac:(done) demo_filled_queued ltac:(done) ltac:(lia)
              eq_refl eq_refl ltac:(done) eq_refl eq_refl eq_refl ltac:(done) eq_refl
              ltac:(apply kernel_mapped; unfold KERNBASE; lia) ltac:(cbv beta; intros; lia))
    as (k' & pi2 & H1 & _ & _ & [H4 _] & _).
  exists k'. split; [exact H1|]. exact (H4 1%nat 8 eq_refl).
Defined.
