(* ===== verification/File.v ===== *)
(** * The file table

    [file.c], and [pipealloc] of [pipe.c].  An open file is a position in
    [ftable.file]. *)

From S2P Require Import Prelude Defs Spinlock CString Kernel Sched Kalloc Vm Sleeplock Bytes Bio Log Fs Pipe.
Local Open Scope kernel_scope.

Definition rd_file (f : nat) : KM file :=
  let! k := get in
  match k_ftable k !! f with Some x => ret x | None => undef "file pointer" end.
Definition upd_file (f : nat) (g : file → file) : KM unit :=
  modify (λ k, set_k_ftable (alter g f (k_ftable k)) k).

Definition fileinit : KM unit := initlock Lftable "ftable".

(** The first file with no reference. *)
Fixpoint file_scan (l : list file) (i : nat) : option nat :=
  match l with
  | [] => None
  | x :: l' => if f_ref x =? 0 then Some i else file_scan l' (S i)
  end.

Definition filealloc : KM (option nat) :=
  acquire Lftable ;;;
  let! l := gets k_ftable in
  match file_scan l 0 with
  | Some f =>
      upd_file f (set_f_ref 1) ;;;
      release Lftable ;;;
      ret (Some f)
  | None =>
      release Lftable ;;;
      ret None
  end.

Definition filedup (f : nat) : KM nat :=
  acquire Lftable ;;;
  let! x := rd_file f in
  if f_ref x <? 1 then panic "filedup"
  else
    upd_file f (λ x, set_f_ref (f_ref x + 1) x) ;;;
    release Lftable ;;;
    ret f.

Definition fileclose (f : nat) : KM unit :=
  acquire Lftable ;;;
  let! x := rd_file f in
  if f_ref x <? 1 then panic "fileclose"
  else
    upd_file f (λ x, set_f_ref (f_ref x - 1) x) ;;;
    let! x := rd_file f in
    if 0 <? f_ref x then release Lftable
    else
      let! ff := rd_file f in
      upd_file f (set_f_ref 0) ;;;
      upd_file f (set_f_type FD_NONE) ;;;
      release Lftable ;;;
      match f_type ff with
      | FD_PIPE => pipeclose (f_pipe ff) (f_writable ff)
      | FD_INODE =>
          begin_op ;;;
          let! ip := deref (f_ip ff) in
          iput ip ;;;
          end_op
      | FD_NONE => ret tt
      end.

(** The fields of struct stat at their offsets. *)
Definition put_stat (st : Z) (s : stat_t) : KM unit :=
  vwrite (u32 (st + 4)) (bytes32 (st_dev s)) ;;;
  vwrite (u32 (st + 8)) (bytes32 (st_ino s)) ;;;
  vwrite st (bytes16 (st_type s)) ;;;
  vwrite (u32 (st + 12)) (bytes16 (st_nlink s)) ;;;
  vwrite (u32 (st + 16)) (bytes32 (st_size s)).

Definition filestat (f : nat) (st : Z) : KM Z :=
  let! x := rd_file f in
  if decide (f_type x = FD_INODE) then
    ilock (f_ip x) ;;;
    let! i := deref (f_ip x) in
    let! ip := rd_inode i in
    put_stat st (stati ip) ;;;
    iunlock (f_ip x) ;;;
    ret 0
  else ret (-1).

Section Files.
Context {devsw : DevSw}.

Definition fileread (f : nat) (addr n : Z) : KM Z :=
  let! x := rd_file f in
  if f_readable x =? 0 then ret (-1)
  else
    match f_type x with
    | FD_PIPE => piperead (f_pipe x) addr n
    | FD_INODE =>
        ilock (f_ip x) ;;;
        let! i := deref (f_ip x) in
        let! x' := rd_file f in
        let! r := readi (to_mem addr) i (f_off x') (u32 n) in
        when (0 <? fst r) (upd_file f (λ y, set_f_off (u32 (f_off y + fst r)) y)) ;;;
        iunlock (f_ip x) ;;;
        ret (fst r)
    | FD_NONE => panic "fileread"
    end.

(** The most a transaction writes. *)
Definition WRITE_MAX : Z := ((MAXOPBLOCKS - 1 - 1 - 2) / 2) * 512.

(** The loop of filewrite from byte [i] on; each round writes at least one. *)
Fixpoint filewrite_loop (fuel : nat) (f : nat) (addr i n : Z) : KM Z :=
  match fuel with
  | O => undef "loop bound"
  | S fl =>
      if i <? n then
        let n1 := if WRITE_MAX <? n - i then WRITE_MAX else n - i in
        begin_op ;;;
        let! x := rd_file f in
        ilock (f_ip x) ;;;
        let! ip := deref (f_ip x) in
        let! x := rd_file f in
        let! r := writei (from_mem (u32 (addr + i))) ip (f_off x) n1 in
        when (0 <? r) (upd_file f (λ y, set_f_off (u32 (f_off y + r)) y)) ;;;
        iunlock (f_ip x) ;;;
        end_op ;;;
        if r <? 0 then ret i
        else if negb (r =? n1) then panic "short filewrite"
        else filewrite_loop fl f addr (i + r) n
      else ret i
  end.

Definition filewrite (f : nat) (addr n : Z) : KM Z :=
  let! x := rd_file f in
  if f_writable x =? 0 then ret (-1)
  else
    match f_type x with
    | FD_PIPE => pipewrite (f_pipe x) addr n
    | FD_INODE =>
        let! i := filewrite_loop (S (Z.to_nat n)) f addr 0 n in
        ret (if i =? n then n else -1)
    | FD_NONE => panic "filewrite"
    end.
End Files.

(** ** pipealloc *)

(** The structure at page [p], before its fields are set: what the page holds
    after the spinlock. *)
Definition new_pipe (m : memory) (p : Z) : pipe :=
  Pipe ((λ i, m (p + 52 + Z.of_nat i)) <$> seq 0 512) 0 0 1 1.

Definition close_opt (f : option nat) : KM unit :=
  match f with Some f => fileclose f | None => ret tt end.

(** The two ends, the read end first; None when a file or the page is missing. *)
Definition pipealloc : KM (option (nat * nat)) :=
  let! f0 := filealloc in
  let! f1 := (match f0 with None => ret None | Some _ => filealloc end) in
  let! p := (match f1 with None => ret 0 | Some _ => kalloc end) in
  match f0, f1 with
  | Some a, Some b =>
      if p =? 0 then fileclose a ;;; fileclose b ;;; ret None
      else
        modify (λ k, set_k_pipes (<[p := new_pipe (k_mem k) p]> (k_pipes k)) k) ;;;
        initlock (Lpipe p) "pipe" ;;;
        upd_file a (λ x, set_f_pipe p (set_f_writable 0 (set_f_readable 1 (set_f_type FD_PIPE x)))) ;;;
        upd_file b (λ x, set_f_pipe p (set_f_writable 1 (set_f_readable 0 (set_f_type FD_PIPE x)))) ;;;
        ret (Some (a, b))
  | _, _ =>
      close_opt f0 ;;;
      close_opt f1 ;;;
      ret None
  end.
