(* ===== verification/Fileio.v ===== *)
(** * Writing and reading open files

    [fileread] and [filewrite] of [file.c] for files on the disk, down to the blocks:
    the system call's transaction ([begin_op], [end_op]), the inode lock, [readi] and
    [writei], and the commit that ends the transaction.  The states are those in which
    no other operation of the file system is running. *)

From S2P Require Import Prelude Defs Spinlock Kernel Sched Kalloc Vm Sleeplock Bytes Bio Log Crash Cprintf Fs Blocks Contents Pipe File.
Local Open Scope kernel_scope.

(** ** Frames of the cache state *)

Lemma cst_wake_all pid c k0 k ch : cst pid c k0 k → cst pid c k0 (wake_all ch k).
Proof.
  intros [Q I E (B & L & D & T & W & F)]. split.
  - by apply quiet_wake_all.
  - rewrite (wake_all_frame ch k). done.
  - rewrite (wake_all_frame ch k). done.
  - rewrite (wake_all_frame ch k). set (T' := k_ttable (wake_all ch k)). exists B, L, D, T', W. rewrite F. by destruct k0.
Qed.

Lemma cst_set_ftable pid c k0 k t : cst pid c k0 k → cst pid c (set_k_ftable t k0) (set_k_ftable t k).
Proof.
  intros [Q I E (B & L & D & T & W & F)]. split; [by apply (quiet_ext pid k)|done|done|].
  exists B, L, D, T, W. rewrite F. by destruct k0.
Qed.
Lemma cst_ftable pid c k0 k : cst pid c k0 k → k_ftable k = k_ftable k0.
Proof. intros [_ _ _ (B & L & D & T & W & ->)]. done. Qed.

(** ** Transactions *)

Lemma set_k_log_twice g g' k : set_k_log g' (set_k_log g k) = set_k_log g' k.
Proof. by destruct k. Qed.

Lemma cruns_eq' {A} (m m' : KM A) o k k' Q C :
  m o k = m' o k' → k_power k' = k_power k → cruns m' o k' Q C → cruns m o k Q C.
Proof. unfold cruns. by intros -> ->. Qed.

Section Ops.
Context (pid : Z) (st sz : nat).

(** No transaction is running and the log is empty. *)
Record rest (D : list (list Z)) (k0 k : kernel) : Prop := {
  re_cst : cst pid (idle D ∅) k0 k;
  re_log : log_at st sz (k_log k0);
  re_n : lg_n (k_log k0) = 0;
  re_out : lg_outstanding (k_log k0) = 0;
  re_com : lg_committing (k_log k0) = 0;
  re_disk : disk_ok st sz D;
  re_hdr : hdr_n st D = 0%nat
}.

Lemma begin_op_eq c k0 k o :
  cst pid c k0 k → log_busy (k_log k0) = false →
  begin_op o k = Ok tt (set_k_log (set_lg_outstanding (lg_outstanding (k_log k0) + 1) (k_log k0)) k) o.
Proof.
  intros S Hb. pose proof (cs_quiet _ _ _ _ S) as Q. pose proof (q_calm _ _ Q) as Hc. pose proof (q_free _ _ Q _ fl_log) as Hf.
  unfold begin_op. kacquire Hc Hf.
  rewrite (bind_ok _ _ o _ tt o (set_k_lk (lk_acquire Llog (k_lk k)) k)).
  2:{ rewrite while_wait_unfold; [|shrink|intros; by eapply waits_sleep]. mrun. kproj. by rewrite (cst_log _ _ _ _ S), Hb. }
  unfold upd_log. mrun. kproj. krelease Hc Hf. rewrite (cst_log _ _ _ _ S). by destruct k.
Qed.

Lemma begin_op_rest D k0 k o :
  rest D k0 k → let g := set_lg_outstanding 1 (k_log k0) in
  begin_op o k = Ok tt (set_k_log g k) o ∧ in_txn pid st sz ∅ (Z.of_nat sz - 1) D ∅ (set_k_log g k0) (set_k_log g k).
Proof.
  intros [S L N O Co K H] g. split.
  - rewrite (begin_op_eq _ _ _ _ S); [by rewrite O|]. unfold log_busy. by rewrite Co, N, O.
  - pose proof (dk_n _ _ _ K). split; [by apply cst_upd_log| |done|kproj; unfold g; simpl; lia|lia]. kproj.
    split; [by destruct (k_log k0)|done|done|unfold g; simpl; lia|unfold g; simpl; rewrite N; lia|unfold g; simpl; rewrite N; lia|].
    intros b. unfold g. simpl. rewrite N, lookup_empty. split; [by intros []|]. simpl. intros (j & Hj & _). lia.
Qed.

Lemma end_op_spec room D P k0 k o :
  in_txn pid st sz ∅ room D P k0 k → lg_outstanding (k_log k0) = 1 → lg_committing (k_log k0) = 0 →
  cruns end_op o k (λ _ k', ∃ D' g', rest D' (set_k_log g' k0) k' ∧ means st sz D' (overlay P D)) (commit_crash st sz D P).
Proof.
  intros [S Tx _ _ _] Ho Hco. pose proof (cs_quiet _ _ _ _ S) as Q. pose proof (q_calm _ _ Q) as Hc. pose proof (q_free _ _ Q _ fl_log) as Hf.
  pose proof (cst_log _ _ _ _ S) as Eg.
  set (g1 := set_lg_committing 1 (set_lg_outstanding 0 (k_log k0))).
  assert (end_op o k = (commit ;;; acquire Llog ;;; upd_log (set_lg_committing 0) ;;; wakeup ChLog ;;; release Llog)%K o (set_k_log g1 k)) as E.
  { unfold end_op. kacquire Hc Hf. unfold upd_log. mrun. kproj. rewrite Eg, Hco, Ho. cbn [negb]. change (0 =? 0) with true. change (1 - 1) with 0. cbn [negb].
    change (0 =? 0) with true. cbn iota. mrun. kproj. krelease Hc Hf. unfold when. f_equal. }
  apply (cruns_eq' _ _ _ _ _ _ _ E); [done|]. apply cruns_bind.
  assert (txn st sz g1 D P) as Tx1.
  { destruct Tx as [X1 X2 X3 X4 X5 X6 X7]. by split. }
  eapply cruns_mono; [apply (commit_spec pid st sz g1 D P Tx1 (set_k_log g1 k0)); [by apply cst_upd_log|done]| |done].
  intros [] k1 (D' & g' & S1 & Eg1 & La & N1 & Hok & Hh & Hm). rewrite set_k_log_twice in S1.
  pose proof (cs_quiet _ _ _ _ S1) as Q1. pose proof (q_calm _ _ Q1) as Hc1. pose proof (q_free _ _ Q1 _ fl_log) as Hf1.
  pose proof (cst_log _ _ _ _ S1) as Eg2.
  set (g2 := set_lg_committing 0 g').
  eapply (cruns_ok _ _ _ tt (wake_all ChLog (set_k_log g2 k1))).
  { kacquire Hc1 Hf1. unfold upd_log. mrun. kproj. rewrite Eg2. kproj. fold g2.
    assert (ptable_wf (set_k_log g2 k1)) as Hwf by (apply (ptable_wf_ext k1); [done..|apply Q1]).
    set (K1 := lk_acquire Llog (k_lk k1)). change (set_k_log g2 (set_k_lk K1 k1)) with (set_k_lk K1 (set_k_log g2 k1)).
    rewrite (bind_ok _ _ _ _ _ _ _ (wakeup_eq ChLog o (set_k_lk K1 (set_k_log g2 k1)) 1
             (ptable_wf_set_lk _ _ Hwf) ltac:(by apply (calm_acquire _ _ 0))
             ltac:(by apply lock_free_acquire_ne, (q_free _ _ Q1); auto with xv6))).
    rewrite (release_k Llog o _ (k_lk k1) 0 Hc1 Hf1) by (by rewrite wake_all_lk).
    rewrite wake_all_set_lk. rewrite (wake_all_frame _ (set_k_log g2 k1)). by destruct k1. }
  { by rewrite (wake_all_frame ChLog). }
  exists D', g2. split; [|exact Hm]. split.
  - apply cst_wake_all. pose proof (cst_upd_log _ _ _ _ g2 S1) as S2. by rewrite set_k_log_twice in S2.
  - unfold g2. kproj. by destruct g'.
  - done.
  - kproj. unfold g2. rewrite Eg1. done.
  - done.
  - done.
  - done.
Qed.
End Ops.

(** ** The inode lock *)

Section Locks.
Context (pid : Z) (c : cache) (k0 k : kernel) (i : nat) (ip : inode).
Context (S : cst pid c k0 k) (Hip : k_icache k0 !! i = Some ip) (Href : 1 ≤ i_ref ip) (Hi : (i < NINODE)%nat).

Lemma ilock_valid o :
  i_lock ip = sleeplock0 → i_valid ip ≠ 0 →
  ilock (Some i) o k = Ok tt (set_k_icache (<[i := set_i_lock (Sleeplock 1 pid) ip]> (k_icache k0)) k) o.
Proof.
  intros Hl Hv. pose proof (cst_icache _ _ _ _ S) as Ei. pose proof (lookup_lt_Some _ _ _ Hip).
  unfold ilock. rewrite (bind_ok _ _ _ _ _ _ _ (rd_inode_eq i o k ip ltac:(by rewrite Ei))).
  rewrite (proj2 (Z.ltb_ge _ _)) by lia.
  assert (acquiresleep (Linodesleep i) o k =
    Ok tt (set_k_icache (<[i := set_i_lock (Sleeplock 1 pid) ip]> (k_icache k0)) k) o) as Ea.
  { rewrite (acquiresleep_quiet _ _ _ pid sleeplock0); [|apply S|by constructor|simpl; by rewrite Ei, Hip; simpl; rewrite Hl|done].
    simpl. by rewrite Ei, (list_alter_at _ _ _ _ Hip). }
  rewrite (bind_ok _ _ _ _ _ _ _ Ea).
  erewrite bind_ok; [|apply rd_inode_eq; kproj; by apply list_lookup_insert_eq].
  change (i_valid (set_i_lock _ ip)) with (i_valid ip). by rewrite (proj2 (Z.eqb_neq _ _) Hv).
Qed.

Lemma iunlock_eq o :
  i_lock ip = Sleeplock 1 pid →
  iunlock (Some i) o k = Ok tt (wake_all (ChSleeplock (Linodesleep i))
    (set_k_icache (<[i := set_i_lock sleeplock0 ip]> (k_icache k0)) k)) o.
Proof.
  intros Hl. pose proof (cst_icache _ _ _ _ S) as Ei. unfold iunlock.
  assert (holdingsleep (Linodesleep i) o k = Ok true k o) as Eh.
  { rewrite (holdingsleep_quiet _ _ _ pid (Sleeplock 1 pid)); [|apply S|by constructor|simpl; by rewrite Ei, Hip; simpl; rewrite Hl].
    simpl. by rewrite Z.eqb_refl. }
  rewrite (bind_ok _ _ _ _ _ _ _ Eh). cbn [negb].
  rewrite (bind_ok _ _ _ _ _ _ _ (rd_inode_eq i o k ip ltac:(by rewrite Ei))), (proj2 (Z.ltb_ge _ _)) by lia.
  rewrite (releasesleep_quiet _ _ _ pid); [|apply S|by constructor|done]. simpl. by rewrite Ei, (list_alter_at _ _ _ _ Hip).
Qed.
End Locks.

(** ** Another disk with the same blocks

    What counts of a disk is the blocks outside the log. *)

Section Views.
Context (st sz : nat) (D D' : list (list Z)) (P P' : gmap nat (list Z)) (k0 : kernel).
Context (Hlen : length D' = length D) (Hv : ∀ n, fs_block st sz D n → lview D' P' n = lview D P n).
Local Notation sb := (k_sb k0).

Lemma view_used : fs_ok st sz D sb P → ∀ b, 0 ≤ b < sb_size sb → used D' P' sb b = used D P sb b.
Proof.
  intros F b Hb. unfold used. rewrite Hv; [done|]. by apply (bm_block _ _ _ _ _ (fk_bitmap _ _ _ _ _ F)).
Qed.
Lemma view_block n : fs_block st sz D' n ↔ fs_block st sz D n.
Proof. unfold fs_block. by rewrite Hlen. Qed.
Lemma view_fs : fs_ok st sz D sb P → fs_ok st sz D' sb P'.
Proof.
  intros F. pose proof (view_used F) as Hu. destruct F as [[B1 B2 B3 B4 B5] Hb Hs Hn].
  split; [|by rewrite Hu by lia|done|by rewrite Hlen]. split; [by rewrite Hlen|done|..].
  - intros b Hb'. destruct (B3 b Hb') as [X Y]. rewrite view_block, Hv by done. done.
  - intros b Hb'. destruct (B4 b Hb') as [X Y]. split; [done|]. by rewrite Hu by lia.
  - intros b Hb'. rewrite Hu, view_block by done. by apply B5.
Qed.
Lemma view_kept b : fs_ok st sz D sb P → kept st sz D sb P b → kept st sz D' sb P' b.
Proof.
  intros F [K1 K2 K3 K4 K5]. split; [done|by rewrite view_used by (done || lia)|by rewrite view_block|by rewrite Hv|done].
Qed.
Lemma view_slot ip s : file_ok st sz D sb P ip → slot D' P' ip s = slot D P ip s.
Proof.
  intros K. unfold slot. repeat case_match; try done. rewrite Hv; [done|].
  assert (slot D P ip 12 ≠ 0) as H12 by (rewrite slot_low by lia; lia).
  pose proof (kp_block _ _ _ _ _ _ (fo_kept _ _ _ _ _ _ K 12 ltac:(lia) H12)) as Kb. by rewrite slot_low in Kb by lia.
Qed.

Lemma file_inv_view ip :
  file_inv st sz D k0 P ip → file_inv st sz D' k0 P' ip ∧ ∀ x, 0 ≤ x < 71680 → fbyte D' P' ip x = fbyte D P ip x.
Proof.
  intros [F K Hs Hf Hfit Hd]. pose proof (λ s, view_slot ip s K) as Es. split; [split|].
  - by apply view_fs.
  - destruct K as [K1 K2 K3 K4 K5]. split; [done| | | |].
    + intros s Hs'. rewrite Es. intros H0. apply view_kept; [done|by apply K2].
    + intros s s' H1 H2. rewrite !Es. by apply K3.
    + by apply view_kept.
    + intros s Hs'. rewrite Es. by apply K5.
  - done.
  - intros bn H0 H1. rewrite Es. by apply Hf.
  - done.
  - intros jp. specialize (Hd jp). rewrite Hv; [done|]. pose proof (kp_block _ _ _ _ _ _ (fo_inode _ _ _ _ _ _ K)) as Kb.
    by rewrite Nat2Z.id in Kb.
  - intros x Hx. unfold fbyte, fblock. rewrite Es. case_match; [done|].
    destruct (slot_of_lt (x / 512) ltac:(dlia)) as [Hlt _]. rewrite Hv; [done|]. apply (fo_kept _ _ _ _ _ _ K); [done|lia].
Qed.
End Views.

(** The disk after a commit, or after recovery. *)
Lemma disk_view st sz D P D' :
  disk_ok st sz D → disk_ok st sz D' → (∀ b, is_Some (P !! b) → (b < length D)%nat) →
  (∀ b, ¬ (st ≤ b < st + sz)%nat → D' !! b = overlay P D b) →
  length D' = length D ∧ ∀ n, fs_block st sz D n → lview D' ∅ n = lview D P n.
Proof.
  intros K K' HP Hm. pose proof (dk_area _ _ _ K). pose proof (dk_area _ _ _ K').
  assert (∀ b, is_Some (overlay P D b) → (b < length D)%nat) as Ho.
  { intros b. unfold overlay. destruct (P !! b) eqn:E; [intros _; by apply HP|apply lookup_lt_is_Some]. }
  split.
  - destruct (lt_eq_lt_dec (length D') (length D)) as [[Hlt|]|Hlt]; [exfalso|done|exfalso].
    + pose proof (Hm (length D') ltac:(lia)) as E. rewrite (lookup_ge_None_2 D') in E by lia.
      destruct (lookup_lt_is_Some_2 D (length D') Hlt) as [x Hx]. unfold overlay in E. rewrite Hx in E. by destruct (P !! length D').
    + pose proof (Hm (length D) ltac:(lia)) as E. destruct (lookup_lt_is_Some_2 D' (length D) Hlt) as [x Hx].
      rewrite Hx in E. specialize (Ho (length D) ltac:(by rewrite <- E)). lia.
  - intros n [Hn Hno]. unfold lview. rewrite lookup_empty. simpl. rewrite nth_lookup, Hm by done. unfold overlay.
    destruct (P !! n); [done|]. by rewrite nth_lookup.
Qed.

(** ** filewrite *)

Section Write.
Context {devsw : DevSw}.
Context (pid : Z) (st sz : nat) (kb : kernel) (f i : nat) (fx : file).
Context (Hsz : (10 ≤ sz)%nat) (Hfx : k_ftable kb !! f = Some fx) (Hty : f_type fx = FD_INODE) (Hfi : f_ip fx = Some i).
Context (Hi : (i < length (k_icache kb))%nat) (HiN : (i < NINODE)%nat) (Hbm : sb_size (k_sb kb) ≤ 4096).

(** The kernel [kb] with the inode [ip], the file at offset [off] and the log [g]. *)
Definition base (ip : inode) (off : Z) (g : log_t) : kernel :=
  set_k_log g (set_k_icache (<[i := ip]> (k_icache kb)) (set_k_ftable (<[f := set_f_off off fx]> (k_ftable kb)) kb)).

Record ready_ip (ip : inode) : Prop := {
  ri_lock : i_lock ip = sleeplock0;
  ri_valid : i_valid ip ≠ 0;
  ri_ref : 1 ≤ i_ref ip;
  ri_dev : i_dev ip = 1;
  ri_type : i_type ip ≠ T_DEV
}.

(** The file that was [ip0] on the disk [D0], with the bytes [l] written at [off0]. *)
Record filed (D0 : list (list Z)) (ip0 : inode) (off0 : Z) (l : list Z) (D : list (list Z)) (P : gmap nat (list Z)) (ip : inode) : Prop := {
  fd_inv : file_inv st sz D kb P ip;
  fd_ip : ip = set_i_size (Z.max (i_size ip0) (off0 + Z.of_nat (length l))) (set_i_addrs (i_addrs ip) ip0);
  fd_bytes x : 0 ≤ x < 71680 → fbyte D P ip x =
    if (off0 <=? x) && (x <? off0 + Z.of_nat (length l)) then byte_at l (x - off0) else fbyte D0 ∅ ip0 x
}.

(** The disk after a power failure: it means the file with the first [m] bytes
    written, for some number of whole transactions. *)
Definition torn (D0 : list (list Z)) (ip0 : inode) (off0 : Z) (bs : list Z) (Dc : list (list Z)) : Prop :=
  disk_ok st sz Dc ∧ ∃ m D1 P1 ip1, (m = length bs ∨ Z.of_nat m `mod` 1536 = 0) ∧ (m ≤ length bs)%nat ∧ disk_ok st sz D1 ∧
    (∀ b, is_Some (P1 !! b) → (b < length D1)%nat) ∧ means st sz Dc (overlay P1 D1) ∧ filed D0 ip0 off0 (take m bs) D1 P1 ip1.

Lemma meta_small ip : (size (meta (k_sb kb) ip) ≤ 2)%nat.
Proof.
  etrans; [apply (subseteq_size _ ({[inode_block (k_sb kb) (i_inum ip)]} ∪ {[bmap_block (k_sb kb) 0]}))|].
  - unfold meta. apply union_mono_l. intros n (b & -> & Hb%elem_of_seqZ)%elem_of_list_to_set%list_elem_of_fmap.
    apply elem_of_singleton. unfold bmap_block. rewrite !Z.div_small by lia. done.
  - rewrite size_union_alt, size_singleton.
    etrans; [apply Nat.add_le_mono_l, (subseteq_size _ {[bmap_block (k_sb kb) 0]}); set_solver|]. by rewrite size_singleton.
Qed.

Lemma budget_chunk ip off n : 0 ≤ off → 0 ≤ n ≤ 1536 → budget (k_sb kb) ∅ ip ((off + n + 511) / 512 - off / 512) 9.
Proof.
  intros Ho Hn. unfold budget, log_left. pose proof (ind_fresh_range ∅ ip). pose proof (meta_small ip).
  rewrite dom_empty_L, difference_empty_L. assert ((off + n + 511) / 512 - off / 512 ≤ 4) by dlia. lia.
Qed.

(** Of the kernel only the super block matters, and the lock does not. *)
Lemma file_inv_sb D P ip k0 k1 : k_sb k0 = k_sb k1 → file_inv st sz D k0 P ip → file_inv st sz D k1 P ip.
Proof. intros E [F K Hs Hf Hfit Hd]. unfold on_disk in Hd. rewrite E in *. by split. Qed.

Lemma file_inv_lock D P ip x : file_inv st sz D kb P ip → file_inv st sz D kb P (set_i_lock x ip).
Proof.
  intros [F [K1 K2 K3 K4 K5] Hs Hf [F1 F2 F3 F4 F5 F6] Hd]. split; [exact F|by split|exact Hs|exact Hf|by split|exact Hd].
Qed.
Lemma space_lock D P ip x b0 b1 : space D (k_sb kb) P ip b0 b1 → space D (k_sb kb) P (set_i_lock x ip) b0 b1.
Proof. done. Qed.

(** What writei wrote, the lock given back. *)
Lemma wrote_filed D ip off l P' ip' k0 x :
  k_sb k0 = k_sb kb → i_lock ip = sleeplock0 → wrote st sz D k0 ∅ (set_i_lock x ip) off l P' ip' →
  filed D ip off l D P' (set_i_lock sleeplock0 ip').
Proof.
  intros Hsb Hl [W1 W2 W3 _]. split.
  - by apply file_inv_lock, (file_inv_sb D P' ip' k0).
  - rewrite W2. destruct ip. simpl in *. by rewrite Hl.
  - exact W3.
Qed.

(** The commit makes the disk what the transaction saw. *)
Lemma filed_commit D0 ip0 off0 l D P ip D' :
  disk_ok st sz D → disk_ok st sz D' → (∀ b, is_Some (P !! b) → (b < length D)%nat) →
  (∀ b, ¬ (st ≤ b < st + sz)%nat → D' !! b = overlay P D b) →
  filed D0 ip0 off0 l D P ip → filed D0 ip0 off0 l D' ∅ ip ∧ ∀ b0 b1, space D (k_sb kb) P ip b0 b1 → space D' (k_sb kb) ∅ ip b0 b1.
Proof.
  intros K K' HP Hm [F1 F2 F3]. destruct (disk_view st sz D P D' K K' HP Hm) as [Hlen Hv].
  destruct (file_inv_view st sz D D' P ∅ kb Hlen Hv ip F1) as [F1' Hb]. split.
  - split; [done|done|]. intros x Hx. by rewrite Hb, F3.
  - intros b0 b1. unfold space. pose proof (fi_fs _ _ _ _ _ _ F1) as Fs.
    assert (missing D' ∅ ip b0 b1 = missing D P ip b0 b1) as ->.
    { apply set_eq. intros s. rewrite !elem_missing, (view_slot st sz D D' P ∅ kb Hlen Hv ip s (fi_file _ _ _ _ _ _ F1)). done. }
    assert (free_blocks D' (k_sb kb) ∅ = free_blocks D (k_sb kb) P) as ->; [|done].
    apply set_eq. intros b. rewrite !elem_free. split; intros [? E]; (split; [done|]);
      by rewrite (view_used st sz D D' P ∅ kb Hv Fs) in * by done.
Qed.

(** One turn of the loop, from byte [j] on. *)
Definition write_turn (addr j n1 : Z) : KM Z :=
  begin_op ;;;
  let! x := rd_file f in
  ilock (f_ip x) ;;;
  let! ip := deref (f_ip x) in
  let! x := rd_file f in
  let! r := writei (from_mem (u32 (addr + j))) ip (f_off x) n1 in
  when (0 <? r) (upd_file f (λ y, set_f_off (u32 (f_off y + r)) y)) ;;;
  iunlock (f_ip x) ;;;
  end_op ;;;
  ret r.

Lemma rd_file_base ip off g c k o : cst pid c (base ip off g) k → rd_file f o k = Ok (set_f_off off fx) k o.
Proof.
  intros S. unfold rd_file. mrun. rewrite (cst_ftable _ _ _ _ S). unfold base. kproj.
  rewrite list_lookup_insert_eq; [done|]. by eapply lookup_lt_Some.
Qed.

Section Turn.
Context (D : list (list Z)) (ip : inode) (off : Z) (g : log_t) (k : kernel) (o : list (kernel → kernel)).
Context (R : rest pid st sz D (base ip off g) k) (Hr : ready_ip ip) (I : file_inv st sz D kb ∅ ip).
Context (addr j : Z) (bs : list Z) (b2 : Z).
Local Notation n1 := (Z.of_nat (length bs)).
Context (Hn1 : 0 < n1 ≤ 1536) (Ho : 0 ≤ off ≤ i_size ip) (He : off + n1 ≤ 71680) (Hb2 : (off + n1 + 511) / 512 ≤ b2).
Context (Hsp : space D (k_sb kb) ∅ ip (off / 512) b2).
Context (Hsrc : ∀ ip' g', fetches i (base ip' off g') (from_mem (u32 (addr + j))) bs).

Lemma write_turn_spec :
  cruns (write_turn addr j n1) o k
    (λ r k', r = n1 ∧ ∃ D' ip' g', rest pid st sz D' (base ip' (off + n1) g') k' ∧ ready_ip ip' ∧
       space D' (k_sb kb) ∅ ip' ((off + n1) / 512) b2 ∧ filed D ip off bs D' ∅ ip')
    (λ Dc, disk_ok st sz Dc ∧ (means st sz Dc (λ b, D !! b) ∨
       ∃ P' ip', means st sz Dc (overlay P' D) ∧ (∀ b, is_Some (P' !! b) → (b < length D)%nat) ∧ filed D ip off bs D P' ip')).
Proof.
  pose proof (fi_size _ _ _ _ _ _ I) as Hsi.
  destruct (begin_op_rest _ _ _ _ _ _ o R) as [Eb T]. set (g1 := set_lg_outstanding 1 _) in *.
  unfold write_turn. eapply cruns_step; [exact Eb|done|].
  assert (set_k_log g1 (base ip off g) = base ip off g1) as Eg by (unfold base; by destruct kb). rewrite Eg in T.
  pose proof (it_cst _ _ _ _ _ _ _ _ _ T) as S1.
  eapply cruns_step; [by eapply rd_file_base|done|]. change (f_ip (set_f_off off fx)) with (f_ip fx). rewrite Hfi.
  set (ipl := set_i_lock (Sleeplock 1 pid) ip).
  assert (k_icache (base ip off g1) !! i = Some ip) as Hip by (unfold base; kproj; by apply list_lookup_insert_eq).
  eapply cruns_step; [eapply (ilock_valid pid _ _ _ i ip S1 Hip); [apply Hr|done|apply Hr|apply Hr]|done|]. fold ipl.
  assert (<[i := ipl]> (k_icache (base ip off g1)) = <[i := ipl]> (k_icache kb)) as -> by (unfold base; kproj; apply list_insert_insert_eq).
  set (k2 := set_k_icache (<[i := ipl]> (k_icache kb)) (set_k_log g1 k)).
  assert (in_txn pid st sz ∅ 9 D ∅ (base ipl off g1) k2) as T2.
  { apply (in_txn_weaken pid st sz ∅ (Z.of_nat sz - 1)); [|lia]. destruct T as [_ X O Rm Hp].
    split; [|done..]. assert (set_k_icache (<[i := ipl]> (k_icache kb)) (base ip off g1) = base ipl off g1) as <-
      by (unfold base; by destruct kb). by apply cst_set_icache. }
  pose proof (it_cst _ _ _ _ _ _ _ _ _ T2) as S2.
  eapply (cruns_step (deref (Some i))); [done|done|].
  eapply cruns_step; [by eapply rd_file_base|done|]. change (f_off (set_f_off off fx)) with off.
  apply cruns_bind.
  assert (k_icache (base ipl off g1) !! i = Some ipl) as Hipl by (unfold base; kproj; by apply list_lookup_insert_eq).
  eapply cruns_mono; [apply (writei_spec pid st sz D i (base ipl off g1) (lookup_lt_Some _ _ _ Hipl) _ bs off n1 b2 9 ∅ ipl k2)| |exact (λ _ H, H)].
  { apply Hsrc. } { done. }
  { exists g1. split; [done|]. change g1 with (k_log (base ipl off g1)) at 2. by rewrite with_inode_id. }
  { by apply (file_inv_sb D ∅ ipl kb), file_inv_lock. }
  { apply Hr. } { apply Hr. } { done. } { done. } { done. } { exact Hsp. }
  { apply (budget_chunk ipl); lia. }
  intros r k3 (-> & P' & ip' & room' & (g2 & Hg2 & T3) & Hw & Hsp').
  assert (with_inode i (base ipl off g1) ip' g2 = base ip' off g2) as Ew.
  { unfold with_inode, base. kproj. rewrite list_insert_insert_eq. by destruct kb. }
  rewrite Ew in T3.
  pose proof (wrote_filed D ip off bs P' ip' (base ipl off g1) (Sleeplock 1 pid) eq_refl (ri_lock _ Hr) Hw) as Hfd.
  pose proof (wo_ip _ _ _ _ _ _ _ _ _ _ Hw) as Eip'. set (ip2 := set_i_lock sleeplock0 ip') in *.
  assert (ready_ip ip2) as Hr2. { unfold ip2. rewrite Eip'. destruct Hr. by split. }
  (* the offset *)
  rewrite (proj2 (Z.ltb_lt 0 n1)) by lia. unfold when.
  set (k4 := set_k_ftable (<[f := set_f_off (off + n1) fx]> (k_ftable kb)) k3).
  eapply (cruns_step _ _ _ _ _ k4).
  { unfold upd_file, modify. rewrite (cst_ftable _ _ _ _ (it_cst _ _ _ _ _ _ _ _ _ T3)). unfold base, k4. kproj.
    rewrite (list_alter_at _ _ _ (set_f_off off fx)) by (apply list_lookup_insert_eq; by eapply lookup_lt_Some).
    rewrite list_insert_insert_eq. simpl. by rewrite u32_small by lia. }
  { done. }
  assert (in_txn pid st sz ∅ room' D P' (base ip' (off + n1) g2) k4) as T4.
  { destruct T3 as [S3 X O Rm Hp]. split; [|done..].
    assert (set_k_ftable (<[f := set_f_off (off + n1) fx]> (k_ftable kb)) (base ip' off g2) = base ip' (off + n1) g2) as <-
      by (unfold base; by destruct kb). by apply cst_set_ftable. }
  (* the lock *)
  change (f_ip (set_f_off off fx)) with (f_ip fx). rewrite Hfi.
  assert (k_icache (base ip' (off + n1) g2) !! i = Some ip') as Hip' by (unfold base; kproj; by apply list_lookup_insert_eq).
  eapply cruns_step; [eapply (iunlock_eq pid _ _ _ i ip' (it_cst _ _ _ _ _ _ _ _ _ T4) Hip'); [|done|]| |].
  { rewrite Eip'. apply Hr. } { by rewrite Eip'. } { by rewrite wake_all_frame. }
  fold ip2. assert (<[i := ip2]> (k_icache (base ip' (off + n1) g2)) = <[i := ip2]> (k_icache kb)) as ->
    by (unfold base; kproj; apply list_insert_insert_eq).
  set (k5 := wake_all _ _).
  assert (in_txn pid st sz ∅ room' D P' (base ip2 (off + n1) g2) k5) as T5.
  { destruct T4 as [S4 X O Rm Hp]. split; [|done..]. apply cst_wake_all.
    assert (set_k_icache (<[i := ip2]> (k_icache kb)) (base ip' (off + n1) g2) = base ip2 (off + n1) g2) as <-
      by (unfold base; by destruct kb). by apply cst_set_icache. }
  (* the commit *)
  assert (∀ b, is_Some (P' !! b) → (b < length D)%nat) as HPb by apply (ci_bound _ _ _ _ (cs_inv _ _ _ _ (it_cst _ _ _ _ _ _ _ _ _ T5))).
  destruct Hg2 as [Hg2 Hg2']. apply cruns_bind.
  eapply cruns_mono; [eapply end_op_spec; [exact T5| |]| |].
  { exact Hg2. } { exact (eq_trans Hg2' (re_com _ _ _ _ _ _ R)). }
  - intros [] k6 (D' & g' & R' & Hm). apply cruns_ret. split; [done|].
    assert (set_k_log g' (base ip2 (off + n1) g2) = base ip2 (off + n1) g') as Eg' by (unfold base; by destruct kb).
    rewrite Eg' in R'. destruct (filed_commit D ip off bs D P' ip2 D') as [Hfd' Hsp2].
    { apply (re_disk _ _ _ _ _ _ R). } { apply (re_disk _ _ _ _ _ _ R'). } { done. }
    { intros b Hb. rewrite <- Hm by done. unfold replay. by rewrite (re_hdr _ _ _ _ _ _ R'). } { done. }
    exists D', ip2, g'. split_and!; [exact R'|exact Hr2| |exact Hfd']. by apply Hsp2.
  - intros Dc [Hok [Hm|Hm]]; (split; [done|]); [by left|right]. exists P', ip2. by split_and!.
Qed.
End Turn.

Lemma filed_app D0 ip0 off0 l D ip l' D' P' ip' :
  0 ≤ off0 → filed D0 ip0 off0 l D ∅ ip → filed D ip (off0 + Z.of_nat (length l)) l' D' P' ip' → filed D0 ip0 off0 (l ++ l') D' P' ip'.
Proof.
  intros Ho [_ I1 B1] [V2 I2 B2]. split; [done| |].
  - rewrite length_app, Nat2Z.inj_add, I2, I1. destruct ip0. unfold set_i_size, set_i_addrs. simpl. f_equal. lia.
  - intros x Hx. rewrite B2, length_app, Nat2Z.inj_add by done. unfold byte_at.
    destruct (decide (off0 + Z.of_nat (length l) ≤ x < off0 + Z.of_nat (length l) + Z.of_nat (length l'))).
    + rewrite !range_in by lia. rewrite app_nth2 by lia. f_equal. lia.
    + rewrite (range_out (off0 + _)), B1 by lia. destruct (decide (off0 ≤ x < off0 + Z.of_nat (length l))).
      * rewrite !range_in by lia. unfold byte_at. by rewrite app_nth1 by lia.
      * by rewrite !range_out by lia.
Qed.

Lemma filed_nil D ip off : file_inv st sz D kb ∅ ip → 0 ≤ off ≤ i_size ip → filed D ip off [] D ∅ ip.
Proof.
  intros I Ho. split; [done| |].
  - simpl. rewrite Z.max_l by lia. by destruct ip.
  - intros x Hx. simpl. by rewrite range_out by lia.
Qed.

Lemma filewrite_loop_turn fl addr j n o k :
  j < n → let n1 := if WRITE_MAX <? n - j then WRITE_MAX else n - j in
  filewrite_loop (S fl) f addr j n o k =
  (let! r := write_turn addr j n1 in
   if r <? 0 then ret j else if negb (r =? n1) then panic "short filewrite" else filewrite_loop fl f addr (j + r) n)%K o k.
Proof.
  intros Hj n1. cbn [filewrite_loop]. rewrite (proj2 (Z.ltb_lt _ _) Hj). fold n1. unfold write_turn, bind, ret.
  repeat (case_match; try done).
Qed.

Section Loop.
Context (D0 : list (list Z)) (ip0 : inode) (off0 addr n : Z) (phys : Z → Z) (b2 : Z).
Local Notation bs := (bytes_in (k_mem kb) phys n).
Context (Hn : 0 ≤ n) (Ho : 0 ≤ off0) (He : off0 + n ≤ 71680) (Hb2 : (off0 + n + 511) / 512 ≤ b2).
Context (Hm : ∀ j, 0 ≤ j < n → addr_of (k_cr3 kb) (k_mem kb) (u32 (addr + j)) = Some (phys j)).

Lemma length_bs : Z.of_nat (length bs) = n.
Proof. unfold bytes_in. rewrite length_fmap, length_seqZ. lia. Qed.

Lemma fetches_chunk j n1 ip off g :
  0 ≤ j → 0 ≤ n1 → j + n1 ≤ n → fetches i (base ip off g) (from_mem (u32 (addr + j))) (sub_bytes bs j n1).
Proof.
  intros Hj Hn1 Hle. assert (sub_bytes bs j n1 = bytes_in (k_mem (base ip off g)) (λ d, phys (j + d)) n1) as ->.
  { change (k_mem (base ip off g)) with (k_mem kb). unfold sub_bytes, bytes_in. apply list_eq. intros d. rewrite !list_lookup_fmap.
    destruct (decide (Z.of_nat d < n1)).
    - rewrite (lookup_seqZ_lt 0 n1), lookup_take_lt, lookup_drop, list_lookup_fmap, lookup_seqZ_lt by lia. simpl. do 3 f_equal. lia.
    - rewrite (lookup_seqZ_ge 0 n1), lookup_take_ge by lia. done. }
  apply fetches_mem; [done|]. intros d Hd. rewrite <- Hm by lia. change (k_cr3 (base ip off g)) with (k_cr3 kb).
  change (k_mem (base ip off g)) with (k_mem kb). f_equal. unfold u32. rewrite Zplus_mod_idemp_l. f_equal. lia.
Qed.

Lemma take_bs j m : 0 ≤ j → 0 ≤ m → take (Z.to_nat j) bs ++ sub_bytes bs j m = take (Z.to_nat (j + m)) bs.
Proof.
  intros. unfold sub_bytes. replace (Z.to_nat (j + m)) with (Z.to_nat j + Z.to_nat m)%nat by lia. by rewrite take_take_drop.
Qed.

Lemma filewrite_loop_spec fuel j D ip g k o :
  rest pid st sz D (base ip (off0 + j) g) k → ready_ip ip → filed D0 ip0 off0 (take (Z.to_nat j) bs) D ∅ ip →
  off0 ≤ i_size ip0 → space D (k_sb kb) ∅ ip ((off0 + j) / 512) b2 →
  0 ≤ j ≤ n → j = n ∨ j `mod` 1536 = 0 → (Z.to_nat (n - j) < fuel)%nat →
  cruns (filewrite_loop fuel f addr j n) o k
    (λ r k', r = n ∧ ∃ D' ip' g', rest pid st sz D' (base ip' (off0 + n) g') k' ∧ filed D0 ip0 off0 bs D' ∅ ip')
    (torn D0 ip0 off0 bs).
Proof.
  revert j D ip g k. induction fuel as [|fuel IH]; intros j D ip g k R Hr Hfd Hs0 Hsp Hj Hc Hf; [lia|].
  pose proof length_bs as Hlb. destruct (decide (j < n)) as [Hlt|Hge].
  2:{ cbn [filewrite_loop]. rewrite (proj2 (Z.ltb_ge _ _)) by lia. assert (j = n) as -> by lia. apply cruns_ret. split; [done|].
      exists D, ip, g. split; [done|]. by rewrite take_ge in Hfd by lia. }
  eapply cruns_eq; [by apply filewrite_loop_turn|].
  set (n1 := if WRITE_MAX <? n - j then WRITE_MAX else n - j).
  assert (0 < n1 ≤ 1536 ∧ j + n1 ≤ n ∧ (j + n1 = n ∨ n1 = 1536)) as (Hn1 & Hle & Hn1').
  { unfold n1. change WRITE_MAX with 1536. case_match; lia. }
  assert (Z.of_nat (length (sub_bytes bs j n1)) = n1) as Hl by (apply length_sub_bytes; lia).
  assert (Z.of_nat (length (take (Z.to_nat j) bs)) = j) as Hlj by (rewrite length_take; lia).
  pose proof (fd_ip _ _ _ _ _ _ _ Hfd) as Eip.
  assert (off0 + j ≤ i_size ip) as Hoff by (rewrite Eip; simpl; lia).
  pose proof (write_turn_spec D ip (off0 + j) g k o R Hr (fd_inv _ _ _ _ _ _ _ Hfd) addr j (sub_bytes bs j n1) b2) as Ht.
  rewrite Hl in Ht. specialize (Ht ltac:(lia) ltac:(lia) ltac:(lia) ltac:(dlia) Hsp (λ ip' g', fetches_chunk j n1 _ _ _ ltac:(lia) ltac:(lia) ltac:(lia))).
  apply cruns_bind. eapply cruns_mono; [exact Ht| |].
  - intros r k' (-> & D' & ip' & g' & R' & Hr' & Hsp' & Hfd').
    rewrite (proj2 (Z.ltb_ge _ _)), Z.eqb_refl by lia. cbn [negb].
    rewrite <- Z.add_assoc in R', Hsp'. apply (IH (j + n1) D' ip' g' k'); try done; try lia.
    + rewrite <- take_bs by lia. eapply filed_app; [done|exact Hfd|]. by rewrite Hlj.
    + destruct Hn1' as [|E]; [by left|right]. rewrite E in *. dlia.
  - intros Dc [Hok [Hm'|(P' & ip' & Hm' & HPb & Hfd')]]; (split; [done|]).
    + exists (Z.to_nat j), D, ∅, ip. split_and!; [|lia|apply (re_disk _ _ _ _ _ _ R)| |exact Hm'|exact Hfd].
      * destruct Hc as [->|Hc]; [left; lia|right]. by rewrite Z2Nat.id by lia.
      * intros b [? Hb]. by rewrite lookup_empty in Hb.
    + exists (Z.to_nat (j + n1)), D, P', ip'. split_and!; [|lia|apply (re_disk _ _ _ _ _ _ R)|done|done|].
      * destruct Hn1' as [|E]; [left; lia|right]. rewrite Z2Nat.id, E by lia. dlia.
      * rewrite <- take_bs by lia. eapply filed_app; [done|exact Hfd|]. by rewrite Hlj.
Qed.
End Loop.
End Write.

(** An open file, while nothing else happens in the file system. *)
Record open_file (pid : Z) (st sz : nat) (D : list (list Z)) (k : kernel) (f i : nat) (x : file) (ip : inode) : Prop := {
  of_rest : rest pid st sz D k k;
  of_room : (10 ≤ sz)%nat;
  of_sb : sb_size (k_sb k) ≤ 4096;
  of_file : k_ftable k !! f = Some x;
  of_type : f_type x = FD_INODE;
  of_ip : f_ip x = Some i;
  of_inode : k_icache k !! i = Some ip;
  of_index : (i < NINODE)%nat;
  of_ready : ready_ip ip;
  of_inv : file_inv st sz D k ∅ ip;
  of_off : 0 ≤ f_off x ≤ i_size ip
}.

Lemma filewrite_torn {devsw : DevSw} pid st sz D k f i x ip o addr n phys :
  open_file pid st sz D k f i x ip → f_writable x ≠ 0 → 0 ≤ n → f_off x + n ≤ 71680 →
  (∀ j, 0 ≤ j < n → addr_of (k_cr3 k) (k_mem k) (u32 (addr + j)) = Some (phys j)) →
  space D (k_sb k) ∅ ip (f_off x / 512) ((f_off x + n + 511) / 512) →
  cruns (filewrite f addr n) o k
    (λ r k', r = n ∧ ∃ D' ip' g', rest pid st sz D' (base k f i x ip' (f_off x + n) g') k' ∧
       filed st sz k D ip (f_off x) (bytes_in (k_mem k) phys n) D' ∅ ip')
    (torn st sz k D ip (f_off x) (bytes_in (k_mem k) phys n)).
Proof.
  intros [R Hsz Hsb Hx Hty Hip Hi HiN Hr I Ho] Hw Hn He Hm Hsp.
  assert (base k f i x ip (f_off x) (k_log k) = k) as Ek.
  { unfold base. rewrite (list_insert_id (k_icache k)) by done. rewrite (list_insert_id (k_ftable k)) by (rewrite Hx; by destruct x). by destruct k. }
  pose proof (filewrite_loop_spec pid st sz k f i x Hsz Hx Hty Hip (lookup_lt_Some _ _ _ Hi) HiN Hsb D ip (f_off x) addr n phys
    ((f_off x + n + 511) / 512) ltac:(lia) ltac:(lia) ltac:(lia) (Z.le_refl _) Hm (S (Z.to_nat n)) 0 D ip (k_log k) k o) as H.
  rewrite Z.add_0_r, Ek in H.
  assert (filed st sz k D ip (f_off x) [] D ∅ ip) as Hf0 by (by apply (filed_nil _ _ _ i Hsz (lookup_lt_Some _ _ _ Hi) HiN)).
  specialize (H R Hr Hf0 ltac:(lia) Hsp ltac:(lia) ltac:(by right) ltac:(lia)).
  assert (rd_file f o k = Ok x k o) as Er by (unfold rd_file; mrun; by rewrite Hx).
  unfold filewrite. eapply cruns_step; [exact Er|done|].
  rewrite (proj2 (Z.eqb_neq _ _) Hw), Hty. apply cruns_bind. eapply cruns_mono; [exact H| |exact (λ _ H, H)].
  intros r k' (-> & H'). rewrite Z.eqb_refl. apply cruns_ret. exact (conj eq_refl H').
Qed.

(** ** fileread *)

Lemma fileread_reads {devsw : DevSw} pid st sz D k f i x ip o addr n phys :
  let cnt := Z.min n (i_size ip - f_off x) in
  open_file pid st sz D k f i x ip → f_readable x ≠ 0 → 0 ≤ n < 2147483648 → stays_mapped (k_cr3 k) (k_mem k) addr cnt phys →
  cruns (fileread f addr n) o k
    (λ r k', r = cnt ∧ rest pid st sz D
       (set_k_mem (put_bytes phys 0 (fbytes D ∅ ip (f_off x) cnt) (k_mem k)) (base k f i x ip (f_off x + cnt) (k_log k))) k')
    (λ _, False).
Proof.
  intros cnt [R Hsz Hsb Hx Hty Hfi Hip HiN Hr I Ho] Hw Hn Hm. pose proof (re_cst _ _ _ _ _ _ R) as S.
  pose proof (fi_size _ _ _ _ _ _ I) as Hsi.
  assert (rd_file f o k = Ok x k o) as Er by (unfold rd_file; mrun; by rewrite Hx).
  unfold fileread. eapply cruns_step; [exact Er|done|]. rewrite (proj2 (Z.eqb_neq _ _) Hw), Hty, Hfi.
  set (ipl := set_i_lock (Sleeplock 1 pid) ip).
  eapply cruns_step; [eapply (ilock_valid pid _ _ _ i ip S Hip); [apply Hr|done|apply Hr|apply Hr]|done|]. fold ipl.
  set (kl := set_k_icache _ k).
  assert (cst pid (idle D ∅) kl kl) as Sl by (by apply cst_set_icache).
  eapply (cruns_step (deref (Some i))); [done|done|].
  eapply cruns_step; [unfold rd_file; mrun; unfold kl; kproj; by rewrite Hx|done|]. rewrite u32_small by lia.
  assert (k_icache kl !! i = Some ipl) as Hipl.
  { unfold kl. kproj. apply list_lookup_insert_eq. by eapply lookup_lt_Some. }
  apply cruns_bind. eapply cruns_mono.
  { eapply (readi_reads pid st sz D ∅ i ipl kl kl o (to_mem addr) (put_bytes phys)
      (λ m', ∀ x, (∀ j, 0 ≤ j < cnt → x ≠ phys j) → m' x = k_mem k x) (f_off x) n); try done; try lia.
    - rewrite map_size_empty, NBUF_eq. lia.
    - by apply (file_inv_sb st sz D ∅ ipl k), file_inv_lock.
    - apply Hr.
    - apply Hr.
    - by apply stores_mem. }
  2:{ done. }
  intros r k3 (-> & S3). change (i_size ipl) with (i_size ip) in *. fold cnt in S3 |- *. cbn [fst snd].
  change (fbytes D ∅ ipl (f_off x) cnt) with (fbytes D ∅ ip (f_off x) cnt) in S3. set (m := put_bytes _ _ _ _) in *.
  set (km := set_k_mem m kl) in *. set (k4 := set_k_ftable (<[f := set_f_off (f_off x + cnt) x]> (k_ftable k)) k3).
  eapply (cruns_step _ _ _ _ _ k4); [|done|].
  { unfold when, upd_file, modify, ret, k4. pose proof (cst_ftable _ _ _ _ S3) as Ef. change (k_ftable km) with (k_ftable k) in Ef.
    destruct (Z.ltb_spec 0 cnt).
    - rewrite Ef, (list_alter_at _ _ _ _ Hx). by rewrite u32_small by lia.
    - assert (cnt = 0) as -> by lia. rewrite Z.add_0_r, (list_insert_id (k_ftable k)) by (rewrite Hx; by destruct x).
      rewrite <- Ef. by destruct k3. }
  assert (cst pid (idle D ∅) (set_k_ftable (<[f := set_f_off (f_off x + cnt) x]> (k_ftable k)) km) k4) as S4 by (by apply cst_set_ftable).
  eapply cruns_step; [eapply (iunlock_eq pid _ _ _ i ipl S4 Hipl); [apply Hr|done|done]|by rewrite wake_all_frame|].
  apply cruns_ret. split; [done|].
  assert (<[i := set_i_lock sleeplock0 ipl]> (k_icache (set_k_ftable (<[f := set_f_off (f_off x + cnt) x]> (k_ftable k)) km)) = <[i := ip]> (k_icache k)) as ->.
  { unfold km, kl. kproj. rewrite list_insert_insert_eq. f_equal. destruct Hr as [Hl _ _ _ _]. destruct ip. simpl in *. by rewrite Hl. }
  apply (cst_set_icache _ _ _ _ (<[i := ip]> (k_icache k))), (cst_wake_all _ _ _ _ (ChSleeplock (Linodesleep i))) in S4.
  destruct R as [_ R2 R3 R4 R5 R6 R7]. split; [|done..].
  unfold base. revert S4. unfold km, kl. by destruct k.
Qed.

(** [C2] Writing a file is safe against power failures.  For an open file on the disk
    and a user buffer that is mapped, with the range within the largest file and
    enough free blocks: if the power holds, filewrite returns [n], gives back every
    lock, has moved the offset by [n], and the file on the disk is the old one with
    the [n] bytes of the buffer written at the old offset.  If the power fails before
    any of its disk writes, then after any number of boots in which it fails again
    during recovery, the boot that completes finds a file system that is in order in
    which a prefix of the buffer was written and every other byte of the file is as
    before; the prefix is made of whole transactions of 1536 bytes, and it is the
    whole buffer if filewrite had returned. *)
Theorem filewrite_crash_safe {devsw : DevSw} pid st sz D k f i x ip o addr n phys :
  let off := f_off x in
  let bs := bytes_in (k_mem k) phys n in
  open_file pid st sz D k f i x ip → f_writable x ≠ 0 → 0 ≤ n → off + n ≤ 71680 →
  (∀ j, 0 ≤ j < n → addr_of (k_cr3 k) (k_mem k) (u32 (addr + j)) = Some (phys j)) →
  space D (k_sb k) ∅ ip (off / 512) ((off + n + 511) / 512) →
  (k_power k = None → ∃ k' D' ip' g', filewrite f addr n o k = Ok n k' o ∧
     rest pid st sz D' (base k f i x ip' (off + n) g') k' ∧ filed st sz k D ip off bs D' ∅ ip') ∧
  ∀ D2 pid2 k2, rtc (failed_boot st sz) (k_disk (final (filewrite f addr n o k))) D2 →
    booted pid2 st sz D2 k2 → k_power k2 = None →
    ∃ k3 m ip', recover_from_log o k2 = Ok tt k3 o ∧ (m ≤ length bs)%nat ∧ (m = length bs ∨ Z.of_nat m `mod` 1536 = 0) ∧
      filed st sz k D ip off (take m bs) (k_disk k3) ∅ ip' ∧
      ∀ k1, filewrite f addr n o k = Ok n k1 o → filed st sz k D ip off bs (k_disk k3) ∅ ip'.
Proof.
  intros off bs Hopen Hw Hn He Hm Hsp. pose proof (filewrite_torn _ _ _ _ _ _ _ _ _ o _ _ _ Hopen Hw Hn He Hm Hsp) as H.
  unfold cruns in H. fold bs off in H. destruct (filewrite f addr n o k) as [r k' o'| | |k'|]; try done; cbn [final].
  - destruct H as (-> & _ & -> & D' & ip' & g' & R & Hf). split; [intros _; by exists k', D', ip', g'|].
    intros D2 pid2 k2 Hb Hk Hp. rewrite (cs_disk _ _ _ _ (re_cst _ _ _ _ _ _ R)) in Hb. simpl in Hb.
    destruct (recovered _ _ _ _ _ _ o (re_disk _ _ _ _ _ _ R) Hb Hk Hp) as (k3 & E & Hok & H3).
    assert (filed st sz k D ip off bs (k_disk k3) ∅ ip') as Hf3.
    { eapply filed_commit; [apply R|done| |apply H3|done].
      - intros b [? Hb']. by rewrite lookup_empty in Hb'.
      - intros b Hb'. unfold replay, overlay. by rewrite (re_hdr _ _ _ _ _ _ R), lookup_empty. }
    exists k3, (length bs), ip'. rewrite take_ge by done. split_and!; [done|done|by left|done|done].
  - destruct H as (Hp' & Hok & m & D1 & P1 & ip1 & Hm1 & Hle & Hok1 & HP1 & Hmean & Hf). split; [done|].
    intros D2 pid2 k2 Hb Hk Hp. destruct (recovered _ _ _ _ _ _ o Hok Hb Hk Hp) as (k3 & E & Hok3 & H3).
    exists k3, m, ip1. split_and!; [done|done|done| |done].
    eapply filed_commit; [exact Hok1|exact Hok3|exact HP1|exact (H3 _ Hmean)|exact Hf].
Qed.

(** ** Reading back what was written *)

Lemma rest_self pid st sz D k0 k : rest pid st sz D k0 k → rest pid st sz D k k.
Proof.
  intros [S R2 R3 R4 R5 R6 R7]. rewrite <- (cst_log _ _ _ _ S) in *. split; [|done..].
  destruct S as [S1 S2 S3 _]. split; [done|done|done|apply cframe_refl].
Qed.

Lemma open_file_after pid st sz D k f i x ip D' ip' off' g' k' l h y :
  open_file pid st sz D k f i x ip → rest pid st sz D' (base k f i x ip' off' g') k' → filed st sz k D ip (f_off x) l D' ∅ ip' →
  h ≠ f → k_ftable k !! h = Some y → f_type y = FD_INODE → f_ip y = Some i → 0 ≤ f_off y ≤ i_size ip' →
  open_file pid st sz D' k' h i y ip'.
Proof.
  intros [R Hsz Hsb Hx Hty Hfi Hip HiN [? ? ? ? ?] I Ho] R' [F1 F2 _] Hne Hy Hty' Hfi' Ho'. pose proof (re_cst _ _ _ _ _ _ R') as S.
  split; [by eapply rest_self|exact Hsz| | |exact Hty'|exact Hfi'| |exact HiN| | |exact Ho'].
  - by rewrite (cst_sb _ _ _ _ S).
  - rewrite (cst_ftable _ _ _ _ S). unfold base. kproj. by rewrite list_lookup_insert_ne.
  - rewrite (cst_icache _ _ _ _ S). unfold base. kproj. apply list_lookup_insert_eq. by eapply lookup_lt_Some.
  - rewrite F2. by split.
  - apply (file_inv_sb st sz D' ∅ ip' k); [|done]. by rewrite (cst_sb _ _ _ _ S).
Qed.

Lemma put_bytes_in phys d l m j :
  (∀ a b, 0 ≤ a < Z.of_nat (length l) → 0 ≤ b < Z.of_nat (length l) → phys (d + a) = phys (d + b) → a = b) →
  0 ≤ j < Z.of_nat (length l) → put_bytes phys d l m (phys (d + j)) = u8 (byte_at l j).
Proof.
  revert d m j. induction l as [|v l IH]; intros d m j Hinj Hj; simpl in Hj; [lia|]. cbn [put_bytes].
  destruct (decide (j = 0)) as [->|Hj0].
  - rewrite Z.add_0_r, put_bytes_other.
    + unfold st8. by rewrite Z.eqb_refl.
    + intros a Ha E. specialize (Hinj 0 (a + 1) ltac:(simpl; lia) ltac:(simpl; lia)). rewrite Z.add_0_r in Hinj.
      rewrite <- Z.add_assoc, (Z.add_comm 1) in E. specialize (Hinj E). lia.
  - replace (d + j) with (d + 1 + (j - 1)) by lia. rewrite IH; [|intros a b Ha Hb E|lia].
    + unfold byte_at. replace (Z.to_nat j) with (S (Z.to_nat (j - 1))) by lia. done.
    + enough (a + 1 = b + 1) by lia. apply Hinj; simpl; [lia..|]. replace (d + (a + 1)) with (d + 1 + a) by lia.
      replace (d + (b + 1)) with (d + 1 + b) by lia. done.
Qed.

Lemma bytes_in_at m phys n j : 0 ≤ j < n → byte_at (bytes_in m phys n) j = m (phys j).
Proof.
  intros Hj. unfold byte_at, bytes_in. rewrite nth_lookup, list_lookup_fmap, lookup_seqZ_lt by lia. simpl. f_equal. f_equal. lia.
Qed.
Lemma fbytes_at D P ip off n j : 0 ≤ j < n → byte_at (fbytes D P ip off n) j = fbyte D P ip (off + j).
Proof.
  intros Hj. unfold byte_at, fbytes. rewrite nth_lookup, list_lookup_fmap, lookup_seqZ_lt by lia. simpl. f_equal. lia.
Qed.


(** ** A concrete write

    The file of [demo_file], open twice at byte 500: for writing at index 0 and for
    reading at index 1.  Its 600 new bytes are in memory at [0x80100000]. *)

#[local] Existing Instance demo_devsw.
Definition demo_writer : file := File FD_INODE 1 0 1 0 (Some 0%nat) 500.
Definition demo_reader : file := File FD_INODE 1 1 0 0 (Some 0%nat) 500.
Definition demo_open (power : option nat) : kernel :=
  set_k_power power (set_k_mem u8 (set_k_ftable [demo_writer; demo_reader]
    (set_k_log (Log 2 30 0 0 1 0 (replicate 30 0)) demo_file))).

Lemma demo_open_file power : open_file 1 2 30 demo_file_disk (demo_open power) 0 0 demo_writer demo_file_ip.
Proof.
  assert (booted 1 2 30 demo_file_disk (demo_open power)) as Hb.
  { split; [by apply (quiet_ext 1 demo_kernel), demo_kernel_quiet|done..]. }
  assert (hdr_n 2 demo_file_disk = 0%nat) as E by (by vm_compute).
  split; [|lia|simpl; lia|done|done|done|done|rewrite NINODE_eq; lia|by split|apply (file_inv_sb _ _ _ _ _ demo_file); [done|exact demo_file_inv]|simpl; lia].
  split; [by eapply booted_cst|apply Hb|done|done|done| |exact E].
  split; rewrite ?E; try lia; first [reflexivity | vm_compute; lia].
Qed.

Lemma demo_open_mapped j :
  0 ≤ j < 600 → addr_of 0 u8 (u32 (0x80100000 + j)) = Some (0x80100000 + j).
Proof. intros Hj. unfold addr_of. rewrite u32_small by lia. by rewrite (proj2 (Z.leb_le _ _)) by (unfold KERNBASE; lia). Qed.

Lemma demo_file_reboot D : booted 1 2 30 D (set_k_disk D demo_file).
Proof. split; [by apply (quiet_ext 1 demo_kernel), demo_kernel_quiet|done..]. Qed.

Lemma filewrite_crash_safe_witness :
  ∃ k3 m ip', recover_from_log [] (set_k_disk (k_disk (final (filewrite 0 0x80100000 600 [] (demo_open (Some 5%nat))))) demo_file) = Ok tt k3 [] ∧
    (m = 600 ∨ m = 0)%nat ∧ i_size ip' = Z.max 700 (500 + Z.of_nat m) ∧ fbyte (k_disk k3) ∅ ip' 499 = 1.
Proof.
  destruct (filewrite_crash_safe 1 2 30 demo_file_disk (demo_open (Some 5%nat)) 0 0 demo_writer demo_file_ip [] 0x80100000 600
    (λ j, 0x80100000 + j) (demo_open_file _) ltac:(done) ltac:(lia) ltac:(simpl; lia) demo_open_mapped demo_file_space) as [_ H].
  destruct (H _ 1 (set_k_disk (k_disk (final (filewrite 0 0x80100000 600 [] (demo_open (Some 5%nat))))) demo_file) (rtc_refl _ _))
    as (k3 & m & ip' & E & Hle & Hm & Hf & _).
  { apply demo_file_reboot. } { exact eq_refl. }
  change (length _) with 600%nat in Hle, Hm. exists k3, m, ip'. split_and!; [exact E| | |].
  - destruct Hm as [->|Hm]; [by left|right]. dlia.
  - rewrite (fd_ip _ _ _ _ _ _ _ _ _ _ Hf). simpl. rewrite length_take. change (length _) with 600%nat. lia.
  - rewrite (fd_bytes _ _ _ _ _ _ _ _ _ _ Hf) by lia. simpl. by vm_compute.
Defined.

