(* ===== verification/Proc.v ===== *)
(** * Processes

    The rest of [proc.c]: creating, growing, ending and reaping processes.
    A process is a position in [ptable.proc]; its thread table is the row of
    [ptable.ttable] that [p->threads] points at. *)

From S2P Require Import Prelude Defs X86 Spinlock CString Kernel Sched Kalloc Vm Sleeplock Bytes Bio Log Fs Pipe File.
Local Open Scope kernel_scope.

(** ** Linker symbols: code addresses and the embedded initcode *)
Class KSyms := {
  sym_trapret : Z;
  sym_forkret : Z;
  sym_initcode_start : Z;
  sym_initcode_size : Z
}.

(** ** x86.h: struct trapframe; proc.h: struct context *)
Definition TF_SIZE : Z := 76.
Definition tf_eax (tf : Z) : Z := tf + 28.
Definition tf_es (tf : Z) : Z := tf + 40.
Definition tf_ds (tf : Z) : Z := tf + 44.
Definition tf_trapno (tf : Z) : Z := tf + 48.
Definition tf_eip (tf : Z) : Z := tf + 56.
Definition tf_cs (tf : Z) : Z := tf + 60.
Definition tf_eflags (tf : Z) : Z := tf + 64.
Definition tf_esp (tf : Z) : Z := tf + 68.
Definition tf_ss (tf : Z) : Z := tf + 72.
Definition CONTEXT_SIZE : Z := 20.
Definition ctx_eip (c : Z) : Z := c + 16.

(** A 16-bit store. *)
Definition wr16 (a v : Z) : KM unit := upd_mem (λ m, st8 (st8 m a v) (a + 1) (v / 256)).

(** The name field: [safestrcpy(p->name, s, 16)]. *)
Definition copy_name (s old : list Z) : list Z :=
  let t := take 15 (until_nul s) in t ++ [0] ++ drop (S (length t)) old.

(** ** pinit *)
Definition pinit : KM unit :=
  initlock Lptable "ptable" ;;;
  initlock LmutexTable "mutexTable".

(** ** allocproc *)

(** The first UNUSED entry. *)
Fixpoint find_unused (l : list proc) (i : nat) : option nat :=
  match l with
  | [] => None
  | p :: l' => if decide (p_state p = UNUSED) then Some i else find_unused l' (S i)
  end.

Section Proc.
Context {devsw : DevSw} {ksyms : KSyms}.

(** The kernel stack of a new thread: room for the trap frame, the return to
    trapret, and a context that starts at forkret. *)
Definition init_kstack (t : tslot) (kstack : Z) : KM unit :=
  let sp := kstack + KSTACKSIZE - TF_SIZE in
  upd_thread t (set_t_tf sp) ;;;
  let sp := sp - 4 in
  wr32 sp sym_trapret ;;;
  let sp := sp - CONTEXT_SIZE in
  upd_thread t (set_t_context sp) ;;;
  upd_mem (λ m, memset m sp 0 CONTEXT_SIZE) ;;;
  wr32 (ctx_eip sp) sym_forkret.

Definition allocproc : KM (option nat) :=
  acquire Lptable ;;;
  let! l := gets k_procs in
  match find_unused l 0 with
  | None =>
      release Lptable ;;;
      ret None
  | Some i =>
      upd_proc i (set_p_state EMBRYO) ;;;
      let! pid := gets k_nextpid in
      upd_proc i (set_p_pid pid) ;;;
      modify (set_k_nextpid (pid + 1)) ;;;
      upd_proc i (set_p_threads (Some i)) ;;;
      for_each (seq 0 NTHREAD) (λ j, upd_thread (i, j) (set_t_state UNINIT)) ;;;
      let t := (i, 0%nat) in
      upd_thread t (set_t_tproc (Some i)) ;;;
      let! tid := gets k_nexttid in
      upd_thread t (set_t_tid tid) ;;;
      modify (set_k_nexttid (tid + 1)) ;;;
      upd_thread t (set_t_exitRequest 0) ;;;
      release Lptable ;;;
      let! kstack := kalloc in
      upd_thread t (set_t_kstack kstack) ;;;
      if kstack =? 0 then ret None
      else
        init_kstack t kstack ;;;
        ret (Some i)
  end.

(** The thread a process starts with: [p->threads]. *)
Definition main_thread (i : nat) : KM tslot :=
  let! p := rd_proc i in
  let! base := deref (p_threads p) in
  ret (base, 0%nat).

(** ** userinit *)
Definition userinit : KM unit :=
  let! p := allocproc in
  modify (set_k_initproc p) ;;;
  let! pgdir := setupkvm in
  let! p := deref p in
  upd_proc p (set_p_pgdir pgdir) ;;;
  if pgdir =? 0 then panic "userinit: out of memory?"
  else
    inituvm pgdir sym_initcode_start sym_initcode_size ;;;
    upd_proc p (set_p_sz PGSIZE) ;;;
    let! t := main_thread p in
    let! th := rd_thread t in
    let tf := t_tf th in
    upd_mem (λ m, memset m tf 0 TF_SIZE) ;;;
    wr16 (tf_cs tf) (Z.lor (Z.shiftl SEG_UCODE 3) DPL_USER) ;;;
    wr16 (tf_ds tf) (Z.lor (Z.shiftl SEG_UDATA 3) DPL_USER) ;;;
    wr16 (tf_es tf) (Z.lor (Z.shiftl SEG_UDATA 3) DPL_USER) ;;;
    wr16 (tf_ss tf) (Z.lor (Z.shiftl SEG_UDATA 3) DPL_USER) ;;;
    wr32 (tf_eflags tf) FL_IF ;;;
    wr32 (tf_esp tf) PGSIZE ;;;
    wr32 (tf_eip tf) 0 ;;;
    upd_proc p (λ x, set_p_name (copy_name [105; 110; 105; 116; 99; 111; 100; 101] (p_name x)) x) ;;;
    let! cwd := namei [SLASH] in
    upd_proc p (set_p_cwd cwd) ;;;
    acquire Lptable ;;;
    upd_proc p (set_p_state USED) ;;;
    upd_thread t (set_t_state RUNNABLE) ;;;
    release Lptable.

(** ** growproc *)
Definition growproc (n : Z) : KM Z :=
  let! c := myproc in
  acquire Lptable ;;;
  let! c := deref c in
  let! pr := rd_proc c in
  let! sz := (if 0 <? n then
                let! sz := allocuvm (p_pgdir pr) (p_sz pr) (u32 (p_sz pr + n)) in
                ret (if sz =? 0 then None else Some sz)
              else if n <? 0 then
                let! sz := deallocuvm (p_pgdir pr) (p_sz pr) (u32 (p_sz pr + n)) in
                ret (if sz =? 0 then None else Some sz)
              else ret (Some (p_sz pr))) in
  match sz with
  | None =>
      release Lptable ;;;
      ret (-1)
  | Some sz =>
      upd_proc c (set_p_sz sz) ;;;
      switchuvm (Some c) ;;;
      release Lptable ;;;
      ret 0
  end.

(** ** fork *)

(** [if(curproc->ofile[i]) np->ofile[i] = filedup(curproc->ofile[i]);] *)
Definition dup_ofile (c np i : nat) : KM unit :=
  let! pr := rd_proc c in
  match p_ofile pr !! i with
  | Some (Some f) =>
      let! f := filedup f in
      upd_proc np (λ x, set_p_ofile (<[i := Some f]> (p_ofile x)) x)
  | Some None => ret tt
  | None => undef "ofile bounds"
  end.

Definition fork : KM Z :=
  let! c := myproc in
  let! curthread := mythread in
  let! np := allocproc in
  match np with
  | None => ret (-1)
  | Some np =>
      let! nt := main_thread np in
      upd_thread nt (set_t_tproc (Some np)) ;;;
      let! c := deref c in
      let! pr := rd_proc c in
      let! pgdir := copyuvm (p_pgdir pr) (p_sz pr) in
      upd_proc np (set_p_pgdir pgdir) ;;;
      if pgdir =? 0 then
        let! x := rd_thread nt in
        kfree (t_kstack x) ;;;
        upd_thread nt (set_t_kstack 0) ;;;
        upd_proc np (set_p_state UNUSED) ;;;
        upd_thread nt (set_t_state UNINIT) ;;;
        ret (-1)
      else
        let! pr := rd_proc c in
        upd_proc np (set_p_sz (p_sz pr)) ;;;
        upd_proc np (set_p_parent (Some c)) ;;;
        let! ct := deref curthread in
        let! src := rd_thread ct in
        let! dst := rd_thread nt in
        upd_mem (λ m, copy m (t_tf dst) (t_tf src) TF_SIZE) ;;;
        wr32 (tf_eax (t_tf dst)) 0 ;;;
        for_each (seq 0 NOFILE) (dup_ofile c np) ;;;
        let! pr := rd_proc c in
        let! cwd := deref (p_cwd pr) in
        let! cwd := idup cwd in
        upd_proc np (set_p_cwd (Some cwd)) ;;;
        upd_proc np (λ x, set_p_name (copy_name (p_name pr) (p_name x)) x) ;;;
        let! x := rd_proc np in
        let pid := p_pid x in
        acquire Lptable ;;;
        upd_proc np (set_p_state USED) ;;;
        upd_thread nt (set_t_state RUNNABLE) ;;;
        release Lptable ;;;
        ret pid
  end.
End Proc.

(** ** exit *)

(** [t != curthread && t->state != TERMINATED && t->state != UNINIT] *)
Definition live_other (cur : option tslot) (t : tslot) (th : kthread) : bool :=
  negb (bool_decide (cur = Some t)) && negb (bool_decide (t_state th = TERMINATED))
  && negb (bool_decide (t_state th = UNINIT)).

(** The loop of exit over the threads of the process: ask the others to exit;
    true when there are none. *)
Fixpoint exit_mark (cur : option tslot) (base : nat) (js : list nat) (last : bool) : KM bool :=
  match js with
  | [] => ret last
  | j :: js' =>
      let! th := rd_thread (base, j) in
      if live_other cur (base, j) th then
        upd_thread (base, j) (set_t_exitRequest 1) ;;;
        exit_mark cur base js' false
      else exit_mark cur base js' last
  end.

(** wakeup1 of a pointer that may be null. *)
Definition wakeup1_null : KM unit :=
  for_each (seq 0 NPROC) (λ i,
    let! p := rd_proc i in
    if decide (p_state p = UNUSED) then ret tt
    else
      let! base := deref (p_threads p) in
      for_each (seq 0 NTHREAD) (λ j,
        let! t := rd_thread (base, j) in
        when (bool_decide (t_state t = SLEEPING) && bool_decide (t_chan t = None))
          (upd_thread (base, j) (set_t_state RUNNABLE)))).
Definition wakeup1_proc (p : option nat) : KM unit :=
  match p with Some p => wakeup1 (ChProc p) | None => wakeup1_null end.

(** Close descriptor [fd] of process [c]. *)
Definition close_fd (c fd : nat) : KM unit :=
  let! pr := rd_proc c in
  match p_ofile pr !! fd with
  | Some (Some f) =>
      fileclose f ;;;
      upd_proc c (λ x, set_p_ofile (<[fd := None]> (p_ofile x)) x)
  | Some None => ret tt
  | None => undef "ofile bounds"
  end.

(** Give the child at [i] of process [c] to init. *)
Definition reparent (c i : nat) : KM unit :=
  let! p := rd_proc i in
  when (bool_decide (p_parent p = Some c))
    (let! ip := gets k_initproc in
     upd_proc i (set_p_parent ip) ;;;
     when (bool_decide (p_state p = ZOMBIE)) (wakeup1_proc ip)).

(** The end of a process, from the second acquire of ptable.lock on. *)
Definition exit_zombie (c : nat) (curthread : tslot) : KM unit :=
  acquire Lptable ;;;
  let! pr := rd_proc c in
  wakeup1_proc (p_parent pr) ;;;
  for_each (seq 0 NPROC) (reparent c) ;;;
  wakeup1 (ChThread curthread) ;;;
  upd_proc c (set_p_state ZOMBIE) ;;;
  upd_thread curthread (set_t_state TERMINATED) ;;;
  sched ;;;
  panic "zombie exit".

Definition exit : KM unit :=
  let! c := myproc in
  let! curthread := mythread in
  let! ip := gets k_initproc in
  if decide (c = ip) then panic "init exiting"
  else
    acquire Lptable ;;;
    let! c := deref c in
    let! pr := rd_proc c in
    let! base := deref (p_threads pr) in
    let! last := exit_mark curthread base (seq 0 NTHREAD) true in
    if last then
      release Lptable ;;;
      for_each (seq 0 NOFILE) (close_fd c) ;;;
      begin_op ;;;
      let! pr := rd_proc c in
      let! cwd := deref (p_cwd pr) in
      iput cwd ;;;
      end_op ;;;
      upd_proc c (set_p_cwd None) ;;;
      let! ct := deref curthread in
      exit_zombie c ct
    else release Lptable.

(** ** wait *)

(** The loop over the threads of a zombie: free the terminated ones; true when
    another one is left. *)
Fixpoint reap_threads (base : nat) (js : list nat) (has : bool) : KM bool :=
  match js with
  | [] => ret has
  | j :: js' =>
      let t := (base, j) in
      let! th := rd_thread t in
      when (bool_decide (t_state th = TERMINATED))
        (kfree (t_kstack th) ;;;
         upd_thread t (set_t_kstack 0) ;;;
         upd_thread t (set_t_tid 0) ;;;
         upd_thread t (set_t_tproc None) ;;;
         upd_thread t (set_t_exitRequest 0) ;;;
         upd_thread t (set_t_state UNINIT)) ;;;
      let! me := mythread in
      let! th := rd_thread t in
      reap_threads base js' (has || live_other me t th)
  end.

(** The scan of the process table: the pid to return, or whether there are
    children. *)
Fixpoint wait_scan (c : nat) (ps : list nat) (havekids : bool) : KM (Z + bool) :=
  match ps with
  | [] => ret (inr havekids)
  | i :: ps' =>
      let! p := rd_proc i in
      if decide (p_parent p = Some c) then
        if decide (p_state p = ZOMBIE) then
          let! base := deref (p_threads p) in
          let! has := reap_threads base (seq 0 NTHREAD) false in
          if has then ret (inl 0)
          else
            freevm (p_pgdir p) ;;;
            upd_proc i (λ x, set_p_state UNUSED (set_p_killed 0
              (set_p_name (<[0%nat := 0]> (p_name x)) (set_p_parent None (set_p_pid 0 x))))) ;;;
            ret (inl (p_pid p))
        else wait_scan c ps' true
      else wait_scan c ps' havekids
  end.

(** One round of the endless loop: a result, or a sleep. *)
Definition wait_round (c : nat) : KM (option Z) :=
  let! r := wait_scan c (seq 0 NPROC) false in
  match r with
  | inl pid =>
      release Lptable ;;;
      ret (Some pid)
  | inr havekids =>
      let! pr := rd_proc c in
      let! t := mythread in
      let! t := deref t in
      let! th := rd_thread t in
      if negb havekids || negb (p_killed pr =? 0) || negb (t_exitRequest th =? 0) then
        release Lptable ;;;
        ret (Some (-1))
      else
        sleep (ChProc c) Lptable ;;;
        ret None
  end.

Definition wait : KM Z :=
  let! c := myproc in
  acquire Lptable ;;;
  let! c := deref c in
  loop_wait (wait_round c).

(** ** kill, forkret *)

Fixpoint find_pid (pid : Z) (l : list proc) (i : nat) : option nat :=
  match l with
  | [] => None
  | p :: l' => if p_pid p =? pid then Some i else find_pid pid l' (S i)
  end.

Definition kill (pid : Z) : KM Z :=
  acquire Lptable ;;;
  let! l := gets k_procs in
  match find_pid pid l 0 with
  | Some i =>
      upd_proc i (set_p_killed 1) ;;;
      release Lptable ;;;
      ret 0
  | None =>
      release Lptable ;;;
      ret (-1)
  end.

Definition forkret : KM unit :=
  release Lptable ;;;
  let! first := gets k_first in
  when (negb (first =? 0))
    (modify (set_k_first 0) ;;;
     iinit ROOTDEV ;;;
     initlog ROOTDEV).

(** ** The stack of a new thread *)

Section Stack.
Context {ksyms : KSyms}.

(** The memory after init_kstack on the page [s]. *)
Definition kstack_mem (s : Z) (m : memory) : memory :=
  st32 (memset (st32 m (s + 4016) sym_trapret) (s + 3996) 0 20) (s + 4012) sym_forkret.

Lemma init_kstack_eq t s o k :
  init_kstack t s o k =
    Ok tt (set_k_mem (kstack_mem s (k_mem k))
             (alter_thread (set_t_context (s + 3996)) t (alter_thread (set_t_tf (s + 4020)) t k))) o.
Proof.
  unfold init_kstack, upd_thread, upd_mem, wr32, ctx_eip, KSTACKSIZE, TF_SIZE, CONTEXT_SIZE.
  mrun. unfold modify. f_equal.
  replace (s + 4096 - 76 - 4 - 20) with (s + 3996) by lia.
  replace (s + 4096 - 76 - 4) with (s + 4016) by lia.
  replace (s + 4096 - 76) with (s + 4020) by lia.
  replace (s + 3996 + 16) with (s + 4012) by lia. done.
Qed.

Lemma kstack_mem_other s m x : x < s + 3996 ∨ s + 4020 ≤ x → kstack_mem s m x = m x.
Proof.
  intros H. unfold kstack_mem. rewrite st32_other, memset_fill by lia. unfold fill.
  case_tests; by rewrite st32_other by lia.
Qed.

(** The saved context returns to forkret, and that to trapret. *)
Lemma kstack_mem_frames s m :
  ld32 (kstack_mem s m) (s + 4012) = u32 sym_forkret ∧
  ld32 (kstack_mem s m) (s + 4016) = u32 sym_trapret.
Proof.
  unfold kstack_mem. split; [by rewrite ld32_st32|].
  rewrite ld32_st32_other by lia.
  rewrite (ld32_ext _ (st32 m (s + 4016) sym_trapret)); [apply ld32_st32|].
  intros x Hx. rewrite memset_fill by lia. unfold fill. case_tests.
Qed.
End Stack.
