(* ===== verification/Kthread.v ===== *)
(** * Kernel threads

    [kthread.c]: creating a thread of the current process, leaving it, and
    waiting for another one. *)

From S2P Require Import Prelude Defs Spinlock CString Kernel Sched Kalloc Vm Sleeplock Bytes Bio Log Fs Pipe File Proc.
Local Open Scope kernel_scope.

(** The first UNINIT slot of a thread table. *)
Fixpoint find_uninit (base : nat) (js : list nat) : KM (option tslot) :=
  match js with
  | [] => ret None
  | j :: js' =>
      let! th := rd_thread (base, j) in
      if decide (t_state th = UNINIT) then ret (Some (base, j)) else find_uninit base js'
  end.

Section Create.
Context {ksyms : KSyms}.

Definition kthread_create (start_func stack : Z) : KM Z :=
  let! p := myproc in
  acquire Lptable ;;;
  let! pi := deref p in
  let! pr := rd_proc pi in
  let! base := deref (p_threads pr) in
  let! r := find_uninit base (seq 0 NTHREAD) in
  match r with
  | None =>
      release Lptable ;;;
      ret (-1)
  | Some t =>
      upd_thread t (set_t_tproc p) ;;;
      let! tid := gets k_nexttid in
      upd_thread t (set_t_tid tid) ;;;
      modify (set_k_nexttid (tid + 1)) ;;;
      release Lptable ;;;
      let! kstack := kalloc in
      upd_thread t (set_t_kstack kstack) ;;;
      if kstack =? 0 then ret 0
      else
        init_kstack t kstack ;;;
        upd_thread t (set_t_exitRequest 0) ;;;
        upd_thread t (set_t_state RUNNABLE) ;;;
        upd_thread t (set_t_ustack stack) ;;;
        let! me := mythread in
        let! me := deref me in
        let! src := rd_thread me in
        let! th := rd_thread t in
        upd_mem (λ m, copy m (t_tf th) (t_tf src) TF_SIZE) ;;;
        wr32 (tf_eip (t_tf th)) start_func ;;;
        wr32 (tf_esp (t_tf th)) stack ;;;
        ret (t_tid th)
  end.
End Create.

Definition kthread_id : KM Z :=
  let! t := mythread in
  let! t := deref t in
  let! th := rd_thread t in
  ret (t_tid th).

(** wakeup1 has the same body; this copy is local to kthread.c. *)
Definition wakeupThreads (ch : chan) : KM unit :=
  for_each (seq 0 NPROC) (λ i,
    let! p := rd_proc i in
    if decide (p_state p = UNUSED) then ret tt
    else
      let! base := deref (p_threads p) in
      for_each (seq 0 NTHREAD) (λ j,
        let! t := rd_thread (base, j) in
        when (sleeping_on ch t) (upd_thread (base, j) (set_t_state RUNNABLE)))).

(** No other thread of the table at [base] is alive. *)
Fixpoint is_last (cur : tslot) (base : nat) (js : list nat) (last : bool) : KM bool :=
  match js with
  | [] => ret last
  | j :: js' =>
      let! th := rd_thread (base, j) in
      is_last cur base js' (last && negb (live_other (Some cur) (base, j) th))
  end.

Definition kthread_exit : KM unit :=
  let! cur := mythread in
  acquire Lptable ;;;
  let! cur := deref cur in
  let! th := rd_thread cur in
  let! p := deref (t_tproc th) in
  let! pr := rd_proc p in
  let! base := deref (p_threads pr) in
  let! last := is_last cur base (seq 0 NTHREAD) true in
  when last (release Lptable ;;; exit) ;;;
  wakeupThreads (ChThread cur) ;;;
  upd_thread cur (set_t_state TERMINATED) ;;;
  sched ;;;
  panic "terminated exit".

(** The slot with thread id [tid], or one past the table: the next row of
    [ptable.ttable] starts there. *)
Fixpoint find_tid (tid : Z) (base : nat) (js : list nat) : KM tslot :=
  match js with
  | [] => ret (S base, 0%nat)
  | j :: js' =>
      let! th := rd_thread (base, j) in
      if t_tid th =? tid then ret (base, j) else find_tid tid base js'
  end.

Definition kthread_join (thread_id : Z) : KM Z :=
  let! c := myproc in
  let! cur := mythread in
  let! cur := deref cur in
  let! me := rd_thread cur in
  if t_tid me =? thread_id then ret (-1)
  else
    acquire Lptable ;;;
    let! c := deref c in
    let! pr := rd_proc c in
    let! base := deref (p_threads pr) in
    let! t := find_tid thread_id base (seq 0 NTHREAD) in
    let! th := rd_thread t in
    if negb (t_tid th =? thread_id) then
      release Lptable ;;;
      ret (-1)
    else if decide (t_state th = UNINIT) then
      release Lptable ;;;
      ret (-1)
    else
      while_wait
        (let! th := rd_thread t in ret (negb (bool_decide (t_state th = TERMINATED))))
        (sleep (ChThread t) Lptable) ;;;
      let! th := rd_thread t in
      kfree (t_kstack th) ;;;
      upd_thread t (set_t_kstack 0) ;;;
      upd_thread t (set_t_state UNINIT) ;;;
      release Lptable ;;;
      ret 0.

(** ** Scans of a thread table *)

Lemma find_uninit_found base j th o k :
  thread_at (base, j) k = Some th → t_state th = UNINIT → (j < NTHREAD)%nat →
  (∀ j', (j' < j)%nat → ∃ th', thread_at (base, j') k = Some th' ∧ t_state th' ≠ UNINIT) →
  find_uninit base (seq 0 NTHREAD) o k = Ok (Some (base, j)) k o.
Proof.
  intros Hj Hs Hlt Hb. replace NTHREAD with (j + S (NTHREAD - S j))%nat by lia.
  rewrite seq_app. clear Hlt. simpl.
  assert (∀ js, (∀ j', j' ∈ js → (j' < j)%nat) →
    find_uninit base (js ++ j :: seq (S j) (NTHREAD - S j)) o k = Ok (Some (base, j)) k o) as H.
  { induction js as [|x js IH]; intros Hjs; simpl.
    - rewrite (bind_ok _ _ _ _ _ _ _ (rd_thread_eq _ _ _ _ Hj)). by rewrite decide_True.
    - destruct (Hb x) as (th' & Hx & Hsx); [apply Hjs; set_solver|].
      rewrite (bind_ok _ _ _ _ _ _ _ (rd_thread_eq _ _ _ _ Hx)). rewrite decide_False by done.
      apply IH. set_solver. }
  apply H. intros j' Hj'. apply elem_of_seq in Hj'. lia.
Qed.

Lemma find_uninit_none base o k :
  (∀ j, (j < NTHREAD)%nat → ∃ th, thread_at (base, j) k = Some th ∧ t_state th ≠ UNINIT) →
  find_uninit base (seq 0 NTHREAD) o k = Ok None k o.
Proof.
  intros Hb. assert (∀ js, (∀ j, j ∈ js → (j < NTHREAD)%nat) →
    find_uninit base js o k = Ok None k o) as H.
  { induction js as [|x js IH]; intros Hjs; simpl; [done|].
    destruct (Hb x) as (th & Hx & Hs); [apply Hjs; set_solver|].
    rewrite (bind_ok _ _ _ _ _ _ _ (rd_thread_eq _ _ _ _ Hx)). rewrite decide_False by done.
    apply IH. set_solver. }
  apply H. intros j Hj. apply elem_of_seq in Hj. lia.
Qed.

(** ** kthread_create *)

Section CreateSpec.
Context {ksyms : KSyms}.

(** The memory of the new thread's page: the creator's trap frame with the
    entry point and the user stack of the new thread, above the first context. *)
Definition created_mem (s src start_func stack : Z) (m : memory) : memory :=
  st32 (st32 (copy (kstack_mem s m) (s + 4020) src 76) (s + 4076) start_func) (s + 4088) stack.

Definition created_thread (p : nat) (s stack tid : Z) (th : kthread) : kthread :=
  Kthread s stack RUNNABLE tid (Some p) (s + 4020) (s + 3996) (t_chan th) 0.

Lemma created_mem_other s src f st m x : x < s ∨ s + 4096 ≤ x → created_mem s src f st m x = m x.
Proof.
  intros H. unfold created_mem. rewrite !st32_other by lia. unfold copy. case_tests;
  by rewrite kstack_mem_other by lia.
Qed.

Lemma created_mem_frame s src f st m :
  src + 76 ≤ s ∨ s + 4096 ≤ src →
  let m' := created_mem s src f st m in
  ld32 m' (tf_eip (s + 4020)) = u32 f ∧ ld32 m' (tf_esp (s + 4020)) = u32 st ∧
  (∀ i, 0 ≤ i < 76 → ¬ 56 ≤ i < 60 → ¬ 68 ≤ i < 72 → m' (s + 4020 + i) = m (src + i)) ∧
  ld32 m' (ctx_eip (s + 3996)) = u32 sym_forkret ∧ ld32 m' (s + 3996 + 20) = u32 sym_trapret.
Proof.
  intros Hs m'. unfold m', created_mem, tf_eip, tf_esp, ctx_eip.
  replace (s + 4020 + 56) with (s + 4076) by lia. replace (s + 4020 + 68) with (s + 4088) by lia.
  replace (s + 3996 + 16) with (s + 4012) by lia. replace (s + 3996 + 20) with (s + 4016) by lia.
  destruct (kstack_mem_frames s m) as [H1 H2]. split_and!.
  - by rewrite ld32_st32_other, ld32_st32 by lia.
  - by rewrite ld32_st32.
  - intros i Hi H3 H4. rewrite !st32_other by lia. unfold copy. case_tests.
    rewrite kstack_mem_other by lia. f_equal. lia.
  - rewrite <- H1, !ld32_st32_other by lia. apply ld32_ext. intros x Hx. unfold copy. case_tests.
  - rewrite <- H2, !ld32_st32_other by lia. apply ld32_ext. intros x Hx. unfold copy. case_tests.
Qed.

Lemma kthread_create_eq p j pr th me th0 s start_func stack o k n :
  calm (k_lk k) n → lock_free Lptable (k_lk k) → kmem_ready k →
  k_proc k = Some p → k_procs k !! p = Some pr → p_threads pr = Some p →
  k_thread k = Some me → thread_at me k = Some th0 → me ≠ (p, j) →
  thread_at (p, j) k = Some th → t_state th = UNINIT → (j < NTHREAD)%nat →
  (∀ j', (j' < j)%nat → ∃ th', thread_at (p, j') k = Some th' ∧ t_state th' ≠ UNINIT) →
  km_freelist (k_kmem k) = s → s ≠ 0 →
  kthread_create start_func stack o k =
    Ok (k_nexttid k)
      (set_k_nexttid (k_nexttid k + 1)
        (set_k_mem (created_mem s (t_tf th0) start_func stack (k_mem k))
          (alter_thread (λ _, created_thread p s stack (k_nexttid k) th) (p, j) (kpopped k)))) o.
Proof.
  intros Hc Hf Hr Hp Hpr Hth Hme Hth0 Hne Hj Hs Hlt Hb Hks Hs0. unfold kthread_create.
  rewrite (bind_ok _ _ _ _ _ _ _ (myproc_calm _ _ _ Hc)), Hp. kacquire Hc Hf.
  unfold deref. mrun. kread Hpr. rewrite Hth. mrun.
  erewrite bind_ok; [|apply (find_uninit_found p j th); [exact Hj|exact Hs|exact Hlt|exact Hb]].
  unfold upd_thread. mrun. kproj. krelease Hc Hf.
  erewrite bind_ok; [|apply kalloc_eq; by apply (kmem_ready_ext k)]. kframe. rewrite Hks.
  unfold kalloced. kframe. rewrite Hks, (proj2 (Z.eqb_neq _ _) Hs0). mrun.
  rewrite (bind_ok _ _ _ _ _ _ _ (init_kstack_eq _ _ _ _)). mrun.
  erewrite bind_ok; [|eapply mythread_calm; kproj; exact Hc].
  kframe. unfold kpopped at 1. kframe. rewrite Hme. mrun.
  set (k1 := set_k_mem (kstack_mem s (k_mem k)) (set_k_nexttid (k_nexttid k + 1) (kpopped k))).
  match goal with |- bind _ _ _ ?st = _ =>
    replace st with (alter_thread (λ _, created_thread p s stack (k_nexttid k) th) (p, j) k1) end.
  2:{ unfold k1, kpopped. kframe. autorewrite with kpush.
      set (A := alter_thread (λ _, _) _ _).
      rewrite (alter_thread_ext _ (λ _, created_thread p s stack (k_nexttid k) th) _ _ _ Hj)
        by (by destruct th).
      reflexivity. }
  erewrite bind_ok; [|apply rd_thread_eq; rewrite thread_at_alter, decide_False by done; exact Hth0].
  erewrite bind_ok; [|apply rd_thread_eq; rewrite thread_at_alter, decide_True by done;
    change (thread_at (p, j) k1) with (thread_at (p, j) k); rewrite Hj; reflexivity].
  unfold upd_mem, wr32, created_mem, tf_eip, tf_esp, TF_SIZE. mrun. unfold ret. f_equal.
  cbn [created_thread t_tf t_tid].
  replace (s + 4020 + 56) with (s + 4076) by lia. by replace (s + 4020 + 68) with (s + 4088) by lia.
Qed.

Lemma kthread_create_nomem p j pr th start_func stack o k n :
  calm (k_lk k) n → lock_free Lptable (k_lk k) → kmem_ready k →
  k_proc k = Some p → k_procs k !! p = Some pr → p_threads pr = Some p →
  thread_at (p, j) k = Some th → t_state th = UNINIT → (j < NTHREAD)%nat →
  (∀ j', (j' < j)%nat → ∃ th', thread_at (p, j') k = Some th' ∧ t_state th' ≠ UNINIT) →
  km_freelist (k_kmem k) = 0 →
  kthread_create start_func stack o k =
    Ok 0 (set_k_nexttid (k_nexttid k + 1)
      (alter_thread (λ x, set_t_kstack 0 (set_t_tid (k_nexttid k) (set_t_tproc (Some p) x))) (p, j) k)) o.
Proof.
  intros Hc Hf Hr Hp Hpr Hth Hj Hs Hlt Hb Hks. unfold kthread_create.
  rewrite (bind_ok _ _ _ _ _ _ _ (myproc_calm _ _ _ Hc)), Hp. kacquire Hc Hf.
  unfold deref. mrun. kread Hpr. rewrite Hth. mrun.
  erewrite bind_ok; [|apply (find_uninit_found p j th); [exact Hj|exact Hs|exact Hlt|exact Hb]].
  unfold upd_thread. mrun. kproj. krelease Hc Hf.
  erewrite bind_ok; [|apply kalloc_eq; by apply (kmem_ready_ext k)]. kframe. rewrite Hks.
  unfold kalloced. kframe. rewrite Hks, Z.eqb_refl. mrun. unfold ret. f_equal.
  by autorewrite with kpush.
Qed.
End CreateSpec.

(** The first UNINIT slot of a row, if there is one. *)
Lemma uninit_cases k p :
  ptable_wf k → (p < NPROC)%nat →
  (∀ j, (j < NTHREAD)%nat → ∃ th, thread_at (p, j) k = Some th ∧ t_state th ≠ UNINIT) ∨
  (∃ j th, (j < NTHREAD)%nat ∧ thread_at (p, j) k = Some th ∧ t_state th = UNINIT ∧
     ∀ j', (j' < j)%nat → ∃ th', thread_at (p, j') k = Some th' ∧ t_state th' ≠ UNINIT).
Proof.
  intros Hwf Hp. destruct (lookup_lt_is_Some_2 (k_ttable k) p) as [ts Hts];
    [by rewrite (wf_ttable _ Hwf)|].
  pose proof (wf_rows _ Hwf _ _ Hts) as Hlen.
  assert (∀ j, thread_at (p, j) k = ts !! j) as Hat by (intros j; unfold thread_at; simpl; by rewrite Hts).
  destruct (list_find (λ th, t_state th = UNINIT) ts) as [[j th]|] eqn:E.
  - right. apply list_find_Some in E as (Hj & Hs & Hb). exists j, th.
    pose proof (lookup_lt_Some _ _ _ Hj). rewrite Hat. split_and!; [lia|done|done|].
    intros j' Hj'. rewrite Hat. destruct (lookup_lt_is_Some_2 ts j') as [th' Hth']; [lia|]. eauto.
  - left. apply list_find_None in E. intros j Hj. rewrite Hat.
    destruct (lookup_lt_is_Some_2 ts j) as [th Hth]; [lia|]. exists th. split; [done|].
    by apply (Forall_lookup_1 _ _ _ _ E Hth).
Qed.

Section CreateTheorem.
Context {ksyms : KSyms}.

(** kthread_create takes the first UNINIT slot of the process and a free
    page: the new thread is RUNNABLE under a fresh id, its trap frame is the
    creator's but for the entry point and the stack pointer, its saved context
    starts at forkret and returns to trapret, and no other thread, process,
    lock or byte outside the page changes.  With every slot in use it returns
    -1 and changes nothing; without a page it returns 0 and leaves the slot
    free. *)
Theorem kthread_create_spec p pr me th0 start_func stack ps o k n :
  ptable_wf k → calm (k_lk k) n → lock_free Lptable (k_lk k) → kmem_ready k → free_pages ps k →
  k_proc k = Some p → k_procs k !! p = Some pr → p_state pr = USED →
  k_thread k = Some me → thread_at me k = Some th0 → t_state th0 = RUNNING →
  (∀ q, q ∈ ps → t_tf th0 + 76 ≤ q ∨ q + 4096 ≤ t_tf th0) →
  (kthread_create start_func stack o k = Ok (-1) k o ∧
   ∀ j, (j < NTHREAD)%nat → ∃ th, thread_at (p, j) k = Some th ∧ t_state th ≠ UNINIT) ∨
  ∃ j th, thread_at (p, j) k = Some th ∧ t_state th = UNINIT ∧
    (∀ j', (j' < j)%nat → ∃ th', thread_at (p, j') k = Some th' ∧ t_state th' ≠ UNINIT) ∧
    match ps with
    | [] => ∃ k', kthread_create start_func stack o k = Ok 0 k' o ∧
                  t_state <$> thread_at (p, j) k' = Some UNINIT
    | s :: ps' => ∃ k', kthread_create start_func stack o k = Ok (k_nexttid k) k' o ∧
        thread_at (p, j) k' = Some (created_thread p s stack (k_nexttid k) th) ∧
        (∀ t, t ≠ (p, j) → thread_at t k' = thread_at t k) ∧
        k_procs k' = k_procs k ∧ k_lk k' = k_lk k ∧ k_nexttid k' = k_nexttid k + 1 ∧
        ld32 (k_mem k') (tf_eip (s + 4020)) = u32 start_func ∧
        ld32 (k_mem k') (tf_esp (s + 4020)) = u32 stack ∧
        (∀ i, 0 ≤ i < 76 → ¬ 56 ≤ i < 60 → ¬ 68 ≤ i < 72 →
           k_mem k' (s + 4020 + i) = k_mem k (t_tf th0 + i)) ∧
        ld32 (k_mem k') (ctx_eip (s + 3996)) = u32 sym_forkret ∧
        ld32 (k_mem k') (s + 3996 + 20) = u32 sym_trapret ∧
        (∀ x, x < s ∨ s + 4096 ≤ x → k_mem k' x = k_mem k x) ∧
        free_pages ps' k'
    end.
Proof.
  intros Hwf Hc Hf Hr Hfp Hp Hpr Hps Hme Hth0 Hrun Htf.
  assert (p_threads pr = Some p) as Hpt by (apply (wf_threads _ Hwf _ _ Hpr); congruence).
  pose proof (lookup_lt_Some _ _ _ Hpr) as Hlt. rewrite (wf_procs _ Hwf) in Hlt.
  destruct (uninit_cases k p Hwf Hlt) as [Hnone|(j & th & Hj & Hth & Hs & Hb)].
  - left. split; [|done]. unfold kthread_create.
    rewrite (bind_ok _ _ _ _ _ _ _ (myproc_calm _ _ _ Hc)), Hp. kacquire Hc Hf.
    unfold deref. mrun. kread Hpr. rewrite Hpt. mrun.
    erewrite bind_ok; [|apply find_uninit_none; exact Hnone]. mrun. krelease Hc Hf. by destruct k.
  - right. exists j, th. split_and!; [done..|].
    pose proof (free_pages_head _ _ Hfp) as Hhd. pose proof (kalloced_free_pages _ _ Hfp) as Hfp'.
    destruct ps as [|s ps]; simpl in Hhd, Hfp'.
    + rewrite (kthread_create_nomem p j pr th _ _ _ _ n) by done. eexists. split; [done|].
      rewrite thread_at_set_nexttid, thread_at_alter, decide_True, Hth by done. simpl. by rewrite Hs.
    + pose proof (fp_ok _ _ Hfp) as Hok. pose proof (fp_nodup _ _ Hfp) as Hnd.
      apply Forall_cons in Hok as [Hso Hok]. apply NoDup_cons in Hnd as [Hns _].
      assert (s ≠ 0) as Hs0 by (destruct Hso as (_ & _ & ? & _); unfold KERNBASE in *; lia).
      rewrite (kthread_create_eq p j pr th me th0 s _ _ _ _ n) by (done || (intros ->; congruence)).
      destruct (created_mem_frame s (t_tf th0) start_func stack (k_mem k)) as (H1 & H2 & H3 & H4 & H5);
        [apply Htf; set_solver|].
      eexists. split_and!; [done| | |done|done|done|exact H1|exact H2|exact H3|exact H4|exact H5| |].
      * unfold kpopped. autorewrite with kframe.
        by rewrite thread_at_alter, decide_True, thread_at_set_kmem, Hth by done.
      * intros t Ht. unfold kpopped. autorewrite with kframe.
        by rewrite thread_at_alter, decide_False by done.
      * intros x Hx. by apply created_mem_other.
      * unfold kalloced in Hfp'. rewrite Hhd, (proj2 (Z.eqb_neq _ _) Hs0) in Hfp'.
        apply (free_pages_ext _ (kpopped k)); [done|done| |done].
        intros q x Hq Hx. apply created_mem_other. rewrite Forall_forall in Hok.
        destruct (page_ok_apart _ _ _ Hso (Hok q Hq)); [set_solver|unfold PGSIZE in *; lia..].
Qed.
End CreateTheorem.

(** ** kthread_exit *)

Lemma wakeupThreads_wakeup1 ch : wakeupThreads ch = wakeup1 ch.
Proof. done. Qed.

Lemma is_last_eq cur base js last o k :
  (∀ j, j ∈ js → is_Some (thread_at (base, j) k)) →
  is_last cur base js last o k =
    Ok (last && forallb (λ j, match thread_at (base, j) k with
                              | Some th => negb (live_other (Some cur) (base, j) th)
                              | None => true end) js) k o.
Proof.
  revert last. induction js as [|j js IH]; intros last Hjs; simpl.
  - by rewrite andb_true_r.
  - destruct (Hjs j ltac:(set_solver)) as [th Hth]. rewrite Hth.
    rewrite (bind_ok _ _ _ _ _ _ _ (rd_thread_eq _ _ _ _ Hth)), IH by set_solver.
    by rewrite andb_assoc.
Qed.

Lemma is_last_false cur base j th o k :
  ptable_wf k → (base < NPROC)%nat → (j < NTHREAD)%nat → thread_at (base, j) k = Some th →
  live_other (Some cur) (base, j) th = true →
  is_last cur base (seq 0 NTHREAD) true o k = Ok false k o.
Proof.
  intros Hwf Hb Hj Hth Hl. rewrite is_last_eq.
  - f_equal. apply andb_false_iff. right. apply not_true_iff_false. rewrite forallb_forall.
    intros H. specialize (H j). rewrite Hth, Hl in H. assert (In j (seq 0 NTHREAD)) as Hin by (apply in_seq; lia).
    by specialize (H Hin).
  - intros x Hx. apply elem_of_seq in Hx. apply thread_at_wf; simpl; [done|done|lia].
Qed.

(** The state in which a thread that exits leaves the CPU for good. *)
Definition exited (u : tslot) (k : kernel) : kernel :=
  alter_thread (set_t_state TERMINATED) u
    (wake_all (ChThread u) (set_k_lk (lk_acquire Lptable (k_lk k)) k)).

Lemma kthread_exit_eq u th p pr j th' o k :
  ptable_wf k → calm (k_lk k) 0 → lock_free Lptable (k_lk k) →
  k_thread k = Some u → thread_at u k = Some th → t_tproc th = Some p →
  k_procs k !! p = Some pr → p_threads pr = Some p →
  (j < NTHREAD)%nat → thread_at (p, j) k = Some th' → live_other (Some u) (p, j) th' = true →
  kthread_exit o k =
    bind (offcpu u) (λ _, set_intena (c_intena (cpu_self (exited u k))) ;;; panic "terminated exit")%K
      o (exited u k).
Proof.
  intros Hwf Hc Hf Hu Hth Hp Hpr Hpt Hj Hth' Hl. unfold kthread_exit.
  rewrite (bind_ok _ _ _ _ _ _ _ (mythread_calm _ _ _ Hc)), Hu. kacquire Hc Hf.
  unfold deref. mrun. kread Hth. rewrite Hp. mrun. kread Hpr. rewrite Hpt. mrun.
  pose proof (lookup_lt_Some _ _ _ Hpr) as Hlt. rewrite (wf_procs _ Hwf) in Hlt.
  assert (ptable_wf (set_k_lk (lk_acquire Lptable (k_lk k)) k)) as Hwf1 by (by apply ptable_wf_set_lk).
  erewrite bind_ok; [|apply (is_last_false u p j th'); [exact Hwf1|done..]]. mrun.
  rewrite wakeupThreads_wakeup1, (bind_ok _ _ _ _ _ _ _ (wakeup1_eq _ _ _ Hwf1)).
  unfold upd_thread. mrun. fold (exited u k).
  assert (∃ th1, thread_at u (exited u k) = Some th1 ∧ t_state th1 = TERMINATED) as (th1 & H1 & H2).
  { unfold exited. rewrite thread_at_alter, decide_True, wake_all_at by done. autorewrite with kframe.
    rewrite Hth. repeat case_match; by eexists. }
  unfold bind at 1.
  rewrite (sched_eq o (exited u k) (k_lk k) u th1); [|done|done| | |done|by rewrite H2].
  - unfold bind. destruct (offcpu u o (exited u k)); [|done..].
    by destruct (set_intena _ _ _).
  - unfold exited. autorewrite with kframe. by rewrite wake_all_lk.
  - unfold exited. autorewrite with kframe. by rewrite wake_all_frame.
Qed.

(** A scheduler picks thread [u]; it returns to user space and exits. *)
Definition others_exit (u : tslot) (k : kernel) : kernel :=
  final ((dispatch (fst u) u ;;; release Lptable ;;; kthread_exit) [] k)%K.

Lemma others_exit_eq u th pr j th' k K :
  ptable_wf k → calm K 0 → lock_free Lptable K → k_lk k = lk_acquire Lptable K →
  thread_at u k = Some th → t_tproc th = Some (fst u) → t_kstack th ≠ 0 →
  k_procs k !! fst u = Some pr → p_state pr = USED → p_pgdir pr ≠ 0 →
  (j < NTHREAD)%nat → thread_at (fst u, j) k = Some th' → live_other (Some u) (fst u, j) th' = true →
  others_exit u k = exited u (set_k_lk K (dispatched (fst u) u th pr k)).
Proof.
  intros Hwf Hc Hf Hk Hth Hp Hks Hpr Hps Hpg Hj Hth' Hl. unfold others_exit.
  rewrite (bind_ok _ _ _ _ _ _ _ (dispatch_eq (fst u) u [] k 1 th pr
    ltac:(rewrite Hk; by apply (calm_acquire Lptable K 0)) Hth Hks Hpr Hpg)).
  erewrite bind_ok; [|by apply (release_k Lptable _ _ K 0)].
  assert ((fst u, j) ≠ u) as Hne.
  { intros E. unfold live_other in Hl. rewrite E, bool_decide_true in Hl by done. done. }
  rewrite (kthread_exit_eq u (set_t_state RUNNING th) (fst u) pr j th'); try done.
  - apply ptable_wf_set_lk. unfold dispatched. apply ptable_wf_alter_thread.
    by apply (ptable_wf_ext k).
  - by rewrite thread_at_set_k_lk, thread_at_dispatched, decide_True, Hth by done.
  - by apply (wf_threads _ Hwf _ _ Hpr); rewrite Hps.
  - by rewrite thread_at_set_k_lk, thread_at_dispatched, decide_False, Hth' by done.
Qed.

(** ** kthread_join *)

Lemma find_tid_found tid base j th o k :
  thread_at (base, j) k = Some th → t_tid th = tid → (j < NTHREAD)%nat →
  (∀ j', (j' < j)%nat → ∃ th', thread_at (base, j') k = Some th' ∧ t_tid th' ≠ tid) →
  find_tid tid base (seq 0 NTHREAD) o k = Ok (base, j) k o.
Proof.
  intros Hj Hs Hlt Hb. replace NTHREAD with (j + S (NTHREAD - S j))%nat by lia.
  rewrite seq_app. clear Hlt. simpl.
  assert (∀ js, (∀ j', j' ∈ js → (j' < j)%nat) →
    find_tid tid base (js ++ j :: seq (S j) (NTHREAD - S j)) o k = Ok (base, j) k o) as H.
  { induction js as [|x js IH]; intros Hjs; simpl.
    - rewrite (bind_ok _ _ _ _ _ _ _ (rd_thread_eq _ _ _ _ Hj)). by rewrite Hs, Z.eqb_refl.
    - destruct (Hb x) as (th' & Hx & Hsx); [apply Hjs; set_solver|].
      rewrite (bind_ok _ _ _ _ _ _ _ (rd_thread_eq _ _ _ _ Hx)).
      rewrite (proj2 (Z.eqb_neq _ _)) by done. apply IH. set_solver. }
  apply H. intros j' Hj'. apply elem_of_seq in Hj'. lia.
Qed.

(** The wait of kthread_join, and what follows it. *)
Definition join_wait (u : tslot) : KM unit :=
  while_wait
    (let! th := rd_thread u in ret (negb (bool_decide (t_state th = TERMINATED))))
    (sleep (ChThread u) Lptable).
Definition join_reap (u : tslot) : KM Z :=
  let! th := rd_thread u in
  kfree (t_kstack th) ;;;
  upd_thread u (set_t_kstack 0) ;;;
  upd_thread u (set_t_state UNINIT) ;;;
  release Lptable ;;;
  ret 0.

Lemma join_wait_unfold u th o k :
  thread_at u k = Some th →
  join_wait u o k =
    if decide (t_state th = TERMINATED) then Ok tt k o
    else bind (sleep (ChThread u) Lptable) (λ _, join_wait u) o k.
Proof.
  intros Hth. unfold join_wait at 1.
  rewrite while_wait_unfold; [|shrink|intros; by eapply waits_sleep].
  rewrite bind_assoc, (bind_ok _ _ _ _ _ _ _ (rd_thread_eq _ _ _ _ Hth)). mrun.
  by case_decide; [rewrite bool_decide_true|rewrite bool_decide_false].
Qed.

Lemma join_reap_eq u th ps o k K n :
  calm K n → n < 999999 → lock_free Lptable K → lock_free Lkmem K → k_lk k = lk_acquire Lptable K →
  thread_at u k = Some th → page_ok (k_end k) (t_kstack th) → free_pages ps k → t_kstack th ∉ ps →
  ∃ k', join_reap u o k = Ok 0 k' o ∧ k_lk k' = K ∧ k_thread k' = k_thread k ∧
    k_procs k' = k_procs k ∧
    free_pages (t_kstack th :: ps) k' ∧
    (∀ t, thread_at t k' = if decide (u = t) then Some (set_t_state UNINIT (set_t_kstack 0 th))
                           else thread_at t k).
Proof.
  intros Hc Hn Hf Hfm Hk Hth Hok Hfp Hnin. unfold join_reap.
  rewrite (bind_ok _ _ _ _ _ _ _ (rd_thread_eq _ _ _ _ Hth)).
  assert (kmem_ready k) as Hr.
  { right. rewrite Hk. split; [eexists; by apply calm_acquire|by apply lock_free_acquire_ne]. }
  rewrite (bind_ok _ _ _ _ _ _ _ (kfree_eq _ _ _ Hok Hr)). unfold upd_thread. mrun.
  erewrite bind_ok; [|by apply (release_k Lptable _ _ K n)].
  eexists. split_and!; [done|done|done|done| |].
  - apply (free_pages_ext _ (kfreed (t_kstack th) k)); [done..|]. by apply kfreed_free_pages.
  - intros t. rewrite thread_at_set_k_lk, !thread_at_alter. unfold kfreed. autorewrite with kframe.
    case_decide; [|done]. subst. by rewrite Hth.
Qed.

Lemma kthread_join_enters p j me th thu pr o k n :
  calm (k_lk k) n → lock_free Lptable (k_lk k) → k_proc k = Some p → k_procs k !! p = Some pr →
  p_threads pr = Some p → k_thread k = Some me → thread_at me k = Some th → t_tid th ≠ t_tid thu →
  thread_at (p, j) k = Some thu → t_state thu ≠ UNINIT → (j < NTHREAD)%nat →
  (∀ j', (j' < j)%nat → ∃ th', thread_at (p, j') k = Some th' ∧ t_tid th' ≠ t_tid thu) →
  kthread_join (t_tid thu) o k =
    bind (join_wait (p, j)) (λ _, join_reap (p, j)) o (set_k_lk (lk_acquire Lptable (k_lk k)) k).
Proof.
  intros Hc Hf Hp Hpr Hpt Ht Hth Htid Hu Hus Hj Hb. unfold kthread_join.
  rewrite (bind_ok _ _ _ _ _ _ _ (myproc_calm _ _ _ Hc)), Hp.
  rewrite (bind_ok _ _ _ _ _ _ _ (mythread_calm _ _ _ Hc)), Ht. unfold deref. mrun. kread Hth.
  rewrite (proj2 (Z.eqb_neq _ _) Htid). kacquire Hc Hf. mrun. kread Hpr. rewrite Hpt. mrun.
  erewrite bind_ok; [|apply (find_tid_found _ p j thu); [exact Hu|done|done|exact Hb]].
  kread Hu. rewrite Z.eqb_refl. mrun. by rewrite decide_False.
Qed.

(** [C38] The join/exit handshake: kthread_join of a live thread of the process
    sleeps; when that thread calls kthread_exit the joiner is woken, frees the
    kernel stack of the ended thread, makes its slot UNINIT again and returns 0,
    with every lock as before the call. *)
Theorem kthread_join_exit p i j th thu pr ps o k :
  ptable_wf k → calm (k_lk k) 0 → lock_free Lptable (k_lk k) → lock_free Lkmem (k_lk k) →
  free_pages ps k → k_proc k = Some p → k_procs k !! p = Some pr → p_state pr = USED →
  p_pgdir pr ≠ 0 → k_thread k = Some (p, i) → thread_at (p, i) k = Some th →
  t_kstack th ≠ 0 → i ≠ j → (i < NTHREAD)%nat → (j < NTHREAD)%nat →
  thread_at (p, j) k = Some thu → t_state thu = RUNNABLE → t_tproc thu = Some p →
  page_ok (k_end k) (t_kstack thu) → t_kstack thu ∉ ps → t_tid th ≠ t_tid thu →
  (∀ j', (j' < j)%nat → ∃ th', thread_at (p, j') k = Some th' ∧ t_tid th' ≠ t_tid thu) →
  ∃ k', kthread_join (t_tid thu) (others_exit (p, j) :: o) k = Ok 0 k' o ∧
    k_lk k' = k_lk k ∧ k_thread k' = Some (p, i) ∧
    thread_at (p, i) k' = Some (set_t_chan None (set_t_state RUNNING th)) ∧
    t_state <$> thread_at (p, j) k' = Some UNINIT ∧
    free_pages (t_kstack thu :: ps) k'.
Proof.
  intros Hwf Hc Hf Hfm Hfp Hp Hpr Hps Hpg Ht Hth Hks Hij Hi Hj Hu Hus Hup Hok Hnin Htid Hb.
  assert (p_threads pr = Some p) as Hpt by (apply (wf_threads _ Hwf _ _ Hpr); congruence).
  set (K := k_lk k) in *. set (u := (p, j)) in *. set (t := (p, i)) in *.
  assert (t ≠ u) as Htu by (unfold t, u; congruence).
  set (k0 := set_k_lk (lk_acquire Lptable K) k).
  rewrite (kthread_join_enters p j t th thu pr _ k 0) by (done || congruence). fold K k0 u.
  (* asleep, the other thread exits, resumed *)
  set (k1 := asleep (ChThread u) t K k0).
  assert (ptable_wf k1) as Hwf1 by (by apply ptable_wf_asleep, ptable_wf_set_lk).
  assert (∀ x, thread_at x k1 = if decide (t = x)
            then Some (set_t_state SLEEPING (set_t_chan (Some (ChThread u)) th)) else thread_at x k) as Hat1.
  { intros x. unfold k1. rewrite thread_at_asleep. unfold k0. rewrite thread_at_set_k_lk.
    repeat case_decide; subst; try done. by rewrite Hth. }
  set (k2 := set_k_lk K (dispatched p u thu pr k1)).
  assert (others_exit u k1 = exited u k2) as Hoe.
  { apply (others_exit_eq u thu pr i (set_t_state SLEEPING (set_t_chan (Some (ChThread u)) th)));
      try done; [by rewrite Hat1, decide_False| |by rewrite Hat1, decide_True|].
    - destruct Hok as (_ & _ & ? & _). unfold KERNBASE in *. lia.
    - unfold live_other, u. simpl. by rewrite !bool_decide_false by congruence. }
  assert (ptable_wf (set_k_lk (lk_acquire Lptable K) k2)) as Hwf2.
  { apply ptable_wf_set_lk, ptable_wf_set_lk, ptable_wf_alter_thread. by apply (ptable_wf_ext k1). }
  assert (∀ x, fst x = p → thread_at x (wake_all (ChThread u) (set_k_lk (lk_acquire Lptable K) k2)) =
    wake_thread (ChThread u) <$> (if decide (u = x) then set_t_state RUNNING <$> thread_at x k1
                                  else thread_at x k1)) as Hw.
  { intros x Hx. rewrite wake_all_at, Hx by done. kproj.
    change (k_procs k2) with (k_procs k). rewrite Hpr, decide_False by congruence.
    unfold k2. by rewrite !thread_at_set_k_lk, thread_at_dispatched. }
  assert (thread_at u (exited u k2) = Some (set_t_state TERMINATED thu)) as Hu2.
  { unfold exited. rewrite thread_at_alter, decide_True, Hw, decide_True, Hat1, decide_False by done.
    rewrite Hu. simpl. unfold wake_thread, sleeping_on. by destruct thu. }
  assert (thread_at t (exited u k2) =
          Some (set_t_state RUNNABLE (set_t_chan (Some (ChThread u)) th))) as Ht2.
  { unfold exited. rewrite thread_at_alter, decide_False, Hw, decide_False, Hat1, decide_True by done.
    simpl. unfold wake_thread, sleeping_on. simpl. by rewrite !bool_decide_true. }
  set (k3 := resumed t Lptable K (set_t_state RUNNABLE (set_t_chan (Some (ChThread u)) th)) pr (exited u k2)).
  assert (sleep (ChThread u) Lptable (others_exit u :: o) k0 = Ok tt k3 o) as Hsl.
  { unfold k3. rewrite <- Hoe. apply (sleep_resumes _ _ _ _ k0 K t th); try done;
      fold k1; rewrite Hoe; [|done|]; unfold exited.
    - autorewrite with kframe. by rewrite wake_all_lk.
    - autorewrite with kframe. by rewrite wake_all_procs. }
  assert (thread_at u k3 = Some (set_t_state TERMINATED thu)) as Hu3.
  { unfold k3. by rewrite thread_at_resumed, decide_False, Hu2 by done. }
  unfold bind at 1. rewrite (join_wait_unfold u thu), decide_False by (done || congruence).
  rewrite (bind_ok _ _ _ _ _ _ _ Hsl), (join_wait_unfold u _ _ _ Hu3), decide_True by done.
  assert (k_end k3 = k_end k ∧ k_kmem k3 = k_kmem k ∧ k_mem k3 = k_mem k) as (He & Hm & Hmm).
  { unfold k3, exited. rewrite wake_all_frame. done. }
  destruct (join_reap_eq u (set_t_state TERMINATED thu) ps o k3 K 0) as (k' & H1 & H2 & H3 & _ & H4 & H5);
    try done.
  - by rewrite He.
  - apply (free_pages_ext _ k); [done..| |done]. intros. by rewrite Hmm.
  - exists k'. rewrite H1, H3, !H5, decide_False, decide_True by done. split_and!; try done.
    unfold k3. rewrite thread_at_resumed, decide_True, Ht2 by done. by destruct th.
Qed.

(** ** Witnesses *)

#[local] Instance demo_syms : KSyms :=
  {| sym_trapret := 0x80105b00; sym_forkret := 0x80103e00;
     sym_initcode_start := 0x8010b460; sym_initcode_size := 44 |}.

(** The threads of process 0 with stacks apart from the free pages; thread 1
    is ready. *)
Definition demo_threads (k : kernel) : kernel :=
  alter_thread (λ _, Kthread 0x80500000 0 RUNNING 1 (Some 0%nat) 0x80500FB4 0x80500F9C None 0) (0, 0)%nat
    (alter_thread (λ _, Kthread 0x80501000 0 RUNNABLE 2 (Some 0%nat) 0x80501FB4 0x80501F9C None 0) (0, 1)%nat k).

Lemma demo_threads_wf k : ptable_wf k → ptable_wf (demo_threads k).
Proof. intros H. by do 2 apply ptable_wf_alter_thread. Qed.

Definition demo_create : kernel :=
  demo_threads (set_k_kmem (k_kmem demo_pages) (set_k_mem (k_mem demo_pages) demo_kernel)).

Lemma demo_create_wf : ptable_wf demo_create.
Proof. apply demo_threads_wf. by apply (ptable_wf_ext demo_kernel); [..|exact demo_kernel_wf]. Qed.

Lemma demo_create_free : free_pages [0x80400000; 0x80401000; 0x80402000] demo_create.
Proof.
  unfold demo_create. generalize demo_free_pages. assert (k_end demo_pages = k_end demo_kernel) as He.
  { unfold demo_pages, kfreed, demo_kernel. kproj. reflexivity. }
  generalize dependent demo_pages. intros k He Hk.
  apply (free_pages_ext _ k); [reflexivity|symmetry; exact He|reflexivity|exact Hk].
Qed.

Lemma kthread_create_spec_witness :
  ∃ k', kthread_create 0x1000 0x3000 [] demo_create = Ok 1 k' [] ∧
        t_state <$> thread_at (0, 2)%nat k' = Some RUNNABLE.
Proof.
  destruct (kthread_create_spec 0 (demo_proc 1 0) (0, 0)%nat
              (Kthread 0x80500000 0 RUNNING 1 (Some 0%nat) 0x80500FB4 0x80500F9C None 0)
              0x1000 0x3000 [0x80400000; 0x80401000; 0x80402000] [] demo_create 0
              demo_create_wf boot_lks_calm ltac:(boot_free)
              (or_introl eq_refl) demo_create_free eq_refl eq_refl eq_refl eq_refl eq_refl eq_refl)
    as [[_ H]|(j & th & Hj & Hs & Hb & k' & H & Hn & _)].
  - intros q Hq. right. rewrite !elem_of_cons, elem_of_nil in Hq. simpl. lia.
  - destruct (H 2%nat ltac:(rewrite NTHREAD_eq; lia)) as (th & Hth & Hne).
    exfalso. apply Hne. injection Hth as <-. reflexivity.
  - destruct j as [|[|[|j]]];
      [injection Hj as <-; discriminate Hs|injection Hj as <-; discriminate Hs| |].
    + exists k'. split; [exact H|]. rewrite Hn. reflexivity.
    + destruct (Hb 2%nat ltac:(lia)) as (th' & Hth & Hne).
      exfalso. apply Hne. injection Hth as <-. reflexivity.
Defined.

Definition demo_join : kernel := demo_threads demo_kernel.

Lemma demo_join_free : free_pages [] demo_join.
Proof. split; [reflexivity|constructor|constructor]. Qed.

Lemma kthread_join_exit_witness :
  ∃ k', kthread_join 2 [others_exit (0, 1)%nat] demo_join = Ok 0 k' [] ∧
        free_pages [0x80501000] k'.
Proof.
  destruct (kthread_join_exit 0 0 1
              (Kthread 0x80500000 0 RUNNING 1 (Some 0%nat) 0x80500FB4 0x80500F9C None 0)
              (Kthread 0x80501000 0 RUNNABLE 2 (Some 0%nat) 0x80501FB4 0x80501F9C None 0)
              (demo_proc 1 0) [] [] demo_join
              (demo_threads_wf _ demo_kernel_wf) boot_lks_calm ltac:(boot_free) ltac:(boot_free)
              demo_join_free eq_refl eq_refl eq_refl ltac:(discriminate) eq_refl eq_refl
              ltac:(discriminate) ltac:(discriminate) ltac:(rewrite NTHREAD_eq; lia)
              ltac:(rewrite NTHREAD_eq; lia) eq_refl eq_refl eq_refl)
    as (k' & H & _ & _ & _ & _ & Hfp).
  - split; [reflexivity|]. split; [discriminate|]. split; [discriminate|reflexivity].
  - apply not_elem_of_nil.
  - discriminate.
  - intros j' Hj'. destruct j' as [|j']; [|lia].
    exists (Kthread 0x80500000 0 RUNNING 1 (Some 0%nat) 0x80500FB4 0x80500F9C None 0).
    split; [reflexivity|discriminate].
  - exists k'. split; [exact H|exact Hfp].
Defined.
