(* ===== verification/Asm.v ===== *)
(** * The assembly routines

    [swtch.S], [trapasm.S], the stubs that [vectors.pl] and [usys.S] make, and the
    start of [initcode.S], as programs of a small x86: the general registers, the
    segment registers, the instruction pointer and the flags, memory, and the
    descriptor tables of [X86].  Where the assembler puts an instruction is a
    parameter: [fetch a] is the instruction at address [a] and the address of the
    next.  Interrupts follow the processor manual: the gate, the change of stack
    through the task state segment when the level changes, and the words pushed.

    C functions appear where the code calls them: a theorem takes any state the
    function can return in ([returned]).  A segment register is pushed as the
    current processors do it, as 16 bits that leave the upper half of the word. *)

From S2P Require Import Prelude Defs X86 Spinlock CString Kernel Sched Kalloc Vm Sleeplock Bytes Bio Log Fs Pipe File Proc Kthread.

(** ** The machine *)

Inductive reg := EAX | ECX | EDX | EBX | ESP | EBP | ESI | EDI.
Inductive sreg := DS | ES | FS | GS.

Record gprs := Gprs { r_eax : Z; r_ecx : Z; r_edx : Z; r_ebx : Z; r_esp : Z; r_ebp : Z; r_esi : Z; r_edi : Z }.
Record segs := Segs { s_ds : Z; s_es : Z; s_fs : Z; s_gs : Z }.

Record machine := Machine {
  m_regs : gprs; m_segs : segs; m_cs : Z; m_ss : Z; m_eip : Z; m_eflags : Z; m_mem : memory;
  m_idtr : Z; m_gdtr : Z; m_ss0 : Z; m_esp0 : Z  (* of the task state segment *)
}.

Definition rget (r : reg) (g : gprs) : Z :=
  match r with
  | EAX => r_eax g | ECX => r_ecx g | EDX => r_edx g | EBX => r_ebx g
  | ESP => r_esp g | EBP => r_ebp g | ESI => r_esi g | EDI => r_edi g
  end.
Definition rset (r : reg) (v : Z) (g : gprs) : gprs :=
  let '(Gprs a c d b sp bp si di) := g in
  match r with
  | EAX => Gprs v c d b sp bp si di | ECX => Gprs a v d b sp bp si di
  | EDX => Gprs a c v b sp bp si di | EBX => Gprs a c d v sp bp si di
  | ESP => Gprs a c d b v bp si di | EBP => Gprs a c d b sp v si di
  | ESI => Gprs a c d b sp bp v di | EDI => Gprs a c d b sp bp si v
  end.
Definition sget (r : sreg) (s : segs) : Z :=
  match r with DS => s_ds s | ES => s_es s | FS => s_fs s | GS => s_gs s end.
Definition sset (r : sreg) (v : Z) (s : segs) : segs :=
  let '(Segs d e f g) := s in
  match r with DS => Segs v e f g | ES => Segs d v f g | FS => Segs d e v g | GS => Segs d e f v end.

Definition with_regs (g : gprs) (m : machine) : machine :=
  Machine g (m_segs m) (m_cs m) (m_ss m) (m_eip m) (m_eflags m) (m_mem m) (m_idtr m) (m_gdtr m) (m_ss0 m) (m_esp0 m).
Definition with_segs (s : segs) (m : machine) : machine :=
  Machine (m_regs m) s (m_cs m) (m_ss m) (m_eip m) (m_eflags m) (m_mem m) (m_idtr m) (m_gdtr m) (m_ss0 m) (m_esp0 m).
Definition with_mem (mm : memory) (m : machine) : machine :=
  Machine (m_regs m) (m_segs m) (m_cs m) (m_ss m) (m_eip m) (m_eflags m) mm (m_idtr m) (m_gdtr m) (m_ss0 m) (m_esp0 m).
Definition with_eip (a : Z) (m : machine) : machine :=
  Machine (m_regs m) (m_segs m) (m_cs m) (m_ss m) a (m_eflags m) (m_mem m) (m_idtr m) (m_gdtr m) (m_ss0 m) (m_esp0 m).
Definition with_cs (cs : Z) (m : machine) : machine :=
  Machine (m_regs m) (m_segs m) cs (m_ss m) (m_eip m) (m_eflags m) (m_mem m) (m_idtr m) (m_gdtr m) (m_ss0 m) (m_esp0 m).
Definition with_ss (ss : Z) (m : machine) : machine :=
  Machine (m_regs m) (m_segs m) (m_cs m) ss (m_eip m) (m_eflags m) (m_mem m) (m_idtr m) (m_gdtr m) (m_ss0 m) (m_esp0 m).
Definition with_eflags (f : Z) (m : machine) : machine :=
  Machine (m_regs m) (m_segs m) (m_cs m) (m_ss m) (m_eip m) f (m_mem m) (m_idtr m) (m_gdtr m) (m_ss0 m) (m_esp0 m).

Definition reg_of (r : reg) (m : machine) : Z := rget r (m_regs m).
Definition to_reg (r : reg) (v : Z) (m : machine) : machine := with_regs (rset r v (m_regs m)) m.
Definition to_seg (r : sreg) (v : Z) (m : machine) : machine := with_segs (sset r v (m_segs m)) m.

Definition ld16 (m : memory) (a : Z) : Z := m a + 256 * m (a + 1).
Definition st16 (m : memory) (a v : Z) : memory := st8 (st8 m a v) (a + 1) (v / 256).

Definition push (v : Z) (m : machine) : machine :=
  let sp := u32 (reg_of ESP m - 4) in with_mem (st32 (m_mem m) sp v) (to_reg ESP sp m).
Definition push16 (v : Z) (m : machine) : machine :=
  let sp := u32 (reg_of ESP m - 4) in with_mem (st16 (m_mem m) sp v) (to_reg ESP sp m).
Definition top (m : machine) : Z := ld32 (m_mem m) (reg_of ESP m).
Definition drop_words (n : Z) (m : machine) : machine := to_reg ESP (u32 (reg_of ESP m + 4 * n)) m.
Definition cpl (m : machine) : Z := m_cs m `mod` 4.

(** ** Interrupts *)

(** Interrupt or exception [n], with the error code that some exceptions push;
    [soft] when the [int] instruction asks for it. *)
Definition deliver (n : Z) (err : option Z) (soft : bool) (m : machine) : option machine :=
  match gate_at (m_mem m) (m_idtr m) n with
  | None => None
  | Some g =>
      match seg_at (m_mem m) (m_gdtr m) (g_sel g / 8) with
      | None => None
      | Some s =>
          if (soft && (g_dpl g <? cpl m)) || (cpl m <? sg_dpl s) then None
          else
            let m1 := if sg_dpl s <? cpl m
                      then push (reg_of ESP m) (push (m_ss m) (with_ss (m_ss0 m) (to_reg ESP (m_esp0 m) m)))
                      else m in
            let m2 := push (m_eip m) (push (m_cs m) (push (m_eflags m) m1)) in
            let m3 := match err with Some e => push e m2 | None => m2 end in
            Some (with_eip (g_off g) (with_cs (g_sel g / 8 * 8 + sg_dpl s)
                   (if g_trap g then m3 else with_eflags (Z.land (m_eflags m) (Z.lnot FL_IF)) m3)))
      end
  end.

Definition iret (m : machine) : machine :=
  let eip := top m in
  let cs := ld16 (m_mem m) (u32 (reg_of ESP m + 4)) in
  let fl := ld32 (m_mem m) (u32 (reg_of ESP m + 8)) in
  let m1 := with_eip eip (with_cs cs (with_eflags fl (drop_words 3 m))) in
  if cpl m <? cs `mod` 4 then
    with_ss (ld16 (m_mem m) (u32 (reg_of ESP m + 16)))
      (to_reg ESP (ld32 (m_mem m) (u32 (reg_of ESP m + 12))) m1)
  else m1.

(** ** Instructions *)

Inductive instr :=
| MovLoad (off : Z) (base dst : reg)   (* movl off(base), dst *)
| MovStore (src base : reg)            (* movl src, (base) *)
| MovReg (src dst : reg)
| MovImm (v : Z) (dst : reg)
| MovImm16 (v : Z) (dst : reg)         (* movw $v, the low half of dst *)
| MovSeg (src : reg) (dst : sreg)
| PushReg (r : reg) | PushImm (v : Z) | PushSeg (r : sreg) | Pushal
| PopReg (r : reg) | PopSeg (r : sreg) | Popal
| AddImm (v : Z) (dst : reg)
| Jmp (a : Z) | Call (a : Z) | Ret | Iret | Int (n : Z).

(** What an instruction does that goes on to the next one. *)
Definition effect (m : machine) (i : instr) : machine :=
  match i with
  | MovLoad off base dst => to_reg dst (ld32 (m_mem m) (u32 (reg_of base m + off))) m
  | MovStore src base => with_mem (st32 (m_mem m) (reg_of base m) (reg_of src m)) m
  | MovReg src dst => to_reg dst (reg_of src m) m
  | MovImm v dst => to_reg dst (u32 v) m
  | MovImm16 v dst => to_reg dst (reg_of dst m / 65536 * 65536 + u16 v) m
  | MovSeg src dst => to_seg dst (u16 (reg_of src m)) m
  | PushReg r => push (reg_of r m) m
  | PushImm v => push v m
  | PushSeg r => push16 (sget r (m_segs m)) m
  | Pushal =>
      push (reg_of EDI m) (push (reg_of ESI m) (push (reg_of EBP m) (push (reg_of ESP m)
        (push (reg_of EBX m) (push (reg_of EDX m) (push (reg_of ECX m) (push (reg_of EAX m) m)))))))
  | PopReg r => to_reg r (top m) (drop_words 1 m)
  | PopSeg r => to_seg r (ld16 (m_mem m) (reg_of ESP m)) (drop_words 1 m)
  | Popal =>
      let w i := ld32 (m_mem m) (u32 (reg_of ESP m + 4 * i)) in
      to_reg EDI (w 0) (to_reg ESI (w 1) (to_reg EBP (w 2)
        (to_reg EBX (w 4) (to_reg EDX (w 5) (to_reg ECX (w 6) (to_reg EAX (w 7) (drop_words 8 m)))))))
  | AddImm v dst => to_reg dst (u32 (reg_of dst m + v)) m
  | Jmp _ | Call _ | Ret | Iret | Int _ => m
  end.

(** One instruction, where [next] is the address of the following one; [None] is
    a fault. *)
Definition do_instr (i : instr) (next : Z) (m : machine) : option machine :=
  let m := with_eip next m in
  match i with
  | Jmp a => Some (with_eip a m)
  | Call a => Some (with_eip a (push next m))
  | Ret => Some (with_eip (top m) (drop_words 1 m))
  | Iret => Some (iret m)
  | Int n => deliver n None true m
  | _ => Some (effect m i)
  end.

Section Run.
Context (fetch : Z → option (instr * Z)).

Definition step (m : machine) : option machine :=
  match fetch (m_eip m) with Some (i, next) => do_instr i next m | None => None end.
Fixpoint run (n : nat) (m : machine) : option machine :=
  match n with O => Some m | S n' => match step m with Some m' => run n' m' | None => None end end.

(** The instructions [l] are at address [a]; the code after them at [b]. *)
Fixpoint placed (a : Z) (l : list instr) (b : Z) : Prop :=
  match l with
  | [] => a = b
  | i :: l' => ∃ next, fetch a = Some (i, next) ∧ placed next l' b
  end.
End Run.

(** ** The sources *)

(** swtch.S *)
Definition swtch : list instr :=
  [MovLoad 4 ESP EAX; MovLoad 8 ESP EDX;
   PushReg EBP; PushReg EBX; PushReg ESI; PushReg EDI;
   MovStore ESP EAX; MovReg EDX ESP;
   PopReg EDI; PopReg ESI; PopReg EBX; PopReg EBP; Ret].

(** trapasm.S, where [trap] is the address of the C function *)
Definition alltraps (trap : Z) : list instr :=
  [PushSeg DS; PushSeg ES; PushSeg FS; PushSeg GS; Pushal;
   MovImm16 (Z.shiftl SEG_KDATA 3) EAX; MovSeg EAX DS; MovSeg EAX ES;
   PushReg ESP; Call trap; AddImm 4 ESP].
Definition trapret : list instr :=
  [Popal; PopSeg GS; PopSeg FS; PopSeg ES; PopSeg DS; AddImm 8 ESP; Iret].

(** vectors.pl: vector [i], which pushes 0 where the processor pushes no error code *)
Definition has_errcode (i : Z) : bool := (i =? 8) || ((10 <=? i) && (i <=? 14)) || (i =? 17).
Definition vector (alltraps i : Z) : list instr :=
  (if negb (has_errcode i) then [PushImm 0] else []) ++ [PushImm i; Jmp alltraps].

(** usys.S: the macro SYSCALL, for the number of a system call *)
Definition usys_stub (num : Z) : list instr := [MovImm num EAX; Int T_SYSCALL; Ret].

(** initcode.S: start, and the loop at exit *)
Definition SYS_exit : Z := 2.
Definition SYS_exec : Z := 7.
Definition initcode_start (init argv : Z) : list instr :=
  [PushImm argv; PushImm init; PushImm 0; MovImm SYS_exec EAX; Int T_SYSCALL].
Definition initcode_exit (exit : Z) : list instr := [MovImm SYS_exit EAX; Int T_SYSCALL; Jmp exit].

(** ** Straight-line code *)

(** The instructions that go on to the next one. *)
Definition straight (i : instr) : bool :=
  match i with Jmp _ | Call _ | Ret | Iret | Int _ => false | _ => true end.

Lemma push_eip e v m : push v (with_eip e m) = with_eip e (push v m).
Proof. done. Qed.
Lemma push16_eip e v m : push16 v (with_eip e m) = with_eip e (push16 v m).
Proof. done. Qed.
Lemma to_reg_eip e r v m : to_reg r v (with_eip e m) = with_eip e (to_reg r v m).
Proof. done. Qed.
Lemma to_seg_eip e r v m : to_seg r v (with_eip e m) = with_eip e (to_seg r v m).
Proof. done. Qed.
Lemma drop_words_eip e n m : drop_words n (with_eip e m) = with_eip e (drop_words n m).
Proof. done. Qed.
Lemma reg_of_eip e r m : reg_of r (with_eip e m) = reg_of r m.
Proof. done. Qed.

(** The instruction pointer plays no part in it. *)
Lemma effect_eip i e m : effect (with_eip e m) i = with_eip e (effect m i).
Proof.
  destruct i; cbn [effect]; rewrite ?reg_of_eip, ?drop_words_eip, ?push_eip, ?push16_eip, ?to_reg_eip, ?to_seg_eip; done.
Qed.
Lemma effects_eip l e m : foldl effect (with_eip e m) l = with_eip e (foldl effect m l).
Proof. revert m. induction l as [|i l IH]; intros m; [done|]. cbn. by rewrite effect_eip, IH. Qed.
Lemma do_straight i next m : straight i = true → do_instr i next m = Some (with_eip next (effect m i)).
Proof. intros H. rewrite <- effect_eip. by destruct i. Qed.

Section RunLemmas.
Context (fetch : Z → option (instr * Z)).

Definition runs (m m' : machine) : Prop := ∃ n, run fetch n m = Some m'.
Lemma runs_refl m : runs m m.
Proof. by exists O. Qed.
Lemma runs_trans m1 m2 m3 : runs m1 m2 → runs m2 m3 → runs m1 m3.
Proof.
  intros [n1 H1] [n2 H2]. exists (n1 + n2)%nat. revert m1 H1. induction n1 as [|n1 IH]; intros m1 H1; cbn in *; [by simplify_eq|].
  destruct (step fetch m1) as [m'|]; [by apply IH|done].
Qed.
Lemma runs_step m m' m'' : step fetch m = Some m' → runs m' m'' → runs m m''.
Proof. intros H [n Hn]. exists (S n). cbn. by rewrite H. Qed.

Lemma placed_app a l1 l2 c : placed fetch a (l1 ++ l2) c → ∃ b, placed fetch a l1 b ∧ placed fetch b l2 c.
Proof.
  revert a. induction l1 as [|i l1 IH]; intros a; cbn; [by exists a|].
  intros (next & Hf & H). destruct (IH _ H) as (b & H1 & H2). exists b. eauto.
Qed.

(** A block of straight-line code. *)
Lemma runs_block a l b m :
  placed fetch a l b → forallb straight l = true → m_eip m = a → runs m (with_eip b (foldl effect m l)).
Proof.
  revert a m. induction l as [|i l IH]; intros a m Hp Hs He.
  - cbn in *. subst. destruct m. apply runs_refl.
  - cbn in Hp, Hs. destruct Hp as (next & Hf & Hp). apply andb_prop in Hs as [Hi Hl].
    apply (runs_step _ (with_eip next (effect m i))); [unfold step; by rewrite He, Hf, do_straight|].
    specialize (IH next (with_eip next (effect m i)) Hp Hl eq_refl). rewrite effects_eip in IH. exact IH.
Qed.

(** A block that ends in another instruction. *)
Lemma runs_block_then a l i b m m' :
  placed fetch a (l ++ [i]) b → forallb straight l = true → m_eip m = a →
  do_instr i b (foldl effect m l) = Some m' → runs m m'.
Proof.
  intros Hp Hs He Hd. destruct (placed_app _ _ _ _ Hp) as (c & H1 & H2). cbn in H2. destruct H2 as (next & Hf & ->).
  apply (runs_trans _ (with_eip c (foldl effect m l))); [by apply (runs_block a)|].
  apply (runs_step _ m'); [|apply runs_refl]. unfold step. cbn [m_eip with_eip]. rewrite Hf.
  rewrite <- Hd. by destruct i.
Qed.
End RunLemmas.

(** ** Words on the stack *)

(** What is pushed: a word, or the 16 bits of a segment register. *)
Inductive item := W (v : Z) | H (v : Z).
Definition store_item (mm : memory) (a : Z) (x : item) : memory :=
  match x with W v => st32 mm a v | H v => st16 mm a v end.
Definition push_item (m : machine) (x : item) : machine := match x with W v => push v m | H v => push16 v m end.

(** The memory after the items are pushed with the stack pointer at [sp]. *)
Fixpoint stack_mem (mm : memory) (sp : Z) (l : list item) : memory :=
  match l with [] => mm | x :: l' => stack_mem (store_item mm (sp - 4) x) (sp - 4) l' end.

Lemma to_reg_same r m : to_reg r (reg_of r m) m = m.
Proof. by destruct m as [[] [] ]; destruct r. Qed.
Lemma to_reg_twice r v w m : to_reg r v (to_reg r w m) = to_reg r v m.
Proof. by destruct m as [[] [] ]; destruct r. Qed.
Lemma reg_of_to_reg r v m : reg_of r (to_reg r v m) = v.
Proof. by destruct m as [[] [] ]; destruct r. Qed.

Lemma pushes l m sp :
  reg_of ESP m = sp → 4 * Z.of_nat (length l) ≤ sp < 2 ^ 32 →
  foldl push_item m l = with_mem (stack_mem (m_mem m) sp l) (to_reg ESP (sp - 4 * Z.of_nat (length l)) m).
Proof.
  revert m sp. induction l as [|x l IH]; intros m sp Hsp Hl.
  - cbn. rewrite Z.sub_0_r, <- Hsp, to_reg_same. by destruct m.
  - cbn [foldl length stack_mem] in *.
    assert (push_item m x = with_mem (store_item (m_mem m) (sp - 4) x) (to_reg ESP (sp - 4) m)) as ->
      by (destruct x; cbn [push_item store_item]; unfold push, push16; cbv zeta; by rewrite Hsp, u32_small by lia).
    rewrite (IH _ (sp - 4)); [|apply (reg_of_to_reg ESP (sp - 4) m)|lia]. cbn [m_mem with_mem].
    replace (sp - 4 - 4 * Z.of_nat (length l)) with (sp - 4 * Z.of_nat (S (length l))) by lia.
    change (to_reg ESP (sp - 4 * Z.of_nat (S (length l))) (with_mem (store_item (m_mem m) (sp - 4) x) (to_reg ESP (sp - 4) m)))
      with (with_mem (store_item (m_mem m) (sp - 4) x) (to_reg ESP (sp - 4 * Z.of_nat (S (length l))) (to_reg ESP (sp - 4) m))).
    by rewrite to_reg_twice.
Qed.

Lemma stack_mem_app mm sp l1 l2 :
  stack_mem mm sp (l1 ++ l2) = stack_mem (stack_mem mm sp l1) (sp - 4 * Z.of_nat (length l1)) l2.
Proof.
  revert mm sp. induction l1 as [|x l1 IH]; intros mm sp; cbn [app stack_mem length]; [by rewrite Z.sub_0_r|].
  rewrite IH. f_equal. lia.
Qed.
Lemma store_item_other mm a x y : y < a ∨ a + 4 ≤ y → store_item mm a x y = mm y.
Proof. intros Hy. destruct x; cbn; [by apply st32_other|]. unfold st16. by rewrite !st8_other by lia. Qed.
(** Nothing else is written. *)
Lemma stack_mem_other mm sp l y : y < sp - 4 * Z.of_nat (length l) ∨ sp ≤ y → stack_mem mm sp l y = mm y.
Proof.
  revert mm sp. induction l as [|x l IH]; intros mm sp Hy; cbn [stack_mem length] in *; [done|].
  rewrite IH by lia. by apply store_item_other; lia.
Qed.

Lemma ld16_st16 mm a v : ld16 (st16 mm a v) a = u16 v.
Proof. unfold ld16, st16. rewrite st8_other, !st8_same by lia. unfold u8, u16. dlia. Qed.
Lemma ld16_ext m m' a : (∀ x, a ≤ x < a + 2 → m x = m' x) → ld16 m a = ld16 m' a.
Proof. intros Hx. unfold ld16. by rewrite !Hx by lia. Qed.

(** Item [i] is found where it was pushed. *)
Lemma stack_mem_word mm sp l i v : l !! i = Some (W v) → ld32 (stack_mem mm sp l) (sp - 4 * (Z.of_nat i + 1)) = u32 v.
Proof.
  intros Hi. rewrite <- (take_drop_middle _ _ _ Hi), stack_mem_app. cbn [stack_mem store_item].
  pose proof (lookup_lt_Some _ _ _ Hi). rewrite length_take_le by lia.
  rewrite (ld32_ext _ (st32 (stack_mem mm sp (take i l)) (sp - 4 * Z.of_nat i - 4) v)) by (intros y Hy; apply stack_mem_other; lia).
  replace (sp - 4 * (Z.of_nat i + 1)) with (sp - 4 * Z.of_nat i - 4) by lia. apply ld32_st32.
Qed.
Lemma stack_mem_half mm sp l i v : l !! i = Some (H v) → ld16 (stack_mem mm sp l) (sp - 4 * (Z.of_nat i + 1)) = u16 v.
Proof.
  intros Hi. rewrite <- (take_drop_middle _ _ _ Hi), stack_mem_app. cbn [stack_mem store_item].
  pose proof (lookup_lt_Some _ _ _ Hi). rewrite length_take_le by lia.
  rewrite (ld16_ext _ (st16 (stack_mem mm sp (take i l)) (sp - 4 * Z.of_nat i - 4) v)) by (intros y Hy; apply stack_mem_other; lia).
  replace (sp - 4 * (Z.of_nat i + 1)) with (sp - 4 * Z.of_nat i - 4) by lia. apply ld16_st16.
Qed.
Lemma ld16_st32 mm a v : ld16 (st32 mm a v) a = u16 v.
Proof. unfold ld16, st32. repeat (case_test; to_prop; try lia). unfold u8, u16. dlia. Qed.
Lemma stack_mem_low mm sp l i v : l !! i = Some (W v) → ld16 (stack_mem mm sp l) (sp - 4 * (Z.of_nat i + 1)) = u16 v.
Proof.
  intros Hi. rewrite <- (take_drop_middle _ _ _ Hi), stack_mem_app. cbn [stack_mem store_item].
  pose proof (lookup_lt_Some _ _ _ Hi). rewrite length_take_le by lia.
  rewrite (ld16_ext _ (st32 (stack_mem mm sp (take i l)) (sp - 4 * Z.of_nat i - 4) v)) by (intros y Hy; apply stack_mem_other; lia).
  replace (sp - 4 * (Z.of_nat i + 1)) with (sp - 4 * Z.of_nat i - 4) by lia. apply ld16_st32.
Qed.

(** ** The trap frame *)

Record trapframe := Trapframe {
  f_edi : Z; f_esi : Z; f_ebp : Z; f_oesp : Z; f_ebx : Z; f_edx : Z; f_ecx : Z; f_eax : Z;
  f_gs : Z; f_fs : Z; f_es : Z; f_ds : Z; f_trapno : Z;
  f_err : Z; f_eip : Z; f_cs : Z; f_eflags : Z; f_esp : Z; f_ss : Z
}.
Definition frame_at (mm : memory) (tf : Z) : trapframe :=
  Trapframe (ld32 mm tf) (ld32 mm (tf + 4)) (ld32 mm (tf + 8)) (ld32 mm (tf + 12)) (ld32 mm (tf + 16)) (ld32 mm (tf + 20))
    (ld32 mm (tf + 24)) (ld32 mm (tf_eax tf)) (ld16 mm (tf + 32)) (ld16 mm (tf + 36)) (ld16 mm (tf_es tf)) (ld16 mm (tf_ds tf))
    (ld32 mm (tf_trapno tf)) (ld32 mm (tf + 52)) (ld32 mm (tf_eip tf)) (ld16 mm (tf_cs tf)) (ld32 mm (tf_eflags tf))
    (ld32 mm (tf_esp tf)) (ld16 mm (tf_ss tf)).

(** Registers hold words, segment registers hold half words. *)
Definition word (v : Z) : Prop := 0 ≤ v < 2 ^ 32.
Definition half (v : Z) : Prop := 0 ≤ v < 2 ^ 16.
Record machine_ok (m : machine) : Prop := {
  mo_regs : ∀ r, word (reg_of r m);
  mo_segs : ∀ r, half (sget r (m_segs m));
  mo_cs : half (m_cs m); mo_ss : half (m_ss m); mo_eip : word (m_eip m); mo_eflags : word (m_eflags m)
}.

(** The items of a trap from user code, in the order they are pushed. *)
Definition trap_items (n err : Z) (m : machine) (sp : Z) : list item :=
  [W (m_ss m); W (reg_of ESP m); W (m_eflags m); W (m_cs m); W (m_eip m); W err; W n;
   H (s_ds (m_segs m)); H (s_es (m_segs m)); H (s_fs (m_segs m)); H (s_gs (m_segs m));
   W (reg_of EAX m); W (reg_of ECX m); W (reg_of EDX m); W (reg_of EBX m); W (sp - 44);
   W (reg_of EBP m); W (reg_of ESI m); W (reg_of EDI m)].
Definition user_frame (n err : Z) (m : machine) (sp : Z) : trapframe :=
  Trapframe (reg_of EDI m) (reg_of ESI m) (reg_of EBP m) (sp - 44) (reg_of EBX m) (reg_of EDX m) (reg_of ECX m) (reg_of EAX m)
    (s_gs (m_segs m)) (s_fs (m_segs m)) (s_es (m_segs m)) (s_ds (m_segs m)) n err (m_eip m) (m_cs m) (m_eflags m) (reg_of ESP m) (m_ss m).

(** The frame is what was pushed, also under the argument and the return address. *)
Lemma trap_items_frame n err m sp l mm :
  machine_ok m → word n → word err → 76 ≤ sp < 2 ^ 32 →
  frame_at (stack_mem mm sp (trap_items n err m sp ++ l)) (sp - 76) = user_frame n err m sp.
Proof.
  intros [Hr Hs Hcs Hss Heip Hfl] Hn He Hsp. set (L := trap_items n err m sp ++ l).
  assert (∀ i v a, L !! i = Some (W v) → word v → a = sp - 4 * (Z.of_nat i + 1) → ld32 (stack_mem mm sp L) a = v) as Hw.
  { intros i v a Hi Hv ->. rewrite (stack_mem_word _ _ _ _ _ Hi). by apply u32_small. }
  assert (∀ i v a, L !! i = Some (H v) → half v → a = sp - 4 * (Z.of_nat i + 1) → ld16 (stack_mem mm sp L) a = v) as Hh.
  { intros i v a Hi Hv ->. rewrite (stack_mem_half _ _ _ _ _ Hi). by apply u16_small. }
  assert (∀ i v a, L !! i = Some (W v) → half v → a = sp - 4 * (Z.of_nat i + 1) → ld16 (stack_mem mm sp L) a = v) as Hl.
  { intros i v a Hi Hv ->. rewrite (stack_mem_low _ _ _ _ _ Hi). by apply u16_small. }
  unfold frame_at, user_frame, tf_eax, tf_es, tf_ds, tf_trapno, tf_eip, tf_cs, tf_eflags, tf_esp, tf_ss. f_equal.
  all: first [apply (Hw 18%nat); [done|apply Hr|lia] | apply (Hw 17%nat); [done|apply Hr|lia] | apply (Hw 16%nat); [done|apply Hr|lia]
    | apply (Hw 15%nat); [done|unfold word; lia|lia] | apply (Hw 14%nat); [done|apply Hr|lia] | apply (Hw 13%nat); [done|apply Hr|lia]
    | apply (Hw 12%nat); [done|apply Hr|lia] | apply (Hw 11%nat); [done|apply Hr|lia]
    | apply (Hh 10%nat); [done|apply (Hs GS)|lia] | apply (Hh 9%nat); [done|apply (Hs FS)|lia]
    | apply (Hh 8%nat); [done|apply (Hs ES)|lia] | apply (Hh 7%nat); [done|apply (Hs DS)|lia]
    | apply (Hw 6%nat); [done|done|lia] | apply (Hw 5%nat); [done|done|lia] | apply (Hw 4%nat); [done|done|lia]
    | apply (Hl 3%nat); [done|done|lia] | apply (Hw 2%nat); [done|done|lia] | apply (Hw 1%nat); [done|apply Hr|lia]
    | apply (Hl 0%nat); [done|done|lia]].
Qed.

(** ** The way of a trap *)

Section TrapPath.
Context (fetch : Z → option (instr * Z)) (trap all_at ret_at : Z) (vectors : Z → Z).

(** Where the code is. *)
Record trap_code : Prop := {
  tc_vectors : ∀ i, 0 ≤ i < 256 → ∃ b, placed fetch (vectors i) (vector all_at i) b;
  tc_alltraps : ∃ back, placed fetch all_at (take 10 (alltraps trap)) back ∧ placed fetch back (drop 10 (alltraps trap)) ret_at ∧ word back;
  tc_trapret : ∃ b, placed fetch ret_at trapret b
}.

(** The tables that tvinit and seginit make, as the processor reads them. *)
Definition tables_ok (m : machine) : Prop :=
  (∀ i, 0 ≤ i < 256 → gate_at (m_mem m) (m_idtr m) i =
     Some (Gate (vectors i) (8 * SEG_KCODE) (i =? T_SYSCALL) (if i =? T_SYSCALL then DPL_USER else 0))) ∧
  seg_at (m_mem m) (m_gdtr m) SEG_KCODE = Some (Segment 0 0xffffffff (STA_X + STA_R) true 0).

Definition trap_flags (n fl : Z) : Z := if n =? T_SYSCALL then fl else Z.land fl (Z.lnot FL_IF).

(** The machine with [its] pushed on the stack that starts at [sp]. *)
Definition stacked (m : machine) (sp : Z) (its : list item) : machine :=
  with_mem (stack_mem (m_mem m) sp its) (to_reg ESP (sp - 4 * Z.of_nat (length its)) m).

Lemma stacked_pushes m sp its l :
  4 * Z.of_nat (length (its ++ l)) ≤ sp < 2 ^ 32 → foldl push_item (stacked m sp its) l = stacked m sp (its ++ l).
Proof.
  intros Hl. rewrite length_app in Hl. rewrite (pushes l _ (sp - 4 * Z.of_nat (length its))); [|apply (reg_of_to_reg ESP _ m)|lia].
  unfold stacked. rewrite stack_mem_app, length_app. replace (sp - 4 * Z.of_nat (length its) - 4 * Z.of_nat (length l)) with (sp - 4 * Z.of_nat (length its + length l)) by lia.
  destruct m as [[] ]. reflexivity.
Qed.

(** The machine when the processor has entered the kernel, the stack apart. *)
Definition entered (n : Z) (m : machine) : machine :=
  Machine (m_regs m) (m_segs m) (8 * SEG_KCODE) (m_ss0 m) (vectors n) (trap_flags n (m_eflags m)) (m_mem m)
    (m_idtr m) (m_gdtr m) (m_ss0 m) (m_esp0 m).

Lemma deliver_user n err soft m :
  tables_ok m → cpl m = 3 → 0 ≤ n < 256 → (soft = true → n = T_SYSCALL) → 76 ≤ m_esp0 m < 2 ^ 32 →
  deliver n err soft m = Some (stacked (entered n m) (m_esp0 m)
    (take 5 (trap_items n 0 m (m_esp0 m)) ++ match err with Some e => [W e] | None => [] end)).
Proof.
  intros [Hg Hs] Hc Hn Hsoft Hsp. set (its := _ ++ _). unfold deliver. rewrite (Hg n Hn). cbn [g_sel g_dpl g_off g_trap].
  change (8 * SEG_KCODE / 8) with SEG_KCODE. rewrite Hs, Hc. cbn [sg_dpl]. change (3 <? 0) with false. change (0 <? 3) with true.
  assert (soft && ((if n =? T_SYSCALL then DPL_USER else 0) <? 3) = false) as ->.
  { destruct soft; [|done]. by rewrite Hsoft. }
  cbn [orb]. set (m0 := with_ss (m_ss0 m) (to_reg ESP (m_esp0 m) m)).
  assert (match err with Some e => push e _ | None => _ end = foldl push_item m0 its) as ->.
  { unfold its. destruct err; cbn [take trap_items app foldl push_item]; reflexivity. }
  rewrite (pushes its m0 (m_esp0 m)); [|apply (reg_of_to_reg ESP (m_esp0 m) m)|unfold its; rewrite length_app; destruct err; cbn [length take trap_items]; lia].
  unfold stacked, entered, trap_flags. destruct m as [[] ]. by destruct (n =? T_SYSCALL).
Qed.

(** The stub of vectors.S makes up for the missing error code. *)
Lemma vector_runs n sp its m b :
  4 * (Z.of_nat (length its) + 2) ≤ sp < 2 ^ 32 → placed fetch (vectors n) (vector all_at n) b → m_eip m = vectors n →
  runs fetch (stacked m sp its) (with_eip all_at (stacked m sp (its ++ (if has_errcode n then [] else [W 0]) ++ [W n]))).
Proof.
  intros Hsp Hp He. unfold vector in Hp. set (pre := if negb (has_errcode n) then [PushImm 0] else []) in Hp.
  change [PushImm n; Jmp all_at] with ([PushImm n] ++ [Jmp all_at]) in Hp. rewrite app_assoc in Hp.
  apply (runs_block_then fetch _ _ _ _ _ _ Hp); [unfold pre; by destruct (has_errcode n)|exact He|].
  rewrite <- stacked_pushes by (rewrite !length_app; destruct (has_errcode n); cbn [length]; lia).
  unfold pre. by destruct (has_errcode n).
Qed.

Definition alltraps_items (sp : Z) (m : machine) : list item :=
  [H (s_ds (m_segs m)); H (s_es (m_segs m)); H (s_fs (m_segs m)); H (s_gs (m_segs m));
   W (reg_of EAX m); W (reg_of ECX m); W (reg_of EDX m); W (reg_of EBX m); W sp; W (reg_of EBP m); W (reg_of ESI m); W (reg_of EDI m)].

(** The registers when the C function starts. *)
Definition at_trap (m : machine) : machine :=
  let '(Gprs a c d b s bp si di) := m_regs m in
  Machine (Gprs (a / 65536 * 65536 + 16) c d b s bp si di) (Segs 16 16 (s_fs (m_segs m)) (s_gs (m_segs m)))
    (m_cs m) (m_ss m) trap (m_eflags m) (m_mem m) (m_idtr m) (m_gdtr m) (m_ss0 m) (m_esp0 m).

Lemma segs_push16 v m : m_segs (push16 v m) = m_segs m.
Proof. done. Qed.
Lemma segs_stacked m sp its : m_segs (stacked m sp its) = m_segs m.
Proof. done. Qed.
Lemma reg_stacked r m sp its : r ≠ ESP → reg_of r (stacked m sp its) = reg_of r m.
Proof. destruct m as [[] ]. by destruct r. Qed.
Lemma esp_stacked m sp its : reg_of ESP (stacked m sp its) = sp - 4 * Z.of_nat (length its).
Proof. by destruct m as [[] ]. Qed.

Lemma alltraps_runs sp its m back :
  4 * (Z.of_nat (length its) + 14) ≤ sp < 2 ^ 32 → placed fetch all_at (take 10 (alltraps trap)) back → m_eip m = all_at →
  let tf := sp - 4 * (Z.of_nat (length its) + 12) in
  runs fetch (stacked m sp its) (stacked (at_trap m) sp (its ++ alltraps_items (sp - 4 * (Z.of_nat (length its) + 4)) m ++ [W tf; W back])).
Proof.
  intros Hsp Hp He tf. set (its1 := its ++ take 4 (alltraps_items 0 m)).
  assert (foldl effect (stacked m sp its) [PushSeg DS; PushSeg ES; PushSeg FS; PushSeg GS] = stacked m sp its1) as E1.
  { unfold its1. rewrite <- stacked_pushes by (rewrite length_app; cbn [length take alltraps_items]; lia).
    cbn [foldl effect push_item take alltraps_items sget]. by rewrite !segs_push16, !segs_stacked. }
  set (sp1 := sp - 4 * (Z.of_nat (length its) + 4)). set (its2 := its1 ++ drop 4 (alltraps_items sp1 m)).
  assert (effect (stacked m sp its1) Pushal = stacked m sp its2) as E2.
  { unfold its2. rewrite <- stacked_pushes by (unfold its1; rewrite !length_app; cbn [length take drop alltraps_items]; lia).
    cbn [foldl effect push_item drop alltraps_items]. rewrite esp_stacked, !reg_stacked by done.
    unfold its1. rewrite length_app. cbn [length take alltraps_items]. replace (sp - 4 * Z.of_nat (length its + 4)) with sp1 by (unfold sp1; lia). done. }
  assert (its2 = its ++ alltraps_items sp1 m) as E2' by (unfold its2, its1; by rewrite <- app_assoc).
  assert (foldl effect (stacked m sp its2) [MovImm16 (Z.shiftl SEG_KDATA 3) EAX; MovSeg EAX DS; MovSeg EAX ES] =
          with_eip all_at (stacked (at_trap m) sp its2)) as E3.
  { destruct m as [[a c d b sp0 bp si di] [ds es fs gs] ]. cbn in He. subst. cbn [foldl]. unfold effect. change (u16 (Z.shiftl SEG_KDATA 3)) with 16. unfold stacked, at_trap.
    unfold to_reg, to_seg, reg_of, with_regs, with_segs, with_mem, with_eip.
    cbn [rget rset sset r_eax m_regs m_segs m_cs m_ss m_eip m_eflags m_mem m_idtr m_gdtr m_ss0 m_esp0 s_fs s_gs].
    assert (u16 (a / 65536 * 65536 + 16) = 16) as E16 by (unfold u16; dlia). by rewrite E16. }
  assert (foldl effect (stacked m sp its) (take 9 (alltraps trap)) = with_eip all_at (stacked (at_trap m) sp (its2 ++ [W tf]))) as E.
  { change (take 9 (alltraps trap)) with ([PushSeg DS; PushSeg ES; PushSeg FS; PushSeg GS] ++ [Pushal] ++
      [MovImm16 (Z.shiftl SEG_KDATA 3) EAX; MovSeg EAX DS; MovSeg EAX ES] ++ [PushReg ESP]).
    rewrite !foldl_app, E1. change (foldl effect (stacked m sp its1) [Pushal]) with (effect (stacked m sp its1) Pushal).
    rewrite E2, E3, <- stacked_pushes by (rewrite E2', !length_app; cbn [length alltraps_items]; lia).
    cbn [foldl push_item effect]. rewrite reg_of_eip, push_eip, esp_stacked.
    replace (sp - 4 * Z.of_nat (length its2)) with tf by (rewrite E2', length_app; cbn [length alltraps_items]; unfold tf; lia). done. }
  change (take 10 (alltraps trap)) with (take 9 (alltraps trap) ++ [Call trap]) in Hp.
  apply (runs_block_then fetch _ _ _ _ (stacked m sp its) _ Hp eq_refl He). rewrite E. cbn [do_instr].
  rewrite push_eip. assert (∀ x, push back (stacked x sp (its2 ++ [W tf])) = stacked x sp ((its2 ++ [W tf]) ++ [W back])) as Hb.
  { intros x. rewrite <- (stacked_pushes x sp (its2 ++ [W tf]) [W back]) by (rewrite E2', !length_app; cbn [length alltraps_items]; lia). done. }
  rewrite push_eip, Hb. rewrite E2', <- !app_assoc. by destruct m as [[] ].
Qed.

(** From the trap to the C function. *)
Lemma trap_entry n err soft m back :
  tables_ok m → cpl m = 3 → 0 ≤ n < 256 → (soft = true → n = T_SYSCALL) → 84 ≤ m_esp0 m < 2 ^ 32 →
  (is_Some err ↔ has_errcode n = true) → (∃ b, placed fetch (vectors n) (vector all_at n) b) →
  placed fetch all_at (take 10 (alltraps trap)) back →
  ∃ m1, deliver n err soft m = Some m1 ∧
    runs fetch m1 (stacked (at_trap (entered n m)) (m_esp0 m) (trap_items n (default 0 err) m (m_esp0 m) ++ [W (m_esp0 m - 76); W back])).
Proof.
  intros Ht Hc Hn Hsoft Hsp Herr (b & Hv) Hall. eexists. split; [apply deliver_user; done || lia|].
  set (its := _ ++ match err with Some e => [W e] | None => [] end). set (its' := its ++ (if has_errcode n then [] else [W 0]) ++ [W n]).
  assert (its' = take 7 (trap_items n (default 0 err) m (m_esp0 m))) as Ei.
  { unfold its', its. destruct err as [e|], (has_errcode n); try done; [discriminate (proj1 Herr ltac:(eauto))|by destruct (proj2 Herr eq_refl)]. }
  eapply runs_trans; [apply (vector_runs n _ _ _ b); [unfold its; destruct err; cbn [length app take trap_items]; lia|done|done]|].
  fold its'. rewrite Ei. change (with_eip all_at (stacked (entered n m) (m_esp0 m) ?l)) with (stacked (with_eip all_at (entered n m)) (m_esp0 m) l).
  pose proof (alltraps_runs (m_esp0 m) (take 7 (trap_items n (default 0 err) m (m_esp0 m))) (with_eip all_at (entered n m)) back ltac:(cbn [length take trap_items]; lia) Hall eq_refl) as Hr.
  cbv zeta in Hr. cbn [length take trap_items] in Hr.
  replace (m_esp0 m - 4 * (Z.of_nat 7 + 4)) with (m_esp0 m - 44) in Hr by lia. replace (m_esp0 m - 4 * (Z.of_nat 7 + 12)) with (m_esp0 m - 76) in Hr by lia.
  destruct m as [[] [] ]. exact Hr.
Qed.

(** The machine that goes on from a frame. *)
Definition resume (f : trapframe) (m : machine) : machine :=
  Machine (Gprs (f_eax f) (f_ecx f) (f_edx f) (f_ebx f) (f_esp f) (f_ebp f) (f_esi f) (f_edi f))
    (Segs (f_ds f) (f_es f) (f_fs f) (f_gs f)) (f_cs f) (f_ss f) (f_eip f) (f_eflags f) (m_mem m)
    (m_idtr m) (m_gdtr m) (m_ss0 m) (m_esp0 m).

Lemma pop_seg_eq r sp m :
  reg_of ESP m = sp → 0 ≤ sp → sp + 4 < 2 ^ 32 → effect m (PopSeg r) = to_seg r (ld16 (m_mem m) sp) (to_reg ESP (sp + 4) m).
Proof. intros Hsp H0 H1. unfold effect, drop_words. rewrite Hsp. by rewrite u32_small by lia. Qed.
Lemma popal_eq tf m :
  reg_of ESP m = tf → 0 ≤ tf → tf + 32 < 2 ^ 32 →
  effect m Popal = with_regs (Gprs (ld32 (m_mem m) (tf + 28)) (ld32 (m_mem m) (tf + 24)) (ld32 (m_mem m) (tf + 20)) (ld32 (m_mem m) (tf + 16))
    (tf + 32) (ld32 (m_mem m) (tf + 8)) (ld32 (m_mem m) (tf + 4)) (ld32 (m_mem m) tf)) m.
Proof.
  intros Hsp H0 H1. unfold effect, drop_words. rewrite Hsp, !u32_small by lia. rewrite Z.mul_0_r, Z.add_0_r. by destruct m as [[] ].
Qed.

Lemma trapret_regs tf m :
  reg_of ESP m = tf → 0 ≤ tf → tf + 76 < 2 ^ 32 →
  let f := frame_at (m_mem m) tf in
  foldl effect m (take 6 trapret) = with_segs (Segs (f_ds f) (f_es f) (f_fs f) (f_gs f))
    (with_regs (Gprs (f_eax f) (f_ecx f) (f_edx f) (f_ebx f) (tf + 56) (f_ebp f) (f_esi f) (f_edi f)) m).
Proof.
  intros Hsp H0 H1 f. destruct m as [g [ds es fs gs] cs ss eip fl mm idtr gdtr ss0 esp0]. cbn [take trapret foldl].
  rewrite (popal_eq tf) by (done || lia). unfold with_regs. cbn [m_regs m_segs m_cs m_ss m_eip m_eflags m_mem m_idtr m_gdtr m_ss0 m_esp0].
  rewrite (pop_seg_eq GS (tf + 32)) by (done || lia). unfold to_seg, to_reg, with_regs, with_segs. cbn [m_regs m_segs m_cs m_ss m_eip m_eflags m_mem m_idtr m_gdtr m_ss0 m_esp0 rset sset].
  rewrite (pop_seg_eq FS (tf + 32 + 4)) by (done || lia). unfold to_seg, to_reg, with_regs, with_segs. cbn [m_regs m_segs m_cs m_ss m_eip m_eflags m_mem m_idtr m_gdtr m_ss0 m_esp0 rset sset].
  rewrite (pop_seg_eq ES (tf + 32 + 4 + 4)) by (done || lia). unfold to_seg, to_reg, with_regs, with_segs. cbn [m_regs m_segs m_cs m_ss m_eip m_eflags m_mem m_idtr m_gdtr m_ss0 m_esp0 rset sset].
  rewrite (pop_seg_eq DS (tf + 32 + 4 + 4 + 4)) by (done || lia). unfold to_seg, to_reg, with_regs, with_segs. cbn [m_regs m_segs m_cs m_ss m_eip m_eflags m_mem m_idtr m_gdtr m_ss0 m_esp0 rset sset].
  unfold effect, to_reg, reg_of, with_regs. cbn [m_regs m_segs m_cs m_ss m_eip m_eflags m_mem m_idtr m_gdtr m_ss0 m_esp0 rset rget r_esp].
  rewrite u32_small by lia. unfold f, frame_at, tf_eax, tf_ds, tf_es. cbn [f_eax f_ecx f_edx f_ebx f_ebp f_esi f_edi f_ds f_es f_fs f_gs m_mem].
  replace (tf + 32 + 4 + 4 + 4 + 4 + 8) with (tf + 56) by lia. replace (tf + 32 + 4 + 4 + 4) with (tf + 44) by lia.
  replace (tf + 32 + 4 + 4) with (tf + 40) by lia. by replace (tf + 32 + 4) with (tf + 36) by lia.
Qed.

Lemma iret_user sp m :
  reg_of ESP m = sp → cpl m = 0 → 0 ≤ sp → sp + 16 < 2 ^ 32 → ld16 (m_mem m) (sp + 4) `mod` 4 = 3 →
  iret m = Machine (rset ESP (ld32 (m_mem m) (sp + 12)) (m_regs m)) (m_segs m) (ld16 (m_mem m) (sp + 4)) (ld16 (m_mem m) (sp + 16))
    (ld32 (m_mem m) sp) (ld32 (m_mem m) (sp + 8)) (m_mem m) (m_idtr m) (m_gdtr m) (m_ss0 m) (m_esp0 m).
Proof.
  intros Hsp Hc H0 H1 Hcs. unfold iret, top, drop_words. rewrite Hsp, !u32_small, Hc, Hcs by lia. change (0 <? 3) with true. by destruct m as [[] ].
Qed.

(** trapret returns to user code with the registers of the frame. *)
Lemma trapret_runs tf m b :
  placed fetch ret_at trapret b → m_eip m = ret_at → reg_of ESP m = tf → 0 ≤ tf → tf + 76 < 2 ^ 32 → cpl m = 0 →
  f_cs (frame_at (m_mem m) tf) `mod` 4 = 3 →
  runs fetch m (resume (frame_at (m_mem m) tf) m).
Proof.
  intros Hp He Hsp H0 H1 Hc Hcs. change trapret with (take 6 trapret ++ [Iret]) in Hp.
  apply (runs_block_then fetch _ _ _ _ _ _ Hp eq_refl He). rewrite (trapret_regs tf) by done.
  cbn [do_instr]. rewrite (iret_user (tf + 56)); [|reflexivity|exact Hc|lia|lia|].
  - unfold resume, frame_at, tf_eip, tf_cs, tf_eflags, tf_esp, tf_ss. cbn [m_mem with_eip with_segs with_regs].
    replace (tf + 56 + 4) with (tf + 60) by lia. replace (tf + 56 + 8) with (tf + 64) by lia.
    replace (tf + 56 + 12) with (tf + 68) by lia. by replace (tf + 56 + 16) with (tf + 72) by lia.
  - cbn [m_mem with_eip with_segs with_regs]. replace (tf + 56 + 4) with (tf + 60) by lia. exact Hcs.
Qed.

(** A state in which a C function entered in [m] returns: the return address is
    popped, the code segment is the same. *)
Definition returned (m mr : machine) : Prop :=
  m_eip mr = ld32 (m_mem m) (reg_of ESP m) ∧ reg_of ESP mr = reg_of ESP m + 4 ∧ m_cs mr = m_cs m.

(** An unchanged frame resumes the interrupted program. *)
Lemma resume_user n err m sp : resume (user_frame n err m sp) m = m.
Proof. by destruct m as [[] []]. Qed.

(** The exceptions for which the processor pushes an error code: double fault,
    invalid task state segment, segment not present, stack fault, general
    protection, page fault, alignment check. *)
Definition cpu_errcode (n : Z) : bool := existsb (Z.eqb n) [8; 10; 11; 12; 13; 14; 17].
Lemma cpu_errcode_vectors n : cpu_errcode n = has_errcode n.
Proof. unfold cpu_errcode, has_errcode. cbn [existsb]. case_tests; try lia; done. Qed.

(** [C8] A trap and its return.  From user code, an interrupt, an exception or the
    system call instruction brings the processor to trap(tf) in the kernel, on the
    kernel stack of the task state segment, with the kernel's data segments, and
    with interrupts off except for a system call; the trap frame at tf holds every
    register of the interrupted program, the number of the trap and the error code
    (0 where the processor gives none), and no other memory has changed.  When trap
    returns, whatever it did to the frame, the program goes on with exactly the
    registers of the frame; with the frame unchanged this is the interrupted
    state. *)
Theorem trap_roundtrip n err soft m :
  trap_code → tables_ok m → machine_ok m → cpl m = 3 → 0 ≤ n < 256 → (soft = true → n = T_SYSCALL) →
  84 ≤ m_esp0 m < 2 ^ 32 - 1 → (is_Some err ↔ cpu_errcode n = true) → word (default 0 err) →
  let tf := m_esp0 m - 76 in
  ∃ m1 mt, deliver n err soft m = Some m1 ∧ runs fetch m1 mt ∧
    m_eip mt = trap ∧ ld32 (m_mem mt) (reg_of ESP mt + 4) = tf ∧
    frame_at (m_mem mt) tf = user_frame n (default 0 err) m (m_esp0 m) ∧
    cpl mt = 0 ∧ s_ds (m_segs mt) = 8 * SEG_KDATA ∧ s_es (m_segs mt) = 8 * SEG_KDATA ∧
    m_eflags mt = trap_flags n (m_eflags m) ∧
    (∀ a, a < tf - 8 ∨ m_esp0 m ≤ a → m_mem mt a = m_mem m a) ∧
    (∀ mr, returned mt mr → f_cs (frame_at (m_mem mr) tf) `mod` 4 = 3 → runs fetch mr (resume (frame_at (m_mem mr) tf) mr)) ∧
    resume (user_frame n (default 0 err) m (m_esp0 m)) m = m.
Proof.
  intros [Hv (back & Hall & Hback & Hbw) (b & Hret)] Ht Hok Hc Hn Hsoft Hsp Herr He tf. rewrite cpu_errcode_vectors in Herr.
  destruct (trap_entry n err soft m back Ht Hc Hn Hsoft ltac:(lia) Herr (Hv n Hn) Hall) as (m1 & Hd & Hr).
  set (sp := m_esp0 m) in *. set (its := trap_items n (default 0 err) m sp) in *. set (mt := stacked _ sp _) in Hr.
  assert (m_mem mt = stack_mem (m_mem m) sp (its ++ [W tf; W back])) as Hm by (unfold mt, at_trap; by destruct m as [[] ]).
  assert (reg_of ESP mt = sp - 84) as Hesp by (unfold mt; rewrite esp_stacked; unfold its; rewrite length_app; cbn [length trap_items]; lia).
  assert ((its ++ [W tf; W back]) !! 19%nat = Some (W tf) ∧ (its ++ [W tf; W back]) !! 20%nat = Some (W back)) as [H19 H20] by (split; reflexivity).
  exists m1, mt. split_and!; [exact Hd|exact Hr|unfold mt, at_trap; by destruct m as [[] ]| | |unfold mt, at_trap; by destruct m as [[] ]..| | |by apply resume_user].
  - rewrite Hm, Hesp. replace (sp - 84 + 4) with (sp - 4 * (Z.of_nat 19 + 1)) by lia. rewrite (stack_mem_word _ _ _ _ _ H19). apply u32_small. unfold tf. lia.
  - rewrite Hm. unfold tf. apply trap_items_frame; [done|unfold word; lia|done|lia].
  - intros a Ha. rewrite Hm. apply stack_mem_other. unfold its. rewrite length_app. cbn [length trap_items]. unfold tf in Ha. lia.
  - intros mr (H1 & H2 & H3) Hcs. rewrite Hm, Hesp in H1. rewrite Hesp in H2.
    replace (sp - 84) with (sp - 4 * (Z.of_nat 20 + 1)) in H1 by lia. rewrite (stack_mem_word _ _ _ _ _ H20), u32_small in H1 by done.
    assert (cpl mr = 0) as Hc0 by (unfold cpl; rewrite H3; unfold mt, at_trap; by destruct m as [[] ]).
    set (mp := with_eip ret_at (effect mr (AddImm 4 ESP))).
    apply (runs_trans fetch _ mp); [exact (runs_block fetch back _ ret_at mr Hback eq_refl H1)|].
    assert (mp = with_eip ret_at (to_reg ESP tf mr)) as Emp.
    { unfold mp, effect. rewrite H2, u32_small by lia. by replace (sp - 84 + 4 + 4) with tf by (unfold tf; lia). }
    rewrite Emp. apply (trapret_runs tf (with_eip ret_at (to_reg ESP tf mr)) b Hret eq_refl (reg_of_to_reg ESP tf mr));
      [unfold tf; lia|unfold tf; lia|exact Hc0|exact Hcs].
Qed.
End TrapPath.

(** ** System calls from user code *)

(** The stub of a system call traps with the number in eax; when the frame comes
    back with [v] there and all else as it was, the stub returns [v] to its caller
    with the other registers as they were. *)
Lemma usys_call fetch num a b m :
  placed fetch a (usys_stub num) b → m_eip m = a → word num → reg_of ESP m + 4 < 2 ^ 32 → 0 ≤ reg_of ESP m →
  ∃ next, (∀ m1, deliver T_SYSCALL None true (with_eip next (to_reg EAX num m)) = Some m1 → runs fetch m m1) ∧
    ∀ v, runs fetch (with_eip next (to_reg EAX v m)) (with_eip (top m) (to_reg ESP (reg_of ESP m + 4) (to_reg EAX v m))).
Proof.
  intros (n1 & F1 & n2 & F2 & n3 & F3 & ->) He Hn Hsp H0. exists n2. split.
  - intros m1 Hd. apply (runs_step fetch _ (with_eip n1 (to_reg EAX num m))).
    + unfold step. rewrite He, F1. cbn [do_instr effect]. rewrite u32_small by done. done.
    + apply (runs_step fetch _ m1); [|apply runs_refl]. unfold step. cbn [m_eip with_eip]. rewrite F2. exact Hd.
  - intros v. apply (runs_step fetch _ (with_eip (top m) (to_reg ESP (reg_of ESP m + 4) (to_reg EAX v m)))); [|apply runs_refl].
    unfold step. cbn [m_eip with_eip]. rewrite F3. cbn [do_instr]. unfold drop_words, top.
    assert (reg_of ESP (to_reg EAX v m) = reg_of ESP m) as E by (by destruct m as [[] ]).
    rewrite !reg_of_eip, E, u32_small by lia. by destruct m as [[] ].
Qed.

(** ** swtch *)

(** proc.h: struct context *)
Record context := Context { x_edi : Z; x_esi : Z; x_ebx : Z; x_ebp : Z; x_eip : Z }.
Definition context_at (mm : memory) (c : Z) : context :=
  Context (ld32 mm c) (ld32 mm (c + 4)) (ld32 mm (c + 8)) (ld32 mm (c + 12)) (ld32 mm (ctx_eip c)).

(** The callee-saved registers and the place to go on, at a call whose return
    address is on top of the stack. *)
Definition own_context (m : machine) : context :=
  Context (reg_of EDI m) (reg_of ESI m) (reg_of EBX m) (reg_of EBP m) (top m).

Section Swtch.
Context (fetch : Z → option (instr * Z)) (swtch_at b : Z) (Hcode : placed fetch swtch_at swtch b).

(** A call swtch(old, new), about to enter the routine. *)
Record swtch_call (m : machine) (old new : Z) : Prop := {
  sc_eip : m_eip m = swtch_at;
  sc_low : 16 ≤ reg_of ESP m; sc_high : reg_of ESP m + 12 < 2 ^ 32;
  sc_old : ld32 (m_mem m) (reg_of ESP m + 4) = old; sc_new : ld32 (m_mem m) (reg_of ESP m + 8) = new;
  sc_newlow : 0 ≤ new; sc_newhigh : new + 20 < 2 ^ 32;
  sc_apart : new + 20 ≤ reg_of ESP m - 16 ∨ reg_of ESP m ≤ new;
  sc_oldapart : (old + 4 ≤ new ∨ new + 20 ≤ old) ∧ (old + 4 ≤ reg_of ESP m - 16 ∨ reg_of ESP m + 4 ≤ old)
}.

Definition saved_mem (m : machine) (old : Z) : memory :=
  st32 (stack_mem (m_mem m) (reg_of ESP m) [W (reg_of EBP m); W (reg_of EBX m); W (reg_of ESI m); W (reg_of EDI m)])
    old (reg_of ESP m - 16).

(** The machine after the switch. *)
Definition switched (m : machine) (old new : Z) : machine :=
  let mm := saved_mem m old in let c := context_at mm new in
  Machine (Gprs old (reg_of ECX m) new (x_ebx c) (new + 20) (x_ebp c) (x_esi c) (x_edi c)) (m_segs m) (m_cs m) (m_ss m)
    (x_eip c) (m_eflags m) mm (m_idtr m) (m_gdtr m) (m_ss0 m) (m_esp0 m).

Lemma stacked_push_reg r m sp its :
  r ≠ ESP → 4 * Z.of_nat (S (length its)) ≤ sp < 2 ^ 32 → effect (stacked m sp its) (PushReg r) = stacked m sp (its ++ [W (reg_of r m)]).
Proof.
  intros Hr Hsp. rewrite <- stacked_pushes by (rewrite length_app; cbn [length]; lia). cbn [foldl push_item effect].
  by rewrite reg_stacked.
Qed.
Lemma pop_reg_eq r sp m :
  reg_of ESP m = sp → 0 ≤ sp → sp + 4 < 2 ^ 32 → effect m (PopReg r) = to_reg r (ld32 (m_mem m) sp) (to_reg ESP (sp + 4) m).
Proof. intros Hsp H0 H1. unfold effect, drop_words, top. rewrite Hsp. by rewrite u32_small by lia. Qed.

Lemma swtch_runs m old new : swtch_call m old new → runs fetch m (switched m old new).
Proof.
  intros [He Hlo Hhi Ho Hnew Hn0 Hn1 _ _]. pose proof Hcode as Hp. change swtch with (take 12 swtch ++ [Ret]) in Hp.
  apply (runs_block_then fetch _ _ _ _ _ _ Hp eq_refl He).
  destruct m as [[a c d b' sp bp si di] sg cs ss eip fl mm idtr gdtr ss0 esp0]. unfold reg_of in *. cbn [rget r_esp r_eax m_regs m_mem] in *.
  change (take 12 swtch) with ([MovLoad 4 ESP EAX; MovLoad 8 ESP EDX] ++ [PushReg EBP; PushReg EBX; PushReg ESI; PushReg EDI] ++
    [MovStore ESP EAX; MovReg EDX ESP] ++ [PopReg EDI; PopReg ESI; PopReg EBX; PopReg EBP]).
  rewrite !foldl_app. set (m1 := foldl effect _ [MovLoad 4 ESP EAX; MovLoad 8 ESP EDX]).
  assert (m1 = Machine (Gprs old c new b' sp bp si di) sg cs ss eip fl mm idtr gdtr ss0 esp0) as ->.
  { unfold m1. cbn [foldl effect]. unfold to_reg, reg_of, with_regs. cbn [rget rset r_esp m_regs m_mem m_segs m_cs m_ss m_eip m_eflags m_idtr m_gdtr m_ss0 m_esp0].
    by rewrite !u32_small, Ho, Hnew by lia. }
  set (M := Machine (Gprs old c new b' sp bp si di) sg cs ss eip fl mm idtr gdtr ss0 esp0). set (its := [W bp; W b'; W si; W di]).
  assert (foldl effect M [PushReg EBP; PushReg EBX; PushReg ESI; PushReg EDI] = stacked M sp its) as ->.
  { replace M with (stacked M sp []) at 1 by (unfold stacked, M; cbn [length stack_mem]; by rewrite Z.sub_0_r). cbn [foldl].
    rewrite !stacked_push_reg by (done || cbn [length app]; lia). done. }
  set (mm' := st32 (stack_mem mm sp its) old (sp - 16)). unfold saved_mem, reg_of. cbn [rget r_esp r_ebp r_ebx r_esi r_edi m_regs m_mem]. fold its mm'.
  assert (foldl effect (stacked M sp its) [MovStore ESP EAX; MovReg EDX ESP] =
    Machine (Gprs old c new b' new bp si di) sg cs ss eip fl mm' idtr gdtr ss0 esp0) as -> by reflexivity.
  unfold switched, saved_mem, reg_of. cbn [rget r_esp r_ebp r_ebx r_esi r_edi m_regs m_mem]. fold its mm'.
  cbn [foldl]. rewrite (pop_reg_eq EDI new) by (done || lia). unfold to_reg, with_regs. cbn [rset m_regs m_segs m_cs m_ss m_eip m_eflags m_mem m_idtr m_gdtr m_ss0 m_esp0].
  rewrite (pop_reg_eq ESI (new + 4)) by (done || lia). unfold to_reg, with_regs. cbn [rset m_regs m_segs m_cs m_ss m_eip m_eflags m_mem m_idtr m_gdtr m_ss0 m_esp0].
  rewrite (pop_reg_eq EBX (new + 4 + 4)) by (done || lia). unfold to_reg, with_regs. cbn [rset m_regs m_segs m_cs m_ss m_eip m_eflags m_mem m_idtr m_gdtr m_ss0 m_esp0].
  rewrite (pop_reg_eq EBP (new + 4 + 4 + 4)) by (done || lia). unfold to_reg, with_regs. cbn [rset m_regs m_segs m_cs m_ss m_eip m_eflags m_mem m_idtr m_gdtr m_ss0 m_esp0].
  unfold do_instr, drop_words, top, to_reg, with_regs, with_eip, reg_of. cbn [rset rget r_esp m_regs m_segs m_cs m_ss m_eip m_eflags m_mem m_idtr m_gdtr m_ss0 m_esp0].
  rewrite u32_small by lia. unfold context_at, ctx_eip. cbn [x_edi x_esi x_ebx x_ebp x_eip].
  replace (new + 4 + 4 + 4 + 4 + 4 * 1) with (new + 20) by lia. replace (new + 4 + 4 + 4 + 4) with (new + 16) by lia.
  replace (new + 4 + 4 + 4) with (new + 12) by lia. by replace (new + 4 + 4) with (new + 8) by lia.
Qed.

Lemma saved_mem_other m old x :
  x < reg_of ESP m - 16 ∨ reg_of ESP m ≤ x → x < old ∨ old + 4 ≤ x → saved_mem m old x = m_mem m x.
Proof. intros H1 H2. unfold saved_mem. rewrite st32_other by done. apply stack_mem_other. cbn [length]. lia. Qed.

(** What the routine saves, and what it loads. *)
Lemma swtch_saves m old new :
  swtch_call m old new → machine_ok m →
  context_at (saved_mem m old) (reg_of ESP m - 16) = own_context m ∧
  ld32 (saved_mem m old) old = reg_of ESP m - 16 ∧
  context_at (saved_mem m old) new = context_at (m_mem m) new.
Proof.
  intros [_ Hlo Hhi _ _ Hn0 Hn1 Hap [Hon Hosp]] [Hr _ _ _ _ _]. set (sp := reg_of ESP m) in *. split_and!.
  - assert (∀ i v a, [W (reg_of EBP m); W (reg_of EBX m); W (reg_of ESI m); W (reg_of EDI m)] !! i = Some (W v) → word v →
      a = sp - 4 * (Z.of_nat i + 1) → (i < 4)%nat → ld32 (saved_mem m old) a = v) as Hw.
    { intros i v a Hi Hv -> Hlt. unfold saved_mem. fold sp. rewrite ld32_st32_other by lia. rewrite (stack_mem_word _ _ _ _ _ Hi). by apply u32_small. }
    unfold context_at, own_context, ctx_eip. f_equal.
    + apply (Hw 3%nat); [done|apply Hr|lia|lia].
    + apply (Hw 2%nat); [done|apply Hr|lia|lia].
    + apply (Hw 1%nat); [done|apply Hr|lia|lia].
    + apply (Hw 0%nat); [done|apply Hr|lia|lia].
    + unfold top. fold sp. replace (sp - 16 + 16) with sp by lia. apply ld32_ext. intros x Hx. apply saved_mem_other; fold sp; lia.
  - unfold saved_mem. fold sp. rewrite ld32_st32. apply u32_small. lia.
  - unfold context_at, ctx_eip. f_equal; apply ld32_ext; intros x Hx; apply saved_mem_other; fold sp; lia.
Qed.

(** [C26] swtch(old, new) saves the caller's context and switches to the other
    stack: *old is the address of the saved context, the four callee-saved
    registers, the stack pointer and the place of execution come from the context
    at new.  When any other thread later switches to the saved context, still as
    it was saved, the caller's call returns: at its return address, with its stack
    pointer past it and with its ebx, esi, edi and ebp. *)
Theorem swtch_roundtrip m old new :
  swtch_call m old new → machine_ok m →
  let sp := reg_of ESP m in
  ∃ m', runs fetch m m' ∧ ld32 (m_mem m') old = sp - 16 ∧
    (let c := context_at (m_mem m) new in
     m_eip m' = x_eip c ∧ reg_of ESP m' = new + 20 ∧
     reg_of EDI m' = x_edi c ∧ reg_of ESI m' = x_esi c ∧ reg_of EBX m' = x_ebx c ∧ reg_of EBP m' = x_ebp c) ∧
    ∀ m2 old2, swtch_call m2 old2 (sp - 16) → machine_ok m2 → context_at (m_mem m2) (sp - 16) = context_at (m_mem m') (sp - 16) →
    ∃ m3, runs fetch m2 m3 ∧ m_eip m3 = top m ∧ reg_of ESP m3 = sp + 4 ∧
      reg_of EDI m3 = reg_of EDI m ∧ reg_of ESI m3 = reg_of ESI m ∧ reg_of EBX m3 = reg_of EBX m ∧ reg_of EBP m3 = reg_of EBP m.
Proof.
  intros Hc Hok sp. destruct (swtch_saves m old new Hc Hok) as (Hsave & Hold & Hload). fold sp in Hsave, Hold.
  exists (switched m old new). split_and!; [by apply swtch_runs|exact Hold|..].
  - unfold switched. rewrite Hload. done.
  - intros m2 old2 Hc2 Hok2 E. destruct (swtch_saves m2 old2 (sp - 16) Hc2 Hok2) as (_ & _ & Hload2).
    exists (switched m2 old2 (sp - 16)). split; [by apply swtch_runs|].
    change (m_mem (switched m old new)) with (saved_mem m old) in E. unfold switched. rewrite Hload2, E, Hsave.
    cbn [m_eip own_context x_eip x_edi x_esi x_ebx x_ebp reg_of rget m_regs r_esp r_edi r_esi r_ebx r_ebp]. split_and!; [done|unfold reg_of; cbn; lia|done..].
Qed.
End Swtch.

(** ** The first run of a thread *)

Section NewThread.
Context {ksyms : KSyms} (fetch : Z → option (instr * Z)) (swtch_at b b' : Z).
Context (Hswtch : placed fetch swtch_at swtch b) (Htrapret : placed fetch sym_trapret trapret b').
Context (Hforkret : word sym_forkret) (Hret : word sym_trapret).

(** The frame of a new thread: its creator's with another place and stack. *)
Definition start_frame (f : trapframe) (eip esp : Z) : trapframe :=
  Trapframe (f_edi f) (f_esi f) (f_ebp f) (f_oesp f) (f_ebx f) (f_edx f) (f_ecx f) (f_eax f) (f_gs f) (f_fs f) (f_es f) (f_ds f)
    (f_trapno f) (f_err f) eip (f_cs f) (f_eflags f) esp (f_ss f).

Lemma created_frame s src f st m :
  src + 76 ≤ s ∨ s + 4096 ≤ src → word f → word st →
  frame_at (created_mem s src f st m) (s + 4020) = start_frame (frame_at m src) f st.
Proof.
  intros Hs Hf Hst. destruct (created_mem_frame s src f st m Hs) as (H1 & H2 & H3 & _). set (m' := created_mem s src f st m) in *.
  assert (∀ i j, 0 ≤ i + j < 76 → ¬ 56 ≤ i + j < 60 → ¬ 68 ≤ i + j < 72 → m' (s + 4020 + i + j) = m (src + i + j)) as Hb.
  { intros i j Hi Hi1 Hi2. rewrite <- (Z.add_assoc _ i j), H3 by lia. f_equal. lia. }
  assert (∀ i, 0 ≤ i ≤ 72 → i + 4 ≤ 56 ∨ 60 ≤ i → i + 4 ≤ 68 ∨ 72 ≤ i → ld32 m' (s + 4020 + i) = ld32 m (src + i)) as Hl.
  { intros i Hi Hi1 Hi2. unfold ld32. by rewrite !Hb, H3 by lia. }
  assert (∀ i, 0 ≤ i ≤ 72 → i + 4 ≤ 56 ∨ 60 ≤ i → i + 4 ≤ 68 ∨ 72 ≤ i → ld16 m' (s + 4020 + i) = ld16 m (src + i)) as Hh.
  { intros i Hi Hi1 Hi2. unfold ld16. by rewrite !Hb, H3 by lia. }
  unfold frame_at, start_frame, tf_eax, tf_es, tf_ds, tf_trapno, tf_eip, tf_cs, tf_eflags, tf_esp, tf_ss in *.
  cbn [f_edi f_esi f_ebp f_oesp f_ebx f_edx f_ecx f_eax f_gs f_fs f_es f_ds f_trapno f_err f_cs f_eflags f_ss].
  pose proof (Hl 0 ltac:(lia) ltac:(lia) ltac:(lia)) as H0. rewrite !Z.add_0_r in H0.
  rewrite H0, H1, H2, !Hl, !Hh, !u32_small by (done || lia). done.
Qed.

Lemma frame_at_ext m m' tf : (∀ x, tf ≤ x < tf + 76 → m x = m' x) → frame_at m tf = frame_at m' tf.
Proof.
  intros Hx. unfold frame_at, tf_eax, tf_es, tf_ds, tf_trapno, tf_eip, tf_cs, tf_eflags, tf_esp, tf_ss.
  f_equal; first [apply ld32_ext; intros y Hy; apply Hx; lia | apply ld16_ext; intros y Hy; apply Hx; lia].
Qed.

(** The page of a new thread, switched to by the scheduler. *)
Lemma created_runs s src f st mm m old :
  src + 76 ≤ s ∨ s + 4096 ≤ src → 0 < s → s + 4096 < 2 ^ 32 → word f → word st → f_cs (frame_at mm src) `mod` 4 = 3 →
  m_mem m = created_mem s src f st mm → swtch_call swtch_at m old (s + 3996) → machine_ok m → cpl m = 0 →
  old + 4 ≤ s ∨ s + 4096 ≤ old → reg_of ESP m ≤ s ∨ s + 4096 ≤ reg_of ESP m - 16 →
  ∃ mf, runs fetch m mf ∧ m_eip mf = sym_forkret ∧
    ∀ mr, returned mf mr → (∀ x, s + 4020 ≤ x < s + 4096 → m_mem mr x = m_mem mf x) →
    runs fetch mr (resume (start_frame (frame_at mm src) f st) mr).
Proof.
  intros Hs Hs0 Hs1 Hf Hst Hcs Hm Hc Hok Hcpl Hold Hesp. exists (switched m old (s + 3996)).
  destruct (created_mem_frame s src f st mm Hs) as (_ & _ & _ & Hfk & Htr). rewrite <- Hm in Hfk, Htr.
  destruct (swtch_saves swtch_at m old (s + 3996) Hc Hok) as (_ & _ & Hload).
  assert (∀ x, s ≤ x < s + 4096 → saved_mem m old x = m_mem m x) as Hsame by (intros x Hx; apply saved_mem_other; lia).
  split_and!; [by apply (swtch_runs fetch swtch_at b)|cbn [m_eip switched]; rewrite Hload; unfold context_at; cbn [x_eip]; rewrite Hfk; by apply u32_small|].
  intros mr (He & Hsp & Hrcs) Hframe. change (m_mem (switched m old (s + 3996))) with (saved_mem m old) in *.
  change (reg_of ESP (switched m old (s + 3996))) with (s + 3996 + 20) in *.
  rewrite (ld32_ext _ (m_mem m)), Htr, u32_small in He by (done || intros x Hx; apply Hsame; lia).
  assert (frame_at (m_mem mr) (s + 4020) = start_frame (frame_at mm src) f st) as Ef.
  { rewrite <- (created_frame s src f st mm Hs Hf Hst), <- Hm. apply frame_at_ext. intros x Hx. rewrite Hframe by lia. apply Hsame. lia. }
  rewrite <- Ef. apply (trapret_runs fetch sym_trapret (s + 4020) mr b' Htrapret He); [lia|lia|lia| |rewrite Ef; exact Hcs].
  unfold cpl. rewrite Hrcs. exact Hcpl.
Qed.

End NewThread.

(** ** A concrete layout *)

Definition demo_vectors (i : Z) : Z := 0x3000 + 4 * i.
Definition demo_fetch (a : Z) : option (instr * Z) :=
  let at_ (base : Z) (l : list instr) := (λ i, (i, a + 1)) <$> l !! Z.to_nat (a - base) in
  if 0x3000 <=? a then at_ (0x3000 + 4 * ((a - 0x3000) / 4)) (vector 0x2000 ((a - 0x3000) / 4))
  else if 0x2000 <=? a then at_ 0x2000 (alltraps 0x9000 ++ trapret)
  else if 0x1000 <=? a then at_ 0x1000 swtch
  else None.

Lemma demo_code : trap_code demo_fetch 0x9000 0x2000 0x200b demo_vectors.
Proof.
  split.
  - intros i Hi. exists (demo_vectors i + Z.of_nat (length (vector 0x2000 i))). unfold demo_vectors.
    assert (∀ j, 0 ≤ j < 4 → demo_fetch (0x3000 + 4 * i + j) = (λ x, (x, 0x3000 + 4 * i + j + 1)) <$> vector 0x2000 i !! Z.to_nat j) as Hf.
    { intros j Hj. unfold demo_fetch. rewrite (proj2 (Z.leb_le _ _)) by lia.
      assert ((0x3000 + 4 * i + j - 0x3000) / 4 = i) as -> by dlia. do 3 f_equal. lia. }
    pose proof (Hf 0 ltac:(lia)) as F0. pose proof (Hf 1 ltac:(lia)) as F1. pose proof (Hf 2 ltac:(lia)) as F2. rewrite Z.add_0_r in F0.
    unfold vector in *. destruct (has_errcode i); cbn [negb app placed length] in *.
    + exists (12288 + 4 * i + 1). split; [exact F0|]. exists (12288 + 4 * i + 1 + 1). split; [exact F1|lia].
    + exists (12288 + 4 * i + 1). split; [exact F0|]. exists (12288 + 4 * i + 1 + 1). split; [exact F1|].
      exists (12288 + 4 * i + 2 + 1). split; [replace (12288 + 4 * i + 1 + 1) with (12288 + 4 * i + 2) by lia; exact F2|lia].
  - exists 0x200a. split; [|split]; [repeat (eexists; split; [reflexivity|])..|unfold word; lia]; reflexivity.
  - exists 0x2012. repeat (eexists; split; [reflexivity|]). reflexivity.
Qed.

(** A user program with the tables in memory. *)
Definition demo_user : machine :=
  Machine (Gprs 13 2 3 4 0x2fec 6 7 8) (Segs 35 35 0 0) 27 35 0x1044 0x200
    (seginit 0x4000 (tvinit_gates demo_vectors 0x5000 (λ _, 0))) 0x5000 0x4000 16 0x80409000.

Lemma demo_tables : tables_ok demo_vectors demo_user.
Proof.
  unfold tables_ok. cbn [m_mem m_idtr m_gdtr demo_user]. split; [|exact (proj1 (seginit_segs _ _))]. intros i Hi.
  rewrite (gate_at_ext _ (tvinit_gates demo_vectors 0x5000 (λ _, 0))) by (apply seginit_other; lia).
  apply tvinit_gates_at; [|done]. intros j Hj. unfold demo_vectors. lia.
Qed.
Lemma demo_user_ok : machine_ok demo_user.
Proof. split; [intros []; done|intros []; done|done..]. Qed.

Lemma trap_roundtrip_witness :
  ∃ m1 mt, deliver T_SYSCALL None true demo_user = Some m1 ∧ runs demo_fetch m1 mt ∧ m_eip mt = 0x9000 ∧
    f_eax (frame_at (m_mem mt) 0x80408fb4) = 13.
Proof.
  destruct (trap_roundtrip demo_fetch 0x9000 0x2000 0x200b demo_vectors T_SYSCALL None true demo_user demo_code demo_tables demo_user_ok
    eq_refl ltac:(unfold T_SYSCALL; lia) (λ _, eq_refl) ltac:(cbn; lia) ltac:(split; [intros [? H0]; discriminate|intros H0; discriminate]) ltac:(cbn; unfold word; lia))
    as (m1 & mt & H1 & H2 & H3 & _ & H4 & _).
  exists m1, mt. split; [exact H1|]. split; [exact H2|]. split; [exact H3|]. change 0x80408fb4 with (m_esp0 demo_user - 76). rewrite H4. reflexivity.
Defined.

(** A thread that calls swtch(0x7000, 0x6000). *)
Definition demo_caller : machine :=
  Machine (Gprs 1 2 3 4 0x8000 6 7 8) (Segs 16 16 0 0) 8 16 0x1000 0
    (st32 (st32 (st32 (λ _, 0) 0x8000 0x1234) 0x8004 0x7000) 0x8008 0x6000) 0x5000 0x4000 16 0x9000.

Lemma demo_swtch : placed demo_fetch 0x1000 swtch 0x100d.
Proof. repeat (eexists; split; [reflexivity|]). reflexivity. Qed.

Lemma swtch_roundtrip_witness : ∃ m', runs demo_fetch demo_caller m' ∧ ld32 (m_mem m') 0x7000 = 0x7ff0.
Proof.
  destruct (swtch_roundtrip demo_fetch 0x1000 0x100d demo_swtch demo_caller 0x7000 0x6000) as (m' & H1 & H2 & _).
  - split; try (cbn; lia); reflexivity.
  - split; [intros []; done|intros []; done|done..].
  - exists m'. split; [exact H1|exact H2].
Defined.

#[local] Instance demo_asm_syms : KSyms :=
  {| sym_trapret := 0x200b; sym_forkret := 0x8000; sym_initcode_start := 0; sym_initcode_size := 44 |}.

(** The creator's frame is that of user code. *)
Definition demo_creator : kernel := set_k_mem (st32 (k_mem demo_create) (0x80500FB4 + 60) 27) demo_create.

