(* ===== verification/Entry.v ===== *)
(** * From power on to C code

    [bootasm.S], [entry.S] and [entryother.S], the instructions that take the
    processor from real mode to a C function, with [asm.h] and the page directory
    [entrypgdir] of [main.c].  The machine has what matters on this way: the segment
    registers with the base addresses behind them, the control registers, the A20
    gate, and physical memory.  Where the assembler puts an instruction is a
    parameter, as in [Asm]: [code a] is the instruction at physical address [a] and
    the address of the next.  The machine follows the processor manual for real mode,
    protected mode, and paging with pages of 4 Mbytes and of 4 Kbytes. *)

From S2P Require Import Prelude Defs X86.

(** ** mmu.h, asm.h, main.c *)

Definition CR0_PE : Z := 0x00000001.
Definition CR0_WP : Z := 0x00010000.
Definition CR0_PG : Z := 0x80000000.
Definition CR4_PSE : Z := 0x00000010.
Definition PTE_PS : Z := 0x080.

Definition SEG_NULLASM : Z * Z := (0, 0).
(** The eight bytes of the macro as two words. *)
Definition SEG_ASM (type base lim : Z) : Z * Z :=
  (Z.land (Z.shiftr lim 12) 0xffff + 2 ^ 16 * Z.land base 0xffff,
   Z.land (Z.shiftr base 16) 0xff + 2 ^ 8 * Z.lor 0x90 type +
   2 ^ 16 * Z.lor 0xC0 (Z.land (Z.shiftr lim 28) 0xf) + 2 ^ 24 * Z.land (Z.shiftr base 24) 0xff).
(** The bootstrap table of [bootasm.S] and [entryother.S]. *)
Definition boot_gdt : list (Z * Z) :=
  [SEG_NULLASM; SEG_ASM (Z.lor STA_X STA_R) 0 0xffffffff; SEG_ASM STA_W 0 0xffffffff].

(** Entry [i] of [entrypgdir]. *)
Definition entrypgdir (i : Z) : Z :=
  if i =? 0 then Z.lor (Z.lor (Z.lor 0 PTE_P) PTE_W) PTE_PS
  else if i =? Z.shiftr KERNBASE 22 then Z.lor (Z.lor (Z.lor 0 PTE_P) PTE_W) PTE_PS
  else 0.

(** ** The machine *)

(** A segment register: what was loaded, and the base behind it. *)
Record segreg := Seg { sr_sel : Z; sr_base : Z }.
Inductive bseg := BDS | BES | BSS | BFS | BGS.
Record bsegs := Bsegs { g_ds : segreg; g_es : segreg; g_ss : segreg; g_fs : segreg; g_gs : segreg }.
Inductive creg := CR0 | CR3 | CR4.
Record cregs := Cregs { c_cr0 : Z; c_cr3 : Z; c_cr4 : Z }.

Record boot := Boot {
  b_eax : Z; b_edx : Z; b_esp : Z; b_eip : Z; b_zf : bool; b_if : bool;
  b_cs : segreg; b_segs : bsegs;
  b_cr : cregs; b_gdtr : Z;
  b_cmd : bool;  (* the keyboard controller waits for its output port *)
  b_a20 : bool;
  b_status : list Z;  (* what port 0x64 will answer *)
  b_mem : memory
}.

Definition set_eax v s := Boot v (b_edx s) (b_esp s) (b_eip s) (b_zf s) (b_if s) (b_cs s) (b_segs s) (b_cr s) (b_gdtr s) (b_cmd s) (b_a20 s) (b_status s) (b_mem s).
Definition set_edx v s := Boot (b_eax s) v (b_esp s) (b_eip s) (b_zf s) (b_if s) (b_cs s) (b_segs s) (b_cr s) (b_gdtr s) (b_cmd s) (b_a20 s) (b_status s) (b_mem s).
Definition set_esp v s := Boot (b_eax s) (b_edx s) v (b_eip s) (b_zf s) (b_if s) (b_cs s) (b_segs s) (b_cr s) (b_gdtr s) (b_cmd s) (b_a20 s) (b_status s) (b_mem s).
Definition set_eip v s := Boot (b_eax s) (b_edx s) (b_esp s) v (b_zf s) (b_if s) (b_cs s) (b_segs s) (b_cr s) (b_gdtr s) (b_cmd s) (b_a20 s) (b_status s) (b_mem s).
Definition set_zf v s := Boot (b_eax s) (b_edx s) (b_esp s) (b_eip s) v (b_if s) (b_cs s) (b_segs s) (b_cr s) (b_gdtr s) (b_cmd s) (b_a20 s) (b_status s) (b_mem s).
Definition set_bif v s := Boot (b_eax s) (b_edx s) (b_esp s) (b_eip s) (b_zf s) v (b_cs s) (b_segs s) (b_cr s) (b_gdtr s) (b_cmd s) (b_a20 s) (b_status s) (b_mem s).
Definition set_cs v s := Boot (b_eax s) (b_edx s) (b_esp s) (b_eip s) (b_zf s) (b_if s) v (b_segs s) (b_cr s) (b_gdtr s) (b_cmd s) (b_a20 s) (b_status s) (b_mem s).
Definition set_segs v s := Boot (b_eax s) (b_edx s) (b_esp s) (b_eip s) (b_zf s) (b_if s) (b_cs s) v (b_cr s) (b_gdtr s) (b_cmd s) (b_a20 s) (b_status s) (b_mem s).
Definition set_cr v s := Boot (b_eax s) (b_edx s) (b_esp s) (b_eip s) (b_zf s) (b_if s) (b_cs s) (b_segs s) v (b_gdtr s) (b_cmd s) (b_a20 s) (b_status s) (b_mem s).
Definition set_gdtr v s := Boot (b_eax s) (b_edx s) (b_esp s) (b_eip s) (b_zf s) (b_if s) (b_cs s) (b_segs s) (b_cr s) v (b_cmd s) (b_a20 s) (b_status s) (b_mem s).
Definition set_kbc c a s := Boot (b_eax s) (b_edx s) (b_esp s) (b_eip s) (b_zf s) (b_if s) (b_cs s) (b_segs s) (b_cr s) (b_gdtr s) c a (b_status s) (b_mem s).
Definition set_status v s := Boot (b_eax s) (b_edx s) (b_esp s) (b_eip s) (b_zf s) (b_if s) (b_cs s) (b_segs s) (b_cr s) (b_gdtr s) (b_cmd s) (b_a20 s) v (b_mem s).
Definition set_bmem v s := Boot (b_eax s) (b_edx s) (b_esp s) (b_eip s) (b_zf s) (b_if s) (b_cs s) (b_segs s) (b_cr s) (b_gdtr s) (b_cmd s) (b_a20 s) (b_status s) v.

Definition bseg_put (r : bseg) (v : segreg) (x : bsegs) : bsegs :=
  let '(Bsegs d e ss f g) := x in
  match r with
  | BDS => Bsegs v e ss f g | BES => Bsegs d v ss f g | BSS => Bsegs d e v f g | BFS => Bsegs d e ss v g | BGS => Bsegs d e ss f v
  end.
Definition creg_get (r : creg) (x : cregs) : Z := match r with CR0 => c_cr0 x | CR3 => c_cr3 x | CR4 => c_cr4 x end.
Definition creg_put (r : creg) (v : Z) (x : cregs) : cregs :=
  let '(Cregs a b c) := x in match r with CR0 => Cregs v b c | CR3 => Cregs a v c | CR4 => Cregs a b v end.

Definition protected (s : boot) : bool := negb (Z.land (c_cr0 (b_cr s)) CR0_PE =? 0).
Definition paging (s : boot) : bool := negb (Z.land (c_cr0 (b_cr s)) CR0_PG =? 0).

(** The address on the bus: without A20 its bit 20 is zero. *)
Definition bus (s : boot) (a : Z) : Z := if b_a20 s || negb (Z.testbit a 20) then a else a - 2 ^ 20.
Definition phys32 (s : boot) (a : Z) : Z := ld32 (b_mem s) (bus s a).

(** The physical address of a linear one. *)
Definition linear (s : boot) (a : Z) : option Z :=
  if paging s then
    let pde := phys32 s (Z.land (c_cr3 (b_cr s)) 0xfffff000 + 4 * (a / 2 ^ 22)) in
    if Z.land pde PTE_P =? 0 then None
    else if negb (Z.land pde PTE_PS =? 0) && negb (Z.land (c_cr4 (b_cr s)) CR4_PSE =? 0)
    then Some (bus s (Z.land pde 0xffc00000 + a `mod` 2 ^ 22))
    else
      let pte := phys32 s (Z.land pde 0xfffff000 + 4 * ((a / 2 ^ 12) `mod` 2 ^ 10)) in
      if Z.land pte PTE_P =? 0 then None else Some (bus s (Z.land pte 0xfffff000 + a `mod` 2 ^ 12))
  else Some (bus s a).

(** Loading a segment register: a shift in real mode, a descriptor in protected mode,
    where the null selector leaves the segment without use. *)
Definition seg_load (s : boot) (sel : Z) : option segreg :=
  if protected s then
    if sel =? 0 then Some (Seg 0 0)
    else match seg_at (b_mem s) (b_gdtr s) (sel / 8) with Some d => Some (Seg sel (sg_base d)) | None => None end
  else Some (Seg sel (16 * sel)).

(** ** Instructions *)

Inductive binstr :=
  | ICli | IXorAx | IMovAxSeg (r : bseg) | IInAl (port : Z) | ITestAl (v : Z) | IJnz (target : Z)
  | IMovAl (v : Z) | IOutAl (port : Z) | ILgdt (off : Z) | IMovFromCr (c : creg) | IOrEax (v : Z) | IMovToCr (c : creg)
  | ILjmp (sel off : Z) | IMovAx (v : Z) | IMovEsp (v : Z) | IMovEax (v : Z) | IMovMemEax (off : Z) | IMovMemEsp (off : Z)
  | ICall (target : Z) | ICallMem (off : Z) | IJmpEax | IMovAxDx | IOutwAxDx | IJmp (target : Z).

Definition low16 (v x : Z) : Z := x / 65536 * 65536 + u16 v.
Definition low8 (v x : Z) : Z := x / 256 * 256 + u8 v.

(** A word of the data segment. *)
Definition data32 (s : boot) (off : Z) : option Z :=
  match linear s (u32 (sr_base (g_ds (b_segs s)) + off)) with Some p => Some (ld32 (b_mem s) p) | None => None end.
Definition pushes (s : boot) (v : Z) : option boot :=
  let sp := u32 (b_esp s - 4) in
  match linear s (u32 (sr_base (g_ss (b_segs s)) + sp)) with
  | Some p => Some (set_bmem (st32 (b_mem s) p v) (set_esp sp s))
  | None => None
  end.

(** The keyboard controller: command 0xd1 takes the next byte at port 0x60 as its
    output port, whose bit 1 is the A20 gate. *)
Definition outb_kbc (port v : Z) (s : boot) : boot :=
  if port =? 0x64 then set_kbc (v =? 0xd1) (b_a20 s) s
  else if port =? 0x60 then set_kbc false (if b_cmd s then Z.testbit v 1 else b_a20 s) s
  else s.

(** [nxt] is the offset of the instruction that follows. *)
Definition bexec (s : boot) (i : binstr) (nxt : Z) : option boot :=
  let go (s : boot) := Some (set_eip nxt s) in
  match i with
  | ICli => go (set_bif false s)
  | IXorAx => go (set_zf true (set_eax (low16 0 (b_eax s)) s))
  | IMovAxSeg r =>
      match seg_load s (u16 (b_eax s)) with
      | Some x => go (set_segs (bseg_put r x (b_segs s)) s)
      | None => None
      end
  | IInAl port =>
      match b_status s with
      | [] => None
      | v :: l => go (set_status l (set_eax (low8 v (b_eax s)) s))
      end
  | ITestAl v => go (set_zf (Z.land (u8 (b_eax s)) v =? 0) s)
  | IJnz target => if b_zf s then go s else Some (set_eip target s)
  | IMovAl v => go (set_eax (low8 v (b_eax s)) s)
  | IOutAl port => go (outb_kbc port (u8 (b_eax s)) s)
  | ILgdt off =>
      match linear s (u32 (sr_base (g_ds (b_segs s)) + off + 2)) with
      | Some p => go (set_gdtr (ld32 (b_mem s) p `mod` 2 ^ 24) s)  (* as 16-bit code loads it *)
      | None => None
      end
  | IMovFromCr c => go (set_eax (creg_get c (b_cr s)) s)
  | IOrEax v => go (set_zf (Z.lor (b_eax s) v =? 0) (set_eax (Z.lor (b_eax s) v) s))
  | IMovToCr c => go (set_cr (creg_put c (b_eax s) (b_cr s)) s)
  | ILjmp sel off =>
      match seg_load s sel with
      | Some x => Some (set_eip off (set_cs x s))
      | None => None
      end
  | IMovAx v => go (set_eax (low16 v (b_eax s)) s)
  | IMovEsp v => go (set_esp (u32 v) s)
  | IMovEax v => go (set_eax (u32 v) s)
  | IMovMemEax off => match data32 s off with Some v => go (set_eax v s) | None => None end
  | IMovMemEsp off => match data32 s off with Some v => go (set_esp v s) | None => None end
  | ICall target => match pushes s nxt with Some s' => Some (set_eip target s') | None => None end
  | ICallMem off =>
      match data32 s off with
      | Some v => match pushes s nxt with Some s' => Some (set_eip v s') | None => None end
      | None => None
      end
  | IJmpEax => Some (set_eip (b_eax s) s)
  | IMovAxDx => go (set_edx (low16 (b_eax s) (b_edx s)) s)
  | IOutwAxDx => go s
  | IJmp target => Some (set_eip target s)
  end.

Section Machine.
Context (code : Z → option (binstr * Z)).

Definition bstep (s : boot) : option boot :=
  match linear s (u32 (sr_base (b_cs s) + b_eip s)) with
  | None => None
  | Some p =>
      match code p with
      | None => None
      | Some (i, q) => bexec s i (b_eip s + (q - p))
      end
  end.
Fixpoint bsteps (n : nat) (s : boot) : option boot :=
  match n with O => Some s | S n' => match bstep s with Some s' => bsteps n' s' | None => None end end.
Definition reaches (s s' : boot) : Prop := ∃ n, bsteps n s = Some s'.

(** The instructions [l] from address [a] up to [b]. *)
Fixpoint laid (a : Z) (l : list binstr) (b : Z) : Prop :=
  match l with
  | [] => a = b
  | i :: l' => ∃ q, code a = Some (i, q) ∧ laid q l' b
  end.
End Machine.

(** ** The programs *)

(** bootasm.S: [start] to [seta20.1], to [seta20.2], to the far jump, and from [start32]
    on. *)
Definition bootasm_head : list binstr := [ICli; IXorAx; IMovAxSeg BDS; IMovAxSeg BES; IMovAxSeg BSS].
Definition seta20 (label v port : Z) : list binstr := [IInAl 0x64; ITestAl 2; IJnz label; IMovAl v; IOutAl port].
Definition to_protected (gdtdesc start32 : Z) : list binstr :=
  [ILgdt gdtdesc; IMovFromCr CR0; IOrEax CR0_PE; IMovToCr CR0; ILjmp (Z.shiftl SEG_KCODE 3) start32].
Definition data_segments : list binstr :=
  [IMovAx (Z.shiftl SEG_KDATA 3); IMovAxSeg BDS; IMovAxSeg BES; IMovAxSeg BSS; IMovAx 0; IMovAxSeg BFS; IMovAxSeg BGS].
Definition bochs (spin : Z) : list binstr := [IMovAx 0x8a00; IMovAxDx; IOutwAxDx; IMovAx 0x8ae0; IOutwAxDx; IJmp spin].
Definition bootasm_32 (start bootmain spin : Z) : list binstr :=
  data_segments ++ [IMovEsp start; ICall bootmain] ++ bochs spin.

(** entry.S *)
Definition enable_paging (flags : Z) (load_cr3 : binstr) : list binstr :=
  [IMovFromCr CR4; IOrEax CR4_PSE; IMovToCr CR4; load_cr3; IMovToCr CR3; IMovFromCr CR0; IOrEax flags; IMovToCr CR0].
Definition entry_S (pgdir stack main : Z) : list binstr :=
  enable_paging (Z.lor CR0_PG CR0_WP) (IMovEax pgdir) ++ [IMovEsp (stack + KSTACKSIZE); IMovEax main; IJmpEax].

(** entryother.S *)
Definition entryother_16 (gdtdesc start32 : Z) : list binstr := bootasm_head ++ to_protected gdtdesc start32.
Definition entryother_32 (start spin : Z) : list binstr :=
  data_segments ++ enable_paging (Z.lor (Z.lor CR0_PE CR0_PG) CR0_WP) (IMovMemEax (start - 12)) ++
  [IMovMemEsp (start - 4); ICallMem (start - 8)] ++ bochs spin.

(** ** Running *)

Lemma bsteps_app code n m s s' : bsteps code n s = Some s' → bsteps code (n + m) s = bsteps code m s'.
Proof.
  revert s. induction n as [|n IH]; intros s; cbn; [by intros [= ->]|]. destruct (bstep code s); [apply IH|done].
Qed.
Lemma reaches_trans code s1 s2 s3 : reaches code s1 s2 → reaches code s2 s3 → reaches code s1 s3.
Proof. intros [n Hn] [m Hm]. exists (n + m)%nat. by rewrite (bsteps_app _ _ _ _ _ Hn). Qed.
Lemma reaches_refl code s : reaches code s s.
Proof. by exists 0%nat. Qed.
Lemma reaches_step code s p i q s' s'' :
  linear s (u32 (sr_base (b_cs s) + b_eip s)) = Some p → code p = Some (i, q) → bexec s i (b_eip s + (q - p)) = Some s' →
  reaches code s' s'' → reaches code s s''.
Proof.
  intros Hl Hc He [n Hn]. exists (S n). cbn. unfold bstep. by rewrite Hl, Hc, He.
Qed.

(** The code is where linear and physical addresses agree. *)
Definition flat (s : boot) (hi : Z) : Prop := ∀ a, 0 ≤ a < hi → linear s a = Some a.

Section Straight.
Context (code : Z → option (binstr * Z)) (hi : Z) (Hhi : hi ≤ 4294967296).
Context (Hcode : ∀ a i q, code a = Some (i, q) → 0 ≤ a < hi).

Lemma step_at s p i q s' s'' :
  b_eip s = p - sr_base (b_cs s) → flat s hi → code p = Some (i, q) → bexec s i (q - sr_base (b_cs s)) = Some s' →
  reaches code s' s'' → reaches code s s''.
Proof.
  intros He Hf Hc Hx. pose proof (Hcode _ _ _ Hc) as Hr. apply (reaches_step _ _ p i q).
  - replace (sr_base (b_cs s) + b_eip s) with p by lia. rewrite u32_small by lia. by apply Hf.
  - done.
  - by replace (b_eip s + (q - p)) with (q - sr_base (b_cs s)) by lia.
Qed.
End Straight.

Lemma flat_low s : paging s = false → flat s (2 ^ 20).
Proof.
  intros Hp a Ha. unfold linear. rewrite Hp. unfold bus.
  assert (Z.testbit a 20 = false) as -> by (apply Z.testbit_false; [lia|]; by rewrite Z.div_small by lia). by rewrite orb_true_r.
Qed.
Lemma linear_low s a : paging s = false → 0 ≤ a < 2 ^ 20 → linear s a = Some a.
Proof. intros Hp Ha. by apply (flat_low s Hp). Qed.
Lemma flat_a20 s hi : paging s = false → b_a20 s = true → flat s hi.
Proof. intros Hp Ha a _. unfold linear, bus. by rewrite Hp, Ha. Qed.

(** The bootstrap segments are flat. *)
Definition gdt_in (m : memory) (gdt : Z) : Prop :=
  ∀ i lo hi, boot_gdt !! i = Some (lo, hi) → ld32 m (gdt + 8 * Z.of_nat i) = lo ∧ ld32 m (gdt + 8 * Z.of_nat i + 4) = hi.
Lemma boot_gdt_flat m gdt :
  gdt_in m gdt → seg_at m gdt 1 = Some (Segment 0 0xffffffff 10 true 0) ∧ seg_at m gdt 2 = Some (Segment 0 0xffffffff 2 true 0).
Proof.
  intros H. unfold seg_at. split.
  - destruct (H 1%nat _ _ eq_refl) as [E1 E2]. change (8 * Z.of_nat 1) with (8 * 1) in *. rewrite E1, E2. by vm_compute.
  - destruct (H 2%nat _ _ eq_refl) as [E1 E2]. change (8 * Z.of_nat 2) with (8 * 2) in *. rewrite E1, E2. by vm_compute.
Qed.

(** States as records of their fields. *)
Ltac bnorm :=
  cbv beta iota zeta delta [set_eax set_edx set_esp set_eip set_zf set_bif set_cs set_segs set_cr set_gdtr set_kbc set_status set_bmem
    b_eax b_edx b_esp b_eip b_zf b_if b_cs b_segs b_cr b_gdtr b_cmd b_a20 b_status b_mem sr_base sr_sel bseg_put creg_get creg_put g_ds g_ss c_cr0 c_cr3 c_cr4];
  rewrite ?Z.sub_0_r.

Section Bootasm.
Context (code : Z → option (binstr * Z)) (Hcode : ∀ a i q, code a = Some (i, q) → 0 ≤ a < 2 ^ 20).

(** A step of code below one megabyte, without paging. *)
Lemma low_step s p i q s' s'' :
  code p = Some (i, q) → b_eip s = p - sr_base (b_cs s) → paging s = false → bexec s i (q - sr_base (b_cs s)) = Some s' →
  reaches code s' s'' → reaches code s s''.
Proof. intros Hc He Hp Hx. apply (step_at code (2 ^ 20) ltac:(lia) Hcode s p i q s' s'' He (flat_low s Hp) Hc Hx). Qed.

Definition busy (v : Z) : Prop := Z.land (u8 v) 2 ≠ 0.

Lemma low8_u8 v x : u8 (low8 v x) = u8 v.
Proof. unfold low8, u8. dlia. Qed.
Lemma low16_u16 v x : u16 (low16 v x) = u16 v.
Proof. unfold low16, u16. dlia. Qed.

Local Ltac go H Hpg := eapply (low_step _ _ _ _ _ _ H); [cbn; lia|by apply Hpg|unfold bexec; bnorm; reflexivity|].

(** Waiting for the keyboard controller. *)
Lemma seta20_wait label v port nxt eax edx esp zf fi c segs cr gdtr cmd a20 w x rest mem :
  laid code label (seta20 label v port) nxt → Z.land (c_cr0 cr) CR0_PG = 0 → Forall busy w → ¬ busy x →
  ∃ eax', reaches code (Boot eax edx esp label zf fi (Seg c 0) segs cr gdtr cmd a20 (w ++ x :: rest) mem)
    (outb_kbc port (u8 v) (Boot eax' edx esp nxt true fi (Seg c 0) segs cr gdtr cmd a20 rest mem)).
Proof.
  intros (q1 & H1 & q2 & H2 & q3 & H3 & q4 & H4 & q5 & H5 & <-) Hp Hw Hx.
  assert (∀ s, b_cr s = cr → paging s = false) as Hpg by (intros s <-; unfold paging; by rewrite Hp).
  revert eax zf. induction Hw as [|y w Hy _ IH]; intros eax zf; cbn [app].
  - exists (low8 v (low8 x eax)). go H1 Hpg. go H2 Hpg. rewrite low8_u8.
    assert ((Z.land (u8 x) 2 =? 0) = true) as -> by (apply Z.eqb_eq; unfold busy in Hx; lia).
    go H3 Hpg. go H4 Hpg. go H5 Hpg. rewrite low8_u8. unfold outb_kbc.
    destruct (port =? 0x64), (port =? 0x60); apply reaches_refl.
  - destruct (IH (low8 y eax) false) as [eax' He]. exists eax'. go H1 Hpg. go H2 Hpg. rewrite low8_u8.
    assert ((Z.land (u8 y) 2 =? 0) = false) as -> by (by apply Z.eqb_neq). go H3 Hpg. exact He.
Qed.

Local Ltac goseg H Hpg v Hs :=
  eapply (low_step _ _ _ _ _ _ H); [cbn; lia|by apply Hpg|unfold bexec; bnorm; rewrite low16_u16; change (u16 _) with v; rewrite Hs by reflexivity; bnorm; reflexivity|].

(** Setting the segment registers with the bootstrap table. *)
Definition flat_segs : bsegs := Bsegs (Seg 16 0) (Seg 16 0) (Seg 16 0) (Seg 0 0) (Seg 0 0).

Lemma data_segments_run a nxt l eax edx esp zf fi segs cr gdtr cmd a20 st mem :
  laid code a (data_segments ++ l) nxt → Z.land (c_cr0 cr) CR0_PG = 0 → Z.land (c_cr0 cr) CR0_PE ≠ 0 → gdt_in mem gdtr →
  ∃ b eax', laid code b l nxt ∧
    reaches code (Boot eax edx esp a zf fi (Seg 8 0) segs cr gdtr cmd a20 st mem)
      (Boot eax' edx esp b zf fi (Seg 8 0) flat_segs cr gdtr cmd a20 st mem).
Proof.
  intros (q1 & H1 & q2 & H2 & q3 & H3 & q4 & H4 & q5 & H5 & q6 & H6 & q7 & H7 & Hl) Hp He Hg. destruct segs as [d e ss f g]. exists q7. eexists. split; [done|].
  assert (∀ s, b_cr s = cr → paging s = false) as Hpg by (intros s <-; unfold paging; by rewrite Hp).
  destruct (boot_gdt_flat _ _ Hg) as [_ Hd].
  assert (∀ s, b_cr s = cr → b_mem s = mem → b_gdtr s = gdtr → seg_load s 16 = Some (Seg 16 0) ∧ seg_load s 0 = Some (Seg 0 0)) as Hs.
  { intros s Hc <- <-. unfold seg_load, protected. rewrite Hc, (proj2 (Z.eqb_neq _ _) He). cbn [negb]. split; [|done].
    change (16 =? 0) with false. change (16 / 8) with 2. by rewrite Hd. }
  assert (∀ s, b_cr s = cr → b_mem s = mem → b_gdtr s = gdtr → seg_load s 16 = Some (Seg 16 0)) as Hs16 by (intros; by apply Hs).
  assert (∀ s, b_cr s = cr → b_mem s = mem → b_gdtr s = gdtr → seg_load s 0 = Some (Seg 0 0)) as Hs0 by (intros; by apply Hs).
  go H1 Hpg. goseg H2 Hpg 16 Hs16. goseg H3 Hpg 16 Hs16. goseg H4 Hpg 16 Hs16. go H5 Hpg. goseg H6 Hpg 0 Hs0. goseg H7 Hpg 0 Hs0.
  apply reaches_refl.
Qed.

(** The bootstrap table is where [gdtdesc] says. *)
Record boot_tables (m : memory) (gdtdesc gdt : Z) : Prop := {
  bt_desc : 0 ≤ gdtdesc < 2 ^ 20 - 6;
  bt_addr : ld32 m (gdtdesc + 2) = gdt;
  bt_low : 0 ≤ gdt < 2 ^ 20;
  bt_gdt : gdt_in m gdt
}.

(** From the table to 32-bit code. *)
Lemma to_protected_run a nxt gdtdesc gdt start32 eax edx esp zf fi c e ss f g cr gdtr cmd a20 st mem base :
  laid code a (to_protected gdtdesc start32) nxt → Z.land (c_cr0 cr) CR0_PG = 0 → boot_tables mem gdtdesc gdt →
  ∃ eax', reaches code (Boot eax edx esp (a - base) zf fi (Seg c base) (Bsegs (Seg 0 0) e ss f g) cr gdtr cmd a20 st mem)
    (Boot eax' edx esp start32 false fi (Seg 8 0) (Bsegs (Seg 0 0) e ss f g) (creg_put CR0 (Z.lor (c_cr0 cr) CR0_PE) cr) gdt cmd a20 st mem).
Proof.
  intros (q1 & H1 & q2 & H2 & q3 & H3 & q4 & H4 & q5 & H5 & _) Hp [Hd Ha Hlow Hg]. destruct cr as [c0 c3 c4]. cbn [c_cr0] in *. eexists.
  assert (∀ s, b_cr s = Cregs c0 c3 c4 → paging s = false) as Hpg by (intros s Hc; unfold paging; rewrite Hc; cbn [c_cr0]; by rewrite Hp).
  eapply (low_step _ _ _ _ _ _ H1); [cbn; lia|by apply Hpg|unfold bexec; bnorm|].
  { rewrite Z.add_0_l, u32_small by lia. rewrite linear_low by (by apply Hpg || lia). bnorm. rewrite Ha, Z.mod_small by lia. reflexivity. }
  go H2 Hpg. go H3 Hpg. go H4 Hpg.
  assert (Z.land (Z.lor c0 CR0_PE) CR0_PG = 0) as Hp' by (rewrite Z.land_lor_distr_l, Hp; done).
  assert (Z.land (Z.lor c0 CR0_PE) CR0_PE ≠ 0) as He'.
  { rewrite Z.land_lor_distr_l. intros H. apply Z.lor_eq_0_iff in H as [_ H]. done. }
  eapply (low_step _ _ _ _ _ _ H5); [cbn; lia|unfold paging; bnorm; by rewrite Hp'|unfold bexec; bnorm|].
  { unfold seg_load, protected. bnorm. rewrite (proj2 (Z.eqb_neq _ _) He'). cbn [negb]. change (Z.shiftl SEG_KCODE 3) with 8.
    change (8 =? 0) with false. change (8 / 8) with 1. rewrite (proj1 (boot_gdt_flat _ _ Hg)). cbn [sg_base]. bnorm. reflexivity. }
  replace (Z.lor c0 CR0_PE =? 0) with false by (symmetry; apply Z.eqb_neq; intros H; by rewrite H in He').
  apply reaches_refl.
Qed.

(** Real mode. *)
Record real_mode (cr : cregs) : Prop := { rm_pe : Z.land (c_cr0 cr) CR0_PE = 0; rm_pg : Z.land (c_cr0 cr) CR0_PG = 0 }.

Lemma bootasm_head_run a nxt l eax edx esp zf fi c segs cr gdtr cmd a20 st mem base :
  laid code a (bootasm_head ++ l) nxt → real_mode cr →
  ∃ b eax', laid code b l nxt ∧
    reaches code (Boot eax edx esp (a - base) zf fi (Seg c base) segs cr gdtr cmd a20 st mem)
      (Boot eax' edx esp (b - base) true false (Seg c base) (Bsegs (Seg 0 0) (Seg 0 0) (Seg 0 0) (g_fs segs) (g_gs segs)) cr gdtr cmd a20 st mem).
Proof.
  intros (q1 & H1 & q2 & H2 & q3 & H3 & q4 & H4 & q5 & H5 & Hl) [Hpe Hp]. destruct segs as [d e ss f g]. exists q5. eexists. split; [done|].
  assert (∀ s, b_cr s = cr → paging s = false) as Hpg by (intros s <-; unfold paging; by rewrite Hp).
  assert (∀ s, b_cr s = cr → b_mem s = b_mem s → b_gdtr s = b_gdtr s → seg_load s 0 = Some (Seg 0 0)) as Hs.
  { intros s Hc _ _. unfold seg_load, protected. by rewrite Hc, Hpe. }
  go H1 Hpg. go H2 Hpg. goseg H3 Hpg 0 Hs. goseg H4 Hpg 0 Hs. goseg H5 Hpg 0 Hs. apply reaches_refl.
Qed.
(** [C35] bootasm.S.  Started by the BIOS in real mode at [start], with the A20 gate off or
    on, interrupts on or off, and any contents of the registers, the boot block gets to
    bootmain in 32-bit protected mode: code and data segments flat, interrupts
    disabled, the A20 gate open however long the keyboard controller is busy, and the
    stack just below the code, with nothing of memory changed but the word of the
    return address. *)
Theorem bootasm_enters start a1 a2 a3 e1 start32 e2 gdtdesc gdt bootmain spin eax edx esp zf fi segs cr gdtr cmd a20 w1 v1 w2 v2 rest mem :
  laid code start bootasm_head a1 → laid code a1 (seta20 a1 0xd1 0x64) a2 → laid code a2 (seta20 a2 0xdf 0x60) a3 →
  laid code a3 (to_protected gdtdesc start32) e1 → laid code start32 (bootasm_32 start bootmain spin) e2 →
  boot_tables mem gdtdesc gdt → real_mode cr → 4 ≤ start < 2 ^ 20 →
  Forall busy w1 → ¬ busy v1 → Forall busy w2 → ¬ busy v2 →
  ∃ eax' r, reaches code
    (Boot eax edx esp start zf fi (Seg 0 0) segs cr gdtr cmd a20 (w1 ++ v1 :: w2 ++ v2 :: rest) mem)
    (Boot eax' edx (start - 4) bootmain false false (Seg (Z.shiftl SEG_KCODE 3) 0) flat_segs
       (creg_put CR0 (Z.lor (c_cr0 cr) CR0_PE) cr) gdt false true rest (st32 mem (start - 4) r)).
Proof.
  intros L1 L2 L3 L4 L5 Ht Hr Hs Hw1 Hv1 Hw2 Hv2.
  destruct (bootasm_head_run start a1 [] eax edx esp zf fi 0 segs cr gdtr cmd a20 (w1 ++ v1 :: w2 ++ v2 :: rest) mem 0 L1 Hr) as (b & x1 & <- & R1).
  rewrite !Z.sub_0_r in R1. destruct (seta20_wait _ _ _ _ x1 edx esp true false 0
    (Bsegs (Seg 0 0) (Seg 0 0) (Seg 0 0) (g_fs segs) (g_gs segs)) cr gdtr cmd a20 w1 v1 (w2 ++ v2 :: rest) mem L2 (rm_pg _ Hr) Hw1 Hv1) as [x2 R2].
  destruct (seta20_wait _ _ _ _ x2 edx esp true false 0
    (Bsegs (Seg 0 0) (Seg 0 0) (Seg 0 0) (g_fs segs) (g_gs segs)) cr gdtr true a20 w2 v2 rest mem L3 (rm_pg _ Hr) Hw2 Hv2) as [x3 R3].
  destruct (to_protected_run a3 e1 gdtdesc gdt start32 x3 edx esp true false 0 (Seg 0 0) (Seg 0 0) (g_fs segs) (g_gs segs) cr gdtr
    false true rest mem 0 L4 (rm_pg _ Hr) Ht) as [x4 R4]. rewrite Z.sub_0_r in R4.
  set (cr' := creg_put CR0 (Z.lor (c_cr0 cr) CR0_PE) cr) in *.
  assert (c_cr0 cr' = Z.lor (c_cr0 cr) CR0_PE) as Ec by (unfold cr'; by destruct cr).
  assert (Z.land (c_cr0 cr') CR0_PG = 0) as Hpg by (rewrite Ec, Z.land_lor_distr_l, (rm_pg _ Hr); done).
  assert (Z.land (c_cr0 cr') CR0_PE ≠ 0) as Hpe by (rewrite Ec, Z.land_lor_distr_l, (rm_pe _ Hr); done).
  destruct (data_segments_run start32 e2 _ x4 edx esp false false (Bsegs (Seg 0 0) (Seg 0 0) (Seg 0 0) (g_fs segs) (g_gs segs)) cr' gdt false true rest mem L5 Hpg Hpe (bt_gdt _ _ _ Ht)) as (c & x5 & L6 & R5).
  destruct L6 as (q1 & H1 & q2 & H2 & _).
  exists x5, q2. eapply reaches_trans; [exact R1|]. eapply reaches_trans; [exact R2|]. eapply reaches_trans; [exact R3|].
  eapply reaches_trans; [exact R4|]. eapply reaches_trans; [exact R5|].
  assert (∀ s, b_cr s = cr' → paging s = false) as Hp by (intros s Hc; unfold paging; by rewrite Hc, Hpg).
  go H1 Hp. eapply (low_step _ _ _ _ _ _ H2); [cbn; lia|by apply Hp|unfold bexec, pushes; bnorm|].
  { rewrite (u32_small start), (u32_small (start - 4)) by lia. cbn [flat_segs g_ss sr_base]. rewrite Z.add_0_l, (u32_small (start - 4)) by lia.
    rewrite linear_low by (by apply Hp || lia). bnorm. reflexivity. }
  apply reaches_refl.
Qed.
End Bootasm.

(** ** Paging *)

(** The page directory in memory, on a page boundary. *)
Record pgdir_in (m : memory) (pgdir : Z) : Prop := {
  pi_aligned : Z.land pgdir 0xfffff000 = pgdir;
  pi_range : 0 ≤ pgdir < 4294967296;
  pi_entries : ∀ i, 0 ≤ i < 1024 → ld32 m (pgdir + 4 * i) = entrypgdir i
}.

(** Translation with [entrypgdir]: the first four megabytes, at their own addresses and
    from KERNBASE on, and nothing else. *)
Lemma linear_boot s pgdir :
  paging s = true → b_a20 s = true → c_cr3 (b_cr s) = pgdir → Z.land (c_cr4 (b_cr s)) CR4_PSE ≠ 0 → pgdir_in (b_mem s) pgdir →
  ∀ a, 0 ≤ a < 4294967296 →
    linear s a = if a <? 2 ^ 22 then Some a else if (KERNBASE <=? a) && (a <? KERNBASE + 2 ^ 22) then Some (a - KERNBASE) else None.
Proof.
  intros Hp Ha <- H4 [Hal Hr He] a Hra. unfold linear. rewrite Hp, Hal. unfold phys32, bus. rewrite Ha. cbn [orb].
  rewrite He by dlia. rewrite (proj2 (Z.eqb_neq _ _) H4). unfold entrypgdir. change (Z.shiftr KERNBASE 22) with 512.
  assert ((a / 2 ^ 22 =? 0) = (a <? 2 ^ 22)) as ->.
  { destruct (Z.eqb_spec (a / 2 ^ 22) 0), (Z.ltb_spec a (2 ^ 22)); try done; exfalso; dlia. }
  assert ((a / 2 ^ 22 =? 512) = (KERNBASE <=? a) && (a <? KERNBASE + 2 ^ 22)) as ->.
  { change KERNBASE with 0x80000000. destruct (Z.eqb_spec (a / 2 ^ 22) 512), (Z.leb_spec 0x80000000 a), (Z.ltb_spec a (0x80000000 + 2 ^ 22)); try done; exfalso; dlia. }
  destruct (Z.ltb_spec a (2 ^ 22)) as [Hlt|Hge]; [|destruct ((KERNBASE <=? a) && _) eqn:E]; [..|done].
  - cbn. f_equal. change (2 ^ 22) with 4194304 in *. by rewrite Z.mod_small by lia.
  - cbn. f_equal. to_prop. change (2 ^ 22) with 4194304 in *. change KERNBASE with 0x80000000 in *.
    change (Z.land _ 4290772992) with 0. dlia.
Qed.

Section Paging.
Context (code : Z → option (binstr * Z)) (Hcode : ∀ a i q, code a = Some (i, q) → 0 ≤ a < 2 ^ 22).

Lemma a20_step s p i q s' s'' :
  code p = Some (i, q) → b_eip s = p - sr_base (b_cs s) → paging s = false → b_a20 s = true →
  bexec s i (q - sr_base (b_cs s)) = Some s' → reaches code s' s'' → reaches code s s''.
Proof. intros Hc He Hp Ha Hx. exact (step_at code (2 ^ 22) ltac:(lia) Hcode s p i q s' s'' He (flat_a20 s _ Hp Ha) Hc Hx). Qed.

Lemma paged_step s p i q s' s'' pgdir :
  code p = Some (i, q) → b_eip s = p - sr_base (b_cs s) → paging s = true → b_a20 s = true → c_cr3 (b_cr s) = pgdir →
  Z.land (c_cr4 (b_cr s)) CR4_PSE ≠ 0 → pgdir_in (b_mem s) pgdir →
  bexec s i (q - sr_base (b_cs s)) = Some s' → reaches code s' s'' → reaches code s s''.
Proof.
  intros Hc He Hp Ha H3 H4 Hd Hx. refine (step_at code (2 ^ 22) ltac:(lia) Hcode s p i q s' s'' He _ Hc Hx).
  intros a Hr. rewrite (linear_boot s pgdir) by (done || lia). by rewrite (proj2 (Z.ltb_lt _ _)) by lia.
Qed.

(** The control registers after [enable_paging]. *)
Definition paged_cr (flags pgdir : Z) (cr : cregs) : cregs := Cregs (Z.lor (c_cr0 cr) flags) pgdir (Z.lor (c_cr4 cr) CR4_PSE).

(** One instruction with the A20 gate open, before and after paging is on. *)
Local Ltac ago H Hpg := eapply (a20_step _ _ _ _ _ _ H); [cbn; lia|by apply Hpg|done|unfold bexec; bnorm; reflexivity|].
Local Ltac pgo H Hs := eapply (paged_step _ _ _ _ _ _ _ H); [cbn; lia|by apply Hs|done|by apply Hs|by apply Hs|by apply Hs|unfold bexec; bnorm; reflexivity|].

(** [load] puts the address of the page directory into eax. *)
Lemma enable_paging_run a nxt l flags load pgdir eax edx esp zf fi c segs cr gdtr cmd st mem :
  laid code a (enable_paging flags load ++ l) nxt → Z.land (c_cr0 cr) CR0_PG = 0 → Z.lor (c_cr0 cr) flags ≠ 0 →
  (∀ s q, b_segs s = segs → b_mem s = mem → b_a20 s = true → paging s = false → bexec s load q = Some (set_eip q (set_eax pgdir s))) →
  ∃ b eax', laid code b l nxt ∧
    reaches code (Boot eax edx esp a zf fi (Seg c 0) segs cr gdtr cmd true st mem)
      (Boot eax' edx esp b false fi (Seg c 0) segs (paged_cr flags pgdir cr) gdtr cmd true st mem).
Proof.
  intros (q1 & H1 & q2 & H2 & q3 & H3 & q4 & H4 & q5 & H5 & q6 & H6 & q7 & H7 & q8 & H8 & Hl) Hp Hf Hload.
  destruct cr as [c0 c3 c4]. cbn [c_cr0] in *. exists q8. eexists. split; [exact Hl|].
  assert (∀ s, c_cr0 (b_cr s) = c0 → paging s = false) as Hpg by (intros s Hc; unfold paging; by rewrite Hc, Hp).
  ago H1 Hpg. ago H2 Hpg. ago H3 Hpg.
  eapply (a20_step _ _ _ _ _ _ H4); [cbn; lia|by apply Hpg|done|apply Hload; [done|done|done|by apply Hpg]|bnorm].
  ago H5 Hpg. ago H6 Hpg. ago H7 Hpg. ago H8 Hpg. rewrite (proj2 (Z.eqb_neq _ _) Hf). apply reaches_refl.
Qed.

(** Within the first four megabytes, at their own addresses and at KERNBASE. *)
Definition boot_mapped (s : boot) : Prop :=
  ∀ a, 0 ≤ a < 4294967296 →
    linear s a = if a <? 2 ^ 22 then Some a else if (KERNBASE <=? a) && (a <? KERNBASE + 2 ^ 22) then Some (a - KERNBASE) else None.

Lemma paged_mapped flags pgdir cr s :
  b_cr s = paged_cr flags pgdir cr → Z.land flags CR0_PG ≠ 0 → b_a20 s = true → pgdir_in (b_mem s) pgdir → boot_mapped s ∧ paging s = true ∧ Z.land (c_cr4 (b_cr s)) CR4_PSE ≠ 0.
Proof.
  intros Hc Hf Ha Hd.
  assert (∀ x y z, Z.land y z ≠ 0 → Z.land (Z.lor x y) z ≠ 0) as Hbit.
  { intros x y z H E. rewrite Z.land_lor_distr_l in E. by apply Z.lor_eq_0_iff in E as [_ E]. }
  assert (paging s = true) as Hp.
  { unfold paging. rewrite Hc. cbn. by rewrite (proj2 (Z.eqb_neq _ _) (Hbit (c_cr0 cr) flags CR0_PG Hf)). }
  assert (Z.land (c_cr4 (b_cr s)) CR4_PSE ≠ 0) as H4 by (rewrite Hc; by apply Hbit).
  split; [|done]. exact (linear_boot s pgdir Hp Ha ltac:(by rewrite Hc) H4 Hd).
Qed.

(** [C37] entry.S.  The boot loader jumps to the kernel's entry at its physical address,
    with paging off.  The code turns paging on while it runs at low addresses, which
    the page directory still maps to themselves, takes the kernel stack, and goes on
    in main at its high address; from then on exactly the first four megabytes are
    mapped, at their own addresses and from KERNBASE on. *)
Theorem entry_paging entry nxt pgdir stack main eax edx esp zf fi c segs cr gdtr cmd st mem :
  laid code entry (entry_S pgdir stack main) nxt → Z.land (c_cr0 cr) CR0_PG = 0 → pgdir_in mem pgdir →
  0 ≤ stack < 4294963200 → 0 ≤ main < 4294967296 →
  let s' := Boot main edx (stack + KSTACKSIZE) main false fi (Seg c 0) segs (paged_cr (Z.lor CR0_PG CR0_WP) pgdir cr) gdtr cmd true st mem in
  reaches code (Boot eax edx esp entry zf fi (Seg c 0) segs cr gdtr cmd true st mem) s' ∧ boot_mapped s'.
Proof.
  intros Hl Hp Hd Hst Hma s'.
  assert (Z.lor (c_cr0 cr) (Z.lor CR0_PG CR0_WP) ≠ 0) as Hf by (intros [_ E]%Z.lor_eq_0_iff; done).
  assert (∀ s q, b_segs s = segs → b_mem s = mem → b_a20 s = true → paging s = false →
    bexec s (IMovEax pgdir) q = Some (set_eip q (set_eax pgdir s))) as Hload.
  { intros s q _ _ _ _. unfold bexec. by rewrite u32_small by apply Hd. }
  destruct (enable_paging_run entry nxt _ _ _ pgdir eax edx esp zf fi c segs cr gdtr cmd st mem Hl Hp Hf Hload) as (b & x & Hl' & R).
  destruct Hl' as (q1 & H1 & q2 & H2 & q3 & H3 & _).
  destruct (paged_mapped (Z.lor CR0_PG CR0_WP) pgdir cr s' eq_refl ltac:(done) eq_refl Hd) as (Hmap & _). split; [|exact Hmap].
  eapply reaches_trans; [exact R|].
  assert (∀ s, b_cr s = paged_cr (Z.lor CR0_PG CR0_WP) pgdir cr → b_mem s = mem → b_a20 s = true →
    paging s = true ∧ c_cr3 (b_cr s) = pgdir ∧ Z.land (c_cr4 (b_cr s)) CR4_PSE ≠ 0 ∧ pgdir_in (b_mem s) pgdir) as Hs.
  { intros s Hc Hm Ha. rewrite <- Hm in Hd. destruct (paged_mapped _ pgdir cr s Hc ltac:(done) Ha Hd) as (_ & ? & ?). rewrite Hc. by rewrite Hc in *. }
  pgo H1 Hs. pgo H2 Hs. pgo H3 Hs. rewrite (u32_small main), (u32_small (stack + KSTACKSIZE)) by (change KSTACKSIZE with 4096; lia).
  apply reaches_refl.
Qed.
End Paging.

(** The page directory stays while something else is written. *)
Lemma pgdir_in_st32 m pgdir a v : a + 4 ≤ pgdir ∨ pgdir + 4096 ≤ a → pgdir_in m pgdir → pgdir_in (st32 m a v) pgdir.
Proof. intros Ha [H1 H2 H3]. split; [done|done|]. intros i Hi. rewrite ld32_st32_other by lia. by apply H3. Qed.

Lemma data32_boot s off : boot_mapped s → b_segs s = flat_segs → 0 ≤ off < 2 ^ 22 → data32 s off = Some (ld32 (b_mem s) off).
Proof.
  intros Hm Hs Ho. unfold data32. rewrite Hs. cbn [flat_segs g_ds sr_base]. rewrite Z.add_0_l, u32_small, Hm by lia.
  by rewrite (proj2 (Z.ltb_lt _ _)) by lia.
Qed.
Lemma pushes_boot s x v :
  boot_mapped s → b_segs s = flat_segs → b_esp s = KERNBASE + x → 4 ≤ x ≤ 2 ^ 22 →
  pushes s v = Some (set_bmem (st32 (b_mem s) (x - 4) v) (set_esp (KERNBASE + x - 4) s)).
Proof.
  intros Hm Hs He Hx. unfold pushes. rewrite He, Hs. cbn [flat_segs g_ss sr_base]. change KERNBASE with 2147483648.
  rewrite (u32_small (2147483648 + x - 4)), Z.add_0_l, u32_small, Hm by lia. change KERNBASE with 2147483648.
  rewrite (proj2 (Z.ltb_ge _ _)), (proj2 (Z.leb_le _ _)), (proj2 (Z.ltb_lt _ _)) by lia. cbn [andb].
  by replace (2147483648 + x - 4 - 2147483648) with (x - 4) by lia.
Qed.

(** entryother.S.  An application processor starts in real mode at the copy of this
    code, with nothing set up.  It gets to the function whose address startothers left
    below the code, in 32-bit protected mode with paging on, interrupts disabled, and
    on the stack that startothers left for it; the only word of memory it writes is
    the return address on that stack. *)
Theorem entryother_enters code start nxt1 start32 nxt2 gdtdesc gdt spin x mpenter pgdir eax edx esp zf fi segs cr gdtr cmd st mem :
  (∀ a i q, code a = Some (i, q) → 0 ≤ a < 2 ^ 20) →
  laid code start (entryother_16 gdtdesc start32) nxt1 → laid code start32 (entryother_32 start spin) nxt2 →
  boot_tables mem gdtdesc gdt → real_mode cr → 12 ≤ start < 2 ^ 20 →
  ld32 mem (start - 4) = KERNBASE + x → 4 ≤ x ≤ 2 ^ 22 → x ≤ pgdir ∨ pgdir + 4096 ≤ x - 4 →
  ld32 mem (start - 8) = mpenter → ld32 mem (start - 12) = pgdir → pgdir_in mem pgdir →
  ∃ eax' r,
    let s' := Boot eax' edx (KERNBASE + x - 4) mpenter false false (Seg (Z.shiftl SEG_KCODE 3) 0) flat_segs
                (paged_cr (Z.lor (Z.lor CR0_PE CR0_PG) CR0_WP) pgdir (creg_put CR0 (Z.lor (c_cr0 cr) CR0_PE) cr))
                gdt cmd true st (st32 mem (x - 4) r) in
    reaches code (Boot eax edx esp 0 zf fi (Seg (start / 16) start) segs cr gdtr cmd true st mem) s' ∧ boot_mapped s'.
Proof.
  intros Hc20 L1 L2 Ht Hr Hst H4 Hx Hap H8 H12 Hd.
  assert (∀ a i q, code a = Some (i, q) → 0 ≤ a < 2 ^ 22) as Hc22 by (intros a i q H; specialize (Hc20 a i q H); lia).
  destruct (bootasm_head_run code Hc20 start nxt1 _ eax edx esp zf fi (start / 16) segs cr gdtr cmd true st mem start L1 Hr) as (b & x1 & L1' & R1).
  rewrite Z.sub_diag in R1.
  destruct (to_protected_run code Hc20 b nxt1 gdtdesc gdt start32 x1 edx esp true false (start / 16) (Seg 0 0) (Seg 0 0) (g_fs segs) (g_gs segs) cr gdtr
    cmd true st mem start L1' (rm_pg _ Hr) Ht) as [x2 R2].
  set (cr' := creg_put CR0 (Z.lor (c_cr0 cr) CR0_PE) cr) in *.
  assert (c_cr0 cr' = Z.lor (c_cr0 cr) CR0_PE) as Ec by (unfold cr'; by destruct cr).
  assert (Z.land (c_cr0 cr') CR0_PG = 0) as Hpg by (rewrite Ec, Z.land_lor_distr_l, (rm_pg _ Hr); done).
  assert (Z.land (c_cr0 cr') CR0_PE ≠ 0) as Hpe by (rewrite Ec, Z.land_lor_distr_l, (rm_pe _ Hr); done).
  destruct (data_segments_run code Hc20 start32 nxt2 _ x2 edx esp false false (Bsegs (Seg 0 0) (Seg 0 0) (Seg 0 0) (g_fs segs) (g_gs segs)) cr' gdt
    cmd true st mem L2 Hpg Hpe (bt_gdt _ _ _ Ht)) as (c & x3 & L3 & R3).
  set (flags := Z.lor (Z.lor CR0_PE CR0_PG) CR0_WP) in *.
  assert (∀ s q, b_segs s = flat_segs → b_mem s = mem → b_a20 s = true → paging s = false →
    bexec s (IMovMemEax (start - 12)) q = Some (set_eip q (set_eax pgdir s))) as Hload.
  { intros s q Hs Hm Ha Hp. unfold bexec, data32. rewrite Hs, Hm. cbn [flat_segs g_ds sr_base]. rewrite Z.add_0_l, u32_small by lia.
    rewrite (flat_a20 s (2 ^ 32) Hp Ha) by lia. by rewrite H12. }
  destruct (enable_paging_run code Hc22 c nxt2 _ flags _ pgdir x3 edx esp false false 8 flat_segs cr' gdt cmd st mem L3 Hpg
    ltac:(intros [_ E]%Z.lor_eq_0_iff; done) Hload) as (d & x4 & (q1 & G1 & q2 & G2 & _) & R4).
  assert (∀ s, b_cr s = paged_cr flags pgdir cr' → pgdir_in (b_mem s) pgdir → b_a20 s = true →
    boot_mapped s ∧ paging s = true ∧ Z.land (c_cr4 (b_cr s)) CR4_PSE ≠ 0) as Hmap.
  { intros s Hc Hm Ha. by apply (paged_mapped flags pgdir cr'). }
  exists x4, q2. intros s'. split; [|apply Hmap; [done|apply pgdir_in_st32; [lia|done]|done]].
  eapply reaches_trans; [exact R1|]. eapply reaches_trans; [exact R2|]. eapply reaches_trans; [exact R3|]. eapply reaches_trans; [exact R4|].
  eapply (paged_step code Hc22 _ _ _ _ _ _ pgdir G1); [cbn; lia|by apply Hmap|done|done|by apply Hmap|done|unfold bexec|].
  { rewrite data32_boot; [|by apply Hmap|done|lia]. bnorm. rewrite H4. reflexivity. }
  eapply (paged_step code Hc22 _ _ _ _ _ _ pgdir G2); [cbn; lia|by apply Hmap|done|done|by apply Hmap|done|unfold bexec|].
  { rewrite data32_boot; [|by apply Hmap|done|lia]. rewrite (pushes_boot _ x); [|by apply Hmap|done|done|done]. bnorm. rewrite H8. reflexivity. }
  apply reaches_refl.
Qed.

(** ** Concrete code

    Instructions one address apart from [base] on. *)

Definition code_at (base : Z) (l : list binstr) (a : Z) : option (binstr * Z) :=
  if (base <=? a) && (a <? base + Z.of_nat (length l)) then
    match l !! Z.to_nat (a - base) with Some i => Some (i, a + 1) | None => None end
  else None.

Lemma code_at_range base l a i q : code_at base l a = Some (i, q) → base ≤ a < base + Z.of_nat (length l).
Proof. unfold code_at. destruct (_ && _) eqn:E; [|done]. intros _. to_prop. lia. Qed.

Lemma laid_code_at base l1 l l2 :
  laid (code_at base (l1 ++ l ++ l2)) (base + Z.of_nat (length l1)) l (base + Z.of_nat (length l1 + length l)).
Proof.
  revert l1. induction l as [|i l IH]; intros l1; cbn [laid]; [f_equal; f_equal; cbn; lia|].
  exists (base + Z.of_nat (length l1) + 1). split.
  - unfold code_at. rewrite (proj2 (Z.leb_le _ _)), (proj2 (Z.ltb_lt _ _)) by (rewrite ?length_app; cbn; lia). cbn [andb].
    replace (Z.to_nat (base + Z.of_nat (length l1) - base)) with (length l1) by lia. cbn [app]. by rewrite list_lookup_middle.
  - specialize (IH (l1 ++ [i])). rewrite <- app_assoc in IH. cbn [app] in IH. rewrite length_app in IH. cbn [length] in *.
    replace (base + Z.of_nat (length l1) + 1) with (base + Z.of_nat (length l1 + 1)) by lia.
    replace (length l1 + S (length l))%nat with (length l1 + 1 + length l)%nat by lia. exact IH.
Qed.

(** The table of three segments at [gdt], and the descriptor behind it. *)
Definition put_words (l : list (Z * Z)) (m : memory) : memory := foldr (λ w m, st32 m w.1 w.2) m l.
Definition demo_gdt_words (gdt : Z) : list (Z * Z) :=
  [(gdt, 0); (gdt + 4, 0); (gdt + 8, (SEG_ASM 10 0 0xffffffff).1); (gdt + 12, (SEG_ASM 10 0 0xffffffff).2);
   (gdt + 16, (SEG_ASM 2 0 0xffffffff).1); (gdt + 20, (SEG_ASM 2 0 0xffffffff).2); (gdt + 26, gdt)].

Definition demo_boot_code : list binstr :=
  bootasm_head ++ seta20 0x7c05 0xd1 0x64 ++ seta20 0x7c0a 0xdf 0x60 ++ to_protected 0x7d18 0x7c14 ++ bootasm_32 0x7c00 0x7e00 0x7c22.
Definition demo_boot_mem : memory := put_words (demo_gdt_words 0x7d00) (λ _, 0).

Lemma demo_boot_tables : boot_tables demo_boot_mem 0x7d18 0x7d00.
Proof.
  split; [lia|by vm_compute|lia|]. intros [|[|[|i]]] lo hi; [intros [= <- <-]; by vm_compute..|]. by destruct i.
Qed.

Lemma bootasm_enters_witness :
  ∃ eax' r, reaches (code_at 0x7c00 demo_boot_code)
    (Boot 0 0 0 0x7c00 true true (Seg 0 0) (Bsegs (Seg 9 144) (Seg 0 0) (Seg 0 0) (Seg 0 0) (Seg 0 0)) (Cregs 0x10 0 0) 0 false false [2; 3; 0; 2; 1; 7] demo_boot_mem)
    (Boot eax' 0 0x7bfc 0x7e00 false false (Seg 8 0) flat_segs (Cregs 0x11 0 0) 0x7d00 false true [7] (st32 demo_boot_mem 0x7bfc r)).
Proof.
  apply (bootasm_enters (code_at 0x7c00 demo_boot_code) (λ a i q H, ltac:(apply code_at_range in H; cbn in H; lia))
    0x7c00 0x7c05 0x7c0a 0x7c0f 0x7c14 0x7c14 0x7c23 0x7d18 0x7d00 0x7e00 0x7c22 0 0 0 true true (Bsegs (Seg 9 144) (Seg 0 0) (Seg 0 0) (Seg 0 0) (Seg 0 0))
    (Cregs 0x10 0 0) 0 false false [2; 3] 0 [2] 1 [7] demo_boot_mem).
  - exact (laid_code_at 0x7c00 [] bootasm_head _).
  - exact (laid_code_at 0x7c00 bootasm_head (seta20 0x7c05 0xd1 0x64) _).
  - exact (laid_code_at 0x7c00 (bootasm_head ++ seta20 0x7c05 0xd1 0x64) (seta20 0x7c0a 0xdf 0x60) _).
  - exact (laid_code_at 0x7c00 (bootasm_head ++ seta20 0x7c05 0xd1 0x64 ++ seta20 0x7c0a 0xdf 0x60) (to_protected 0x7d18 0x7c14) _).
  - exact (laid_code_at 0x7c00 (bootasm_head ++ seta20 0x7c05 0xd1 0x64 ++ seta20 0x7c0a 0xdf 0x60 ++ to_protected 0x7d18 0x7c14) (bootasm_32 0x7c00 0x7e00 0x7c22) []).
  - exact demo_boot_tables.
  - by split.
  - lia.
  - by repeat constructor.
  - by intros H.
  - by repeat constructor.
  - by intros H.
Defined.

(** The page directory at 0x5000. *)
Definition demo_pgdir_mem (m : memory) : memory :=
  λ a, if (0x5000 <=? a) && (a <? 0x6000) then (entrypgdir ((a - 0x5000) / 4) / 256 ^ (a `mod` 4)) `mod` 256 else m a.
Lemma demo_pgdir_in m : pgdir_in (demo_pgdir_mem m) 0x5000.
Proof.
  split; [by vm_compute|lia|]. intros i Hi.
  assert (forallb (λ j, ld32 (demo_pgdir_mem (λ _, 0)) (0x5000 + 4 * Z.of_nat j) =? entrypgdir (Z.of_nat j)) (seq 0 1024) = true) as H by (by vm_compute).
  rewrite forallb_forall in H. specialize (H (Z.to_nat i) ltac:(apply in_seq; lia)). apply Z.eqb_eq in H. rewrite Z2Nat.id in H by lia. rewrite <- H.
  assert (∀ x, 0x5000 ≤ x < 0x6000 → demo_pgdir_mem m x = demo_pgdir_mem (λ _, 0) x) as E.
  { intros x Hx. unfold demo_pgdir_mem. by rewrite (proj2 (Z.leb_le _ _)), (proj2 (Z.ltb_lt _ _)) by lia. }
  unfold ld32. by rewrite !E by lia.
Qed.

Lemma entry_paging_witness :
  let s' := Boot 0x80103000 0 0x80109000 0x80103000 false false (Seg 8 0) flat_segs (Cregs 0x80010011 0x5000 0x10) 0 false true [] (demo_pgdir_mem (λ _, 0)) in
  reaches (code_at 0x10000c (entry_S 0x5000 0x80108000 0x80103000))
    (Boot 1 0 2 0x10000c true false (Seg 8 0) flat_segs (Cregs 0x11 0 0) 0 false true [] (demo_pgdir_mem (λ _, 0))) s' ∧ boot_mapped s'.
Proof.
  apply (entry_paging (code_at 0x10000c (entry_S 0x5000 0x80108000 0x80103000)) (λ a i q H, ltac:(apply code_at_range in H; cbn in H; lia))
    0x10000c 0x100017 0x5000 0x80108000 0x80103000 1 0 2 true false 8 flat_segs (Cregs 0x11 0 0) 0 false [] (demo_pgdir_mem (λ _, 0))).
  - pose proof (laid_code_at 0x10000c [] (entry_S 0x5000 0x80108000 0x80103000) []) as H. rewrite app_nil_r in H. exact H.
  - by vm_compute.
  - apply demo_pgdir_in.
  - lia.
  - lia.
Defined.

Definition demo_other_code : list binstr := entryother_16 0x7118 0x700a ++ entryother_32 0x7000 0x7020.
Definition demo_other_mem : memory :=
  demo_pgdir_mem (put_words (demo_gdt_words 0x7100 ++ [(0x6ffc, 0x80301000); (0x6ff8, 0x80103100); (0x6ff4, 0x5000)]) (λ _, 0)).

Lemma entryother_enters_witness :
  ∃ eax' r,
    let s' := Boot eax' 0 0x80300ffc 0x80103100 false false (Seg 8 0) flat_segs (Cregs 0x80010011 0x5000 0x10) 0x7100 false true [] (st32 demo_other_mem 0x300ffc r) in
    reaches (code_at 0x7000 demo_other_code)
      (Boot 5 0 0 0 true true (Seg 0x700 0x7000) flat_segs (Cregs 0x10 0 0) 0 false true [] demo_other_mem) s' ∧ boot_mapped s'.
Proof.
  apply (entryother_enters (code_at 0x7000 demo_other_code) 0x7000 0x700a 0x700a 0x7021 0x7118 0x7100 0x7020 0x301000 0x80103100 0x5000
    5 0 0 true true flat_segs (Cregs 0x10 0 0) 0 false [] demo_other_mem).
  - intros a i q H. apply code_at_range in H. cbn in H. lia.
  - exact (laid_code_at 0x7000 [] (entryother_16 0x7118 0x700a) _).
  - pose proof (laid_code_at 0x7000 (entryother_16 0x7118 0x700a) (entryother_32 0x7000 0x7020) []) as H. rewrite app_nil_r in H. exact H.
  - split; [lia|by vm_compute|lia|]. intros [|[|[|i]]] lo hi; [intros [= <- <-]; by vm_compute..|]. by destruct i.
  - by split.
  - lia.
  - by vm_compute.
  - lia.
  - lia.
  - by vm_compute.
  - by vm_compute.
  - apply demo_pgdir_in.
Defined.
