(* ===== verification/Console.v ===== *)
(** * The console

    The input side of [console.c]: line editing, and the console device behind
    [devsw]; [procdump] of [proc.c], which the console runs on a key. *)

From S2P Require Import Prelude Defs Spinlock CString Kernel Cprintf Apic Sched Kalloc Vm Sleeplock Bytes Bio Log Fs Pipe File Proc.
Local Open Scope kernel_scope.

Definition INPUT_BUF : Z := 128.
Definition CONSOLE : nat := 1.

(** ** procdump (proc.c) *)

(** The table [states]: indexed by the values of both enumerations, a later
    initializer of an index replaces an earlier one. *)
Definition procstate_ix (s : procstate) : nat :=
  match s with UNUSED => 0 | EMBRYO => 1 | USED => 2 | ZOMBIE => 3 end.
Definition threadstate_ix (s : threadstate) : nat :=
  match s with
  | UNINIT => 0 | SLEEPING => 1 | RUNNABLE => 2 | RUNNING => 3 | BLOCKED => 4 | TERMINATED => 5
  end.
Definition state_names : list string :=
  foldl (λ l x, <[fst x := snd x]> l) (replicate 6 ""%string)
    [(procstate_ix UNUSED, "unused"); (procstate_ix EMBRYO, "embryo");
     (procstate_ix USED, "used  "); (procstate_ix ZOMBIE, "zombie");
     (threadstate_ix UNINIT, "uninit"); (threadstate_ix SLEEPING, "sleep ");
     (threadstate_ix RUNNABLE, "runble"); (threadstate_ix RUNNING, "run   ");
     (threadstate_ix BLOCKED, "block "); (threadstate_ix TERMINATED, "termnt")]%string.
Definition state_name (s : procstate) : string := nth (procstate_ix s) state_names "???"%string.

(** The pcs up to the first zero. *)
Fixpoint nonzero_prefix (l : list Z) : list Z :=
  match l with
  | [] => []
  | x :: l' => if x =? 0 then [] else x :: nonzero_prefix l'
  end.

Definition dump_thread (p : proc) (t : tslot) : KM unit :=
  let! th := rd_thread t in
  if decide (t_state th = UNINIT) then ret tt
  else
    cprintf (chars "thread: %d %s , ") [Aint (t_tid th); Astr (Some (chars (state_name (p_state p))))] ;;;
    when (bool_decide (t_state th = SLEEPING))
      (let! m := gets k_mem in
       for_each (nonzero_prefix (getcallerpcs m (u32 (ld32 m (t_context th + 12) + 8))))
         (λ pc, cprintf (chars " %p ") [Aint pc])).

Definition procdump : KM unit :=
  for_each (seq 0 NPROC) (λ i,
    let! p := rd_proc i in
    if decide (p_state p = UNUSED) then ret tt
    else
      cprintf (chars "process: %d %s %s , ")
        [Aint (p_pid p); Astr (Some (chars (state_name (p_state p)))); Astr (Some (until_nul (p_name p)))] ;;;
      let! base := deref (p_threads p) in
      for_each (seq 0 NTHREAD) (λ j, dump_thread p (base, j))) ;;;
  cprintf [10] [].

(** ** Input *)

Definition upd_input (f : input_t → input_t) : KM unit :=
  modify (λ k, set_k_input (f (k_input k)) k).
Definition input_at (x : input_t) (i : Z) : Z := nth (Z.to_nat (u32 i `mod` INPUT_BUF)) (in_buf x) 0.

(** Kill line. *)
Fixpoint kill_line (fuel : nat) : KM unit :=
  match fuel with
  | O => undef "loop bound"
  | S f =>
      let! x := gets k_input in
      if negb (in_e x =? in_w x) && negb (input_at x (in_e x - 1) =? 10) then
        upd_input (λ x, set_in_e (u32 (in_e x - 1)) x) ;;;
        consputc BACKSPACE ;;;
        kill_line f
      else ret tt
  end.

(** One character of the loop of consoleintr; the result asks for procdump. *)
Definition console_char (c : Z) : KM bool :=
  let! x := gets k_input in
  if c =? 16 then ret true
  else if c =? 21 then kill_line (S (Z.to_nat (u32 (in_e x - in_w x)))) ;;; ret false
  else if (c =? 8) || (c =? 127) then
    when (negb (in_e x =? in_w x))
      (upd_input (λ x, set_in_e (u32 (in_e x - 1)) x) ;;; consputc BACKSPACE) ;;;
    ret false
  else
    when (negb (c =? 0) && (u32 (in_e x - in_r x) <? INPUT_BUF))
      (let c := if c =? 13 then 10 else c in
       upd_input (λ x,
         set_in_e (u32 (in_e x + 1))
           (set_in_buf (<[Z.to_nat (in_e x `mod` INPUT_BUF) := u8 c]> (in_buf x)) x)) ;;;
       consputc c ;;;
       let! x := gets k_input in
       when ((c =? 10) || (c =? 4) || (in_e x =? u32 (in_r x + INPUT_BUF)))
         (upd_input (λ x, set_in_w (in_e x) x) ;;; wakeup ChInput)) ;;;
    ret false.

Fixpoint console_chars (cs : list Z) (dump : bool) : KM bool :=
  match cs with
  | [] => ret dump
  | c :: cs' => let! d := console_char c in console_chars cs' (d || dump)
  end.

(** [cs]: the characters [getc] returns before it returns a negative value. *)
Definition consoleintr (cs : list Z) : KM unit :=
  acquire Lcons ;;;
  let! dump := console_chars cs false in
  release Lcons ;;;
  when dump procdump.

(** The reader sleeps while there is no complete line and it is not killed. *)
Definition consoleread_wait : KM bool :=
  let! x := gets k_input in
  if in_r x =? in_w x then let! kd := my_killed in ret (negb kd) else ret false.

(** The loop of consoleread with [n] bytes to go: the bytes left, or None when
    the process was killed. *)
Fixpoint consoleread_loop (n : nat) (put : Z → list Z → KM unit) (target : Z) : KM (option Z) :=
  match n with
  | O => ret (Some 0)
  | S n' =>
      while_wait consoleread_wait (sleep ChInput Lcons) ;;;
      let! x := gets k_input in
      if in_r x =? in_w x then ret None
      else
        let c := input_at x (in_r x) in
        upd_input (λ x, set_in_r (u32 (in_r x + 1)) x) ;;;
        if c =? 4 then
          when (Z.of_nat n <? target) (upd_input (λ x, set_in_r (u32 (in_r x - 1)) x)) ;;;
          ret (Some (Z.of_nat n))
        else
          put (target - Z.of_nat n) [c] ;;;
          if c =? 10 then ret (Some (Z.of_nat n'))
          else consoleread_loop n' put target
  end.

Definition consoleread (ip : nat) (put : Z → list Z → KM unit) (n : Z) : KM Z :=
  iunlock (Some ip) ;;;
  acquire Lcons ;;;
  let! r := consoleread_loop (Z.to_nat n) put n in
  release Lcons ;;;
  ilock (Some ip) ;;;
  match r with
  | None => ret (-1)
  | Some left_ => ret (if n <=? 0 then 0 else n - left_)
  end.

Definition consolewrite (ip : nat) (src : Z → Z → KM (list Z)) (n : Z) : KM Z :=
  iunlock (Some ip) ;;;
  acquire Lcons ;;;
  for_each (seq 0 (Z.to_nat n)) (λ i,
    let! c := src (Z.of_nat i) 1 in
    for_each c consputc) ;;;
  release Lcons ;;;
  ilock (Some ip) ;;;
  ret n.

Definition consoleinit : KM unit :=
  initlock Lcons "console" ;;;
  modify (λ k, set_k_devsw (<[CONSOLE := true]> (k_devsw k)) k) ;;;
  modify (set_k_cons_locking 1) ;;;
  ioapicenable IRQ_KBD 0.

(** The console is the only device with functions. *)
#[export] Instance console_DevSw : DevSw := {| dev_read := consoleread; dev_write := consolewrite |}.

(** ** Line editing as a queue

    The ring holds the characters of complete lines, which readers may take,
    and behind them the line that is being edited. *)

(** [ring x com ed]: [x] holds the committed characters [com] and the line [ed]. *)
Record ring (x : input_t) (com ed : list Z) : Prop := {
  rg_len : length (in_buf x) = 128%nat;
  rg_r : 0 ≤ in_r x < 4294967296;
  rg_w : in_w x = u32 (in_r x + Z.of_nat (length com));
  rg_e : in_e x = u32 (in_r x + Z.of_nat (length (com ++ ed)));
  rg_fit : (length (com ++ ed) ≤ 128)%nat;
  rg_at i c : (com ++ ed) !! i = Some c →
    in_buf x !! Z.to_nat ((in_r x + Z.of_nat i) `mod` 128) = Some c
}.

(** What a character does to the committed characters and the line. *)
Definition edit_char (c : Z) (com ed : list Z) : list Z * list Z :=
  if c =? 16 then (com, ed)
  else if c =? 21 then (com, [])
  else if (c =? 8) || (c =? 127) then (com, removelast ed)
  else if (c =? 0) || bool_decide (128 ≤ length (com ++ ed))%nat then (com, ed)
  else
    let ed' := ed ++ [u8 (if c =? 13 then 10 else c)] in
    if (c =? 10) || (c =? 13) || (c =? 4) || bool_decide (length (com ++ ed') = 128)%nat
    then (com ++ ed', []) else (com, ed').

Lemma u32_mod128 x : u32 x `mod` 128 = x `mod` 128.
Proof. unfold u32. dlia. Qed.

Lemma ring_erase x com ed c :
  ring x com (ed ++ [c]) → ring (set_in_e (u32 (in_e x - 1)) x) com ed.
Proof.
  intros [Hl Hr Hw He Hf Hat]. rewrite app_assoc, length_app in Hf, He. cbn in Hf, He.
  split; cbn [set_in_e in_buf in_r in_w in_e]; try done; [|lia|].
  - rewrite He. unfold u32. dlia.
  - intros i d Hi. apply Hat. rewrite app_assoc. by apply lookup_app_l_Some.
Qed.

Lemma ring_nonempty x com ed : ring x com ed → (in_e x =? in_w x) = bool_decide (ed = []).
Proof.
  intros [_ _ Hw He Hf _]. rewrite Hw, He, length_app in *.
  assert (length ed = 0%nat ↔ ed = []) as Hn by (split; [apply nil_length_inv|by intros ->]).
  unfold u32. case_bool_decide as E; [apply Z.eqb_eq|apply Z.eqb_neq];
    [rewrite (proj2 Hn E); f_equal; lia|]. assert (length ed ≠ 0%nat) by tauto. dlia.
Qed.

Lemma ring_free x com ed :
  ring x com ed → u32 (in_e x - in_r x) = Z.of_nat (length (com ++ ed)).
Proof. intros [? ? ? He ? ?]. rewrite He. unfold u32. dlia. Qed.

Lemma ring_push x com ed c :
  ring x com ed → (length (com ++ ed) < 128)%nat →
  ring (set_in_e (u32 (in_e x + 1)) (set_in_buf (<[Z.to_nat (in_e x `mod` 128) := c]> (in_buf x)) x))
    com (ed ++ [c]).
Proof.
  intros [Hl Hr Hw He Hf Hat] Hlt.
  split; cbn [set_in_e set_in_buf in_buf in_r in_w in_e]; rewrite ?length_insert, ?app_assoc, ?length_app in *;
    cbn [length] in *; try done.
  - rewrite He. unfold u32. dlia.
  - lia.
  - intros i d Hi. rewrite He, u32_mod128.
    apply lookup_app_Some in Hi as [Hi|[Hi1 Hi2]].
    + rewrite list_lookup_insert_ne; [by apply Hat|]. apply lookup_lt_Some in Hi. rewrite length_app in Hi. dlia.
    + rewrite length_app in *. destruct (i - (length com + length ed))%nat as [|m] eqn:Em; [|by destruct m].
      injection Hi2 as <-. replace i with (length com + length ed)%nat by lia.
      apply list_lookup_insert_eq. dlia.
Qed.

Lemma ring_commit x com ed : ring x com ed → ring (set_in_w (in_e x) x) (com ++ ed) [].
Proof. intros [Hl Hr Hw He Hf Hat]. split; cbn [set_in_w in_buf in_r in_w in_e]; by rewrite ?app_nil_r. Qed.

Lemma ring_last x com ed c : ring x com (ed ++ [c]) → input_at x (in_e x - 1) = c.
Proof.
  intros [Hl Hr Hw He Hf Hat]. unfold input_at, INPUT_BUF.
  assert (in_buf x !! Z.to_nat ((in_r x + Z.of_nat (length (com ++ ed))) `mod` 128) = Some c) as E.
  { apply Hat. rewrite app_assoc. by apply list_lookup_middle. }
  apply nth_lookup_Some with (d := 0) in E. rewrite <- E. f_equal.
  rewrite He, u32_mod128, app_assoc, length_app. cbn [length]. unfold u32. dlia.
Qed.

Lemma ring_full x com ed :
  ring x com ed → (in_e x =? u32 (in_r x + 128)) = bool_decide (length (com ++ ed) = 128)%nat.
Proof.
  intros [? ? ? He ? ?]. rewrite He. unfold u32. case_bool_decide; [apply Z.eqb_eq|apply Z.eqb_neq]; dlia.
Qed.

(** The edited line never holds an end of line or of file, so that killing it
    stops at the committed characters only. *)
Definition editable (ed : list Z) : Prop := Forall (λ c, c ≠ 10 ∧ c ≠ 4) ed.

Lemma kill_line_spec fuel com ed o k :
  ring (k_input k) com ed → editable ed → (length ed < fuel)%nat →
  ∃ x out, kill_line fuel o k = Ok tt (set_k_output out (set_k_input x k)) o ∧ ring x com [].
Proof.
  revert fuel k. induction ed as [|c ed IH] using rev_ind; intros fuel k Hr He Hf;
    (destruct fuel as [|fuel]; [lia|]); cbn [kill_line]; mrun; rewrite (ring_nonempty _ _ _ Hr).
  - exists (k_input k), (k_output k). split; [by destruct k|done].
  - rewrite bool_decide_false by (by destruct ed). apply Forall_app in He as [He [Hc _]%Forall_cons].
    rewrite (ring_last _ _ _ _ Hr), (proj2 (Z.eqb_neq c 10)) by tauto. cbn [negb andb].
    rewrite length_app in Hf. cbn in Hf. unfold consputc, upd_input. mrun.
    destruct (IH fuel (set_k_output (BACKSPACE :: k_output k)
      (set_k_input (set_in_e (u32 (in_e (k_input k) - 1)) (k_input k)) k))) as (x & out & Hk & Hx);
      [by apply (ring_erase _ _ _ c)|done|lia|].
    exists x, out. split; [|done]. exact Hk.
Qed.

(** Line editing: a character of the keyboard or the serial line changes the
    input as [edit_char] says, whatever the positions of the ring have wrapped
    to: it is appended to the line being edited unless the 128 places are
    taken, backspace erases the last character and ^U the line, never what a
    reader may already take; the line becomes available, and the readers are
    woken, exactly at an end of line, at ^D or when no place is left. *)
Theorem console_char_edits c com ed o k n :
  ptable_wf k → calm (k_lk k) n → lock_free Lptable (k_lk k) → 0 ≤ c < 256 →
  ring (k_input k) com ed → editable ed →
  ∃ x out, let k1 := set_k_output out (set_k_input x k) in
    console_char c o k = Ok (c =? 16) (if decide ((edit_char c com ed).1 = com) then k1 else wake_all ChInput k1) o ∧
    ring x (edit_char c com ed).1 (edit_char c com ed).2 ∧ editable (edit_char c com ed).2.
Proof.
  intros Hwf Hc Hf Hrg Hr He. unfold console_char, edit_char. mrun.
  destruct (Z.eqb_spec c 16) as [->|H16].
  { exists (k_input k), (k_output k). rewrite decide_True by done. split_and!; [by destruct k|done|done]. }
  destruct (Z.eqb_spec c 21) as [->|H21].
  { destruct (kill_line_spec (S (Z.to_nat (u32 (in_e (k_input k) - in_w (k_input k))))) com ed o k Hr He)
      as (x & out & Hk & Hx).
    { pose proof (ring_free _ _ _ Hr) as Hfr. rewrite length_app in Hfr. destruct Hr as [? ? Hw ? ? ?].
      rewrite length_app in *. rewrite Hw. revert Hfr. unfold u32. intros. dlia. }
    exists x, out. rewrite (bind_ok _ _ _ _ _ _ _ Hk), decide_True by done.
    split_and!; [done|done|constructor]. }
  destruct ((c =? 8) || (c =? 127)).
  { rewrite (ring_nonempty _ _ _ Hr). unfold when.
    destruct ed as [|d ed _] using rev_ind.
    - exists (k_input k), (k_output k). rewrite decide_True by done. split_and!; [by destruct k|done|done].
    - rewrite bool_decide_false by (by destruct ed). cbn [negb fst snd]. unfold consputc, upd_input. mrun.
      eexists _, _. rewrite removelast_last, decide_True by done. split_and!; [reflexivity|by apply (ring_erase _ _ _ d)|].
      by apply Forall_app in He as [? _]. }
  rewrite (ring_free _ _ _ Hr). unfold INPUT_BUF, when.
  destruct (Z.eqb_spec c 0) as [->|H0]; cbn [negb andb orb].
  { exists (k_input k), (k_output k). rewrite decide_True by done. split_and!; [by destruct k|done|done]. }
  destruct (Z.ltb_spec (Z.of_nat (length (com ++ ed))) 128) as [Hlt|Hge].
  2: { rewrite bool_decide_true by lia. exists (k_input k), (k_output k).
       rewrite decide_True by done. split_and!; [by destruct k|done|done]. }
  rewrite bool_decide_false by lia. set (c' := if c =? 13 then 10 else c).
  assert ((c =? 10) || (c =? 13) || (c =? 4) = (c' =? 10) || (c' =? 4)) as -> by (subst c'; case_tests; lia).
  assert (u8 c' = c') as Eu by (subst c'; unfold u8; destruct (c =? 13); dlia).
  pose proof (ring_push (k_input k) com ed (u8 c') Hr ltac:(lia)) as Hr1. clearbody c'. rewrite Eu in *.
  set (x1 := set_in_e _ _) in Hr1. unfold consputc, upd_input. mrun. fold x1. kproj.
  rewrite (ring_full _ _ _ Hr1). unfold ret at 1.
  destruct ((c' =? 10) || (c' =? 4) || bool_decide _) eqn:Ec; cbn [fst snd].
  - exists (set_in_w (in_e x1) x1), (c' :: k_output k).
    rewrite decide_False by (intros E; apply (f_equal length) in E; rewrite !length_app in E; cbn in E; lia).
    split_and!; [|by apply ring_commit|constructor]. mrun.
    set (k2 := set_k_output _ (set_k_input (set_in_w _ _) _)).
    assert (ptable_wf k2) as Hwf2 by exact (ptable_wf_ext k k2 eq_refl eq_refl Hwf).
    by rewrite (bind_ok _ _ _ _ _ _ _ (wakeup_eq ChInput o k2 n Hwf2 Hc Hf)).
  - exists x1, (c' :: k_output k). rewrite decide_True by done.
    apply orb_false_iff in Ec as [[?%Z.eqb_neq ?%Z.eqb_neq]%orb_false_iff _].
    split_and!; [done|done|apply Forall_app; by repeat constructor].
Qed.

(** ** Readers *)

(** What a read of [n] of [target] bytes takes from the committed characters
    and what it leaves; None when it has to wait for more. *)
Fixpoint take_line (n target : nat) (com : list Z) : option (list Z * list Z) :=
  match n, com with
  | O, _ => Some ([], com)
  | S _, [] => None
  | S n', c :: com' =>
      if c =? 4 then Some ([], if (n <? target)%nat then com else com')
      else if c =? 10 then Some ([c], com')
      else r ← take_line n' target com'; Some (c :: r.1, r.2)
  end.

Lemma ring_take x c com ed :
  ring x (c :: com) ed →
  ring (set_in_r (u32 (in_r x + 1)) x) com ed ∧ input_at x (in_r x) = c ∧ (in_r x =? in_w x) = false.
Proof.
  intros [Hl Hr Hw He Hf Hat]. cbn [app length] in *. rewrite length_app in *.
  assert (in_buf x !! Z.to_nat (in_r x `mod` 128) = Some c) as E.
  { by rewrite <- (Hat O c eq_refl), Z.add_0_r. }
  split_and!; [split; cbn [set_in_r in_buf in_r in_w in_e]| |].
  - done.
  - apply u32_range.
  - rewrite Hw. unfold u32. dlia.
  - rewrite He, length_app. unfold u32. dlia.
  - rewrite length_app. lia.
  - intros i d Hi. rewrite <- (Hat (S i) d Hi). f_equal. f_equal. unfold u32. dlia.
  - unfold input_at, INPUT_BUF. rewrite u32_mod128. by apply nth_lookup_Some with (d := 0) in E.
  - rewrite Hw. unfold u32. apply Z.eqb_neq. dlia.
Qed.

Section Reader.
(** The destination of a read: [w off c] is the state after [c] has been stored
    at offset [off]; storing does not touch the input. *)
Context (put : Z → list Z → KM unit) (w : Z → Z → kernel → kernel).
Hypothesis put_eq : ∀ off c o k, put off [c] o k = Ok tt (w off c k) o.
Hypothesis w_frame : ∀ off c x k, w off c (set_k_input x k) = set_k_input x (w off c k).

(** The bytes of [l] stored from offset [off] on. *)
Fixpoint store_all (off : Z) (l : list Z) (k : kernel) : kernel :=
  match l with [] => k | c :: l' => store_all (off + 1) l' (w off c k) end.

Lemma store_all_input l off x k : store_all off l (set_k_input x k) = set_k_input x (store_all off l k).
Proof. revert off k. induction l as [|c l IH]; intros off k; [done|]. cbn [store_all]. by rewrite w_frame, IH. Qed.

(** A read of the console takes what [take_line] says: up to [n] characters,
    up to and including the end of a line, and nothing of the line that is
    still being edited; a ^D ends it, and is left for the next read unless it
    comes first.  The characters are stored at consecutive offsets and the
    rest of the ring is unchanged. *)
Theorem consoleread_takes n target com ed l rest o k :
  ring (k_input k) com ed → take_line n target com = Some (l, rest) → (n ≤ target)%nat →
  ∃ x, consoleread_loop n put (Z.of_nat target) o k =
      Ok (Some (Z.of_nat n - Z.of_nat (length l)))
        (set_k_input x (store_all (Z.of_nat target - Z.of_nat n) l k)) o ∧
    ring x rest ed.
Proof.
  revert com l k. induction n as [|n IH]; intros com l k Hr Ht Hn; cbn [take_line] in Ht.
  { simplify_eq. exists (k_input k). split; [by destruct k|done]. }
  destruct com as [|c com]; [done|]. destruct (ring_take _ _ _ _ Hr) as (Hr1 & Hat & Hne).
  cbn [consoleread_loop]. rewrite (bind_ok _ _ o k tt o k).
  2: { rewrite while_wait_unfold; [|unfold consoleread_wait, my_killed; shrink|intros; by eapply waits_sleep].
       unfold consoleread_wait. mrun. by rewrite Hne. }
  unfold upd_input, when. mrun. rewrite Hne, Hat. mrun. set (x1 := set_in_r _ (k_input k)) in *.
  destruct (c =? 4).
  { injection Ht as <- <-. cbn [length store_all]. rewrite Z.sub_0_r.
    destruct (Nat.ltb_spec (S n) target) as [Hlt|Hge].
    - rewrite (proj2 (Z.ltb_lt _ _)) by lia. mrun. eexists. split; [reflexivity|]. unfold x1.
      destruct Hr as [? Hrr ? ? ? ?]. destruct (k_input k) as [b r w0 e]. kproj. cbn [in_r] in Hrr.
      replace (u32 (u32 (r + 1) - 1)) with r by (unfold u32; dlia). by split.
    - rewrite (proj2 (Z.ltb_ge _ _)) by lia. by exists x1. }
  rewrite (bind_ok _ _ _ _ _ _ _ (put_eq _ _ _ _)), w_frame.
  destruct (c =? 10).
  { injection Ht as <- <-. exists x1. split; [|done]. cbn [length store_all]. mrun.
    by replace (Z.of_nat (S n) - Z.of_nat 1) with (Z.of_nat n) by lia. }
  destruct (take_line n target com) as [[l' r']|] eqn:El; [|done]. cbn in Ht. injection Ht as <- ->.
  destruct (IH com l' (set_k_input x1 (w (Z.of_nat target - Z.of_nat (S n)) c k)) Hr1 El ltac:(lia))
    as (x & Hx & Hrx).
  exists x. split; [|done]. rewrite Hx, store_all_input. cbn [length store_all].
  replace (Z.of_nat target - Z.of_nat (S n) + 1) with (Z.of_nat target - Z.of_nat n) by lia.
  replace (Z.of_nat (S n) - Z.of_nat (S (length l'))) with (Z.of_nat n - Z.of_nat (length l')) by lia.
  by generalize (store_all (Z.of_nat target - Z.of_nat n) l' (w (Z.of_nat target - Z.of_nat (S n)) c k)).
Qed.
End Reader.

(** ** A line across the wrap of the counters *)

(** The line "hi" at the last counter value, being edited and committed. *)
Definition demo_input (w : Z) : input_t :=
  Input (<[127%nat := 104]> (<[0%nat := 105]> (<[1%nat := 10]> (replicate 128 0)))) 4294967295 w
    (if w =? 2 then 2 else 1).
Definition demo_typing : kernel := set_k_input (demo_input 4294967295) demo_kernel.

Lemma demo_ring_edit : ring (demo_input 4294967295) [] [104; 105].
Proof.
  split; [done|done|done|done|cbn; lia|]. intros [|[|i]] c E; [..|destruct i; done]; injection E as <-; done.
Qed.
Lemma demo_ring_line : ring (demo_input 2) [104; 105; 10] [].
Proof.
  split; [done|done|done|done|cbn; lia|]. intros [|[|[|i]]] c E; [..|destruct i; done]; injection E as <-; done.
Qed.

Lemma console_char_edits_witness :
  ∃ x out, console_char 10 [] demo_typing = Ok false (wake_all ChInput (set_k_output out (set_k_input x demo_typing))) [] ∧
    ring x [104; 105; 10] [].
Proof.
  destruct (console_char_edits 10 [] [104; 105] [] demo_typing 0 (ptable_wf_ext demo_kernel demo_typing eq_refl eq_refl demo_kernel_wf)
    boot_lks_calm ltac:(boot_free) ltac:(lia) demo_ring_edit ltac:(by repeat constructor)) as (x & out & H1 & H2 & _).
  exists x, out. exact (conj H1 H2).
Defined.

Lemma consoleread_takes_witness :
  ∃ x k, consoleread_loop 10 (λ off l, for_each l (λ c, upd_mem (λ m, st8 m (0x80400000 + off) c))) 10 []
      (set_k_input (demo_input 2) demo_kernel) = Ok (Some 7) (set_k_input x k) [] ∧
    k_mem k 0x80400000 = 104 ∧ k_mem k 0x80400001 = 105 ∧ k_mem k 0x80400002 = 10 ∧ ring x [] [].
Proof.
  destruct (consoleread_takes (λ off l, for_each l (λ c, upd_mem (λ m, st8 m (0x80400000 + off) c)))
    (λ off c k, set_k_mem (st8 (k_mem k) (0x80400000 + off) c) k) (λ _ _ _ _, eq_refl) (λ _ _ _ _, eq_refl)
    10 10 [104; 105; 10] [] [104; 105; 10] [] [] (set_k_input (demo_input 2) demo_kernel)
    demo_ring_line eq_refl ltac:(lia)) as (x & H1 & H2).
  eexists x, _. split_and!; [exact H1|done|done|done|exact H2].
Defined.
