(* ===== verification/Kbd.v ===== *)
(** * The keyboard

    [kbd.c] with the tables of [kbd.h]: a byte of the keyboard controller
    becomes a character, and the static variable [shift] of [kbdgetc] the state
    of the modifier keys.  The controller's ports are inputs: a call of
    [kbdgetc] gets the status byte and the data byte it would read. *)

From S2P Require Import Prelude Defs Kernel Cprintf Console.
Local Open Scope kernel_scope.

(** ** kbd.h *)

Definition KBS_DIB : Z := 0x01.
Definition SHIFT : Z := Z.shiftl 1 0.
Definition CTL : Z := Z.shiftl 1 1.
Definition ALT : Z := Z.shiftl 1 2.
Definition CAPSLOCK : Z := Z.shiftl 1 3.
Definition NUMLOCK : Z := Z.shiftl 1 4.
Definition SCROLLLOCK : Z := Z.shiftl 1 5.
Definition E0ESC : Z := Z.shiftl 1 6.

Definition KEY_HOME : Z := 0xE0.
Definition KEY_END : Z := 0xE1.
Definition KEY_UP : Z := 0xE2.
Definition KEY_DN : Z := 0xE3.
Definition KEY_LF : Z := 0xE4.
Definition KEY_RT : Z := 0xE5.
Definition KEY_PGUP : Z := 0xE6.
Definition KEY_PGDN : Z := 0xE7.
Definition KEY_INS : Z := 0xE8.
Definition KEY_DEL : Z := 0xE9.

(** An array of 256 bytes that starts with [l] and has the designated
    initializers [d]; the other elements are 0. *)
Definition table (l : list Z) (d : list (Z * Z)) : list Z :=
  foldl (λ t x, <[Z.to_nat (fst x) := snd x]> t) (l ++ replicate (256 - length l) 0) d.

Definition shiftcode : list Z :=
  table [] [(0x1D, CTL); (0x2A, SHIFT); (0x36, SHIFT); (0x38, ALT); (0x9D, CTL); (0xB8, ALT)].
Definition togglecode : list Z :=
  table [] [(0x3A, CAPSLOCK); (0x45, NUMLOCK); (0x46, SCROLLLOCK)].

(** The keys of the cursor block, the same in every map. *)
Definition cursor_keys : list (Z * Z) :=
  [(0xC8, KEY_UP); (0xD0, KEY_DN); (0xC9, KEY_PGUP); (0xD1, KEY_PGDN); (0xCB, KEY_LF); (0xCD, KEY_RT);
   (0x97, KEY_HOME); (0xCF, KEY_END); (0xD2, KEY_INS); (0xD3, KEY_DEL)].

(** [NO] *)
Definition NO : Z := 0.
Definition normalmap : list Z :=
  table ([NO; 0x1B] ++ chars "1234567890-=" ++ [8; 9] ++
         chars "qwertyuiop[]" ++ [10; NO] ++ chars "as" ++
         chars "dfghjkl;" ++ chars "'`" ++ [NO] ++ chars "\zxcv" ++
         chars "bnm,./" ++ [NO] ++ chars "*" ++
         [NO] ++ chars " " ++ replicate 13 NO ++ chars "7" ++
         chars "89-456+1" ++ chars "230." ++ replicate 4 NO)
    ([(0x9C, 10); (0xB5, 47)] ++ cursor_keys).
Definition shiftmap : list Z :=
  table ([NO; 27] ++ chars "!@#$%^&*()_+" ++ [8; 9] ++
         chars "QWERTYUIOP{}" ++ [10; NO] ++ chars "AS" ++
         chars "DFGHJKL:" ++ [34; 126; NO] ++ chars "|ZXCV" ++
         chars "BNM<>?" ++ [NO] ++ chars "*" ++
         [NO] ++ chars " " ++ replicate 13 NO ++ chars "7" ++
         chars "89-456+1" ++ chars "230." ++ replicate 4 NO)
    ([(0x9C, 10); (0xB5, 47)] ++ cursor_keys).

(** [C(x)] *)
Definition ctl_char (x : Z) : Z := x - 64.
Definition ctlmap : list Z :=
  table (replicate 16 NO ++
         map ctl_char (chars "QWERTYUIOP") ++ [NO; NO; 13; NO] ++ map ctl_char (chars "AS") ++
         map ctl_char (chars "DFGHJKL") ++ replicate 4 NO ++ map ctl_char (chars "\ZXCV") ++
         map ctl_char (chars "BNM") ++ [NO; NO; u8 (ctl_char 47); NO; NO])
    ([(0x9C, 13); (0xB5, u8 (ctl_char 47))] ++ cursor_keys).

(** ** kbd.c *)

Definition charcode : list (list Z) := [normalmap; shiftmap; ctlmap; ctlmap].
Definition byte_of (t : list Z) (i : Z) : Z := nth (Z.to_nat i) t 0.

(** The character and the new [shift]; 0 when there is no character, -1 when
    the controller has no data. *)
Definition kbdgetc (st data shift : Z) : Z * Z :=
  if Z.land st KBS_DIB =? 0 then (-1, shift)
  else if data =? 0xE0 then (0, Z.lor shift E0ESC)
  else if negb (Z.land data 0x80 =? 0) then
    let data := if negb (Z.land shift E0ESC =? 0) then data else Z.land data 0x7F in
    (0, Z.ldiff shift (Z.lor (byte_of shiftcode data) E0ESC))
  else
    let '(data, shift) :=
      if negb (Z.land shift E0ESC =? 0) then (Z.lor data 0x80, Z.ldiff shift E0ESC)
      else (data, shift) in
    let shift := Z.lor shift (byte_of shiftcode data) in
    let shift := Z.lxor shift (byte_of togglecode data) in
    let c := byte_of (nth (Z.to_nat (Z.land shift (Z.lor CTL SHIFT))) charcode []) data in
    let c :=
      if negb (Z.land shift CAPSLOCK =? 0) then
        if (97 <=? c) && (c <=? 122) then c + (65 - 97)
        else if (65 <=? c) && (c <=? 90) then c + (97 - 65)
        else c
      else c in
    (c, shift).

(** The characters consoleintr gets from kbdgetc, for the bytes [ports] that the
    controller delivers before it has no more data. *)
Fixpoint kbd_chars (ports : list Z) (shift : Z) : list Z * Z :=
  match ports with
  | [] => ([], shift)
  | d :: ports' =>
      let '(c, shift) := kbdgetc KBS_DIB d shift in
      let '(l, shift) := kbd_chars ports' shift in
      (c :: l, shift)
  end.

(** [shift] is the static variable; the result is its new value. *)
Definition kbdintr (ports : list Z) (shift : Z) : KM Z :=
  let '(l, shift) := kbd_chars ports shift in
  consoleintr l ;;; ret shift.

(** ** Properties *)

(** A statement about all bytes below [n] and modifier states below [m] is a
    finite one. *)
Lemma forall_bytes (n m : nat) (P : Z → Z → bool) :
  forallb (λ d, forallb (λ s, P (Z.of_nat d) (Z.of_nat s)) (seq 0 m)) (seq 0 n) = true →
  ∀ d s, 0 ≤ d < Z.of_nat n → 0 ≤ s < Z.of_nat m → P d s = true.
Proof.
  intros H d s Hd Hs. rewrite forallb_forall in H. specialize (H (Z.to_nat d) ltac:(apply in_seq; lia)).
  rewrite forallb_forall in H. specialize (H (Z.to_nat s) ltac:(apply in_seq; lia)).
  by rewrite !Z2Nat.id in H by lia.
Qed.

Definition in_range (x lo hi : Z) : bool := (lo <=? x) && (x <? hi).

(** kbdgetc returns -1, 0 or a byte and keeps the modifiers in seven bits. *)
Lemma kbdgetc_range st data shift :
  0 ≤ data < 256 → 0 ≤ shift < 128 →
  -1 ≤ fst (kbdgetc st data shift) < 256 ∧ 0 ≤ snd (kbdgetc st data shift) < 128.
Proof.
  intros Hd Hs. destruct (Z.eqb_spec (Z.land st KBS_DIB) 0) as [E|E].
  { unfold kbdgetc. rewrite (proj2 (Z.eqb_eq _ _) E). cbn. lia. }
  assert (kbdgetc st data shift = kbdgetc KBS_DIB data shift) as ->.
  { unfold kbdgetc. by rewrite (proj2 (Z.eqb_neq _ _) E). }
  assert ((let r := kbdgetc KBS_DIB data shift in in_range (fst r) (-1) 256 && in_range (snd r) 0 128) = true) as H.
  { apply (forall_bytes 256 128 (λ d s, let r := kbdgetc KBS_DIB d s in
      in_range (fst r) (-1) 256 && in_range (snd r) 0 128)); [|lia|lia]. vm_compute. reflexivity. }
  unfold in_range in H. to_prop. lia.
Qed.

Definition letter_char (c s : Z) : Z :=
  if Z.testbit s 1 then c - 96 else if xorb (Z.testbit s 0) (Z.testbit s 3) then c - 32 else c.

(** A letter key gives the control character under CTL, otherwise the capital
    letter exactly when one of SHIFT and CAPSLOCK is on, and the modifiers
    stay as they are. *)
Theorem kbd_letter d c s :
  0 ≤ d < 128 → 0 ≤ s < 64 → byte_of normalmap d = c → 97 ≤ c ≤ 122 →
  kbdgetc KBS_DIB d s = (letter_char c s, s).
Proof.
  intros Hd Hs <- Hc.
  assert ((let c := byte_of normalmap d in let r := kbdgetc KBS_DIB d s in
    negb (in_range c 97 123) || (fst r =? letter_char c s) && (snd r =? s)) = true) as H.
  { apply (forall_bytes 128 64 (λ d s, let c := byte_of normalmap d in let r := kbdgetc KBS_DIB d s in
      negb (in_range c 97 123) || (fst r =? letter_char c s) && (snd r =? s))); [|lia|lia].
    vm_compute. reflexivity. }
  unfold in_range in H. destruct (kbdgetc _ _ _). cbn [fst snd] in H. to_prop; try lia; f_equal; lia.
Qed.
Lemma kbd_letter_witness : kbdgetc KBS_DIB 0x1E 9 = (97, 9).
Proof. apply (kbd_letter 0x1E 97 9); [lia|lia|reflexivity|lia]. Defined.

(** Pressing and releasing a key, with or without the E0 prefix, leaves the
    modifiers as they were, unless the key is one that toggles or a modifier
    that was already down. *)
Theorem kbd_press_release (e0 : bool) d s :
  let pre := if e0 then [0xE0] else [] in
  let code := if e0 then Z.lor d 0x80 else d in
  0 ≤ d < 128 → 0 ≤ s < 64 → d ≠ 0x60 →
  byte_of togglecode code = 0 → Z.land s (byte_of shiftcode code) = 0 →
  snd (kbd_chars (pre ++ [d] ++ pre ++ [Z.lor d 0x80]) s) = s.
Proof.
  intros pre code Hd Hs Hne Ht Hc. subst pre code.
  set (P := λ d s, (d =? 0x60) || negb (byte_of togglecode (if e0 then Z.lor d 0x80 else d) =? 0) ||
    negb (Z.land s (byte_of shiftcode (if e0 then Z.lor d 0x80 else d)) =? 0) ||
    (snd (kbd_chars ((if e0 then [0xE0] else []) ++ [d] ++ (if e0 then [0xE0] else []) ++ [Z.lor d 0x80]) s) =? s)).
  assert (P d s = true) as H.
  { apply (forall_bytes 128 64 P); [|lia|lia]. destruct e0; vm_compute; reflexivity. }
  subst P. cbv beta in H. rewrite Ht, Hc in H. to_prop; (lia || done).
Qed.
Lemma kbd_press_release_witness :
  snd (kbd_chars [0x1D; 0x9D] 1) = 1 ∧ snd (kbd_chars [0xE0; 0x38; 0xE0; 0xB8] 1) = 1.
Proof.
  split; [apply (kbd_press_release false 0x1D 1)|apply (kbd_press_release true 0x38 1)]; (lia || reflexivity).
Defined.
