(* ===== verification/Exec.v ===== *)
(** * Program loading

    [exec.c], and [loaduvm] of [vm.c]. *)

From S2P Require Import Prelude Defs Spinlock CString Kernel Cprintf Sched Kalloc Vm Sleeplock Bytes Bio Log Fs Pipe File Proc Kthread Console.
Local Open Scope kernel_scope.

(** ** vm.c: loaduvm *)

(** The loop from offset [i] on, a page per round. *)
Fixpoint loaduvm_loop (fuel : nat) (pgdir addr : Z) (ip : nat) (offset i sz : Z) : KM Z :=
  match fuel with
  | O => undef "loop bound"
  | S f =>
      if i <? sz then
        let! pte := walkpgdir pgdir (u32 (addr + i)) false in
        if pte =? 0 then panic "loaduvm: address should exist"
        else
          let! e := rd32 pte in
          let pa := PTE_ADDR e in
          let n := if sz - i <? PGSIZE then sz - i else PGSIZE in
          let! r := readi (to_mem (P2V pa)) ip (u32 (offset + i)) n in
          if negb (fst r =? n) then ret (-1)
          else loaduvm_loop f pgdir addr ip offset (u32 (i + PGSIZE)) sz
      else ret 0
  end.

Definition loaduvm (pgdir addr : Z) (ip : nat) (offset sz : Z) : KM Z :=
  if negb (addr `mod` PGSIZE =? 0) then panic "loaduvm: addr must be page aligned"
  else loaduvm_loop (S NPAGES) pgdir addr ip offset 0 sz.

(** copyout of a source that is not kernel memory: a local variable, or a user
    string of the old address space. *)
Fixpoint copyout_from (fuel : nat) (pgdir va : Z) (src : Z → Z → KM (list Z)) (done_ len : Z) : KM Z :=
  match fuel with
  | O => undef "loop bound"
  | S f =>
      if 0 <? len then
        let va0 := PGROUNDDOWN va in
        let! pa0 := uva2ka pgdir va0 in
        if pa0 =? 0 then ret (-1)
        else
          let n := Z.min len (PGSIZE - (va - va0)) in
          let! bs := src done_ n in
          vwrite (u32 (pa0 + (va - va0))) bs ;;;
          copyout_from f pgdir (u32 (va0 + PGSIZE)) src (done_ + n) (len - n)
      else ret 0
  end.

(** ** elf.h *)
Definition ELF_MAGIC : Z := 0x464C457F.
Definition ELF_PROG_LOAD : Z := 1.
Definition ELFHDR : Z := 52.
Definition PROGHDR : Z := 32.
Record elfhdr := Elfhdr { elf_magic : Z; elf_entry : Z; elf_phoff : Z; elf_phnum : Z }.
Definition elfhdr_of (l : list Z) : elfhdr :=
  Elfhdr (get32 l 0) (get32 l 24) (get32 l 28) (get16 l 44).
Record proghdr := Proghdr { ph_type : Z; ph_off : Z; ph_vaddr : Z; ph_filesz : Z; ph_memsz : Z }.
Definition proghdr_of (l : list Z) : proghdr :=
  Proghdr (get32 l 0) (get32 l 4) (get32 l 8) (get32 l 16) (get32 l 20).

(** ** exec *)

(** A NUL-terminated string at a user address. *)
Fixpoint vstr (fuel : nat) (a : Z) : KM (list Z) :=
  match fuel with
  | O => undef "unterminated string"
  | S f =>
      let! c := vread8 a in
      if c =? 0 then ret [] else let! s := vstr f (u32 (a + 1)) in ret (c :: s)
  end.
(** Strings handed to the kernel end below the size of the process. *)
Definition user_str (a : Z) : KM (list Z) :=
  let! c := myproc in
  let! c := deref c in
  let! pr := rd_proc c in
  vstr (S (Z.to_nat (p_sz pr - a))) a.

(** Ask the other live threads of the table to exit. *)
Definition exec_mark (cur : tslot) (base : nat) : KM unit :=
  for_each (seq 0 NTHREAD) (λ j,
    let! th := rd_thread (base, j) in
    when (live_other (Some cur) (base, j) th) (upd_thread (base, j) (set_t_exitRequest 1))).

(** The loop over the program headers: the size so far, or None for [goto bad]. *)
Fixpoint load_segments (n : nat) (ip : nat) (pgdir off sz : Z) : KM (option Z) :=
  match n with
  | O => ret (Some sz)
  | S n' =>
      let! r := readi to_local ip (u32 off) PROGHDR in
      if negb (fst r =? PROGHDR) then ret None
      else
        let ph := proghdr_of (snd r) in
        if negb (ph_type ph =? ELF_PROG_LOAD) then load_segments n' ip pgdir (off + PROGHDR) sz
        else if ph_memsz ph <? ph_filesz ph then ret None
        else if u32 (ph_vaddr ph + ph_memsz ph) <? ph_vaddr ph then ret None
        else
          let! sz := allocuvm pgdir sz (u32 (ph_vaddr ph + ph_memsz ph)) in
          if sz =? 0 then ret None
          else if negb (ph_vaddr ph `mod` PGSIZE =? 0) then ret None
          else
            let! r := loaduvm pgdir (ph_vaddr ph) ip (ph_off ph) (ph_filesz ph) in
            if r <? 0 then ret None
            else load_segments n' ip pgdir (off + PROGHDR) sz
  end.

(** Push the argument strings: the stack pointer and their addresses. *)
Fixpoint push_args (pgdir : Z) (argv : list Z) (argc sp : Z) (acc : list Z) : KM (option (Z * list Z)) :=
  match argv with
  | [] => ret (Some (sp, acc))
  | a :: argv' =>
      if MAXARG <=? argc then ret None
      else
        let! s := user_str a in
        let len := Z.of_nat (length s) + 1 in
        let sp := Z.land (u32 (sp - len)) (u32 (Z.lnot 3)) in
        let! r := copyout_from (S (S NPAGES)) pgdir sp (from_mem a) 0 len in
        if r <? 0 then ret None
        else push_args pgdir argv' (argc + 1) sp (acc ++ [sp])
  end.

(** The program name: after the last slash. *)
Fixpoint basename (path last_ : list Z) : list Z :=
  match path with
  | [] => last_
  | c :: path' => basename path' (if c =? SLASH then path' else last_)
  end.

Definition exec_bad (pgdir : Z) (ip : option nat) : KM Z :=
  when (negb (pgdir =? 0)) (freevm pgdir) ;;;
  match ip with
  | Some ip => iunlockput ip ;;; end_op
  | None => ret tt
  end ;;;
  ret (-1).

(** From the end of loading on: the user stack, its contents, and the switch
    to the new image. *)
Definition exec_commit (c : nat) (cur : tslot) (path : Z) (argv : list Z) (entry pgdir sz : Z) : KM Z :=
  let sz := PGROUNDUP sz in
  let! sz := allocuvm pgdir sz (u32 (sz + 2 * PGSIZE)) in
  if sz =? 0 then exec_bad pgdir None
  else
    clearpteu pgdir (u32 (sz - 2 * PGSIZE)) ;;;
    let! r := push_args pgdir argv 0 sz [] in
    match r with
    | None => exec_bad pgdir None
    | Some (sp, args) =>
        let argc := Z.of_nat (length args) in
        let ustack := [0xffffffff; argc; u32 (sp - (argc + 1) * 4)] ++ args ++ [0] in
        let sp := u32 (sp - (3 + argc + 1) * 4) in
        let! r := copyout_from (S (S NPAGES)) pgdir sp (from_local (ustack ≫= bytes32)) 0
                    ((3 + argc + 1) * 4) in
        if r <? 0 then exec_bad pgdir None
        else
          let! name := user_str path in
          upd_proc c (λ x, set_p_name (copy_name (basename name name) (p_name x)) x) ;;;
          let! pr := rd_proc c in
          upd_proc c (set_p_pgdir pgdir) ;;;
          upd_proc c (set_p_sz sz) ;;;
          let! th := rd_thread cur in
          wr32 (tf_eip (t_tf th)) entry ;;;
          wr32 (tf_esp (t_tf th)) sp ;;;
          switchuvm (Some c) ;;;
          freevm (p_pgdir pr) ;;;
          ret 0
    end.

Definition exec (path : Z) (argv : list Z) : KM Z :=
  let! c := myproc in
  let! cur := mythread in
  let! cur := deref cur in
  let! th := rd_thread cur in
  if t_exitRequest th =? 1 then
    kthread_exit ;;;
    ret (-1)
  else
    acquire Lptable ;;;
    let! c := deref c in
    let! pr := rd_proc c in
    let! base := deref (p_threads pr) in
    exec_mark cur base ;;;
    release Lptable ;;;
    begin_op ;;;
    let! name := user_str path in
    let! ip := namei name in
    match ip with
    | None =>
        end_op ;;;
        cprintf (chars "exec: fail" ++ [10]) [] ;;;
        ret (-1)
    | Some ip =>
        ilock (Some ip) ;;;
        let! r := readi to_local ip 0 ELFHDR in
        if negb (fst r =? ELFHDR) then exec_bad 0 (Some ip)
        else
          let elf := elfhdr_of (snd r) in
          if negb (elf_magic elf =? ELF_MAGIC) then exec_bad 0 (Some ip)
          else
            let! pgdir := setupkvm in
            if pgdir =? 0 then exec_bad 0 (Some ip)
            else
              let! r := load_segments (Z.to_nat (elf_phnum elf)) ip pgdir (i32 (elf_phoff elf)) 0 in
              match r with
              | None => exec_bad pgdir (Some ip)
              | Some sz =>
                  iunlockput ip ;;;
                  end_op ;;;
                  exec_commit c cur path argv (elf_entry elf) pgdir sz
              end
    end.
