(* ===== verification/Syscall.v ===== *)
(** * System calls

    [syscall.c], [sysproc.c] and [sysfile.c]: fetching arguments from the user
    stack and checking them, the system call functions, and the dispatch.  A
    path argument is the user address of its string; the string is read where
    the code hands it to [namei] or [nameiparent]. *)

From S2P Require Import Prelude Defs Spinlock CString Kernel Cprintf Sched Kalloc Mutex Vm Sleeplock Bytes Bio Log Fs Pipe File Proc Kthread Console Exec.
Local Open Scope kernel_scope.

(** ** syscall.c: arguments *)

Definition cur_proc : KM proc :=
  let! c := myproc in
  let! c := deref c in
  rd_proc c.
Definition cur_thread : KM kthread :=
  let! t := mythread in
  let! t := deref t in
  rd_thread t.

(** [*(int* )addr] through the page table. *)
Definition vread32 (a : Z) : KM Z := let! l := vread a 4 in ret (get32 l 0).

(** None is -1. *)
Definition fetchint (addr : Z) : KM (option Z) :=
  let! pr := cur_proc in
  if (p_sz pr <=? addr) || (p_sz pr <? u32 (addr + 4)) then ret None
  else let! v := vread32 addr in ret (Some (i32 v)).

Fixpoint fetchstr_loop (fuel : nat) (s ep n : Z) : KM (option Z) :=
  match fuel with
  | O => undef "loop bound"
  | S f =>
      if s <? ep then
        let! c := vread8 s in
        if c =? 0 then ret (Some n) else fetchstr_loop f (s + 1) ep (n + 1)
      else ret None
  end.

(** The length of the string at [addr]. *)
Definition fetchstr (addr : Z) : KM (option Z) :=
  let! pr := cur_proc in
  if p_sz pr <=? addr then ret None
  else fetchstr_loop (S (Z.to_nat (p_sz pr - addr))) addr (p_sz pr) 0.

Definition argint (n : Z) : KM (option Z) :=
  let! th := cur_thread in
  let! esp := rd32 (tf_esp (t_tf th)) in
  fetchint (u32 (esp + 4 + 4 * n)).

(** The pointer. *)
Definition argptr (n size : Z) : KM (option Z) :=
  let! i := argint n in
  match i with
  | None => ret None
  | Some i =>
      let! pr := cur_proc in
      if (size <? 0) || (p_sz pr <=? u32 i) || (p_sz pr <? u32 (u32 i + size)) then ret None
      else ret (Some (u32 i))
  end.

(** The address of the string. *)
Definition argstr (n : Z) : KM (option Z) :=
  let! addr := argint n in
  match addr with
  | None => ret None
  | Some addr =>
      let! len := fetchstr (u32 addr) in
      match len with
      | None => ret None
      | Some _ => ret (Some (u32 addr))
      end
  end.

(** Steps that return -1 from the system call when they fail. *)
Definition or_fail {A} (m : KM (option A)) (f : A → KM Z) : KM Z :=
  let! r := m in
  match r with None => ret (-1) | Some a => f a end.
Notation "'try!' x := c 'in' k" := (or_fail c (λ x, k))
  (at level 10, x binder, c at level 100, k at level 200) : kernel_scope.

(** ** sysproc.c *)

Section SysProc.
Context {ksyms : KSyms}.

Definition sys_fork : KM Z := fork.
Definition sys_exit : KM Z := exit ;;; ret 0.
Definition sys_wait : KM Z := wait.
Definition sys_kill : KM Z := try! pid := argint 0 in kill pid.
Definition sys_getpid : KM Z := let! pr := cur_proc in ret (p_pid pr).

Definition sys_sbrk : KM Z :=
  try! n := argint 0 in
  let! pr := cur_proc in
  let addr := i32 (p_sz pr) in
  let! r := growproc n in
  if r <? 0 then ret (-1) else ret addr.

(** [ticks - ticks0 < n] compares unsigned. *)
Definition ticks_short (ticks0 n : Z) : KM bool :=
  let! t := gets k_ticks in ret (u32 (t - ticks0) <? u32 n).
(** [myproc()->killed || mythread()->exitRequest] *)
Definition told_to_stop : KM bool :=
  let! kd := my_killed in
  if kd then ret true
  else let! th := cur_thread in ret (negb (t_exitRequest th =? 0)).

Definition sleep_wait (ticks0 n : Z) : KM bool :=
  let! b := ticks_short ticks0 n in
  if b then let! s := told_to_stop in ret (negb s) else ret false.

Definition sys_sleep : KM Z :=
  try! n := argint 0 in
  acquire Ltickslock ;;;
  let! ticks0 := gets k_ticks in
  while_wait (sleep_wait ticks0 n) (sleep ChTicks Ltickslock) ;;;
  let! b := ticks_short ticks0 n in
  release Ltickslock ;;;
  ret (if b then -1 else 0).

Definition sys_uptime : KM Z :=
  acquire Ltickslock ;;;
  let! x := gets k_ticks in
  release Ltickslock ;;;
  ret (i32 x).

Definition sys_kthread_exit : KM Z := kthread_exit ;;; ret 0.
Definition sys_kthread_create : KM Z :=
  try! start_func := argptr 0 4 in
  try! stack := argptr 1 4 in
  kthread_create start_func stack.
Definition sys_kthread_id : KM Z := kthread_id.
Definition sys_kthread_join : KM Z := try! n := argint 0 in kthread_join n.
Definition sys_kthread_mutex_alloc : KM Z := kthread_mutex_alloc.
Definition sys_kthread_mutex_dealloc : KM Z := try! mid := argint 0 in kthread_mutex_dealloc mid.
Definition sys_kthread_mutex_lock : KM Z := try! mid := argint 0 in kthread_mutex_lock mid.
Definition sys_kthread_mutex_unlock : KM Z := try! mid := argint 0 in kthread_mutex_unlock mid.
End SysProc.

(** ** sysfile.c *)

(** The descriptor and its file. *)
Definition argfd (n : Z) : KM (option (nat * nat)) :=
  let! fd := argint n in
  match fd with
  | None => ret None
  | Some fd =>
      if (fd <? 0) || (Z.of_nat NOFILE <=? fd) then ret None
      else
        let! pr := cur_proc in
        match p_ofile pr !! Z.to_nat fd with
        | Some (Some f) => ret (Some (Z.to_nat fd, f))
        | Some None => ret None
        | None => undef "ofile bounds"
        end
  end.

(** The first free descriptor. *)
Fixpoint free_fd (l : list (option nat)) (i : nat) : option nat :=
  match l with
  | [] => None
  | None :: _ => Some i
  | Some _ :: l' => free_fd l' (S i)
  end.

Definition set_fd (fd : nat) (f : option nat) : KM unit :=
  let! c := myproc in
  let! c := deref c in
  upd_proc c (λ x, set_p_ofile (<[fd := f]> (p_ofile x)) x).

Definition fdalloc (f : nat) : KM (option nat) :=
  let! pr := cur_proc in
  match free_fd (p_ofile pr) 0 with
  | Some fd => set_fd fd (Some f) ;;; ret (Some fd)
  | None => ret None
  end.

Definition sys_dup : KM Z :=
  try! x := argfd 0 in
  try! fd := fdalloc (snd x) in
  filedup (snd x) ;;;
  ret (Z.of_nat fd).

Definition sys_read : KM Z :=
  try! x := argfd 0 in
  try! n := argint 2 in
  try! p := argptr 1 n in
  fileread (snd x) p n.

Definition sys_write : KM Z :=
  try! x := argfd 0 in
  try! n := argint 2 in
  try! p := argptr 1 n in
  filewrite (snd x) p n.

Definition sys_close : KM Z :=
  try! x := argfd 0 in
  set_fd (fst x) None ;;;
  fileclose (snd x) ;;;
  ret 0.

Definition sys_fstat : KM Z :=
  try! x := argfd 0 in
  try! st := argptr 1 20 in
  filestat (snd x) st.

(** [bad:] of sys_link: take the link count back. *)
Definition link_bad (ip : nat) : KM Z :=
  ilock (Some ip) ;;;
  upd_inode ip (λ x, set_i_nlink (i16 (i_nlink x - 1)) x) ;;;
  iupdate ip ;;;
  iunlockput ip ;;;
  end_op ;;;
  ret (-1).

Definition sys_link : KM Z :=
  try! old := argstr 0 in
  try! new := argstr 1 in
  begin_op ;;;
  let! old := user_str old in
  let! ip := namei old in
  match ip with
  | None => end_op ;;; ret (-1)
  | Some ip =>
      ilock (Some ip) ;;;
      let! x := rd_inode ip in
      if i_type x =? T_DIR then iunlockput ip ;;; end_op ;;; ret (-1)
      else
        upd_inode ip (λ x, set_i_nlink (i16 (i_nlink x + 1)) x) ;;;
        iupdate ip ;;;
        iunlock (Some ip) ;;;
        let! new := user_str new in
        let! dp := nameiparent new in
        match dp with
        | None => link_bad ip
        | Some (dp, name) =>
            ilock (Some dp) ;;;
            let! d := rd_inode dp in
            let! x := rd_inode ip in
            let! r := (if negb (i_dev d =? i_dev x) then ret (-1) else dirlink dp name (i_inum x)) in
            if r <? 0 then iunlockput dp ;;; link_bad ip
            else
              iunlockput dp ;;;
              iput ip ;;;
              end_op ;;;
              ret 0
        end
  end.

Fixpoint isdirempty_loop (fuel : nat) (dp : nat) (off : Z) : KM bool :=
  match fuel with
  | O => undef "loop bound"
  | S f =>
      let! d := rd_inode dp in
      if off <? i_size d then
        let! r := readi to_local dp off DIRENT in
        if negb (fst r =? DIRENT) then panic "isdirempty: readi"
        else if negb (de_inum (snd r) =? 0) then ret false
        else isdirempty_loop f dp (off + DIRENT)
      else ret true
  end.
Definition isdirempty (dp : nat) : KM bool :=
  let! d := rd_inode dp in
  isdirempty_loop (S (Z.to_nat (i_size d / DIRENT + 1))) dp (2 * DIRENT).

Definition DOT : list Z := [46].
Definition DOTDOT : list Z := [46; 46].

Definition unlink_bad (dp : nat) : KM Z :=
  iunlockput dp ;;;
  end_op ;;;
  ret (-1).

Definition sys_unlink : KM Z :=
  try! path := argstr 0 in
  begin_op ;;;
  let! path := user_str path in
  let! r := nameiparent path in
  match r with
  | None => end_op ;;; ret (-1)
  | Some (dp, name) =>
      ilock (Some dp) ;;;
      if (namecmp name DOT =? 0) || (namecmp name DOTDOT =? 0) then unlink_bad dp
      else
        let! r := dirlookup dp name in
        match r with
        | None => unlink_bad dp
        | Some (ip, off) =>
            ilock (Some ip) ;;;
            let! x := rd_inode ip in
            if i_nlink x <? 1 then panic "unlink: nlink < 1"
            else
              let! busy := (if i_type x =? T_DIR then let! e := isdirempty ip in ret (negb e)
                            else ret false) in
              if busy then iunlockput ip ;;; unlink_bad dp
              else
                let! r := writei (from_local (replicate (Z.to_nat DIRENT) 0)) dp off DIRENT in
                if negb (r =? DIRENT) then panic "unlink: writei"
                else
                  let! x := rd_inode ip in
                  when (i_type x =? T_DIR)
                    (upd_inode dp (λ d, set_i_nlink (i16 (i_nlink d - 1)) d) ;;; iupdate dp) ;;;
                  iunlockput dp ;;;
                  upd_inode ip (λ x, set_i_nlink (i16 (i_nlink x - 1)) x) ;;;
                  iupdate ip ;;;
                  iunlockput ip ;;;
                  end_op ;;;
                  ret 0
        end
  end.

Definition create (path : Z) (type major minor : Z) : KM (option nat) :=
  let! path := user_str path in
  let! r := nameiparent path in
  match r with
  | None => ret None
  | Some (dp, name) =>
      ilock (Some dp) ;;;
      let! r := dirlookup dp name in
      match r with
      | Some (ip, _) =>
          iunlockput dp ;;;
          ilock (Some ip) ;;;
          let! x := rd_inode ip in
          if (type =? T_FILE) && (i_type x =? T_FILE) then ret (Some ip)
          else iunlockput ip ;;; ret None
      | None =>
          let! d := rd_inode dp in
          let! ip := ialloc (i_dev d) type in
          ilock (Some ip) ;;;
          upd_inode ip (λ x, set_i_nlink 1 (set_i_minor minor (set_i_major major x))) ;;;
          iupdate ip ;;;
          when (type =? T_DIR)
            (upd_inode dp (λ d, set_i_nlink (i16 (i_nlink d + 1)) d) ;;;
             iupdate dp ;;;
             let! x := rd_inode ip in
             let! r := dirlink ip DOT (i_inum x) in
             let! d := rd_inode dp in
             let! r := (if r <? 0 then ret r else dirlink ip DOTDOT (i_inum d)) in
             if r <? 0 then panic "create dots" else ret tt) ;;;
          let! x := rd_inode ip in
          let! r := dirlink dp name (i_inum x) in
          if r <? 0 then panic "create: dirlink"
          else
            iunlockput dp ;;;
            ret (Some ip)
      end
  end.

(** ** fcntl.h *)
Definition O_RDONLY : Z := 0x000.
Definition O_WRONLY : Z := 0x001.
Definition O_RDWR : Z := 0x002.
Definition O_CREATE : Z := 0x200.
Definition flag (x m : Z) : bool := negb (Z.land x m =? 0).

(** The inode of sys_open, locked. *)
Definition open_inode (path omode : Z) : KM (option nat) :=
  if flag omode O_CREATE then create path T_FILE 0 0
  else
    let! name := user_str path in
    let! ip := namei name in
    match ip with
    | None => ret None
    | Some ip =>
        ilock (Some ip) ;;;
        let! x := rd_inode ip in
        if (i_type x =? T_DIR) && negb (omode =? O_RDONLY) then iunlockput ip ;;; ret None
        else ret (Some ip)
    end.

Definition sys_open : KM Z :=
  try! path := argstr 0 in
  try! omode := argint 1 in
  begin_op ;;;
  let! ip := open_inode path omode in
  match ip with
  | None => end_op ;;; ret (-1)
  | Some ip =>
      let! f := filealloc in
      let! fd := (match f with None => ret None | Some f => fdalloc f end) in
      match f, fd with
      | Some f, Some fd =>
          iunlock (Some ip) ;;;
          end_op ;;;
          upd_file f (λ x,
            set_f_writable (if flag omode O_WRONLY || flag omode O_RDWR then 1 else 0)
              (set_f_readable (if flag omode O_WRONLY then 0 else 1)
                (set_f_off 0 (set_f_ip (Some ip) (set_f_type FD_INODE x))))) ;;;
          ret (Z.of_nat fd)
      | _, _ =>
          close_opt f ;;;
          iunlockput ip ;;;
          end_op ;;;
          ret (-1)
      end
  end.

(** The result of a call that creates an inode inside a transaction. *)
Definition finish_create (ip : option nat) : KM Z :=
  match ip with
  | None => end_op ;;; ret (-1)
  | Some ip =>
      iunlockput ip ;;;
      end_op ;;;
      ret 0
  end.

Definition sys_mkdir : KM Z :=
  begin_op ;;;
  let! path := argstr 0 in
  let! ip := (match path with None => ret None | Some p => create p T_DIR 0 0 end) in
  finish_create ip.

Definition sys_mknod : KM Z :=
  begin_op ;;;
  let! path := argstr 0 in
  let! ip := (match path with
              | None => ret None
              | Some p =>
                  let! major := argint 1 in
                  match major with
                  | None => ret None
                  | Some major =>
                      let! minor := argint 2 in
                      match minor with
                      | None => ret None
                      | Some minor => create p T_DEV (i16 major) (i16 minor)
                      end
                  end
              end) in
  finish_create ip.

Definition sys_chdir : KM Z :=
  let! c := myproc in
  begin_op ;;;
  let! path := argstr 0 in
  let! ip := (match path with
              | None => ret None
              | Some p => let! name := user_str p in namei name
              end) in
  match ip with
  | None => end_op ;;; ret (-1)
  | Some ip =>
      ilock (Some ip) ;;;
      let! x := rd_inode ip in
      if negb (i_type x =? T_DIR) then iunlockput ip ;;; end_op ;;; ret (-1)
      else
        iunlock (Some ip) ;;;
        let! c := deref c in
        let! pr := rd_proc c in
        let! cwd := deref (p_cwd pr) in
        iput cwd ;;;
        end_op ;;;
        upd_proc c (set_p_cwd (Some ip)) ;;;
        ret 0
  end.

(** The argument pointers from [uargv + 4 i] on. *)
Fixpoint fetch_argv (n : nat) (uargv i : Z) : KM (option (list Z)) :=
  match n with
  | O => ret None
  | S n' =>
      let! uarg := fetchint (u32 (uargv + 4 * i)) in
      match uarg with
      | None => ret None
      | Some uarg =>
          if uarg =? 0 then ret (Some [])
          else
            let! len := fetchstr (u32 uarg) in
            match len with
            | None => ret None
            | Some _ =>
                let! l := fetch_argv n' uargv (i + 1) in
                ret (cons (u32 uarg) <$> l)
            end
      end
  end.

Definition sys_exec : KM Z :=
  try! path := argstr 0 in
  try! uargv := argint 1 in
  try! argv := fetch_argv (Z.to_nat MAXARG) (u32 uargv) 0 in
  exec path argv.

Definition sys_pipe : KM Z :=
  try! fd := argptr 0 8 in
  try! ends := pipealloc in
  let! fd0 := fdalloc (fst ends) in
  let! fd1 := (match fd0 with None => ret None | Some _ => fdalloc (snd ends) end) in
  match fd0, fd1 with
  | Some a, Some b =>
      vwrite fd (bytes32 (Z.of_nat a)) ;;;
      vwrite (u32 (fd + 4)) (bytes32 (Z.of_nat b)) ;;;
      ret 0
  | _, _ =>
      (match fd0 with Some a => set_fd a None | None => ret tt end) ;;;
      fileclose (fst ends) ;;;
      fileclose (snd ends) ;;;
      ret (-1)
  end.

(** ** syscall *)

Section Dispatch.
Context {ksyms : KSyms}.

(** The table [syscalls], by the numbers of syscall.h. *)
Definition syscalls : list (KM Z) :=
  [sys_fork; sys_exit; sys_wait; sys_pipe; sys_read; sys_kill; sys_exec; sys_fstat; sys_chdir;
   sys_dup; sys_getpid; sys_sbrk; sys_sleep; sys_uptime; sys_open; sys_write; sys_mknod;
   sys_unlink; sys_link; sys_mkdir; sys_close; sys_kthread_create; sys_kthread_id;
   sys_kthread_exit; sys_kthread_join; sys_kthread_mutex_alloc; sys_kthread_mutex_dealloc;
   sys_kthread_mutex_lock; sys_kthread_mutex_unlock].

Definition syscall : KM unit :=
  let! c := myproc in
  let! t := mythread in
  let! t := deref t in
  let! th := rd_thread t in
  let! eax := rd32 (tf_eax (t_tf th)) in
  let num := i32 eax in
  match (if 0 <? num then syscalls !! Z.to_nat (num - 1) else None) with
  | Some f =>
      let! r := f in
      let! th := rd_thread t in
      wr32 (tf_eax (t_tf th)) (u32 r)
  | None =>
      let! c := deref c in
      let! pr := rd_proc c in
      cprintf (chars "%d %s: unknown sys call %d" ++ [10])
        [Aint (p_pid pr); Astr (Some (until_nul (p_name pr))); Aint num] ;;;
      wr32 (tf_eax (t_tf th)) (u32 (-1))
  end.
End Dispatch.

(** ** The checks on user pointers *)

Lemma cur_proc_eq o k c pr n :
  calm (k_lk k) n → k_proc k = Some c → k_procs k !! c = Some pr → cur_proc o k = Ok pr k o.
Proof.
  intros Hc Hp Hpr. unfold cur_proc. rewrite (bind_ok _ _ _ _ _ _ _ (myproc_calm _ _ _ Hc)), Hp.
  unfold deref. mrun. by rewrite (rd_proc_eq _ _ _ _ Hpr).
Qed.

(** The loop of fetchstr: the distance to the first zero byte below [ep]. *)
Lemma fetchstr_loop_spec fuel s ep n phys o k :
  (∀ a, s ≤ a < ep → addr_of (k_cr3 k) (k_mem k) a = Some (phys a)) → 0 ≤ ep - s < Z.of_nat fuel →
  (∃ j, 0 ≤ j ∧ s + j < ep ∧ k_mem k (phys (s + j)) = 0 ∧ (∀ i, 0 ≤ i < j → k_mem k (phys (s + i)) ≠ 0) ∧
     fetchstr_loop fuel s ep n o k = Ok (Some (n + j)) k o) ∨
  (∀ a, s ≤ a < ep → k_mem k (phys a) ≠ 0) ∧ fetchstr_loop fuel s ep n o k = Ok None k o.
Proof.
  revert s n. induction fuel as [|fuel IH]; intros s n Hm Hf; [lia|].
  cbn [fetchstr_loop]. destruct (Z.ltb_spec s ep) as [Hlt|Hge]; [|right; split; [intros; lia|done]].
  rewrite (bind_ok _ _ _ _ _ _ _ (vread8_eq s o k _ (Hm s ltac:(lia)))).
  destruct (Z.eqb_spec (k_mem k (phys s)) 0) as [E|E].
  - left. exists 0. rewrite !Z.add_0_r. split_and!; [lia|lia|done|intros; lia|done].
  - destruct (IH (s + 1) (n + 1)) as [(j & H1 & H2 & H3 & H4 & H5)|[H1 H2]]; [intros; apply Hm; lia|lia|left|right].
    + exists (j + 1). replace (s + (j + 1)) with (s + 1 + j) by lia. split_and!; [lia|lia|done| |].
      * intros i Hi. destruct (decide (i = 0)) as [->|]; [by rewrite Z.add_0_r|].
        replace (s + i) with (s + 1 + (i - 1)) by lia. apply H4. lia.
      * rewrite H5. by replace (n + 1 + j) with (n + (j + 1)) by lia.
    + split; [|done]. intros a Ha. destruct (decide (a = s)) as [->|]; [done|]. apply H1. lia.
Qed.

(** argptr accepts a pointer argument exactly when the whole block of [size]
    bytes lies in the memory of the process, for every pointer and every size,
    negative and overflowing ones included. *)
Theorem argptr_exact n size i c pr o k lvl :
  calm (k_lk k) lvl → k_proc k = Some c → k_procs k !! c = Some pr → 0 ≤ p_sz pr ≤ KERNBASE →
  -2147483648 ≤ size < 2147483648 → argint n o k = Ok (Some i) k o →
  argptr n size o k =
    Ok (if decide (0 ≤ size ∧ u32 i < p_sz pr ∧ u32 i + size ≤ p_sz pr) then Some (u32 i) else None) k o.
Proof.
  unfold KERNBASE. intros Hc Hp Hpr Hsz Hs Hi. unfold argptr. rewrite (bind_ok _ _ _ _ _ _ _ Hi).
  rewrite (bind_ok _ _ _ _ _ _ _ (cur_proc_eq _ _ _ _ _ Hc Hp Hpr)). pose proof (u32_range i) as Hr.
  destruct (Z.ltb_spec size 0); [rewrite decide_False; [done|lia]|].
  destruct (Z.leb_spec (p_sz pr) (u32 i)); [rewrite decide_False; [done|lia]|].
  rewrite (u32_small (u32 i + size)) by lia.
  destruct (Z.ltb_spec (p_sz pr) (u32 i + size)); [rewrite decide_False by lia|rewrite decide_True by lia]; done.
Qed.

(** fetchstr returns the length of the string at [addr] exactly when a zero
    byte ends it inside the memory of the process, and fails otherwise; it
    reads nothing outside that memory and changes nothing. *)
Theorem fetchstr_exact addr phys c pr o k lvl :
  calm (k_lk k) lvl → k_proc k = Some c → k_procs k !! c = Some pr →
  (∀ a, addr ≤ a < p_sz pr → addr_of (k_cr3 k) (k_mem k) a = Some (phys a)) →
  (∃ len, fetchstr addr o k = Ok (Some len) k o ∧ 0 ≤ len ∧ addr + len < p_sz pr ∧
     k_mem k (phys (addr + len)) = 0 ∧ ∀ i, 0 ≤ i < len → k_mem k (phys (addr + i)) ≠ 0) ∨
  (fetchstr addr o k = Ok None k o ∧ ∀ a, addr ≤ a < p_sz pr → k_mem k (phys a) ≠ 0).
Proof.
  intros Hc Hp Hpr Hm. unfold fetchstr.
  destruct (Z.leb_spec (p_sz pr) addr) as [Hge|Hlt].
  - right. rewrite (bind_ok _ _ _ _ _ _ _ (cur_proc_eq _ _ _ _ _ Hc Hp Hpr)).
    rewrite (proj2 (Z.leb_le _ _)) by done. split; [done|intros; lia].
  - destruct (fetchstr_loop_spec (S (Z.to_nat (p_sz pr - addr))) addr (p_sz pr) 0 phys o k Hm ltac:(lia))
      as [(j & H1 & H2 & H3 & H4 & H5)|[H1 H2]]; [left; exists j|right];
      rewrite (bind_ok _ _ _ _ _ _ _ (cur_proc_eq _ _ _ _ _ Hc Hp Hpr)), (proj2 (Z.leb_gt _ _)) by done.
    + by rewrite H5.
    + by rewrite H2.
Qed.

(** ** A concrete system call: the user page at [0x1000], the stack at the end
    of it with the address of the string "ab" in it as first argument *)

Definition demo_sysmem : memory :=
  st8 (st8 (st32 (st32 demo_ptmem 0x80403f04 0x1ff0) (tf_esp 0x80401FB4) 0x1f00)
    0x80403ff0 97) 0x80403ff1 98.
Definition demo_sysproc : proc := set_p_sz 0x2000 (demo_proc 1 0).
Definition demo_sys : kernel :=
  set_k_cr3 0x500000 (set_k_mem demo_sysmem
    (set_k_procs (<[0%nat := demo_sysproc]> (k_procs demo_kernel)) demo_kernel)).

Lemma demo_sys_calm : calm (k_lk demo_sys) 0.
Proof. exact boot_lks_calm. Qed.

Lemma demo_sys_mapped a :
  0x1000 ≤ a < 0x2000 → addr_of 0x500000 demo_sysmem a = Some (0x80402000 + a).
Proof.
  intros Ha. unfold addr_of, user_byte, user_page. rewrite (proj2 (Z.leb_gt _ _)) by (unfold KERNBASE; lia).
  change (P2V 0x500000) with 0x80500000. rewrite (pte_val_page _ _ a 0x1000) by dlia.
  assert (pte_val demo_sysmem 0x80500000 0x1000 = 0x403007) as -> by (by vm_compute).
  change (Z.land 0x403007 PTE_P =? 0) with false. change (P2V (PTE_ADDR 0x403007)) with 0x80403000.
  cbv beta iota. f_equal. dlia.
Qed.

Lemma demo_sys_vread32 : vread32 0x1f04 [] demo_sys = Ok 0x1ff0 demo_sys [].
Proof.
  unfold vread32. cbn [vread]. mrun.
  rewrite (bind_ok _ _ _ _ _ _ _ (vread8_eq 0x1f04 [] demo_sys _ (demo_sys_mapped 0x1f04 ltac:(lia)))). mrun.
  rewrite (bind_ok _ _ _ _ _ _ _ (vread8_eq 0x1f05 [] demo_sys _ (demo_sys_mapped 0x1f05 ltac:(lia)))). mrun.
  rewrite (bind_ok _ _ _ _ _ _ _ (vread8_eq 0x1f06 [] demo_sys _ (demo_sys_mapped 0x1f06 ltac:(lia)))). mrun.
  rewrite (bind_ok _ _ _ _ _ _ _ (vread8_eq 0x1f07 [] demo_sys _ (demo_sys_mapped 0x1f07 ltac:(lia)))).
  by change (k_mem demo_sys) with demo_sysmem.
Qed.

Lemma demo_sys_argint : argint 0 [] demo_sys = Ok (Some 0x1ff0) demo_sys [].
Proof.
  assert (cur_thread [] demo_sys = Ok (demo_thread 1 0 RUNNING None) demo_sys []) as E.
  { unfold cur_thread. rewrite (bind_ok _ _ _ _ _ _ _ (mythread_calm _ _ _ demo_sys_calm)). reflexivity. }
  unfold argint. rewrite (bind_ok _ _ _ _ _ _ _ E).
  assert (rd32 (tf_esp (t_tf (demo_thread 1 0 RUNNING None))) [] demo_sys = Ok 0x1f00 demo_sys []) as E2.
  { unfold rd32, gets. change (k_mem demo_sys) with demo_sysmem. by vm_compute (ld32 _ _). }
  rewrite (bind_ok _ _ _ _ _ _ _ E2). change (u32 (0x1f00 + 4 + 4 * 0)) with 0x1f04. unfold fetchint.
  rewrite (bind_ok _ _ _ _ _ _ _ (cur_proc_eq [] demo_sys 0 demo_sysproc 0 demo_sys_calm eq_refl eq_refl)).
  change ((p_sz demo_sysproc <=? 0x1f04) || (p_sz demo_sysproc <? u32 (0x1f04 + 4))) with false. cbv beta iota.
  by rewrite (bind_ok _ _ _ _ _ _ _ demo_sys_vread32).
Qed.

Lemma argptr_exact_witness :
  argptr 0 16 [] demo_sys = Ok (Some 0x1ff0) demo_sys [] ∧ argptr 0 17 [] demo_sys = Ok None demo_sys [] ∧
  argptr 0 (-1) [] demo_sys = Ok None demo_sys [].
Proof.
  split_and!.
  - exact (argptr_exact 0 16 0x1ff0 0 demo_sysproc [] demo_sys 0 demo_sys_calm eq_refl eq_refl
      ltac:(by vm_compute) ltac:(lia) demo_sys_argint).
  - exact (argptr_exact 0 17 0x1ff0 0 demo_sysproc [] demo_sys 0 demo_sys_calm eq_refl eq_refl
      ltac:(by vm_compute) ltac:(lia) demo_sys_argint).
  - exact (argptr_exact 0 (-1) 0x1ff0 0 demo_sysproc [] demo_sys 0 demo_sys_calm eq_refl eq_refl
      ltac:(by vm_compute) ltac:(lia) demo_sys_argint).
Defined.

Lemma fetchstr_exact_witness : fetchstr 0x1ff0 [] demo_sys = Ok (Some 2) demo_sys [].
Proof.
  destruct (fetchstr_exact 0x1ff0 (λ a, 0x80402000 + a) 0 demo_sysproc [] demo_sys 0 demo_sys_calm eq_refl eq_refl
    (λ a Ha, demo_sys_mapped a ltac:(cbn in Ha; lia))) as [(len & H & H1 & H2 & H3 & H4)|[_ H]].
  - assert (len = 0 ∨ len = 1 ∨ len = 2 ∨ 2 < len) as [->|[->|[->|?]]] by lia.
    + exfalso. vm_compute in H3. discriminate H3.
    + exfalso. vm_compute in H3. discriminate H3.
    + exact H.
    + exfalso. exact (H4 2 ltac:(lia) eq_refl).
  - exfalso. exact (H 0x1ff2 ltac:(cbn; lia) eq_refl).
Defined.
