(* ===== verification/Trap.v ===== *)
(** * Traps and interrupts

    [trap.c]: system calls, device interrupts, faults of user code, and the
    places where a thread told to exit leaves.  The page fault address and the
    characters a console interrupt delivers are arguments: [kbdintr] and
    [uartintr] are [consoleintr] on the characters their device has.  [lapic] is
    the address of the local APIC that [mpinit] finds. *)

From S2P Require Import Prelude Defs X86 Spinlock CString Kernel Cprintf Apic Sched Kalloc Vm Sleeplock Bytes Bio Log Fs Pipe File Proc Kthread Console Exec Syscall.
Local Open Scope kernel_scope.

(** The table at [idt] with the handlers of the array [vectors]. *)
Definition tvinit (vectors : Z → Z) (idt : Z) : KM unit :=
  upd_mem (tvinit_gates vectors idt) ;;;
  initlock Ltickslock "time".

(** [mythread() && mythread()->exitRequest] *)
Definition exit_requested : KM bool :=
  let! t := mythread in
  match t with
  | None => ret false
  | Some t => let! th := rd_thread t in ret (negb (t_exitRequest th =? 0))
  end.
(** [myproc() && myproc()->killed] *)
Definition proc_killed : KM bool :=
  let! c := myproc in
  match c with
  | None => ret false
  | Some c => let! pr := rd_proc c in ret (negb (p_killed pr =? 0))
  end.

(** The two checks of trap, made when the trap came from user space. *)
Definition leave_if_told (user : bool) : KM unit :=
  let! e := exit_requested in
  when (e && user) kthread_exit ;;;
  let! kd := proc_killed in
  when (kd && user) exit.

(** The clock interrupt on the first CPU. *)
Definition timer_tick : KM unit :=
  acquire Ltickslock ;;;
  modify (λ k, set_k_ticks (u32 (k_ticks k + 1)) k) ;;;
  wakeup ChTicks ;;;
  release Ltickslock.

(** A fault of user code: mark the process killed and wake its threads. *)
Definition user_fault (c : nat) : KM unit :=
  upd_proc c (set_p_killed 1) ;;;
  let! pr := rd_proc c in
  let! base := deref (p_threads pr) in
  for_each (seq 0 NTHREAD) (λ j,
    let! th := rd_thread (base, j) in
    when (bool_decide (t_state th = SLEEPING)) (upd_thread (base, j) (set_t_state RUNNABLE))).

Section Trap.
Context {ksyms : KSyms}.

(** System call: the trap frame becomes the thread's. *)
Definition trap_syscall (tf : Z) : KM unit :=
  let! th := cur_thread in
  when (negb (t_exitRequest th =? 0)) kthread_exit ;;;
  let! kd := my_killed in
  when kd exit ;;;
  let! t := mythread in
  let! t := deref t in
  upd_thread t (set_t_tf tf) ;;;
  syscall ;;;
  let! th := cur_thread in
  when (negb (t_exitRequest th =? 0)) kthread_exit ;;;
  let! kd := my_killed in
  when kd exit.

(** The switch on the trap number. *)
Definition trap_dispatch (lapic tf trapno cs : Z) (cr2 : Z) (input : list Z) : KM unit :=
  if trapno =? T_IRQ0 + IRQ_TIMER then
    let! c := mycpu in
    when (bool_decide (c = 0%nat)) timer_tick ;;;
    lapiceoi lapic
  else if trapno =? T_IRQ0 + IRQ_IDE then ideintr ;;; lapiceoi lapic
  else if trapno =? T_IRQ0 + IRQ_IDE + 1 then ret tt
  else if trapno =? T_IRQ0 + IRQ_KBD then consoleintr input ;;; lapiceoi lapic
  else if trapno =? T_IRQ0 + IRQ_COM1 then consoleintr input ;;; lapiceoi lapic
  else
    let! eip := rd32 (tf_eip tf) in
    let! cpu := mycpu in
    if (trapno =? T_IRQ0 + 7) || (trapno =? T_IRQ0 + IRQ_SPURIOUS) then
      cprintf (chars "cpu%d: spurious interrupt at %x:%x" ++ [10])
        [Aint (Z.of_nat cpu); Aint cs; Aint eip] ;;;
      lapiceoi lapic
    else
      let! c := myproc in
      match c with
      | Some c =>
          if Z.land cs 3 =? 0 then
            cprintf (chars "unexpected trap %d from cpu %d eip %x (cr2=0x%x)" ++ [10])
              [Aint trapno; Aint (Z.of_nat cpu); Aint eip; Aint cr2] ;;;
            panic "trap"
          else
            let! pr := rd_proc c in
            let! err := rd32 (tf + 52) in
            cprintf (chars "pid %d %s: trap %d err %d on cpu %d eip 0x%x addr 0x%x--kill proc" ++ [10])
              [Aint (p_pid pr); Astr (Some (until_nul (p_name pr))); Aint trapno; Aint err;
               Aint (Z.of_nat cpu); Aint eip; Aint cr2] ;;;
            user_fault c
      | None =>
          cprintf (chars "unexpected trap %d from cpu %d eip %x (cr2=0x%x)" ++ [10])
            [Aint trapno; Aint (Z.of_nat cpu); Aint eip; Aint cr2] ;;;
          panic "trap"
      end.

Definition trap (lapic tf : Z) (cr2 : Z) (input : list Z) : KM unit :=
  let! trapno := rd32 (tf_trapno tf) in
  if trapno =? T_SYSCALL then trap_syscall tf
  else
    let! csw := rd32 (tf_cs tf) in
    let cs := u16 csw in
    trap_dispatch lapic tf trapno cs cr2 input ;;;
    let user := Z.land cs 3 =? DPL_USER in
    leave_if_told user ;;;
    let! t := mythread in
    match t with
    | None => ret tt
    | Some t =>
        let! th := rd_thread t in
        when (bool_decide (t_state th = RUNNING) && (trapno =? T_IRQ0 + IRQ_TIMER)) yield
    end ;;;
    leave_if_told user.
End Trap.
