(* ===== verification/Main.v ===== *)
(** * The start of the kernel

    [main.c]: the initialisations in their order, on the first processor and on the others,
    and [startothers], which brings the others up.  The addresses that the linker gives
    to variables and code are parameters.  The [started] words of [cpus] are words of
    memory, as the descriptor tables are; the [apicid] fields that [mpinit] fills are the
    list [lk_cpus].  The theorem puts [startothers] and [entryother.S] together. *)

From S2P Require Import Prelude Defs Bytes Ports X86 Spinlock CString Kernel Cprintf Apic Uart Mp Sched Kalloc Vm Sleeplock Bio Log Fs Pipe File Proc Kthread Entry Console Exec Syscall Trap.
Local Open Scope kernel_scope.

(** ** Linker symbols *)
Class Layout := {
  sym_gdt : nat → Z;  (* cpus[i].gdt *)
  sym_started : nat → Z;  (* cpus[i].started *)
  sym_idt : Z;
  sym_vectors : Z → Z;
  sym_entryother_start : Z;
  sym_entryother_size : Z;
  sym_mpenter : Z;
  sym_entrypgdir : Z
}.

Section Main.
Context {layout : Layout} {ksyms : KSyms}.

Definition seginit_cpu : KM unit :=
  let! c := cpuid in
  upd_mem (seginit (sym_gdt (Z.to_nat c))).

(** [idtinit] only loads a register.  The scheduler does not return; [n] bounds its
    rounds. *)
Definition mpmain (n : nat) : KM unit :=
  let! a := cpuid in
  let! b := cpuid in
  cprintf (chars "cpu%d: starting %d" ++ [10]) [Aint a; Aint b] ;;;
  let! c := mycpu in
  wr32 (sym_started c) 1 ;;;
  scheduler n.

Definition mpenter (lapic : Z) (n : nat) : KM unit :=
  switchkvm ;;;
  seginit_cpu ;;;
  lapicinit lapic ;;;
  mpmain n.

(** [while(c->started == 0);] *)
Fixpoint until_set (a : Z) (o : list (kernel → kernel)) (k : kernel) {struct o} : res kernel unit :=
  if ld32 (k_mem k) a =? 0 then
    match o with
    | [] => Wait k
    | f :: o' => until_set a o' (f k)
    end
  else Ok tt k o.

Lemma until_set_done a o k : ld32 (k_mem k) a ≠ 0 → until_set a o k = Ok tt k o.
Proof. intros H. destruct o; cbn [until_set]; by rewrite (proj2 (Z.eqb_neq _ _) H). Qed.

Definition code : Z := P2V 0x7000.

Definition start_cpu (lapic : Z) (c : nat) : KM unit :=
  let! stack := kalloc in
  wr32 (code - 4) (u32 (stack + KSTACKSIZE)) ;;;
  wr32 (code - 8) sym_mpenter ;;;
  wr32 (code - 12) (V2P sym_entrypgdir) ;;;
  let! k := get in
  lapicstartap lapic (c_apicid (cpu_at c (k_lk k))) (V2P code) ;;;
  until_set (sym_started c).

Definition startothers (lapic : Z) : KM unit :=
  upd_mem (λ m, memmove m code sym_entryother_start sym_entryother_size) ;;;
  let! k := get in
  for_each (seq 0 (length (lk_cpus (k_lk k)))) (λ c,
    let! me := mycpu in
    if decide (c = me) then ret tt else start_cpu lapic c).

(** The configuration table has at most 65535 bytes and its entries at least 8. *)
Definition main (n : nat) : KM unit :=
  let! end_ := gets k_end in
  kinit1 end_ (P2V (4 * 1024 * 1024)) ;;;
  kvmalloc ;;;
  let! r := mpinit (Z.to_nat 8192) in
  let (info, lapic) := r : mpinfo * Z in
  on_lks (setcpus ((λ a, Cpu a 0 0) <$> mi_cpus info)) ;;;
  lapicinit lapic ;;;
  seginit_cpu ;;;
  picinit ;;;
  ioapicinit (mi_ioapicid info) ;;;
  consoleinit ;;;
  uartinit ;;;
  pinit ;;;
  tvinit sym_vectors sym_idt ;;;
  binit ;;;
  fileinit ;;;
  ideinit ;;;
  startothers lapic ;;;
  kinit2 (P2V (4 * 1024 * 1024)) (P2V PHYSTOP) ;;;
  userinit ;;;
  mpmain n.
End Main.

(** ** Bringing up the other processors *)

(** Physical memory. *)
Definition phys (k : kernel) : memory := λ a, k_mem k (KERNBASE + a).
Lemma phys_ld32 k a : ld32 (phys k) a = ld32 (k_mem k) (KERNBASE + a).
Proof. unfold ld32, phys. by rewrite !Z.add_assoc. Qed.

Lemma boot_tables_ext m m' gdtdesc gdt :
  (∀ x, gdtdesc ≤ x < gdtdesc + 6 ∨ gdt ≤ x < gdt + 24 → m' x = m x) → boot_tables m gdtdesc gdt → boot_tables m' gdtdesc gdt.
Proof.
  intros Hm [H1 H2 H3 H4]. split; [done| |done|].
  - rewrite (ld32_ext m' m); [done|]. intros x Hx. apply Hm. lia.
  - intros i lo hi Hi. assert (i < 3)%nat by (by apply lookup_lt_Some in Hi). destruct (H4 i lo hi Hi) as [E1 E2].
    split; (rewrite (ld32_ext m' m); [done|]); intros x Hx; apply Hm; lia.
Qed.
Lemma pgdir_in_ext m m' pgdir : (∀ x, pgdir ≤ x < pgdir + 4096 → m' x = m x) → pgdir_in m pgdir → pgdir_in m' pgdir.
Proof.
  intros Hm [H1 H2 H3]. split; [done|done|]. intros i Hi. rewrite (ld32_ext m' m); [by apply H3|]. intros x Hx. apply Hm. lia.
Qed.

(** What lapicstartap leaves: a word of low memory, and the start-up interrupt as the last
    request to the interrupt controller. *)
Definition sipi_sent (lapic apicid : Z) (k : kernel) : Prop :=
  ∃ v1 v2 l, io_log (k_io k) =
    Rd (lapic_reg lapic LAPIC_ID) v1 :: Wr (lapic_reg lapic ICRLO) (u32 (Z.lor STARTUP (0x7000 / 4096))) ::
    Rd (lapic_reg lapic LAPIC_ID) v2 :: Wr (lapic_reg lapic ICRHI) (u32 (Z.shiftl apicid 24)) :: l.
Definition warm_reset (m : memory) : memory := st16 (st16 m 0x80000467 0) 0x80000469 0x700.

Lemma lapicw_io lapic i v p o k :
  lapicw lapic i v o (set_k_io p k) =
    Ok tt (set_k_io (logged (Rd (lapic_reg lapic LAPIC_ID) (answer (logged (Wr (lapic_reg lapic i) (u32 v)) p) (lapic_reg lapic LAPIC_ID)))
                       (logged (Wr (lapic_reg lapic i) (u32 v)) p)) k) o.
Proof. reflexivity. Qed.

Lemma lapicstartap_eq lapic apicid o k :
  ∃ p, lapicstartap lapic apicid 0x7000 o k = Ok tt (set_k_io p (set_k_mem (warm_reset (k_mem k)) k)) o ∧
    sipi_sent lapic apicid (set_k_io p (set_k_mem (warm_reset (k_mem k)) k)).
Proof.
  eexists. split.
  - unfold lapicstartap.
    rewrite (bind_ok _ _ _ _ _ _ _ (outb_eq CMOS_PORT 0xF o k)), (bind_ok _ _ _ _ _ _ _ (outb_eq (CMOS_PORT + 1) 0x0A o _)).
    unfold upd_mem. mrun. cbn [for_each seq]. unfold microdelay.
    match goal with |- bind _ _ _ ?s = _ => change s with (set_k_io (ports_of s) (set_k_mem (warm_reset (k_mem k)) k)) end.
    repeat (rewrite (bind_ok _ _ _ _ _ _ _ (lapicw_io _ _ _ _ _ _)); mrun). reflexivity.
  - do 3 eexists. reflexivity.
Qed.

Lemma warm_reset_high m x : 0x8000046b ≤ x → warm_reset m x = m x.
Proof. intros Hx. unfold warm_reset, st16, st8. case_tests. Qed.

Section Startothers.
Context {layout : Layout}.
(** Where the assembler puts the instructions and the tables of entryother.S in its copy at
    0x7000. *)
Context (prog : Z → option (binstr * Z)) (gdtdesc gdt start32 spin nxt1 nxt2 : Z).
Context (lapic : Z) (me : nat) (ids : list Z).

Record placed : Prop := {
  pl_prog a i q : prog a = Some (i, q) → 0 ≤ a < 2 ^ 20;
  pl_16 : laid prog 0x7000 (entryother_16 gdtdesc start32) nxt1;
  pl_32 : laid prog start32 (entryother_32 0x7000 spin) nxt2;
  pl_desc : 0x7000 ≤ gdtdesc ∧ gdtdesc + 6 ≤ 0x7000 + sym_entryother_size;
  pl_gdt : 0x7000 ≤ gdt ∧ gdt + 24 ≤ 0x7000 + sym_entryother_size;
  pl_size : 0 ≤ sym_entryother_size ∧ 0x7000 + sym_entryother_size ≤ 0x80000;
  pl_dir : KERNBASE + 2 ^ 20 ≤ sym_entrypgdir ∧ sym_entrypgdir < KERNBASE + 2 ^ 22;
  pl_enter : 0 ≤ sym_mpenter < 4294967296;
  pl_started c : KERNBASE + 2 ^ 20 ≤ sym_started c
}.

(** A processor that starts at 0x7000, in any state, gets to mpenter with [stack] as its
    stack. *)
Definition enters (stack : Z) (k : kernel) : Prop :=
  ∀ eax edx esp zf fi segs cr gdtr cmd st, real_mode cr →
  ∃ eax' cr' r,
    let s' := Boot eax' edx (stack + KSTACKSIZE - 4) sym_mpenter false false (Seg (Z.shiftl SEG_KCODE 3) 0) flat_segs cr' gdt cmd true st
                (st32 (phys k) (V2P stack + KSTACKSIZE - 4) r) in
    reaches prog (Boot eax edx esp 0 zf fi (Seg 0x700 0x7000) segs cr gdtr cmd true st (phys k)) s' ∧ boot_mapped s'.

(** What holds from one processor to the next: [todo] are still to be started, the free pages
    [ps] are in the first four megabytes. *)
Record ready (todo : list nat) (ps : list Z) (k : kernel) : Prop := {
  st_free : free_pages ps k;
  st_nolock : km_use_lock (k_kmem k) = 0;
  st_low : Forall (λ p, p + 4096 ≤ KERNBASE + 2 ^ 22) ps;
  st_dir : pgdir_in (phys k) (V2P sym_entrypgdir);
  st_end : sym_entrypgdir + 4096 ≤ k_end k;
  st_me o : mycpu o k = Ok me k o;
  st_ids : c_apicid <$> lk_cpus (k_lk k) = ids;
  st_todo c : c ∈ todo → ld32 (k_mem k) (sym_started c) = 0
}.
(** ... and the code is in its place. *)
Definition starting (todo : list nat) (ps : list Z) (k : kernel) : Prop :=
  ready todo ps k ∧ boot_tables (phys k) gdtdesc gdt.

(** The processors [cs] come up, one after the other, each on the next free page: when it has
    got the start-up interrupt and can get to mpenter, it says so and leaves the rest alone. *)
Fixpoint comes_up (cs : list nat) (ps : list Z) (fs : list (kernel → kernel)) : Prop :=
  match cs, ps, fs with
  | [], _, [] => True
  | c :: cs', p :: ps', f :: fs' =>
      (∀ k, starting cs' ps' k → sipi_sent lapic (nth c ids 0) k → enters p k →
         starting cs' ps' (f k) ∧ ld32 (k_mem (f k)) (sym_started c) ≠ 0) ∧
      comes_up cs' ps' fs'
  | _, _, _ => False
  end.

(** Writes to low memory do not disturb any of it. *)
Lemma ready_low todo todo' ps k m :
  placed → ready todo ps k → (∀ c, c ∈ todo' → c ∈ todo) →
  (∀ x, KERNBASE + 2 ^ 20 ≤ x → m x = k_mem k x) → ∀ p, ready todo' ps (set_k_io p (set_k_mem m k)).
Proof.
  intros Hpl [Hf Hl Hlow Hd He Hm Hi Hto] Hsub Hmem p. pose proof Hpl as [_ _ _ Hdd Hgd _ Hpd _ Hst].
  split; try done.
  - apply (free_pages_mem _ _ m) in Hf as [H1 H2 H3]; [by split|]. intros q x Hq Hx. apply Hmem.
    pose proof (fp_ok _ _ Hf) as Hok. rewrite Forall_forall in Hok. destruct (Hok q Hq) as (_ & Hqe & _). unfold in_page in Hx. lia.
  - eapply pgdir_in_ext; [|exact Hd]. intros x Hx. apply Hmem. unfold V2P in Hx. rewrite u32_small in Hx; unfold KERNBASE in *; lia.
  - intros o. specialize (Hm o). unfold mycpu, bind, readeflags, lapicid, gets, get, ret, panic in *. cbn in *.
    repeat (destruct (negb _); [done|]). destruct (list_find _ _) as [[i c]|]; [|done]. by simplify_eq.
  - intros c Hc. cbn. rewrite (ld32_ext m (k_mem k)); [by apply Hto, Hsub|]. intros x Hx. apply Hmem. specialize (Hst c). lia.
Qed.
Lemma starting_low todo todo' ps k m p :
  placed → starting todo ps k → (∀ c, c ∈ todo' → c ∈ todo) →
  (∀ x, KERNBASE + 0x7000 ≤ x → m x = k_mem k x) → starting todo' ps (set_k_io p (set_k_mem m k)).
Proof.
  intros Hpl [Hr Ht] Hsub Hmem. split; [apply (ready_low todo); [done..|intros x Hx; apply Hmem; lia]|].
  eapply boot_tables_ext; [|exact Ht]. intros x Hx. apply Hmem. pose proof (pl_desc Hpl). pose proof (pl_gdt Hpl). lia.
Qed.

Lemma starting_pop todo p ps k : starting todo (p :: ps) k → starting todo ps (kpopped k).
Proof.
  intros [[Hf Hl Hlow Hd He Hm Hi Hto] Ht]. split; [|exact Ht]. split; try done.
  - by eapply kpopped_free_pages.
  - by apply Forall_cons in Hlow as [_ ?].
  - intros o. specialize (Hm o). unfold mycpu, bind, readeflags, lapicid, gets, get, ret, panic in *. cbn in *.
    repeat (destruct (negb _); [done|]). destruct (list_find _ _) as [[i c]|]; [|done]. by simplify_eq.
Qed.

(** The words startothers leaves below the code. *)
Definition words_left (stack : Z) (m : memory) : memory :=
  st32 (st32 (st32 m (code - 4) (u32 (stack + KSTACKSIZE))) (code - 8) sym_mpenter) (code - 12) (V2P sym_entrypgdir).

Lemma words_enter todo ps stack k :
  placed → starting todo ps k → pt_page stack → k_end k ≤ stack → stack + 4096 ≤ KERNBASE + 2 ^ 22 →
  ld32 (k_mem k) (code - 4) = stack + KSTACKSIZE → ld32 (k_mem k) (code - 8) = sym_mpenter → ld32 (k_mem k) (code - 12) = V2P sym_entrypgdir →
  enters stack k.
Proof.
  intros Hpl Hst [_ Hr] He Hlow W1 W2 W3 eax edx esp zf fi segs cr gdtr cmd st Hcr.
  destruct Hst as [Hst Htab]. pose proof (st_end _ _ _ Hst) as Hend. destruct (pl_dir Hpl) as [Hd1 Hd2].
  assert (V2P stack = stack - KERNBASE) as Es by (unfold V2P; apply u32_small; unfold KERNBASE, PHYSTOP in *; lia).
  assert (V2P sym_entrypgdir = sym_entrypgdir - KERNBASE) as Ed by (unfold V2P; apply u32_small; unfold KERNBASE in *; lia).
  destruct (entryother_enters prog 0x7000 nxt1 start32 nxt2 gdtdesc gdt spin (V2P stack + KSTACKSIZE) sym_mpenter (V2P sym_entrypgdir)
    eax edx esp zf fi segs cr gdtr cmd st (phys k) (pl_prog Hpl) (pl_16 Hpl) (pl_32 Hpl) Htab Hcr) as (eax' & r & H1 & H2).
  - lia.
  - rewrite phys_ld32. change (KERNBASE + (0x7000 - 4)) with (code - 4). rewrite W1, Es. lia.
  - rewrite Es. change KSTACKSIZE with 4096. lia.
  - right. rewrite Es, Ed. change KSTACKSIZE with 4096. lia.
  - rewrite phys_ld32. change (KERNBASE + (0x7000 - 8)) with (code - 8). exact W2.
  - rewrite phys_ld32. change (KERNBASE + (0x7000 - 12)) with (code - 12). exact W3.
  - exact (st_dir _ _ _ Hst).
  - replace (KERNBASE + (V2P stack + KSTACKSIZE) - 4) with (stack + KSTACKSIZE - 4) in * by (rewrite Es; lia).
    do 3 eexists. split; [exact H1|exact H2].
Qed.

Lemma start_cpu_up c cs p ps f o k :
  placed → starting (c :: cs) (p :: ps) k →
  (∀ k, starting cs ps k → sipi_sent lapic (nth c ids 0) k → enters p k →
     starting cs ps (f k) ∧ ld32 (k_mem (f k)) (sym_started c) ≠ 0) →
  ∃ k', start_cpu lapic c (f :: o) k = Ok tt k' o ∧ starting cs ps k'.
Proof.
  intros Hpl Hsts Hf. pose proof (starting_pop _ _ _ _ Hsts) as Hpop. pose proof (proj1 Hsts) as Hst. pose proof (st_free _ _ _ Hst) as Hfree.
  pose proof (free_pages_head _ _ Hfree) as Hh. cbn in Hh.
  assert (p ∈ p :: ps) as Hin by (by apply elem_of_cons; left). pose proof (free_page_pt _ _ _ Hfree Hin) as Hp.
  pose proof (fp_ok _ _ Hfree) as Hok. apply Forall_cons in Hok as [(_ & Hpe & _) _].
  pose proof (st_low _ _ _ Hst) as Hlow. apply Forall_cons in Hlow as [Hlow _].
  set (m := words_left p (k_mem k)). set (k1 := set_k_mem m (kpopped k)).
  destruct (lapicstartap_eq lapic (c_apicid (cpu_at c (k_lk k))) (f :: o) k1) as (q & Hrun & Hsent).
  set (k2 := set_k_io q (set_k_mem (warm_reset (k_mem k1)) k1)) in *.
  assert (k2 = set_k_io q (set_k_mem (warm_reset m) (kpopped k))) as E2 by (unfold k2, k1; by destruct k).
  assert (∀ x, KERNBASE + 0x7000 ≤ x → warm_reset m x = k_mem (kpopped k) x) as Hmem.
  { intros x Hx. rewrite warm_reset_high by (unfold KERNBASE in Hx; lia). unfold m, words_left. change code with (KERNBASE + 0x7000).
    by rewrite !st32_other by lia. }
  assert (starting (c :: cs) ps k2 ∧ starting cs ps k2) as [Hst2 Hst2'].
  { rewrite E2. split; (apply (starting_low (c :: cs)); [done|done| |done]); [done|]. intros x Hx. by apply elem_of_cons; right. }
  assert (∀ j v, 4 ≤ j ≤ 12 → ld32 m (code - j) = v → ld32 (k_mem k2) (code - j) = v) as Hw.
  { intros j v Hj <-. rewrite E2. cbn. apply ld32_ext. intros x Hx. apply warm_reset_high. change code with 0x80007000 in Hx. lia. }
  assert (KERNBASE ≤ p < KERNBASE + PHYSTOP) as Hpr by apply Hp. destruct (pl_dir Hpl) as [Hd1 Hd2]. pose proof (pl_enter Hpl) as Hme.
  assert (enters p k2) as Hent.
  { apply (words_enter cs ps); [done|done|done| |done| | |].
    - rewrite E2. cbn. destruct k. cbn in *. lia.
    - apply Hw; [lia|]. unfold m, words_left. rewrite !ld32_st32_other, ld32_st32, u32_idemp by lia. apply u32_small. change KSTACKSIZE with 4096. unfold KERNBASE, PHYSTOP in *. lia.
    - apply Hw; [lia|]. unfold m, words_left. rewrite ld32_st32_other, ld32_st32 by lia. by apply u32_small.
    - apply Hw; [lia|]. unfold m, words_left. rewrite ld32_st32. unfold V2P. apply u32_idemp. }
  assert (nth c ids 0 = c_apicid (cpu_at c (k_lk k))) as Eid.
  { rewrite <- (st_ids _ _ _ Hst). unfold cpu_at. rewrite nth_lookup, list_lookup_fmap. by destruct (lk_cpus (k_lk k) !! c). }
  destruct (Hf k2 Hst2') as [Hst3 Hon]; [by rewrite Eid|done|]. exists (f k2). split; [|done].
  unfold start_cpu. rewrite (bind_ok _ _ _ _ _ _ _ (kalloc_eq (f :: o) k (or_introl (st_nolock _ _ _ Hst)))). unfold kalloced. rewrite Hh.
  rewrite (proj2 (Z.eqb_neq p 0)) by (unfold KERNBASE in *; lia). unfold wr32, upd_mem. mrun.
  change (V2P code) with 0x7000. change (c_apicid (cpu_at c (k_lk _))) with (c_apicid (cpu_at c (k_lk k))).
  match goal with |- bind _ _ _ ?s = _ => change s with k1 end.
  rewrite (bind_ok _ _ _ _ _ _ _ Hrun). cbn [until_set]. rewrite (st_todo _ _ _ (proj1 Hst2) c) by (by apply elem_of_cons; left). by apply until_set_done.
Qed.

Definition others (l : list nat) : list nat := filter (λ c, c ≠ me) l.

Lemma startothers_loop l fs ps o k :
  placed → starting (others l) ps k → comes_up (others l) ps fs →
  ∃ k', for_each l (λ c, let! i := mycpu in if decide (c = i) then ret tt else start_cpu lapic c) (fs ++ o) k = Ok tt k' o ∧
    starting [] (drop (length (others l)) ps) k'.
Proof.
  intros Hpl. revert ps fs k. induction l as [|c l IH]; intros ps fs k Hst Hup.
  - destruct fs; [|by destruct ps]. by exists k.
  - cbn [for_each]. pose proof (st_me _ _ _ (proj1 Hst) (fs ++ o)) as Hme. unfold others in *. rewrite filter_cons in *.
    destruct (decide (c = me)) as [->|Hne]; case_decide; try done.
    + destruct (IH ps fs k Hst Hup) as (k' & Hr & Hst'). exists k'. split; [|done].
      unfold bind at 1. rewrite (bind_ok _ _ _ _ _ _ _ Hme). rewrite decide_True by done. exact Hr.
    + destruct ps as [|p ps]; [done|]. destruct fs as [|f fs]; [done|]. destruct Hup as [Hf Hup].
      destruct (start_cpu_up c _ p ps f (fs ++ o) k Hpl Hst Hf) as (k1 & Hr1 & Hst1).
      destruct (IH ps fs k1 Hst1 Hup) as (k' & Hr & Hst'). exists k'. split; [|done].
      unfold bind at 1. rewrite (bind_ok _ _ _ _ _ _ _ Hme). rewrite decide_False by done. cbn [app]. rewrite Hr1. exact Hr.
Qed.

(** [C32] startothers, with entryother.S.  The first processor copies the start-up code to
    0x7000 and, for every other one in turn, leaves a stack of its own, the address of
    mpenter and a page directory below it and sends the start-up interrupt.  Then that
    processor, in whatever state it starts, gets from real mode to mpenter on that stack
    with paging on; if it reports that it has started, startothers goes on to the next
    and returns when all have. *)
Theorem startothers_starts fs ps o k :
  placed → bytes_ok (k_mem k) → ready (others (seq 0 (length ids))) ps k →
  boot_tables (λ a, k_mem k (sym_entryother_start + (a - 0x7000))) gdtdesc gdt →
  comes_up (others (seq 0 (length ids))) ps fs →
  ∃ k', startothers lapic (fs ++ o) k = Ok tt k' o ∧ starting [] (drop (length (others (seq 0 (length ids)))) ps) k'.
Proof.
  intros Hpl Hb Hr Ht Hup. set (m := memmove (k_mem k) code sym_entryother_start sym_entryother_size).
  destruct (pl_size Hpl) as [Hs0 Hs].
  assert (∀ x, m x = copy (k_mem k) code sym_entryother_start sym_entryother_size x) as Hm by (intros x; by apply memmove_copy).
  assert (starting (others (seq 0 (length ids))) ps (set_k_mem m k)) as Hst.
  { split.
    - replace (set_k_mem m k) with (set_k_io (k_io k) (set_k_mem m k)) by (by destruct k). apply (ready_low _ _ _ _ _ Hpl Hr); [done|].
      intros x Hx. rewrite Hm. unfold copy. change code with (KERNBASE + 0x7000). case_tests.
    - eapply boot_tables_ext; [|exact Ht]. intros x Hx. unfold phys. cbn. rewrite Hm. unfold copy. change code with (KERNBASE + 0x7000).
      pose proof (pl_desc Hpl). pose proof (pl_gdt Hpl). rewrite (proj2 (Z.leb_le _ _)), (proj2 (Z.ltb_lt _ _)) by lia. cbn [andb]. f_equal. lia. }
  destruct (startothers_loop _ fs ps o _ Hpl Hst Hup) as (k' & Hrun & Hst'). exists k'. split; [|done].
  unfold startothers, upd_mem. mrun. fold m.
  replace (length (lk_cpus (k_lk (set_k_mem m k)))) with (length ids); [exact Hrun|]. rewrite <- (st_ids _ _ _ Hr), length_fmap. done.
Qed.
End Startothers.

(** ** A machine with two processors *)

#[local] Instance demo_layout : Layout := {|
  sym_gdt c := 0x8010b000 + 64 * Z.of_nat c; sym_started c := 0x8010a000 + 4 * Z.of_nat c; sym_idt := 0x8010c000; sym_vectors _ := 0;
  sym_entryother_start := 0x80108000; sym_entryother_size := 0x200; sym_mpenter := 0x80103100; sym_entrypgdir := 0x80109000
|}.

Definition demo_entry_mem : memory := λ a,
  if (0x80109000 <=? a) && (a <? 0x8010a000) then (entrypgdir ((a - 0x80109000) / 4) / 256 ^ (a `mod` 4)) `mod` 256 else 0.
Definition demo_smp_mem : memory :=
  st32 (put_words ((λ w, (w.1 + 0x80101000, w.2)) <$> demo_gdt_words 0x7100) demo_entry_mem) 0x80300000 0x80301000.
Definition demo_smp : kernel :=
  set_k_lk (LkState boot_locks [Cpu 0 0 0; Cpu 1 0 0] [HwCpu 0 false; HwCpu 1 true] 0)
    (set_k_kmem (Kmem 0 0x80300000) (set_k_mem (st32 demo_smp_mem (0x80108000 + 0x11a) 0x7100) boot_kernel)).
Definition demo_ap_up (k : kernel) : kernel := set_k_mem (st32 (k_mem k) 0x8010a004 1) k.

Lemma demo_placed : placed (code_at 0x7000 demo_other_code) 0x7118 0x7100 0x700a 0x7020 0x700a 0x7021.
Proof.
  split; try (cbn; unfold KERNBASE; lia).
  - intros a i q H. apply code_at_range in H. cbn in H. lia.
  - exact (laid_code_at 0x7000 [] (entryother_16 0x7118 0x700a) _).
  - pose proof (laid_code_at 0x7000 (entryother_16 0x7118 0x700a) (entryother_32 0x7000 0x7020) []) as H. rewrite app_nil_r in H. exact H.
Qed.

Lemma demo_smp_high x : 0x80109000 ≤ x < 0x8010a000 → k_mem demo_smp x = demo_entry_mem x.
Proof. intros Hx. cbn. unfold demo_smp_mem, put_words. cbn. by rewrite !st32_other by lia. Qed.

Lemma demo_smp_ready : ready 0 [0; 1] [1%nat] [0x80300000; 0x80301000] demo_smp.
Proof.
  split.
  - split; [by vm_compute| |repeat constructor; vm_compute; done]. repeat constructor; rewrite ?list_elem_of_singleton; [lia|by apply not_elem_of_nil].
  - done.
  - by repeat constructor.
  - split; [by vm_compute|by vm_compute|]. intros i Hi. change (V2P sym_entrypgdir) with 0x109000.
    assert (forallb (λ j, ld32 (phys demo_smp) (0x109000 + 4 * Z.of_nat j) =? entrypgdir (Z.of_nat j)) (seq 0 1024) = true) as H by (by vm_compute).
    rewrite forallb_forall in H. specialize (H (Z.to_nat i) ltac:(apply in_seq; lia)). apply Z.eqb_eq in H. by rewrite Z2Nat.id in H by lia.
  - cbn. lia.
  - done.
  - done.
  - intros c ->%list_elem_of_singleton. by vm_compute.
Qed.

Lemma demo_comes_up : comes_up (code_at 0x7000 demo_other_code) 0x7118 0x7100 0xfee00000 0 [0; 1] [1%nat] [0x80300000; 0x80301000] [demo_ap_up].
Proof.
  split; [|done]. intros k [[Hf Hl Hlow Hd He Hm Hi Hto] Ht] _ _.
  assert (∀ x, x < 0x8010a004 ∨ 0x8010a008 ≤ x → k_mem (demo_ap_up k) x = k_mem k x) as Hw by (intros x Hx; cbn; apply st32_other; lia).
  split; [split; [split; try done|]|].
  - apply free_pages_mem; [done|]. intros p x ->%list_elem_of_singleton Hx. apply Hw. unfold in_page in Hx. lia.
  - eapply pgdir_in_ext; [|exact Hd]. change (V2P sym_entrypgdir) with 0x109000. intros x Hx. apply Hw. unfold KERNBASE. lia.
  - intros o. specialize (Hm o). unfold mycpu, bind, readeflags, lapicid, gets, get, ret, panic in *. cbn in *.
    repeat (destruct (negb _); [done|]). destruct (list_find _ _) as [[i c]|]; [|done]. by simplify_eq.
  - intros c Hc. by apply elem_of_nil in Hc.
  - eapply boot_tables_ext; [|exact Ht]. intros x Hx. apply Hw. unfold KERNBASE. lia.
  - cbn. change (0x8010a000 + 4 * 1) with 0x8010a004. by rewrite ld32_st32.
Qed.

Lemma startothers_starts_witness :
  ∃ k', startothers 0xfee00000 [demo_ap_up] demo_smp = Ok tt k' [] ∧ free_pages [0x80301000] k'.
Proof.
  destruct (startothers_starts (code_at 0x7000 demo_other_code) 0x7118 0x7100 0x700a 0x7020 0x700a 0x7021 0xfee00000 0 [0; 1] [demo_ap_up]
    [0x80300000; 0x80301000] [] demo_smp demo_placed) as (k' & H & Hst & _).
  - cbn. unfold demo_smp_mem, put_words. cbn. repeat apply bytes_ok_st32. intros x. unfold demo_entry_mem. destruct (_ && _); [|lia].
    apply Z.mod_pos_bound. lia.
  - exact demo_smp_ready.
  - split; [lia|by vm_compute|lia|]. intros [|[|[|i]]] lo hi; [intros [= <- <-]; by vm_compute..|]. by destruct i.
  - exact demo_comes_up.
  - exists k'. split; [exact H|exact (st_free _ _ _ _ _ Hst)].
Defined.
