(* ===== verification/Grep.v ===== *)
(** * grep

    [grep.c]: the regular expression matcher and the loop that filters the lines
    of a file.  A pattern or a text that the matcher gets is the list of its
    characters up to the NUL that ends it, and moving a pointer into it is
    taking the tail.  The static buffer is in memory, at the address [buf];
    [read] takes bytes from a list of chunks, each of which may be handed out
    in pieces, and ends with the last of them. *)

From S2P Require Import Prelude Defs CString.

(** ** The matcher *)

(** The loop of matchstar, for the [matchhere] of the rest of the pattern. *)
Fixpoint matchstar (here : list Z → bool) (c : Z) (text : list Z) : bool :=
  if here text then true
  else match text with
       | [] => false
       | t :: text' => if (t =? c) || (c =? 46) then matchstar here c text' else false
       end.

(** [*text != 0 && (re[0] == '.' || re[0] == *text)], then the rest. *)
Definition match_one (c : Z) (text : list Z) (here : list Z → bool) : bool :=
  match text with
  | [] => false
  | t :: text' => if (c =? 46) || (c =? t) then here text' else false
  end.

Fixpoint matchhere (re text : list Z) {struct re} : bool :=
  match re with
  | [] => true
  | c :: re' =>
      match re' with
      | d :: re'' =>
          if d =? 42 then matchstar (matchhere re'') c text
          else match_one c text (matchhere re')
      | [] =>
          if c =? 36 then match text with [] => true | _ => false end
          else match_one c text (matchhere re')
      end
  end.

(** The do-while loop of match. *)
Fixpoint match_from (re text : list Z) : bool :=
  if matchhere re text then true
  else match text with [] => false | _ :: text' => match_from re text' end.

Definition match_ (re text : list Z) : bool :=
  match re with
  | c :: re' => if c =? 94 then matchhere re' text else match_from re text
  | [] => match_from re text
  end.

(** ** The loop over the lines *)

Section Grep.
Context (buf : Z).

(** [read(fd, dst, n)]: at most [n] bytes of the first chunk. *)
Definition read_some (n : Z) (s : list (list Z)) : list Z * list (list Z) :=
  match s with
  | [] => ([], [])
  | c :: s' =>
      (take (Z.to_nat n) c, match drop (Z.to_nat n) c with [] => s' | d => d :: s' end)
  end.
Definition put_bytes (m : memory) (a : Z) (l : list Z) : memory :=
  λ x, if (a <=? x) && (x <? a + Z.of_nat (length l)) then nth (Z.to_nat (x - a)) l 0 else m x.
Definition get_bytes (m : memory) (a n : Z) : list Z := map (λ i, m (a + Z.of_nat i)) (seq 0 (Z.to_nat n)).

(** The inner loop from [p] on; [out] is what has been written.  The buffer
    has 1024 bytes, which bounds every scan for a NUL or a newline in it. *)
Fixpoint grep_lines (fuel : nat) (pattern : list Z) (m : memory) (p : Z) (out : list Z) : option (memory * Z * list Z) :=
  match fuel with
  | O => None
  | S f =>
      match strchr 1024 m p 10 with
      | None => None
      | Some q =>
          if q =? 0 then Some (m, p, out)
          else
            let m := st8 m q 0 in
            if match_ pattern (cprefix m p 1024) then
              let m := st8 m q 10 in
              grep_lines f pattern m (q + 1) (out ++ get_bytes m p (q + 1 - p))
            else grep_lines f pattern m (q + 1) out
      end
  end.

Fixpoint grep_loop (fuel : nat) (pattern : list Z) (s : list (list Z)) (mem : memory) (m : Z) (out : list Z) : option (list Z) :=
  match fuel with
  | O => None
  | S f =>
      let '(data, s) := read_some (1024 - m - 1) s in
      let n := Z.of_nat (length data) in
      if n <=? 0 then Some out
      else
        let mem := put_bytes mem (buf + m) data in
        let m := m + n in
        let mem := st8 mem (buf + m) 0 in
        match grep_lines 1024 pattern mem buf out with
        | None => None
        | Some (mem, p, out) =>
            let m := if p =? buf then 0 else m in
            if 0 <? m then
              let m := m - (p - buf) in
              grep_loop f pattern s (umemmove mem buf p m) m out
            else grep_loop f pattern s mem m out
        end
  end.

(** What grep writes for the chunks [s]; every round takes at least one byte. *)
Definition grep (pattern : list Z) (s : list (list Z)) (mem : memory) : option (list Z) :=
  grep_loop (S (length (concat s))) pattern s mem 0 [].
End Grep.

(** ** What patterns mean *)

(** A pattern after an optional [^]: items, a character with or without a star,
    and whether it ends with [$]. *)
Fixpoint items (re : list Z) : list (Z * bool) * bool :=
  match re with
  | [] => ([], false)
  | c :: re' =>
      match re' with
      | d :: re'' =>
          if d =? 42 then let r := items re'' in ((c, true) :: r.1, r.2)
          else let r := items re' in ((c, false) :: r.1, r.2)
      | [] => if c =? 36 then ([], true) else ([(c, false)], false)
      end
  end.

(** A character of a pattern stands for itself, a dot for any. *)
Definition stands (c t : Z) : Prop := c = 46 ∨ c = t.

(** The strings a list of items describes. *)
Inductive lang : list (Z * bool) → list Z → Prop :=
  | lang_nil : lang [] []
  | lang_one c its t s : stands c t → lang its s → lang ((c, false) :: its) (t :: s)
  | lang_star c its s1 s2 : Forall (stands c) s1 → lang its s2 → lang ((c, true) :: its) (s1 ++ s2).

(** A prefix of the text is in the language, all of it under [$]. *)
Definition starts (p : list (Z * bool) * bool) (text : list Z) : Prop :=
  ∃ s rest, text = s ++ rest ∧ lang p.1 s ∧ (p.2 = true → rest = []).

Lemma stands_test c t : (c =? 46) || (c =? t) = true ↔ stands c t.
Proof. unfold stands. rewrite orb_true_iff, !Z.eqb_eq. tauto. Qed.

Lemma matchstar_spec here c text :
  matchstar here c text = true ↔ ∃ s rest, text = s ++ rest ∧ Forall (stands c) s ∧ here rest = true.
Proof.
  induction text as [|t text IH]; cbn [matchstar].
  - destruct (here []) eqn:E; split; try done.
    + intros _. by exists [], [].
    + intros (s & rest & Heq & _ & H). symmetry in Heq. apply app_eq_nil in Heq as [-> ->]. congruence.
  - destruct (here (t :: text)) eqn:E.
    { split; [|done]. intros _. by exists [], (t :: text). }
    rewrite (Z.eqb_sym t c), (orb_comm (c =? t)). destruct ((c =? 46) || (c =? t)) eqn:Et.
    + rewrite IH. apply stands_test in Et. split.
      * intros (s & rest & -> & ? & ?). exists (t :: s), rest. split_and!; [done|by constructor|done].
      * intros ([|t' s] & rest & Heq & Hf & Hh); simplify_eq/=; [congruence|]. inversion Hf; subst. by exists s, rest.
    + split; [done|]. intros ([|t' s] & rest & Heq & Hf & Hh); simplify_eq/=; [congruence|].
      inversion Hf as [|? ? Hs]; subst. apply stands_test in Hs. congruence.
Qed.

Lemma starts_star c p text :
  starts ((c, true) :: p.1, p.2) text ↔ ∃ s rest, text = s ++ rest ∧ Forall (stands c) s ∧ starts p rest.
Proof.
  split.
  - intros (s & rest & -> & Hl & He). inversion Hl as [| |? ? s1 s2 Hf Hl2]; subst.
    exists s1, (s2 ++ rest). rewrite app_assoc. split_and!; [done|done|]. by exists s2, rest.
  - intros (s1 & ? & -> & Hf & s2 & rest & -> & Hl & He). exists (s1 ++ s2), rest.
    rewrite app_assoc. split_and!; [done|by constructor|done].
Qed.

Lemma starts_one c p text :
  starts ((c, false) :: p.1, p.2) text ↔ ∃ t text', text = t :: text' ∧ stands c t ∧ starts p text'.
Proof.
  split.
  - intros (s & rest & -> & Hl & He). inversion Hl as [|? ? t s' Hs Hl2|]; subst.
    exists t, (s' ++ rest). split_and!; [done|done|]. by exists s', rest.
  - intros (t & ? & -> & Hs & s & rest & -> & Hl & He). exists (t :: s), rest.
    split_and!; [done|by constructor|done].
Qed.

Lemma match_one_spec c text here p :
  (∀ text, here text = true ↔ starts p text) →
  match_one c text here = true ↔ starts ((c, false) :: p.1, p.2) text.
Proof.
  intros IH. rewrite starts_one. destruct text as [|t text]; cbn [match_one].
  - split; [done|]. by intros (? & ? & ? & _).
  - destruct ((c =? 46) || (c =? t)) eqn:E.
    + apply stands_test in E. rewrite IH. split; [intros; by exists t, text|]. intros (? & ? & ? & _ & ?). by simplify_eq.
    + split; [done|]. intros (? & ? & ? & Hs & _). simplify_eq. apply stands_test in Hs. congruence.
Qed.

Lemma starts_nil text : starts ([], false) text.
Proof. exists [], text. split_and!; [done|constructor|done]. Qed.

Lemma matchhere_items re text : matchhere re text = true ↔ starts (items re) text.
Proof.
  revert text. induction re as [re IH] using (induction_ltof1 _ (@length Z)). unfold ltof in IH. intros text.
  destruct re as [|c [|d re]]; cbn [matchhere items].
  - split; [intros _; apply starts_nil|done].
  - destruct (c =? 36).
    + split.
      * destruct text; [|done]. intros _. exists [], []. by split_and!; [|constructor|].
      * intros (s & rest & -> & Hl & He). inversion Hl; subst. by rewrite He.
    + apply (match_one_spec c text (λ _, true) ([], false)). intros. split; [intros _; apply starts_nil|done].
  - destruct (d =? 42).
    + rewrite matchstar_spec, starts_star. by setoid_rewrite <- (IH re ltac:(cbn; lia)).
    + apply match_one_spec. intros. apply (IH (d :: re)). cbn. lia.
Qed.

Lemma match_from_spec re text :
  match_from re text = true ↔ ∃ pre rest, text = pre ++ rest ∧ starts (items re) rest.
Proof.
  induction text as [|t text IH]; cbn [match_from]; destruct (matchhere re _) eqn:E.
  - split; [intros _|done]. exists [], []. split; [done|by apply matchhere_items].
  - split; [done|]. intros (pre & rest & Heq & Hs). symmetry in Heq.
    apply app_eq_nil in Heq as [-> ->]. apply matchhere_items in Hs. congruence.
  - split; [intros _|done]. exists [], (t :: text). split; [done|by apply matchhere_items].
  - rewrite IH. split.
    + intros (pre & rest & -> & ?). by exists (t :: pre), rest.
    + intros ([|t' pre] & rest & Heq & Hs); simplify_eq/=; [|by exists pre, rest].
      apply matchhere_items in Hs. congruence.
Qed.

(** [C24] The matcher accepts exactly the texts of which some part is in the
    language of the pattern: with [^] a part at the beginning, with a final
    [$] one at the end; a star after a character repeats it, a dot is any
    character. *)
Theorem match_correct re text :
  match_ re text = true ↔
    let anchored := match re with c :: _ => c =? 94 | [] => false end in
    let p := items (if anchored then drop 1 re else re) in
    ∃ pre s post, text = pre ++ s ++ post ∧ lang p.1 s ∧
      (anchored = true → pre = []) ∧ (p.2 = true → post = []).
Proof.
  assert (∀ re, match_from re text = true ↔ ∃ pre s post, text = pre ++ s ++ post ∧ lang (items re).1 s ∧
      (false = true → pre = []) ∧ ((items re).2 = true → post = [])) as Hfrom.
  { intros r. rewrite match_from_spec. unfold starts. naive_solver. }
  unfold match_. destruct re as [|c re]; [apply Hfrom|]. destruct (c =? 94); [|apply Hfrom].
  rewrite matchhere_items. unfold starts. cbn. split.
  - intros (s & rest & -> & ? & ?). by exists [], s, rest.
  - intros (pre & s & post & -> & ? & Hpre & ?). rewrite Hpre by done. by exists s, post.
Qed.

(** ** The filter *)

(** The complete lines of a text that match, with their newlines; [cur] is the
    part of the first line that is not in the text. *)
Fixpoint grep_from (pattern cur text : list Z) : list Z :=
  match text with
  | [] => []
  | c :: text' =>
      if c =? 10 then
        (if match_ pattern cur then cur ++ [10] else []) ++ grep_from pattern [] text'
      else grep_from pattern (cur ++ [c]) text'
  end.

Lemma grep_from_line pattern cur l text :
  10 ∉ l → grep_from pattern cur (l ++ text) = grep_from pattern (cur ++ l) text.
Proof.
  revert cur. induction l as [|c l IH]; intros cur Hl; cbn [app grep_from]; [by rewrite app_nil_r|].
  rewrite not_elem_of_cons in Hl. rewrite (proj2 (Z.eqb_neq c 10)), IH by naive_solver.
  by rewrite <- app_assoc.
Qed.

Lemma cstr_ext m m' a s :
  (∀ x, a ≤ x ≤ a + Z.of_nat (length s) → m' x = m x) → cstr m a s → cstr m' a s.
Proof.
  revert a. induction s as [|c s IH]; intros a Hx; cbn [cstr length] in *.
  - intros. by rewrite Hx by lia.
  - intros (Hc & ? & Hs). rewrite Hx by lia. split_and!; [done..|]. apply IH; [intros; apply Hx; lia|done].
Qed.

Lemma cstr_app m a s1 s2 :
  cstr m a (s1 ++ s2) ↔ (∀ i c, s1 !! i = Some c → m (a + Z.of_nat i) = c ∧ c ≠ 0) ∧ cstr m (a + Z.of_nat (length s1)) s2.
Proof.
  revert a. induction s1 as [|c s1 IH]; intros a; cbn [app cstr length].
  - rewrite Z.add_0_r. split; [intros; by split|by intros [_ ?]].
  - rewrite IH. replace (a + Z.of_nat (S (length s1))) with (a + 1 + Z.of_nat (length s1)) by lia. split.
    + intros (Hc & Hn & Hs & ?). split; [|done]. intros [|i] d Hi; cbn in Hi.
      * simplify_eq. by rewrite Z.add_0_r.
      * replace (a + Z.of_nat (S i)) with (a + 1 + Z.of_nat i) by lia. by apply Hs.
    + intros (Hs & ?). destruct (Hs O c eq_refl) as [H0 ?]. rewrite Z.add_0_r in H0. split_and!; [done..| |done].
      intros i d Hi. replace (a + 1 + Z.of_nat i) with (a + Z.of_nat (S i)) by lia. by apply Hs.
Qed.

Lemma cprefix_cstr m a s n : cstr m a s → (length s < n)%nat → cprefix m a n = s.
Proof.
  revert a n. induction s as [|c s IH]; intros a [|n] Hs Hn; cbn [cstr cprefix length] in *; try lia.
  - by rewrite Hs.
  - destruct Hs as (Hc & Hne & Hs). rewrite Hc, (proj2 (Z.eqb_neq c 0)) by done. f_equal. apply IH; [done|lia].
Qed.

Lemma get_bytes_eq m a l :
  (∀ i c, l !! i = Some c → m (a + Z.of_nat i) = c) → get_bytes m a (Z.of_nat (length l)) = l.
Proof.
  intros H. unfold get_bytes. rewrite Nat2Z.id. apply (list_eq_same_length _ _ (length l)); [done|by rewrite length_map, length_seq|].
  intros i x y Hi. rewrite list_lookup_fmap, lookup_seq_lt by done. cbn. intros [= <-] Hy. by apply H.
Qed.

(** A text has no newline, or it has a first one. *)
Lemma first_newline s :
  ((10 ∉ s) ∧ list_find (λ d, d = 10) s = None) ∨
  (∃ l t, s = l ++ 10 :: t ∧ (10 ∉ l) ∧ list_find (λ d, d = 10) s = Some (length l, 10)).
Proof.
  destruct (list_find (λ d, d = 10) s) as [[i c]|] eqn:E; [right|left].
  - pose proof E as E'. apply list_find_Some in E as (Hi & -> & Hbefore).
    exists (take i s), (drop (S i) s). pose proof (lookup_lt_Some _ _ _ Hi).
    rewrite length_take_le by lia. split_and!; [by rewrite take_drop_middle| |done].
    intros (j & Hj)%list_elem_of_lookup. pose proof (lookup_lt_Some _ _ _ Hj) as Hlt. rewrite length_take in Hlt.
    rewrite lookup_take_lt in Hj by lia. by eapply (Hbefore j 10); [|lia|].
  - split; [|done]. apply list_find_None in E. intros Hin. rewrite Forall_forall in E. by apply (E 10).
Qed.

Lemma grep_lines_spec pattern fuel s m p out :
  cstr m p s → bytes_ok m → 0 < p → (length s < fuel)%nat → (length s < 1024)%nat →
  ∃ m' s1 s2 w, grep_lines fuel pattern m p out = Some (m', p + Z.of_nat (length s1), out ++ w) ∧
    s = s1 ++ s2 ∧ (10 ∉ s2) ∧ (s1 = [] → 10 ∉ s) ∧ cstr m' (p + Z.of_nat (length s1)) s2 ∧ bytes_ok m' ∧
    ∀ t, grep_from pattern [] (s ++ t) = w ++ grep_from pattern s2 t.
Proof.
  revert s m p out. induction fuel as [|fuel IH]; intros s m p out Hs Hm Hp Hf Hl; [lia|].
  cbn [grep_lines]. rewrite (strchr_cstr 1024 m p 10 s) by (done || lia).
  destruct (first_newline s) as [[Hn ->]|(l & t & -> & Hn & ->)].
  { exists m, [], s, []. rewrite app_nil_r, Z.add_0_r. split_and!; [done..|]. intros t. by rewrite grep_from_line. }
  rewrite (proj2 (Z.eqb_neq _ _)) by lia. set (q := p + Z.of_nat (length l)).
  rewrite length_app in Hf, Hl. cbn [length] in Hf, Hl. pose proof Hs as Hs'.
  apply cstr_app in Hs as [Hline Ht]. fold q in Ht. cbn [cstr] in Ht. destruct Ht as (Hq & _ & Ht).
  assert (cprefix (st8 m q 0) p 1024 = l) as ->.
  { apply cprefix_cstr; [|lia]. rewrite <- (app_nil_r l). apply cstr_app. fold q. split; [|by apply st8_same].
    intros i c Hi. pose proof (lookup_lt_Some _ _ _ Hi). rewrite st8_other by lia. by apply Hline. }
  assert (∀ m' out', (∀ x, q < x → m' x = m x) → bytes_ok m' → ∃ m'' s1 s2 w,
    grep_lines fuel pattern m' (q + 1) out' = Some (m'', p + Z.of_nat (length (l ++ 10 :: s1)), out' ++ w) ∧
    t = s1 ++ s2 ∧ (10 ∉ s2) ∧ cstr m'' (p + Z.of_nat (length (l ++ 10 :: s1))) s2 ∧ bytes_ok m'' ∧
    ∀ t', grep_from pattern [] (t ++ t') = w ++ grep_from pattern s2 t') as Hrec.
  { intros m' out' Hx Hm'. destruct (IH t m' (q + 1) out') as (m'' & s1 & s2 & w & H1 & H2 & H3 & _ & H5 & H6 & H7);
      [apply (cstr_ext m); [intros; apply Hx; lia|done]|done|lia|lia|lia|].
    exists m'', s1, s2, w. rewrite length_app. cbn [length].
    replace (p + Z.of_nat (length l + S (length s1))) with (q + 1 + Z.of_nat (length s1)) by lia. done. }
  set (w0 := if match_ pattern l then l ++ [10] else []).
  assert (∃ m', (∀ x, q < x → m' x = m x) ∧ bytes_ok m' ∧
    (if match_ pattern l
     then grep_lines fuel pattern (st8 (st8 m q 0) q 10) (q + 1) (out ++ get_bytes (st8 (st8 m q 0) q 10) p (q + 1 - p))
     else grep_lines fuel pattern (st8 m q 0) (q + 1) out) = grep_lines fuel pattern m' (q + 1) (out ++ w0))
    as (m' & Hx & Hm' & ->).
  { unfold w0. destruct (match_ pattern l).
    - exists (st8 (st8 m q 0) q 10). split_and!; [intros; by rewrite !st8_other by lia|by repeat apply bytes_ok_st8|].
      do 2 f_equal. replace (q + 1 - p) with (Z.of_nat (length (l ++ [10]))) by (rewrite length_app; cbn; lia).
      apply get_bytes_eq. intros i c [Hi|[Hge Hi]]%lookup_app_Some.
      + pose proof (lookup_lt_Some _ _ _ Hi). rewrite !st8_other by lia. by apply Hline.
      + destruct (i - length l)%nat as [|j] eqn:Ej; [|by destruct j]. injection Hi as <-.
        replace i with (length l) by lia. fold q. by rewrite st8_same.
    - exists (st8 m q 0). rewrite app_nil_r. split_and!; [intros; by rewrite st8_other by lia|by apply bytes_ok_st8|done]. }
  destruct (Hrec m' (out ++ w0) Hx Hm') as (m'' & s1 & s2 & w & H1 & -> & H3 & H4 & H5 & H6).
  exists m'', (l ++ 10 :: s1), s2, (w0 ++ w). rewrite H1. split_and!; [by rewrite app_assoc|by rewrite <- app_assoc|done|by destruct l|done|done|].
  intros t'. rewrite <- app_assoc, grep_from_line by done. cbn [app grep_from]. by rewrite H6, app_assoc.
Qed.

(** No line, the newline counted, is longer than the buffer's 1023 bytes. *)
Definition short_lines (text : list Z) : Prop :=
  ∀ a l b, text = a ++ l ++ b → 10 ∉ l → (length l ≤ 1022)%nat.

(** A file is one chunk, from which every read takes as much as it asks for. *)
Definition file_stream (text : list Z) : list (list Z) := match text with [] => [] | _ => [text] end.

Lemma read_some_file n text :
  read_some n (file_stream text) = (take (Z.to_nat n) text, file_stream (drop (Z.to_nat n) text)).
Proof. destruct text as [|c text]; cbn [file_stream read_some]; [by rewrite take_nil, drop_nil|by destruct (drop _ _)]. Qed.

(** The buffer after a read: what was pending and the new bytes, as a string. *)
Lemma buffer_filled mem buf pend data :
  (∀ i c, pend !! i = Some c → mem (buf + Z.of_nat i) = c) → Forall (λ c, 0 < c < 256) (pend ++ data) →
  cstr (st8 (put_bytes mem (buf + Z.of_nat (length pend)) data)
    (buf + (Z.of_nat (length pend) + Z.of_nat (length data))) 0) buf (pend ++ data).
Proof.
  intros Hp Hb. rewrite <- (app_nil_r (pend ++ data)). apply cstr_app.
  rewrite length_app, Nat2Z.inj_add. split; [|by apply st8_same].
  intros i c Hi. pose proof (lookup_lt_Some _ _ _ Hi) as Hlt. rewrite length_app in Hlt.
  rewrite Forall_lookup in Hb. pose proof (Hb _ _ Hi). rewrite st8_other by lia. split; [|lia].
  unfold put_bytes. apply lookup_app_Some in Hi as [Hi|[Hge Hi]].
  - pose proof (lookup_lt_Some _ _ _ Hi). case_tests. by apply Hp.
  - case_tests; try lia.
    replace (Z.to_nat (buf + Z.of_nat i - (buf + Z.of_nat (length pend)))) with (i - length pend)%nat by lia.
    by apply nth_lookup_Some.
Qed.

Lemma bytes_ok_put mem a l : bytes_ok mem → Forall (λ c, 0 < c < 256) l → bytes_ok (put_bytes mem a l).
Proof.
  intros Hm Hl x. unfold put_bytes. destruct (_ && _) eqn:E; [|apply Hm]. to_prop.
  destruct (lookup_lt_is_Some_2 l (Z.to_nat (x - a)) ltac:(lia)) as [c Hc].
  rewrite (nth_lookup_Some _ _ _ _ Hc). rewrite Forall_lookup in Hl. specialize (Hl _ _ Hc). lia.
Qed.

Lemma grep_loop_spec buf pattern fuel pend text mem out :
  0 < buf → bytes_ok mem → (length text < fuel)%nat → (10 ∉ pend) → short_lines (pend ++ text) →
  Forall (λ c, 0 < c < 256) (pend ++ text) → (∀ i c, pend !! i = Some c → mem (buf + Z.of_nat i) = c) →
  grep_loop buf fuel pattern (file_stream text) mem (Z.of_nat (length pend)) out =
    Some (out ++ grep_from pattern pend text).
Proof.
  intros Hbuf. revert pend text mem out.
  induction fuel as [|fuel IH]; intros pend text mem out Hm Hf Hn Hs Hb Hp; [lia|]. cbn [grep_loop].
  rewrite read_some_file. cbv zeta. pose proof (Hs [] pend text eq_refl Hn) as Hpl.
  set (n := Z.to_nat (1024 - Z.of_nat (length pend) - 1)).
  destruct (decide (text = [])) as [->|Hne].
  { rewrite take_nil. change (Z.of_nat (length (@nil Z)) <=? 0) with true. cbv iota. by rewrite app_nil_r. }
  assert (0 < length (take n text))%nat as Hd by (destruct text; [done|]; rewrite length_take; cbn; lia).
  rewrite (proj2 (Z.leb_gt _ _)) by lia.
  rewrite <- (take_drop n text), app_assoc in Hb, Hs. apply Forall_app in Hb as [Hb Hb2].
  pose proof (buffer_filled mem buf pend (take n text) Hp Hb) as Hc.
  assert (length (pend ++ take n text) ≤ 1023)%nat as Hlen by (rewrite length_app, length_take; lia).
  destruct (grep_lines_spec pattern 1024 (pend ++ take n text) _ buf out Hc)
    as (m' & s1 & s2 & w & -> & Heq & Hs2 & H1 & Hcs & Hm' & Hw); [|lia|lia|lia|].
  { apply bytes_ok_st8, bytes_ok_put; [done|]. by apply Forall_app in Hb as [_ ?]. }
  specialize (Hw (drop n text)). rewrite <- app_assoc, take_drop, grep_from_line in Hw by done. cbn [app] in Hw.
  rewrite Hw, app_assoc. pose proof (f_equal length Heq) as Hle. rewrite !length_app in Hle.
  destruct s1 as [|c s1].
  - rewrite (proj2 (Z.eqb_eq _ _)) by (cbn; lia). change (0 <? 0) with false. cbv iota.
    assert (drop n text = []) as ->.
    { pose proof (Hs [] _ _ eq_refl (H1 eq_refl)) as Hle2. rewrite length_app, length_take in Hle2.
      apply drop_ge. lia. }
    exact (IH [] [] m' (out ++ w) Hm' ltac:(rewrite length_take in Hd; cbn [length]; lia) ltac:(set_solver)
      ltac:(intros a l b E; destruct a, l; [cbn; lia|done..]) ltac:(constructor) ltac:(done)).
  - rewrite (proj2 (Z.eqb_neq _ _)) by (cbn; lia). rewrite (proj2 (Z.ltb_lt _ _)) by lia.
    set (s1' := c :: s1) in *.
    replace (Z.of_nat (length pend) + Z.of_nat (length (take n text)) - (buf + Z.of_nat (length s1') - buf))
      with (Z.of_nat (length s2)) by lia.
    rewrite Heq, <- app_assoc in Hs. rewrite Heq in Hb. apply Forall_app in Hb as [_ Hb].
    assert (∀ x, umemmove m' buf (buf + Z.of_nat (length s1')) (Z.of_nat (length s2)) x =
      copy m' buf (buf + Z.of_nat (length s1')) (Z.of_nat (length s2)) x) as Hmv.
    { intros x. unfold umemmove. rewrite copy_up_copy by (done || lia). by rewrite Nat2Z.id. }
    apply IH.
    + intros x. rewrite Hmv. by apply bytes_ok_copy.
    + rewrite length_drop. rewrite length_take in Hd. lia.
    + done.
    + intros a l b E. apply (Hs (s1' ++ a) l b). by rewrite E, <- app_assoc.
    + by apply Forall_app.
    + intros i d Hi. pose proof (lookup_lt_Some _ _ _ Hi). rewrite Hmv. unfold copy. case_tests; try lia.
      rewrite <- (app_nil_r s2) in Hcs. apply cstr_app in Hcs as [Hcs _].
      replace (buf + Z.of_nat (length s1') + (buf + Z.of_nat i - buf))
        with (buf + Z.of_nat (length s1') + Z.of_nat i) by lia. by apply Hcs.
Qed.

(** On a file without NUL bytes and with no line longer than the buffer, grep
    writes exactly the complete lines that match, in order; it ends after as
    many rounds as the file has bytes, whatever the buffer held before. *)
Theorem grep_filters buf pattern text mem :
  0 < buf → bytes_ok mem → Forall (λ c, 0 < c < 256) text → short_lines text →
  grep buf pattern (file_stream text) mem = Some (grep_from pattern [] text).
Proof.
  intros Hbuf Hm Hb Hs. unfold grep.
  replace (concat (file_stream text)) with text by (destruct text; cbn; [done|by rewrite app_nil_r]).
  apply (grep_loop_spec buf pattern (S (length text)) [] text mem []); [done|done|lia|set_solver|done|done|done].
Qed.

(** The lines "abc" and "ac" of three match "^a.*c$". *)
Definition demo_pattern : list Z := [94; 97; 46; 42; 99; 36].
Definition demo_text : list Z := [97; 98; 99; 10; 120; 121; 122; 10; 97; 99; 10].

Lemma grep_filters_witness :
  grep 4096 demo_pattern (file_stream demo_text) (λ _, 0) = Some [97; 98; 99; 10; 97; 99; 10].
Proof.
  apply (grep_filters 4096 demo_pattern demo_text (λ _, 0)).
  - lia.
  - intros x. lia.
  - by repeat constructor.
  - intros a l b E _. apply (f_equal length) in E. rewrite !length_app in E. cbn in E. lia.
Defined.

(** When a read ends inside a line, as it may on a pipe or the console, and the
    buffer holds no newline, grep drops what it has read of the line: the text
    "abc" in two pieces is not found. *)
Lemma grep_loses_line :
  grep 4096 [97; 98; 99] [[97; 98]; [99; 10]] (λ _, 0) = Some [] ∧
  grep 4096 [97; 98; 99] [[97; 98; 99; 10]] (λ _, 0) = Some [97; 98; 99; 10].
Proof. by vm_compute. Qed.
