(* ===== verification/Umalloc.v ===== *)
(** * The user memory allocator

    [malloc], [free] and [morecore] of [umalloc.c] on the memory of a process:
    a header is the word of its pointer followed by the word of its size, in
    units of eight bytes.  The static variable [freep] and the size of the
    process are the state; [sbrk] is what [sys_sbrk] and [growproc] do to that
    size, where a list says for each growth whether the kernel has the pages.
    The loops take the size of the process as fuel, which is enough because no
    two headers are closer than eight bytes. *)

From Stdlib Require Import Sorting.Sorted.
From S2P Require Import Prelude Defs.

Record ustate := U {
  u_mem : memory;
  u_freep : Z;
  u_sz : Z;
  u_grants : list bool
}.

(** [p->s.ptr], [p->s.size] and [p + n] for a [Header *p]. *)
Definition hptr (m : memory) (p : Z) : Z := ld32 m p.
Definition hsize (m : memory) (p : Z) : Z := ld32 m (p + 4).
Definition set_ptr (m : memory) (p v : Z) : memory := st32 m p v.
Definition set_size (m : memory) (p v : Z) : memory := st32 m (p + 4) v.
Definition hplus (p n : Z) : Z := u32 (p + 8 * n).

(** [sbrk(n)]: the old size, None for -1. *)
Definition sbrk (n : Z) (u : ustate) : option Z * ustate :=
  let n := i32 n in
  let sz := u_sz u in
  if 0 <? n then
    match u_grants u with
    | true :: g =>
        if KERNBASE <=? sz + n then (None, U (u_mem u) (u_freep u) sz g)
        else (Some sz, U (u_mem u) (u_freep u) (sz + n) g)
    | _ :: g => (None, U (u_mem u) (u_freep u) sz g)
    | [] => (None, u)
    end
  else if n <? 0 then
    let newsz := u32 (sz + n) in
    if sz <=? newsz then (Some sz, u)
    else if newsz =? 0 then (None, u)
    else (Some sz, U (u_mem u) (u_freep u) newsz (u_grants u))
  else (Some sz, u).

Definition fuel_of (u : ustate) : nat := Z.to_nat (u_sz u / 4) + 10.

(** ** free *)

(** The loop: the header after which the block [bp] belongs. *)
Fixpoint free_scan (fuel : nat) (m : memory) (bp p : Z) : option Z :=
  match fuel with
  | O => None
  | S f =>
      if (p <? bp) && (bp <? hptr m p) then Some p
      else if (hptr m p <=? p) && ((p <? bp) || (bp <? hptr m p)) then Some p
      else free_scan f m bp (hptr m p)
  end.

(** Joining the block [bp] with the one after [p] if they are neighbours, and
    then with [p] itself. *)
Definition join_next (m : memory) (bp p : Z) : memory :=
  if hplus bp (hsize m bp) =? hptr m p then
    let m := set_size m bp (u32 (hsize m bp + hsize m (hptr m p))) in
    set_ptr m bp (hptr m (hptr m p))
  else set_ptr m bp (hptr m p).
Definition join_prev (m : memory) (bp p : Z) : memory :=
  if hplus p (hsize m p) =? bp then
    let m := set_size m p (u32 (hsize m p + hsize m bp)) in
    set_ptr m p (hptr m bp)
  else set_ptr m p bp.

Definition free (ap : Z) (u : ustate) : option ustate :=
  let bp := hplus ap (-1) in
  match free_scan (fuel_of u) (u_mem u) bp (u_freep u) with
  | None => None
  | Some p => Some (U (join_prev (join_next (u_mem u) bp p) bp p) p (u_sz u) (u_grants u))
  end.

(** ** malloc *)

(** The value of [freep], or 0; None when the loop of free does not end. *)
Definition morecore (nu : Z) (u : ustate) : option (Z * ustate) :=
  let nu := if nu <? 4096 then 4096 else nu in
  match sbrk (u32 (nu * 8)) u with
  | (None, u) => Some (0, u)
  | (Some hp, u) =>
      let u := U (set_size (u_mem u) hp nu) (u_freep u) (u_sz u) (u_grants u) in
      match free (hplus hp 1) u with
      | None => None
      | Some u => Some (u_freep u, u)
      end
  end.

(** Taking [nunits] from the block [p] that follows [prevp]: all of it, or its
    tail. *)
Definition carve (nunits prevp p : Z) (u : ustate) : Z * ustate :=
  let m := u_mem u in
  let '(p, m) :=
    if hsize m p =? nunits then (p, set_ptr m prevp (hptr m p))
    else
      let m := set_size m p (u32 (hsize m p - nunits)) in
      let p := hplus p (hsize m p) in
      (p, set_size m p nunits) in
  (hplus p 1, U m prevp (u_sz u) (u_grants u)).

Fixpoint malloc_loop (fuel : nat) (nunits prevp p : Z) (u : ustate) : option (Z * ustate) :=
  match fuel with
  | O => None
  | S f =>
      if nunits <=? hsize (u_mem u) p then Some (carve nunits prevp p u)
      else if p =? u_freep u then
        match morecore nunits u with
        | None => None
        | Some (p, u) =>
            if p =? 0 then Some (0, u)
            else malloc_loop f nunits p (hptr (u_mem u) p) u
        end
      else malloc_loop f nunits p (hptr (u_mem u) p) u
  end.

Definition units (nbytes : Z) : Z := u32 (nbytes + 8 - 1) / 8 + 1.

(** The address of the block, 0 when there is no memory. *)
Definition malloc (base nbytes : Z) (u : ustate) : option (Z * ustate) :=
  let nunits := units nbytes in
  let u :=
    if u_freep u =? 0 then U (set_size (set_ptr (u_mem u) base base) base 0) base (u_sz u) (u_grants u)
    else u in
  let prevp := u_freep u in
  malloc_loop (fuel_of u) nunits prevp (hptr (u_mem u) prevp) u.

(** ** Blocks and the free list *)

(** A block: the address of its header and its units. *)
Notation blk := (Z * Z)%type.
Definition bend (b : blk) : Z := fst b + 8 * snd b.
Definition disj (b c : blk) : Prop := bend b ≤ fst c ∨ bend c ≤ fst b.
Fixpoint disjoint_all (l : list blk) : Prop :=
  match l with [] => True | b :: l' => Forall (disj b) l' ∧ disjoint_all l' end.

(** The links from [a] through [l] to [z]. *)
Fixpoint chain (m : memory) (a : Z) (l : list Z) (z : Z) : Prop :=
  match l with [] => hptr m a = z | b :: l' => hptr m a = b ∧ chain m b l' z end.

(** Blocks inside the heap that do not overlap. *)
Definition blocks (base sz : Z) (l : list blk) : Prop :=
  Forall (λ b, base + 8 ≤ fst b ∧ 1 ≤ snd b ∧ bend b ≤ sz) l ∧ disjoint_all l.

(** The allocator's invariant, for the free blocks [F] in the order of their
    addresses and the allocated blocks [A]. *)
Record heap (base : Z) (u : ustate) (F A : list blk) : Prop := {
  h_top : 0 < base ∧ base + 8 ≤ u_sz u < 2147483648;
  h_blocks : blocks base (u_sz u) (F ++ A);
  h_sorted : StronglySorted Z.lt (map fst F);
  h_chain : chain (u_mem u) base (map fst F) base;
  h_size0 : hsize (u_mem u) base = 0;
  h_size : Forall (λ b, hsize (u_mem u) (fst b) = snd b) (F ++ A);
  h_freep : u_freep u ∈ base :: map fst F
}.

Lemma disj_sym b c : disj b c → disj c b.
Proof. unfold disj. tauto. Qed.

Lemma disjoint_all_perm l l' : l ≡ₚ l' → disjoint_all l → disjoint_all l'.
Proof.
  induction 1 as [|b l l' Hp IH|b c l|l1 l2 l3 _ IH1 _ IH2]; cbn [disjoint_all].
  - done.
  - intros [H1 H2]. split; [by rewrite <- Hp|by apply IH].
  - rewrite !Forall_cons. pose proof disj_sym. naive_solver.
  - intros. by apply IH2, IH1.
Qed.

Lemma disjoint_all_app l1 l2 :
  disjoint_all (l1 ++ l2) ↔ disjoint_all l1 ∧ disjoint_all l2 ∧ Forall (λ b, Forall (disj b) l2) l1.
Proof.
  induction l1 as [|b l1 IH]; cbn [app disjoint_all]; [split; [intros; by split_and!|by intros (_ & ? & _)]|].
  rewrite IH, Forall_app, Forall_cons. tauto.
Qed.

(** Cutting a block in two, or joining two neighbours. *)
Lemma blocks_perm base sz l l' : l ≡ₚ l' → blocks base sz l → blocks base sz l'.
Proof. intros Hp [H1 H2]. split; [by rewrite <- Hp|by apply (disjoint_all_perm l)]. Qed.

Lemma blocks_split base sz a s n l :
  1 ≤ n → 1 ≤ s - n →
  blocks base sz ((a, s) :: l) → blocks base sz ((a, s - n) :: (a + 8 * (s - n), n) :: l).
Proof.
  intros Hn Hs [[Hb Hl]%Forall_cons [H1 H2]]. unfold bend in Hb. cbn in Hb. split.
  - repeat constructor; unfold bend; cbn; (lia || done).
  - cbn [disjoint_all]. split_and!; [constructor|..|done].
    + left. unfold bend. cbn. lia.
    + eapply Forall_impl; [exact H1|]. intros c. unfold disj, bend. cbn. lia.
    + eapply Forall_impl; [exact H1|]. intros c. unfold disj, bend. cbn. lia.
Qed.
Lemma blocks_join base sz a s n l :
  blocks base sz ((a, s) :: (a + 8 * s, n) :: l) → blocks base sz ((a, s + n) :: l).
Proof.
  intros [[Hb [Hc Hl]%Forall_cons]%Forall_cons ((_ & H1)%Forall_cons & H2 & H3)]. unfold bend in Hb, Hc. cbn in Hb, Hc.
  split; [constructor; [unfold bend; cbn; lia|done]|]. cbn [disjoint_all]. split; [|done].
  rewrite Forall_forall in *. intros c Hcin. specialize (H1 c Hcin). specialize (H2 c Hcin). specialize (Hl c Hcin).
  unfold disj, bend in *. cbn in *. lia.
Qed.

(** *** Headers in memory *)

(** Two different headers do not overlap. *)
Definition apart (x y : Z) : Prop := x + 8 ≤ y ∨ y + 8 ≤ x.

Lemma hptr_set_ptr m a v : 0 ≤ v < 4294967296 → hptr (set_ptr m a v) a = v.
Proof. intros. unfold hptr, set_ptr. by rewrite ld32_st32, u32_small. Qed.
Lemma hptr_set_ptr_ne m a b v : apart a b → hptr (set_ptr m a v) b = hptr m b.
Proof. unfold apart. intros. apply ld32_st32_other. lia. Qed.
Lemma hsize_set_ptr m a b v : a = b ∨ apart a b → hsize (set_ptr m a v) b = hsize m b.
Proof. unfold apart. intros. apply ld32_st32_other. lia. Qed.
Lemma hsize_set_size m a v : 0 ≤ v < 4294967296 → hsize (set_size m a v) a = v.
Proof. intros. unfold hsize, set_size. by rewrite ld32_st32, u32_small. Qed.
Lemma hsize_set_size_ne m a b v : apart a b → hsize (set_size m a v) b = hsize m b.
Proof. unfold apart. intros. apply ld32_st32_other. lia. Qed.
Lemma hptr_set_size m a b v : a = b ∨ apart a b → hptr (set_size m a v) b = hptr m b.
Proof. unfold apart. intros. apply ld32_st32_other. lia. Qed.
Lemma set_ptr_other m a v x : x < a ∨ a + 8 ≤ x → set_ptr m a v x = m x.
Proof. intros. apply st32_other. lia. Qed.
Lemma set_size_other m a v x : x < a ∨ a + 8 ≤ x → set_size m a v x = m x.
Proof. intros. apply st32_other. lia. Qed.

Lemma chain_app m a l1 b l2 z : chain m a (l1 ++ b :: l2) z ↔ chain m a l1 b ∧ chain m b l2 z.
Proof. revert a. induction l1 as [|c l1 IH]; intros a; cbn [app chain]; [tauto|]. rewrite IH. tauto. Qed.

Lemma chain_ext m m' a l z :
  (∀ b, b ∈ a :: l → hptr m' b = hptr m b) → chain m a l z → chain m' a l z.
Proof.
  revert a. induction l as [|b l IH]; intros a H; cbn [chain].
  - intros <-. apply H. set_solver.
  - intros [Hb Hc]. split; [rewrite <- Hb; apply H; set_solver|]. apply IH; [|done]. intros c Hcin. apply H. set_solver.
Qed.

(** *** The scan of free *)

Lemma sorted_app l1 l2 :
  StronglySorted Z.lt (l1 ++ l2) ↔
    StronglySorted Z.lt l1 ∧ StronglySorted Z.lt l2 ∧ Forall (λ x, Forall (Z.lt x) l2) l1.
Proof.
  induction l1 as [|x l1 IH]; cbn [app].
  - split; [intros; split_and!; [constructor|done|constructor]|by intros (_ & ? & _)].
  - split.
    + intros [H1 H2]%StronglySorted_inv. apply IH in H1 as (? & ? & ?). apply Forall_app in H2 as [? ?].
      split_and!; [by constructor|done|by constructor].
    + intros ([H1 H2]%StronglySorted_inv & H3 & [H4 H5]%Forall_cons). constructor; [by apply IH|by apply Forall_app].
Qed.

Lemma scan_up m bp a l z f :
  chain m a l z → StronglySorted Z.lt (a :: l ++ [z]) → z < bp →
  free_scan (S (length l) + f) m bp a = free_scan f m bp z.
Proof.
  revert a. induction l as [|b l IH]; intros a Hc Hs Hz; cbn [length Nat.add free_scan chain] in *.
  - inversion Hs as [|? ? _ Hlt]; subst. inversion Hlt; subst. case_tests; to_prop; lia.
  - destruct Hc as [-> Hc]. inversion Hs as [|? ? Hs' Hlt]; subst.
    assert (b < z) by (inversion Hs' as [|? ? _ Hb]; subst; apply Forall_app in Hb as [_ Hb]; by inversion Hb).
    inversion Hlt; subst. rewrite <- (IH b) by done. case_tests; to_prop; lia.
Qed.

Lemma scan_wrap m bp a l z f :
  chain m a l z → StronglySorted Z.lt (a :: l) → bp < a → z < bp →
  free_scan (S (length l) + f) m bp a = free_scan f m bp z.
Proof.
  revert a. induction l as [|b l IH]; intros a Hc Hs Ha Hz; cbn [length Nat.add free_scan chain] in *.
  - subst z. case_tests; to_prop; lia.
  - destruct Hc as [-> Hc]. inversion Hs as [|? ? Hs' Hlt]; subst. inversion Hlt; subst.
    rewrite <- (IH b) by (done || lia). case_tests; to_prop; lia.
Qed.

Lemma scan_stop m bp p f : p < bp → bp < hptr m p ∨ hptr m p ≤ p → free_scan (S f) m bp p = Some p.
Proof. intros. cbn [free_scan]. case_tests; to_prop; lia. Qed.

Lemma chain_from m a l z l0 x l1 : chain m a l z → a :: l = l0 ++ x :: l1 → chain m x l1 z.
Proof.
  intros Hc E. destruct l0 as [|b l0]; cbn in E; simplify_eq; [done|]. by apply chain_app in Hc as [_ ?].
Qed.

(** From any header of the list the scan finds the last one below [bp]. *)
Lemma free_scan_spec m base L1 L2 Pre p bp start fuel :
  chain m base (L1 ++ L2) base → StronglySorted Z.lt (base :: L1 ++ L2) →
  base :: L1 = Pre ++ [p] → p < bp → Forall (Z.lt bp) L2 →
  start ∈ base :: L1 ++ L2 → (length L1 + length L2 + 2 ≤ fuel)%nat →
  free_scan fuel m bp start = Some p.
Proof.
  intros Hc Hs Hp Hlt Hgt Hin Hf.
  assert (base ≤ p) as Hbp.
  { destruct Pre as [|b Pre]; cbn in Hp; simplify_eq; [done|]. apply StronglySorted_inv in Hs as [_ Hs].
    rewrite Forall_forall in Hs. specialize (Hs p ltac:(set_solver)). lia. }
  assert (base :: L1 ++ L2 = Pre ++ p :: L2) as Hsplit by (by rewrite app_comm_cons, Hp, <- app_assoc).
  assert (∀ f, free_scan (S f) m bp p = Some p) as Hstop.
  { intros f. apply scan_stop; [done|]. pose proof (chain_from _ _ _ _ _ _ _ Hc Hsplit) as Hcp.
    destruct L2 as [|q L2]; cbn [chain] in Hcp; [right; lia|left]. destruct Hcp as [-> _]. by inversion Hgt. }
  assert (∀ x f, x ∈ base :: L1 → (length L1 + 1 ≤ f)%nat → free_scan f m bp x = Some p) as Hup.
  { intros x f Hx Hle. rewrite Hp in Hx. apply elem_of_app in Hx as [(l0 & l1 & ->)%list_elem_of_split|Hx].
    2: { apply list_elem_of_singleton in Hx as ->. destruct f as [|f]; [lia|]. apply Hstop. }
    rewrite <- app_assoc in Hsplit. cbn [app] in Hsplit.
    pose proof (chain_from _ _ _ _ _ _ _ Hc Hsplit) as Hcx. apply chain_app in Hcx as [Hcx _].
    rewrite Hsplit in Hs. apply sorted_app in Hs as (_ & Hs & _).
    rewrite (app_assoc l1 [p] L2 : l1 ++ p :: L2 = _), app_comm_cons in Hs. apply sorted_app in Hs as [Hs _].
    apply (f_equal length) in Hp. rewrite !length_app in Hp. cbn [length] in Hp.
    replace f with (S (length l1) + S (f - length l1 - 2))%nat by lia.
    rewrite (scan_up _ _ _ _ _ _ Hcx Hs Hlt). apply Hstop. }
  rewrite app_comm_cons in Hin. apply elem_of_app in Hin as [Hin|(l0 & l1 & ->)%list_elem_of_split]; [apply Hup; [done|lia]|].
  assert (base :: L1 ++ l0 ++ start :: l1 = (base :: L1 ++ l0) ++ start :: l1) as E by (by rewrite app_comm_cons, app_assoc).
  rewrite length_app in Hf. cbn [length] in Hf.
  replace fuel with (S (length l1) + (fuel - length l1 - 1))%nat by lia.
  rewrite (scan_wrap m bp start l1 base).
  - apply Hup; [by left|lia].
  - by apply (chain_from _ _ _ _ _ _ _ Hc E).
  - rewrite E in Hs. by apply sorted_app in Hs as (_ & ? & _).
  - apply Forall_app in Hgt as [_ Hgt]. by inversion Hgt.
  - lia.
Qed.

(** *** Joining *)

(** The header of the list that follows, [base] at the end. *)
Definition next_of (base : Z) (F : list blk) : Z := match F with b :: _ => fst b | [] => base end.

Lemma chain_next m a F z : chain m a (map fst F) z → hptr m a = next_of z F.
Proof. destruct F as [|b F]; cbn [map chain next_of]; [done|by intros [? _]]. Qed.

(** The links of [a] copied to [b]. *)
Lemma chain_head m m' a b l z :
  chain m a l z → hptr m' b = hptr m a → (∀ c, c ∈ l → hptr m' c = hptr m c) → chain m' b l z.
Proof.
  intros Hc Hb Hext. destruct l as [|c l]; cbn [chain] in *; [congruence|].
  destruct Hc as [<- Hc]. split; [done|]. apply (chain_ext m); [|done]. done.
Qed.

Lemma next_range base sz F :
  Forall (λ b, base + 8 ≤ fst b ∧ 1 ≤ snd b ∧ bend b ≤ sz) F → 0 < base < sz → sz < 2147483648 →
  0 ≤ next_of base F < 4294967296.
Proof. intros [|b F' Hb _]; cbn [next_of]; unfold bend in *; lia. Qed.

Lemma join_next_spec m base sz bp s p F2 :
  0 < base → sz < 2147483648 → chain m p (map fst F2) base → hsize m bp = s →
  Forall (λ b, hsize m (fst b) = snd b) F2 → apart bp p →
  blocks base sz ((bp, s) :: F2) →
  ∃ s' R, (R = F2 ∧ s' = s ∨ F2 = (bp + 8 * s, s' - s) :: R) ∧
    hsize (join_next m bp p) bp = s' ∧ chain (join_next m bp p) bp (map fst R) base ∧
    (∀ x, x < bp ∨ bp + 8 ≤ x → join_next m bp p x = m x).
Proof.
  intros Hb0 Hsz Hc Hs Hss Hap [[Hb Hin]%Forall_cons [Hd _]]. unfold bend in Hb. cbn [fst snd] in Hb.
  unfold join_next. rewrite Hs, (chain_next _ _ _ _ Hc).
  assert (hplus bp s = bp + 8 * s) as -> by (unfold hplus; apply u32_small; lia).
  assert (∀ b, b ∈ F2 → apart bp (fst b)) as Hap2.
  { intros b Hbin. rewrite Forall_forall in Hd, Hin. specialize (Hd b Hbin). specialize (Hin b Hbin).
    unfold disj, bend, apart in *. cbn [fst snd] in *. lia. }
  destruct (Z.eqb_spec (bp + 8 * s) (next_of base F2)) as [E|E].
  - destruct F2 as [|[q sq] R]; cbn [next_of fst] in *; [lia|]. subst q.
    apply Forall_cons in Hss as [Hsq Hss]. apply Forall_cons in Hin as [Hq Hin]. unfold bend in Hq. cbn [fst snd] in *.
    assert (apart bp (bp + 8 * s)) by (apply (Hap2 (_, sq)); by left).
    rewrite (hptr_set_size m bp p), (chain_next _ _ _ _ Hc) by (by right). cbn [next_of fst].
    destruct Hc as [_ Hc]. cbn [fst] in Hc. exists (s + sq), R. split_and!.
    + right. do 2 f_equal. lia.
    + rewrite Hsq, u32_small by lia. rewrite hsize_set_ptr by (by left). apply hsize_set_size. lia.
    + apply (chain_head m _ (bp + 8 * s) bp); [done| |].
      * rewrite hptr_set_size by (by right). apply hptr_set_ptr. rewrite (chain_next _ _ _ _ Hc).
        apply (next_range base sz); [done|lia..].
      * intros c (b & -> & Hbin)%list_elem_of_fmap. rewrite hptr_set_ptr_ne, hptr_set_size; [done|right|].
        all: apply Hap2; by right.
    + intros x Hx. by rewrite set_ptr_other, set_size_other by lia.
  - exists s, F2. split_and!; [by left|by rewrite hsize_set_ptr by (by left)| |intros; by apply set_ptr_other].
    apply (chain_head m _ p bp); [done| |].
    + rewrite (chain_next _ _ _ _ Hc). apply hptr_set_ptr, (next_range base sz); [done|lia..].
    + intros c (b & -> & Hbin)%list_elem_of_fmap. apply hptr_set_ptr_ne. by apply Hap2.
Qed.

Lemma chain_relink m m' a l z z' Pre p :
  chain m a l z → a :: l = Pre ++ [p] → (∀ c, c ∈ Pre → hptr m' c = hptr m c) → hptr m' p = z' →
  chain m' a l z'.
Proof.
  revert a Pre. induction l as [|b l IH]; intros a Pre Hc E Hpre Hp.
  - destruct Pre as [|? [|]]; simplify_eq/=; done.
  - destruct Pre as [|c Pre]; simplify_eq/=. destruct Hc as [Hb Hc]. split; [rewrite <- Hb; apply Hpre; by left|].
    apply (IH b Pre); [done..| |done]. intros d Hd. apply Hpre. by right.
Qed.

Lemma blocks_app base sz l1 l2 : blocks base sz (l1 ++ l2) → blocks base sz l1 ∧ blocks base sz l2.
Proof.
  intros [[H1 H2]%Forall_app H3]. apply disjoint_all_app in H3 as (H3 & H4 & _). done.
Qed.

Lemma blocks_apart base sz b l : blocks base sz (b :: l) → ∀ c, c ∈ l → apart (fst b) (fst c).
Proof.
  intros [[Hb Hin]%Forall_cons [Hd _]] c Hc. rewrite Forall_forall in Hd, Hin.
  specialize (Hd c Hc). specialize (Hin c Hc). unfold disj, bend, apart in *. lia.
Qed.

Lemma blocks_base base sz l : blocks base sz l → ∀ c, c ∈ l → apart base (fst c).
Proof. intros [Hin _] c Hc. rewrite Forall_forall in Hin. specialize (Hin c Hc). unfold apart. lia. Qed.

(** Blocks that do not overlap are not many. *)
Lemma blocks_length base sz F lo :
  StronglySorted Z.lt (map fst F) → blocks base sz F → Forall (λ b, lo ≤ fst b) F → lo ≤ sz →
  lo + 8 * Z.of_nat (length F) ≤ sz.
Proof.
  revert lo. induction F as [|b F IH]; intros lo Hs Hb Hlo Hsz; cbn [length map] in *; [lia|].
  apply StronglySorted_inv in Hs as [Hs Hlt]. apply Forall_cons in Hlo as [Hlo _].
  pose proof (blocks_apart _ _ _ _ Hb) as Hap. destruct Hb as [[Hb Hin]%Forall_cons [Hd Hdd]]. unfold bend in Hb.
  assert (fst b + 8 + 8 * Z.of_nat (length F) ≤ sz); [|lia].
  apply IH; [done|done| |lia]. rewrite Forall_forall in Hlt. apply Forall_forall. intros c Hc. specialize (Hap c Hc).
  specialize (Hlt (fst c) ltac:(by apply list_elem_of_fmap_2)). unfold apart in *. lia.
Qed.

Lemma sorted_split_at F a :
  StronglySorted Z.lt (map fst F) → (∀ b, b ∈ F → fst b ≠ a) →
  ∃ F1 F2 : list blk, F = F1 ++ F2 ∧ Forall (λ b, fst b < a) F1 ∧ Forall (λ b, a < fst b) F2.
Proof.
  induction F as [|b F IH]; cbn [map]; intros Hs Hne; [by exists [], []|].
  apply StronglySorted_inv in Hs as [Hs Hlt]. destruct (decide (fst b < a)).
  - destruct IH as (F1 & F2 & -> & ? & ?); [done|set_solver|]. exists (b :: F1), F2. split_and!; [done|by constructor|done].
  - pose proof (Hne b ltac:(set_solver)). exists [], (b :: F). split_and!; [done|constructor|]. constructor; [lia|].
    rewrite Forall_forall in Hlt. apply Forall_forall. intros c Hc. specialize (Hlt (fst c) ltac:(by apply list_elem_of_fmap_2)). lia.
Qed.

(** A block linked behind [p]. *)
Lemma link_chain m base (F1 : list blk) a s R p Pre z :
  base :: map fst F1 = Pre ++ [p] → chain m base (map fst F1) z → chain m a (map fst R) base →
  (∀ c, c ∈ Pre → apart p c) → (∀ b, b ∈ (a, s) :: R → apart p (fst b)) → 0 ≤ a < 4294967296 →
  chain (set_ptr m p a) base (map fst (F1 ++ (a, s) :: R)) base.
Proof.
  intros Hp H1 H2 Hpre Hr Ha. rewrite map_app. cbn [map fst]. apply chain_app. split.
  - apply (chain_relink m _ _ _ z _ Pre p); [done|done| |by apply hptr_set_ptr].
    intros c Hc. by apply hptr_set_ptr_ne, Hpre.
  - apply (chain_ext m); [|done]. intros c Hc. apply hptr_set_ptr_ne.
    change (a :: map fst R) with (map fst ((a, s) :: R)) in Hc. apply list_elem_of_fmap in Hc as (b & -> & Hb). by apply Hr.
Qed.

(** What the second half of free does to a block [a] whose pointer already leads
    to the rest [R] of the list: linked behind [p], or joined with it. *)
Lemma heap_link base sz g m a s F1 R A Pre p z :
  0 < base → base + 8 ≤ sz < 2147483648 → blocks base sz ((a, s) :: F1 ++ R ++ A) →
  StronglySorted Z.lt (map fst (F1 ++ (a, s) :: R)) →
  base :: map fst F1 = Pre ++ [p] → chain m base (map fst F1) z → chain m a (map fst R) base →
  hsize m base = 0 → Forall (λ b, hsize m (fst b) = snd b) ((a, s) :: F1 ++ R ++ A) →
  (∀ c, c ∈ base :: map fst ((a, s) :: F1 ++ R ++ A) → p = c ∨ apart p c) →
  (∀ c, c ∈ Pre ++ map fst ((a, s) :: R) → apart p c) →
  heap base (U (set_ptr m p a) p sz g) (F1 ++ (a, s) :: R) A.
Proof.
  intros Hb0 Hsz Hbl Hs Hp Hc1 Hc2 Hs0 Hss Hany Hap.
  assert (base + 8 ≤ a ∧ 1 ≤ s ∧ a + 8 * s ≤ sz) as Ha by (destruct Hbl as [[? _]%Forall_cons _]; done).
  split; cbn [u_mem u_freep u_sz]; [lia| |done| | | |].
  - refine (blocks_perm _ _ _ _ _ Hbl). solve_Permutation.
  - apply (link_chain m _ _ _ _ _ _ Pre z); [done|done|done| | |lia].
    + intros c Hc. apply Hap. set_solver.
    + intros b Hb. apply Hap, elem_of_app. right. by apply list_elem_of_fmap_2.
  - rewrite hsize_set_ptr; [done|]. apply Hany. by left.
  - apply Forall_forall. intros b Hb. rewrite Forall_forall in Hss.
    assert (b ∈ (a, s) :: F1 ++ R ++ A) as Hb' by set_solver.
    rewrite hsize_set_ptr; [by apply Hss|]. apply Hany. right. by apply list_elem_of_fmap_2.
  - rewrite map_app, app_comm_cons, Hp. set_solver.
Qed.

Lemma heap_join base sz g m p sp s G R A :
  0 < base → base + 8 ≤ sz < 2147483648 →
  blocks base sz ((p, sp) :: (p + 8 * sp, s) :: G ++ R ++ A) →
  StronglySorted Z.lt (map fst (G ++ (p, sp) :: (p + 8 * sp, s) :: R)) →
  chain m base (map fst G) p → chain m (p + 8 * sp) (map fst R) base →
  hsize m base = 0 → Forall (λ b, hsize m (fst b) = snd b) (G ++ R ++ A) →
  heap base (U (set_ptr (set_size m p (sp + s)) p (next_of base R)) p sz g) (G ++ (p, sp + s) :: R) A.
Proof.
  intros Hb0 Hsz Hbl Hs Hc1 Hc2 Hs0 Hss. pose proof (blocks_apart _ _ _ _ Hbl) as Hap. cbn [fst] in Hap.
  pose proof Hbl as [[Hp [Hq [_ [Hr _]%Forall_app]%Forall_app]%Forall_cons]%Forall_cons _]. unfold bend in Hp, Hq. cbn [fst snd] in Hp, Hq.
  pose proof (next_range base sz R Hr ltac:(lia) ltac:(lia)) as Hnr.
  assert (∀ b, b ∈ G ++ R ++ A → apart p (fst b)) as Hapx by (intros; apply Hap; set_solver).
  split; cbn [u_mem u_freep u_sz]; [lia|..].
  - apply (blocks_perm base sz ((p, sp + s) :: G ++ R ++ A)); [solve_Permutation|]. by apply blocks_join.
  - rewrite map_app in *. cbn [map fst] in *. apply sorted_app in Hs as (H1 & H2 & H3). apply sorted_app. split_and!; [done| |].
    + apply StronglySorted_inv in H2 as [H2 H4]. apply StronglySorted_inv in H2 as [H2 _].
      constructor; [done|]. by apply Forall_cons in H4 as [_ ?].
    + eapply Forall_impl; [exact H3|]. cbn. intros x Hx. rewrite !Forall_cons in *. tauto.
  - rewrite map_app. cbn [map fst]. apply chain_app. split.
    + apply (chain_ext m); [|done]. intros c Hc. assert (apart p c).
      { apply elem_of_cons in Hc as [->|Hc]; [unfold apart; lia|]. apply list_elem_of_fmap in Hc as (b & -> & ?).
        apply Hapx. set_solver. }
      rewrite hptr_set_ptr_ne, hptr_set_size by auto. done.
    + apply (chain_head m _ (p + 8 * sp) p); [done| |].
      * rewrite hptr_set_ptr by done. by rewrite (chain_next _ _ _ _ Hc2).
      * intros c (b & -> & Hb)%list_elem_of_fmap. assert (apart p (fst b)) by (apply Hapx; set_solver).
        rewrite hptr_set_ptr_ne, hptr_set_size by auto. done.
  - rewrite hsize_set_ptr, hsize_set_size_ne by (try right; unfold apart; lia). done.
  - rewrite Forall_forall in Hss. apply Forall_forall. intros b Hb.
    destruct (decide (b = (p, sp + s))) as [->|Hne]; cbn [fst snd].
    + rewrite hsize_set_ptr, hsize_set_size by (lia || by left). done.
    + assert (b ∈ G ++ R ++ A) as Hb' by set_solver.
      rewrite hsize_set_ptr, hsize_set_size_ne by auto. by apply Hss.
  - rewrite map_app. cbn [map fst]. set_solver.
Qed.

Lemma join_prev_eq m p sp s R base :
  hsize m p = sp → hsize m (p + 8 * sp) = s → chain m (p + 8 * sp) (map fst R) base → apart p (p + 8 * sp) →
  0 ≤ p + 8 * sp < 4294967296 → 0 ≤ sp + s < 4294967296 →
  join_prev m (p + 8 * sp) p = set_ptr (set_size m p (sp + s)) p (next_of base R).
Proof.
  intros Hp Hs Hc Hap H1 H2. unfold join_prev.
  assert (hplus p (hsize m p) = p + 8 * sp) as -> by (unfold hplus; rewrite Hp; by apply u32_small).
  rewrite Z.eqb_refl, hptr_set_size, (chain_next _ _ _ _ Hc), Hp, Hs by (by right). by rewrite u32_small by lia.
Qed.

Lemma join_prev_heap base sz g m a s F1 R A Pre p z :
  0 < base → base + 8 ≤ sz < 2147483648 → blocks base sz ((a, s) :: F1 ++ R ++ A) →
  StronglySorted Z.lt (map fst (F1 ++ (a, s) :: R)) →
  base :: map fst F1 = Pre ++ [p] → chain m base (map fst F1) z → chain m a (map fst R) base →
  hsize m base = 0 → Forall (λ b, hsize m (fst b) = snd b) ((a, s) :: F1 ++ R ++ A) →
  ∃ F', heap base (U (join_prev m a p) p sz g) F' A ∧
    (∀ x, x < p ∨ p + 8 ≤ x → join_prev m a p x = m x) ∧
    (∃ b, b ∈ F' ∧ s ≤ snd b) ∧ (length F' ≤ S (length F1 + length R))%nat.
Proof.
  intros Hb0 Hsz Hbl Hs Hp Hc1 Hc2 Hs0 Hss. pose proof (blocks_base _ _ _ Hbl) as Hbase.
  assert (base + 8 ≤ a ∧ 1 ≤ s ∧ a + 8 * s ≤ sz) as Ha by (destruct Hbl as [[? _]%Forall_cons _]; done).
  assert (join_prev m a p = set_ptr m p a → 
    (∀ c, c ∈ base :: map fst ((a, s) :: F1 ++ R ++ A) → p = c ∨ apart p c) →
    (∀ c, c ∈ Pre ++ map fst ((a, s) :: R) → apart p c) →
    ∃ F', heap base (U (join_prev m a p) p sz g) F' A ∧
    (∀ x, x < p ∨ p + 8 ≤ x → join_prev m a p x = m x) ∧
    (∃ b, b ∈ F' ∧ s ≤ snd b) ∧ (length F' ≤ S (length F1 + length R))%nat) as Hlink.
  { intros -> H1 H2. exists (F1 ++ (a, s) :: R). split_and!; [by apply (heap_link _ _ _ _ _ _ _ _ _ Pre p z)| | |].
    - intros. by apply set_ptr_other.
    - exists (a, s). split; [set_solver|done].
    - rewrite length_app. cbn. lia. }
  destruct F1 as [|[p' sp] G _] using rev_ind.
  - destruct Pre as [|c Pre]; cbn in Hp; [injection Hp as <-|destruct Pre; discriminate]. apply Hlink.
    + unfold join_prev, hplus. rewrite Hs0, Z.mul_0_r, Z.add_0_r, u32_small by lia. by rewrite (proj2 (Z.eqb_neq _ _)) by lia.
    + intros c [->|(b & -> & Hb)%list_elem_of_fmap]%elem_of_cons; [by left|right; by apply Hbase].
    + intros c (b & -> & Hb)%list_elem_of_fmap. apply Hbase. set_solver.
  - rewrite map_app, app_comm_cons in Hp. cbn [map fst] in Hp. apply app_inj_tail in Hp as [<- <-].
    assert (blocks base sz ((p', sp) :: (a, s) :: G ++ R ++ A)) as Hbl'.
    { refine (blocks_perm _ _ _ _ _ Hbl). solve_Permutation. }
    pose proof (blocks_apart _ _ _ _ Hbl') as Hap. cbn [fst] in Hap.
    assert (hsize m p' = sp) as Hsp by (rewrite Forall_forall in Hss; apply (Hss (p', sp)); set_solver).
    assert (base + 8 ≤ p' ∧ 1 ≤ sp ∧ p' + 8 * sp ≤ sz) as Hp' by (destruct Hbl' as [[? _]%Forall_cons _]; done).
    destruct (Z.eqb_spec (p' + 8 * sp) a) as [E|E].
    + subst a. clear Hlink. exists (G ++ (p', sp + s) :: R).
      assert (apart p' (p' + 8 * sp)) as Hapq by (apply (Hap (_, s)); by left).
      assert (join_prev m (p' + 8 * sp) p' = set_ptr (set_size m p' (sp + s)) p' (next_of base R)) as ->.
      { apply join_prev_eq; [done|by apply Forall_cons in Hss as [? _]|done|done|lia|lia]. }
      rewrite map_app in Hc1. apply chain_app in Hc1 as [Hc1 _]. rewrite <- app_assoc in Hs.
      split_and!; [apply heap_join; try done| | |].
      * apply Forall_forall. intros b Hb. rewrite Forall_forall in Hss. apply Hss. set_solver.
      * intros x Hx. by rewrite set_ptr_other, set_size_other by done.
      * exists (p', sp + s). split; [set_solver|cbn; lia].
      * rewrite !length_app. cbn. lia.
    + apply Hlink.
      * unfold join_prev, hplus. rewrite Hsp, u32_small by lia. by rewrite (proj2 (Z.eqb_neq _ _)) by lia.
      * intros c [->|(b & -> & Hb)%list_elem_of_fmap]%elem_of_cons; [right; unfold apart; lia|].
        destruct (decide (b = (p', sp))) as [->|Hne]; [by left|right]. apply Hap. set_solver.
      * intros c [[->|(b & -> & Hb)%list_elem_of_fmap]%elem_of_cons|(b & -> & Hb)%list_elem_of_fmap]%elem_of_app;
          [unfold apart; lia|apply Hap; set_solver..].
Qed.

(** Writing inside one header leaves the others. *)
Lemma hdr_ext m m' a b :
  (∀ x, x < a ∨ a + 8 ≤ x → m' x = m x) → apart a b → hptr m' b = hptr m b ∧ hsize m' b = hsize m b.
Proof. unfold apart, hptr, hsize. intros H Hap. split; apply ld32_ext; intros x Hx; apply H; lia. Qed.

Lemma chain_prefix m a l F z : chain m a (l ++ map fst F) z → chain m a l (next_of z F).
Proof. destruct F as [|b F]; cbn [map next_of]; [by rewrite app_nil_r|]. by intros [? _]%chain_app. Qed.

(** The bytes of a block are outside the header of another. *)
Lemma blocks_outside base sz b l c x :
  blocks base sz (b :: l) → c ∈ l → fst c ≤ x < bend c → x < fst b ∨ fst b + 8 ≤ x.
Proof.
  intros [[Hb Hin]%Forall_cons [Hd _]] Hc Hx. rewrite Forall_forall in Hd, Hin.
  specialize (Hd c Hc). specialize (Hin c Hc). unfold disj, bend in *. lia.
Qed.

Lemma node_outside base sz F A p c x :
  blocks base sz (F ++ A) → p ∈ base :: map fst F → c ∈ A → fst c ≤ x < bend c → x < p ∨ p + 8 ≤ x.
Proof.
  intros Hbl [->|(b & -> & (l1 & l2 & ->)%list_elem_of_split)%list_elem_of_fmap]%elem_of_cons Hc Hx.
  - destruct Hbl as [Hin _]. rewrite Forall_forall in Hin. specialize (Hin c ltac:(set_solver)). lia.
  - apply (blocks_outside base sz b (l1 ++ l2 ++ A) c); [|set_solver|done]. refine (blocks_perm _ _ _ _ _ Hbl). solve_Permutation.
Qed.

Lemma sorted_insert (F1 F2 : list blk) a s :
  StronglySorted Z.lt (map fst (F1 ++ F2)) → Forall (λ b, fst b < a) F1 → Forall (λ b, a < fst b) F2 →
  StronglySorted Z.lt (map fst (F1 ++ (a, s) :: F2)).
Proof.
  rewrite !map_app. cbn [map fst]. intros (H1 & H2 & H3)%sorted_app HF1 HF2. apply sorted_app. split_and!; [done| |].
  - constructor; [done|]. by apply Forall_fmap.
  - rewrite Forall_forall in H3. rewrite Forall_forall in HF1. apply Forall_forall. intros x Hx. constructor; [|by apply H3].
    apply list_elem_of_fmap in Hx as (b & -> & Hb). by apply HF1.
Qed.

(** The place of a block that is to be freed. *)
Lemma free_finds base u F1 F2 a s A :
  heap base u (F1 ++ F2) ((a, s) :: A) → Forall (λ b, fst b < a) F1 → Forall (λ b, a < fst b) F2 →
  ∃ Pre p, base :: map fst F1 = Pre ++ [p] ∧ apart a p ∧
    free_scan (fuel_of u) (u_mem u) a (u_freep u) = Some p ∧ chain (u_mem u) p (map fst F2) base.
Proof.
  intros [Htop Hbl Hs Hc Hs0 Hsz Hfp] HF1 HF2.
  destruct (exists_last (l := base :: map fst F1)) as (Pre & p & Hp); [done|].
  assert (blocks base (u_sz u) ((a, s) :: (F1 ++ F2) ++ A)) as Hbl' by (refine (blocks_perm _ _ _ _ _ Hbl); solve_Permutation).
  pose proof (blocks_apart _ _ _ _ Hbl') as Hapa. cbn [fst] in Hapa.
  assert (base + 8 ≤ a) as Ha by (destruct Hbl' as [[[? _] _]%Forall_cons _]; done).
  assert (p ∈ base :: map fst F1) as Hpin by (rewrite Hp; set_solver).
  assert (apart a p ∧ p < a) as [Hap Hlt].
  { apply elem_of_cons in Hpin as [->|(b & -> & Hb)%list_elem_of_fmap]; [unfold apart; lia|].
    split; [apply Hapa; set_solver|]. rewrite Forall_forall in HF1. by apply HF1. }
  rewrite map_app in Hs, Hc, Hfp.
  exists Pre, p. split_and!; [done|done| |].
  - apply (free_scan_spec _ base (map fst F1) (map fst F2) Pre); [done| |done|lia| |done|].
    + constructor; [done|]. rewrite <- map_app. apply Forall_forall. intros c (b & -> & Hb)%list_elem_of_fmap.
      destruct Hbl as [Hin _]. rewrite Forall_forall in Hin. specialize (Hin b ltac:(set_solver)). lia.
    + by apply Forall_fmap.
    + rewrite <- map_app in Hs. apply blocks_app in Hbl as [Hbl _].
      pose proof (blocks_length base (u_sz u) (F1 ++ F2) base Hs Hbl) as Hlen.
      rewrite length_app in Hlen. unfold fuel_of. rewrite !length_map.
      assert (base + 8 * Z.of_nat (length F1 + length F2) ≤ u_sz u); [|dlia]. apply Hlen; [|lia].
      destruct Hbl as [Hin _]. eapply Forall_impl; [exact Hin|]. cbn. lia.
  - apply (chain_from _ base (map fst F1 ++ map fst F2) base Pre); [done|]. by rewrite app_comm_cons, Hp, <- app_assoc.
Qed.

(** The blocks after the first half of free. *)
Lemma joined_rest base sz F1 F2 a s s' R A :
  R = F2 ∧ s' = s ∨ F2 = (a + 8 * s, s' - s) :: R → blocks base sz ((F1 ++ F2) ++ (a, s) :: A) →
  StronglySorted Z.lt (map fst (F1 ++ F2)) →
  s ≤ s' ∧ (∀ b, b ∈ R → b ∈ F2) ∧ (length R ≤ length F2)%nat ∧ StronglySorted Z.lt (map fst (F1 ++ R)) ∧
  blocks base sz ((a, s') :: F1 ++ R ++ A).
Proof.
  intros [[-> ->]| ->] Hbl Hs.
  - split_and!; [done|done|done|done|]. refine (blocks_perm _ _ _ _ _ Hbl). solve_Permutation.
  - split_and!; [|set_solver|cbn; lia| |].
    + destruct Hbl as [Hin _]. rewrite Forall_forall in Hin. specialize (Hin (a + 8 * s, s' - s) ltac:(set_solver)). cbn in Hin. lia.
    + rewrite !map_app in *. apply sorted_app in Hs as (H1 & H2 & H3). apply sorted_app. split_and!; [done|by inversion H2|].
      eapply Forall_impl; [exact H3|]. cbn. intros x Hx. by inversion Hx.
    + replace s' with (s + (s' - s)) by lia. apply blocks_join. refine (blocks_perm _ _ _ _ _ Hbl). solve_Permutation.
Qed.

(** free gives the block back: it becomes part of the free list, joined with
    its neighbours, and no byte of another allocated block changes. *)
Lemma free_heap base u F a s A :
  heap base u F ((a, s) :: A) →
  ∃ u' F', free (a + 8) u = Some u' ∧ heap base u' F' A ∧ u_sz u' = u_sz u ∧ u_grants u' = u_grants u ∧
    (∀ b x, b ∈ A → fst b ≤ x < bend b → u_mem u' x = u_mem u x) ∧
    (∃ b, b ∈ F' ∧ s ≤ snd b) ∧ (length F' ≤ S (length F))%nat.
Proof.
  intros Hh. pose proof Hh as [Htop Hbl Hs Hc Hs0 Hsz Hfp].
  assert (blocks base (u_sz u) ((a, s) :: F ++ A)) as Hbl' by (refine (blocks_perm _ _ _ _ _ Hbl); solve_Permutation).
  pose proof (blocks_apart _ _ _ _ Hbl') as Hapa. cbn [fst] in Hapa.
  destruct (sorted_split_at F a Hs) as (F1 & F2 & -> & HF1 & HF2).
  { intros b Hb E. specialize (Hapa b ltac:(set_solver)). unfold apart in Hapa. lia. }
  destruct (free_finds base u F1 F2 a s A Hh HF1 HF2) as (Pre & p & Hp & Hap & Hscan & Hcp).
  rewrite map_app in Hc. apply chain_prefix in Hc.
  assert (hsize (u_mem u) a = s) as Hsa by (rewrite Forall_forall in Hsz; apply (Hsz (a, s)); set_solver).
  destruct (join_next_spec (u_mem u) base (u_sz u) a s p F2) as (s' & R & HR & Hs' & HcR & Hm1);
    [lia|lia|done|done|by rewrite !Forall_app in Hsz; destruct Hsz as [[_ ?] _]|done| |].
  { apply (blocks_app _ _ ((a, s) :: F2) (F1 ++ A)). refine (blocks_perm _ _ _ _ _ Hbl). solve_Permutation. }
  assert (base + 8 ≤ a ∧ 1 ≤ s ∧ a + 8 * s ≤ u_sz u) as Ha by (destruct Hbl' as [[? _]%Forall_cons _]; done).
  set (m1 := join_next (u_mem u) a p) in *.
  assert (apart a base) as Hapb by (unfold apart; lia).
  assert (∀ b, apart a b → hptr m1 b = hptr (u_mem u) b ∧ hsize m1 b = hsize (u_mem u) b) as Hext by (intros; by apply (hdr_ext _ _ a)).
  destruct (joined_rest base (u_sz u) F1 F2 a s s' R A HR Hbl Hs) as (Hle & HRin & HRlen & HsR & HblR).
  assert (Forall (λ b, a < fst b) R) as HRgt by (rewrite Forall_forall in HF2; apply Forall_forall; auto).
  destruct (join_prev_heap base (u_sz u) (u_grants u) m1 a s' F1 R A Pre p (next_of base F2))
    as (F' & HF' & Hout & (b & Hb & Hsb) & Hlen); [lia|lia|done|by apply sorted_insert|done| |done| | |].
  { apply (chain_ext (u_mem u)); [|done]. intros c Hcin. apply Hext.
    apply elem_of_cons in Hcin as [->|(d & -> & Hd)%list_elem_of_fmap]; [done|apply Hapa; set_solver]. }
  { by rewrite (proj2 (Hext base Hapb)). }
  { constructor; [done|]. apply Forall_forall. intros c Hcin. rewrite Forall_forall in Hsz.
    assert (c ∈ (F1 ++ F2) ++ A) as Hc' by (clear -Hcin HRin; set_solver).
    rewrite (proj2 (Hext (fst c) ltac:(by apply Hapa))). apply Hsz. clear -Hc'. set_solver. }
  eexists _, F'. split_and!; [|exact HF'|done|done| |exists b; split; [done|lia]|rewrite length_app; lia].
  - unfold free. assert (hplus (a + 8) (-1) = a) as -> by (unfold hplus; rewrite u32_small; lia). by rewrite Hscan.
  - intros c x Hcin Hx. cbn [u_mem]. rewrite Hout, Hm1; [done|..].
    + apply (blocks_outside base (u_sz u) (a, s) ((F1 ++ F2) ++ A) c); [done|set_solver|done].
    + apply (node_outside base (u_sz u) F1 (F2 ++ (a, s) :: A) p c); [by rewrite app_assoc|rewrite Hp; set_solver|set_solver|done].
Qed.

(** ** The search of malloc *)

(** A header of the list does not overlap the other ones. *)
Lemma nodes_apart base sz F A x l1 l2 :
  blocks base sz (F ++ A) → base :: map fst F = l1 ++ x :: l2 →
  ∀ y, y ∈ l1 ++ l2 ++ map fst A → apart x y.
Proof.
  intros Hbl E y Hy. destruct l1 as [|c l1]; cbn [app] in *; injection E as -> E.
  - subst l2. rewrite <- map_app in Hy. apply list_elem_of_fmap in Hy as (b & -> & Hb). by apply (blocks_base _ _ _ Hbl).
  - apply fmap_app_inv in E as (F1 & F2' & -> & E & ->). symmetry in E. apply fmap_cons_inv in E as (b & F2 & -> & -> & ->).
    assert (blocks c sz (b :: F1 ++ F2 ++ A)) as Hbl' by (refine (blocks_perm _ _ _ _ _ Hbl); solve_Permutation).
    apply elem_of_cons in Hy as [->|Hy].
    + pose proof (blocks_base _ _ _ Hbl' b ltac:(set_solver)). unfold apart in *. lia.
    + rewrite <- !map_app in Hy. apply list_elem_of_fmap in Hy as (d & -> & Hd). by apply (blocks_apart _ _ _ _ Hbl').
Qed.

Lemma chain_suffix m a l b F z :
  chain m a l (next_of z F) → chain m b (map fst F) z → chain m a (l ++ map fst F) z.
Proof.
  destruct F as [|c F]; cbn [map next_of chain]; [by rewrite app_nil_r|]. intros H1 [_ H2]. by apply chain_app.
Qed.

(** Taking all of a block. *)
Lemma carve_all base u F1 p n F2 A Pre prev :
  heap base u (F1 ++ (p, n) :: F2) A → base :: map fst F1 = Pre ++ [prev] →
  carve n prev p u = (p + 8, U (set_ptr (u_mem u) prev (next_of base F2)) prev (u_sz u) (u_grants u)) ∧
  heap base (U (set_ptr (u_mem u) prev (next_of base F2)) prev (u_sz u) (u_grants u)) (F1 ++ F2) ((p, n) :: A).
Proof.
  intros [Htop Hbl Hs Hc Hs0 Hsz Hfp] Hp.
  assert (base :: map fst (F1 ++ (p, n) :: F2) = Pre ++ prev :: p :: map fst F2) as Hnodes.
  { rewrite map_app, app_comm_cons, Hp, <- app_assoc. done. }
  pose proof (nodes_apart _ _ _ _ _ _ _ Hbl Hnodes) as Hap.
  pose proof Hbl as [Hin _]. apply Forall_app in Hin as [[_ [Hpr HF2]%Forall_cons]%Forall_app _].
  unfold bend in Hpr. cbn [fst snd] in Hpr.
  pose proof (next_range base (u_sz u) F2 HF2 ltac:(lia) ltac:(lia)) as Hnr.
  rewrite map_app in Hc, Hs. cbn [map fst] in Hc, Hs. apply chain_app in Hc as [Hc1 Hc2].
  assert (hsize (u_mem u) p = n) as Hsp by (rewrite Forall_forall in Hsz; apply (Hsz (p, n)); set_solver).
  split.
  { unfold carve. rewrite Hsp, Z.eqb_refl, (chain_next _ _ _ _ Hc2). unfold hplus. by rewrite u32_small by lia. }
  split; cbn [u_mem u_freep u_sz]; [done| | | | | |].
  - refine (blocks_perm _ _ _ _ _ Hbl). solve_Permutation.
  - rewrite map_app. apply sorted_app in Hs as (H1 & H2 & H3). apply sorted_app. split_and!; [done|by inversion H2|].
    eapply Forall_impl; [exact H3|]. cbn. intros x Hx. by inversion Hx.
  - rewrite map_app. apply (chain_suffix _ _ _ p).
    + apply (chain_relink (u_mem u) _ _ _ p _ Pre prev); [done|done| |by apply hptr_set_ptr].
      intros c Hcin. apply hptr_set_ptr_ne, Hap. set_solver.
    + apply (chain_ext (u_mem u)); [|done]. intros c Hcin. apply hptr_set_ptr_ne, Hap. set_solver.
  - rewrite hsize_set_ptr; [done|]. assert (base ∈ Pre ++ [prev]) as Hbin by (rewrite <- Hp; by left).
    apply elem_of_app in Hbin as [Hbin|Hbin]; [right; apply Hap; set_solver|left; set_solver].
  - apply Forall_forall. intros b Hb. rewrite Forall_forall in Hsz.
    assert (b ∈ (F1 ++ (p, n) :: F2) ++ A) as Hb' by set_solver. rewrite hsize_set_ptr; [by apply Hsz|].
    destruct (decide (prev = fst b)) as [|Hne]; [by left|right]. apply Hap.
    assert (fst b ∈ base :: map fst (F1 ++ (p, n) :: F2) ++ map fst A) as Hin.
    { right. rewrite <- map_app. by apply list_elem_of_fmap_2. }
    rewrite app_comm_cons, Hnodes in Hin. clear -Hin Hne. set_solver.
  - rewrite map_app, app_comm_cons, Hp. set_solver.
Qed.

(** Taking the tail of a larger block. *)
Lemma carve_tail base u F1 p sp F2 A prev n :
  heap base u (F1 ++ (p, sp) :: F2) A → prev ∈ base :: map fst F1 → 1 ≤ n < sp →
  let a := p + 8 * (sp - n) in
  let u' := U (set_size (set_size (u_mem u) p (sp - n)) a n) prev (u_sz u) (u_grants u) in
  carve n prev p u = (a + 8, u') ∧ heap base u' (F1 ++ (p, sp - n) :: F2) ((a, n) :: A).
Proof.
  intros [Htop Hbl Hs Hc Hs0 Hsz Hfp] Hp Hn a u'.
  assert (blocks base (u_sz u) ((p, sp) :: F1 ++ F2 ++ A)) as Hbl1 by (refine (blocks_perm _ _ _ _ _ Hbl); solve_Permutation).
  assert (base + 8 ≤ p ∧ 1 ≤ sp ∧ p + 8 * sp ≤ u_sz u) as Hpr by (destruct Hbl1 as [[? _]%Forall_cons _]; done).
  pose proof (blocks_split base (u_sz u) p sp n (F1 ++ F2 ++ A) ltac:(lia) ltac:(lia) Hbl1) as Hbl2. fold a in Hbl2.
  assert (blocks base (u_sz u) ((a, n) :: (p, sp - n) :: F1 ++ F2 ++ A)) as Hbl3 by (refine (blocks_perm _ _ _ _ _ Hbl2); solve_Permutation).
  pose proof (blocks_apart _ _ _ _ Hbl3) as Hapa. pose proof (blocks_apart _ _ _ _ Hbl2) as Happ.
  pose proof (blocks_base _ _ _ Hbl3) as Hapb. cbn [fst] in Hapa, Happ.
  assert (apart a p) as Hap by (apply (Hapa (p, sp - n)); by left).
  rewrite Forall_forall in Hsz. assert (hsize (u_mem u) p = sp) as Hsp by (apply (Hsz (p, sp)); clear; set_solver).
  assert (∀ b, b ∈ F1 ++ F2 ++ A → apart p (fst b) ∧ apart a (fst b)) as Hboth.
  { intros b Hb. split; [apply Happ|apply Hapa]; clear -Hb; set_solver. }
  assert (apart p base ∧ apart a base) as [Hb1 Hb2].
  { pose proof (Hapb (a, n) ltac:(by left)). unfold apart in *. cbn in *. lia. }
  split.
  { unfold carve. rewrite Hsp, (proj2 (Z.eqb_neq _ _)) by lia.
    rewrite (u32_small (sp - n)), hsize_set_size by lia. unfold hplus. fold a. subst u'.
    rewrite (u32_small a), (u32_small (a + 8 * 1)) by (subst a; lia). done. }
  assert (∀ c, c = p ∨ apart p c ∧ apart a c → hptr (u_mem u') c = hptr (u_mem u) c) as Hptr.
  { intros c Hcc. cbn [u' u_mem]. rewrite !hptr_set_size; [done|..]; destruct Hcc as [->|[? ?]]; auto. }
  assert (∀ c, apart p c → apart a c → hsize (u_mem u') c = hsize (u_mem u) c) as Hsize.
  { intros c ? ?. cbn [u' u_mem]. by rewrite !hsize_set_size_ne. }
  split; [done| | | | | |]; change (u_sz u') with (u_sz u); change (u_freep u') with prev.
  - refine (blocks_perm _ _ _ _ _ Hbl2). solve_Permutation.
  - rewrite map_app in *. done.
  - replace (map fst (F1 ++ (p, sp - n) :: F2)) with (map fst (F1 ++ (p, sp) :: F2)) by (by rewrite !map_app).
    apply (chain_ext (u_mem u)); [|done]. intros c Hcin. apply Hptr.
    apply elem_of_cons in Hcin as [->|(b & -> & Hb)%list_elem_of_fmap]; [by right|].
    destruct (decide (b = (p, sp))) as [->|Hne]; [by left|right]. apply Hboth. clear -Hb Hne. set_solver.
  - rewrite Hsize by done. done.
  - rewrite !Forall_app, !Forall_cons. split_and!.
    + apply Forall_forall. intros b Hb. destruct (Hboth b ltac:(clear -Hb; set_solver)). rewrite Hsize by done. apply Hsz. clear -Hb. set_solver.
    + cbn [u' u_mem fst snd]. rewrite hsize_set_size_ne, hsize_set_size by (done || lia). done.
    + apply Forall_forall. intros b Hb. destruct (Hboth b ltac:(clear -Hb; set_solver)). rewrite Hsize by done. apply Hsz. clear -Hb. set_solver.
    + cbn [u' u_mem fst snd]. rewrite hsize_set_size by lia. done.
    + apply Forall_forall. intros b Hb. destruct (Hboth b ltac:(clear -Hb; set_solver)). rewrite Hsize by done. apply Hsz. clear -Hb. set_solver.
  - rewrite map_app. clear -Hp. set_solver.
Qed.

(** malloc's block is cut out of the free ones, and no byte of an allocated
    block changes. *)
Lemma carve_heap base u F1 p sp F2 A Pre prev n :
  heap base u (F1 ++ (p, sp) :: F2) A → base :: map fst F1 = Pre ++ [prev] → 1 ≤ n ≤ sp →
  ∃ a u' F', carve n prev p u = (a + 8, u') ∧ heap base u' F' ((a, n) :: A) ∧ u_sz u' = u_sz u ∧
    (∀ b x, b ∈ A → fst b ≤ x < bend b → u_mem u' x = u_mem u x).
Proof.
  intros Hh Hp Hn. pose proof (h_blocks _ _ _ _ Hh) as Hbl.
  assert (prev ∈ base :: map fst F1) as Hpin by (rewrite Hp; clear; set_solver).
  destruct (decide (sp = n)) as [->|Hne].
  - destruct (carve_all _ _ _ _ _ _ _ _ _ Hh Hp) as [H1 H2]. eexists p, _, _. split_and!; [exact H1|exact H2|done|].
    intros b x Hb Hx. apply set_ptr_other. apply (node_outside base (u_sz u) F1 ((p, n) :: F2 ++ A) prev b); [|done|clear -Hb; set_solver|done].
    by rewrite <- app_assoc in Hbl.
  - destruct (carve_tail _ _ _ _ _ _ _ prev n Hh Hpin ltac:(lia)) as [H1 H2]. eexists _, _, _. split_and!; [exact H1|exact H2|done|].
    intros b x Hb Hx. cbn [u_mem].
    assert (blocks base (u_sz u) ((p, sp) :: F1 ++ F2 ++ A)) as [_ [Hd _]] by (refine (blocks_perm _ _ _ _ _ Hbl); solve_Permutation).
    rewrite Forall_forall in Hd. specialize (Hd b ltac:(clear -Hb; set_solver)). unfold disj, bend in *. cbn [fst snd] in Hd.
    rewrite !set_size_other by lia. done.
Qed.

(** Walking over a part [G] of the list that does not hold [freep]: the first
    block in it that fits is taken, or none fits. *)
Lemma malloc_walk base u n F1 G G2 A Pre prev f :
  heap base u (F1 ++ G ++ G2) A → base :: map fst F1 = Pre ++ [prev] →
  (∀ b, b ∈ G → fst b ≠ u_freep u) →
  (∃ Ga b Gb Pre' prev', G = Ga ++ b :: Gb ∧ n ≤ snd b ∧ base :: map fst (F1 ++ Ga) = Pre' ++ [prev'] ∧
     malloc_loop (length G + f) n prev (next_of base (G ++ G2)) u = Some (carve n prev' (fst b) u)) ∨
  (Forall (λ b, snd b < n) G ∧ ∃ Pre' prev', base :: map fst (F1 ++ G) = Pre' ++ [prev'] ∧
     malloc_loop (length G + f) n prev (next_of base (G ++ G2)) u = malloc_loop f n prev' (next_of base G2) u).
Proof.
  revert F1 Pre prev. induction G as [|b G IH]; intros F1 Pre prev Hh Hp Hne.
  { right. split; [constructor|]. exists Pre, prev. by rewrite app_nil_r. }
  cbn [length Nat.add app next_of malloc_loop].
  assert (hsize (u_mem u) (fst b) = snd b) as ->.
  { pose proof (h_size _ _ _ _ Hh) as Hsz. rewrite Forall_forall in Hsz. apply Hsz. clear. set_solver. }
  destruct (Z.leb_spec n (snd b)) as [Hfit|Hsmall].
  { left. exists [], b, G, Pre, prev. by rewrite app_nil_r. }
  rewrite (proj2 (Z.eqb_neq _ _)) by (apply Hne; by left).
  assert (hptr (u_mem u) (fst b) = next_of base (G ++ G2)) as ->.
  { apply chain_next. pose proof (h_chain _ _ _ _ Hh) as Hc. rewrite map_app in Hc. cbn [map app] in Hc.
    by apply chain_app in Hc as [_ ?]. }
  change (F1 ++ (b :: G) ++ G2) with (F1 ++ [b] ++ (G ++ G2)) in Hh. rewrite app_assoc in Hh.
  destruct (IH (F1 ++ [b]) (base :: map fst F1) (fst b)) as [(Ga & c & Gb & Pre' & prev' & -> & ? & E & ?)|(? & Pre' & prev' & E & ?)].
  - done.
  - by rewrite map_app.
  - intros c Hc. apply Hne. by right.
  - left. exists (b :: Ga), c, Gb, Pre', prev'. by rewrite <- E, <- app_assoc.
  - right. split; [by constructor|]. exists Pre', prev'. by rewrite <- E, <- app_assoc.
Qed.

(** One round of the list: the first block that fits is taken, or the loop is
    back at [freep] and none fits. *)
Lemma malloc_search base u F A n f :
  heap base u F A → 1 ≤ n →
  let r := malloc_loop (length F + S f) n (u_freep u) (hptr (u_mem u) (u_freep u)) u in
  (∃ G1 b G2 Pre prev, F = G1 ++ b :: G2 ∧ n ≤ snd b ∧ base :: map fst G1 = Pre ++ [prev] ∧
     r = Some (carve n prev (fst b) u)) ∨
  (Forall (λ b, snd b < n) F ∧ hsize (u_mem u) (u_freep u) < n ∧ ∃ prev, r = malloc_loop (S f) n prev (u_freep u) u).
Proof.
  intros Hh Hn r. pose proof Hh as [Htop Hbl Hs Hc Hs0 Hsz Hfp]. subst r.
  assert (∀ b, b ∈ F → fst b ≠ base) as Hnb.
  { intros b Hb. destruct Hbl as [Hin _]. rewrite Forall_forall in Hin. specialize (Hin b ltac:(clear -Hb; set_solver)). lia. }
  apply elem_of_cons in Hfp as [Hfp|Hfp].
  - rewrite Hfp, (chain_next _ _ _ _ Hc).
    destruct (malloc_walk base u n [] F [] A [] base (S f)) as [(Ga & b & Gb & Pre & prev & H1 & H2 & H3 & H4)|(H1 & Pre & prev & _ & H4)].
    + by rewrite app_nil_r.
    + done.
    + by rewrite Hfp.
    + left. rewrite app_nil_r in H4. by exists Ga, b, Gb, Pre, prev.
    + right. rewrite app_nil_r in H4. split_and!; [done|lia|]. by exists prev.
  - apply list_elem_of_fmap in Hfp as ([fp sf] & Hfp & (F1 & F2 & ->)%list_elem_of_split). cbn [fst] in Hfp. rewrite Hfp.
    rewrite map_app in Hc, Hs. cbn [map fst] in Hc, Hs. pose proof Hc as [_ Hc2]%chain_app. rewrite (chain_next _ _ _ _ Hc2).
    apply sorted_app in Hs as (_ & Hs2 & Hs1). apply StronglySorted_inv in Hs2 as [_ Hs2].
    assert (hsize (u_mem u) fp = sf) as Hsf by (rewrite Forall_forall in Hsz; apply (Hsz (fp, sf)); clear; set_solver).
    replace (length (F1 ++ (fp, sf) :: F2) + S f)%nat with (length F2 + S (length F1 + S f))%nat by (rewrite length_app; cbn; lia).
    destruct (malloc_walk base u n (F1 ++ [(fp, sf)]) F2 [] A (base :: map fst F1) fp (S (length F1 + S f)))
      as [(Ga & b & Gb & Pre & prev & -> & H2 & H3 & H4)|(H1 & Pre & prev & _ & H4)].
    + by rewrite app_nil_r, <- app_assoc.
    + by rewrite map_app.
    + intros b Hb. rewrite Hfp. rewrite Forall_forall in Hs2. specialize (Hs2 (fst b) ltac:(by apply list_elem_of_fmap_2)). lia.
    + left. rewrite app_nil_r in H4. exists (F1 ++ (fp, sf) :: Ga), b, Gb, Pre, prev.
      rewrite <- app_assoc in *. by split_and!.
    + rewrite app_nil_r in H4. rewrite H4. cbn [next_of]. remember (length F1 + S f)%nat as k eqn:Ek. cbn [malloc_loop].
      rewrite Hs0, (proj2 (Z.leb_gt _ _)) by lia.
      rewrite (proj2 (Z.eqb_neq _ _)) by (rewrite Hfp; intros <-; apply (Hnb (base, sf)); [clear; set_solver|done]).
      assert (hptr (u_mem u) base = next_of base (F1 ++ (fp, sf) :: F2)) as -> by (apply chain_next; by rewrite map_app).
      subst k. destruct (malloc_walk base u n [] F1 ((fp, sf) :: F2) A [] base (S f))
        as [(Ga & b & Gb & Pre' & prev' & -> & H5 & H6 & ->)|(H5 & Pre' & prev' & H6 & ->)].
      * done.
      * done.
      * intros b Hb. rewrite Hfp. rewrite Forall_forall in Hs1. specialize (Hs1 (fst b) ltac:(by apply list_elem_of_fmap_2)).
        apply Forall_cons in Hs1 as [? _]. lia.
      * left. exists Ga, b, (Gb ++ (fp, sf) :: F2), Pre', prev'. by rewrite <- app_assoc.
      * cbn [next_of fst]. destruct (Z.leb_spec n sf).
        -- left. exists F1, (fp, sf), F2, Pre', prev'. split_and!; [done|done|done|]. cbn [malloc_loop fst].
           by rewrite Hsf, (proj2 (Z.leb_le _ _)).
        -- right. split_and!; [|by rewrite Hsf|by exists prev']. apply Forall_app. split; [done|]. by constructor.
Qed.

(** ** morecore and malloc *)

(** The memory that sbrk returns is a block no one uses. *)
Lemma heap_grow base u F A nu g :
  heap base u F A → 1 ≤ nu → u_sz u + 8 * nu < 2147483648 →
  heap base (U (set_size (u_mem u) (u_sz u) nu) (u_freep u) (u_sz u + 8 * nu) g) F ((u_sz u, nu) :: A) ∧
  (∀ b x, b ∈ A → fst b ≤ x < bend b → set_size (u_mem u) (u_sz u) nu x = u_mem u x).
Proof.
  intros [Htop Hbl Hs Hc Hs0 Hsz Hfp] Hnu Hlt. pose proof Hbl as [Hin Hd]. rewrite Forall_forall in Hin.
  assert (∀ b, b ∈ F ++ A → apart (u_sz u) (fst b)) as Hap.
  { intros b Hb. specialize (Hin b Hb). unfold bend, apart in *. lia. }
  split; [split; cbn [u_mem u_freep u_sz]|].
  - lia.
  - refine (blocks_perm _ _ ((u_sz u, nu) :: F ++ A) _ _ _); [solve_Permutation|]. split.
    + constructor; [unfold bend; cbn; lia|]. apply Forall_forall. intros b Hb. specialize (Hin b Hb). lia.
    + split; [|done]. apply Forall_forall. intros b Hb. specialize (Hin b Hb). right. cbn. lia.
  - done.
  - apply (chain_ext (u_mem u)); [|done]. intros c Hcin. apply hptr_set_size. right.
    apply elem_of_cons in Hcin as [->|(b & -> & Hb)%list_elem_of_fmap]; [unfold apart; lia|]. apply Hap. clear -Hb. set_solver.
  - rewrite hsize_set_size_ne; [done|]. unfold apart. lia.
  - rewrite Forall_forall in Hsz. apply Forall_forall. intros b Hb. destruct (decide (b = (u_sz u, nu))) as [->|Hne]; cbn [fst snd].
    + apply hsize_set_size. lia.
    + assert (b ∈ F ++ A) as Hb' by (clear -Hb Hne; set_solver). rewrite hsize_set_size_ne; auto.
  - done.
  - intros b x Hb Hx. apply set_size_other. specialize (Hin b ltac:(clear -Hb; set_solver)). lia.
Qed.

(** The kernel does not give [n] more units, at least 4096. *)
Definition refused (n : Z) (u : ustate) : Prop :=
  head (u_grants u) ≠ Some true ∨ KERNBASE ≤ u_sz u + 8 * Z.max 4096 n.

Lemma morecore_heap base u F A n :
  heap base u F A → 1 ≤ n → 8 * n < 2147483648 →
  ∃ q u', morecore n u = Some (q, u') ∧ (∀ b x, b ∈ A → fst b ≤ x < bend b → u_mem u' x = u_mem u x) ∧
    (q = 0 ∧ refused n u ∧ heap base u' F A ∨
     ∃ F', q = u_freep u' ∧ 0 < q ∧ heap base u' F' A ∧ (∃ b, b ∈ F' ∧ n ≤ snd b) ∧ (length F' ≤ S (length F))%nat).
Proof.
  intros Hh Hn H8. unfold morecore. set (nu := if n <? 4096 then 4096 else n).
  assert (n ≤ nu ∧ 8 * nu < 2147483648 ∧ nu = Z.max 4096 n) as (Hnu & Hnu8 & Hmax) by (unfold nu; case_tests; to_prop; lia).
  clearbody nu. unfold refused. rewrite <- Hmax.
  unfold sbrk. rewrite (u32_small (nu * 8)) by lia.
  assert (i32 (nu * 8) = nu * 8) as -> by (unfold i32; case_tests; to_prop; dlia).
  rewrite (proj2 (Z.ltb_lt _ _)) by lia.
  assert (∀ g, heap base (U (u_mem u) (u_freep u) (u_sz u) g) F A) as Hsame by (intros; by destruct Hh).
  destruct (u_grants u) as [|[] g] eqn:Eg.
  - exists 0, u. split_and!; [done|done|]. left. split_and!; [done|by left|done].
  - unfold KERNBASE. destruct (Z.leb_spec 0x80000000 (u_sz u + nu * 8)) as [Hbig|Hok].
    { exists 0, (U (u_mem u) (u_freep u) (u_sz u) g). split_and!; [done|done|]. left. split_and!; [done|right; lia|done]. }
    destruct (heap_grow base u F A nu g Hh ltac:(lia) ltac:(lia)) as [Hg Hgf]. cbn [u_mem u_freep u_sz u_grants].
    replace (u_sz u + nu * 8) with (u_sz u + 8 * nu) by lia.
    destruct (free_heap _ _ _ _ _ _ Hg) as (u' & F' & Hf & Hh' & Hsz & Hgr & Hframe & (b & Hb & Hsb) & Hlen).
    assert (hplus (u_sz u) 1 = u_sz u + 8) as -> by (destruct Hh as [? _ _ _ _ _ _]; unfold hplus; rewrite u32_small; lia).
    rewrite Hf. exists (u_freep u'), u'. split_and!; [done| |].
    + intros c x Hc Hx. rewrite (Hframe c) by done. by apply (Hgf c).
    + right. exists F'. split_and!; [done| |done|exists b; split; [done|lia]|done].
      destruct Hh' as [? [Hin _] _ _ _ _ [->|(d & -> & Hd)%list_elem_of_fmap]%elem_of_cons]; [lia|].
      rewrite Forall_forall in Hin. specialize (Hin d ltac:(clear -Hd; set_solver)). lia.
  - exists 0, (U (u_mem u) (u_freep u) (u_sz u) g). split_and!; [done|done|]. left. split_and!; [done|by left|done].
Qed.

(** The allocator before its first call, or with its list in place. *)
Definition allocator (base : Z) (u : ustate) (F A : list blk) : Prop :=
  heap base u F A ∨ (u_freep u = 0 ∧ F = [] ∧ A = [] ∧ 0 < base ∧ base + 8 ≤ u_sz u < 2147483648).

(** The first call makes a list of the header [base] alone. *)
Lemma first_call base u F A :
  allocator base u F A →
  let u1 := if u_freep u =? 0 then U (set_size (set_ptr (u_mem u) base base) base 0) base (u_sz u) (u_grants u) else u in
  heap base u1 F A ∧ (∀ b x, b ∈ A → fst b ≤ x < bend b → u_mem u1 x = u_mem u x).
Proof.
  intros [Hh|(Hf & -> & -> & Hb & Hsz)] u1; subst u1.
  - rewrite (proj2 (Z.eqb_neq _ _)); [done|]. destruct Hh as [? [Hin _] _ _ _ _ [->|(d & -> & Hd)%list_elem_of_fmap]%elem_of_cons]; [lia|].
    rewrite Forall_forall in Hin. specialize (Hin d ltac:(clear -Hd; set_solver)). lia.
  - rewrite Hf, Z.eqb_refl. split; [|intros b x Hbin; by apply elem_of_nil in Hbin].
    split; cbn [u_mem u_freep u_sz map app]; [lia|by split; [constructor|]|constructor| | |constructor|by left].
    + cbn [chain]. rewrite hptr_set_size by (by left). apply hptr_set_ptr. lia.
    + apply hsize_set_size. lia.
Qed.

(** What a call of malloc promises. *)
Definition malloc_post (base nbytes : Z) (F A : list blk) (u : ustate) (p : Z) (u' : ustate) : Prop :=
  (∀ b x, b ∈ A → fst b ≤ x < bend b → u_mem u' x = u_mem u x) ∧
  ((p = 0 ∧ Forall (λ b, snd b < units nbytes) F ∧ refused (units nbytes) u ∧ heap base u' F A) ∨
   ∃ a F', p = a + 8 ∧ nbytes ≤ 8 * units nbytes - 8 ∧ heap base u' F' ((a, units nbytes) :: A)).

Lemma units_range nbytes :
  0 ≤ nbytes < 2147483632 →
  1 ≤ units nbytes ∧ 8 * units nbytes < 2147483648 ∧ nbytes ≤ 8 * units nbytes - 8.
Proof. intros. unfold units. rewrite u32_small by lia. dlia. Qed.

(** A round of the list that holds a block large enough. *)
Lemma malloc_fits base nbytes F A u u2 F2 f :
  0 ≤ nbytes < 2147483632 → heap base u2 F2 A → (∃ b, b ∈ F2 ∧ units nbytes ≤ snd b) →
  (∀ b x, b ∈ A → fst b ≤ x < bend b → u_mem u2 x = u_mem u x) →
  ∃ p u', malloc_loop (length F2 + S f) (units nbytes) (u_freep u2) (hptr (u_mem u2) (u_freep u2)) u2 = Some (p, u') ∧
    malloc_post base nbytes F A u p u'.
Proof.
  intros Hnb Hh2 (c & Hc & Hfit) Hk. destruct (units_range _ Hnb) as (Hn & _ & Hle).
  destruct (malloc_search base u2 F2 A (units nbytes) f Hh2 Hn) as [(G1 & [q sq] & G2 & Pre & prev & -> & Hs & Hp & ->)|(Hno & _)].
  - destruct (carve_heap _ _ _ _ _ _ _ _ _ (units nbytes) Hh2 Hp ltac:(cbn in Hs; lia)) as (a & u' & F' & Hcv & Hh' & _ & Hk').
    cbn [fst]. rewrite Hcv. exists (a + 8), u'. split; [done|]. split; [intros b x Hb Hx; rewrite (Hk' b), (Hk b); done|].
    right. by exists a, F'.
  - rewrite Forall_forall in Hno. specialize (Hno c Hc). lia.
Qed.

Lemma fuel_enough base u F A : heap base u F A → ∃ f, fuel_of u = (length F + S (S (length F) + S f))%nat.
Proof.
  intros [Htop Hbl Hs _ _ _ _]. apply blocks_app in Hbl as [Hbl _].
  pose proof (blocks_length base (u_sz u) F base Hs Hbl) as Hlen. exists (fuel_of u - 2 * length F - 3)%nat. unfold fuel_of.
  assert (base + 8 * Z.of_nat (length F) ≤ u_sz u); [|dlia].
  apply Hlen; [|lia]. destruct Hbl as [Hin _]. eapply Forall_impl; [exact Hin|]. cbn. lia.
Qed.

(** The search ends, with a block or without. *)
Lemma malloc_heap base nbytes u F A :
  allocator base u F A → 0 ≤ nbytes < 2147483632 →
  ∃ p u', malloc base nbytes u = Some (p, u') ∧ malloc_post base nbytes F A u p u'.
Proof.
  intros Hal Hnb. destruct (first_call _ _ _ _ Hal) as [Hh Hkeep]. unfold malloc.
  set (u1 := if _ =? 0 then _ else _) in *.
  assert (refused (units nbytes) u1 → refused (units nbytes) u) as Href by (subst u1; by destruct (_ =? 0)). clearbody u1.
  destruct (units_range _ Hnb) as (Hn & Hn8 & Hle). destruct (fuel_enough _ _ _ _ Hh) as [f ->].
  destruct (malloc_search base u1 F A (units nbytes) (S (length F) + S f) Hh Hn)
    as [(G1 & b & G2 & Pre & prev & HF & Hs & _)|(Hno & Hsm & prev & Hr)].
  { apply (malloc_fits base nbytes F A u u1 F _ Hnb Hh); [|done]. exists b. split; [rewrite HF; clear; set_solver|done]. }
  rewrite Hr. remember (S (length F) + S f)%nat as k. cbn [malloc_loop].
  rewrite (proj2 (Z.leb_gt _ _)), Z.eqb_refl by done.
  destruct (morecore_heap base u1 F A (units nbytes) Hh Hn Hn8) as (q & u2 & -> & Hk2 & [(-> & Hrf & Hh2)|(F2 & -> & Hq & Hh2 & Hb & Hlen)]).
  - rewrite Z.eqb_refl. exists 0, u2. split; [done|]. split; [intros b x Hb Hx; rewrite (Hk2 b), (Hkeep b); done|].
    left. split_and!; [done|done|by apply Href|done].
  - rewrite (proj2 (Z.eqb_neq _ _)) by lia. replace k with (length F2 + S (k - length F2 - 1))%nat by lia.
    apply (malloc_fits base nbytes F A u u2 F2 _ Hnb Hh2 Hb). intros c x Hc Hx. rewrite (Hk2 c), (Hkeep c); done.
Qed.

(** malloc: for every request below two gigabytes and every state of the
    allocator, the search ends; the result is a block of at least the size
    asked for, inside the heap and apart from every free and every allocated
    block, or 0 when no free block is large enough and the kernel refuses
    more memory; no byte of an allocated block changes. *)
Theorem malloc_spec base nbytes u F A :
  allocator base u F A → 0 ≤ nbytes < 2147483632 →
  ∃ p u', malloc base nbytes u = Some (p, u') ∧ malloc_post base nbytes F A u p u'.
Proof. apply malloc_heap. Qed.

(** ** Histories of a program's calls *)

(** A program's calls; it frees by position among its live blocks. *)
Inductive ucall := Malloc (nbytes : Z) | Free (i : nat).

(** The live blocks: what malloc returned and the size asked for. *)
Definition ustep (base : Z) (s : option (ustate * list (Z * Z))) (c : ucall) : option (ustate * list (Z * Z)) :=
  '(u, live) ← s;
  match c with
  | Malloc n => '(p, u') ← malloc base n u; Some (u', if p =? 0 then live else (p, n) :: live)
  | Free i =>
      match live !! i with
      | None => s
      | Some (p, _) => u' ← free p u; Some (u', delete i live)
      end
  end.

(** The live blocks are the allocated ones. *)
Definition owns (A : list blk) (live : list (Z * Z)) : Prop :=
  Forall2 (λ b pn, fst pn = fst b + 8 ∧ snd pn ≤ 8 * snd b - 8) A live.

Lemma heap_perm base u F A A' : A ≡ₚ A' → heap base u F A → heap base u F A'.
Proof.
  intros Hp [? Hbl ? ? ? Hsz ?]. split; try done; [|by rewrite <- Hp].
  refine (blocks_perm _ _ _ _ _ Hbl). by rewrite Hp.
Qed.

Lemma ustep_inv base u live F A c :
  allocator base u F A → owns A live → (match c with Malloc n => 0 ≤ n < 2147483632 | Free _ => True end) →
  ∃ u' live' F' A', ustep base (Some (u, live)) c = Some (u', live') ∧ allocator base u' F' A' ∧ owns A' live'.
Proof.
  intros Hal Hown Hc. destruct c as [n|i]; cbn [ustep mbind option_bind].
  - destruct (malloc_heap base n u F A Hal Hc) as (p & u' & -> & _ & [(-> & _ & _ & Hh)|(a & F' & -> & Hle & Hh)]);
      cbn [mbind option_bind].
    + exists u', live, F, A. split_and!; [done|by left|done].
    + assert (0 < a) by (destruct Hh as [? [Hin _] _ _ _ _ _]; rewrite Forall_forall in Hin;
        specialize (Hin (a, units n) ltac:(clear; set_solver)); cbn in Hin; lia).
      rewrite (proj2 (Z.eqb_neq _ _)) by lia. exists u', ((a + 8, n) :: live), F', ((a, units n) :: A).
      split_and!; [done|by left|]. by constructor.
  - destruct (live !! i) as [[p n]|] eqn:Ei; [|by exists u, live, F, A].
    destruct (Forall2_lookup_r _ _ _ _ _ Hown Ei) as ([a s] & Ea & Hp & _). cbn [fst] in Hp. subst p.
    destruct Hal as [Hh|(_ & _ & -> & _)]; [|done].
    destruct (free_heap base u F a s (delete i A)) as (u' & F' & -> & Hh' & _); [by apply (heap_perm _ _ _ A), Hh; apply delete_Permutation|].
    cbn [mbind option_bind]. exists u', (delete i live), F', (delete i A). split_and!; [done|by left|by apply Forall2_delete].
Qed.

Lemma disjoint_all_lookup l i j b c :
  disjoint_all l → i ≠ j → l !! i = Some b → l !! j = Some c → disj b c.
Proof.
  revert i j. induction l as [|d l IH]; intros i j Hd Hne Hi Hj; [done|]. destruct Hd as [Hd Hl].
  destruct i as [|i], j as [|j]; cbn in *; try done.
  - simplify_eq. rewrite Forall_forall in Hd. apply Hd. by eapply list_elem_of_lookup_2.
  - simplify_eq. apply disj_sym. rewrite Forall_forall in Hd. apply Hd. by eapply list_elem_of_lookup_2.
  - apply (IH i j); [done|lia|done|done].
Qed.

Lemma urun_inv base cs u live F A :
  allocator base u F A → owns A live →
  Forall (λ c, match c with Malloc n => 0 ≤ n < 2147483632 | Free _ => True end) cs →
  ∃ u' live' F' A', foldl (ustep base) (Some (u, live)) cs = Some (u', live') ∧ allocator base u' F' A' ∧ owns A' live'.
Proof.
  intros Hal Hown Hcs. revert u live F A Hal Hown.
  induction Hcs as [|c cs Hc _ IH]; intros u live F A Hal Hown; [by exists u, live, F, A|].
  destruct (ustep_inv base u live F A c Hal Hown Hc) as (u' & live' & F' & A' & E & Hal' & Hown').
  destruct (IH u' live' F' A' Hal' Hown') as (u2 & live2 & F2 & A2 & E2 & ?).
  exists u2, live2, F2, A2. by rewrite <- E2, <- E.
Qed.

(** [C13] In every history of calls of malloc for less than 2147483632 bytes each, and
    of calls of free for blocks that are held, by a program that starts with a heap
    below two gigabytes, no call goes wrong, and the blocks the program holds lie
    inside its heap and never overlap.  (From that size on the size in bytes that
    malloc asks sbrk for is negative or wraps around; see [malloc_overflow].) *)
Theorem malloc_history base u cs :
  u_freep u = 0 → 0 < base → base + 8 ≤ u_sz u < 2147483648 →
  Forall (λ c, match c with Malloc n => 0 ≤ n < 2147483632 | Free _ => True end) cs →
  ∃ u' live, foldl (ustep base) (Some (u, [])) cs = Some (u', live) ∧
    (∀ i p n, live !! i = Some (p, n) → base + 8 ≤ p ∧ p + n ≤ u_sz u') ∧
    (∀ i j p n q m, i ≠ j → live !! i = Some (p, n) → live !! j = Some (q, m) → p + n ≤ q ∨ q + m ≤ p).
Proof.
  intros Hf Hb Hsz Hcs.
  destruct (urun_inv base cs u [] [] [] (or_intror (conj Hf (conj eq_refl (conj eq_refl (conj Hb Hsz))))) (proj2 (Forall2_nil _) I) Hcs)
    as (u' & live & F & A & Hrun & Hal & Hown).
  exists u', live. split; [done|].
  assert (blocks base (u_sz u') A) as [Hin Hd].
  { destruct Hal as [[_ Hbl _ _ _ _ _]|(_ & _ & -> & _)]; [by apply blocks_app in Hbl as [_ ?]|by split; [constructor|]]. }
  rewrite Forall_forall in Hin.
  split.
  - intros i p n Hi. destruct (Forall2_lookup_r _ _ _ _ _ Hown Hi) as (b & Hbi & Hp & Hle). cbn [fst snd] in *.
    specialize (Hin b ltac:(by eapply list_elem_of_lookup_2)). unfold bend in Hin. lia.
  - intros i j p n q m Hne Hi Hj. destruct (Forall2_lookup_r _ _ _ _ _ Hown Hi) as (b & Hbi & Hp & Hle).
    destruct (Forall2_lookup_r _ _ _ _ _ Hown Hj) as (c & Hcj & Hq & Hle'). cbn [fst snd] in *.
    pose proof (disjoint_all_lookup _ _ _ _ _ Hd Hne Hbi Hcj) as Hdisj. unfold disj, bend in Hdisj. lia.
Qed.

(** ** A program's first calls *)

Definition demo_ustate : ustate := U (λ _, 0) 0 0x2000 [true; false].

Lemma malloc_spec_witness :
  option_map fst (malloc 0x1000 10 demo_ustate) = Some 0x9ff0 ∧
  ∃ p u', malloc 0x1000 10 demo_ustate = Some (p, u') ∧ malloc_post 0x1000 10 [] [] demo_ustate p u'.
Proof.
  split; [by vm_compute|]. apply (malloc_spec 0x1000 10 demo_ustate [] []); [|lia].
  right. split_and!; try done; cbn; lia.
Defined.

Definition demo_calls : list ucall := [Malloc 10; Malloc 100; Free 1; Malloc 7; Malloc 40000].

Lemma malloc_history_witness :
  option_map snd (foldl (ustep 0x1000) (Some (demo_ustate, [])) demo_calls) = Some [(0x9ff8, 7); (0x9f80, 100)] ∧
  ∃ u' live, foldl (ustep 0x1000) (Some (demo_ustate, [])) demo_calls = Some (u', live) ∧
    (∀ i p n, live !! i = Some (p, n) → 0x1008 ≤ p ∧ p + n ≤ u_sz u') ∧
    (∀ i j p n q m, i ≠ j → live !! i = Some (p, n) → live !! j = Some (q, m) → p + n ≤ q ∨ q + m ≤ p).
Proof.
  split; [by vm_compute|]. apply (malloc_history 0x1000 demo_ustate demo_calls); [done|lia|cbn; lia|repeat constructor; lia].
Defined.

(** A request close to four gigabytes overflows the size computation and gets
    a block of one unit, which has no room at all. *)
Lemma malloc_overflow : units 0xffffffff = 1 ∧ option_map fst (malloc 0x1000 0xffffffff demo_ustate) = Some 0xa000.
Proof. by vm_compute. Qed.
