(* ===== verification/Sh.v ===== *)
(** * The shell's parser

    The command parser of [sh.c]: [gettoken], [peek], the recursive descent
    [parseline], [parsepipe], [parseexec], [parseblock], [parseredirs] and
    [nulterminate].  The line is a buffer of characters, the pointers into it
    are positions, and [*ps] is a part of the state.  Commands are structures
    that malloc returned: a pointer is a position in the list of all of them,
    so that [parseexec] fills in an [execcmd] that redirections already point
    to, as the code does.  malloc is taken to succeed.  The shell's [panic] is
    [Panic].  The functions take fuel, of which a line needs no more than
    three times its length. *)

From S2P Require Import Prelude Defs CString Kernel Cprintf Syscall.
Local Open Scope kernel_scope.

Definition MAXARGS : nat := 10.

(** struct execcmd, redircmd, pipecmd, listcmd, backcmd. *)
Inductive cmd :=
  | execcmd_ (args : list (nat * nat))   (* argv[i] and eargv[i], up to the null *)
  | redircmd_ (c : nat) (file efile : nat) (mode fd : Z)
  | pipecmd_ (left right : nat)
  | listcmd_ (left right : nat)
  | backcmd_ (c : nat).

Record shell := Shell {
  sh_buf : list Z;       (* the line; the NUL behind it is not in the list *)
  sh_s : nat;            (* *ps *)
  sh_cmds : list cmd     (* what malloc has returned *)
}.
Definition SM (A : Type) : Type := M shell A.

Definition set_s (s : nat) (x : shell) : shell := Shell (sh_buf x) s (sh_cmds x).
Definition set_cmds (l : list cmd) (x : shell) : shell := Shell (sh_buf x) (sh_s x) l.
Definition set_buf (b : list Z) (x : shell) : shell := Shell b (sh_s x) (sh_cmds x).

(** ** Constructors *)

Definition new_cmd (c : cmd) : SM nat := λ o x, Ok (length (sh_cmds x)) (set_cmds (sh_cmds x ++ [c]) x) o.
Definition execcmd : SM nat := new_cmd (execcmd_ []).
Definition redircmd (c file efile : nat) (mode fd : Z) : SM nat := new_cmd (redircmd_ c file efile mode fd).
Definition pipecmd (l r : nat) : SM nat := new_cmd (pipecmd_ l r).
Definition listcmd (l r : nat) : SM nat := new_cmd (listcmd_ l r).
Definition backcmd (c : nat) : SM nat := new_cmd (backcmd_ c).

(** ** Tokens *)

Definition whitespace : list Z := [32; 9; 13; 10; 11].
Definition symbols : list Z := chars "<|>&;()".
(** [strchr(set, c)]; no set has a NUL in it. *)
Definition in_set (set : list Z) (c : Z) : bool := existsb (Z.eqb c) set.

(** The character at a position; the NUL at the end. *)
Definition char_at (buf : list Z) (s : nat) : Z := nth s buf 0.

(** [while(s < es && ...) s++] *)
Fixpoint skip_while (fuel : nat) (p : Z → bool) (buf : list Z) (s : nat) : nat :=
  match fuel with
  | O => s
  | S f => if (s <? length buf)%nat && p (char_at buf s) then skip_while f p buf (S s) else s
  end.
Definition skip_space (buf : list Z) (s : nat) : nat := skip_while (length buf) (in_set whitespace) buf s.
Definition skip_word (buf : list Z) (s : nat) : nat :=
  skip_while (length buf) (λ c, negb (in_set whitespace c) && negb (in_set symbols c)) buf s.

(** The token, [*q] and [*eq]. *)
Definition gettoken : SM (Z * nat * nat) :=
  let! x := get in
  let buf := sh_buf x in
  let q := skip_space buf (sh_s x) in
  let c := char_at buf q in
  let '(tok, eq) :=
    if c =? 0 then (0, q)
    else if in_set (chars "|();&<") c then (c, S q)
    else if c =? 62 then
      if char_at buf (S q) =? 62 then (43, S (S q)) else (62, S q)
    else (97, skip_word buf q) in
  modify (set_s (skip_space buf eq)) ;;;
  ret (tok, q, eq).

Definition peek (toks : list Z) : SM bool :=
  let! x := get in
  let s := skip_space (sh_buf x) (sh_s x) in
  modify (set_s s) ;;;
  let c := char_at (sh_buf x) s in
  ret (negb (c =? 0) && in_set toks c).

(** ** The grammar *)

Fixpoint parseredirs (fuel : nat) (c : nat) : SM nat :=
  match fuel with
  | O => undef "fuel"
  | S f =>
      let! b := peek (chars "<>") in
      if b then
        let! t := gettoken in
        let! w := gettoken in
        let '(tok, _, _) := t in
        let '(tok', q, eq) := w in
        if negb (tok' =? 97) then panic "missing file for redirection"
        else
          let! c :=
            (if tok =? 60 then redircmd c q eq O_RDONLY 0
             else if tok =? 62 then redircmd c q eq (Z.lor O_WRONLY O_CREATE) 1
             else if tok =? 43 then redircmd c q eq (Z.lor O_WRONLY O_CREATE) 1
             else ret c) in
          parseredirs f c
      else ret c
  end.

(** [cmd->argv[argc] = q; cmd->eargv[argc] = eq; argc++] *)
Definition add_arg (c q eq : nat) : SM nat := λ o x,
  match sh_cmds x !! c with
  | Some (execcmd_ args) =>
      Ok (S (length args)) (set_cmds (<[c := execcmd_ (args ++ [(q, eq)])]> (sh_cmds x)) x) o
  | _ => Undef "execcmd" x
  end.

(** The loop of parseexec. *)
Fixpoint parse_args (fuel : nat) (c r : nat) : SM nat :=
  match fuel with
  | O => undef "fuel"
  | S f =>
      let! b := peek (chars "|)&;") in
      if b then ret r
      else
        let! t := gettoken in
        let '(tok, q, eq) := t in
        if tok =? 0 then ret r
        else if negb (tok =? 97) then panic "syntax"
        else
          let! argc := add_arg c q eq in
          if (MAXARGS <=? argc)%nat then panic "too many args"
          else
            let! r := parseredirs f r in
            parse_args f c r
  end.

(** The loop of parseline over [&]. *)
Fixpoint parse_backs (fuel : nat) (c : nat) : SM nat :=
  match fuel with
  | O => undef "fuel"
  | S f =>
      let! b := peek (chars "&") in
      if b then gettoken ;;; let! c := backcmd c in parse_backs f c else ret c
  end.

Fixpoint parseline (fuel : nat) : SM nat :=
  match fuel with
  | O => undef "fuel"
  | S f =>
      let! c := parsepipe f in
      let! c := parse_backs f c in
      let! b := peek (chars ";") in
      if b then gettoken ;;; let! r := parseline f in listcmd c r else ret c
  end
with parsepipe (fuel : nat) : SM nat :=
  match fuel with
  | O => undef "fuel"
  | S f =>
      let! c := parseexec f in
      let! b := peek (chars "|") in
      if b then gettoken ;;; let! r := parsepipe f in pipecmd c r else ret c
  end
with parseexec (fuel : nat) : SM nat :=
  match fuel with
  | O => undef "fuel"
  | S f =>
      let! b := peek (chars "(") in
      if b then parseblock f
      else
        let! c := execcmd in
        let! r := parseredirs f c in
        parse_args f c r
  end
with parseblock (fuel : nat) : SM nat :=
  match fuel with
  | O => undef "fuel"
  | S f =>
      let! b := peek (chars "(") in
      if negb b then panic "parseblock"
      else
        gettoken ;;;
        let! c := parseline f in
        let! b := peek (chars ")") in
        if negb b then panic "syntax - missing )"
        else gettoken ;;; parseredirs f c
  end.

(** ** nulterminate *)

(** [*eq = 0]; at the end of the line there is a NUL already. *)
Definition put_nul (eq : nat) : SM unit := modify (λ x, set_buf (<[eq := 0]> (sh_buf x)) x).

Fixpoint nulterminate (fuel : nat) (c : nat) : SM unit :=
  match fuel with
  | O => undef "fuel"
  | S f =>
      let! l := gets sh_cmds in
      match l !! c with
      | None => undef "cmd"
      | Some (execcmd_ args) => for_each args (λ a, put_nul (snd a))
      | Some (redircmd_ c _ efile _ _) => nulterminate f c ;;; put_nul efile
      | Some (pipecmd_ a b) => nulterminate f a ;;; nulterminate f b
      | Some (listcmd_ a b) => nulterminate f a ;;; nulterminate f b
      | Some (backcmd_ c) => nulterminate f c
      end
  end.

Definition parsecmd : SM nat :=
  let! buf := gets sh_buf in
  let! c := parseline (3 * length buf + 6) in
  peek [] ;;;
  let! x := get in
  if negb (sh_s x =? length (sh_buf x))%nat then panic "syntax"
  else
    let! l := gets sh_cmds in
    nulterminate (S (length l)) c ;;;
    ret c.

(** ** Commands as trees *)

Notation word := (list Z) (only parsing).
Inductive tree :=
  | TExec (args : list word)
  | TRedir (t : tree) (file : word) (mode fd : Z)
  | TPipe (t1 t2 : tree)
  | TList (t1 t2 : tree)
  | TBack (t : tree).

(** A character of a word. *)
Definition word_char (c : Z) : bool := negb (c =? 0) && negb (in_set whitespace c) && negb (in_set symbols c).

(** The word [w] stands at [q] and something else at [eq], behind it. *)
Record span (buf : list Z) (q eq : nat) (w : word) : Prop := {
  sp_end : eq = (q + length w)%nat;
  sp_at i c : w !! i = Some c → buf !! (q + i)%nat = Some c;
  sp_word : Forall (λ c, word_char c = true) w;
  sp_stop : word_char (char_at buf eq) = false
}.

(** The command at [c] is the tree [t]; its strings are still parts of the line. *)
Inductive reps (buf : list Z) (l : list cmd) : nat → tree → Prop :=
  | reps_exec c args ws :
      l !! c = Some (execcmd_ args) → Forall2 (λ a w, span buf (fst a) (snd a) w) args ws →
      reps buf l c (TExec ws)
  | reps_redir c c' q eq w mode fd t :
      l !! c = Some (redircmd_ c' q eq mode fd) → (c' < c)%nat → span buf q eq w → reps buf l c' t →
      reps buf l c (TRedir t w mode fd)
  | reps_pipe c a b t1 t2 :
      l !! c = Some (pipecmd_ a b) → (a < c)%nat → (b < c)%nat → reps buf l a t1 → reps buf l b t2 →
      reps buf l c (TPipe t1 t2)
  | reps_list c a b t1 t2 :
      l !! c = Some (listcmd_ a b) → (a < c)%nat → (b < c)%nat → reps buf l a t1 → reps buf l b t2 →
      reps buf l c (TList t1 t2)
  | reps_back c c' t :
      l !! c = Some (backcmd_ c') → (c' < c)%nat → reps buf l c' t → reps buf l c (TBack t).

(** The string that starts at [q]. *)
Fixpoint until_end (l : list Z) : list Z :=
  match l with [] => [] | c :: l' => if c =? 0 then [] else c :: until_end l' end.
Definition string_at (buf : list Z) (q : nat) : word := until_end (drop q buf).

(** The command at [c] is the tree [t], all of its strings terminated. *)
Inductive shows (buf : list Z) (l : list cmd) : nat → tree → Prop :=
  | shows_exec c args :
      l !! c = Some (execcmd_ args) → shows buf l c (TExec (map (λ a, string_at buf (fst a)) args))
  | shows_redir c c' q eq mode fd t :
      l !! c = Some (redircmd_ c' q eq mode fd) → (c' < c)%nat → shows buf l c' t →
      shows buf l c (TRedir t (string_at buf q) mode fd)
  | shows_pipe c a b t1 t2 :
      l !! c = Some (pipecmd_ a b) → (a < c)%nat → (b < c)%nat → shows buf l a t1 → shows buf l b t2 →
      shows buf l c (TPipe t1 t2)
  | shows_list c a b t1 t2 :
      l !! c = Some (listcmd_ a b) → (a < c)%nat → (b < c)%nat → shows buf l a t1 → shows buf l b t2 →
      shows buf l c (TList t1 t2)
  | shows_back c c' t :
      l !! c = Some (backcmd_ c') → (c' < c)%nat → shows buf l c' t → shows buf l c (TBack t).

(** *** nulterminate *)

(** The buffer with NULs written behind words. *)
Record terminated (buf buf' : list Z) : Prop := {
  tm_len : length buf' = length buf;
  tm_keep i c : buf !! i = Some c → buf' !! i = Some c ∨ (buf' !! i = Some 0 ∧ word_char c = false)
}.

Lemma terminated_refl buf : terminated buf buf.
Proof. split; [done|]. intros i c Hi. by left. Qed.
Lemma terminated_trans b1 b2 b3 : terminated b1 b2 → terminated b2 b3 → terminated b1 b3.
Proof.
  intros [L1 K1] [L2 K2]. split; [congruence|]. intros i c Hi. destruct (K1 i c Hi) as [H|[H Hc]].
  - destruct (K2 i c H) as [?|[? ?]]; auto.
  - destruct (K2 i 0 H) as [?|[? _]]; auto.
Qed.

Lemma char_at_lookup buf i c : buf !! i = Some c → char_at buf i = c.
Proof. apply nth_lookup_Some. Qed.
Lemma char_at_none buf i : buf !! i = None → char_at buf i = 0.
Proof. intros H. unfold char_at. by rewrite nth_lookup, H. Qed.

Lemma span_terminated buf buf' q eq w : terminated buf buf' → span buf q eq w → span buf' q eq w.
Proof.
  intros [L K] [He Ha Hw Hs]. split; [done| |done|].
  - intros i c Hi. destruct (K _ _ (Ha i c Hi)) as [?|[_ Hc]]; [done|]. rewrite Forall_lookup in Hw. by rewrite (Hw i c Hi) in Hc.
  - destruct (buf !! eq) as [c|] eqn:E.
    + rewrite (char_at_lookup _ _ _ E) in Hs. by destruct (K _ _ E) as [H|[H _]]; rewrite (char_at_lookup _ _ _ H).
    + apply lookup_ge_None in E. rewrite char_at_none; [done|]. apply lookup_ge_None. lia.
Qed.

(** A NUL written behind a word ends it. *)
Lemma put_nul_span buf q eq w :
  span buf q eq w → terminated buf (<[eq := 0]> buf) ∧ char_at (<[eq := 0]> buf) eq = 0.
Proof.
  intros [He Ha Hw Hs]. split; [split|].
  - by rewrite length_insert.
  - intros i c Hi. destruct (decide (i = eq)) as [->|Hne].
    + right. rewrite list_lookup_insert_eq by (by eapply lookup_lt_Some). split; [done|]. by rewrite (char_at_lookup _ _ _ Hi) in Hs.
    + left. by rewrite list_lookup_insert_ne.
  - destruct (decide (eq < length buf)%nat).
    + apply char_at_lookup. by rewrite list_lookup_insert_eq.
    + rewrite char_at_none; [done|]. apply lookup_ge_None. rewrite length_insert. lia.
Qed.

Lemma string_at_span buf q eq w : span buf q eq w → char_at buf eq = 0 → string_at buf q = w.
Proof.
  intros [-> Ha Hw _] H0. unfold string_at. revert q Ha H0. induction Hw as [|c w Hc _ IH]; intros q Ha H0; cbn [length] in *.
  - rewrite Nat.add_0_r in H0. destruct (drop q buf) as [|d r] eqn:E; [done|]. cbn.
    assert (buf !! q = Some d) as Hd by (by rewrite <- (Nat.add_0_r q), <- lookup_drop, E).
    rewrite (char_at_lookup _ _ _ Hd) in H0. by subst d.
  - pose proof (Ha O c eq_refl) as H. rewrite Nat.add_0_r in H. rewrite (drop_S _ _ _ H). cbn.
    rewrite (proj2 (Z.eqb_neq c 0)) by (intros ->; done). f_equal. apply IH.
    + intros i d Hi. rewrite Nat.add_succ_comm. by apply (Ha (S i)).
    + by rewrite Nat.add_succ_comm.
Qed.

Lemma terminated_zero buf buf' i : terminated buf buf' → char_at buf i = 0 → char_at buf' i = 0.
Proof.
  intros [L K] H0. destruct (buf !! i) as [c|] eqn:E.
  - rewrite (char_at_lookup _ _ _ E) in H0. subst c. by destruct (K _ _ E) as [H|[H _]]; rewrite (char_at_lookup _ _ _ H).
  - apply lookup_ge_None in E. apply char_at_none, lookup_ge_None. lia.
Qed.

Lemma put_nuls_spec buf0 args ws buf s l o :
  Forall2 (λ a w, span buf0 (fst a) (snd a) w) args ws → terminated buf0 buf →
  ∃ buf', for_each args (λ a, put_nul (snd a)) o (Shell buf s l) = Ok tt (Shell buf' s l) o ∧
    terminated buf buf' ∧ Forall (λ a, char_at buf' (snd a) = 0) args.
Proof.
  intros Hf. revert buf. induction Hf as [|[q eq] w args ws Hs _ IH]; intros buf Ht; cbn [for_each].
  - exists buf. split_and!; [done|apply terminated_refl|constructor].
  - destruct (put_nul_span _ _ _ _ (span_terminated _ _ _ _ _ Ht Hs)) as [H1 H2]. cbn [fst snd] in *.
    destruct (IH (<[eq := 0]> buf)) as (buf' & Hrun & Ht' & Hz); [by apply (terminated_trans _ buf)|].
    exists buf'. split_and!; [exact Hrun|by apply (terminated_trans _ (<[eq := 0]> buf))|]. constructor; [|done].
    by apply (terminated_zero (<[eq := 0]> buf)).
Qed.

Lemma nulterminate_spec buf0 l c t :
  reps buf0 l c t → ∀ fuel buf s o, (c < fuel)%nat → terminated buf0 buf →
  ∃ buf', nulterminate fuel c o (Shell buf s l) = Ok tt (Shell buf' s l) o ∧ terminated buf buf' ∧
    ∀ buf1, terminated buf' buf1 → shows buf1 l c t.
Proof.
  induction 1 as [c args ws Hc Hf|c c' q eq w mode fd t Hc Hlt Hs _ IH|c a b t1 t2 Hc Ha Hb _ IH1 _ IH2
    |c a b t1 t2 Hc Ha Hb _ IH1 _ IH2|c c' t Hc Hlt _ IH]; intros [|fuel] buf s o Hfu Ht; try lia;
    cbn [nulterminate]; mrun; cbn [sh_cmds]; rewrite Hc.
  - destruct (put_nuls_spec buf0 args ws buf s l o Hf Ht) as (buf' & Hrun & Ht' & Hz). exists buf'. split_and!; [done|done|].
    intros buf1 Ht1. replace ws with (map (λ a, string_at buf1 (fst a)) args); [by constructor|].
    pose proof (terminated_trans _ _ _ Ht Ht') as Ht0. clear -Hf Hz Ht0 Ht1.
    induction Hf as [|[q eq] w args ws Hs _ IH]; [done|]. apply Forall_cons in Hz as [Hz1 Hz2]. cbn [map fst snd] in *. f_equal; [|by apply IH].
    apply (string_at_span _ _ eq); [|by apply (terminated_zero buf')]. apply (span_terminated buf0); [|done]. by apply (terminated_trans _ buf').
  - destruct (IH fuel buf s o ltac:(lia) Ht) as (buf' & Hrun & Ht' & Hsh). rewrite (bind_ok _ _ _ _ _ _ _ Hrun).
    pose proof (terminated_trans _ _ _ Ht Ht') as Ht0.
    destruct (put_nul_span _ _ _ _ (span_terminated _ _ _ _ _ Ht0 Hs)) as [H1 H2].
    exists (<[eq := 0]> buf'). split_and!; [done|by apply (terminated_trans _ buf')|].
    intros buf1 Ht1. pose proof (terminated_trans _ _ _ H1 Ht1) as Ht2.
    replace w with (string_at buf1 q); [apply (shows_redir _ _ _ c' _ eq); [done|done|by apply Hsh]|].
    apply (string_at_span _ _ eq); [|by apply (terminated_zero (<[eq := 0]> buf'))].
    apply (span_terminated buf0); [|done]. by apply (terminated_trans _ buf').
  - destruct (IH1 fuel buf s o ltac:(lia) Ht) as (buf' & Hrun & Ht' & Hsh). rewrite (bind_ok _ _ _ _ _ _ _ Hrun).
    destruct (IH2 fuel buf' s o ltac:(lia)) as (buf'' & Hrun' & Ht'' & Hsh'); [by apply (terminated_trans _ buf)|].
    exists buf''. split_and!; [done|by apply (terminated_trans _ buf')|]. intros buf1 Ht1. apply (shows_pipe _ _ _ a b); [done|done|done| |by apply Hsh'].
    apply Hsh. by apply (terminated_trans _ buf'').
  - destruct (IH1 fuel buf s o ltac:(lia) Ht) as (buf' & Hrun & Ht' & Hsh). rewrite (bind_ok _ _ _ _ _ _ _ Hrun).
    destruct (IH2 fuel buf' s o ltac:(lia)) as (buf'' & Hrun' & Ht'' & Hsh'); [by apply (terminated_trans _ buf)|].
    exists buf''. split_and!; [done|by apply (terminated_trans _ buf')|]. intros buf1 Ht1. apply (shows_list _ _ _ a b); [done|done|done| |by apply Hsh'].
    apply Hsh. by apply (terminated_trans _ buf'').
  - destruct (IH fuel buf s o ltac:(lia) Ht) as (buf' & Hrun & Ht' & Hsh). exists buf'. split_and!; [done|done|].
    intros buf1 Ht1. apply (shows_back _ _ _ c'); [done|done|by apply Hsh].
Qed.

(** ** Command lines as text

    The grammar of the shell as trees that keep what the parser forgets: the
    place of the redirections and the parentheses. *)

Inductive rkind := RIn | ROut | RAppend.
Inductive sexec :=
  | SCmd (rs : list (rkind * word)) (args : list (word * list (rkind * word)))
  | SBlock (l : sline) (rs : list (rkind * word))
with spipe :=
  | SOne (e : sexec)
  | SPipe (e : sexec) (p : spipe)
with sline :=
  | SLine (p : spipe) (backs : nat)
  | SList (p : spipe) (backs : nat) (l : sline).

Scheme sexec_mind := Induction for sexec Sort Prop
  with spipe_mind := Induction for spipe Sort Prop
  with sline_mind := Induction for sline Sort Prop.
Combined Scheme syntax_ind from sexec_mind, spipe_mind, sline_mind.

Inductive token := TWord (w : word) | TSym (c : Z) | TAppend.
Definition tok_chars (t : token) : list Z :=
  match t with TWord w => w | TSym c => [c] | TAppend => [62; 62] end.

(** Every token is followed by a blank. *)
Definition show (ts : list token) : list Z := concat (map (λ t, tok_chars t ++ [32]) ts).

Definition redir_toks (rs : list (rkind * word)) : list token :=
  concat (map (λ r, [match fst r with RIn => TSym 60 | ROut => TSym 62 | RAppend => TAppend end; TWord (snd r)]) rs).
Definition arg_toks (args : list (word * list (rkind * word))) : list token :=
  concat (map (λ a, TWord (fst a) :: redir_toks (snd a)) args).
Fixpoint exec_toks (e : sexec) : list token :=
  match e with
  | SCmd rs args => redir_toks rs ++ arg_toks args
  | SBlock l rs => TSym 40 :: line_toks l ++ TSym 41 :: redir_toks rs
  end
with pipe_toks (p : spipe) : list token :=
  match p with
  | SOne e => exec_toks e
  | SPipe e p => exec_toks e ++ TSym 124 :: pipe_toks p
  end
with line_toks (l : sline) : list token :=
  match l with
  | SLine p n => pipe_toks p ++ replicate n (TSym 38)
  | SList p n l => pipe_toks p ++ replicate n (TSym 38) ++ TSym 59 :: line_toks l
  end.

(** The command a line stands for: redirections apply from the left. *)
Definition wrap (t : tree) (rs : list (rkind * word)) : tree :=
  foldl (λ t r, match fst r with
                | RIn => TRedir t (snd r) O_RDONLY 0
                | _ => TRedir t (snd r) (Z.lor O_WRONLY O_CREATE) 1
                end) t rs.
Fixpoint exec_tree (e : sexec) : tree :=
  match e with
  | SCmd rs args => wrap (TExec (map fst args)) (rs ++ concat (map snd args))
  | SBlock l rs => wrap (line_tree l) rs
  end
with pipe_tree (p : spipe) : tree :=
  match p with
  | SOne e => exec_tree e
  | SPipe e p => TPipe (exec_tree e) (pipe_tree p)
  end
with line_tree (l : sline) : tree :=
  match l with
  | SLine p n => Nat.iter n TBack (pipe_tree p)
  | SList p n l => TList (Nat.iter n TBack (pipe_tree p)) (line_tree l)
  end.

(** Words are not empty and have no blanks or symbols in them; a command has
    fewer than MAXARGS arguments. *)
Definition word_ok (w : word) : Prop := w ≠ [] ∧ Forall (λ c, word_char c = true) w.
Definition redirs_ok (rs : list (rkind * word)) : Prop := Forall (λ r, word_ok (snd r)) rs.
Fixpoint exec_ok (e : sexec) : Prop :=
  match e with
  | SCmd rs args =>
      redirs_ok rs ∧ Forall (λ a, word_ok (fst a) ∧ redirs_ok (snd a)) args ∧ (length args < MAXARGS)%nat
  | SBlock l rs => line_ok l ∧ redirs_ok rs
  end
with pipe_ok (p : spipe) : Prop :=
  match p with SOne e => exec_ok e | SPipe e p => exec_ok e ∧ pipe_ok p end
with line_ok (l : sline) : Prop :=
  match l with SLine p _ => pipe_ok p | SList p _ l => pipe_ok p ∧ line_ok l end.

(** *** Reading tokens *)

Definition tok_ok (t : token) : Prop :=
  match t with
  | TWord w => word_ok w
  | TSym c => in_set symbols c = true
  | TAppend => True
  end.

(** The text from the position of the parser on is that of [ts]. *)
Definition at_toks (x : shell) (ts : list token) : Prop :=
  (drop (sh_s x) (sh_buf x) = show ts ∧ (sh_s x ≤ length (sh_buf x))%nat) ∧ Forall tok_ok ts.

Lemma char_at_drop buf s i l : drop s buf = l → char_at buf (s + i) = nth i l 0.
Proof. intros <-. unfold char_at. by rewrite !nth_lookup, lookup_drop. Qed.

Lemma skip_while_spec fuel p buf s l1 l2 :
  drop s buf = l1 ++ l2 → Forall (λ c, p c = true) l1 → match l2 with [] => True | c :: _ => p c = false end →
  (length l1 ≤ fuel)%nat → skip_while fuel p buf s = (s + length l1)%nat.
Proof.
  intros Hd Hp Hstop. revert fuel s Hd. induction Hp as [|c l1 Hc _ IH]; intros fuel s Hd Hf; cbn [length app] in *.
  - rewrite Nat.add_0_r. destruct fuel as [|fuel]; [done|]. cbn [skip_while].
    destruct l2 as [|c l2].
    + apply (f_equal length) in Hd. rewrite length_drop in Hd. cbn in Hd. by rewrite (proj2 (Nat.ltb_ge _ _)) by lia.
    + rewrite <- (Nat.add_0_r s) at 2. rewrite (char_at_drop _ _ _ _ Hd). cbn [nth]. rewrite Hstop. by rewrite andb_false_r.
  - destruct fuel as [|fuel]; [lia|]. cbn [skip_while]. rewrite <- (Nat.add_0_r s) at 2. rewrite (char_at_drop _ _ _ _ Hd). cbn [nth].
    rewrite Hc. pose proof (f_equal length Hd) as Hl. rewrite length_drop in Hl. cbn in Hl.
    rewrite (proj2 (Nat.ltb_lt _ _)) by lia. cbn [andb]. rewrite IH; [lia| |lia].
    by rewrite <- Nat.add_1_r, <- drop_drop, Hd.
Qed.

Definition tok_first (t : token) : Z := hd 0 (tok_chars t).
(** What gettoken returns for a token. *)
Definition tok_kind (t : token) : Z := match t with TWord _ => 97 | TSym c => c | TAppend => 43 end.

Lemma in_set_spec set c : in_set set c = true ↔ c ∈ set.
Proof.
  unfold in_set. rewrite existsb_exists. setoid_rewrite Z.eqb_eq. setoid_rewrite <- list_elem_of_In. naive_solver.
Qed.

(** Membership in a literal set is a statement of arithmetic. *)
Ltac sets := intros ?; rewrite ?list_elem_of_In; cbn; lia.

Lemma symbol_cases c : in_set symbols c = true → c = 60 ∨ c = 124 ∨ c = 62 ∨ c = 38 ∨ c = 59 ∨ c = 40 ∨ c = 41.
Proof. intros H%in_set_spec. unfold symbols in H. cbn in H. set_solver. Qed.

Lemma word_char_spec c : word_char c = true → c ≠ 0 ∧ in_set whitespace c = false ∧ in_set symbols c = false.
Proof. unfold word_char. intros H. to_prop. done. Qed.

Lemma tok_first_ok t :
  tok_ok t → tok_first t ≠ 0 ∧ in_set whitespace (tok_first t) = false ∧ ∃ r, tok_chars t = tok_first t :: r.
Proof.
  destruct t as [w|c|]; cbn [tok_ok].
  - intros [Hne Hw]. destruct w as [|c w]; [done|]. apply Forall_cons in Hw as [Hc _]. apply word_char_spec in Hc as (? & ? & _).
    split_and!; [done|done|by exists w].
  - intros H. split_and!; [..|by exists []]; apply symbol_cases in H; unfold tok_first; cbn; naive_solver.
  - intros _. split_and!; [done|done|by exists [62]].
Qed.

Lemma show_cons t ts : show (t :: ts) = tok_chars t ++ 32 :: show ts.
Proof. unfold show. cbn [map concat]. by rewrite <- app_assoc. Qed.

(** No blank is left in front of a token. *)
Lemma skip_space_toks x ts n :
  drop n (sh_buf x) = show ts → Forall tok_ok ts → skip_space (sh_buf x) n = n.
Proof.
  intros Hd Hok. unfold skip_space. rewrite (skip_while_spec _ _ _ _ [] (show ts)); [cbn; lia|done|constructor| |cbn; lia].
  destruct ts as [|t ts]; [done|]. apply Forall_cons in Hok as [Ht _]. destruct (tok_first_ok t Ht) as (_ & Hw & r & E).
  rewrite show_cons, E. done.
Qed.

Lemma peek_eq set x ts o :
  at_toks x ts →
  peek set o x = Ok (match ts with [] => false | t :: _ => in_set set (tok_first t) end) x o.
Proof.
  intros [[Hd Hle] Hok]. unfold peek. mrun. rewrite (skip_space_toks x ts _ Hd Hok).
  assert (char_at (sh_buf x) (sh_s x) = nth 0 (show ts) 0) as -> by (rewrite <- (Nat.add_0_r (sh_s x)); by apply char_at_drop).
  assert (set_s (sh_s x) x = x) as -> by (by destruct x). f_equal.
  destruct ts as [|t ts]; [done|]. apply Forall_cons in Hok as [Ht _]. destruct (tok_first_ok t Ht) as (H0 & _ & r & E).
  rewrite show_cons, E. cbn [app nth]. by rewrite (proj2 (Z.eqb_neq _ _)) by done.
Qed.

(** The scan of gettoken over one token. *)
Lemma token_scan buf s t ts :
  drop s buf = show (t :: ts) → tok_ok t →
  (let c := char_at buf s in
   if c =? 0 then (0, s)
   else if in_set (chars "|();&<") c then (c, S s)
   else if c =? 62 then if char_at buf (S s) =? 62 then (43, S (S s)) else (62, S s)
   else (97, skip_word buf s)) = (tok_kind t, (s + length (tok_chars t))%nat).
Proof.
  intros Hd Ht. rewrite show_cons in Hd.
  assert (char_at buf s = tok_first t) as -> by (rewrite <- (Nat.add_0_r s), (char_at_drop _ _ _ _ Hd);
    destruct (tok_first_ok t Ht) as (_ & _ & r & ->); done).
  assert (char_at buf (S s) = nth 1 (tok_chars t ++ 32 :: show ts) 0) as -> by (by rewrite <- Nat.add_1_r; apply char_at_drop).
  cbv zeta. rewrite (proj2 (Z.eqb_neq _ _)) by (by apply tok_first_ok).
  destruct t as [w|c|]; cbn [tok_kind tok_chars length].
  - destruct Ht as [Hne Hw]. destruct w as [|c w]; [done|]. unfold tok_first. cbn [tok_chars hd].
    pose proof Hw as [Hc _]%Forall_cons. apply word_char_spec in Hc as (_ & _ & Hs).
    assert (in_set (chars "|();&<") c = false) as ->.
    { destruct (in_set (chars _) c) eqn:E; [|done]. apply in_set_spec in E. rewrite <- Hs. symmetry. apply in_set_spec. unfold symbols. cbn in *. set_solver. }
    assert ((c =? 62) = false) as ->.
    { apply Z.eqb_neq. intros ->. done. }
    f_equal. unfold skip_word. rewrite (skip_while_spec _ _ _ _ (c :: w) (32 :: show ts)); [done|done| |done|].
    + eapply Forall_impl; [exact Hw|]. cbv beta. intros d Hdd. apply word_char_spec in Hdd as (_ & -> & ->). done.
    + apply (f_equal length) in Hd. rewrite length_drop, length_app in Hd. cbn in *. lia.
  - cbn [tok_ok] in Ht. apply symbol_cases in Ht as [->|[->|[->|[->|[->|[->| ->]]]]]]; cbn; f_equal; lia.
  - cbn. f_equal. lia.
Qed.

Lemma gettoken_eq x t ts o :
  at_toks x (t :: ts) →
  let x' := set_s (sh_s x + length (tok_chars t) + 1) x in
  gettoken o x = Ok (tok_kind t, sh_s x, (sh_s x + length (tok_chars t))%nat) x' o ∧ at_toks x' ts.
Proof.
  intros [[Hd Hle] Hok] x'. unfold gettoken. mrun. rewrite (skip_space_toks x _ _ Hd Hok). pose proof Hok as [Ht Hts]%Forall_cons.
  pose proof (token_scan _ _ _ _ Hd Ht) as E. cbv zeta in E. rewrite E. mrun.
  rewrite show_cons in Hd.
  assert (drop (sh_s x + length (tok_chars t) + 1) (sh_buf x) = show ts) as Hd'.
  { rewrite <- !drop_drop, Hd, drop_app_length. done. }
  split.
  2: { split; [split|]; [done| |done]. apply (f_equal length) in Hd. rewrite length_drop, length_app in Hd. cbn in *. lia. }
  f_equal. unfold x'. f_equal. unfold skip_space.
  rewrite (skip_while_spec _ _ _ _ [32] (show ts)); [done| |by repeat constructor| |].
  - by rewrite <- drop_drop, Hd, drop_app_length.
  - destruct ts as [|t' ts]; [done|]. apply Forall_cons in Hts as [Ht' _]. destruct (tok_first_ok t' Ht') as (_ & Hw & r & E').
    by rewrite show_cons, E'.
  - apply (f_equal length) in Hd. rewrite length_drop, length_app in Hd. cbn in *. lia.
Qed.

Lemma gettoken_end x o : at_toks x [] → gettoken o x = Ok (0, sh_s x, sh_s x) x o.
Proof.
  intros [[Hd Hle] Hok]. unfold gettoken. mrun. rewrite (skip_space_toks x [] _ Hd Hok).
  assert (char_at (sh_buf x) (sh_s x) = 0) as -> by (rewrite <- (Nat.add_0_r (sh_s x)); exact (char_at_drop _ _ 0 [] Hd)).
  cbn [Z.eqb]. mrun. rewrite (skip_space_toks x [] _ Hd Hok). by destruct x.
Qed.

(** *** Redirections *)

Lemma span_word x w ts :
  at_toks x (TWord w :: ts) → span (sh_buf x) (sh_s x) (sh_s x + length w) w.
Proof.
  intros [[Hd Hle] Hok]. rewrite show_cons in Hd. apply Forall_cons in Hok as [[_ Hw] _]. cbn [tok_chars] in Hd. split; [done| |done|].
  - intros i c Hi. rewrite <- lookup_drop, Hd. by apply lookup_app_l_Some.
  - rewrite (char_at_drop _ _ _ _ Hd), app_nth2, Nat.sub_diag by lia. done.
Qed.

Lemma reps_mono buf l l' c t : l `prefix_of` l' → reps buf l c t → reps buf l' c t.
Proof.
  intros Hp. pose proof (λ i c, prefix_lookup_Some l l' i c) as Hl.
  induction 1; [eapply reps_exec|eapply reps_redir|eapply reps_pipe|eapply reps_list|eapply reps_back]; eauto.
Qed.

(** The command [r] is [r0] under the redirections [rs]. *)
Inductive rwraps (buf : list Z) (l : list cmd) : nat → list (rkind * word) → nat → Prop :=
  | rwraps_nil r : rwraps buf l r [] r
  | rwraps_cons r0 k w rs q eq r1 r :
      l !! r1 = Some (match k with
                      | RIn => redircmd_ r0 q eq O_RDONLY 0
                      | _ => redircmd_ r0 q eq (Z.lor O_WRONLY O_CREATE) 1
                      end) →
      (r0 < r1)%nat → span buf q eq w → rwraps buf l r1 rs r → rwraps buf l r0 ((k, w) :: rs) r.

Lemma rwraps_app buf l r0 rs r rs' r' : rwraps buf l r0 rs r → rwraps buf l r rs' r' → rwraps buf l r0 (rs ++ rs') r'.
Proof. induction 1; [done|]. intros. cbn. by eapply rwraps_cons; eauto. Qed.

Lemma rwraps_reps buf l r0 rs r t : rwraps buf l r0 rs r → reps buf l r0 t → reps buf l r (wrap t rs).
Proof.
  intros Hw. revert t. induction Hw as [|r0 k w rs q eq r1 r H1 H2 H3 _ IH]; intros t Ht; [done|].
  unfold wrap. cbn [foldl fst snd]. apply IH. destruct k; by eapply reps_redir.
Qed.

(** Redirections survive new commands and new arguments of a command. *)
Lemma rwraps_ext buf l l' r0 rs r :
  (∀ i c, l !! i = Some c → (∃ a, c = execcmd_ a) ∨ l' !! i = Some c) → rwraps buf l r0 rs r → rwraps buf l' r0 rs r.
Proof.
  intros Hl. induction 1 as [|r0 k w rs q eq r1 r H1 H2 H3 _ IH]; [constructor|].
  eapply rwraps_cons; [|done|done|done]. destruct (Hl _ _ H1) as [[a Ha]|?]; [by destruct k|done].
Qed.

Lemma rwraps_le buf l r0 rs r : rwraps buf l r0 rs r → (r0 ≤ r)%nat.
Proof. induction 1; lia. Qed.

(** The parser moved on: the line is the same, commands were added. *)
Definition moved (x x' : shell) : Prop := sh_buf x' = sh_buf x ∧ sh_cmds x `prefix_of` sh_cmds x'.
Lemma moved_refl x : moved x x.
Proof. done. Qed.
Lemma moved_trans x y z : moved x y → moved y z → moved x z.
Proof. intros [? ?] [? ?]. split; [congruence|by etrans]. Qed.
#[local] Hint Resolve moved_refl : core.

Definition starts_with (set : list Z) (ts : list token) : bool :=
  match ts with [] => false | t :: _ => in_set set (tok_first t) end.

Lemma parseredirs_spec rs fuel rest x r0 o :
  at_toks x (redir_toks rs ++ rest) → redirs_ok rs → starts_with (chars "<>") rest = false →
  (r0 < length (sh_cmds x))%nat → (length rs < fuel)%nat →
  ∃ r x', parseredirs fuel r0 o x = Ok r x' o ∧ moved x x' ∧ at_toks x' rest ∧
    rwraps (sh_buf x') (sh_cmds x') r0 rs r ∧ (r < length (sh_cmds x'))%nat.
Proof.
  revert fuel x r0. induction rs as [|[k w] rs IH]; intros [|fuel] x r0 Hat Hok Hf Hr Hfu; cbn [length] in Hfu; try lia;
    cbn [parseredirs].
  - cbn in Hat. rewrite (bind_ok _ _ _ _ _ _ _ (peek_eq _ _ _ _ Hat)). unfold starts_with in Hf. rewrite Hf.
    exists r0, x. split_and!; [done|done|done|constructor|done].
  - apply Forall_cons in Hok as [Hw Hok]. cbn [snd] in Hw.
    set (t := match k with RIn => TSym 60 | ROut => TSym 62 | RAppend => TAppend end).
    assert (redir_toks ((k, w) :: rs) ++ rest = t :: TWord w :: redir_toks rs ++ rest) as E by done. rewrite E in Hat.
    rewrite (bind_ok _ _ _ _ _ _ _ (peek_eq _ _ _ _ Hat)).
    assert (in_set (chars "<>") (tok_first t) = true) as -> by (by destruct k).
    destruct (gettoken_eq x t _ o Hat) as [G1 Hat1]. rewrite (bind_ok _ _ _ _ _ _ _ G1). set (x1 := set_s _ x) in *.
    destruct (gettoken_eq x1 (TWord w) _ o Hat1) as [G2 Hat2]. rewrite (bind_ok _ _ _ _ _ _ _ G2). set (x2 := set_s _ x1) in *.
    pose proof (span_word _ _ _ Hat1) as Hsp. cbn [tok_kind]. change (negb (97 =? 97)) with false. cbv iota.
    set (c := match k with RIn => redircmd_ r0 (sh_s x1) (sh_s x1 + length w) O_RDONLY 0
                         | _ => redircmd_ r0 (sh_s x1) (sh_s x1 + length w) (Z.lor O_WRONLY O_CREATE) 1 end).
    set (x3 := set_cmds (sh_cmds x ++ [c]) x2).
    rewrite (bind_ok _ _ o x2 (length (sh_cmds x)) o x3) by (by destruct k).
    destruct (IH fuel x3 (length (sh_cmds x))) as (r & x' & Hrun & [Hb Hp] & Hat' & Hwr & Hlt); [done|done|done|cbn; rewrite length_app; cbn; lia|lia|].
    exists r, x'. split_and!; [done| |done| |done].
    + split; [by rewrite Hb|]. etrans; [|exact Hp]. by apply prefix_app_r.
    + eapply rwraps_cons; [|exact Hr| |exact Hwr]; [|by rewrite Hb]. eapply prefix_lookup_Some; [|exact Hp].
      cbn [x3 set_cmds sh_cmds]. rewrite lookup_app_r, Nat.sub_diag by lia. done.
Qed.

(** *** Simple commands *)

Lemma word_starts set w ts :
  word_ok w → (∀ c, in_set set c = true → in_set symbols c = true) → starts_with set (TWord w :: ts) = false.
Proof.
  intros [Hne Hw] Hset. destruct w as [|c w]; [done|]. apply Forall_cons in Hw as [Hc _].
  apply word_char_spec in Hc as (_ & _ & Hc). unfold starts_with, tok_first. cbn [tok_chars hd].
  destruct (in_set set c) eqn:E; [|done]. by rewrite (Hset _ E) in Hc.
Qed.

Lemma redir_toks_length rs : length (redir_toks rs) = (2 * length rs)%nat.
Proof. unfold redir_toks. induction rs as [|r rs IH]; cbn [map concat length app]; lia. Qed.
Lemma arg_toks_length w rr args :
  length (arg_toks ((w, rr) :: args)) = (1 + 2 * length rr + length (arg_toks args))%nat.
Proof.
  change (arg_toks ((w, rr) :: args)) with ((TWord w :: redir_toks rr) ++ arg_toks args).
  rewrite length_app. cbn [length]. by rewrite redir_toks_length.
Qed.

(** What follows an argument is no redirection. *)
Lemma args_follow args rest :
  Forall (λ a, word_ok (fst a) ∧ redirs_ok (snd a)) args → rest = [] ∨ starts_with (chars "|)&;") rest = true →
  starts_with (chars "<>") (arg_toks args ++ rest) = false.
Proof.
  intros [|[w rr] args' [Hw _] _] Hrest.
  - change (arg_toks [] ++ rest) with rest. destruct rest as [|t rest]; [done|]. destruct Hrest as [?|H]; [done|].
    unfold starts_with in *. apply in_set_spec in H. destruct (in_set (chars "<>") _) eqn:E; [|done]. apply in_set_spec in E.
    rewrite list_elem_of_In in H, E. cbn in H, E. lia.
  - apply (word_starts _ w); [done|]. intros d Hd%in_set_spec. apply in_set_spec. revert d Hd. clear. unfold symbols. sets.
Qed.

Lemma prefix_insert {A} (l0 l : list A) i v : l0 `prefix_of` l → (length l0 ≤ i)%nat → l0 `prefix_of` <[i := v]> l.
Proof. intros [k ->] Hi. rewrite insert_app_r_alt by done. by apply prefix_app_r. Qed.

Lemma parse_args_spec args fuel rest x c r spans ws rs l0 o :
  at_toks x (arg_toks args ++ rest) → Forall (λ a, word_ok (fst a) ∧ redirs_ok (snd a)) args →
  rest = [] ∨ starts_with (chars "|)&;") rest = true →
  sh_cmds x !! c = Some (execcmd_ spans) → Forall2 (λ a w, span (sh_buf x) (fst a) (snd a) w) spans ws →
  rwraps (sh_buf x) (sh_cmds x) c rs r → (r < length (sh_cmds x))%nat →
  (length spans + length args < MAXARGS)%nat → (length (arg_toks args) < fuel)%nat →
  l0 `prefix_of` sh_cmds x → (length l0 ≤ c)%nat →
  ∃ r' x', parse_args fuel c r o x = Ok r' x' o ∧ sh_buf x' = sh_buf x ∧ l0 `prefix_of` sh_cmds x' ∧ at_toks x' rest ∧
    reps (sh_buf x') (sh_cmds x') c (TExec (ws ++ map fst args)) ∧
    rwraps (sh_buf x') (sh_cmds x') c (rs ++ concat (map snd args)) r' ∧ (r' < length (sh_cmds x'))%nat.
Proof.
  revert fuel x r spans ws rs. induction args as [|[w rr] args IH];
    intros [|fuel] x r spans ws rs Hat Hok Hrest Hc Hsp Hwr Hr Hn Hfu Hp Hl0; try lia; cbn [parse_args].
  - cbn in Hat. rewrite (bind_ok _ _ _ _ _ _ _ (peek_eq _ _ _ _ Hat)). exists r, x.
    cbn [map concat]. rewrite !app_nil_r.
    assert (reps (sh_buf x) (sh_cmds x) c (TExec ws)) by (by eapply reps_exec).
    destruct Hrest as [->|Hrest].
    + rewrite (bind_ok _ _ _ _ _ _ _ (gettoken_end _ _ Hat)). done.
    + unfold starts_with in Hrest. rewrite Hrest. done.
  - apply Forall_cons in Hok as [[Hw Hrr] Hok]. cbn [fst snd] in *.
    assert (arg_toks ((w, rr) :: args) ++ rest = TWord w :: redir_toks rr ++ arg_toks args ++ rest) as E.
    { change (((TWord w :: redir_toks rr) ++ arg_toks args) ++ rest = TWord w :: redir_toks rr ++ arg_toks args ++ rest).
      by rewrite <- app_assoc. }
    rewrite E in Hat. clear E. rewrite (bind_ok _ _ _ _ _ _ _ (peek_eq _ _ _ _ Hat)).
    pose proof (word_starts (chars "|)&;") w (redir_toks rr ++ arg_toks args ++ rest) Hw) as E. unfold starts_with in E. rewrite E; clear E.
    2: { intros d Hd%in_set_spec. apply in_set_spec. revert d Hd. clear. unfold symbols. sets. }
    destruct (gettoken_eq x (TWord w) _ o Hat) as [G1 Hat1]. rewrite (bind_ok _ _ _ _ _ _ _ G1). set (x1 := set_s _ x) in *.
    cbn [tok_kind]. change (97 =? 0) with false. change (negb (97 =? 97)) with false. cbv iota.
    pose proof (span_word _ _ _ Hat) as Hspw. cbn [tok_chars] in *.
    set (sp := (sh_s x, (sh_s x + length w)%nat)) in *.
    set (x2 := set_cmds (<[c := execcmd_ (spans ++ [sp])]> (sh_cmds x)) x1).
    rewrite (bind_ok _ _ o x1 (S (length spans)) o x2) by (unfold add_arg; cbn [x1 set_s sh_cmds]; by rewrite Hc).
    rewrite (proj2 (Nat.leb_gt _ _)) by (cbn [length] in Hn; lia).
    rewrite arg_toks_length in Hfu.
    assert (∀ rs' r', rwraps (sh_buf x) (sh_cmds x) c rs' r' → rwraps (sh_buf x2) (sh_cmds x2) c rs' r') as Hkeep.
    { intros rs' r'. apply rwraps_ext. intros i d Hd. destruct (decide (i = c)) as [->|Hne]; [left; rewrite Hc in Hd; injection Hd as <-; eauto|].
      right. cbn [x2 set_cmds sh_cmds]. by rewrite list_lookup_insert_ne. }
    destruct (parseredirs_spec rr fuel (arg_toks args ++ rest) x2 r o) as (r1 & x3 & Hrun & [Hb3 Hp3] & Hat3 & Hwr3 & Hr3).
    { done. }
    { done. }
    { by apply args_follow. }
    { cbn [x2 set_cmds sh_cmds]. by rewrite length_insert. }
    { lia. }
    rewrite (bind_ok _ _ _ _ _ _ _ Hrun).
    destruct (IH fuel x3 r1 (spans ++ [sp]) (ws ++ [w]) (rs ++ rr)) as (r' & x' & Hrun' & Hb' & Hp' & Hat' & Hreps & Hwr' & Hr').
    { done. }
    { done. }
    { done. }
    { eapply prefix_lookup_Some; [|exact Hp3]. cbn [x2 set_cmds sh_cmds]. apply list_lookup_insert_eq. by eapply lookup_lt_Some. }
    { rewrite Hb3. apply Forall2_app; [done|]. constructor; [exact Hspw|constructor]. }
    { apply (rwraps_app _ _ _ _ r); [|done]. rewrite Hb3. apply (rwraps_ext _ (sh_cmds x2)); [|by apply Hkeep].
      intros i d Hd. right. by eapply prefix_lookup_Some. }
    { done. }
    { rewrite length_app. cbn [length] in *. lia. }
    { lia. }
    { etrans; [|exact Hp3]. cbn [x2 set_cmds sh_cmds]. by apply prefix_insert. }
    { done. }
    exists r', x'. cbn [map concat fst snd]. rewrite <- !app_assoc in *. cbn [app] in *.
    split_and!; [done|by rewrite Hb', Hb3|done|done|done|done|done].
Qed.

(** *** Lines *)

Lemma parse_backs_spec n fuel rest x c t o :
  at_toks x (replicate n (TSym 38) ++ rest) → starts_with (chars "&") rest = false →
  reps (sh_buf x) (sh_cmds x) c t → (c < length (sh_cmds x))%nat → (n < fuel)%nat →
  ∃ r x', parse_backs fuel c o x = Ok r x' o ∧ moved x x' ∧ at_toks x' rest ∧
    reps (sh_buf x') (sh_cmds x') r (Nat.iter n TBack t) ∧ (r < length (sh_cmds x'))%nat.
Proof.
  revert fuel x c t. induction n as [|n IH]; intros [|fuel] x c t Hat Hf Hr Hlt Hfu; try lia; cbn [parse_backs].
  - cbn in Hat. rewrite (bind_ok _ _ _ _ _ _ _ (peek_eq _ _ _ _ Hat)). unfold starts_with in Hf. rewrite Hf. by exists c, x.
  - cbn [replicate app] in Hat. rewrite (bind_ok _ _ _ _ _ _ _ (peek_eq _ _ _ _ Hat)).
    change (in_set (chars "&") (tok_first (TSym 38))) with true. cbv iota.
    destruct (gettoken_eq x _ _ o Hat) as [G1 Hat1]. rewrite (bind_ok _ _ _ _ _ _ _ G1). set (x1 := set_s _ x) in *.
    set (x2 := set_cmds (sh_cmds x ++ [backcmd_ c]) x1). rewrite (bind_ok _ _ o x1 (length (sh_cmds x)) o x2) by done.
    destruct (IH fuel x2 (length (sh_cmds x)) (TBack t)) as (r & x' & Hrun & Hm & Hat' & Hr' & Hlt').
    + done.
    + done.
    + apply (reps_back _ _ _ c); [|done|].
      * cbn [x2 set_cmds sh_cmds]. rewrite lookup_app_r, Nat.sub_diag by lia. done.
      * apply (reps_mono _ (sh_cmds x)); [by apply prefix_app_r|done].
    + cbn [x2 set_cmds sh_cmds]. rewrite length_app. cbn. lia.
    + lia.
    + exists r, x'. split_and!; [done| |done| |done].
      * destruct Hm as [Hb Hp]. split; [done|]. etrans; [|exact Hp]. by apply prefix_app_r.
      * by rewrite <- Nat.iter_succ_r in Hr'.
Qed.

(** Enough fuel for each part. *)
Fixpoint exec_fuel (e : sexec) : nat :=
  match e with
  | SCmd rs args => 2 + length (redir_toks rs) + length (arg_toks args)
  | SBlock l rs => 2 + line_fuel l + length rs
  end
with pipe_fuel (p : spipe) : nat :=
  match p with SOne e => 1 + exec_fuel e | SPipe e p => 1 + exec_fuel e + pipe_fuel p end
with line_fuel (l : sline) : nat :=
  match l with SLine p n => 1 + pipe_fuel p + n | SList p n l => 1 + pipe_fuel p + n + line_fuel l end.

(** What a parser promises: it reads its part and returns the command. *)
Definition parses (m : SM nat) (ts rest : list token) (t : tree) : Prop :=
  ∀ x o, at_toks x (ts ++ rest) →
  ∃ r x', m o x = Ok r x' o ∧ moved x x' ∧ at_toks x' rest ∧
    reps (sh_buf x') (sh_cmds x') r t ∧ (r < length (sh_cmds x'))%nat.

(** The end of the line, or one of the symbols. *)
Definition follows (set : list Z) (rest : list token) : Prop := rest = [] ∨ starts_with set rest = true.

Lemma follows_weaken set set' rest : (∀ c, c ∈ set → c ∈ set') → follows set rest → follows set' rest.
Proof.
  intros Hs [->|H]; [by left|]. right. destruct rest as [|t rest]; [done|]. cbn in *. rewrite in_set_spec in *. auto.
Qed.
Lemma follows_not set set' rest : (∀ c, c ∈ set → c ∈ set' → False) → follows set rest → starts_with set' rest = false.
Proof.
  intros Hs [->|H]; [done|]. destruct rest as [|t rest]; [done|]. cbn in *. rewrite in_set_spec in H.
  destruct (in_set set' (tok_first t)) eqn:E; [|done]. apply in_set_spec in E. by destruct (Hs _ H E).
Qed.


Lemma simple_starts rs args rest :
  exec_ok (SCmd rs args) → follows (chars "|)&;") rest →
  starts_with (chars "(") (redir_toks rs ++ arg_toks args ++ rest) = false.
Proof.
  intros (_ & Hargs & _) Hrest. destruct rs as [|[k w] rs]; [|by destruct k]. change (redir_toks [] ++ ?l) with l.
  destruct Hargs as [|[w rr] args [Hw _] _]; [by apply (follows_not (chars "|)&;")); [sets|]|].
  apply (word_starts _ w); [done|]. intros c Hc%in_set_spec. apply in_set_spec. revert c Hc. clear. unfold symbols. sets.
Qed.

Lemma parseexec_simple rs args rest fuel :
  exec_ok (SCmd rs args) → follows (chars "|)&;") rest → (exec_fuel (SCmd rs args) ≤ fuel)%nat →
  parses (parseexec fuel) (redir_toks rs ++ arg_toks args) rest (exec_tree (SCmd rs args)).
Proof.
  intros Hok Hrest Hfu x o Hat. rewrite <- app_assoc in Hat. cbn [exec_fuel] in Hfu. rewrite redir_toks_length in Hfu.
  destruct fuel as [|f]; [lia|]. cbn [parseexec]. rewrite (bind_ok _ _ _ _ _ _ _ (peek_eq _ _ _ _ Hat)).
  pose proof (simple_starts _ _ _ Hok Hrest) as E. unfold starts_with in E. rewrite E. clear E.
  destruct Hok as (Hrs & Hargs & Hn). set (c := length (sh_cmds x)).
  set (x1 := set_cmds (sh_cmds x ++ [execcmd_ []]) x). rewrite (bind_ok _ _ o x c o x1) by done.
  destruct (parseredirs_spec rs f (arg_toks args ++ rest) x1 c o) as (r & x2 & Hrun & [Hb2 Hp2] & Hat2 & Hwr & Hr);
    [done|done|by apply args_follow|cbn; rewrite length_app; cbn; lia|lia|].
  rewrite (bind_ok _ _ _ _ _ _ _ Hrun).
  destruct (parse_args_spec args f rest x2 c r [] [] rs (sh_cmds x) o)
    as (r' & x' & Hrun' & Hb' & Hp' & Hat' & Hreps & Hwr' & Hr'); try done.
  - eapply prefix_lookup_Some; [|exact Hp2]. cbn [x1 set_cmds sh_cmds]. rewrite lookup_app_r, Nat.sub_diag by lia. done.
  - lia.
  - etrans; [|exact Hp2]. by apply prefix_app_r.
  - exists r', x'. split_and!; [done|split; [by rewrite Hb', Hb2|done]|done| |done]. by apply (rwraps_reps _ _ c).
Qed.

(** A new command made of one, or of two, that the parser has. *)
Lemma new_cmd_eq k x o :
  new_cmd k o x = Ok (length (sh_cmds x)) (set_cmds (sh_cmds x ++ [k]) x) o.
Proof. done. Qed.
Lemma new_cmd_at k x : (sh_cmds x ++ [k]) !! length (sh_cmds x) = Some k.
Proof. by rewrite lookup_app_r, Nat.sub_diag by lia. Qed.
Lemma reps_new x c t (k : cmd) : reps (sh_buf x) (sh_cmds x) c t → reps (sh_buf x) (sh_cmds x ++ [k]) c t.
Proof. apply reps_mono. by apply prefix_app_r. Qed.
Lemma reps_moved x x' c t : moved x x' → reps (sh_buf x) (sh_cmds x) c t → reps (sh_buf x') (sh_cmds x') c t.
Proof. intros [-> Hp]. by apply reps_mono. Qed.
Lemma moved_new x k : moved x (set_cmds (sh_cmds x ++ [k]) x).
Proof. split; [done|]. by apply prefix_app_r. Qed.
Lemma moved_lt x x' c : moved x x' → (c < length (sh_cmds x))%nat → (c < length (sh_cmds x'))%nat.
Proof. intros [_ Hp%prefix_length]. lia. Qed.

(** A symbol that the parser looks for and skips. *)
Lemma skip_symbol {A} set c ts x o (m m' : SM A) :
  at_toks x (TSym c :: ts) → in_set set c = true →
  ∃ x', bind (peek set) (λ b, if b then bind gettoken (λ _, m) else m') o x = m o x' ∧ moved x x' ∧ at_toks x' ts ∧
    sh_cmds x' = sh_cmds x.
Proof.
  intros Hat Hc. rewrite (bind_ok _ _ _ _ _ _ _ (peek_eq _ _ _ _ Hat)). cbn [tok_first tok_chars hd]. rewrite Hc.
  destruct (gettoken_eq x _ _ o Hat) as [G1 Hat1]. eexists. rewrite (bind_ok _ _ _ _ _ _ _ G1). by split_and!.
Qed.
Lemma no_symbol {A} set ts x o (m m' : SM A) :
  at_toks x ts → starts_with set ts = false → bind (peek set) (λ b, if b then m else m') o x = m' o x.
Proof. intros Hat Hs. rewrite (bind_ok _ _ _ _ _ _ _ (peek_eq _ _ _ _ Hat)). unfold starts_with in Hs. by rewrite Hs. Qed.

Definition exec_parses e : Prop := ∀ rest fuel,
  exec_ok e → follows (chars "|)&;") rest → (exec_fuel e ≤ fuel)%nat →
  parses (parseexec fuel) (exec_toks e) rest (exec_tree e).
Definition pipe_parses p : Prop := ∀ rest fuel,
  pipe_ok p → follows (chars ")&;") rest → (pipe_fuel p ≤ fuel)%nat →
  parses (parsepipe fuel) (pipe_toks p) rest (pipe_tree p).
Definition line_parses l : Prop := ∀ rest fuel,
  line_ok l → follows (chars ")") rest → (line_fuel l ≤ fuel)%nat →
  parses (parseline fuel) (line_toks l) rest (line_tree l).

Lemma parse_block l rs : line_parses l → exec_parses (SBlock l rs).
Proof.
  intros IH rest fuel [Hl Hrs] Hrest Hfu x o Hat. cbn [exec_toks exec_fuel exec_tree] in *.
  cbn [app] in Hat. rewrite <- app_assoc in Hat. cbn [app] in Hat.
  destruct fuel as [|[|f]]; [lia|lia|]. cbn [parseexec]. rewrite (bind_ok _ _ _ _ _ _ _ (peek_eq _ _ _ _ Hat)).
  change (in_set (chars "(") (tok_first (TSym 40))) with true. cbv iota. cbn [parseblock].
  rewrite (bind_ok _ _ _ _ _ _ _ (peek_eq _ _ _ _ Hat)).
  change (negb (in_set (chars "(") (tok_first (TSym 40)))) with false. cbv iota.
  destruct (gettoken_eq x _ _ o Hat) as [G1 Hat1]. rewrite (bind_ok _ _ _ _ _ _ _ G1). set (x1 := set_s _ x) in *.
  destruct (IH (TSym 41 :: redir_toks rs ++ rest) f Hl (or_intror eq_refl) ltac:(lia) x1 o Hat1) as (r & x2 & Hrun & Hm & Hat2 & Hr & Hlt).
  rewrite (bind_ok _ _ _ _ _ _ _ Hrun), (bind_ok _ _ _ _ _ _ _ (peek_eq _ _ _ _ Hat2)).
  change (negb (in_set (chars ")") (tok_first (TSym 41)))) with false. cbv iota.
  destruct (gettoken_eq x2 _ _ o Hat2) as [G2 Hat3]. rewrite (bind_ok _ _ _ _ _ _ _ G2). set (x3 := set_s _ x2) in *.
  assert (1 ≤ line_fuel l)%nat by (destruct l; cbn; lia).
  destruct (parseredirs_spec rs f rest x3 r o) as (r' & x' & Hrun' & Hm' & Hat' & Hwr & Hr'); [done|done| |done|lia|].
  { by apply (follows_not (chars "|)&;")); [sets|]. }
  exists r', x'. split_and!; [done| |done| |done].
  - apply (moved_trans _ x2); [done|]. done.
  - apply (rwraps_reps _ _ r); [done|]. apply (reps_moved x3); [done|]. done.
Qed.

Lemma parse_one e : exec_parses e → pipe_parses (SOne e).
Proof.
  intros IH rest fuel He Hrest Hfu x o Hat. cbn [pipe_toks pipe_fuel pipe_tree pipe_ok] in *.
  destruct fuel as [|f]; [lia|]. cbn [parsepipe].
  destruct (IH rest f He ltac:(eapply follows_weaken; [|exact Hrest]; sets) ltac:(lia) x o Hat) as (r & x' & Hrun & Hm & Hat' & Hr & Hlt).
  rewrite (bind_ok _ _ _ _ _ _ _ Hrun), (no_symbol _ rest) by (done || by apply (follows_not (chars ")&;")); [sets|]).
  by exists r, x'.
Qed.

Lemma parse_pipe e p : exec_parses e → pipe_parses p → pipe_parses (SPipe e p).
Proof.
  intros IHe IHp rest fuel [He Hp] Hrest Hfu x o Hat. cbn [pipe_toks pipe_fuel pipe_tree] in *.
  rewrite <- app_assoc in Hat. cbn [app] in Hat. destruct fuel as [|f]; [lia|]. cbn [parsepipe].
  destruct (IHe (TSym 124 :: pipe_toks p ++ rest) f He (or_intror eq_refl) ltac:(lia) x o Hat) as (r & x1 & Hrun & Hm & Hat1 & Hr & Hlt).
  rewrite (bind_ok _ _ _ _ _ _ _ Hrun).
  destruct (skip_symbol (chars "|") 124 _ x1 o (let! r0 := parsepipe f in pipecmd r r0) (ret r) Hat1 eq_refl) as (x2 & -> & Hm2 & Hat2 & Hc2).
  destruct (IHp rest f Hp Hrest ltac:(lia) x2 o Hat2) as (r' & x3 & Hrun' & Hm3 & Hat3 & Hr' & Hlt').
  rewrite (bind_ok _ _ _ _ _ _ _ Hrun'). unfold pipecmd. rewrite new_cmd_eq.
  pose proof (moved_trans _ _ _ Hm2 Hm3) as Hm23. eexists _, _. split_and!; [reflexivity| |done| |].
  - apply (moved_trans _ x1); [done|]. apply (moved_trans _ x3); [done|apply moved_new].
  - pose proof (moved_lt _ _ _ Hm23 Hlt). apply (reps_pipe _ _ _ r r'); [apply new_cmd_at|done|done|apply (reps_new x3)|by apply (reps_new x3)].
    by apply (reps_moved x1).
  - cbn. rewrite length_app. cbn. lia.
Qed.

Lemma parse_line p n : pipe_parses p → line_parses (SLine p n).
Proof.
  intros IH rest fuel Hp Hrest Hfu x o Hat. cbn [line_toks line_fuel line_tree line_ok] in *.
  rewrite <- app_assoc in Hat. destruct fuel as [|f]; [lia|]. cbn [parseline].
  assert (follows (chars ")&;") (replicate n (TSym 38) ++ rest)) as Hf.
  { destruct n; [|by right]. eapply follows_weaken; [|exact Hrest]. sets. }
  destruct (IH _ f Hp Hf ltac:(lia) x o Hat) as (r & x1 & Hrun & Hm & Hat1 & Hr & Hlt). rewrite (bind_ok _ _ _ _ _ _ _ Hrun).
  assert (1 ≤ pipe_fuel p)%nat by (destruct p; cbn; lia).
  destruct (parse_backs_spec n f rest x1 r (pipe_tree p) o Hat1) as (r' & x2 & Hrun' & Hm' & Hat2 & Hr' & Hlt'); [|done|done|lia|].
  { by apply (follows_not (chars ")")); [sets|]. }
  rewrite (bind_ok _ _ _ _ _ _ _ Hrun'), (no_symbol _ rest) by (done || by apply (follows_not (chars ")")); [sets|]).
  exists r', x2. split_and!; [done|by apply (moved_trans _ x1)|done|done|done].
Qed.

Lemma parse_list p n l : pipe_parses p → line_parses l → line_parses (SList p n l).
Proof.
  intros IHp IHl rest fuel [Hp Hl] Hrest Hfu x o Hat. cbn [line_toks line_fuel line_tree] in *.
  rewrite <- !app_assoc in Hat. cbn [app] in Hat. destruct fuel as [|f]; [lia|]. cbn [parseline].
  assert (follows (chars ")&;") (replicate n (TSym 38) ++ TSym 59 :: line_toks l ++ rest)) as Hf by (right; by destruct n).
  destruct (IHp _ f Hp Hf ltac:(lia) x o Hat) as (r & x1 & Hrun & Hm & Hat1 & Hr & Hlt). rewrite (bind_ok _ _ _ _ _ _ _ Hrun).
  assert (1 ≤ pipe_fuel p)%nat by (destruct p; cbn; lia).
  destruct (parse_backs_spec n f _ x1 r _ o Hat1 eq_refl Hr Hlt ltac:(lia)) as (r2 & x2 & Hrun2 & Hm2 & Hat2 & Hr2 & Hlt2).
  rewrite (bind_ok _ _ _ _ _ _ _ Hrun2).
  destruct (skip_symbol (chars ";") 59 _ x2 o (let! r0 := parseline f in listcmd r2 r0) (ret r2) Hat2 eq_refl) as (x3 & -> & Hm3 & Hat3 & Hc3).
  destruct (IHl rest f Hl Hrest ltac:(lia) x3 o Hat3) as (r' & x4 & Hrun' & Hm4 & Hat4 & Hr' & Hlt').
  rewrite (bind_ok _ _ _ _ _ _ _ Hrun'). unfold listcmd. rewrite new_cmd_eq.
  pose proof (moved_trans _ _ _ Hm3 Hm4) as Hm34. eexists _, _. split_and!; [reflexivity| |done| |].
  - apply (moved_trans _ x1); [done|]. apply (moved_trans _ x2); [done|]. apply (moved_trans _ x4); [done|apply moved_new].
  - pose proof (moved_lt _ _ _ Hm34 Hlt2). apply (reps_list _ _ _ r2 r'); [apply new_cmd_at|done|done|apply (reps_new x4)|by apply (reps_new x4)].
    by apply (reps_moved x2).
  - cbn. rewrite length_app. cbn. lia.
Qed.

Lemma parses_all : (∀ e, exec_parses e) ∧ (∀ p, pipe_parses p) ∧ (∀ l, line_parses l).
Proof.
  apply syntax_ind.
  - intros rs args rest fuel. apply parseexec_simple.
  - intros l IH rs. by apply parse_block.
  - apply parse_one.
  - intros e IHe p IHp. by apply parse_pipe.
  - intros p IH n. by apply parse_line.
  - intros p IHp n l IHl. by apply parse_list.
Qed.

(** *** The whole line *)

Lemma redir_toks_ok rs : redirs_ok rs → Forall tok_ok (redir_toks rs).
Proof.
  induction 1 as [|[k w] rs Hw _ IH]; [constructor|]. change (redir_toks ((k, w) :: rs)) with
    ([match k with RIn => TSym 60 | ROut => TSym 62 | RAppend => TAppend end; TWord w] ++ redir_toks rs).
  apply Forall_app. split; [|done]. constructor; [by destruct k|]. constructor; [done|constructor].
Qed.

Lemma arg_toks_ok args : Forall (λ a, word_ok (fst a) ∧ redirs_ok (snd a)) args → Forall tok_ok (arg_toks args).
Proof.
  induction 1 as [|[w rr] args [Hw Hr] _ IH]; [constructor|].
  change (arg_toks ((w, rr) :: args)) with ((TWord w :: redir_toks rr) ++ arg_toks args).
  apply Forall_app. split; [|done]. constructor; [done|by apply redir_toks_ok].
Qed.

Lemma toks_ok :
  (∀ e, exec_ok e → Forall tok_ok (exec_toks e)) ∧ (∀ p, pipe_ok p → Forall tok_ok (pipe_toks p)) ∧
  (∀ l, line_ok l → Forall tok_ok (line_toks l)).
Proof.
  apply syntax_ind; cbn [exec_ok pipe_ok line_ok exec_toks pipe_toks line_toks].
  - intros rs args (H1 & H2 & _). apply Forall_app. split; [by apply redir_toks_ok|by apply arg_toks_ok].
  - intros l IH rs [Hl Hrs]. constructor; [done|]. apply Forall_app. split; [by apply IH|]. constructor; [done|by apply redir_toks_ok].
  - done.
  - intros e IHe p IHp [He Hp]. apply Forall_app. split; [by apply IHe|]. constructor; [done|by apply IHp].
  - intros p IH n Hp. apply Forall_app. split; [by apply IH|]. by apply Forall_replicate.
  - intros p IHp n l IHl [Hp Hl]. rewrite !Forall_app. split_and!; [by apply IHp|by apply Forall_replicate|]. constructor; [done|by apply IHl].
Qed.

Lemma fuel_toks :
  (∀ e, exec_fuel e ≤ 2 + 4 * length (exec_toks e))%nat ∧ (∀ p, pipe_fuel p ≤ 3 + 4 * length (pipe_toks p))%nat ∧
  (∀ l, line_fuel l ≤ 4 + 4 * length (line_toks l))%nat.
Proof.
  apply syntax_ind; intros; cbn [exec_fuel pipe_fuel line_fuel exec_toks pipe_toks line_toks length];
    rewrite ?length_app, ?length_replicate; cbn [length]; rewrite ?length_app, ?redir_toks_length; cbn [length];
    rewrite ?redir_toks_length; lia.
Qed.

Lemma show_length ts : Forall tok_ok ts → (2 * length ts ≤ length (show ts))%nat.
Proof.
  induction 1 as [|t ts Ht _ IH]; [done|]. rewrite show_cons, length_app. cbn [length].
  destruct (tok_first_ok t Ht) as (_ & _ & r & ->). cbn [length]. lia.
Qed.

Lemma parsecmd_show l o :
  line_ok l →
  ∃ r x, parsecmd o (Shell (show (line_toks l)) 0 []) = Ok r x o ∧ shows (sh_buf x) (sh_cmds x) r (line_tree l).
Proof.
  intros Hl. set (x0 := Shell (show (line_toks l)) 0 []). pose proof (proj2 (proj2 toks_ok) l Hl) as Hok.
  assert (line_fuel l ≤ 3 * length (show (line_toks l)) + 6)%nat as Hfu.
  { pose proof (proj2 (proj2 fuel_toks) l). pose proof (show_length _ Hok). lia. }
  destruct (proj2 (proj2 parses_all) l [] _ Hl (or_introl eq_refl) Hfu x0 o) as (r & x1 & Hrun & [Hb Hp] & Hat & Hr & Hlt).
  { rewrite app_nil_r. split; [split|]; [done|cbn; lia|done]. }
  unfold parsecmd. mrun. change (sh_buf x0) with (show (line_toks l)). rewrite (bind_ok _ _ _ _ _ _ _ Hrun).
  rewrite (bind_ok _ _ _ _ _ _ _ (peek_eq _ _ _ _ Hat)). mrun.
  assert (sh_s x1 = length (sh_buf x1)) as Hend.
  { destruct Hat as [[Hd Hle] _]. apply (f_equal length) in Hd. rewrite length_drop in Hd. cbn in Hd. lia. }
  rewrite Hend, Nat.eqb_refl. cbn [negb]. mrun.
  destruct (nulterminate_spec _ _ _ _ Hr (S (length (sh_cmds x1))) (sh_buf x1) (sh_s x1) o ltac:(lia) (terminated_refl _))
    as (buf' & Hn & Ht & Hs).
  destruct x1 as [b s cs]. cbn [sh_buf sh_s sh_cmds] in *. rewrite (bind_ok _ _ _ _ _ _ _ Hn).
  eexists r, _. split; [done|]. apply Hs, terminated_refl.
Qed.

(** [C12] Parsing undoes printing: for every command of the grammar, nested to any
    depth, with redirections anywhere and fewer than ten arguments, parsecmd
    of its text ends without an error and returns a command that is the one
    meant, every string of it terminated where its word ends although all
    strings still share the one line buffer. *)
Theorem parse_show l o :
  line_ok l →
  ∃ r x, parsecmd o (Shell (show (line_toks l)) 0 []) = Ok r x o ∧ shows (sh_buf x) (sh_cmds x) r (line_tree l).
Proof. apply parsecmd_show. Qed.

(** "( ls < in ; wc & ) > out | grep x >> log " *)
Definition demo_line : sline :=
  SLine (SPipe
    (SBlock
       (SList (SOne (SCmd [] [(chars "ls", [(RIn, chars "in")])])) 0
          (SLine (SOne (SCmd [] [(chars "wc", [])])) 1))
       [(ROut, chars "out")])
    (SOne (SCmd [] [(chars "grep", []); (chars "x", [(RAppend, chars "log")])]))) 0.

Lemma demo_line_ok : line_ok demo_line.
Proof.
  assert (∀ w, forallb word_char w && negb (bool_decide (w = [])) = true → word_ok w) as Hw.
  { intros w [H1 H2]%andb_true_iff. split; [by apply negb_true_iff, bool_decide_eq_false in H2|].
    apply Forall_forall. intros c Hc. rewrite forallb_forall in H1. by apply H1, list_elem_of_In. }
  cbn [demo_line line_ok pipe_ok exec_ok]. unfold redirs_ok.
  repeat match goal with
  | |- _ ∧ _ => split
  | |- Forall _ (snd _) => cbn [snd]
  | |- Forall _ [] => constructor
  | |- Forall _ (_ :: _) => constructor
  | |- word_ok _ => apply Hw; by vm_compute
  | |- (_ < _)%nat => apply Nat.ltb_lt; reflexivity
  end.
Qed.

Lemma parse_show_witness :
  show (line_toks demo_line) = chars "( ls < in ; wc & ) > out | grep x >> log " ∧
  ∃ r x, parsecmd [] (Shell (chars "( ls < in ; wc & ) > out | grep x >> log ") 0 []) = Ok r x [] ∧
    shows (sh_buf x) (sh_cmds x) r
      (TPipe (TRedir (TList (TRedir (TExec [chars "ls"]) (chars "in") 0 0) (TBack (TExec [chars "wc"]))) (chars "out") 0x201 1)
             (TRedir (TExec [chars "grep"; chars "x"]) (chars "log") 0x201 1)).
Proof.
  split; [by vm_compute|]. apply (parse_show demo_line []). exact demo_line_ok.
Defined.

(** The grammar's limits: a tenth word, a missing file name, and a
    parenthesis that is not closed are errors. *)
Lemma parse_errors :
  (∃ x, parsecmd [] (Shell (chars "a b c d e f g h i j") 0 []) = Panic "too many args" x) ∧
  (∃ x, parsecmd [] (Shell (chars "cat < ; ls") 0 []) = Panic "missing file for redirection" x) ∧
  (∃ x, parsecmd [] (Shell (chars "( ls") 0 []) = Panic "syntax - missing )" x) ∧
  (∃ x, parsecmd [] (Shell (chars "ls ) ;") 0 []) = Panic "syntax" x).
Proof. split_and!; eexists; vm_compute; reflexivity. Qed.
