(* ===== verification/Shrun.v ===== *)
(** * The shell's commands

    [runcmd] and [fork1] of [sh.c] as the system calls they make: a process is
    the tree of its calls, with the results it can get from them.  The
    descriptors of a process are a finite map, in which open, dup and pipe take
    the lowest free numbers as [fdalloc] does; whether an exec, an open or a fork
    succeeds is up to the world.  A fork runs two processes on copies of the
    descriptors, and a pipe is named after the process that made it. *)

From S2P Require Import Prelude Defs Kernel Cprintf Sh.

Inductive prog :=
  | PExit
  | PExec (argv : list (list Z)) (failed : prog)
  | PPrint (fd : nat) (s : list Z) (k : prog)
  | PClose (fd : nat) (k : prog)
  | POpen (file : list Z) (mode : Z) (k : option nat → prog)
  | PDup (fd : nat) (k : prog)
  | PPipe (k : option (nat * nat) → prog)
  | PFork (failed child parent : prog)
  | PWait (k : prog).

(** [panic(s)] of the shell. *)
Definition sh_panic (s : list Z) : prog := PPrint 2 (s ++ [10]) PExit.

(** [if(fork1() == 0) child; parent] *)
Definition fork1 (child parent : prog) : prog := PFork (sh_panic (chars "fork")) child parent.

(** Children were allocated before their parents, so that the number of the
    command is enough fuel. *)
Fixpoint runcmd (fuel : nat) (buf : list Z) (l : list cmd) (c : nat) : prog :=
  match fuel with
  | O => PExit
  | S f =>
      match l !! c with
      | None => PExit
      | Some (execcmd_ args) =>
          match map (λ a, string_at buf (fst a)) args with
          | [] => PExit
          | w :: ws => PExec (w :: ws) (PPrint 2 (chars "exec " ++ w ++ chars " failed" ++ [10]) PExit)
          end
      | Some (redircmd_ c q _ mode fd) =>
          PClose (Z.to_nat fd)
            (POpen (string_at buf q) mode (λ r,
               match r with
               | None => PPrint 2 (chars "open " ++ string_at buf q ++ chars " failed" ++ [10]) PExit
               | Some _ => runcmd f buf l c
               end))
      | Some (listcmd_ a b) =>
          fork1 (runcmd f buf l a) (PWait (runcmd f buf l b))
      | Some (pipecmd_ a b) =>
          PPipe (λ r,
            match r with
            | None => sh_panic (chars "pipe")
            | Some (p0, p1) =>
                fork1 (PClose 1 (PDup p1 (PClose p0 (PClose p1 (runcmd f buf l a)))))
                  (fork1 (PClose 0 (PDup p0 (PClose p0 (PClose p1 (runcmd f buf l b)))))
                     (PClose p0 (PClose p1 (PWait (PWait PExit)))))
            end)
      | Some (backcmd_ c) => fork1 (runcmd f buf l c) PExit
      end
  end.

(** ** What processes do *)

Inductive fobj := FFile (name : list Z) (mode : Z) | FPipeR (id : list bool) | FPipeW (id : list bool) | FOther (n : Z).
Notation fds := (gmap nat fobj).

(** What a process does, in order: it prints, starts a child that does its own
    things, waits for a child with the descriptors [f] open, and at last becomes
    another program or exits. *)
Inductive event :=
  | Ran (argv : list (list Z)) (f : fds)
  | Printed (on : option fobj) (s : list Z)
  | Forked (child : list event)
  | Waited (f : fds)
  | Exited.

Section World.
(** [w_fork id]: whether the next fork of process [id] succeeds. *)
Context (w_exec : list (list Z) → bool) (w_open : list Z → Z → bool) (w_fork : list bool → bool).

Definition first_free (f : fds) : option nat := find (λ i, bool_decide (f !! i = None)) (seq 0 16).

Fixpoint events (p : prog) (id : list bool) (f : fds) : list event :=
  match p with
  | PExit => [Exited]
  | PExec argv failed => if w_exec argv then [Ran argv f] else events failed id f
  | PPrint fd s k => Printed (f !! fd) s :: events k id f
  | PClose fd k => events k id (delete fd f)
  | POpen file mode k =>
      match (if w_open file mode then first_free f else None) with
      | None => events (k None) id f
      | Some i => events (k (Some i)) id (<[i := FFile file mode]> f)
      end
  | PDup fd k =>
      match f !! fd, first_free f with
      | Some x, Some i => events k id (<[i := x]> f)
      | _, _ => events k id f
      end
  | PPipe k =>
      match first_free f with
      | None => events (k None) id f
      | Some i =>
          match first_free (<[i := FPipeR id]> f) with
          | None => events (k None) id f
          | Some j => events (k (Some (i, j))) id (<[j := FPipeW id]> (<[i := FPipeR id]> f))
          end
      end
  | PFork failed child parent =>
      if w_fork id then Forked (events child (false :: id) f) :: events parent (true :: id) f
      else events failed id f
  | PWait k => Waited f :: events k id f
  end.

(** ** What commands mean *)

(** The shell's last words. *)
Definition dies (f : fds) (s : list Z) : list event := [Printed (f !! 2%nat) (s ++ [10]); Exited].

(** A command with the descriptors [f]: a simple command runs with them; a
    redirection replaces one; the two sides of a pipe are children whose output
    and input it connects, for which the process waits with neither end open; of
    two commands in sequence the first is a child to wait for, and a command in
    the background a child that is not waited for. *)
Fixpoint meaning (t : tree) (id : list bool) (f : fds) : list event :=
  match t with
  | TExec [] => [Exited]
  | TExec (w :: ws) => if w_exec (w :: ws) then [Ran (w :: ws) f] else dies f (chars "exec " ++ w ++ chars " failed")
  | TRedir t file mode fd =>
      if w_open file mode then meaning t id (<[Z.to_nat fd := FFile file mode]> f)
      else dies f (chars "open " ++ file ++ chars " failed")
  | TPipe t1 t2 =>
      if w_fork id then
        Forked (meaning t1 (false :: id) (<[1%nat := FPipeW id]> f)) ::
        if w_fork (true :: id) then
          [Forked (meaning t2 (false :: true :: id) (<[0%nat := FPipeR id]> f)); Waited f; Waited f; Exited]
        else dies f (chars "fork")
      else dies f (chars "fork")
  | TList t1 t2 =>
      if w_fork id then Forked (meaning t1 (false :: id) f) :: Waited f :: meaning t2 (true :: id) f
      else dies f (chars "fork")
  | TBack t => if w_fork id then [Forked (meaning t (false :: id) f); Exited] else dies f (chars "fork")
  end.

(** Redirections are of the standard input and output. *)
Fixpoint plain (t : tree) : Prop :=
  match t with
  | TExec _ => True
  | TRedir t _ _ fd => (fd = 0 ∨ fd = 1) ∧ plain t
  | TPipe t1 t2 | TList t1 t2 => plain t1 ∧ plain t2
  | TBack t => plain t
  end.

(** Standard input, output and error are open, and two descriptors are free. *)
Definition ready (f : fds) : Prop :=
  (∀ k, (k < 3)%nat → is_Some (f !! k)) ∧
  ∃ i j, i ≠ j ∧ (i < 16)%nat ∧ (j < 16)%nat ∧ f !! i = None ∧ f !! j = None.

Lemma first_free_some f i : first_free f = Some i → f !! i = None ∧ (i < 16)%nat.
Proof. intros H. apply find_some in H as [H1%in_seq H2%bool_decide_eq_true]. split; [done|lia]. Qed.
Lemma first_free_exists f i : f !! i = None → (i < 16)%nat → ∃ j, first_free f = Some j.
Proof.
  intros Hf Hi. unfold first_free. destruct (find _ _) as [j|] eqn:E; [by exists j|].
  pose proof (find_none _ _ E i ltac:(apply in_seq; lia)) as H. by apply bool_decide_eq_false in H.
Qed.
(** The lowest descriptor, just closed, is the one that is taken. *)
Lemma first_free_std f fd : (fd < 2)%nat → is_Some (f !! 0%nat) → first_free (delete fd f) = Some fd.
Proof.
  intros Hfd [x0 H0]. unfold first_free. cbn [seq find].
  assert (fd = 0 ∨ fd = 1)%nat as [->| ->] by lia.
  - by rewrite lookup_delete_eq, bool_decide_true.
  - rewrite lookup_delete_ne, H0, bool_decide_false by done. by rewrite lookup_delete_eq, bool_decide_true.
Qed.

Lemma ready_insert f fd x : (fd < 2)%nat → ready f → ready (<[fd := x]> f).
Proof.
  intros Hfd [Hstd (i & j & Hij & Hi & Hj & Hfi & Hfj)]. split.
  - intros k Hk. destruct (decide (fd = k)) as [->|]; [by rewrite lookup_insert_eq|]. rewrite lookup_insert_ne by done. by apply Hstd.
  - assert (∀ k, f !! k = None → fd ≠ k) as Hne by (intros k Hk ->; destruct (Hstd k ltac:(lia)); congruence).
    exists i, j. rewrite !lookup_insert_ne by auto. done.
Qed.

Lemma pipe_slots f id :
  ready f → ∃ i j, first_free f = Some i ∧ first_free (<[i := FPipeR id]> f) = Some j ∧
    f !! i = None ∧ f !! j = None ∧ i ≠ j ∧ (2 < i)%nat ∧ (2 < j)%nat.
Proof.
  intros [Hstd (a & b & Hab & Ha & Hb & Hfa & Hfb)]. destruct (first_free_exists f a Hfa Ha) as [i Hi].
  pose proof (first_free_some _ _ Hi) as [Hfi Hi16].
  assert (∃ c, c ≠ i ∧ (c < 16)%nat ∧ f !! c = None) as (c & Hci & Hc & Hfc).
  { destruct (decide (a = i)) as [->|]; [exists b|exists a]; auto. }
  destruct (first_free_exists (<[i := FPipeR id]> f) c) as [j Hj]; [by rewrite lookup_insert_ne|done|].
  pose proof (first_free_some _ _ Hj) as [Hfj Hj16].
  assert (i ≠ j) as Hij by (intros ->; by rewrite lookup_insert_eq in Hfj). rewrite lookup_insert_ne in Hfj by done.
  assert (∀ k, f !! k = None → 2 < k)%nat as H3.
  { intros k Hk. destruct (decide (k < 3)%nat) as [Hlt|]; [|lia]. destruct (Hstd k Hlt). congruence. }
  exists i, j. split_and!; auto.
Qed.

(** After [close(fd); dup(p); close(p0); close(p1)] only [fd] has changed. *)
Lemma plumbing (f : fds) i j fd x a b :
  f !! i = None → f !! j = None → fd ≠ i → fd ≠ j →
  delete j (delete i (<[fd := x]> (delete fd (<[j := a]> (<[i := b]> f))))) = <[fd := x]> f.
Proof.
  intros Hi Hj Hfi Hfj. apply map_eq. intros k. destruct (decide (k = j)) as [->|]; [by rewrite lookup_delete_eq, lookup_insert_ne|].
  rewrite lookup_delete_ne by done. destruct (decide (k = i)) as [->|]; [by rewrite lookup_delete_eq, lookup_insert_ne|].
  rewrite lookup_delete_ne by done. destruct (decide (k = fd)) as [->|]; [by rewrite !lookup_insert_eq|].
  by rewrite lookup_insert_ne, lookup_delete_ne, !lookup_insert_ne by done.
Qed.

(** Both ends closed again. *)
Lemma unplumbed (f : fds) i j a b :
  f !! i = None → f !! j = None → i ≠ j → delete j (delete i (<[j := a]> (<[i := b]> f))) = f.
Proof.
  intros Hi Hj Hij. rewrite delete_insert_ne, delete_insert_eq, delete_insert_eq by done. rewrite (delete_id f i), delete_id by done. done.
Qed.

(** The calls of runcmd are what the command means. *)
Lemma runcmd_meaning buf l c t fuel id f :
  shows buf l c t → plain t → ready f → (c < fuel)%nat →
  events (runcmd fuel buf l c) id f = meaning t id f.
Proof.
  intros Hs. revert fuel id f.
  induction Hs as [c args Hc|c c' q eq mode fd t Hc Hlt _ IH|c a b t1 t2 Hc Ha Hb _ IH1 _ IH2
    |c a b t1 t2 Hc Ha Hb _ IH1 _ IH2|c c' t Hc Hlt _ IH]; intros [|fuel] id f Hp Hr Hfu; try lia; cbn [runcmd]; rewrite Hc.
  - destruct (map _ args) as [|w ws]; [done|]. cbn [events meaning]. destruct (w_exec _); [done|]. unfold dies. by rewrite <- !app_assoc.
  - destruct Hp as [Hfd Hp]. cbn [events meaning]. destruct (w_open _ mode).
    + rewrite first_free_std; [|destruct Hfd as [->| ->]; cbn; lia|by apply Hr; lia].
      rewrite insert_delete_eq, IH; [done|done| |lia]. apply ready_insert; [|done]. destruct Hfd as [->| ->]; cbn; lia.
    + cbn [events]. rewrite lookup_delete_ne by (destruct Hfd as [->| ->]; cbn; lia). unfold dies. by rewrite <- !app_assoc.
  - destruct Hp as [Hp1 Hp2]. destruct (pipe_slots f id Hr) as (i & j & Hi & Hj & Hfi & Hfj & Hij & H3i & H3j).
    cbn [events meaning fork1]. rewrite Hi, Hj. cbn [events fork1 sh_panic].
    assert (is_Some ((<[j := FPipeW id]> (<[i := FPipeR id]> f)) !! 0%nat)) as H0 by (rewrite !lookup_insert_ne by lia; apply Hr; lia).
    assert ((<[j := FPipeW id]> (<[i := FPipeR id]> f)) !! 2%nat = f !! 2%nat) as H2 by (by rewrite !lookup_insert_ne by lia).
    rewrite H2. fold (dies f (chars "fork")). destruct (w_fork id); [|done].
    rewrite (lookup_delete_ne _ 1%nat j), (lookup_delete_ne _ 0%nat i), lookup_insert_eq by lia.
    rewrite lookup_insert_ne, lookup_insert_eq, !first_free_std by (done || lia).
    rewrite !plumbing, unplumbed by (done || lia). rewrite IH1, IH2; try done; try lia; by apply ready_insert; [lia|].
  - destruct Hp as [Hp1 Hp2]. cbn [events meaning fork1 sh_panic]. destruct (w_fork id); [|done]. by rewrite IH1, IH2 by (done || lia).
  - cbn [events meaning fork1 sh_panic]. destruct (w_fork id); [|done]. by rewrite IH by (done || lia).
Qed.

Lemma plain_wrap rs t : plain t → plain (wrap t rs).
Proof.
  revert t. induction rs as [|[k w] rs IH]; intros t Ht; [done|]. unfold wrap. cbn [foldl]. apply IH. destruct k; cbn; auto.
Qed.
Lemma plain_backs n t : plain t → plain (Nat.iter n TBack t).
Proof. induction n; cbn; auto. Qed.
Lemma plain_syntax :
  (∀ e, plain (exec_tree e)) ∧ (∀ p, plain (pipe_tree p)) ∧ (∀ l, plain (line_tree l)).
Proof.
  apply syntax_ind; intros; cbn [exec_tree pipe_tree line_tree plain]; auto using plain_wrap, plain_backs.
  by apply plain_wrap.
Qed.

(** [C10] A command line, from its text to the processes that run it: a line of the
    grammar, with fewer than ten arguments to a command, is parsed without an
    error, and running it in a process with the three standard descriptors open and
    two descriptors free makes exactly the processes and calls that it means.  Each
    program starts with the descriptors that its redirections and pipes ask for and no others but those that were open, the ends of a pipe being
    closed everywhere else, also in the process that made the pipe, before it waits
    for the two sides; of commands in sequence each is waited for, and a
    command in the background is not.  A program or a file that does not exist, and
    a fork that fails, end their process with a message on the standard error. *)
Theorem shell_runs l o id f :
  line_ok l → ready f →
  ∃ r x, parsecmd o (Shell (show (line_toks l)) 0 []) = Ok r x o ∧
    events (runcmd (S r) (sh_buf x) (sh_cmds x) r) id f = meaning (line_tree l) id f.
Proof.
  intros Hl Hf. destruct (parsecmd_show l o Hl) as (r & x & Hp & Hs). exists r, x. split; [done|].
  apply runcmd_meaning; [done|apply plain_syntax|done|lia].
Qed.
End World.

(** ** "( ls < in ; wc & ) > out | grep x >> log " *)

Definition demo_fds : fds := <[0%nat := FOther 0]> (<[1%nat := FOther 1]> (<[2%nat := FOther 2]> ∅)).

Lemma shell_runs_witness :
  ∃ r x, parsecmd [] (Shell (chars "( ls < in ; wc & ) > out | grep x >> log ") 0 []) = Ok r x [] ∧
    events (λ _, true) (λ _ _, true) (λ _, true) (runcmd (S r) (sh_buf x) (sh_cmds x) r) [] demo_fds =
      let out := <[1%nat := FFile (chars "out") 0x201]> (<[1%nat := FPipeW []]> demo_fds) in
      [Forked [Forked [Ran [chars "ls"] (<[0%nat := FFile (chars "in") 0]> out)];
               Waited out;
               Forked [Ran [chars "wc"] out];
               Exited];
       Forked [Ran [chars "grep"; chars "x"] (<[1%nat := FFile (chars "log") 0x201]> (<[0%nat := FPipeR []]> demo_fds))];
       Waited demo_fds;
       Waited demo_fds;
       Exited].
Proof.
  apply (shell_runs (λ _, true) (λ _ _, true) (λ _, true) demo_line [] [] demo_fds demo_line_ok). split.
  - intros [|[|[|k]]] Hk; [by eexists..|lia].
  - exists 3%nat, 4%nat. by split_and!; [|lia|lia| |].
Defined.
