(* ===== verification/Uprog.v ===== *)
(** * Formatted output and counting in user programs

    [printf] of [printf.c], and the counting of [wc.c] on the bytes of a buffer.
    The programs themselves, with their system calls, are in [Ucmd]. *)

From S2P Require Import Prelude Defs CString Kernel Cprintf Grep.

(** ** printf.c *)

(** [printint] of printf.c: as the kernel's, with capital digits. *)
Definition uprintint (xx base : Z) (sgn : bool) : list Z := int_chars true xx base sgn.

(** One conversion: what it writes and the arguments left.  None: an argument
    is missing or of the wrong kind. *)
Definition convert (c : Z) (args : list carg) : option (list Z * list carg) :=
  if c =? 100 then
    match args with Aint v :: a => Some (uprintint (i32 v) 10 true, a) | _ => None end
  else if (c =? 120) || (c =? 112) then
    match args with Aint v :: a => Some (uprintint (i32 v) 16 false, a) | _ => None end
  else if c =? 115 then
    match args with
    | Astr (Some s) :: a => Some (s, a)
    | Astr None :: a => Some (chars "(null)", a)
    | _ => None
    end
  else if c =? 99 then
    match args with Aint v :: a => Some ([u8 v], a) | _ => None end
  else if c =? 37 then Some ([37], args)
  else Some ([37; c], args).

(** [state] is true after a percent sign. *)
Fixpoint printf_loop (fmt : list Z) (state : bool) (args : list carg) : option (list Z) :=
  match fmt with
  | [] => Some []
  | c :: fmt' =>
      if negb state then
        if c =? 37 then printf_loop fmt' true args
        else r ← printf_loop fmt' false args; Some (c :: r)
      else
        '(out, args) ← convert c args;
        r ← printf_loop fmt' false args;
        Some (out ++ r)
  end.
Definition printf (fmt : list Z) (args : list carg) : option (list Z) := printf_loop fmt false args.

(** ** wc.c *)

Record counts := Counts { n_l : Z; n_w : Z; n_c : Z; inword : bool }.

Definition wc_byte (x : counts) (b : Z) : counts :=
  let c := i32 (n_c x + 1) in
  let l := if b =? 10 then i32 (n_l x + 1) else n_l x in
  if existsb (Z.eqb b) [32; 13; 9; 10; 11] then Counts l (n_w x) c false
  else if negb (inword x) then Counts l (i32 (n_w x + 1)) c true
  else Counts l (n_w x) c true.

(** ** Counting *)

Definition blank (b : Z) : bool := existsb (Z.eqb b) [32; 13; 9; 10; 11].

(** The words of a text: a word starts at a byte that is not blank behind one
    that is, or at the beginning. *)
Fixpoint count_words (prev : bool) (text : list Z) : nat :=
  match text with
  | [] => O
  | b :: text' => ((if prev && negb (blank b) then 1 else 0) + count_words (blank b) text')%nat
  end.
Definition newlines (text : list Z) : nat := length (filter (λ b, b = 10) text).

Lemma newlines_cons b text : newlines (b :: text) = ((if (b =? 10)%Z then 1 else 0) + newlines text)%nat.
Proof. unfold newlines. rewrite filter_cons. destruct (Z.eqb_spec b 10); by case_decide. Qed.

Lemma count_words_le prev text : (count_words prev text ≤ length text)%nat.
Proof.
  revert prev. induction text as [|b text IH]; intros prev; [done|]. cbn [count_words length].
  specialize (IH (blank b)). destruct (prev && negb (blank b)); lia.
Qed.

Lemma wc_byte_spec x b :
  0 ≤ n_l x < 2147483647 → 0 ≤ n_w x < 2147483647 → 0 ≤ n_c x < 2147483647 →
  n_l (wc_byte x b) = n_l x + (if b =? 10 then 1 else 0) ∧
  n_w (wc_byte x b) = n_w x + (if negb (inword x) && negb (blank b) then 1 else 0) ∧
  n_c (wc_byte x b) = n_c x + 1 ∧ inword (wc_byte x b) = negb (blank b).
Proof.
  intros Hl Hw Hc. unfold wc_byte. fold (blank b).
  assert (∀ v, 0 ≤ v < 2147483647 → i32 (v + 1) = v + 1) as Hi by (intros; unfold i32; dlia). rewrite !Hi by done.
  destruct (b =? 10), (blank b), (inword x); cbn; lia.
Qed.

Lemma wc_bytes text x :
  0 ≤ n_l x → 0 ≤ n_w x → 0 ≤ n_c x →
  n_l x + Z.of_nat (length text) < 2147483648 → n_w x + Z.of_nat (length text) < 2147483648 →
  n_c x + Z.of_nat (length text) < 2147483648 →
  n_l (foldl wc_byte x text) = n_l x + Z.of_nat (newlines text) ∧
  n_w (foldl wc_byte x text) = n_w x + Z.of_nat (count_words (negb (inword x)) text) ∧
  n_c (foldl wc_byte x text) = n_c x + Z.of_nat (length text).
Proof.
  revert x. induction text as [|b text IH]; intros x Hl Hw Hc Bl Bw Bc; [cbn; lia|].
  cbn [foldl length count_words] in *. rewrite newlines_cons.
  destruct (wc_byte_spec x b ltac:(lia) ltac:(lia) ltac:(lia)) as (E1 & E2 & E3 & E4).
  destruct (IH (wc_byte x b)) as (I1 & I2 & I3); rewrite ?E1, ?E2, ?E3; try (case_tests; lia).
  rewrite I1, I2, I3, E1, E2, E3, E4, negb_involutive.
  destruct (b =? 10), (negb (inword x) && negb (blank b)); lia.
Qed.

(** The chunks a program reads do not matter to what it has read. *)
Lemma read_some_concat n s :
  0 < n → Forall (λ c, c ≠ []) s →
  let r := read_some n s in
  concat s = r.1 ++ concat r.2 ∧ Forall (λ c, c ≠ []) r.2 ∧ (r.1 = [] → s = []).
Proof.
  intros Hn Hs. destruct Hs as [|c s Hc Hs]; [done|]. cbn [read_some fst snd concat].
  assert (take (Z.to_nat n) c ≠ []) as Hne.
  { destruct c as [|b c]; [done|]. destruct (Z.to_nat n) eqn:E; [lia|]. done. }
  destruct (drop (Z.to_nat n) c) as [|d r] eqn:E.
  - split_and!; [|done|done]. by rewrite <- (take_drop (Z.to_nat n) c) at 1; rewrite E, app_nil_r.
  - split_and!; [|by constructor|done]. cbn [concat]. by rewrite app_assoc, <- E, take_drop.
Qed.

Lemma printf_counts l w c name :
  printf (chars "%d %d %d %s" ++ [10]) [Aint l; Aint w; Aint c; Astr (Some name)] =
  Some (int_chars true (i32 l) 10 true ++ [32] ++ int_chars true (i32 w) 10 true ++ [32] ++
        int_chars true (i32 c) 10 true ++ [32] ++ name ++ [10]).
Proof. reflexivity. Qed.
