(* ===== verification/Ucmd.v ===== *)
(** * Commands

    The user programs as processes: what they ask of the kernel, call by call.  A
    program is an interaction tree whose events are system calls ([sysE]); a loop
    that may run forever is an iteration of the tree, without fuel.  exit() ends a
    program: a function that may call it says in its result whether it returned.

    [handle] is the kernel as far as such a program can see it: files by name, the
    descriptors, the bytes written, and for the calls that only have an effect
    elsewhere (fork, wait, mkdir, ...) the answers they get, in order, with a record
    of the calls made.  Every descriptor has an offset of its own, and open finds
    the files that there are.  [t @ w ⇓ r @ w'] says that program [t], started in world [w],
    ends with result [r] in world [w']. *)

From ITree Require Import ITree ITreeFacts Events.State Events.StateFacts.
From S2P Require Import Prelude Defs Bytes CString Kernel Cprintf Fs Grep Syscall Uprog Sh Shrun.

(** ** System calls *)

(** Calls whose answer is all the caller sees of them. *)
Inductive ucall :=
  | CFork | CWait | CExec (path : list Z) (argv : list (list Z)) | CSleep (n : Z) | CKill (pid : Z)
  | CMkdir (path : list Z) | CMknod (path : list Z) (major minor : Z) | CUnlink (path : list Z)
  | CLink (old new : list Z) | CChdir (path : list Z).

Variant sysE : Type → Type :=
  | Open (path : list Z) (mode : Z) : sysE Z
  | Close (fd : Z) : sysE Z
  | Read (fd n : Z) : sysE (option (list Z))  (* None: -1 *)
  | Write (fd : Z) (bs : list Z) : sysE Z
  | Fstat (fd : Z) : sysE (option stat_t)
  | Dup (fd : Z) : sysE Z
  | Pipe : sysE (option (Z * Z))
  | Call (c : ucall) : sysE Z.
Notation process := (itree sysE).
Notation trigger := ITree.trigger.

Declare Scope user_scope.
Delimit Scope user_scope with U.
Notation "'let*' x := t 'in' k" := (ITree.bind t (λ x, k)) (at level 10, x binder, t at level 100, k at level 200) : user_scope.
Notation "t ;*; k" := (ITree.bind t (λ _, k)) (at level 100, k at level 200, right associativity) : user_scope.
Local Open Scope user_scope.

(** ** The world *)

Record ufile := UFile { uf_stat : stat_t; uf_data : list (list Z) }.
Record world := World {
  w_files : gmap (list Z) ufile;
  w_fds : gmap Z ufile;  (* with what is still to be read *)
  w_out : list (Z * Z);  (* the bytes written, with their descriptors *)
  w_answers : list Z;
  w_calls : list (ucall * Z)
}.

Definition fd_free (f : gmap Z ufile) : option Z := find (λ i, bool_decide (f !! i = None)) (seqZ 0 16).

Definition set_fds (f : gmap Z ufile) (w : world) : world := World (w_files w) f (w_out w) (w_answers w) (w_calls w).
Definition wrote_to (fd : Z) (bs : list Z) (w : world) : world :=
  World (w_files w) (w_fds w) (w_out w ++ map (pair fd) bs) (w_answers w) (w_calls w).
Definition answered (c : ucall) (w : world) : world * Z :=
  match w_answers w with
  | [] => (World (w_files w) (w_fds w) (w_out w) [] (w_calls w ++ [(c, -1)]), -1)
  | a :: l => (World (w_files w) (w_fds w) (w_out w) l (w_calls w ++ [(c, a)]), a)
  end.

Definition handle_open (path : list Z) (w : world) : world * Z :=
  match w_files w !! path, fd_free (w_fds w) with
  | Some f, Some fd => (set_fds (<[fd := f]> (w_fds w)) w, fd)
  | _, _ => (w, -1)
  end.
Definition handle_read (fd n : Z) (w : world) : world * option (list Z) :=
  match w_fds w !! fd with
  | None => (w, None)
  | Some f =>
      let r := read_some n (uf_data f) in
      (set_fds (<[fd := UFile (uf_stat f) r.2]> (w_fds w)) w, Some r.1)
  end.

Definition handle_dup (fd : Z) (w : world) : world * Z :=
  match w_fds w !! fd, fd_free (w_fds w) with
  | Some f, Some i => (set_fds (<[i := f]> (w_fds w)) w, i)
  | _, _ => (w, -1)
  end.
Definition handle_pipe (w : world) : world * option (Z * Z) :=
  let f0 := UFile (Stat 0 0 0 0 0) [] in
  match fd_free (w_fds w) with
  | None => (w, None)
  | Some i =>
      match fd_free (<[i := f0]> (w_fds w)) with
      | None => (w, None)
      | Some j => (set_fds (<[j := f0]> (<[i := f0]> (w_fds w))) w, Some (i, j))
      end
  end.

Definition handle {T} (e : sysE T) : world → world * T :=
  match e with
  | Open path _ => handle_open path
  | Close fd => λ w, (set_fds (delete fd (w_fds w)) w, match w_fds w !! fd with Some _ => 0 | None => -1 end)
  | Read fd n => handle_read fd n
  | Write fd bs => λ w, (wrote_to fd bs w, Z.of_nat (length bs))
  | Fstat fd => λ w, (w, uf_stat <$> w_fds w !! fd)
  | Dup fd => handle_dup fd
  | Pipe => handle_pipe
  | Call c => answered c
  end.

Definition handler : sysE ~> Monads.stateT world (itree void1) := λ T e w, Ret (handle e w).

(** The program as the world's process. *)
Definition meets {R} (t : process R) (w : world) : itree void1 (world * R) := interp_state handler t w.
Notation "t @ w ⇓ r @ w'" := (meets t w ≈ Ret (w', r)) (at level 70, w at level 60, r at level 60, w' at level 60).

(** ** Running programs *)

Lemma runs_ret {R} (r : R) w : Ret r @ w ⇓ r @ w.
Proof. unfold meets. by rewrite interp_state_ret. Qed.

Lemma runs_bind {A R} (t : process A) (k : A → process R) w a w' :
  t @ w ⇓ a @ w' → meets (ITree.bind t k) w ≈ meets (k a) w'.
Proof. unfold meets. intros H. rewrite interp_state_bind, H, bind_ret_l. done. Qed.

Lemma runs_call {T} (e : sysE T) w : trigger e @ w ⇓ (handle e w).2 @ (handle e w).1.
Proof. unfold meets. rewrite interp_state_trigger. unfold handler. by destruct (handle e w). Qed.

Lemma runs_call_bind {T R} (e : sysE T) (k : T → process R) w :
  meets (ITree.bind (trigger e) k) w ≈ meets (k (handle e w).2) (handle e w).1.
Proof. apply runs_bind, runs_call. Qed.

Lemma meets_bind_assoc {A B R} (t : process A) (k : A → process B) (h : B → process R) w :
  meets (ITree.bind (ITree.bind t k) h) w ≈ meets (ITree.bind t (λ x, ITree.bind (k x) h)) w.
Proof. unfold meets. by rewrite bind_bind. Qed.

(** One turn of a loop. *)
Lemma runs_iter_again {I R} (body : I → process (I + R)) i w i' w' :
  body i @ w ⇓ inl i' @ w' → meets (ITree.iter body i) w ≈ meets (ITree.iter body i') w'.
Proof.
  unfold meets. intros H. rewrite unfold_iter, interp_state_bind, H, bind_ret_l. cbn.
  by rewrite interp_state_tau, tau_eutt.
Qed.
Lemma runs_iter_done {I R} (body : I → process (I + R)) i w r w' :
  body i @ w ⇓ inr r @ w' → ITree.iter body i @ w ⇓ r @ w'.
Proof. unfold meets. intros H. rewrite unfold_iter, interp_state_bind, H, bind_ret_l. cbn. by rewrite interp_state_ret. Qed.

(** A last turn that ends as another program does. *)
Lemma runs_iter_last {I} (body : I → process (I + unit)) i w (t : process unit) w' :
  meets (body i) w ≈ meets (t ;*; Ret (inr tt)) w' → meets (ITree.iter body i) w ≈ meets t w'.
Proof.
  unfold meets. intros H. rewrite unfold_iter, interp_state_bind, H, interp_state_bind, bind_bind.
  rewrite <- (bind_ret_r (interp_state handler t w')) at 2. apply eutt_eq_bind. intros [w2 []]. cbn.
  pose proof (runs_ret (inr tt : I + unit) w2) as Hr. unfold meets in Hr. rewrite Hr, bind_ret_l. apply (runs_ret tt w2).
Qed.

(** ** The user library *)

(** [printf] writes one character at a time; a format whose arguments do not fit it
    does not occur. *)
Fixpoint put_chars (fd : Z) (l : list Z) : process unit :=
  match l with
  | [] => Ret tt
  | c :: l' => trigger (Write fd [c]) ;*; put_chars fd l'
  end.
Definition uprintf (fd : Z) (fmt : list Z) (args : list carg) : process unit :=
  match printf fmt args with
  | Some out => put_chars fd out
  | None => Ret tt
  end.

(** The bytes gets stores before the NUL, with [n] places left. *)
Fixpoint gets_loop (n : nat) : process (list Z) :=
  match n with
  | O => Ret []
  | S n' =>
      let* r := trigger (Read 0 1) in
      match r with
      | Some (c :: _) =>
          if (c =? 10) || (c =? 13) then Ret [c]
          else let* l := gets_loop n' in Ret (c :: l)
      | _ => Ret []
      end
  end.
Definition gets (max : Z) : process (list Z) := gets_loop (Z.to_nat (max - 1)).

Definition stat (path : list Z) : process (option stat_t) :=
  let* fd := trigger (Open path O_RDONLY) in
  if fd <? 0 then Ret None
  else
    let* r := trigger (Fstat fd) in
    trigger (Close fd) ;*;
    Ret r.

Fixpoint atoi_from (s : list Z) (n : Z) : Z :=
  match s with
  | [] => n
  | c :: s' => if (48 <=? i8 c) && (i8 c <=? 57) then atoi_from s' (i32 (n * 10 + i8 c - 48)) else n
  end.
Definition uatoi (s : list Z) : Z := atoi_from s 0.

(** ** cat.c, wc.c, grep.c

    false: the program has called exit. *)

Definition cat (fd : Z) : process bool :=
  ITree.iter (λ _ : unit,
    let* r := trigger (Read fd 512) in
    match r with
    | None => uprintf 1 (chars "cat: read error" ++ [10]) [] ;*; Ret (inr false)
    | Some [] => Ret (inr true)
    | Some buf =>
        let* n := trigger (Write 1 buf) in
        if negb (n =? Z.of_nat (length buf)) then
          uprintf 1 (chars "cat: write error" ++ [10]) [] ;*; Ret (inr false)
        else Ret (inl tt)
    end) tt.

Definition wc_body (fd : Z) (name : list Z) (x : counts) : process (counts + bool) :=
  let* r := trigger (Read fd 512) in
  match r with
  | None => uprintf 1 (chars "wc: read error" ++ [10]) [] ;*; Ret (inr false)
  | Some [] =>
      uprintf 1 (chars "%d %d %d %s" ++ [10]) [Aint (n_l x); Aint (n_w x); Aint (n_c x); Astr (Some name)] ;*;
      Ret (inr true)
  | Some buf => Ret (inl (foldl wc_byte x buf))
  end.
Definition wc (fd : Z) (name : list Z) : process bool := ITree.iter (wc_body fd name) (Counts 0 0 0 false).

(** The lines in the buffer from [p] on.  None does not happen: the buffer holds a
    NUL and has 1024 bytes. *)
Fixpoint write_lines (fuel : nat) (pattern : list Z) (m : memory) (p : Z) : process (option (memory * Z)) :=
  match fuel with
  | O => Ret None
  | S f =>
      match strchr 1024 m p 10 with
      | None => Ret None
      | Some q =>
          if q =? 0 then Ret (Some (m, p))
          else
            let m := st8 m q 0 in
            if match_ pattern (cprefix m p 1024) then
              let m := st8 m q 10 in
              trigger (Write 1 (get_bytes m p (q + 1 - p))) ;*;
              write_lines f pattern m (q + 1)
            else write_lines f pattern m (q + 1)
      end
  end.

(** [buf] is the address of the buffer and [mem] the memory when grep is called;
    the result is the memory it leaves. *)
Definition grep_body (buf : Z) (pattern : list Z) (fd : Z) (x : memory * Z) : process (memory * Z + option memory) :=
  let (mem, m) := x in
  let* r := trigger (Read fd (1024 - m - 1)) in
  match r with
  | None | Some [] => Ret (inr (Some mem))
  | Some data =>
      let mem := put_bytes mem (buf + m) data in
      let m := m + Z.of_nat (length data) in
      let mem := st8 mem (buf + m) 0 in
      let* r := write_lines 1024 pattern mem buf in
      match r with
      | None => Ret (inr None)
      | Some (mem, p) =>
          let m := if p =? buf then 0 else m in
          if 0 <? m then
            let m := m - (p - buf) in
            Ret (inl (umemmove mem buf p m, m))
          else Ret (inl (mem, m))
      end
  end.
Definition ugrep (buf : Z) (pattern : list Z) (fd : Z) (mem : memory) : process (option memory) :=
  ITree.iter (grep_body buf pattern fd) (mem, 0).

(** ** The main functions: [args] are the arguments after the program's name *)

Fixpoint cat_files (args : list (list Z)) : process unit :=
  match args with
  | [] => Ret tt
  | a :: args' =>
      let* fd := trigger (Open a 0) in
      if fd <? 0 then uprintf 1 (chars "cat: cannot open %s" ++ [10]) [Astr (Some a)]
      else
        let* ok := cat fd in
        if ok : bool then trigger (Close fd) ;*; cat_files args' else Ret tt
  end.
Definition cat_main (args : list (list Z)) : process unit :=
  match args with
  | [] => cat 0 ;*; Ret tt
  | _ => cat_files args
  end.

Fixpoint wc_files (args : list (list Z)) : process unit :=
  match args with
  | [] => Ret tt
  | a :: args' =>
      let* fd := trigger (Open a 0) in
      if fd <? 0 then uprintf 1 (chars "wc: cannot open %s" ++ [10]) [Astr (Some a)]
      else
        let* ok := wc fd a in
        if ok : bool then trigger (Close fd) ;*; wc_files args' else Ret tt
  end.
Definition wc_main (args : list (list Z)) : process unit :=
  match args with
  | [] => wc 0 [] ;*; Ret tt
  | _ => wc_files args
  end.

Fixpoint grep_files (buf : Z) (pattern : list Z) (args : list (list Z)) (mem : memory) : process unit :=
  match args with
  | [] => Ret tt
  | a :: args' =>
      let* fd := trigger (Open a 0) in
      if fd <? 0 then uprintf 1 (chars "grep: cannot open %s" ++ [10]) [Astr (Some a)]
      else
        let* r := ugrep buf pattern fd mem in
        match r with
        | Some mem => trigger (Close fd) ;*; grep_files buf pattern args' mem
        | None => Ret tt
        end
  end.
Definition grep_main (buf : Z) (args : list (list Z)) (mem : memory) : process unit :=
  match args with
  | [] => uprintf 2 (chars "usage: grep pattern [file ...]" ++ [10]) []
  | [pattern] => ugrep buf pattern 0 mem ;*; Ret tt
  | pattern :: args => grep_files buf pattern args mem
  end.

(** echo.c *)
Fixpoint echo_args (args : list (list Z)) : process unit :=
  match args with
  | [] => Ret tt
  | a :: args' =>
      uprintf 1 (chars "%s%s") [Astr (Some a); Astr (Some (match args' with [] => [10] | _ => [32] end))] ;*;
      echo_args args'
  end.

(** kill.c *)
Fixpoint kill_args (args : list (list Z)) : process unit :=
  match args with
  | [] => Ret tt
  | a :: args' => trigger (Call (CKill (uatoi a))) ;*; kill_args args'
  end.
Definition kill_main (args : list (list Z)) : process unit :=
  match args with
  | [] => uprintf 2 (chars "usage: kill pid..." ++ [10]) []
  | _ => kill_args args
  end.

(** ln.c *)
Definition ln_main (args : list (list Z)) : process unit :=
  match args with
  | [old; new] =>
      let* r := trigger (Call (CLink old new)) in
      if r <? 0 then uprintf 2 (chars "link %s %s: failed" ++ [10]) [Astr (Some old); Astr (Some new)] else Ret tt
  | _ => uprintf 2 (chars "Usage: ln old new" ++ [10]) []
  end.

(** mkdir.c *)
Fixpoint mkdir_args (args : list (list Z)) : process unit :=
  match args with
  | [] => Ret tt
  | a :: args' =>
      let* r := trigger (Call (CMkdir a)) in
      if r <? 0 then uprintf 2 (chars "mkdir: %s failed to create" ++ [10]) [Astr (Some a)] else mkdir_args args'
  end.
Definition mkdir_main (args : list (list Z)) : process unit :=
  match args with
  | [] => uprintf 2 (chars "Usage: mkdir files..." ++ [10]) []
  | _ => mkdir_args args
  end.

(** rm.c *)
Fixpoint rm_args (args : list (list Z)) : process unit :=
  match args with
  | [] => Ret tt
  | a :: args' =>
      let* r := trigger (Call (CUnlink a)) in
      if r <? 0 then uprintf 2 (chars "rm: %s failed to delete" ++ [10]) [Astr (Some a)] else rm_args args'
  end.
Definition rm_main (args : list (list Z)) : process unit :=
  match args with
  | [] => uprintf 2 (chars "Usage: rm files..." ++ [10]) []
  | _ => rm_args args
  end.

(** zombie.c *)
Definition zombie_main : process unit :=
  let* pid := trigger (Call CFork) in
  if 0 <? pid then trigger (Call (CSleep 5)) ;*; Ret tt else Ret tt.

(** ** ls.c *)

(** What follows the last slash. *)
Fixpoint after_slash (path cur : list Z) : list Z :=
  match path with
  | [] => cur
  | c :: path' => after_slash path' (if c =? 47 then path' else cur)
  end.
Definition fmtname (path : list Z) : list Z :=
  let p := after_slash path path in
  if (DIRSIZ <=? length p)%nat then p else p ++ replicate (DIRSIZ - length p) 32.

Definition ls_line (name : list Z) (st : stat_t) : process unit :=
  uprintf 1 (chars "%s %d %d %d" ++ [10]) [Astr (Some (fmtname name)); Aint (st_type st); Aint (st_ino st); Aint (st_size st)].

(** The entries of the directory: the name is copied behind the slash of [buf]. *)
Definition ls_entries (fd : Z) (path : list Z) : process unit :=
  ITree.iter (λ _ : unit,
    let* r := trigger (Read fd DIRENT) in
    match r with
    | None => Ret (inr tt)
    | Some de =>
        if negb (Z.of_nat (length de) =? DIRENT) then Ret (inr tt)
        else if de_inum de =? 0 then Ret (inl tt)
        else
          let buf := path ++ [47] ++ until_nul (take DIRSIZ (de_name de)) in
          let* r := stat buf in
          match r with
          | None => uprintf 1 (chars "ls: cannot stat %s" ++ [10]) [Astr (Some buf)] ;*; Ret (inl tt)
          | Some st => ls_line buf st ;*; Ret (inl tt)
          end
    end) tt.

Definition ls (path : list Z) : process unit :=
  let* fd := trigger (Open path 0) in
  if fd <? 0 then uprintf 2 (chars "ls: cannot open %s" ++ [10]) [Astr (Some path)]
  else
    let* r := trigger (Fstat fd) in
    match r with
    | None => uprintf 2 (chars "ls: cannot stat %s" ++ [10]) [Astr (Some path)] ;*; trigger (Close fd) ;*; Ret tt
    | Some st =>
        (if st_type st =? T_FILE then ls_line path st
         else if st_type st =? T_DIR then
           if (512 <? length path + 1 + DIRSIZ + 1)%nat then uprintf 1 (chars "ls: path too long" ++ [10]) []
           else ls_entries fd path
         else Ret tt) ;*;
        trigger (Close fd) ;*; Ret tt
    end.
Fixpoint ls_args (args : list (list Z)) : process unit :=
  match args with
  | [] => Ret tt
  | a :: args' => ls a ;*; ls_args args'
  end.
Definition ls_main (args : list (list Z)) : process unit :=
  match args with [] => ls (chars ".") | _ => ls_args args end.

(** ** init.c *)

(** Waiting until process [pid] has ended or there is none to wait for. *)
Definition init_wait (pid : Z) : process unit :=
  ITree.iter (λ _ : unit,
    let* wpid := trigger (Call CWait) in
    if (0 <=? wpid) && negb (wpid =? pid) then uprintf 1 (chars "zombie!" ++ [10]) [] ;*; Ret (inl tt)
    else Ret (inr tt)) tt.

(** exec returns only when it fails. *)
Definition init_loop : process unit :=
  ITree.iter (λ _ : unit,
    uprintf 1 (chars "init: starting sh" ++ [10]) [] ;*;
    let* pid := trigger (Call CFork) in
    if pid <? 0 then uprintf 1 (chars "init: fork failed" ++ [10]) [] ;*; Ret (inr tt)
    else if pid =? 0 then
      let* r := trigger (Call (CExec (chars "sh") [chars "sh"])) in
      if r <? 0 then uprintf 1 (chars "init: exec sh failed" ++ [10]) [] ;*; Ret (inr tt) else Ret (inr tt)
    else init_wait pid ;*; Ret (inl tt)) tt.

Definition init_main : process unit :=
  let* fd := trigger (Open (chars "console") O_RDWR) in
  (if fd <? 0 then
     trigger (Call (CMknod (chars "console") 1 1)) ;*;
     trigger (Open (chars "console") O_RDWR) ;*; Ret tt
   else Ret tt) ;*;
  trigger (Dup 0) ;*;
  trigger (Dup 0) ;*;
  init_loop.

(** ** sh.c: the processes of runcmd, and main *)

Fixpoint denote (p : prog) : process unit :=
  match p with
  | PExit => Ret tt
  | PExec argv failed =>
      let* r := trigger (Call (CExec (nth 0 argv []) argv)) in
      if r <? 0 then denote failed else Ret tt
  | PPrint fd s k => put_chars (Z.of_nat fd) s ;*; denote k
  | PClose fd k => trigger (Close (Z.of_nat fd)) ;*; denote k
  | POpen file mode k =>
      let* fd := trigger (Open file mode) in
      denote (k (if fd <? 0 then None else Some (Z.to_nat fd)))
  | PDup fd k => trigger (Dup (Z.of_nat fd)) ;*; denote k
  | PPipe k =>
      let* r := trigger Pipe in
      denote (k (match r with Some (p0, p1) => Some (Z.to_nat p0, Z.to_nat p1) | None => None end))
  | PFork failed child parent =>
      let* pid := trigger (Call CFork) in
      if pid =? -1 then denote failed else if pid =? 0 then denote child else denote parent
  | PWait k => trigger (Call CWait) ;*; denote k
  end.

(** What follows the command in the line, if the parser gets that far. *)
Definition leftovers (buf : list Z) : option (list Z) :=
  match (parseline (3 * length buf + 6) ;;; peek [])%K [] (Shell buf 0 []) with
  | Ok _ x _ => Some (drop (sh_s x) (sh_buf x))
  | _ => None
  end.

(** [runcmd(parsecmd(buf))]; a syntax error ends the process. *)
Definition run_line (buf : list Z) : process unit :=
  match parsecmd [] (Shell (until_nul buf) 0 []) with
  | Ok c x _ => denote (runcmd (S c) (sh_buf x) (sh_cmds x) c)
  | Panic s _ =>
      match leftovers (until_nul buf) with
      | Some l => uprintf 2 (chars "leftovers: %s" ++ [10]) [Astr (Some l)]
      | None => Ret tt
      end ;*;
      denote (sh_panic (chars s))
  | _ => Ret tt
  end.

(** The result and the line in the buffer, without the zeros behind it. *)
Definition getcmd (nbuf : Z) : process (Z * list Z) :=
  uprintf 2 (chars "$ ") [] ;*;
  let* buf := gets nbuf in
  Ret (if nth 0 buf 0 =? 0 then -1 else 0, buf).

Definition is_cd (buf : list Z) : bool := (nth 0 buf 0 =? 99) && (nth 1 buf 0 =? 100) && (nth 2 buf 0 =? 32).
(** The argument of cd: the line without its last character. *)
Definition cd_path (buf : list Z) : list Z :=
  let s := until_nul buf in drop 3 (take (length s - 1) s).

Definition sh_console : process unit :=
  ITree.iter (λ _ : unit,
    let* fd := trigger (Open (chars "console") O_RDWR) in
    if fd <? 0 then Ret (inr tt)
    else if 3 <=? fd then trigger (Close fd) ;*; Ret (inr tt)
    else Ret (inl tt)) tt.

Definition sh_loop : process unit :=
  ITree.iter (λ _ : unit,
    let* r := getcmd 100 in
    let (r, buf) := r : Z * list Z in
    if r <? 0 then Ret (inr tt)
    else if is_cd buf then
      let path := cd_path buf in
      let* r := trigger (Call (CChdir path)) in
      (if r <? 0 then uprintf 2 (chars "cannot cd %s" ++ [10]) [Astr (Some path)] else Ret tt) ;*;
      Ret (inl tt)
    else
      let* pid := trigger (Call CFork) in
      if pid =? -1 then denote (sh_panic (chars "fork")) ;*; Ret (inr tt)
      else if pid =? 0 then run_line buf ;*; Ret (inr tt)
      else trigger (Call CWait) ;*; Ret (inl tt)) tt.
Definition sh_main : process unit := sh_console ;*; sh_loop.

(** ** Output *)

Lemma wrote_to_app fd a b w : wrote_to fd b (wrote_to fd a w) = wrote_to fd (a ++ b) w.
Proof. unfold wrote_to. cbn. by rewrite map_app, app_assoc. Qed.
Lemma wrote_to_nil fd w : wrote_to fd [] w = w.
Proof. unfold wrote_to. cbn. rewrite app_nil_r. by destruct w. Qed.

Lemma put_chars_runs fd l w : put_chars fd l @ w ⇓ tt @ wrote_to fd l w.
Proof.
  revert w. induction l as [|c l IH]; intros w; cbn [put_chars].
  - rewrite wrote_to_nil. apply runs_ret.
  - rewrite runs_call_bind. cbn [handle fst snd]. rewrite IH. by rewrite wrote_to_app.
Qed.
Lemma uprintf_runs fd fmt args out w : printf fmt args = Some out → uprintf fd fmt args @ w ⇓ tt @ wrote_to fd out w.
Proof. unfold uprintf. intros ->. apply put_chars_runs. Qed.
Lemma uprintf_bind {R} fd fmt args out (k : unit → process R) w :
  printf fmt args = Some out → meets (ITree.bind (uprintf fd fmt args) k) w ≈ meets (k tt) (wrote_to fd out w).
Proof. intros H. apply runs_bind. by apply uprintf_runs. Qed.

(** ** Files that are read to their end *)

(** With [f] behind descriptor [fd]. *)
Definition opened (fd : Z) (f : ufile) (w : world) : world := set_fds (<[fd := f]> (w_fds w)) w.
Lemma opened_fd fd f w : w_fds (opened fd f w) !! fd = Some f.
Proof. apply lookup_insert_eq. Qed.
Lemma opened_twice fd f g w : opened fd g (opened fd f w) = opened fd g w.
Proof. unfold opened. cbn. by rewrite insert_insert_eq. Qed.
Lemma opened_wrote fd f fd' l w : opened fd f (wrote_to fd' l w) = wrote_to fd' l (opened fd f w).
Proof. done. Qed.


Definition pieces (s : list (list Z)) : Prop := Forall (λ c, c ≠ []) s.
Definition at_end (fd : Z) (f : ufile) (w : world) : world := opened fd (UFile (uf_stat f) []) w.

Lemma read_runs {R} fd n f (k : option (list Z) → process R) w :
  w_fds w !! fd = Some f →
  meets (ITree.bind (trigger (Read fd n)) k) w ≈
  meets (k (Some (read_some n (uf_data f)).1)) (opened fd (UFile (uf_stat f) (read_some n (uf_data f)).2) w).
Proof. intros Hf. rewrite runs_call_bind. cbn [handle]. unfold handle_read. rewrite Hf. reflexivity. Qed.
Lemma read_some_bytes n s (P : Z → Prop) :
  Forall P (concat s) → Forall P (read_some n s).1 ∧ Forall P (concat (read_some n s).2).
Proof.
  destruct s as [|c s]; [done|]. cbn [read_some fst snd concat]. rewrite Forall_app. intros [Hc Hs].
  split; [by apply Forall_take|]. pose proof (Forall_drop P (Z.to_nat n) c Hc) as Hd.
  destruct (drop _ c); [done|]. cbn [concat]. by apply Forall_app.
Qed.

Lemma cat_runs n fd f w :
  w_fds w !! fd = Some f → pieces (uf_data f) → (length (concat (uf_data f)) < n)%nat →
  cat fd @ w ⇓ true @ wrote_to 1 (concat (uf_data f)) (at_end fd f w).
Proof.
  revert f w. induction n as [|n IH]; intros f w Hf Hp Hn; [lia|]. unfold cat.
  destruct (read_some_concat 512 (uf_data f) ltac:(lia) Hp) as (E & Hp' & H0).
  pose proof (read_runs (R := unit + bool) fd 512 f) as Hr.
  destruct (read_some 512 (uf_data f)) as [data s'] eqn:Er; cbn [fst snd] in *; destruct data as [|b data].
  - apply runs_iter_done. rewrite (Hr _ w Hf). rewrite (H0 eq_refl) in *. injection Er as <-. rewrite wrote_to_nil. apply runs_ret.
  - rewrite runs_iter_again.
    2:{ rewrite (Hr _ w Hf), runs_call_bind. cbn [handle fst snd]. rewrite Z.eqb_refl. apply runs_ret. }
    rewrite (IH (UFile (uf_stat f) s')); [|apply opened_fd|done|rewrite E, length_app in Hn; cbn in *; lia].
    cbn [uf_data]. unfold at_end. rewrite opened_wrote, opened_twice, wrote_to_app, E. done.
Qed.

(** What wc prints for a text. *)
Definition wc_line (text name : list Z) : list Z :=
  int_chars true (Z.of_nat (newlines text)) 10 true ++ [32] ++ int_chars true (Z.of_nat (count_words true text)) 10 true ++ [32] ++
  int_chars true (Z.of_nat (length text)) 10 true ++ [32] ++ name ++ [10].

Lemma wc_loop_runs n fd name f x w :
  w_fds w !! fd = Some f → pieces (uf_data f) → (length (concat (uf_data f)) < n)%nat →
  let y := foldl wc_byte x (concat (uf_data f)) in
  ITree.iter (wc_body fd name) x @ w ⇓ true @
    wrote_to 1 (int_chars true (i32 (n_l y)) 10 true ++ [32] ++ int_chars true (i32 (n_w y)) 10 true ++ [32] ++
                int_chars true (i32 (n_c y)) 10 true ++ [32] ++ name ++ [10]) (at_end fd f w).
Proof.
  revert f x w. induction n as [|n IH]; intros f x w Hf Hp Hn; [lia|].
  destruct (read_some_concat 512 (uf_data f) ltac:(lia) Hp) as (E & Hp' & H0).
  pose proof (read_runs (R := counts + bool) fd 512 f) as Hr.
  destruct (read_some 512 (uf_data f)) as [data s'] eqn:Er; cbn [fst snd] in *; destruct data as [|b data].
  - apply runs_iter_done. unfold wc_body. rewrite (Hr _ w Hf). rewrite (H0 eq_refl) in *. injection Er as <-.
    rewrite uprintf_bind by apply printf_counts. apply runs_ret.
  - rewrite runs_iter_again.
    2:{ unfold wc_body. rewrite (Hr _ w Hf). apply runs_ret. }
    rewrite (IH (UFile (uf_stat f) s')); [|apply opened_fd|done|rewrite E, length_app in Hn; cbn in *; lia].
    cbn [uf_data]. unfold at_end. rewrite opened_twice, E, foldl_app. done.
Qed.

Lemma wc_runs fd name f w :
  w_fds w !! fd = Some f → pieces (uf_data f) → Z.of_nat (length (concat (uf_data f))) < 2147483648 →
  wc fd name @ w ⇓ true @ wrote_to 1 (wc_line (concat (uf_data f)) name) (at_end fd f w).
Proof.
  intros Hf Hp Hlen. unfold wc. rewrite (wc_loop_runs (S (length (concat (uf_data f))))) by (done || lia).
  set (text := concat (uf_data f)) in *.
  destruct (wc_bytes text (Counts 0 0 0 false)) as (E1 & E2 & E3); cbn [n_l n_w n_c inword negb] in *; try lia.
  rewrite E1, E2, E3. assert (newlines text ≤ length text)%nat by apply length_filter.
  pose proof (count_words_le true text) as Hw.
  assert (∀ v, 0 ≤ v < 2147483648 → i32 v = v) as Hi by (intros; unfold i32; dlia).
  rewrite !Hi by lia. done.
Qed.

Lemma write_lines_runs fuel pattern m p out m' p' out' w :
  grep_lines fuel pattern m p out = Some (m', p', out') →
  (∃ l, out' = out ++ l ∧ write_lines fuel pattern m p @ w ⇓ Some (m', p') @ wrote_to 1 l w) ∧ (bytes_ok m → bytes_ok m').
Proof.
  revert m p out w. induction fuel as [|fuel IH]; intros m p out w; [done|]. cbn [grep_lines write_lines].
  destruct (strchr 1024 m p 10) as [q|]; [|done]. destruct (q =? 0).
  { intros [= -> -> ->]. split; [|done]. exists []. rewrite app_nil_r, wrote_to_nil. split; [done|apply runs_ret]. }
  destruct (match_ pattern _); intros H.
  2:{ destruct (IH _ _ _ w H) as [Hl Hb]. split; [done|]. intros Hm. by apply Hb, bytes_ok_st8. }
  set (l1 := get_bytes _ _ _) in *. destruct (IH _ _ _ (wrote_to 1 l1 w) H) as [(l & -> & Hl) Hb]. split.
  - exists (l1 ++ l). split; [by rewrite app_assoc|]. rewrite runs_call_bind. cbn [handle fst snd]. rewrite Hl, wrote_to_app. done.
  - intros Hm. by apply Hb, bytes_ok_st8, bytes_ok_st8.
Qed.

Lemma bytes_ok_umemmove m d s n : bytes_ok m → bytes_ok (umemmove m d s n).
Proof.
  unfold umemmove. generalize (Z.to_nat n). intros k. revert m d s. induction k as [|k IH]; intros m d s Hm; [done|].
  cbn [copy_up]. by apply IH, bytes_ok_st8.
Qed.

(** The program writes what [grep_loop] computes, and leaves bytes in its buffer. *)
Lemma grep_loop_runs fuel buf pattern f mem m fd out out' w :
  w_fds w !! fd = Some f → grep_loop buf fuel pattern (uf_data f) mem m out = Some out' →
  Forall (λ c, 0 < c < 256) (concat (uf_data f)) → bytes_ok mem →
  ∃ l mem' g, out' = out ++ l ∧ bytes_ok mem' ∧
    ITree.iter (grep_body buf pattern fd) (mem, m) @ w ⇓ Some mem' @ wrote_to 1 l (opened fd g w).
Proof.
  revert f mem m out w. induction fuel as [|fuel IH]; intros f mem m out w Hf; [done|]. cbn [grep_loop].
  pose proof (read_runs (R := memory * Z + option memory) fd (1024 - m - 1) f) as Hr.
  pose proof (read_some_bytes (1024 - m - 1) (uf_data f)) as Hd.
  destruct (read_some (1024 - m - 1) (uf_data f)) as [data s'] eqn:Er; cbn [fst snd] in *. destruct data as [|b data].
  { intros [= ->] _ Hm. exists [], mem, (UFile (uf_stat f) s'). rewrite app_nil_r, wrote_to_nil. split_and!; [done|done|].
    apply runs_iter_done. unfold grep_body. rewrite (Hr _ w Hf). apply runs_ret. }
  rewrite (proj2 (Z.leb_gt _ _)) by (cbn; lia). cbv zeta. set (mem1 := st8 _ _ 0).
  destruct (grep_lines 1024 pattern mem1 buf out) as [[[mem2 p] out1]|] eqn:El; [|done].
  destruct (write_lines_runs _ _ _ _ _ _ _ _ (opened fd (UFile (uf_stat f) s') w) El) as [(l1 & -> & Hl1) Hm2].
  set (w1 := wrote_to 1 l1 _) in Hl1. intros H Hby Hm. destruct (Hd _ Hby) as [Hdata Hs'].
  specialize (Hm2 (bytes_ok_st8 _ _ _ (bytes_ok_put _ _ _ Hm Hdata))).
  assert (∃ mem3 m3, grep_body buf pattern fd (mem, m) @ w ⇓ inl (mem3, m3) @ w1 ∧ bytes_ok mem3 ∧
    grep_loop buf fuel pattern s' mem3 m3 (out ++ l1) = Some out') as (mem3 & m3 & Hb & Hm3 & Hg).
  { unfold grep_body. revert H. destruct (0 <? _) eqn:E0; intros H; do 2 eexists; (split; [|split; [|exact H]]);
      [|by apply bytes_ok_umemmove| |exact Hm2]; rewrite (Hr _ w Hf); cbv zeta; fold mem1; rewrite (runs_bind _ _ _ _ _ Hl1), E0; apply runs_ret. }
  destruct (IH (UFile (uf_stat f) s') mem3 m3 _ w1 ltac:(apply opened_fd) Hg Hs' Hm3) as (l & mem' & g & -> & Hm' & Hl).
  exists (l1 ++ l), mem', g. split_and!; [by rewrite app_assoc|done|]. rewrite (runs_iter_again _ _ _ _ _ Hb), Hl.
  unfold w1. by rewrite opened_wrote, opened_twice, wrote_to_app.
Qed.

Lemma ugrep_runs buf pattern fd f text mem w :
  w_fds w !! fd = Some f → uf_data f = file_stream text → 0 < buf → bytes_ok mem → Forall (λ c, 0 < c < 256) text → short_lines text →
  ∃ mem' g, bytes_ok mem' ∧
    ugrep buf pattern fd mem @ w ⇓ Some mem' @ wrote_to 1 (grep_from pattern [] text) (opened fd g w).
Proof.
  intros Hf Ht Hbuf Hm Hb Hs.
  pose proof (grep_loop_spec buf pattern (S (length text)) [] text mem [] Hbuf Hm ltac:(lia) ltac:(set_solver) Hs Hb ltac:(done)) as Hg.
  rewrite <- Ht in Hg. destruct (grep_loop_runs _ _ _ _ _ _ _ _ _ _ Hf Hg) as (l & mem' & g & E & Hm' & Hl); [|done|].
  { rewrite Ht. destruct text; [done|]. cbn. by rewrite app_nil_r. }
  cbn in E. rewrite <- E in Hl. by exists mem', g.
Qed.

(** ** The programs over their files *)

(** The output for each file in turn, up to the first that cannot be opened. *)
Fixpoint each_output (prog : list Z) (one : list Z → list Z → list Z) (files : gmap (list Z) ufile) (args : list (list Z)) : list Z :=
  match args with
  | [] => []
  | a :: args' =>
      match files !! a with
      | Some f => one a (concat (uf_data f)) ++ each_output prog one files args'
      | None => prog ++ chars ": cannot open " ++ a ++ [10]
      end
  end.

Section Files.
Context (fd : Z).

Lemma fd_free_spec fds : fd_free fds = Some fd → fds !! fd = None ∧ 0 ≤ fd < 16.
Proof. intros H. apply find_some in H as [Hi%list_elem_of_In%elem_of_seqZ H%bool_decide_eq_true]. split; [done|lia]. Qed.

Lemma open_missing {R} a mode (k : Z → process R) w :
  w_files w !! a = None → meets (ITree.bind (trigger (Open a mode)) k) w ≈ meets (k (-1)) w.
Proof. intros H. rewrite runs_call_bind. cbn [handle]. unfold handle_open. rewrite H. done. Qed.

Lemma open_runs {R} a mode f (k : Z → process R) w :
  w_files w !! a = Some f → fd_free (w_fds w) = Some fd →
  meets (ITree.bind (trigger (Open a mode)) k) w ≈ meets (k fd) (opened fd f w).
Proof. intros H Hfd. rewrite runs_call_bind. cbn [handle]. unfold handle_open. rewrite H, Hfd. done. Qed.

(** Closing the file that was opened gives back the descriptors. *)
Lemma close_runs {R} g l (k : Z → process R) w :
  fd_free (w_fds w) = Some fd →
  ∃ x, meets (ITree.bind (trigger (Close fd)) k) (wrote_to 1 l (opened fd g w)) ≈ meets (k x) (wrote_to 1 l w).
Proof.
  intros [Hn _]%fd_free_spec. eexists. rewrite runs_call_bind. cbn [handle fst snd]. set (w1 := wrote_to 1 l (opened fd g w)).
  assert (set_fds (delete fd (w_fds w1)) w1 = wrote_to 1 l w) as ->; [|reflexivity].
  unfold w1, opened, wrote_to, set_fds. cbn. by rewrite delete_insert_id.
Qed.
End Files.

Lemma cannot_open_text p a :
  p ∈ [chars "cat"; chars "wc"; chars "grep"] →
  printf ((p ++ chars ": cannot open %s") ++ [10]) [Astr (Some a)] = Some (p ++ chars ": cannot open " ++ a ++ [10]).
Proof. intros Hp. repeat (apply elem_of_cons in Hp as [->|Hp]; [reflexivity|]). by apply elem_of_nil in Hp. Qed.

Ltac cannot_open p :=
  rewrite open_missing by done; change (-1 <? 0) with true; cbv iota;
  apply uprintf_runs, (cannot_open_text (chars p)); set_solver.

Lemma cat_files_runs args w :
  is_Some (fd_free (w_fds w)) → map_Forall (λ _ f, pieces (uf_data f)) (w_files w) →
  cat_files args @ w ⇓ tt @ wrote_to 1 (each_output (chars "cat") (λ _ text, text) (w_files w) args) w.
Proof.
  intros [fd Hfd] Hp. revert w Hfd Hp. induction args as [|a args IH]; intros w Hfd Hp; cbn [cat_files each_output].
  { rewrite wrote_to_nil. apply runs_ret. }
  destruct (w_files w !! a) as [f|] eqn:Hf; [|cannot_open "cat"%string].
  rewrite (open_runs fd) by done. destruct (fd_free_spec _ _ Hfd) as [_ Hr]. rewrite (proj2 (Z.ltb_ge _ _)) by lia.
  rewrite runs_bind by (apply (cat_runs (S (length (concat (uf_data f))))); [apply opened_fd|by eapply Hp|lia]).
  unfold at_end. rewrite opened_twice. edestruct close_runs as [x Hx]; [done|]. rewrite Hx, IH by done. by rewrite wrote_to_app.
Qed.

Lemma wc_files_runs args w :
  is_Some (fd_free (w_fds w)) → map_Forall (λ _ f, pieces (uf_data f)) (w_files w) →
  map_Forall (λ _ f, Z.of_nat (length (concat (uf_data f))) < 2147483648) (w_files w) →
  wc_files args @ w ⇓ tt @ wrote_to 1 (each_output (chars "wc") (λ a text, wc_line text a) (w_files w) args) w.
Proof.
  intros [fd Hfd] Hp Hl. revert w Hfd Hp Hl. induction args as [|a args IH]; intros w Hfd Hp Hl; cbn [wc_files each_output].
  { rewrite wrote_to_nil. apply runs_ret. }
  destruct (w_files w !! a) as [f|] eqn:Hf; [|cannot_open "wc"%string].
  rewrite (open_runs fd) by done. destruct (fd_free_spec _ _ Hfd) as [_ Hr]. rewrite (proj2 (Z.ltb_ge _ _)) by lia.
  rewrite runs_bind by (apply wc_runs; [apply opened_fd|by eapply Hp|by eapply Hl]).
  unfold at_end. rewrite opened_twice. edestruct close_runs as [x Hx]; [done|]. rewrite Hx, IH by done. by rewrite wrote_to_app.
Qed.

(** A text file as grep wants it. *)
Definition text_file (f : ufile) : Prop :=
  ∃ text, uf_data f = file_stream text ∧ Forall (λ c, 0 < c < 256) text ∧ short_lines text.

Lemma grep_files_runs buf pattern args mem w :
  0 < buf → bytes_ok mem → is_Some (fd_free (w_fds w)) → map_Forall (λ _ f, text_file f) (w_files w) →
  grep_files buf pattern args mem @ w ⇓ tt @
    wrote_to 1 (each_output (chars "grep") (λ _ text, grep_from pattern [] text) (w_files w) args) w.
Proof.
  intros Hbuf Hm [fd Hfd] Hp. revert mem w Hm Hfd Hp. induction args as [|a args IH]; intros mem w Hm Hfd Hp; cbn [grep_files each_output].
  { rewrite wrote_to_nil. apply runs_ret. }
  destruct (w_files w !! a) as [f|] eqn:Hf; [|cannot_open "grep"%string].
  rewrite (open_runs fd) by done. destruct (fd_free_spec _ _ Hfd) as [_ Hr]. rewrite (proj2 (Z.ltb_ge _ _)) by lia.
  destruct (Hp _ _ Hf) as (text & Ht & Hb & Hs).
  destruct (ugrep_runs buf pattern fd f text mem (opened fd f w) (opened_fd _ _ _) Ht Hbuf Hm Hb Hs) as (mem' & g & Hm' & Hg).
  rewrite (runs_bind _ _ _ _ _ Hg), opened_twice. edestruct close_runs as [x Hx]; [done|]. rewrite Hx, IH by done. rewrite wrote_to_app.
  assert (concat (uf_data f) = text) as ->; [|done]. rewrite Ht. destruct text; [done|]. cbn. by rewrite app_nil_r.
Qed.

(** [C34] cat, wc and grep on files, with a free descriptor and files below two
    gigabytes.  cat writes the contents of the files one after the other and wc a line
    for each with the number of its newlines, words and bytes, however the files are
    cut into the pieces that read returns.  grep, whose files are read as the kernel
    reads files and are text files (no NUL bytes, and no line of more than 1022
    bytes), writes the lines that match, a last line without a newline
    excepted.  The first file that cannot be opened is reported and ends the
    program.  All descriptors opened are closed again, and the programs end. *)
Theorem commands_output w args buf pattern mem :
  args ≠ [] → is_Some (fd_free (w_fds w)) →
  map_Forall (λ _ f, pieces (uf_data f) ∧ Z.of_nat (length (concat (uf_data f))) < 2147483648) (w_files w) →
  cat_main args @ w ⇓ tt @ wrote_to 1 (each_output (chars "cat") (λ _ text, text) (w_files w) args) w ∧
  wc_main args @ w ⇓ tt @ wrote_to 1 (each_output (chars "wc") (λ a text, wc_line text a) (w_files w) args) w ∧
  (0 < buf → bytes_ok mem → map_Forall (λ _ f, text_file f) (w_files w) →
   grep_main buf (pattern :: args) mem @ w ⇓ tt @
     wrote_to 1 (each_output (chars "grep") (λ _ text, grep_from pattern [] text) (w_files w) args) w).
Proof.
  intros Ha Hfd Hp. assert (map_Forall (λ _ f, pieces (uf_data f)) (w_files w)) as Hp1 by (intros a f Hf; apply (Hp a f Hf)).
  destruct args as [|a args]; [done|]. split_and!; [by apply cat_files_runs|apply wc_files_runs; [done|done|intros b f Hf; apply (Hp b f Hf)]|].
  intros Hbuf Hm Ht. by apply grep_files_runs.
Qed.

Definition demo_world : world :=
  World (<[chars "f" := UFile (Stat 2 1 3 1 11) (file_stream demo_text)]> (<[chars "g" := UFile (Stat 2 1 4 1 3) [chars "abc"]]> ∅))
    (<[0 := UFile (Stat 3 1 2 1 0) []]> (<[1 := UFile (Stat 3 1 2 1 0) []]> ∅)) [] [] [].

Lemma demo_text_file st text : Forall (λ c, 0 < c < 256) text → (length text ≤ 1022)%nat → text_file (UFile st (file_stream text)).
Proof.
  intros Hc Hl. exists text. split_and!; [done|done|]. intros a l b E _. rewrite E, !length_app in Hl. lia.
Qed.

Lemma commands_output_witness :
  cat_main [chars "g"; chars "f"; chars "h"] @ demo_world ⇓ tt @ wrote_to 1 (chars "abc" ++ demo_text ++ chars "cat: cannot open h" ++ [10]) demo_world ∧
  wc_main [chars "f"] @ demo_world ⇓ tt @ wrote_to 1 (chars "3 3 11 f" ++ [10]) demo_world ∧
  grep_main 4096 [demo_pattern; chars "g"; chars "f"; chars "h"] (λ _, 0) @ demo_world ⇓ tt @
    wrote_to 1 (chars "abc" ++ [10] ++ chars "ac" ++ [10] ++ chars "grep: cannot open h" ++ [10]) demo_world.
Proof.
  assert (map_Forall (λ _ f, pieces (uf_data f) ∧ Z.of_nat (length (concat (uf_data f))) < 2147483648) (w_files demo_world)) as Hp.
  { apply map_Forall_insert_2; [by split; [repeat constructor|]|]. apply map_Forall_insert_2; [by split; [repeat constructor|]|]. apply map_Forall_empty. }
  assert (is_Some (fd_free (w_fds demo_world))) as Hfd by (exists 2; by vm_compute).
  assert (map_Forall (λ _ f, text_file f) (w_files demo_world)) as Ht.
  { apply map_Forall_insert_2; [apply demo_text_file; [by repeat constructor|cbn; lia]|].
    apply map_Forall_insert_2; [apply (demo_text_file _ (chars "abc")); [by repeat constructor|cbn; lia]|]. apply map_Forall_empty. }
  destruct (commands_output demo_world [chars "g"; chars "f"; chars "h"] 4096 demo_pattern (λ _, 0) ltac:(done) Hfd Hp) as (Hc & _ & Hg).
  destruct (commands_output demo_world [chars "f"] 4096 demo_pattern (λ _, 0) ltac:(done) Hfd Hp) as (_ & Hw & _).
  split; [exact Hc|]. split; [exact Hw|]. apply Hg; [lia|intros x; lia|exact Ht].
Defined.

(** ** The shell's main loop *)

Lemma answered_runs {R} c a l (k : Z → process R) w :
  w_answers w = a :: l →
  meets (ITree.bind (trigger (Call c)) k) w ≈ meets (k a) (World (w_files w) (w_fds w) (w_out w) l (w_calls w ++ [(c, a)])).
Proof. intros H. rewrite runs_call_bind. cbn [handle]. unfold answered. rewrite H. done. Qed.

(** A byte of the standard input. *)
Lemma read_byte c text s :
  pieces s → concat s = c :: text → ∃ s', read_some 1 s = ([c], s') ∧ concat s' = text ∧ pieces s'.
Proof.
  intros Hp E. destruct (read_some_concat 1 s ltac:(lia) Hp) as (E' & Hp' & _). destruct s as [|[|d x] s]; [done|by inversion Hp|].
  cbn [read_some concat app] in *. injection E as -> <-. change (Z.to_nat 1) with 1%nat in *. cbn [take drop] in *.
  destruct x; cbn; eexists; (split; [done|]); [|split; [done|]].
  - rewrite take_0 in *. cbn in E'. split; [done|]. by inversion Hp.
  - inversion Hp; subst. by constructor.
Qed.

(** A line of plain characters. *)
Definition line_chars (l : list Z) : Prop := Forall (λ c, c ≠ 0 ∧ c ≠ 10 ∧ c ≠ 13) l.

Lemma gets_runs l n st s rest w :
  line_chars l → (length l < n)%nat → pieces s → concat s = l ++ 10 :: rest →
  ∃ s', pieces s' ∧ concat s' = rest ∧ gets_loop n @ opened 0 (UFile st s) w ⇓ l ++ [10] @ opened 0 (UFile st s') w.
Proof.
  revert n s. induction l as [|c l IH]; intros [|n] s Hl Hn Hp E; try (cbn in Hn; lia); cbn [gets_loop app] in *.
  - destruct (read_byte _ _ _ Hp E) as (s' & Er & E' & Hp'). exists s'. split_and!; [done|done|].
    rewrite (read_runs 0 1 _ _ _ (opened_fd _ _ _)), opened_twice. cbn [uf_data uf_stat]. rewrite Er. apply runs_ret.
  - destruct (read_byte _ _ _ Hp E) as (s1 & Er & E1 & Hp1). inversion Hl as [|? ? [H0 [H10 H13]] Hl']; subst.
    destruct (IH n s1 Hl' ltac:(cbn in Hn; lia) Hp1 E1) as (s' & Hp' & E' & Hg). exists s'. split_and!; [done|done|].
    rewrite (read_runs 0 1 _ _ _ (opened_fd _ _ _)), opened_twice. cbn [uf_data uf_stat]. rewrite Er. cbn [fst snd].
    rewrite (proj2 (Z.eqb_neq _ _) H10), (proj2 (Z.eqb_neq _ _) H13). cbn [orb]. rewrite (runs_bind _ _ _ _ _ Hg). apply runs_ret.
Qed.

Lemma until_nul_line l : line_chars l → until_nul (l ++ [10]) = l ++ [10].
Proof.
  induction 1 as [|c l [H0 _] _ IH]; [done|]. cbn [app until_nul]. by rewrite (proj2 (Z.eqb_neq _ _) H0), IH.
Qed.
Lemma cd_path_line l : line_chars l → cd_path (l ++ [10]) = drop 3 l.
Proof.
  intros Hl. unfold cd_path. rewrite until_nul_line, length_app by done. cbn [length].
  by rewrite Nat.add_sub, take_app_length.
Qed.

(** One line of input, and what the calls it leads to answer: chdir, or fork and
    wait. *)
Definition cmdline : Type := list Z * (Z * Z).
Definition line_answers (x : cmdline) : list Z :=
  let '(l, (a, b)) := x in if is_cd (l ++ [10]) then [a] else [a; b].
Definition line_calls (x : cmdline) : list (ucall * Z) :=
  let '(l, (a, b)) := x in if is_cd (l ++ [10]) then [(CChdir (drop 3 l), a)] else [(CFork, a); (CWait, b)].
Definition line_output (x : cmdline) : list Z :=
  let '(l, (a, b)) := x in
  chars "$ " ++ if is_cd (l ++ [10]) && (a <? 0) then chars "cannot cd " ++ drop 3 l ++ [10] else [].
Definition line_fits (x : cmdline) : Prop :=
  let '(l, (a, b)) := x in line_chars l ∧ (length l ≤ 98)%nat ∧ (is_cd (l ++ [10]) = false → a ≠ -1 ∧ a ≠ 0).

(** The world in which the standard input is at [s], the answers [ans] are still to
    come, and the shell has written [out] on the standard error and made the calls
    [calls]. *)
Definition session (w : world) (st : stat_t) (s : list (list Z)) (out ans : list Z) (calls : list (ucall * Z)) : world :=
  World (w_files w) (<[0 := UFile st s]> (w_fds w)) (w_out w ++ map (pair 2) out) ans (w_calls w ++ calls).

Lemma session_wrote w st s out ans calls l : wrote_to 2 l (session w st s out ans calls) = session w st s (out ++ l) ans calls.
Proof. unfold wrote_to, session. cbn. by rewrite map_app, app_assoc. Qed.
Lemma session_opened w st s s' out ans calls : opened 0 (UFile st s') (session w st s out ans calls) = session w st s' out ans calls.
Proof. unfold opened, set_fds, session. cbn. by rewrite insert_insert_eq. Qed.
Lemma session_call {R} c a l (k : Z → process R) w st s out calls :
  meets (ITree.bind (trigger (Call c)) k) (session w st s out (a :: l) calls) ≈ meets (k a) (session w st s out l (calls ++ [(c, a)])).
Proof. rewrite (answered_runs _ a l) by done. unfold session. cbn. by rewrite app_assoc. Qed.

Lemma getcmd_runs l w st s rest out ans calls :
  line_chars l → (length l ≤ 98)%nat → pieces s → concat s = l ++ 10 :: rest →
  ∃ s', pieces s' ∧ concat s' = rest ∧
    getcmd 100 @ session w st s out ans calls ⇓ (0, l ++ [10]) @ session w st s' (out ++ chars "$ ") ans calls.
Proof.
  intros Hl Hn Hp E.
  destruct (gets_runs l 99 st s rest (session w st s (out ++ chars "$ ") ans calls) Hl ltac:(lia) Hp E) as (s' & Hp' & E' & Hg).
  exists s'. split_and!; [done|done|]. unfold getcmd, gets. rewrite (uprintf_bind _ _ _ (chars "$ ")) by reflexivity.
  rewrite session_wrote. change (Z.to_nat (100 - 1)) with 99%nat. rewrite session_opened in Hg.
  rewrite session_opened in Hg. rewrite (runs_bind _ _ _ _ _ Hg).
  assert (nth 0 (l ++ [10]) 0 ≠ 0) as H0 by (destruct Hl as [|c l [? _]]; done).
  rewrite (proj2 (Z.eqb_neq _ _) H0). apply runs_ret.
Qed.

Lemma sh_turn x w st s rest out ans calls :
  line_fits x → pieces s → concat s = x.1 ++ 10 :: rest →
  ∃ s', pieces s' ∧ concat s' = rest ∧
    meets sh_loop (session w st s out (line_answers x ++ ans) calls) ≈
    meets sh_loop (session w st s' (out ++ line_output x) ans (calls ++ line_calls x)).
Proof.
  destruct x as [l [a b]]. intros (Hl & Hn & Ha) Hp E.
  destruct (getcmd_runs l w st s rest out (line_answers (l, (a, b)) ++ ans) calls Hl Hn Hp E) as (s' & Hp' & E' & Hg).
  exists s'. split_and!; [done|done|]. unfold sh_loop. apply runs_iter_again. rewrite (runs_bind _ _ _ _ _ Hg).
  change (0 <? 0) with false. cbv iota. cbn [line_answers line_output line_calls]. rewrite cd_path_line by done.
  destruct (is_cd (l ++ [10])) eqn:Ec; cbn [andb app].
  - rewrite session_call. destruct (a <? 0).
    + rewrite (uprintf_bind _ _ _ (chars "cannot cd " ++ drop 3 l ++ [10])) by reflexivity.
      rewrite session_wrote, <- app_assoc. apply runs_ret.
    + rewrite runs_bind by apply runs_ret. rewrite app_nil_r. apply runs_ret.
  - destruct (Ha eq_refl) as [H1 H0]. rewrite session_call, (proj2 (Z.eqb_neq _ _) H1), (proj2 (Z.eqb_neq _ _) H0).
    rewrite session_call, app_nil_r, <- app_assoc. apply runs_ret.
Qed.

Definition typed (xs : list cmdline) (rest : list Z) : list Z := concat (map (λ x, x.1 ++ [10]) xs) ++ rest.

Lemma sh_turns xs w st s rest out ans calls :
  Forall line_fits xs → pieces s → concat s = typed xs rest →
  ∃ s', pieces s' ∧ concat s' = rest ∧
    meets sh_loop (session w st s out (concat (map line_answers xs) ++ ans) calls) ≈
    meets sh_loop (session w st s' (out ++ concat (map line_output xs)) ans (calls ++ concat (map line_calls xs))).
Proof.
  intros Hx. revert s out calls. induction Hx as [|x xs Hf _ IH]; intros s out calls Hp E; cbn [map concat].
  { exists s. rewrite !app_nil_r. done. }
  unfold typed in E. cbn [map concat] in E. rewrite <- !app_assoc in E.
  destruct (sh_turn x w st s (typed xs rest) out (concat (map line_answers xs) ++ ans) calls Hf Hp E) as (s1 & Hp1 & E1 & H1).
  destruct (IH s1 (out ++ line_output x) (calls ++ line_calls x) Hp1 E1) as (s' & Hp' & E' & H'). exists s'. split_and!; [done|done|].
  rewrite <- app_assoc, H1, H'. by rewrite <- !app_assoc.
Qed.

(** [C11] The shell's session, on lines of at most 98 characters, none of them NUL or
    carriage return, each ended by a newline.  However its input is cut into pieces,
    the shell takes the lines one by one: it prompts, changes directory itself for
    cd (and reports a failure), and for any other line starts one process and waits
    for it, as long as fork succeeds.  When the lines are used up it prompts once
    more and exits; the process started for a line is the one that runs exactly
    that line; and a fork that fails ends the shell with a message. *)
Theorem sh_session xs w st s rest ans :
  Forall line_fits xs → pieces s → concat s = typed xs rest →
  let out := concat (map line_output xs) in
  let calls := concat (map line_calls xs) in
  let w0 := session w st s [] (concat (map line_answers xs) ++ ans) [] in
  (rest = [] → sh_loop @ w0 ⇓ tt @ session w st [] (out ++ chars "$ ") ans calls) ∧
  (∀ l rest' ans', rest = l ++ 10 :: rest' → line_chars l → (length l ≤ 98)%nat → is_cd (l ++ [10]) = false → ans = 0 :: ans' →
     ∃ s', pieces s' ∧ concat s' = rest' ∧
       meets sh_loop w0 ≈ meets (run_line (l ++ [10])) (session w st s' (out ++ chars "$ ") ans' (calls ++ [(CFork, 0)]))) ∧
  (∀ l rest' ans', rest = l ++ 10 :: rest' → line_chars l → (length l ≤ 98)%nat → is_cd (l ++ [10]) = false → ans = -1 :: ans' →
     ∃ s', pieces s' ∧ concat s' = rest' ∧
       sh_loop @ w0 ⇓ tt @ session w st s' (out ++ chars "$ fork" ++ [10]) ans' (calls ++ [(CFork, -1)])).
Proof.
  intros Hx Hp E out calls w0. destruct (sh_turns xs w st s rest [] ans [] Hx Hp E) as (s1 & Hp1 & E1 & H1).
  cbn [app] in H1. fold w0 out calls in H1. split_and!.
  - intros ->. assert (s1 = []) as ->. { destruct s1 as [|[|c x] s1]; [done|by inversion Hp1|done]. }
    rewrite H1. unfold sh_loop. apply runs_iter_done. unfold getcmd, gets. change (Z.to_nat (100 - 1)) with 99%nat.
    rewrite meets_bind_assoc. rewrite (uprintf_bind _ _ _ (chars "$ ")) by reflexivity. rewrite session_wrote.
    cbn [gets_loop]. rewrite !meets_bind_assoc. rewrite (read_runs 0 1 (UFile st [])) by (apply lookup_insert_eq). cbn [read_some uf_data fst snd uf_stat].
    rewrite session_opened.
    rewrite runs_bind by apply runs_ret. rewrite runs_bind by apply runs_ret. apply runs_ret.
  - intros l rest' ans' -> Hl Hn Hc ->.
    destruct (getcmd_runs l w st s1 rest' out (0 :: ans') calls Hl Hn Hp1 E1) as (s' & Hp' & E' & Hg).
    exists s'. split_and!; [done|done|]. rewrite H1. unfold sh_loop. apply runs_iter_last.
    rewrite (runs_bind _ _ _ _ _ Hg). change (0 <? 0) with false. cbv iota. rewrite Hc, session_call. done.
  - intros l rest' ans' -> Hl Hn Hc ->.
    destruct (getcmd_runs l w st s1 rest' out (-1 :: ans') calls Hl Hn Hp1 E1) as (s' & Hp' & E' & Hg).
    exists s'. split_and!; [done|done|]. rewrite H1. unfold sh_loop. apply runs_iter_done.
    rewrite (runs_bind _ _ _ _ _ Hg). change (0 <? 0) with false. cbv iota. rewrite Hc, session_call. change (-1 =? -1) with true. cbv iota.
    unfold sh_panic. cbn [denote]. rewrite meets_bind_assoc. rewrite (runs_bind _ _ _ _ _ (put_chars_runs _ _ _)), session_wrote, <- app_assoc.
    rewrite runs_bind by apply runs_ret. apply runs_ret.
Qed.

(** "cd x" fails, "ls" runs as process 5, and for "wc" we look at the child. *)
Definition demo_typed : list cmdline := [(chars "cd x", (-1, 0)); (chars "ls", (5, 5))].
Definition demo_input : list (list Z) := [chars "cd "; chars "x" ++ [10] ++ chars "l"; chars "s" ++ [10] ++ chars "wc" ++ [10]].

Lemma sh_session_witness :
  ∃ s', concat s' = [] ∧
    meets sh_loop (session demo_world (Stat 3 1 2 1 0) demo_input [] [-1; 5; 5; 0] []) ≈
    meets (run_line (chars "wc" ++ [10]))
      (session demo_world (Stat 3 1 2 1 0) s' (chars "$ cannot cd x" ++ [10] ++ chars "$ $ ") []
         [(CChdir (chars "x"), -1); (CFork, 5); (CWait, 5); (CFork, 0)]).
Proof.
  destruct (sh_session demo_typed demo_world (Stat 3 1 2 1 0) demo_input (chars "wc" ++ [10]) [0]) as (_ & H & _).
  - repeat constructor; cbn; lia || done.
  - by repeat constructor.
  - reflexivity.
  - destruct (H (chars "wc") [] [] eq_refl) as (s' & _ & E & Hs); [by repeat constructor|cbn; lia|done|done|].
    exists s'. split; [exact E|exact Hs].
Defined.

(** ** init *)

Definition zombies (n : nat) : list Z := concat (replicate n (chars "zombie!" ++ [10])).

Lemma init_wait_runs pid zs last ans w :
  Forall (λ z, 0 ≤ z ∧ z ≠ pid) zs → last = pid ∨ last < 0 → w_answers w = zs ++ last :: ans →
  init_wait pid @ w ⇓ tt @ World (w_files w) (w_fds w) (w_out w ++ map (pair 1) (zombies (length zs))) ans
                            (w_calls w ++ map (pair CWait) (zs ++ [last])).
Proof.
  intros Hz Hl. revert w. induction Hz as [|z zs [H0 Hne] _ IH]; intros w Hans; unfold init_wait.
  - apply runs_iter_done. rewrite (answered_runs _ last ans) by done.
    assert ((0 <=? last) && negb (last =? pid) = false) as ->.
    { destruct Hl as [->|]; [rewrite Z.eqb_refl; by destruct (0 <=? pid)|]. by rewrite (proj2 (Z.leb_gt _ _)) by lia. }
    cbn. rewrite app_nil_r. apply runs_ret.
  - rewrite runs_iter_again.
    2:{ rewrite (answered_runs _ z (zs ++ last :: ans)) by done. rewrite (proj2 (Z.leb_le _ _)), (proj2 (Z.eqb_neq _ _)) by done.
        cbn [negb andb]. rewrite (uprintf_bind _ _ _ (chars "zombie!" ++ [10])) by reflexivity. apply runs_ret. }
    fold (init_wait pid). rewrite IH by done. cbn [w_files w_fds w_out w_calls wrote_to length app map].
    unfold zombies. cbn [replicate concat]. by rewrite (map_app (pair 1)), <- !app_assoc.
Qed.

Lemma dup_runs {R} fd i f (k : Z → process R) w :
  w_fds w !! fd = Some f → fd_free (w_fds w) = Some i →
  meets (ITree.bind (trigger (Dup fd)) k) w ≈ meets (k i) (opened i f w).
Proof. intros H Hi. rewrite runs_call_bind. cbn [handle]. unfold handle_dup. by rewrite H, Hi. Qed.

(** The console is there: init opens it three times over and goes into its loop, in
    which every shell that ends is followed by another. *)
Lemma init_respawns f pid zs last ans w :
  w_files w !! chars "console" = Some f → w_fds w = ∅ → 0 < pid → Forall (λ z, 0 ≤ z ∧ z ≠ pid) zs → last = pid ∨ last < 0 →
  w_answers w = pid :: zs ++ last :: ans →
  let w1 := World (w_files w) (<[2 := f]> (<[1 := f]> (<[0 := f]> ∅)))
              (w_out w ++ map (pair 1) (chars "init: starting sh" ++ [10] ++ zombies (length zs))) ans
              (w_calls w ++ (CFork, pid) :: map (pair CWait) (zs ++ [last])) in
  meets init_main w ≈ meets init_loop w1.
Proof.
  intros Hf Hfds Hpid Hz Hl Hans w1. unfold init_main.
  rewrite (open_runs 0 _ _ f) by (rewrite ?Hfds; done). change (0 <? 0) with false. cbv iota.
  rewrite runs_bind by apply runs_ret. rewrite (dup_runs 0 1 f) by (unfold opened; cbn [w_fds set_fds]; rewrite Hfds; done).
  rewrite (dup_runs 0 2 f) by (unfold opened; cbn [w_fds set_fds]; rewrite Hfds; done).
  unfold opened, set_fds, init_loop. cbn [w_files w_fds w_out w_answers w_calls]. rewrite Hfds.
  rewrite runs_iter_again; [reflexivity|].
  rewrite (uprintf_bind _ _ _ (chars "init: starting sh" ++ [10])) by reflexivity.
  rewrite (answered_runs _ pid (zs ++ last :: ans)) by done. rewrite (proj2 (Z.ltb_ge _ _)), (proj2 (Z.eqb_neq _ _)) by lia.
  rewrite runs_bind by (by apply (init_wait_runs pid zs last ans)). cbn [w_files w_fds w_out w_calls wrote_to set_fds].
  rewrite runs_ret. unfold w1. by rewrite !map_app, <- !app_assoc.
Qed.

(** ** ls *)

Definition ls_text (name : list Z) (st : stat_t) : list Z :=
  fmtname name ++ [32] ++ int_chars true (i32 (st_type st)) 10 true ++ [32] ++ int_chars true (i32 (st_ino st)) 10 true ++ [32] ++
  int_chars true (i32 (st_size st)) 10 true ++ [10].

Lemma ls_line_runs name st w : ls_line name st @ w ⇓ tt @ wrote_to 1 (ls_text name st) w.
Proof. by apply uprintf_runs. Qed.

Lemma stat_runs path f w :
  w_files w !! path = Some f → is_Some (fd_free (w_fds w)) → stat path @ w ⇓ Some (uf_stat f) @ w.
Proof.
  intros Hf [fd Hfd]. unfold stat. rewrite (open_runs fd _ _ f) by done. destruct (fd_free_spec _ _ Hfd) as [_ Hr].
  rewrite (proj2 (Z.ltb_ge _ _)) by lia. rewrite runs_call_bind. cbn [handle fst snd]. rewrite opened_fd.
  rewrite <- (wrote_to_nil 1 (opened fd f w)). edestruct close_runs as [x Hx]; [done|]. rewrite Hx, wrote_to_nil. apply runs_ret.
Qed.
Lemma stat_missing path w : w_files w !! path = None → stat path @ w ⇓ None @ w.
Proof. intros Hf. unfold stat. rewrite open_missing by done. apply runs_ret. Qed.

(** The line for a directory entry; a slot that is not in use has none. *)
Definition entry_path (path de : list Z) : list Z := path ++ [47] ++ until_nul (take DIRSIZ (de_name de)).
Definition entry_text (files : gmap (list Z) ufile) (path de : list Z) : list Z :=
  if de_inum de =? 0 then []
  else match files !! entry_path path de with
       | Some f => ls_text (entry_path path de) (uf_stat f)
       | None => chars "ls: cannot stat " ++ entry_path path de ++ [10]
       end.

Lemma read_entry de rest : length de = 16%nat → read_some DIRENT (file_stream (de ++ rest)) = (de, file_stream rest).
Proof. intros H. rewrite read_some_file. change (Z.to_nat DIRENT) with 16%nat. by rewrite <- H, take_app_length, drop_app_length. Qed.

(** Which descriptors are free does not depend on what is behind the others. *)
Lemma fd_free_opened fd x y w : fd_free (w_fds (opened fd x w)) = fd_free (w_fds (opened fd y w)).
Proof.
  unfold fd_free. induction (seqZ 0 16) as [|i l IH]; [done|]. cbn [find]. rewrite IH.
  assert (bool_decide (w_fds (opened fd x w) !! i = None) = bool_decide (w_fds (opened fd y w) !! i = None)) as ->; [|done].
  unfold opened. cbn. destruct (decide (fd = i)) as [->|]; [by rewrite !lookup_insert_eq|by rewrite !lookup_insert_ne].
Qed.

Lemma ls_entries_runs fd path des st w :
  Forall (λ de, length de = 16%nat) des → is_Some (fd_free (w_fds (opened fd (UFile st []) w))) →
  ls_entries fd path @ opened fd (UFile st (file_stream (concat des))) w ⇓ tt @
    wrote_to 1 (concat (map (entry_text (w_files w) path) des)) (opened fd (UFile st []) w).
Proof.
  intros Hd Hfd. revert w Hfd. induction Hd as [|de des Hde _ IH]; intros w Hfd; unfold ls_entries.
  { apply runs_iter_done. rewrite (read_runs fd _ _ _ _ (opened_fd _ _ _)), opened_twice. cbn. rewrite wrote_to_nil. apply runs_ret. }
  set (w1 := opened fd (UFile st (file_stream (concat des))) w).
  rewrite (runs_iter_again _ _ _ tt (wrote_to 1 (entry_text (w_files w) path de) w1)).
  - fold (ls_entries fd path). unfold w1. rewrite <- opened_wrote, IH by done. rewrite opened_wrote, wrote_to_app. done.
  - rewrite (read_runs fd _ _ _ _ (opened_fd _ _ _)), opened_twice. cbn [uf_data uf_stat concat]. rewrite read_entry by done. cbn [fst snd].
    fold w1. rewrite Hde. change (Z.of_nat 16 =? DIRENT) with true. cbn [negb]. unfold entry_text.
    destruct (de_inum de =? 0); [rewrite wrote_to_nil; apply runs_ret|]. fold (entry_path path de).
    destruct (w_files w !! entry_path path de) as [f|] eqn:Ef.
    + rewrite runs_bind by (apply (stat_runs _ f); [done|unfold w1; by rewrite (fd_free_opened fd _ (UFile st []))]).
      rewrite runs_bind by apply ls_line_runs. apply runs_ret.
    + rewrite runs_bind by (by apply stat_missing).
      rewrite (uprintf_bind _ _ _ (chars "ls: cannot stat " ++ entry_path path de ++ [10])) by reflexivity. apply runs_ret.
Qed.

(** ls of a directory prints one line for each entry that is in use, in the order
    of the directory: the name padded to fourteen characters, the type, the inode
    number and the size; an entry that cannot be opened is reported.  It leaves the
    descriptors as they were. *)
Theorem ls_lists path des st w fd :
  w_files w !! path = Some (UFile st (file_stream (concat des))) → st_type st = T_DIR → Forall (λ de, length de = 16%nat) des →
  fd_free (w_fds w) = Some fd → is_Some (fd_free (w_fds (opened fd (UFile st []) w))) → (length path ≤ 496)%nat →
  ls path @ w ⇓ tt @ wrote_to 1 (concat (map (entry_text (w_files w) path) des)) w.
Proof.
  intros Hf Hty Hd Hfd Hfd2 Hlen. unfold ls. rewrite (open_runs fd _ _ _) by done. destruct (fd_free_spec _ _ Hfd) as [_ Hr].
  rewrite (proj2 (Z.ltb_ge _ _)) by lia. rewrite runs_call_bind. cbn [handle fst snd]. rewrite opened_fd. cbn [uf_stat fmap option_fmap option_map].
  rewrite Hty. change (T_DIR =? T_FILE) with false. change (T_DIR =? T_DIR) with true. cbv iota.
  rewrite (proj2 (Nat.ltb_ge _ _)) by (change DIRSIZ with 14%nat; lia).
  rewrite runs_bind by (by apply ls_entries_runs). edestruct close_runs as [x Hx]; [done|]. rewrite Hx. apply runs_ret.
Qed.

(** A directory with the entries "." and "f" and an unused slot. *)
Definition demo_dirent (inum : Z) (name : string) : list Z := [inum; 0] ++ chars name ++ replicate (14 - String.length name) 0.
Definition demo_entries : list (list Z) := [demo_dirent 1 "."; demo_dirent 0 "old"; demo_dirent 3 "f"].
Definition demo_ls_world : world :=
  World (<[chars "d" := UFile (Stat 1 1 1 1 48) (file_stream (concat demo_entries))]>
        (<[chars "d/." := UFile (Stat 1 1 1 1 48) []]> (<[chars "d/f" := UFile (Stat 2 1 3 1 11) []]> ∅))) ∅ [] [] [].

Lemma ls_lists_witness :
  ls (chars "d") @ demo_ls_world ⇓ tt @
    wrote_to 1 (chars ".              1 1 48" ++ [10] ++ chars "f              2 3 11" ++ [10]) demo_ls_world.
Proof.
  exact (ls_lists (chars "d") demo_entries (Stat 1 1 1 1 48) demo_ls_world 0 eq_refl eq_refl
    ltac:(by repeat constructor) eq_refl (ex_intro _ 1 eq_refl) ltac:(cbn; lia)).
Defined.

(** ** mkdir, rm, kill, echo *)

(** The calls for the arguments in turn, up to the first that fails: the calls made,
    the answers left, and the argument that failed. *)
Fixpoint until_failure (mk : list Z → ucall) (args : list (list Z)) (ans : list Z) : list (ucall * Z) * list Z * option (list Z) :=
  match args with
  | [] => ([], ans, None)
  | a :: args' =>
      match ans with
      | [] => ([(mk a, -1)], [], Some a)
      | x :: ans' =>
          if x <? 0 then ([(mk a, x)], ans', Some a)
          else let '(calls, rest, failed) := until_failure mk args' ans' in ((mk a, x) :: calls, rest, failed)
      end
  end.
Definition fail_text (pre post : list Z) (failed : option (list Z)) : list Z :=
  match failed with Some a => pre ++ a ++ post ++ [10] | None => [] end.
Definition after_calls (w : world) (r : list (ucall * Z) * list Z * option (list Z)) (pre post : list Z) : world :=
  World (w_files w) (w_fds w) (w_out w ++ map (pair 2) (fail_text pre post r.2)) r.1.2 (w_calls w ++ r.1.1).

(** mkdir and rm make their calls in order, stop at the first that fails, and report
    it. *)
Lemma mkdir_args_runs args w :
  mkdir_args args @ w ⇓ tt @ after_calls w (until_failure CMkdir args (w_answers w)) (chars "mkdir: ") (chars " failed to create").
Proof.
  revert w. induction args as [|a args IH]; intros w; cbn [mkdir_args until_failure].
  { unfold after_calls. cbn. rewrite !app_nil_r. destruct w. apply runs_ret. }
  destruct (w_answers w) as [|x ans] eqn:Ea.
  - rewrite runs_call_bind. cbn [handle]. unfold answered. rewrite Ea. cbn [fst snd]. change (-1 <? 0) with true. cbv iota.
    by rewrite (uprintf_runs _ _ _ (chars "mkdir: " ++ a ++ chars " failed to create" ++ [10])) by reflexivity.
  - rewrite (answered_runs _ x ans) by done. destruct (x <? 0).
    + by rewrite (uprintf_runs _ _ _ (chars "mkdir: " ++ a ++ chars " failed to create" ++ [10])) by reflexivity.
    + rewrite IH. cbn [w_answers]. unfold after_calls. destruct (until_failure _ args ans) as [[calls rest] failed]. cbn.
      by rewrite <- app_assoc.
Qed.
Lemma rm_args_runs args w :
  rm_args args @ w ⇓ tt @ after_calls w (until_failure CUnlink args (w_answers w)) (chars "rm: ") (chars " failed to delete").
Proof.
  revert w. induction args as [|a args IH]; intros w; cbn [rm_args until_failure].
  { unfold after_calls. cbn. rewrite !app_nil_r. destruct w. apply runs_ret. }
  destruct (w_answers w) as [|x ans] eqn:Ea.
  - rewrite runs_call_bind. cbn [handle]. unfold answered. rewrite Ea. cbn [fst snd]. change (-1 <? 0) with true. cbv iota.
    by rewrite (uprintf_runs _ _ _ (chars "rm: " ++ a ++ chars " failed to delete" ++ [10])) by reflexivity.
  - rewrite (answered_runs _ x ans) by done. destruct (x <? 0).
    + by rewrite (uprintf_runs _ _ _ (chars "rm: " ++ a ++ chars " failed to delete" ++ [10])) by reflexivity.
    + rewrite IH. cbn [w_answers]. unfold after_calls. destruct (until_failure _ args ans) as [[calls rest] failed]. cbn.
      by rewrite <- app_assoc.
Qed.

(** echo writes its arguments with a space between them and a newline behind. *)
Lemma echo_args_runs a args w :
  echo_args (a :: args) @ w ⇓ tt @ wrote_to 1 (foldl (λ out x, out ++ [32] ++ x) a args ++ [10]) w.
Proof.
  assert (∀ out x l, foldl (λ o y, o ++ [32] ++ y) (out ++ x) l = out ++ foldl (λ o y, o ++ [32] ++ y) x l) as Hf.
  { intros out x l. revert x. induction l as [|y l IH]; intros x; [done|]. cbn [foldl]. by rewrite <- IH, !app_assoc. }
  assert (∀ x y, printf (chars "%s%s") [Astr (Some x); Astr (Some y)] = Some (x ++ y ++ [])) as Hp by done.
  revert a w. induction args as [|b args IH]; intros a w.
  - cbn [echo_args]. rewrite (uprintf_bind _ _ _ _ _ _ (Hp _ _)), app_nil_r. apply runs_ret.
  - change (echo_args (a :: b :: args)) with
      (uprintf 1 (chars "%s%s") [Astr (Some a); Astr (Some [32])] ;*; echo_args (b :: args)).
    rewrite (uprintf_bind _ _ _ _ _ _ (Hp _ _)), app_nil_r, IH, wrote_to_app. cbn [foldl].
    by rewrite (app_assoc a), (Hf (a ++ [32]) b args), <- !app_assoc.
Qed.

(** atoi on a string in memory and on the list of its characters. *)
Lemma atoi_from_loop m s l fuel n :
  cstr m s l → (length l < fuel)%nat → atoi_loop fuel m s n = Some (atoi_from l n).
Proof.
  revert s fuel n. induction l as [|c l IH]; intros s [|fuel] n Hs Hf; try (cbn in Hf; lia); cbn [atoi_loop atoi_from cstr] in *.
  - by rewrite Hs.
  - destruct Hs as (-> & _ & Hs). case_match; [|done]. apply IH; [done|cbn in Hf; lia].
Qed.
Lemma uatoi_atoi m s l fuel : cstr m s l → (length l < fuel)%nat → atoi fuel m s = Some (uatoi l).
Proof. apply atoi_from_loop. Qed.

(** kill: one call for each argument, whatever the answers. *)
Lemma kill_args_runs args ans w :
  w_answers w = ans → length ans = length args →
  kill_args args @ w ⇓ tt @ World (w_files w) (w_fds w) (w_out w) [] (w_calls w ++ zip (map (λ a, CKill (uatoi a)) args) ans).
Proof.
  revert ans w. induction args as [|a args IH]; intros [|x ans] w Ha Hl; try done; cbn [kill_args].
  - cbn. rewrite app_nil_r. destruct w. cbn in Ha. subst. apply runs_ret.
  - rewrite (answered_runs _ x ans) by done. rewrite (IH ans) by (done || cbn in Hl; lia). cbn. by rewrite <- app_assoc.
Qed.

(** sh opens the console until it gets a descriptor above the standard ones. *)
Lemma sh_console_runs f fd w :
  w_files w !! chars "console" = Some f → fd_free (w_fds w) = Some fd → 3 ≤ fd → sh_console @ w ⇓ tt @ w.
Proof.
  intros Hf Hfd H3. unfold sh_console. apply runs_iter_done. rewrite (open_runs fd _ _ f) by done.
  rewrite (proj2 (Z.ltb_ge _ _)), (proj2 (Z.leb_le _ _)) by lia. rewrite <- (wrote_to_nil 1 (opened fd f w)).
  edestruct close_runs as [x Hx]; [done|]. rewrite Hx, wrote_to_nil. apply runs_ret.
Qed.

(** cd takes off the last character of its line whether or not it is a newline: at
    the end of the input, or when the line fills the buffer, it is part of the path. *)
Lemma cd_chops : cd_path (chars "cd bin" ++ [10]) = chars "bin" ∧ cd_path (chars "cd bin") = chars "bi".
Proof. done. Qed.
